(* ===== verification/_CoqProject ===== *)
-Q . S2P
Prelude.v
Md5.v
MapMd5.v
Phaser.v
Sigmux.v
Hde64.v
SubstrateX86.v
SubstrateArm.v
Hooks.v
Trampoline.v
ElfLib.v
SigSafe.v
SharedLibs.v
Linker.v
Utf8.v
ATrace.v
AllocTracker.v
JniEnv.v
ConvertUtf.v
LibcSupport.v
LineReader.v
LinuxDumper.v
PageAlloc.v
FileWriter.v
Descriptor.v
CrashHandler.v
DumpChild.v
MappedFile.v
FileId.v
DumpMd5.v
CpuInfo.v
Regions.v
SystemInfo.v
Registers.v
PtraceDumper.v
ThreadList.v
ModuleList.v
DsoDebug.v
ProcFiles.v
MinidumpWriter.v
MinidumpFile.v
