(* ===== verification/Prelude.v ===== *)
(** AndroidCollection, native layer: a verification library.

    The repository is a collection of Android applications and libraries. What
    has logic of its own in C and C++ is modelled here: hooking of functions
    through the global offset table (linker/, the same files in ThreadHook and
    atracehook) with the two libraries that use it, inline hooking (Substrate/
    in alloctrack) with the allocation tracker that uses it, the signing of
    requests (app), the string conversions and thread scopes of fbjni, and the
    part of breakpad that breakpad_build compiles into its library, which
    catches a crash and writes a dump. Paths are under src/;
    linker/ is ThreadHook/src/main/cpp/linker/, Substrate/ and fb/ are in
    alloctrack/src/main/cpp/, client/ and common/ are in
    breakpad_build/src/main/cpp/external/libbreakpad/src/.

    * The files

    - Prelude.v, this file: outcomes of C code, machine integers, bounded
      stores and loads, words as bytes, counting in maps, and the hints and
      tactics the components share.
    - Md5.v, app/src/main/cpp/md5.cpp: the MD5 object, its updates and digest.
      MapMd5.v, map_md5.cpp: the signature of a Java map, which uses it.
    - Phaser.v, linker/phaser.c: read-side sections and draining, as a
      transition system of atomic steps.
    - Sigmux.v, linker/sigmux.c: registrations of signal handlers in a linked
      list, dispatch, the fallback actions, initialisation of signals.
    - SigSafe.v, linker/sig_safe_write.c: operations that survive a fault, by a
      handler registered with Sigmux.v.
    - ElfLib.v, linker/elfSharedLibData.cpp: the dynamic section of a library,
      symbol lookup in both kinds of hash table, relocations.
    - SharedLibs.v, linker/sharedlibs.cpp and link.cpp: the cache of libraries.
    - Hooks.v, linker/hooks.cpp: the table of hooked slots and their run lists.
    - Trampoline.v, linker/trampoline.cpp: the code that a hooked slot points
      to, its allocator, and the per-thread stack of active hooks.
    - Linker.v, linker/linker.cpp: hooking and unhooking slots, symbols,
      libraries. Its [world] holds the states of the six files before it.
    - ATrace.v, atracehook ATraceLogger.cpp and ThreadHook threadHook.cpp: the
      clients of Linker.v.
    - Hde64.v, Substrate/hde64.c: the x86 instruction length disassembler.
      SubstrateX86.v, SubstrateX86.hpp and SubstrateHook.cpp: moving the first
      instructions of a function and jumping to the hook. SubstrateArm.v,
      SubstrateARM.hpp and SubstrateHook.cpp: the same on ARM and Thumb.
    - AllocTracker.v, alloctrack allocTracker.cpp, alloctracker.h, lock.cpp.
    - Utf8.v, fb/fbjni/detail/utf8.cpp: UTF-8, modified UTF-8, UTF-16.
    - JniEnv.v, fb/fbjni/detail/Environment.cpp: attaching threads to the
      virtual machine and caching their environment, in nested scopes.
    - CrashHandler.v, client/linux/handler/exception_handler.cc: installing and
      restoring the handlers of signals, the alternate stack, the stack of
      handlers, what a crash does. DumpChild.v, the same file: the child that
      writes the dump and the pipe on which it waits to be allowed to trace.
    - Descriptor.v, client/linux/handler/minidump_descriptor.cc and
      common/linux/guid_creator.cc: where a dump goes and how it is named.
    - PageAlloc.v, common/memory_allocator.h: memory in a crashed process.
      LibcSupport.v, common/linux/linux_libc_support.cc, and LineReader.v,
      client/linux/minidump_writer/line_reader.h: the C library and the lines of
      files, without the C library. LinuxDumper.v, linux_dumper.cc: mappings,
      auxiliary vector, stacks. MappedFile.v, common/memory_range.h,
      memory_mapped_file.cc, safe_readlink.cc. FileId.v, common/linux/file_id.cc
      and elfutils.cc: identifiers of modules.
    - FileWriter.v, client/minidump_file_writer.cc and its -inl.h: the file of a
      minidump, allocated and then written. ConvertUtf.v, common/convert_UTF.c
      and string_conversion.cc: the texts in it. DumpMd5.v, common/md5.cc.
    - PtraceDumper.v, client/linux/minidump_writer/linux_ptrace_dumper.cc and
      directory_reader.h: stopping the threads of a process, reading its memory,
      the list of its threads. Registers.v, client/linux/dump_writer_common: the
      registers of a thread. CpuInfo.v, minidump_writer/cpu_set.h and
      proc_cpuinfo_reader.h: the processors of the machine.
    - Of minidump_writer/minidump_writer.cc: Regions.v, copies of memory and the
      list of them; ThreadList.v, the threads, the exception, the memory of the
      application; ModuleList.v, the modules, with the names and identifiers of
      linux_dumper.cc; SystemInfo.v, the system and its processors; DsoDebug.v,
      what the dynamic linker has loaded; ProcFiles.v, whole files of the system;
      MinidumpWriter.v, the dump that is composed of these, from the crash to the
      file. MinidumpFile.v: what a reader of a complete file finds in it.

    * Conventions

    A function of the code is a definition of the same name. State that it
    changes is a record it takes and returns. [res] is the outcome: a value, or
    a fault, which is an access outside an object, the end of the process, a
    C++ exception, or the end of the model's fuel. Machine integers are in [Z],
    and [wrap] or [swrap] stands where the code converts or overflows. Pointers
    are integers, or references into a store where objects are shared, so that
    aliasing is that of the code. System calls, the loader, the JVM, the code
    behind function pointers, and values that C leaves indeterminate are
    arguments. Critical sections under a lock are single steps; what the code
    does without a lock is a transition system (Phaser.v, the one-shot handlers
    of Sigmux.v, the two halves of [add] in Hooks.v, the threads of
    AllocTracker.v).

    * What is shown

    - Refinement: any history of the table of hooks is one of a map from slots
      to run lists ([hooks_refine]); nested calls of hooked functions behave as
      a stack ([nested_hooks_return]); a dump that succeeds is a file from which
      each stream of its directory can be read: the threads with their stacks and
      registers, the modules, the exception, the system and the files of the
      process ([complete_dump]).
    - Round trips: hooking and unhooking restores the slot and the table
      ([hook_unhook_restores]); text survives modified UTF-8
      ([modified_utf8_round_trip]) and UTF-16 through UTF-8
      ([utf16_utf8_round_trip]); bytes are converted as UTF-8 where they do not have
      the illegal sequences that the code accepts
      ([ConvertUTF8toUTF16_converts]); a printed number is read back
      ([decimal_round_trip]).
    - Equivalence with a reference: MD5 is that of RFC 1321 ([digest_is_md5]);
      the signature is the MD5 of the sorted query ([signMap_is_query_md5]); the
      disassembler's addressing forms are the manual's
      ([addressing_is_manual]); UTF-16 is encoded as its codes
      ([utf16toUTF8_encodes]); the compression function of common/md5.cc is that
      of the RFC too ([MD5Transform_is_rfc]), though its digest is not.
    - Safety: a drain outlives the sections it waits for
      ([drain_waits_for_sections]); writes to memory are all or nothing
      ([sig_safe_write_all_or_nothing]); trampolines and moved code stay inside
      their mappings ([trampolines_intact], [substrate_x86_fits],
      [thumb_relocates], [arm_relocates]); a one-shot handler runs once,
      exactly when its flags are read before it ([oneshot_taken_once]).
    - Invariants: phaser counters, the linked list of registrations, the world
      after [linker_initialize], the trace tags under any sequence of enabling
      and restoring ([enable_restore_keeps_tags]), the thread scopes
      ([scopes_balance]), the list of mappings ([EnumerateMappings_covers]), the
      handlers of signals ([handlers_restored]).
    - Crash dumps: a crash is written once and then goes to the handler that was
      there before ([crash_is_handled_once]); the child traces only after it is
      allowed to ([child_waits_for_ptracer]) and the crashing process always goes
      on ([GenerateDump_returns]); what is written to a minidump is what is read
      at its locations ([blocks_read_back]); no two allocations overlap
      ([blocks_never_overlap]); a sanitized stack keeps only small integers and
      pointers to the stack or to code ([SanitizeStackCopy_spec]); the identifier
      of a module is that of its note, or a hash of its code
      ([identifier_of_file]). No thread stays stopped, whether a dump succeeds or
      not ([no_thread_left_traced], [suspend_resume_restores]); memory is copied
      word by word as it is ([CopyFromProcess_spec]); every thread is listed
      ([EnumerateThreads_spec]); both ways of filling a context give the registers
      of the thread ([context_registers]); every field of /proc/cpuinfo is read
      ([all_fields_in_order]).
    - Termination and progress: the disassembler on any bytes ([hde64_total]),
      lookups on well-formed tables, draining once the sections are over
      ([drain_terminates]), sections at any time ([sections_never_block]).
    - Errors: where the code misses what it means to do, a theorem states what
      it does instead ([failed_patch_stays_hooked], [enable_accumulates],
      [lock_excludes_nobody], [wide_branch_lost], [removed_fully_not_filled],
      [dvm_data_freed_twice], [hookFunc_symbols], and
      theorems of the other files).

    * Bounds and fuel

    Recursion is structural wherever the code's loop is bounded by its data; the
    disassembler's prefixes are at most 16, as in the code. Its two searches of
    subtables have fuel 16, more than a subtable has entries. The loops that
    measure the code to be moved have the number of bytes that the jump
    overwrites, as an instruction has one byte at least. The walk along the
    signal handlers has the number of registrations. The theorems that these
    functions return show each to be enough. The fuel of a symbol lookup, of a
    dynamic table and of a printed string is a parameter; the theorems ask for
    the number of symbols, of entries, of bytes. The conversions of text have
    one step for each unit of the source; the search of a note has the number of
    bytes of the file, as a note takes twelve at least; the code is hashed in at
    most 256 blocks of 16 bytes; the updates of common/md5.cc have one step for
    each block of 64; a crash is followed for two
    deliveries of the signal, after which the theorems show it is settled. Lengths that must fit a machine
    word are hypotheses where the code does not test them.
    In the writer of dumps, the list of processors has one step for each byte of
    its text and one more, and a range of them as many as a parameter says; the
    fields of /proc/cpuinfo have the bytes of the file and two more, the features
    of a processor the bytes of their line and one more; memory is copied in one
    step for each byte and one more; the threads have one step each and one more,
    as do the entries of a directory, through a parameter; a stack is skipped in
    at most a page and one step; a file is read in one step for each byte and one
    more; the list of loaded libraries, which can be cyclic, has a parameter.

    * What is not modelled

    Of breakpad, the writer of microdumps is left, and all that breakpad_build
    does not compile: the processor of dumps, the tools, other systems, the
    tests. linux_syscall_support.h is vendored. ABIs are those of the build,
    armeabi-v7a and arm64-v8a.
    The rest of fb/ wraps JNI references and exceptions and prints stack traces.
    dlopen.c writes machine code over a JNI function; its effect, dlopen and
    dlsym, is a parameter. native_crash_cache.cpp of app is unfinished. The
    assembly of the trampolines is a parameter, as bytes. Java, Gradle and JNI
    registration code, logging and the debug output of Substrate are left out,
    as is the pipe strategy of the phaser, which is not compiled on Linux. *)
From Stdlib Require Export ZArith Lia List Bool.
From stdpp Require Export base tactics numbers list option gmap strings sorting relations.
Export ListNotations.

#[global] Open Scope Z_scope.

(** * Outcomes of C code

    A run of a C function gives a value, or it leaves the language: an access
    outside an object ([OutOfBounds]), a call that ends the process
    ([Aborted]), a C++ exception ([Thrown]), or a loop that has used up the
    fuel of the model ([OutOfFuel]). *)
Inductive fault :=
| OutOfBounds
| Aborted
| Thrown
| OutOfFuel.

Inductive res (A : Type) : Type :=
| Ret (a : A)
| Fault (f : fault).
Arguments Ret {A} a.
Arguments Fault {A} f.

#[export] Instance fault_eq_dec : EqDecision fault.
Proof. solve_decision. Defined.

#[export] Instance res_eq_dec {A} `{EqDecision A} : EqDecision (res A).
Proof. solve_decision. Defined.

#[export] Instance res_ret : MRet res := fun A a => Ret a.
#[export] Instance res_bind : MBind res :=
  fun A B k m => match m with Ret a => k a | Fault f => Fault f end.
#[export] Instance res_fmap : FMap res :=
  fun A B g m => match m with Ret a => Ret (g a) | Fault f => Fault f end.

(** Reading an option as an access that is out of bounds when it is [None]. *)
Definition get_or_oob {A} (o : option A) : res A :=
  match o with Some a => Ret a | None => Fault OutOfBounds end.

Lemma bind_Ret {A B} (a : A) (k : A -> res B) : (Ret a ≫= k) = k a.
Proof. reflexivity. Qed.

Lemma Ret_inj {A} (a b : A) : Ret a = Ret b -> a = b.
Proof. by intros [= ->]. Qed.

Lemma bind_Ret_inv {A B} (m : res A) (k : A -> res B) (b : B) :
  (m ≫= k) = Ret b -> exists a, m = Ret a /\ k a = Ret b.
Proof. destruct m as [a|f]; cbn; intros H; [by exists a | discriminate]. Qed.

Lemma bind_assoc {A B C} (m : res A) (k : A -> res B) (h : B -> res C) :
  ((m ≫= k) ≫= h) = (m ≫= (fun a => k a ≫= h)).
Proof. by destruct m. Qed.

(** * Machine integers

    An unsigned integer of [w] bits is its value in [Z]; [wrap w] is the
    conversion to that type, and [swrap w] the conversion to the signed type
    of the same width. *)
Definition wrap (w z : Z) : Z := z mod 2 ^ w.
Definition swrap (w z : Z) : Z :=
  if wrap w z <? 2 ^ (w - 1) then wrap w z else wrap w z - 2 ^ w.

Abbreviation u8 := (wrap 8).
Abbreviation u16 := (wrap 16).
Abbreviation u32 := (wrap 32).
Abbreviation u64 := (wrap 64).
Abbreviation i8 := (swrap 8).
Abbreviation i32 := (swrap 32).

Definition in_range (w z : Z) : Prop := 0 <= z < 2 ^ w.

(** The bytes of a string literal. *)
Definition literal (s : String.string) : list Z :=
  map (fun c => Z.of_nat (Ascii.nat_of_ascii c)) (String.list_ascii_of_string s).

(** A byte string: the [unsigned char]s in memory order. *)
Definition bytes_ok (l : list Z) : Prop := Forall (in_range 8) l.

#[export] Instance in_range_dec w z : Decision (in_range w z).
Proof. unfold in_range. apply _. Defined.

Create HintDb words.
Create Rewrite HintDb words.

Lemma wrap_range w z : 0 <= w -> in_range w (wrap w z).
Proof. intros Hw. apply Z.mod_pos_bound. lia. Qed.

Lemma wrap_small w z : in_range w z -> wrap w z = z.
Proof. intros H. by apply Z.mod_small. Qed.

Lemma wrap_wrap w z : 0 <= w -> wrap w (wrap w z) = wrap w z.
Proof. intros H. apply wrap_small, wrap_range, H. Qed.

Lemma wrap_add_l w a b : wrap w (wrap w a + b) = wrap w (a + b).
Proof. unfold wrap. by rewrite Zplus_mod_idemp_l. Qed.

Lemma wrap_add_r w a b : wrap w (a + wrap w b) = wrap w (a + b).
Proof. unfold wrap. by rewrite Zplus_mod_idemp_r. Qed.

Lemma wrap_sub_l w a b : wrap w (wrap w a - b) = wrap w (a - b).
Proof. unfold wrap. by rewrite Zminus_mod_idemp_l. Qed.

Lemma wrap_sub_r w a b : wrap w (a - wrap w b) = wrap w (a - b).
Proof. unfold wrap. by rewrite Zminus_mod_idemp_r. Qed.

Lemma wrap_land_ones w z : 0 <= w -> Z.land z (Z.ones w) = wrap w z.
Proof. intros H. by rewrite Z.land_ones. Qed.

Lemma wrap_testbit w z i : 0 <= w -> 0 <= i ->
  Z.testbit (wrap w z) i = (i <? w) && Z.testbit z i.
Proof.
  intros Hw Hi. unfold wrap. destruct (Z.ltb_spec i w).
  - by rewrite Z.mod_pow2_bits_low.
  - by rewrite Z.mod_pow2_bits_high by lia.
Qed.

Lemma swrap_range w z : 0 < w -> - 2 ^ (w - 1) <= swrap w z < 2 ^ (w - 1).
Proof.
  intros Hw. unfold swrap.
  pose proof (wrap_range w z ltac:(lia)) as [H1 H2].
  replace (2 ^ w) with (2 * 2 ^ (w - 1)) in *
    by (rewrite <- Z.pow_succ_r by lia; f_equal; lia).
  destruct (Z.ltb_spec (wrap w z) (2 ^ (w - 1))); lia.
Qed.

Lemma swrap_small w z : 0 < w -> - 2 ^ (w - 1) <= z < 2 ^ (w - 1) -> swrap w z = z.
Proof.
  intros Hw H. unfold swrap, wrap.
  assert (E : 2 ^ w = 2 * 2 ^ (w - 1))
    by (rewrite <- Z.pow_succ_r by lia; f_equal; lia).
  destruct (decide (0 <= z)).
  - rewrite Z.mod_small by lia. destruct (Z.ltb_spec z (2 ^ (w - 1))); lia.
  - replace (z mod 2 ^ w) with (z + 2 ^ w)
      by (apply Z.mod_unique with (-1); lia).
    destruct (Z.ltb_spec (z + 2 ^ w) (2 ^ (w - 1))); lia.
Qed.

Lemma swrap_wrap w z : 0 <= w -> swrap w (wrap w z) = swrap w z.
Proof. intros H. unfold swrap. by rewrite wrap_wrap. Qed.

Lemma wrap_swrap w z : 0 <= w -> wrap w (swrap w z) = wrap w z.
Proof.
  intros H. unfold swrap. destruct (_ <? _).
  - by apply wrap_wrap.
  - unfold wrap. rewrite Zminus_mod_idemp_l.
    replace (z - 2 ^ w) with (z + (-1) * 2 ^ w) by lia. apply Z_mod_plus_full.
Qed.

Lemma swrap_idem w z : 0 < w -> swrap w (swrap w z) = swrap w z.
Proof. intros H. apply swrap_small; [done|]. by apply swrap_range. Qed.

Lemma wrap_add_swrap w a b : 0 <= w -> wrap w (a + swrap w b) = wrap w (a + b).
Proof. intros H. by rewrite <- wrap_add_r, wrap_swrap, wrap_add_r. Qed.

Lemma swrap_sub_wrap w a b : 0 <= w -> swrap w (a - wrap w b) = swrap w (a - b).
Proof. intros H. by rewrite <- swrap_wrap, wrap_sub_r, swrap_wrap. Qed.

Lemma in_range_land w a b : 0 <= w -> in_range w a -> 0 <= b -> in_range w (Z.land a b).
Proof.
  intros Hw [Ha Ha'] Hb. split; [apply Z.land_nonneg; lia|].
  rewrite <- (Z.mod_small a (2 ^ w)) by lia. rewrite <- Z.land_ones by lia.
  rewrite <- Z.land_assoc, (Z.land_comm (Z.ones w)), Z.land_assoc, Z.land_ones by lia.
  apply Z.mod_pos_bound. lia.
Qed.

Lemma in_range_lor w a b : 0 <= w -> in_range w a -> in_range w b -> in_range w (Z.lor a b).
Proof.
  intros Hw Ha Hb.
  assert (E : Z.lor a b = wrap w (Z.lor a b)).
  { rewrite <- wrap_land_ones by lia. rewrite Z.land_lor_distr_l.
    rewrite !wrap_land_ones by lia. by rewrite !wrap_small. }
  rewrite E. by apply wrap_range.
Qed.

Lemma in_range_shiftr w a n : 0 <= n -> in_range w a -> in_range w (Z.shiftr a n).
Proof.
  intros Hn [Ha Ha']. split; [apply Z.shiftr_nonneg; lia|].
  rewrite Z.shiftr_div_pow2 by lia.
  apply Z.div_lt_upper_bound; [lia|]. nia.
Qed.

Lemma in_range_weaken w w' a : w <= w' -> in_range w a -> in_range w' a.
Proof.
  intros H [H1 H2]. split; [lia|]. destruct (decide (0 <= w)).
  - pose proof (Z.pow_le_mono_r 2 w w'). lia.
  - rewrite Z.pow_neg_r in H2 by lia. lia.
Qed.

(** ** One bit above a small number *)

Lemma land_pow2_small k n : 0 <= k -> 0 <= n < 2 ^ k -> Z.land n (2 ^ k) = 0.
Proof.
  intros Hk Hn. apply Z.bits_inj'. intros i Hi.
  rewrite Z.land_spec, Z.bits_0, Z.pow2_bits_eqb by lia.
  destruct (Z.eqb_spec k i) as [<-|]; [|by rewrite andb_false_r].
  rewrite andb_true_r. apply Z.testbit_false; [lia|]. by rewrite Z.div_small.
Qed.

Lemma lor_pow2_small k n : 0 <= k -> 0 <= n < 2 ^ k -> Z.lor n (2 ^ k) = 2 ^ k + n.
Proof.
  intros Hk Hn. pose proof (land_pow2_small k n Hk Hn) as E.
  rewrite Z.add_comm, Z.add_nocarry_lxor by done. symmetry. by apply Z.lxor_lor.
Qed.

Lemma land_pow2_high k n : 0 <= k -> 0 <= n < 2 ^ k -> Z.land (2 ^ k + n) (2 ^ k) = 2 ^ k.
Proof.
  intros Hk Hn. rewrite <- lor_pow2_small by done.
  by rewrite Z.land_lor_distr_l, land_pow2_small, Z.lor_0_l, Z.land_diag by done.
Qed.

Lemma ldiff_pow2_high k n : 0 <= k -> 0 <= n < 2 ^ k -> Z.ldiff (2 ^ k + n) (2 ^ k) = n.
Proof.
  intros Hk Hn. rewrite <- lor_pow2_small by done. apply Z.bits_inj'. intros i Hi.
  rewrite Z.ldiff_spec, Z.lor_spec, Z.pow2_bits_eqb by lia.
  destruct (Z.eqb_spec k i) as [<-|]; [|by rewrite orb_false_r, andb_true_r].
  rewrite andb_false_r. symmetry. apply Z.testbit_false; [lia|]. by rewrite Z.div_small.
Qed.

Lemma ldiff_pow2_small k n : 0 <= k -> 0 <= n < 2 ^ k -> Z.ldiff n (2 ^ k) = n.
Proof.
  intros Hk Hn. apply Z.bits_inj'. intros i Hi.
  rewrite Z.ldiff_spec, Z.pow2_bits_eqb by lia.
  destruct (Z.eqb_spec k i) as [<-|]; [|by rewrite andb_true_r].
  rewrite andb_false_r. symmetry. apply Z.testbit_false; [lia|]. by rewrite Z.div_small.
Qed.

(** Testing one bit of a word, [w & (1 << k)]. *)
Lemma land_bit b k : 0 <= k -> (Z.land b (Z.shiftl 1 k) =? 0) = negb (Z.testbit b k).
Proof.
  intros Hk. rewrite Z.shiftl_1_l. destruct (Z.testbit b k) eqn:E; cbn [negb].
  - apply Z.eqb_neq. intros H0. apply (f_equal (fun z => Z.testbit z k)) in H0.
    by rewrite Z.land_spec, Z.pow2_bits_true, E, Z.bits_0 in H0.
  - apply Z.eqb_eq. apply Z.bits_inj'. intros i Hi.
    rewrite Z.land_spec, Z.bits_0, Z.pow2_bits_eqb by lia.
    destruct (Z.eqb_spec k i) as [<-|]; [by rewrite E|by rewrite andb_false_r].
Qed.

Lemma in_range_bit w k : 0 <= k < w -> in_range w (Z.shiftl 1 k).
Proof.
  intros Hk. rewrite Z.shiftl_1_l. split; [lia|]. by apply Z.pow_lt_mono_r; lia.
Qed.

#[export] Hint Resolve wrap_range in_range_land in_range_lor in_range_shiftr : words.
#[export] Hint Rewrite wrap_add_l wrap_add_r wrap_sub_l wrap_sub_r : words.

(** * Memory as byte arrays *)

(** [memcpy(&buf[off], src, ...)]: [src] written at [off]. *)
Definition store {A} (buf : list A) (off : nat) (src : list A) : res (list A) :=
  if decide (off + length src <= length buf)%nat
  then Ret (take off buf ++ src ++ drop (off + length src) buf)
  else Fault OutOfBounds.

(** The [n] elements at [off]. *)
Definition load {A} (buf : list A) (off n : nat) : res (list A) :=
  if decide (off + n <= length buf)%nat
  then Ret (take n (drop off buf))
  else Fault OutOfBounds.

Lemma store_in_bounds {A} (buf : list A) off src :
  (off + length src <= length buf)%nat ->
  store buf off src = Ret (take off buf ++ src ++ drop (off + length src) buf).
Proof. intros H. unfold store. by rewrite decide_True. Qed.

Lemma store_length {A} (buf buf' : list A) off src :
  store buf off src = Ret buf' -> length buf' = length buf.
Proof.
  unfold store. case_decide; intros [= <-].
  rewrite !length_app, length_take, length_drop. lia.
Qed.

Lemma load_in_bounds {A} (buf : list A) off n :
  (off + n <= length buf)%nat -> load buf off n = Ret (take n (drop off buf)).
Proof. intros H. unfold load. by rewrite decide_True. Qed.

(** The bytes of an integer in memory order (the targets are little endian). *)
Fixpoint le_bytes (n : nat) (z : Z) : list Z :=
  match n with
  | O => []
  | S n => u8 z :: le_bytes n (Z.shiftr z 8)
  end.

Fixpoint le_val (l : list Z) : Z :=
  match l with
  | [] => 0
  | b :: l => b + Z.shiftl (le_val l) 8
  end.

Lemma length_le_bytes n z : length (le_bytes n z) = n.
Proof. revert z; induction n as [|n IH]; intros z; cbn; [done|by rewrite IH]. Qed.

Lemma le_bytes_ok n z : bytes_ok (le_bytes n z).
Proof.
  revert z; induction n as [|n IH]; intros z; cbn; [constructor|].
  constructor; [by apply wrap_range|apply IH].
Qed.

Lemma le_val_bytes n z : le_val (le_bytes n z) = wrap (8 * Z.of_nat n) z.
Proof.
  revert z; induction n as [|n IH]; intros z.
  - change (0 = z mod 1). by rewrite Z.mod_1_r.
  - cbn [le_bytes le_val]. rewrite IH. unfold wrap.
    rewrite Z.shiftl_mul_pow2, Z.shiftr_div_pow2 by lia.
    replace (8 * Z.of_nat (S n)) with (8 + 8 * Z.of_nat n) by lia.
    rewrite Z.pow_add_r by lia.
    rewrite (Z.rem_mul_r z) by lia. lia.
Qed.

Lemma le_val_range l : bytes_ok l -> in_range (8 * Z.of_nat (length l)) (le_val l).
Proof.
  induction 1 as [|b l [Hb Hb'] _ [IH IH']]; [by cbn|]. cbn [le_val length].
  unfold in_range. rewrite Z.shiftl_mul_pow2 by lia.
  replace (8 * Z.of_nat (S (length l))) with (8 + 8 * Z.of_nat (length l)) by lia.
  rewrite Z.pow_add_r by lia. change (2 ^ 8) with 256 in *. nia.
Qed.

Lemma le_bytes_val l : bytes_ok l -> le_bytes (length l) (le_val l) = l.
Proof.
  induction 1 as [|b l [Hb Hb'] _ IH]; [done|]. cbn [le_val length le_bytes].
  rewrite Z.shiftl_mul_pow2, Z.shiftr_div_pow2 by lia. f_equal.
  - unfold wrap. rewrite Z_mod_plus_full. by apply Z.mod_small.
  - rewrite Z.div_add, Z.div_small, Z.add_0_l by (unfold in_range in *; lia). apply IH.
Qed.

Lemma le_bytes_wrap n z : le_bytes n (wrap (8 * Z.of_nat n) z) = le_bytes n z.
Proof.
  rewrite <- le_val_bytes. rewrite <- (length_le_bytes n z) at 1.
  apply le_bytes_val, le_bytes_ok.
Qed.

(** * Counting the entries of a map *)

Section Count.
Context {K V : Type} `{Countable K}.

Definition map_count (P : V -> bool) (m : gmap K V) : Z :=
  Z.of_nat (size (filter (fun kv => P kv.2 = true) m)).

(** What an optional entry contributes. *)
Definition count_opt (P : V -> bool) (o : option V) : Z :=
  match o with Some v => Z.b2z (P v) | None => 0 end.

Lemma map_count_nonneg P (m : gmap K V) : 0 <= map_count P m.
Proof. unfold map_count. lia. Qed.

Lemma map_count_empty P : map_count P (∅ : gmap K V) = 0.
Proof. unfold map_count. by rewrite map_filter_empty, map_size_empty. Qed.

Lemma map_count_insert_new P (m : gmap K V) k v : m !! k = None ->
  map_count P (<[k := v]> m) = map_count P m + Z.b2z (P v).
Proof.
  intros Hk. unfold map_count. destruct (P v) eqn:E; cbn [Z.b2z].
  - rewrite map_filter_insert_True by done. rewrite map_size_insert_None; [lia|].
    apply map_lookup_filter_None. by left.
  - rewrite map_filter_insert_False by (cbn; congruence). rewrite delete_id by done. lia.
Qed.

Lemma map_count_insert P (m : gmap K V) k v :
  map_count P (<[k := v]> m) = map_count P m - count_opt P (m !! k) + Z.b2z (P v).
Proof.
  rewrite <- (insert_delete_eq m k v) at 1.
  rewrite map_count_insert_new by apply lookup_delete_eq.
  destruct (m !! k) as [o|] eqn:E; cbn [count_opt].
  - rewrite <- (insert_id m k o E) at 2. rewrite <- (insert_delete_eq m k o) at 1.
    rewrite map_count_insert_new by apply lookup_delete_eq. lia.
  - rewrite delete_id by done. lia.
Qed.

(** An entry that satisfies [P] counts. *)
Lemma map_count_pos P (m : gmap K V) k v : m !! k = Some v -> P v = true -> 0 < map_count P m.
Proof.
  intros Hk Hv. unfold map_count.
  assert (Hf : filter (fun kv => P kv.2 = true) m !! k = Some v)
    by (by apply map_lookup_filter_Some).
  destruct (decide (size (filter (fun kv => P kv.2 = true) m) = 0%nat)) as [E|]; [|lia].
  apply map_size_empty_iff in E. by rewrite E, lookup_empty in Hf.
Qed.

Lemma map_count_witness P (m : gmap K V) : 0 < map_count P m ->
  exists k v, m !! k = Some v /\ P v = true.
Proof.
  intros Hc. unfold map_count in Hc.
  destruct (map_choose (filter (fun kv => P kv.2 = true) m)) as (k & v & Hkv).
  - intros E. rewrite E, map_size_empty in Hc. lia.
  - apply map_lookup_filter_Some in Hkv as [Hk Hv]. by exists k, v.
Qed.
End Count.
