(* ===== verification/Md5.v ===== *)
(** The MD5 class of app/src/main/cpp/md5.cpp and include/md5.h: incremental
    hashing of byte strings. The state is the object's fields; [update],
    [final] and [digest] are state passing functions over it. The reference
    definition [Spec.md5] is the one of RFC 1321, and the theorems show that
    any sequence of updates followed by [digest] computes it. *)
From S2P Require Import Prelude.

Definition S11 : Z := 7.
Definition S12 : Z := 12.
Definition S13 : Z := 17.
Definition S14 : Z := 22.
Definition S21 : Z := 5.
Definition S22 : Z := 9.
Definition S23 : Z := 14.
Definition S24 : Z := 20.
Definition S31 : Z := 4.
Definition S32 : Z := 11.
Definition S33 : Z := 16.
Definition S34 : Z := 23.
Definition S41 : Z := 6.
Definition S42 : Z := 10.
Definition S43 : Z := 15.
Definition S44 : Z := 21.

(** [~x] on a [uint32]. *)
Definition not32 (x : Z) : Z := u32 (Z.lnot x).

Definition F (x y z : Z) : Z := Z.lor (Z.land x y) (Z.land (not32 x) z).
Definition G (x y z : Z) : Z := Z.lor (Z.land x z) (Z.land y (not32 z)).
Definition H (x y z : Z) : Z := Z.lxor (Z.lxor x y) z.
Definition I (x y z : Z) : Z := Z.lxor y (Z.lor x (not32 z)).

Definition ROTATE_LEFT (x n : Z) : Z :=
  Z.lor (u32 (Z.shiftl x n)) (Z.shiftr x (32 - n)).

Definition FF (a b c d x s ac : Z) : Z :=
  u32 (ROTATE_LEFT (u32 (a + u32 (F b c d + x + ac))) s + b).
Definition GG (a b c d x s ac : Z) : Z :=
  u32 (ROTATE_LEFT (u32 (a + u32 (G b c d + x + ac))) s + b).
Definition HH (a b c d x s ac : Z) : Z :=
  u32 (ROTATE_LEFT (u32 (a + u32 (H b c d + x + ac))) s + b).
Definition II (a b c d x s ac : Z) : Z :=
  u32 (ROTATE_LEFT (u32 (a + u32 (I b c d + x + ac))) s + b).

(** The registers [_state[0..3]], and the locals a, b, c, d. *)
Definition regs : Type := (Z * Z * Z * Z)%type.

Definition regs_list (r : regs) : list Z := let '(a, b, c, d) := r in [a; b; c; d].

(** The fields of the class. [_buffer] and [_digest] are not initialised by
    the constructors: their first contents are a parameter of the model. *)
Record MD5 := mkMD5 {
  _state : regs;
  _count : Z * Z;
  _buffer : list Z;
  _digest : list Z;
  _finished : bool;
}.

Definition PADDING : list Z := 0x80 :: replicate 63 0.
Definition HEX : list Z :=
  [48; 49; 50; 51; 52; 53; 54; 55; 56; 57; 97; 98; 99; 100; 101; 102].
Definition BUFFER_SIZE : nat := 1024.

(** ** encode and decode *)

Fixpoint encode (input : list Z) : list Z :=
  match input with
  | [] => []
  | w :: ws =>
      Z.land w 0xff :: Z.land (Z.shiftr w 8) 0xff ::
      Z.land (Z.shiftr w 16) 0xff :: Z.land (Z.shiftr w 24) 0xff :: encode ws
  end.

Fixpoint decode (input : list Z) : list Z :=
  match input with
  | b0 :: b1 :: b2 :: b3 :: bs =>
      Z.lor (Z.lor (Z.lor b0 (Z.shiftl b1 8)) (Z.shiftl b2 16)) (Z.shiftl b3 24)
      :: decode bs
  | _ => []
  end.

(** ** transform *)

Definition round1 (x : nat -> Z) (r : regs) : regs :=
  let '(a, b, c, d) := r in
  let a := FF a b c d (x 0%nat) S11 0xd76aa478 in
  let d := FF d a b c (x 1%nat) S12 0xe8c7b756 in
  let c := FF c d a b (x 2%nat) S13 0x242070db in
  let b := FF b c d a (x 3%nat) S14 0xc1bdceee in
  let a := FF a b c d (x 4%nat) S11 0xf57c0faf in
  let d := FF d a b c (x 5%nat) S12 0x4787c62a in
  let c := FF c d a b (x 6%nat) S13 0xa8304613 in
  let b := FF b c d a (x 7%nat) S14 0xfd469501 in
  let a := FF a b c d (x 8%nat) S11 0x698098d8 in
  let d := FF d a b c (x 9%nat) S12 0x8b44f7af in
  let c := FF c d a b (x 10%nat) S13 0xffff5bb1 in
  let b := FF b c d a (x 11%nat) S14 0x895cd7be in
  let a := FF a b c d (x 12%nat) S11 0x6b901122 in
  let d := FF d a b c (x 13%nat) S12 0xfd987193 in
  let c := FF c d a b (x 14%nat) S13 0xa679438e in
  let b := FF b c d a (x 15%nat) S14 0x49b40821 in
  (a, b, c, d).

Definition round2 (x : nat -> Z) (r : regs) : regs :=
  let '(a, b, c, d) := r in
  let a := GG a b c d (x 1%nat) S21 0xf61e2562 in
  let d := GG d a b c (x 6%nat) S22 0xc040b340 in
  let c := GG c d a b (x 11%nat) S23 0x265e5a51 in
  let b := GG b c d a (x 0%nat) S24 0xe9b6c7aa in
  let a := GG a b c d (x 5%nat) S21 0xd62f105d in
  let d := GG d a b c (x 10%nat) S22 0x2441453 in
  let c := GG c d a b (x 15%nat) S23 0xd8a1e681 in
  let b := GG b c d a (x 4%nat) S24 0xe7d3fbc8 in
  let a := GG a b c d (x 9%nat) S21 0x21e1cde6 in
  let d := GG d a b c (x 14%nat) S22 0xc33707d6 in
  let c := GG c d a b (x 3%nat) S23 0xf4d50d87 in
  let b := GG b c d a (x 8%nat) S24 0x455a14ed in
  let a := GG a b c d (x 13%nat) S21 0xa9e3e905 in
  let d := GG d a b c (x 2%nat) S22 0xfcefa3f8 in
  let c := GG c d a b (x 7%nat) S23 0x676f02d9 in
  let b := GG b c d a (x 12%nat) S24 0x8d2a4c8a in
  (a, b, c, d).

Definition round3 (x : nat -> Z) (r : regs) : regs :=
  let '(a, b, c, d) := r in
  let a := HH a b c d (x 5%nat) S31 0xfffa3942 in
  let d := HH d a b c (x 8%nat) S32 0x8771f681 in
  let c := HH c d a b (x 11%nat) S33 0x6d9d6122 in
  let b := HH b c d a (x 14%nat) S34 0xfde5380c in
  let a := HH a b c d (x 1%nat) S31 0xa4beea44 in
  let d := HH d a b c (x 4%nat) S32 0x4bdecfa9 in
  let c := HH c d a b (x 7%nat) S33 0xf6bb4b60 in
  let b := HH b c d a (x 10%nat) S34 0xbebfbc70 in
  let a := HH a b c d (x 13%nat) S31 0x289b7ec6 in
  let d := HH d a b c (x 0%nat) S32 0xeaa127fa in
  let c := HH c d a b (x 3%nat) S33 0xd4ef3085 in
  let b := HH b c d a (x 6%nat) S34 0x4881d05 in
  let a := HH a b c d (x 9%nat) S31 0xd9d4d039 in
  let d := HH d a b c (x 12%nat) S32 0xe6db99e5 in
  let c := HH c d a b (x 15%nat) S33 0x1fa27cf8 in
  let b := HH b c d a (x 2%nat) S34 0xc4ac5665 in
  (a, b, c, d).

Definition round4 (x : nat -> Z) (r : regs) : regs :=
  let '(a, b, c, d) := r in
  let a := II a b c d (x 0%nat) S41 0xf4292244 in
  let d := II d a b c (x 7%nat) S42 0x432aff97 in
  let c := II c d a b (x 14%nat) S43 0xab9423a7 in
  let b := II b c d a (x 5%nat) S44 0xfc93a039 in
  let a := II a b c d (x 12%nat) S41 0x655b59c3 in
  let d := II d a b c (x 3%nat) S42 0x8f0ccc92 in
  let c := II c d a b (x 10%nat) S43 0xffeff47d in
  let b := II b c d a (x 1%nat) S44 0x85845dd1 in
  let a := II a b c d (x 8%nat) S41 0x6fa87e4f in
  let d := II d a b c (x 15%nat) S42 0xfe2ce6e0 in
  let c := II c d a b (x 6%nat) S43 0xa3014314 in
  let b := II b c d a (x 13%nat) S44 0x4e0811a1 in
  let a := II a b c d (x 4%nat) S41 0xf7537e82 in
  let d := II d a b c (x 11%nat) S42 0xbd3af235 in
  let c := II c d a b (x 2%nat) S43 0x2ad7d2bb in
  let b := II b c d a (x 9%nat) S44 0xeb86d391 in
  (a, b, c, d).

Definition transform (st : regs) (block : list Z) : regs :=
  let x := fun k => nth k (decode block) 0 in
  let '(a, b, c, d) := round4 x (round3 x (round2 x (round1 x st))) in
  let '(s0, s1, s2, s3) := st in
  (u32 (s0 + a), u32 (s1 + b), u32 (s2 + c), u32 (s3 + d)).

(** ** The operations *)

Definition init_regs : regs := (0x67452301, 0xefcdab89, 0x98badcfe, 0x10325476).

Definition reset (s : MD5) : MD5 :=
  mkMD5 init_regs (0, 0) (_buffer s) (_digest s) false.

(** [for (i = partLen; i + 63 < length; i += 64) transform(&input[i]);] with
    [i] a [uint32]. *)
Fixpoint update_loop (fuel : nat) (st : regs) (input : list Z) (length i : Z)
  : res (regs * Z) :=
  match fuel with
  | O => Fault OutOfFuel
  | S fuel =>
      if u32 (i + 63) <? length then
        block ← load input (Z.to_nat i) 64;
        update_loop fuel (transform st block) input length (u32 (i + 64))
      else Ret (st, i)
  end.

(** The number of 64-byte blocks in the input, and one more test of the
    loop's condition. *)
Definition update_fuel (length : Z) : nat := S (Z.to_nat (length / 64)).

Definition update (s : MD5) (input : list Z) (length : Z) : res MD5 :=
  let '(c0, c1) := _count s in
  let index := Z.land (Z.shiftr c0 3) 0x3f in
  let len32 := u32 length in
  let bits := u32 (Z.shiftl len32 3) in
  let c0 := u32 (c0 + bits) in
  let c1 := if c0 <? bits then u32 (c1 + 1) else c1 in
  let c1 := u32 (c1 + Z.shiftr len32 29) in
  let partLen := u32 (64 - index) in
  '(st, buf, index, i) ←
    (if partLen <=? length then
       src ← load input 0 (Z.to_nat partLen);
       buf ← store (_buffer s) (Z.to_nat index) src;
       '(st, i) ← update_loop (update_fuel length)
                     (transform (_state s) buf) input length partLen;
       Ret (st, buf, 0, i)
     else Ret (_state s, _buffer s, index, 0));
  src ← load input (Z.to_nat i) (Z.to_nat (length - i));
  buf ← store buf (Z.to_nat index) src;
  Ret (mkMD5 st (c0, c1) buf (_digest s) false).

Definition final (s : MD5) : res MD5 :=
  let oldState := _state s in
  let oldCount := _count s in
  let '(c0, c1) := _count s in
  let bits := encode [c0; c1] in
  let index := Z.land (Z.shiftr c0 3) 0x3f in
  let padLen := if index <? 56 then 56 - index else 120 - index in
  s ← update s PADDING padLen;
  s ← update s bits 8;
  let digest := encode (regs_list (_state s)) in
  Ret (mkMD5 oldState oldCount (_buffer s) digest (_finished s)).

Definition digest (s : MD5) : res (MD5 * list Z) :=
  if _finished s then Ret (s, _digest s)
  else
    s ← final (mkMD5 (_state s) (_count s) (_buffer s) (_digest s) true);
    Ret (s, _digest s).

(** The constructors: [garbage] is the object before it. *)
Definition MD5_new (garbage : MD5) : MD5 := reset garbage.

Definition update_str (s : MD5) (str : list Z) : res MD5 :=
  update s str (Z.of_nat (length str)).

Definition MD5_string (garbage : MD5) (str : list Z) : res MD5 :=
  update_str (reset garbage) str.

(** [update(ifstream &in)]: [in] is whether the stream is open, and the bytes
    it will deliver. A read of [BUFFER_SIZE] bytes that finds fewer sets eof. *)
Fixpoint update_stream_loop (fuel : nat) (s : MD5) (rest : list Z) : res MD5 :=
  match fuel with
  | O => Fault OutOfFuel
  | S fuel =>
      let buffer := take BUFFER_SIZE rest in
      let eof := decide (length rest < BUFFER_SIZE)%nat in
      s ← (if decide (0 < length buffer)%nat
           then update s buffer (Z.of_nat (length buffer)) else Ret s);
      if eof then Ret s else update_stream_loop fuel s (drop BUFFER_SIZE rest)
  end.

Definition stream_fuel (contents : list Z) : nat := S (length contents / BUFFER_SIZE).

Definition update_stream (s : MD5) (good : bool) (contents : list Z) : res MD5 :=
  if good then update_stream_loop (stream_fuel contents) s contents else Ret s.

Definition bytesToHexString (input : list Z) : list Z :=
  flat_map (fun t => [nth (Z.to_nat (t / 16)) HEX 0; nth (Z.to_nat (t mod 16)) HEX 0]) input.

Definition toString (s : MD5) : res (MD5 * list Z) :=
  '(s, d) ← digest s;
  Ret (s, bytesToHexString d).

(** * The reference definition (RFC 1321) *)
Module Spec.

(** The additive constants of the sixty-four operations, in order. *)
Definition T : list Z :=
  [
   0xd76aa478; 0xe8c7b756; 0x242070db; 0xc1bdceee;
   0xf57c0faf; 0x4787c62a; 0xa8304613; 0xfd469501;
   0x698098d8; 0x8b44f7af; 0xffff5bb1; 0x895cd7be;
   0x6b901122; 0xfd987193; 0xa679438e; 0x49b40821;
   0xf61e2562; 0xc040b340; 0x265e5a51; 0xe9b6c7aa;
   0xd62f105d; 0x2441453; 0xd8a1e681; 0xe7d3fbc8;
   0x21e1cde6; 0xc33707d6; 0xf4d50d87; 0x455a14ed;
   0xa9e3e905; 0xfcefa3f8; 0x676f02d9; 0x8d2a4c8a;
   0xfffa3942; 0x8771f681; 0x6d9d6122; 0xfde5380c;
   0xa4beea44; 0x4bdecfa9; 0xf6bb4b60; 0xbebfbc70;
   0x289b7ec6; 0xeaa127fa; 0xd4ef3085; 0x4881d05;
   0xd9d4d039; 0xe6db99e5; 0x1fa27cf8; 0xc4ac5665;
   0xf4292244; 0x432aff97; 0xab9423a7; 0xfc93a039;
   0x655b59c3; 0x8f0ccc92; 0xffeff47d; 0x85845dd1;
   0x6fa87e4f; 0xfe2ce6e0; 0xa3014314; 0x4e0811a1;
   0xf7537e82; 0xbd3af235; 0x2ad7d2bb; 0xeb86d391
  ].

(** Which message word operation [i] uses. *)
Definition k (i : nat) : nat :=
  if decide (i < 16)%nat then i
  else if decide (i < 32)%nat then (5 * i + 1) mod 16
  else if decide (i < 48)%nat then (3 * i + 5) mod 16
  else (7 * i) mod 16.

Definition s (i : nat) : Z :=
  nth (4 * (i / 16) + i mod 4)
    [7; 12; 17; 22; 5; 9; 14; 20; 4; 11; 16; 23; 6; 10; 15; 21] 0.

Definition f (i : nat) : Z -> Z -> Z -> Z :=
  if decide (i < 16)%nat then F
  else if decide (i < 32)%nat then G
  else if decide (i < 48)%nat then H
  else I.

(** One operation: the registers move one place. *)
Definition step (x : nat -> Z) (r : regs) (i : nat) : regs :=
  let '(a, b, c, d) := r in
  (d, u32 (ROTATE_LEFT (u32 (a + u32 (f i b c d + x (k i) + nth i T 0))) (s i) + b),
   b, c).

Definition compress (h : regs) (block : list Z) : regs :=
  let x := fun j => nth j (decode block) 0 in
  let '(a, b, c, d) := fold_left (step x) (seq 0 64) h in
  let '(h0, h1, h2, h3) := h in
  (u32 (h0 + a), u32 (h1 + b), u32 (h2 + c), u32 (h3 + d)).

Fixpoint blocks (n : nat) (h : regs) (m : list Z) : regs :=
  match n with
  | O => h
  | S n => blocks n (compress h (take 64 m)) (drop 64 m)
  end.

(** A one bit, zeros up to 56 modulo 64 bytes, and the number of bits. *)
Definition padding_length (n : nat) : nat := 1 + (64 + 55 - n mod 64) mod 64.

Definition pad (m : list Z) : list Z :=
  m ++ 0x80 :: replicate (padding_length (length m) - 1) 0
    ++ le_bytes 8 (8 * Z.of_nat (length m)).

Definition md5 (m : list Z) : list Z :=
  encode (regs_list (blocks (length (pad m) / 64) init_regs (pad m))).

End Spec.

(** * transform is the RFC's compression function *)

Lemma step_FF x a b c d i : (i < 16)%nat ->
  Spec.step x (a, b, c, d) i = (d, FF a b c d (x (Spec.k i)) (Spec.s i) (nth i Spec.T 0), b, c).
Proof. intros Hi. unfold Spec.step, Spec.f. by rewrite decide_True by done. Qed.

Lemma step_GG x a b c d i : (16 <= i < 32)%nat ->
  Spec.step x (a, b, c, d) i = (d, GG a b c d (x (Spec.k i)) (Spec.s i) (nth i Spec.T 0), b, c).
Proof.
  intros Hi. unfold Spec.step, Spec.f.
  by rewrite decide_False, decide_True by lia.
Qed.

Lemma step_HH x a b c d i : (32 <= i < 48)%nat ->
  Spec.step x (a, b, c, d) i = (d, HH a b c d (x (Spec.k i)) (Spec.s i) (nth i Spec.T 0), b, c).
Proof.
  intros Hi. unfold Spec.step, Spec.f.
  rewrite decide_False by lia. by rewrite decide_False, decide_True by lia.
Qed.

Lemma step_II x a b c d i : (48 <= i)%nat ->
  Spec.step x (a, b, c, d) i = (d, II a b c d (x (Spec.k i)) (Spec.s i) (nth i Spec.T 0), b, c).
Proof.
  intros Hi. unfold Spec.step, Spec.f.
  rewrite decide_False by lia. rewrite decide_False by lia. by rewrite decide_False by lia.
Qed.

Lemma fold_left_cons {A B} (f : A -> B -> A) i l v :
  fold_left f (i :: l) v = fold_left f l (f v i).
Proof. reflexivity. Qed.

(** One operation of the source against one step of the reference: the new
    register is generalised, so the terms stay small. *)
Ltac round_step step_lemma :=
  lazymatch goal with
  | |- (let y := ?v in @?body y) = fold_left ?f (?i :: ?l) (?a, ?b, ?c, ?d) =>
      let E := fresh in
      assert (E : f (a, b, c, d) i = (d, v, b, c))
        by (rewrite step_lemma by lia; reflexivity);
      rewrite (fold_left_cons f), E; clear E;
      generalize v; intros ?;
      lazymatch goal with
      | |- (let y := ?u in @?body y) = ?r =>
          let b := eval cbv beta in (body u) in change (b = r)
      end
  end.

Ltac round_by r step_lemma :=
  intros [[[a b] c] d]; cbv beta iota delta [r];
  match goal with
  | |- context [seq ?i 16] => let l := eval cbv in (seq i 16) in change (seq i 16) with l
  end;
  repeat round_step step_lemma; reflexivity.

Lemma round1_fold x r : round1 x r = fold_left (Spec.step x) (seq 0 16) r.
Proof. revert r. round_by round1 step_FF. Qed.

Lemma round2_fold x r : round2 x r = fold_left (Spec.step x) (seq 16 16) r.
Proof. revert r. round_by round2 step_GG. Qed.

Lemma round3_fold x r : round3 x r = fold_left (Spec.step x) (seq 32 16) r.
Proof. revert r. round_by round3 step_HH. Qed.

Lemma round4_fold x r : round4 x r = fold_left (Spec.step x) (seq 48 16) r.
Proof. revert r. round_by round4 step_II. Qed.

Lemma transform_compress st block : transform st block = Spec.compress st block.
Proof.
  unfold transform, Spec.compress. generalize (decode block). intros l.
  rewrite round1_fold, round2_fold, round3_fold, round4_fold, <- !fold_left_app.
  reflexivity.
Qed.

(** [transform] is the compression function of RFC 1321: the sixty-four
    unrolled operations, each on its own register, message word, constant and
    rotation, are the sixty-four steps of the standard's loop. *)
Theorem transform_is_rfc_compress (st : regs) (block : list Z) :
  transform st block = Spec.compress st block.
Proof. apply transform_compress. Qed.

(** * The bit counter *)

Definition count_add (c : Z * Z) (length : Z) : Z * Z :=
  let bits := u32 (Z.shiftl (u32 length) 3) in
  let c0 := u32 (fst c + bits) in
  let c1 := if c0 <? bits then u32 (snd c + 1) else snd c in
  (c0, u32 (c1 + Z.shiftr (u32 length) 29)).

(** The counter after [n] bytes: their number of bits, in two words. *)
Definition count_of (n : Z) : Z * Z := (u32 (8 * n), u32 (8 * n / 2 ^ 32)).

Lemma carry_test a b : in_range 32 a -> in_range 32 b ->
  (u32 (a + b) <? b) = (2 ^ 32 <=? a + b).
Proof.
  unfold in_range, wrap. intros Ha Hb.
  destruct (Z.leb_spec (2 ^ 32) (a + b)).
  - replace ((a + b) mod 2 ^ 32) with (a + b - 2 ^ 32)
      by (apply Z.mod_unique with 1; lia). lia.
  - rewrite Z.mod_small by lia. lia.
Qed.

Lemma count_add_of n k : 0 <= n -> 0 <= k < 2 ^ 32 ->
  count_add (count_of n) k = count_of (n + k).
Proof.
  intros Hn Hk. unfold count_add, count_of. cbn [fst snd].
  rewrite (wrap_small 32 k) by done.
  rewrite Z.shiftl_mul_pow2, Z.shiftr_div_pow2 by lia.
  replace (k * 2 ^ 3) with (8 * k) by lia.
  rewrite carry_test by (apply wrap_range; lia).
  f_equal.
  - autorewrite with words. f_equal. lia.
  - unfold wrap. change (2 ^ 32) with 4294967296 in *. change (2 ^ 29) with 536870912.
    destruct (Z.leb_spec 4294967296 ((8 * n) mod 4294967296 + (8 * k) mod 4294967296));
      [rewrite Zplus_mod_idemp_l, <- Z.add_assoc|]; rewrite Zplus_mod_idemp_l; f_equal.
    + Z.div_mod_to_equations; lia.
    + Z.div_mod_to_equations; lia.
Qed.

(** * Whole blocks *)

Lemma blocks_take n h m : (64 * n <= length m)%nat ->
  Spec.blocks n h (take (64 * n) m) = Spec.blocks n h m.
Proof.
  revert h m. induction n as [|n IH]; intros h m Hm; [done|]. cbn [Spec.blocks].
  rewrite take_take, Nat.min_l by lia. rewrite skipn_firstn_comm.
  replace (64 * S n - 64)%nat with (64 * n)%nat by lia.
  apply IH. rewrite length_drop. lia.
Qed.

Lemma blocks_app n k h m :
  Spec.blocks (n + k) h m = Spec.blocks k (Spec.blocks n h m) (drop (64 * n) m).
Proof.
  revert h m. induction n as [|n IH]; intros h m; [by rewrite drop_0|].
  cbn [Spec.blocks Nat.add]. rewrite IH, drop_drop. do 2 f_equal. lia.
Qed.

Lemma blocks_prefix n h m m' : (64 * n <= length m)%nat ->
  Spec.blocks n h (m ++ m') = Spec.blocks n h m.
Proof.
  intros Hm. rewrite <- (blocks_take n h m) by done.
  rewrite <- (blocks_take n h (m ++ m')) by (rewrite length_app; lia).
  by rewrite take_app_le.
Qed.

(** * update *)

Lemma update_loop_blocks n : forall fuel st input len i,
  (n < fuel)%nat -> (i + 64 * n <= len < i + 64 * n + 64)%nat ->
  (len <= length input)%nat -> Z.of_nat len + 64 < 2 ^ 32 ->
  update_loop fuel st input (Z.of_nat len) (Z.of_nat i)
  = Ret (Spec.blocks n st (drop i input), Z.of_nat (i + 64 * n)).
Proof.
  induction n as [|n IH]; intros [|fuel] st input len i Hf Hi Hl Hb; try lia; cbn [update_loop].
  - rewrite wrap_small by (unfold in_range; lia).
    destruct (Z.ltb_spec (Z.of_nat i + 63) (Z.of_nat len)); [lia|].
    cbn [Spec.blocks]. do 2 f_equal. lia.
  - rewrite wrap_small by (unfold in_range; lia).
    destruct (Z.ltb_spec (Z.of_nat i + 63) (Z.of_nat len)); [|lia].
    rewrite Nat2Z.id, load_in_bounds, bind_Ret by lia.
    rewrite wrap_small by (unfold in_range; lia).
    replace (Z.of_nat i + 64) with (Z.of_nat (i + 64)) by lia.
    rewrite (IH fuel) by lia. cbn [Spec.blocks].
    rewrite drop_drop, transform_compress. do 2 f_equal. lia.
Qed.

(** The number of buffered bytes, as [update] computes it. *)
Definition index_of (s : MD5) : nat := Z.to_nat (Z.land (Z.shiftr (fst (_count s)) 3) 0x3f).

Lemma index_of_lt s : (index_of s < 64)%nat.
Proof.
  unfold index_of. change 0x3f with (Z.ones 6). rewrite Z.land_ones by lia.
  pose proof (Z.mod_pos_bound (Z.shiftr (fst (_count s)) 3) (2 ^ 6)). lia.
Qed.

Lemma index_of_Z s : Z.land (Z.shiftr (fst (_count s)) 3) 0x3f = Z.of_nat (index_of s).
Proof.
  unfold index_of. rewrite Z2Nat.id; [done|].
  change 0x3f with (Z.ones 6). rewrite Z.land_ones by lia. apply Z.mod_pos_bound. lia.
Qed.

Lemma update_short s input :
  length (_buffer s) = 64%nat -> (index_of s + length input < 64)%nat ->
  forall junk, update s (input ++ junk) (Z.of_nat (length input)) =
  Ret (mkMD5 (_state s) (count_add (_count s) (Z.of_nat (length input)))
         (take (index_of s) (_buffer s) ++ input
          ++ drop (index_of s + length input) (_buffer s)) (_digest s) false).
Proof.
  intros Hb Hlt junk. pose proof (index_of_Z s) as HI.
  unfold update. destruct (_count s) as [c0 c1] eqn:Hc. cbn [fst] in HI. rewrite HI.
  rewrite (wrap_small 32 (64 - _)) by (unfold in_range; lia).
  destruct (Z.leb_spec (64 - Z.of_nat (index_of s)) (Z.of_nat (length input))); [lia|].
  rewrite bind_Ret. change (Z.to_nat 0) with 0%nat.
  rewrite Z.sub_0_r, !Nat2Z.id, load_in_bounds, bind_Ret, drop_0, take_app_le, take_ge
    by (rewrite ?length_app; lia).
  rewrite store_in_bounds by lia. reflexivity.
Qed.

Lemma update_long s input n r :
  length (_buffer s) = 64%nat -> Z.of_nat (length input) + 64 < 2 ^ 32 ->
  (index_of s + length input = 64 + 64 * n + r)%nat -> (r < 64)%nat ->
  let first := take (index_of s) (_buffer s) ++ take (64 - index_of s) input in
  let rest := drop (64 - index_of s) input in
  forall junk, update s (input ++ junk) (Z.of_nat (length input)) =
  Ret (mkMD5 (Spec.blocks n (transform (_state s) first) rest)
         (count_add (_count s) (Z.of_nat (length input)))
         (drop (64 * n) rest ++ drop r first) (_digest s) false).
Proof.
  intros Hb Hl32 Hlen Hr first rest junk. pose proof (index_of_Z s) as HI.
  pose proof (index_of_lt s) as Hi.
  assert (Hfirst : length first = 64%nat)
    by (unfold first; rewrite length_app, !length_take; lia).
  assert (Hrest : length rest = (64 * n + r)%nat) by (unfold rest; rewrite length_drop; lia).
  unfold update. destruct (_count s) as [c0 c1] eqn:Hc. cbn [fst] in HI. rewrite HI.
  rewrite (wrap_small 32 (64 - _)) by (unfold in_range; lia).
  destruct (Z.leb_spec (64 - Z.of_nat (index_of s)) (Z.of_nat (length input))); [|lia].
  replace (64 - Z.of_nat (index_of s)) with (Z.of_nat (64 - index_of s)) by lia.
  rewrite !Nat2Z.id, load_in_bounds, bind_Ret, drop_0, take_app_le
    by (rewrite ?length_app; lia).
  rewrite store_in_bounds by (rewrite length_take; lia). rewrite bind_Ret.
  rewrite length_take, Nat.min_l by lia.
  rewrite (drop_ge (_buffer s)), app_nil_r by lia. fold first.
  assert (Hn : Z.of_nat n <= Z.of_nat (length input) / 64) by (Z.div_mod_to_equations; lia).
  rewrite (update_loop_blocks n) by (unfold update_fuel; rewrite ?length_app; lia).
  rewrite !bind_Ret, drop_app_le by lia. fold rest. rewrite blocks_prefix by lia.
  replace (Z.to_nat (Z.of_nat (length input) - Z.of_nat (64 - index_of s + 64 * n))) with r by lia.
  rewrite Nat2Z.id, load_in_bounds, bind_Ret by (rewrite length_app; lia).
  rewrite <- drop_drop, drop_app_le, drop_app_le by (rewrite ?length_drop; lia). fold rest.
  rewrite take_app_le, take_ge by (rewrite length_drop; lia).
  change (Z.to_nat 0) with 0%nat.
  assert (Hd : length (drop (64 * n) rest) = r) by (rewrite length_drop, Hrest; lia).
  rewrite store_in_bounds by lia. rewrite Hd, take_0. reflexivity.
Qed.

(** * What the object stands for *)

(** The object has absorbed [m]: the registers are the fold of its whole
    blocks, the counter its number of bits, and the buffer starts with the
    bytes of the last, incomplete block. *)
Definition absorbed (s : MD5) (m : list Z) : Prop :=
  _state s = Spec.blocks (length m / 64) init_regs m /\
  _count s = count_of (Z.of_nat (length m)) /\
  length (_buffer s) = 64%nat /\
  take (length m mod 64) (_buffer s) = drop (64 * (length m / 64)) m.

Lemma index_of_absorbed s m : absorbed s m -> index_of s = (length m mod 64)%nat.
Proof.
  intros (_ & Hc & _). unfold index_of. rewrite Hc. unfold count_of. cbn [fst].
  change 0x3f with (Z.ones 6). rewrite Z.land_ones, Z.shiftr_div_pow2 by lia.
  unfold wrap. change (2 ^ 32) with 4294967296. change (2 ^ 3) with 8. change (2 ^ 6) with 64.
  rewrite <- (Nat2Z.id (length m mod 64)), Nat2Z.inj_mod. f_equal.
  Z.div_mod_to_equations. lia.
Qed.

Lemma absorbed_reset garbage :
  length (_buffer garbage) = 64%nat -> absorbed (reset garbage) [].
Proof. intros Hb. repeat split; cbn; by rewrite ?take_0. Qed.

Lemma div_mod_split (n : nat) : n = (64 * (n / 64) + n mod 64)%nat.
Proof. apply Nat.div_mod_eq. Qed.

Lemma div_mod_of (q r : nat) : (r < 64)%nat ->
  ((64 * q + r) / 64 = q)%nat /\ ((64 * q + r) mod 64 = r)%nat.
Proof.
  intros Hr. split; [symmetry; apply Nat.div_unique with r|symmetry; apply Nat.mod_unique with q]; lia.
Qed.

(** [absorbed] from the quotient and the remainder of the length. *)
Lemma absorbed_intro q r st c buf d f m :
  length m = (64 * q + r)%nat -> (r < 64)%nat ->
  st = Spec.blocks q init_regs m -> c = count_of (Z.of_nat (length m)) ->
  length buf = 64%nat -> take r buf = drop (64 * q) m ->
  absorbed (mkMD5 st c buf d f) m.
Proof.
  intros Hm Hr -> -> Hb Ht. destruct (div_mod_of q r Hr) as [E1 E2].
  unfold absorbed. by rewrite Hm, E1, E2.
Qed.

Lemma absorbed_elim s m : absorbed s m ->
  exists q, length m = (64 * q + index_of s)%nat /\ (index_of s < 64)%nat /\
    _state s = Spec.blocks q init_regs m /\ _count s = count_of (Z.of_nat (length m)) /\
    length (_buffer s) = 64%nat /\ take (index_of s) (_buffer s) = drop (64 * q) m.
Proof.
  intros H. pose proof (index_of_absorbed s m H) as Hi. destruct H as (? & ? & ? & Ht).
  exists (length m / 64)%nat. rewrite Hi in *.
  pose proof (Nat.mod_upper_bound (length m) 64 ltac:(done)).
  pose proof (div_mod_split (length m)). done.
Qed.

Lemma absorb_short s m input :
  absorbed s m -> (index_of s + length input < 64)%nat ->
  absorbed (mkMD5 (_state s) (count_of (Z.of_nat (length (m ++ input))))
    (take (index_of s) (_buffer s) ++ input ++ drop (index_of s + length input) (_buffer s))
    (_digest s) false) (m ++ input).
Proof.
  intros (q & Hm & _ & Hst & _ & Hb & Ht)%absorbed_elim Hlt.
  apply absorbed_intro with q (index_of s + length input)%nat; try done.
  - rewrite length_app. lia.
  - by rewrite blocks_prefix by lia.
  - rewrite !length_app, length_take, length_drop. lia.
  - rewrite Ht, app_assoc, take_app_le, take_ge, drop_app_le;
      rewrite ?length_app, ?length_take, ?length_drop; try lia. done.
Qed.

Lemma absorb_long s m input n r :
  absorbed s m -> (index_of s + length input = 64 + 64 * n + r)%nat -> (r < 64)%nat ->
  let first := take (index_of s) (_buffer s) ++ take (64 - index_of s) input in
  let rest := drop (64 - index_of s) input in
  absorbed (mkMD5 (Spec.blocks n (transform (_state s) first) rest)
    (count_of (Z.of_nat (length (m ++ input)))) (drop (64 * n) rest ++ drop r first)
    (_digest s) false) (m ++ input).
Proof.
  intros (q & Hm & Hi & Hst & _ & Hb & Ht)%absorbed_elim Hlen Hr first rest.
  assert (Hfirst : length first = 64%nat)
    by (unfold first; rewrite length_app, !length_take; lia).
  assert (Hrest : length rest = (64 * n + r)%nat) by (unfold rest; rewrite length_drop; lia).
  assert (Hdrop : drop (64 * q) (m ++ input) = first ++ rest).
  { unfold first, rest. rewrite Ht, drop_app_le by lia.
    by rewrite <- app_assoc, take_drop. }
  apply absorbed_intro with (q + 1 + n)%nat r; try done.
  - rewrite length_app. lia.
  - rewrite blocks_app, blocks_app, transform_compress, Hst.
    rewrite blocks_prefix by lia. rewrite Hdrop. cbn [Spec.blocks].
    rewrite take_app_le, take_ge by lia. f_equal.
    replace (64 * (q + 1))%nat with (64 * q + 64)%nat by lia.
    rewrite <- drop_drop, Hdrop, drop_app_ge, Hfirst by lia. done.
  - rewrite length_app, !length_drop. lia.
  - replace (64 * (q + 1 + n))%nat with (64 * q + (64 + 64 * n))%nat by lia.
    rewrite <- drop_drop, Hdrop, <- drop_drop, drop_app_ge, Hfirst by lia.
    rewrite take_app_le, take_ge by (rewrite length_drop; lia).
    by rewrite Nat.sub_diag, drop_0.
Qed.

Lemma update_appends (s : MD5) (m input junk : list Z) :
  absorbed s m -> Z.of_nat (length input) + 64 < 2 ^ 32 ->
  exists s', update s (input ++ junk) (Z.of_nat (length input)) = Ret s' /\
    absorbed s' (m ++ input) /\ _digest s' = _digest s /\ _finished s' = false.
Proof.
  intros Habs Hl32. pose proof (absorbed_elim s m Habs) as (q & Hm & Hi & _ & Hc & Hb & _).
  assert (Hcnt : count_add (_count s) (Z.of_nat (length input))
                 = count_of (Z.of_nat (length (m ++ input)))).
  { rewrite Hc, count_add_of by lia. f_equal. rewrite length_app. lia. }
  destruct (decide (index_of s + length input < 64)%nat) as [Hlt|Hge].
  - rewrite update_short, Hcnt by done. eexists; split; [done|].
    split; [by apply absorb_short|done].
  - pose proof (div_mod_split (index_of s + length input - 64)) as Hd.
    pose proof (Nat.mod_upper_bound (index_of s + length input - 64) 64 ltac:(done)).
    rewrite (update_long s input ((index_of s + length input - 64) / 64)
               ((index_of s + length input - 64) mod 64)), Hcnt by (done || lia).
    eexists; split; [done|]. split; [apply absorb_long; (done || lia)|done].
Qed.

(** [update] on any object that has absorbed [m], and any input shorter
    than 2^32 - 64 bytes, neither accesses memory out of bounds nor loops,
    and gives an object that has absorbed [m] followed by the input (the
    [length] bytes the call names, whatever follows them in memory). *)
Theorem update_absorbs (s : MD5) (m input junk : list Z) :
  absorbed s m -> Z.of_nat (length input) + 64 < 2 ^ 32 ->
  exists s', update s (input ++ junk) (Z.of_nat (length input)) = Ret s' /\
    absorbed s' (m ++ input) /\ _digest s' = _digest s /\ _finished s' = false.
Proof. apply update_appends. Qed.

(** * final and digest *)

Lemma encode_word w : in_range 32 w -> encode [w] = le_bytes 4 w.
Proof.
  intros Hw. cbn [encode le_bytes]. rewrite !Z.shiftr_shiftr by lia.
  change 0xff with (Z.ones 8). rewrite !wrap_land_ones by lia. done.
Qed.

Lemma encode_count n : encode [u32 n; u32 (n / 2 ^ 32)] = le_bytes 8 n.
Proof.
  change (encode [u32 n; u32 (n / 2 ^ 32)]) with (encode [u32 n] ++ encode [u32 (n / 2 ^ 32)]).
  rewrite !encode_word by (apply wrap_range; lia).
  change 32 with (8 * Z.of_nat 4) at 1. rewrite le_bytes_wrap.
  replace (u32 (n / 2 ^ 32)) with (wrap (8 * Z.of_nat 4) (Z.shiftr n 32))
    by (by rewrite Z.shiftr_div_pow2 by lia).
  rewrite le_bytes_wrap. cbn [le_bytes app]. by rewrite !Z.shiftr_shiftr by lia.
Qed.

Lemma take_padding k : (1 <= k <= 64)%nat -> take k PADDING = 0x80 :: replicate (k - 1) 0.
Proof.
  intros Hk. unfold PADDING. destruct k as [|k]; [lia|]. cbn [take].
  rewrite take_replicate. do 2 f_equal. lia.
Qed.

Lemma padding_length_index (m : list Z) :
  Spec.padding_length (length m) =
  (if decide (length m mod 64 < 56)%nat then 56 - length m mod 64 else 120 - length m mod 64)%nat.
Proof.
  unfold Spec.padding_length. pose proof (Nat.mod_upper_bound (length m) 64 ltac:(done)).
  generalize dependent (length m mod 64)%nat. intros i Hi. case_decide.
  - replace ((64 + 55 - i) mod 64)%nat with (55 - i)%nat
      by (apply Nat.mod_unique with 1%nat; lia). lia.
  - rewrite Nat.mod_small by lia. lia.
Qed.

Lemma pad_split m :
  Spec.pad m = m ++ take (Spec.padding_length (length m)) PADDING
                 ++ le_bytes 8 (8 * Z.of_nat (length m)).
Proof.
  unfold Spec.pad. rewrite take_padding; [by rewrite <- app_comm_cons|].
  rewrite padding_length_index. pose proof (Nat.mod_upper_bound (length m) 64 ltac:(done)).
  case_decide; lia.
Qed.

(** [final] as the two updates it makes, from any state that has absorbed
    [m]. *)
Lemma final_unfold s m : absorbed s m ->
  final s =
  (s1 ← update s (take (Spec.padding_length (length m)) PADDING
                  ++ drop (Spec.padding_length (length m)) PADDING)
          (Z.of_nat (length (take (Spec.padding_length (length m)) PADDING)));
   s2 ← update s1 (le_bytes 8 (8 * Z.of_nat (length m)) ++ [])
          (Z.of_nat (length (le_bytes 8 (8 * Z.of_nat (length m)))));
   Ret (mkMD5 (_state s) (_count s) (_buffer s2) (encode (regs_list (_state s2)))
          (_finished s2))).
Proof.
  intros Habs. pose proof (index_of_absorbed s m Habs) as Hi.
  destruct (absorbed_elim s m Habs) as (q & _ & Hlt & _ & Hc & _).
  pose proof (index_of_Z s) as HI. rewrite take_drop, app_nil_r, length_le_bytes.
  unfold final. rewrite Hc in *. unfold count_of in *. cbn [fst] in HI.
  rewrite encode_count, HI.
  assert (Hp : Spec.padding_length (length m) =
    Z.to_nat (if Z.of_nat (index_of s) <? 56 then 56 - Z.of_nat (index_of s)
              else 120 - Z.of_nat (index_of s))).
  { rewrite padding_length_index, <- Hi.
    case_decide; destruct (Z.ltb_spec (Z.of_nat (index_of s)) 56); lia. }
  rewrite length_take, Nat.min_l, Hp, Z2Nat.id; [done|..];
    rewrite ?Hp; change (length PADDING) with 64%nat;
    destruct (Z.ltb_spec (Z.of_nat (index_of s)) 56); lia.
Qed.

Lemma final_correct s m : absorbed s m ->
  exists s', final s = Ret s' /\ _digest s' = Spec.md5 m /\ _finished s' = false /\
    _state s' = _state s /\ _count s' = _count s.
Proof.
  intros Habs. rewrite (final_unfold s m Habs).
  edestruct (update_appends s m) as (s1 & -> & Hs1 & _); [done| |].
  { rewrite length_take. change (length PADDING) with 64%nat. lia. }
  rewrite bind_Ret.
  edestruct (update_appends s1 _ (le_bytes 8 (8 * Z.of_nat (length m))) [] Hs1)
    as (s2 & -> & Hs2 & _ & Hf); [by rewrite length_le_bytes|].
  rewrite bind_Ret. eexists; split; [done|]. rewrite <- app_assoc, <- pad_split in Hs2.
  destruct Hs2 as [Hst _]. cbn. by rewrite Hst.
Qed.

(** When the padding fits in the last block, the buffer keeps the message's
    last bytes, and the object can be read again or continued. *)
Lemma final_keeps s m s' :
  absorbed s m -> (length m mod 64 < 56)%nat -> final s = Ret s' -> absorbed s' m.
Proof.
  intros Habs Hlt. rewrite (final_unfold s m Habs).
  pose proof (index_of_absorbed s m Habs) as Hi.
  destruct (absorbed_elim s m Habs) as (q & Hm & _ & Hst & Hc & Hb & Ht).
  assert (Hp : length (take (Spec.padding_length (length m)) PADDING) = (56 - index_of s)%nat).
  { rewrite length_take, padding_length_index, decide_True by done.
    change (length PADDING) with 64%nat. lia. }
  pose proof (absorb_short s m (take (Spec.padding_length (length m)) PADDING) Habs
    ltac:(lia)) as Habs1.
  rewrite update_short, bind_Ret by lia. rewrite Hc, count_add_of by lia.
  rewrite <- Nat2Z.inj_add, <- length_app.
  set (s1 := mkMD5 _ _ _ _ _) in *.
  assert (Hi1 : index_of s1 = 56%nat).
  { rewrite (index_of_absorbed _ _ Habs1), length_app, Hp.
    replace (length m + (56 - index_of s))%nat with (64 * q + 56)%nat by lia.
    apply (div_mod_of q 56). lia. }
  assert (Hb1 : take 56 (_buffer s1) =
    take (index_of s) (_buffer s) ++ take (Spec.padding_length (length m)) PADDING).
  { unfold s1. cbn [_buffer]. rewrite app_assoc, take_app_le, take_ge;
      rewrite ?length_app, ?Hp, ?length_take; (done || lia). }
  rewrite (update_long s1 _ 0 0); [|by destruct Habs1 as (_ & _ & ? & _)
    |rewrite ?length_le_bytes; lia..].
  rewrite bind_Ret, Hi1, Hb1. intros <-%Ret_inj.
  apply absorbed_intro with q (index_of s); try done; try lia; cbn [_buffer];
    change (64 * 0)%nat with 0%nat; rewrite !drop_0, drop_ge, app_nil_l
      by (rewrite length_le_bytes; lia).
  - rewrite !length_app, Hp, !length_take, length_le_bytes. lia.
  - rewrite <- app_assoc, take_app_le by (rewrite length_take; lia).
    by rewrite take_take, Nat.min_id.
Qed.

Lemma digest_correct s m : absorbed s m -> _finished s = false ->
  exists s', digest s = Ret (s', Spec.md5 m) /\ _finished s' = false /\
    _state s' = _state s /\ _count s' = _count s /\
    ((length m mod 64 < 56)%nat -> absorbed s' m).
Proof.
  intros Habs Hf. unfold digest. rewrite Hf.
  set (s0 := mkMD5 _ _ _ _ true). assert (H0 : absorbed s0 m) by exact Habs.
  destruct (final_correct s0 m H0) as (s' & E & Hd & Hf' & Hst & Hc).
  rewrite E, bind_Ret, Hd. exists s'. do 4 (split; [done|]).
  intros Hlt. by apply (final_keeps s0 m s').
Qed.

(** A sequence of calls to [update]. *)
Fixpoint update_all (s : MD5) (chunks : list (list Z)) : res MD5 :=
  match chunks with
  | [] => Ret s
  | c :: cs => s ← update_str s c; update_all s cs
  end.

Lemma update_str_absorbs s m c : absorbed s m -> Z.of_nat (length c) + 64 < 2 ^ 32 ->
  exists s', update_str s c = Ret s' /\ absorbed s' (m ++ c) /\ _finished s' = false.
Proof.
  intros Hs Hc. destruct (update_appends s m c [] Hs Hc) as (s' & E & Hs' & _ & Hf).
  rewrite app_nil_r in E. by exists s'.
Qed.

Lemma update_all_absorbs chunks : forall s m, absorbed s m -> _finished s = false ->
  Forall (fun c => Z.of_nat (length c) + 64 < 2 ^ 32) chunks ->
  exists s', update_all s chunks = Ret s' /\ absorbed s' (m ++ concat chunks) /\
    _finished s' = false.
Proof.
  induction chunks as [|c cs IH]; intros s m Hs Hf HF; cbn [update_all concat].
  - exists s. by rewrite app_nil_r.
  - inversion HF; subst.
    destruct (update_str_absorbs s m c Hs) as (s1 & -> & Hs1 & Hf1); [done|].
    rewrite bind_Ret, app_assoc. by apply IH.
Qed.


(** One turn of the file loop. *)
Lemma stream_turn_absorbs s m buffer : absorbed s m -> (length buffer <= BUFFER_SIZE)%nat ->
  exists s1, (if decide (0 < length buffer)%nat
              then update s buffer (Z.of_nat (length buffer)) else Ret s) = Ret s1 /\
    absorbed s1 (m ++ buffer).
Proof.
  intros Hs Hl. case_decide as H0.
  - destruct (update_str_absorbs s m buffer Hs) as (s1 & E & Hs1 & _);
      [unfold BUFFER_SIZE in Hl; lia|]. by exists s1.
  - destruct buffer; [|cbn in H0; lia]. exists s. by rewrite app_nil_r.
Qed.

Lemma update_stream_loop_absorbs fuel : forall s m rest,
  (length rest < BUFFER_SIZE * fuel)%nat -> absorbed s m ->
  exists s', update_stream_loop fuel s rest = Ret s' /\ absorbed s' (m ++ rest).
Proof.
  induction fuel as [|fuel IH]; intros s m rest Hf Hs; [lia|].
  cbn [update_stream_loop].
  destruct (stream_turn_absorbs s m (take BUFFER_SIZE rest) Hs) as (s1 & -> & Hs1);
    [rewrite length_take; lia|].
  rewrite bind_Ret. destruct (decide (length rest < BUFFER_SIZE)%nat) as [Heof|Heof].
  - exists s1. split; [done|]. by rewrite take_ge in Hs1 by lia.
  - replace (m ++ rest) with ((m ++ take BUFFER_SIZE rest) ++ drop BUFFER_SIZE rest)
      by (by rewrite <- app_assoc, take_drop).
    apply IH; [rewrite length_drop; lia|done].
Qed.

(** Hashing a file: the loop over reads of 1024 bytes terminates, also
    when the length is a multiple of 1024 and the last read is empty, and
    absorbs exactly the contents of the file; a stream that could not be
    opened leaves the object as it is. *)
Theorem update_stream_absorbs (s : MD5) (m contents : list Z) :
  absorbed s m ->
  (exists s', update_stream s true contents = Ret s' /\ absorbed s' (m ++ contents)) /\
  update_stream s false contents = Ret s.
Proof.
  intros Hs. split; [|done]. apply update_stream_loop_absorbs; [|done].
  unfold stream_fuel. by apply Nat.mul_succ_div_gt.
Qed.

(** Reading the digest again gives the same bytes, as long as the last
    block of the message has room for the padding. *)
Theorem digest_again (s s1 : MD5) (m d : list Z) :
  absorbed s m -> _finished s = false -> (length m mod 64 < 56)%nat ->
  digest s = Ret (s1, d) ->
  exists s2, digest s1 = Ret (s2, d).
Proof.
  intros Hs Hf Hlt E. destruct (digest_correct s m Hs Hf) as (s' & E' & Hf' & _ & _ & Hk).
  rewrite E' in E. injection E as <- <-.
  destruct (digest_correct s' m (Hk Hlt) Hf') as (s2 & E2 & _). by exists s2.
Qed.

(** Fifty-six bytes: the first length whose padding needs another block. *)
Definition zero_object : MD5 :=
  mkMD5 (0, 0, 0, 0) (0, 0) (replicate 64 0) (replicate 16 0) false.

Definition digest_twice (m : list Z) : res (list Z * list Z) :=
  s ← MD5_string zero_object m;
  '(s, d1) ← digest s;
  '(s, d2) ← digest s;
  Ret (d1, d2).

(** Reading the digest a second time is wrong when the padding needs
    another block: [final] calls [update], which clears the [_finished] flag
    that [digest] has just set, so the second call hashes again, over a
    buffer whose message bytes the padding has overwritten. *)
Theorem digest_again_differs :
  exists d1 d2, digest_twice (replicate 56 97) = Ret (d1, d2) /\
    d1 = Spec.md5 (replicate 56 97) /\ d1 <> d2.
Proof.
  eexists _, _. split; [vm_compute; reflexivity|]. split; [vm_compute; reflexivity|].
  intros E. apply (f_equal (fun l => nth 0 l 0)) in E. vm_compute in E. discriminate.
Qed.

(** * Hexadecimal *)

(** The value of a digit of [HEX]. *)
Definition hex_value (c : Z) : Z := if c <? 97 then c - 48 else c - 87.

Fixpoint from_hex (l : list Z) : list Z :=
  match l with
  | a :: b :: l => 16 * hex_value a + hex_value b :: from_hex l
  | _ => []
  end.

Lemma hex_value_nth n : (n < 16)%nat -> hex_value (nth n HEX 0) = Z.of_nat n.
Proof. intros Hn. do 16 (destruct n as [|n]; [reflexivity|]). lia. Qed.

(** The hexadecimal string has two digits for each byte, and reading the
    digits back gives the bytes. *)
Theorem bytesToHexString_roundtrip (l : list Z) :
  bytes_ok l ->
  length (bytesToHexString l) = (2 * length l)%nat /\ from_hex (bytesToHexString l) = l.
Proof.
  induction 1 as [|b l [Hb Hb'] _ [IH1 IH2]]; [done|].
  unfold bytesToHexString in *. cbn [flat_map app length from_hex]. split; [lia|].
  change (2 ^ 8) with 256 in Hb'.
  rewrite !hex_value_nth by (Z.div_mod_to_equations; lia). rewrite IH2. f_equal.
  rewrite !Z2Nat.id by (Z.div_mod_to_equations; lia). symmetry. apply Z.div_mod. lia.
Qed.

(** * Witnesses *)

Lemma update_absorbs_witness :
  exists s', update (MD5_new zero_object) ([97; 98] ++ [0]) 2 = Ret s' /\
    absorbed s' ([] ++ [97; 98]) /\ _digest s' = replicate 16 0 /\ _finished s' = false.
Proof.
  exact (update_absorbs (MD5_new zero_object) [] [97; 98] [0]
           (absorbed_reset zero_object eq_refl) eq_refl).
Defined.


Lemma update_stream_absorbs_witness :
  (exists s', update_stream (MD5_new zero_object) true (replicate 1024 5) = Ret s' /\
              absorbed s' ([] ++ replicate 1024 5)) /\
  update_stream (MD5_new zero_object) false (replicate 1024 5) = Ret (MD5_new zero_object).
Proof.
  exact (update_stream_absorbs (MD5_new zero_object) [] (replicate 1024 5)
           (absorbed_reset zero_object eq_refl)).
Defined.

Lemma digest_again_witness :
  exists s1 d s2, digest (MD5_new zero_object) = Ret (s1, d) /\ digest s1 = Ret (s2, d).
Proof.
  eexists _, _.
  destruct (digest_again (MD5_new zero_object) _ [] _ (absorbed_reset zero_object eq_refl)
    eq_refl ltac:(vm_compute; lia) eq_refl) as [s2 E].
  exists s2. split; [reflexivity|exact E].
Defined.

Lemma bytesToHexString_roundtrip_witness :
  bytes_ok [0; 171; 255] /\ length (bytesToHexString [0; 171; 255]) = 6%nat /\
  from_hex (bytesToHexString [0; 171; 255]) = [0; 171; 255].
Proof.
  assert (H : bytes_ok [0; 171; 255]) by (repeat constructor; done).
  split; [exact H|]. exact (bytesToHexString_roundtrip [0; 171; 255] H).
Defined.
