(* ===== verification/MapMd5.v ===== *)
(** app/src/main/cpp/map_md5.cpp: the signature of a Java map. [signMap]
    adds the application's key, reads the entries in the order the map's
    iterator gives them, sorts them by key, joins them into a query string
    and returns its MD5 in hexadecimal. The iteration order of a HashMap is
    not specified: it is a parameter, and the signature does not depend on
    it. *)
From S2P Require Import Prelude Md5.

(** A [std::string], and a Java string by its modified UTF-8 bytes. *)
Abbreviation str := (list Z).

Record KeyValue := mkKeyValue { key : str; value : str }.

(** A [java.util.Map] of strings; null keys and null values are allowed. *)
Abbreviation java_map := (gmap (option str) (option str)).

(** "b8ac2daa-f7be-46d7-bec6-1e8ed0632292" *)
Definition used_key : str :=
  [98; 56; 97; 99; 50; 100; 97; 97; 45; 102; 55; 98; 101; 45; 52; 54; 100; 55; 45;
   98; 101; 99; 54; 45; 49; 101; 56; 101; 100; 48; 54; 51; 50; 50; 57; 50].

(** "md5_key" *)
Definition md5_key_name : str := [109; 100; 53; 95; 107; 101; 121].

(** [std::string]'s [operator<]: by the first byte that differs. *)
Fixpoint str_lt (a b : str) : bool :=
  match a, b with
  | _, [] => false
  | [], _ :: _ => true
  | x :: a, y :: b => (x <? y) || ((x =? y) && str_lt a b)
  end.

Definition KeyValue_lt (kv1 kv2 : KeyValue) : bool := str_lt (key kv1) (key kv2).

(** A [std::string] made from a C string: the bytes before the first NUL. *)
Fixpoint c_string (l : str) : str :=
  match l with
  | [] => []
  | c :: l => if c =? 0 then [] else c :: c_string l
  end.

(** [std::list::sort]: the stable sort by [operator<]. *)
Fixpoint sort_insert (x : KeyValue) (l : list KeyValue) : list KeyValue :=
  match l with
  | [] => [x]
  | y :: l => if KeyValue_lt y x then y :: sort_insert x l else x :: y :: l
  end.

Definition list_sort (l : list KeyValue) : list KeyValue := foldr sort_insert [] l.

(** The loop over the entries: entries with a null key or a null value are
    skipped. *)
Fixpoint jniGetHashMapInfo (entries : list (option str * option str)) : list KeyValue :=
  match entries with
  | [] => []
  | (courseJS, scoreObj) :: rest =>
      match courseJS with
      | None => jniGetHashMapInfo rest
      | Some course =>
          match scoreObj with
          | None => jniGetHashMapInfo rest
          | Some score =>
              mkKeyValue (c_string course) (c_string score) :: jniGetHashMapInfo rest
          end
      end
  end.

(** The loop that builds [urlStr]; [first] counts the entries done. *)
Fixpoint url_loop (urlStr : str) (first : nat) (l : list KeyValue) : str :=
  match l with
  | [] => urlStr
  | kv :: l =>
      let urlStr := if decide (first <> 0%nat) then urlStr ++ [38] else urlStr in
      url_loop (((urlStr ++ key kv) ++ [61]) ++ value kv) (S first) l
  end.

Section signMap.
(** The order in which the map's [entrySet().iterator()] delivers entries. *)
Context (entrySet_order : java_map -> list (option str * option str)).

Definition signMap (garbage1 garbage2 : MD5) (map_params : java_map)
  : res (java_map * str) :=
  let map_params := <[Some md5_key_name := Some used_key]> map_params in
  let keyValueList := list_sort (jniGetHashMapInfo (entrySet_order map_params)) in
  let urlStr := url_loop [] 0 keyValueList in
  basic ← MD5_string garbage1 urlStr;
  '(_, _) ← toString basic;
  md5 ← MD5_string garbage2 urlStr;
  '(_, s) ← toString md5;
  Ret (map_params, s).
End signMap.

(** * The order on keys *)

Lemma str_lt_irrefl a : str_lt a a = false.
Proof. induction a as [|x a IH]; [done|]. cbn. rewrite IH, Z.ltb_irrefl, andb_false_r. done. Qed.

Lemma str_lt_trans a b c : str_lt a b = true -> str_lt b c = true -> str_lt a c = true.
Proof.
  revert b c. induction a as [|x a IH]; intros [|y b] [|z c]; cbn; try done.
  rewrite !orb_true_iff, !andb_true_iff, !Z.ltb_lt, !Z.eqb_eq.
  intros [H1|[-> H1]] [H2|[-> H2]]; [left; lia..|]. right. split; [done|]. by apply (IH b).
Qed.

Lemma str_lt_total a b : str_lt a b = false -> str_lt b a = false -> a = b.
Proof.
  revert b. induction a as [|x a IH]; intros [|y b]; cbn; try done.
  rewrite !orb_false_iff, !Z.ltb_ge. intros [H1 H2] [H3 H4].
  assert (x = y) as -> by lia. rewrite Z.eqb_refl in *. f_equal. by apply IH.
Qed.

Definition kv_le (x y : KeyValue) : Prop := KeyValue_lt y x = false.

#[export] Instance KeyValue_eq_dec : EqDecision KeyValue.
Proof. solve_decision. Defined.

#[export] Instance kv_le_trans : Transitive kv_le.
Proof.
  intros x y z H1 H2. unfold kv_le, KeyValue_lt in *.
  destruct (str_lt (key z) (key x)) eqn:E; [|done].
  destruct (str_lt (key x) (key y)) eqn:E1.
  - by rewrite (str_lt_trans _ _ _ E E1) in H2.
  - assert (key x = key y) as Hk by (by apply str_lt_total). by rewrite <- Hk, E in H2.
Qed.

Lemma sort_insert_perm x l : sort_insert x l ≡ₚ x :: l.
Proof.
  induction l as [|y l IH]; [done|]. cbn. destruct (KeyValue_lt y x); [|done].
  rewrite IH. constructor.
Qed.

Lemma list_sort_perm l : list_sort l ≡ₚ l.
Proof. induction l as [|x l IH]; [done|]. cbn. by rewrite sort_insert_perm, IH. Qed.

Lemma KeyValue_lt_le x y : KeyValue_lt x y = true -> kv_le x y.
Proof.
  intros H. unfold kv_le, KeyValue_lt in *. destruct (str_lt (key y) (key x)) eqn:E; [|done].
  by rewrite <- (str_lt_irrefl (key x)), (str_lt_trans _ _ _ H E).
Qed.

Lemma sort_insert_sorted x l : StronglySorted kv_le l -> StronglySorted kv_le (sort_insert x l).
Proof.
  induction 1 as [|y l Hs IH HF]; [repeat constructor|]. cbn.
  destruct (KeyValue_lt y x) eqn:E.
  - constructor; [done|]. rewrite sort_insert_perm. constructor; [by apply KeyValue_lt_le|done].
  - constructor; [by constructor|]. constructor; [done|].
    eapply Forall_impl; [exact HF|]. intros z Hz. by transitivity y.
Qed.

Lemma list_sort_sorted l : StronglySorted kv_le (list_sort l).
Proof. induction l; cbn; [constructor|by apply sort_insert_sorted]. Qed.

(** * The entries and the query string *)

Definition entry_info (e : option str * option str) : option KeyValue :=
  match e with
  | (Some course, Some score) => Some (mkKeyValue (c_string course) (c_string score))
  | _ => None
  end.

Lemma jniGetHashMapInfo_omap l : jniGetHashMapInfo l = omap entry_info l.
Proof. induction l as [|[[k|] [v|]] l IH]; cbn; by rewrite ?IH. Qed.

(** No NUL in a modified UTF-8 string. *)
Definition nul_free (s : str) : Prop := Forall (fun c => c <> 0) s.

Lemma c_string_nul_free s : nul_free s -> c_string s = s.
Proof.
  induction 1 as [|c s Hc _ IH]; [done|]. cbn. destruct (Z.eqb_spec c 0); [done|]. by rewrite IH.
Qed.

(** Every key and value of the map is a Java string. *)
Definition java_strings (m : java_map) : Prop :=
  map_Forall (fun k v => (forall s, k = Some s -> nul_free s) /\
                         (forall s, v = Some s -> nul_free s)) m.

(** What the specification of the signature says: the entries with a key and
    a value, in the order of their keys, written [k=v] and joined by [&]. *)
Definition entries_of (m : java_map) : list KeyValue :=
  list_sort (jniGetHashMapInfo (map_to_list m)).

Definition pair_text (kv : KeyValue) : str := key kv ++ [61] ++ value kv.

Fixpoint join (l : list str) : str :=
  match l with
  | [] => []
  | [s] => s
  | s :: l => s ++ [38] ++ join l
  end.

Definition query_string (m : java_map) : str := join (map pair_text (entries_of m)).

Lemma url_loop_step urlStr n l :
  url_loop urlStr (S n) l = urlStr ++ flat_map (fun kv => 38 :: pair_text kv) l.
Proof.
  revert urlStr n. induction l as [|kv l IH]; intros urlStr n; cbn [url_loop flat_map].
  - by rewrite app_nil_r.
  - rewrite decide_True by done. rewrite IH. unfold pair_text. cbn [app].
    rewrite <- !app_assoc. done.
Qed.

Lemma join_flat_map kv l :
  join (map pair_text (kv :: l)) = pair_text kv ++ flat_map (fun kv => 38 :: pair_text kv) l.
Proof.
  revert kv. induction l as [|kv' l IH]; intros kv; [cbn; by rewrite app_nil_r|].
  change (join (map pair_text (kv :: kv' :: l)))
    with (pair_text kv ++ [38] ++ join (map pair_text (kv' :: l))).
  by rewrite IH.
Qed.

Lemma url_loop_join l : url_loop [] 0 l = join (map pair_text l).
Proof.
  destruct l as [|kv l]; [done|]. cbn [url_loop]. rewrite decide_False by lia.
  rewrite url_loop_step, join_flat_map. unfold pair_text. by rewrite <- !app_assoc.
Qed.

(** ** The sorted list does not depend on the iteration order *)

Lemma info_keys m : java_strings m ->
  NoDup (key <$> jniGetHashMapInfo (map_to_list m)).
Proof.
  intros Hm. rewrite jniGetHashMapInfo_omap.
  assert (HF : Forall (fun e => m !! e.1 = Some e.2) (map_to_list m)).
  { apply Forall_forall. intros [k v] He. by apply elem_of_map_to_list. }
  pose proof (NoDup_fst_map_to_list m) as HN. revert HF HN.
  induction (map_to_list m) as [|[k v] l IH]; intros HF HN; [constructor|].
  cbn in HN. inversion HF as [|? ? Hkv HF']; subst. inversion HN as [|? ? Hnin HN']; subst.
  cbn. destruct k as [k|], v as [v|]; cbn; auto. constructor; [|auto].
  intros ([k' v'] & Hk & Hin)%list_elem_of_fmap. cbn in Hk.
  apply list_elem_of_omap in Hin as ([[k2|] [v2|]] & Hin & E); try discriminate.
  injection E as <- <-. apply Hnin, list_elem_of_fmap. exists (Some k2, Some v2). split; [|done].
  cbn. f_equal. rewrite Forall_forall in HF'. specialize (HF' _ Hin). cbn in *.
  pose proof (Hm _ _ Hkv) as [H1 _]. pose proof (Hm _ _ HF') as [H2 _].
  by rewrite !c_string_nul_free in Hk by auto.
Qed.

Lemma list_sort_unique l1 l2 :
  l1 ≡ₚ l2 -> NoDup (key <$> l1) -> list_sort l1 = list_sort l2.
Proof.
  intros Hp HN. apply (StronglySorted_unique_strong kv_le); try apply list_sort_sorted.
  - intros x y Hx Hy H1 H2. rewrite list_sort_perm in Hx. rewrite list_sort_perm, <- Hp in Hy.
    assert (Hk : key x = key y) by (by apply str_lt_total).
    apply list_elem_of_lookup in Hx as [i Hi], Hy as [j Hj].
    assert (i = j) as <-.
    { eapply (NoDup_lookup _ i j (key x)); [exact HN|..]; rewrite list_lookup_fmap.
      - by rewrite Hi. - by rewrite Hj, Hk. }
    congruence.
  - by rewrite !list_sort_perm.
Qed.

Section Signature.
Context (entrySet_order : java_map -> list (option str * option str)).

(** The iterator delivers every entry of the map once, in some order. *)
Hypothesis entrySet_complete : forall m, entrySet_order m ≡ₚ map_to_list m.

Lemma entrySet_sorted m : java_strings m ->
  list_sort (jniGetHashMapInfo (entrySet_order m)) = entries_of m.
Proof.
  intros Hm. symmetry. apply list_sort_unique; [|by apply info_keys].
  rewrite !jniGetHashMapInfo_omap. by rewrite entrySet_complete.
Qed.

End Signature.

(** The list that is signed has exactly the entries of the map whose key
    and value are not null, and is in the strict order of the keys. *)
Theorem entries_of_sorted (m : java_map) : java_strings m ->
  (forall k v, mkKeyValue k v ∈ entries_of m <-> m !! Some k = Some (Some v)) /\
  StronglySorted (fun x y => KeyValue_lt x y = true) (entries_of m).
Proof.
  intros Hm. split.
  - intros k v. unfold entries_of. rewrite list_sort_perm, jniGetHashMapInfo_omap.
    rewrite <- elem_of_map_to_list, list_elem_of_omap. split.
    + intros ([[k'|] [v'|]] & Hin & E); try discriminate. injection E as <- <-.
      pose proof Hin as Hl. apply elem_of_map_to_list in Hl.
      destruct (Hm _ _ Hl) as [Hk Hv]. by rewrite !c_string_nul_free by auto.
    + intros Hin. exists (Some k, Some v). split; [done|]. apply elem_of_map_to_list in Hin.
      destruct (Hm _ _ Hin) as [Hk Hv]. cbn. by rewrite !c_string_nul_free by auto.
  - pose proof (info_keys m Hm) as HN. rewrite <- (list_sort_perm (jniGetHashMapInfo _)) in HN.
    pose proof (list_sort_sorted (jniGetHashMapInfo (map_to_list m))) as HS.
    unfold entries_of. revert HN HS. generalize (list_sort (jniGetHashMapInfo (map_to_list m))).
    induction l as [|x l IH]; intros HN HS; [constructor|].
    inversion HS as [|? ? HS' HF]; subst. cbn in HN. inversion HN as [|? ? Hnin HN']; subst.
    constructor; [by apply IH|]. rewrite Forall_forall in *. intros y Hy.
    unfold kv_le, KeyValue_lt in *. destruct (str_lt (key x) (key y)) eqn:E; [done|].
    destruct Hnin. apply list_elem_of_fmap. exists y. split; [|done].
    apply str_lt_total; [done|by apply HF].
Qed.

(** * Witnesses *)

(** {b = "2", null = "3", a = "1"} *)
Definition sample_map : java_map :=
  <[Some [98] := Some [50]]> (<[None := Some [51]]> {[Some [97] := Some [49]]}).

Lemma sample_java_strings : java_strings sample_map.
Proof.
  apply map_Forall_insert_2; [|apply map_Forall_insert_2; [|apply map_Forall_singleton]];
    split; intros s Hs; simplify_eq; repeat constructor; done.
Qed.


Lemma entries_of_sorted_witness :
  (forall k v, mkKeyValue k v ∈ entries_of sample_map
     <-> sample_map !! Some k = Some (Some v)) /\
  StronglySorted (fun x y => KeyValue_lt x y = true) (entries_of sample_map).
Proof. exact (entries_of_sorted sample_map sample_java_strings). Defined.
