(* ===== verification/Phaser.v ===== *)
(** The phaser of ThreadHook/src/main/cpp/linker/phaser.c (atracehook has the
    same file): readers enter and leave critical sections with one atomic
    increment and one atomic decrement, and a drainer waits on a futex for
    the sections that were active when it began.

    The model is a transition system whose steps are the atomic operations of
    the source, on the whole state: the two counters, one program counter per
    critical section (a section entered from a signal handler is one more
    section), and the program counter of the drainer. Callers serialize
    [phaser_drain], so there is at most one. [exec] runs one labelled step,
    and [step] is the relation it induces; a run is any interleaving. Atomic
    operations are taken in one total order. The futex strategy of Linux is
    modelled, the pipe strategy is not compiled there. *)
From S2P Require Import Prelude.

Definition NUM_PHASES : nat := 2.

(** The width of [size_t]: 32 or 64. *)
Definition SIZE_MAX (w : Z) : Z := 2 ^ w - 1.
Definition SIZE_T_HIGH_BIT (w : Z) : Z := SIZE_MAX w - Z.shiftr (SIZE_MAX w) 1.
Definition DRAINING (w : Z) : Z := SIZE_T_HIGH_BIT w.
Definition COUNT_DRAINED (w : Z) : Z := Z.lor (SIZE_T_HIGH_BIT w) 0.

Record phaser_t := mkPhaser { counter : list Z }.

(** A critical section: the points of [phaser_enter] and [phaser_exit]
    between atomic operations. *)
Inductive reader :=
| EnterLoad (phase : nat)  (* about to test the DRAINING bit *)
| EnterAdd (phase : nat)   (* has seen it clear, about to increment *)
| Inside (phase : nat)     (* phaser_enter has returned phase *)
| ExitWake (phase : nat)   (* has brought the counter to COUNT_DRAINED *)
| Exited.

(** The drainer: the points of [phaser_drain] and [phaser_drain_counter]. *)
Inductive drainer :=
| DIdle
| DOr (i : nat)                   (* about to set the DRAINING bit *)
| DTest (i : nat) (value : Z)     (* at the test of the while loop *)
| DFutex (i : nat) (value : Z)    (* about to call FUTEX_WAIT *)
| DSleep (i : nat)                (* asleep in the kernel *)
| DLoad (i : nat)                 (* about to load the counter again *)
| DAnd (i : nat).                 (* about to clear the DRAINING bit *)

Record state := mkState {
  phaser : phaser_t;
  readers : gmap nat reader;
  drain : drainer;
}.

Definition phaser_init : phaser_t := mkPhaser (replicate NUM_PHASES 0).

Definition init : state := mkState phaser_init ∅ DIdle.

(** The load and the test of [phaser_counter_try_inc]. *)
Definition draining_bit (w c : Z) : bool := negb (Z.land c (DRAINING w) =? 0).

Definition atomic_add_fetch (w c k : Z) : Z := wrap w (c + k).

Definition next_phase (phase : nat) : nat :=
  Z.to_nat (Z.land (Z.of_nat phase + 1) (Z.of_nat NUM_PHASES - 1)).

Definition set_counter (s : state) (i : nat) (v : Z) : state :=
  mkState (mkPhaser (<[i := v]> (counter (phaser s)))) (readers s) (drain s).

Definition set_reader (s : state) (id : nat) (r : reader) : state :=
  mkState (phaser s) (<[id := r]> (readers s)) (drain s).

Definition set_drain (s : state) (d : drainer) : state :=
  mkState (phaser s) (readers s) d.

(** [futex(counter, FUTEX_WAKE, INT_MAX)]: whoever sleeps on it goes on. *)
Definition futex_wake (i : nat) (d : drainer) : drainer :=
  match d with
  | DSleep j => if decide (i = j) then DLoad j else DSleep j
  | _ => d
  end.

(** One atomic operation of [phaser_enter] or [phaser_exit]. *)
Definition exec_reader (w : Z) (id : nat) (r : reader) (s : state) : option state :=
  match r with
  | EnterLoad p =>
      c ← counter (phaser s) !! p;
      Some (set_reader s id
              (if draining_bit w c then EnterLoad (next_phase p) else EnterAdd p))
  | EnterAdd p =>
      c ← counter (phaser s) !! p;
      Some (set_reader (set_counter s p (atomic_add_fetch w c 1)) id (Inside p))
  | Inside p =>
      c ← counter (phaser s) !! p;
      let value := atomic_add_fetch w c (-1) in
      Some (set_reader (set_counter s p value) id
              (if decide (value = COUNT_DRAINED w) then ExitWake p else Exited))
  | ExitWake p =>
      Some (set_reader (set_drain s (futex_wake p (drain s))) id Exited)
  | Exited => None
  end.

(** One atomic operation of [phaser_drain_counter], or a turn of the loop of
    [phaser_drain]. FUTEX_WAIT compares the 32-bit word at the address with
    the [int] it is given. *)
Definition exec_drain (w : Z) (s : state) : option state :=
  match drain s with
  | DIdle => None
  | DOr i =>
      c ← counter (phaser s) !! i;
      let value := Z.lor c (DRAINING w) in
      Some (set_drain (set_counter s i value) (DTest i value))
  | DTest i value =>
      Some (set_drain s (if decide (value = COUNT_DRAINED w) then DAnd i else DFutex i value))
  | DFutex i value =>
      c ← counter (phaser s) !! i;
      Some (set_drain s (if decide (i32 c = i32 value) then DSleep i else DLoad i))
  | DSleep _ => None
  | DLoad i =>
      c ← counter (phaser s) !! i;
      Some (set_drain s (DTest i c))
  | DAnd i =>
      c ← counter (phaser s) !! i;
      Some (set_drain (set_counter s i (Z.land c (wrap w (Z.lnot (DRAINING w)))))
              (if decide (S i < NUM_PHASES)%nat then DOr (S i) else DIdle))
  end.

Inductive label :=
| LEnter (id : nat)      (* a thread calls phaser_enter *)
| LReader (id : nat)     (* a section makes its next step *)
| LDrainStart            (* a thread calls phaser_drain *)
| LDrain                 (* the drainer makes its next step *)
| LInterrupt.            (* FUTEX_WAIT returns EINTR *)

Definition exec (w : Z) (l : label) (s : state) : option state :=
  match l with
  | LEnter id =>
      match readers s !! id with
      | None => Some (set_reader s id (EnterLoad 0))
      | Some _ => None
      end
  | LReader id => r ← readers s !! id; exec_reader w id r s
  | LDrainStart =>
      match drain s with DIdle => Some (set_drain s (DOr 0)) | _ => None end
  | LDrain => exec_drain w s
  | LInterrupt =>
      match drain s with DSleep i => Some (set_drain s (DLoad i)) | _ => None end
  end.

(** A sequence of labelled steps. *)
Fixpoint run (w : Z) (ls : list label) (s : state) : option state :=
  match ls with
  | [] => Some s
  | l :: ls => s' ← exec w l s; run w ls s'
  end.

(** * Counting the sections *)

Definition is_inside (i : nat) (r : reader) : bool :=
  match r with Inside p => Nat.eqb p i | _ => false end.
Definition is_adding (i : nat) (r : reader) : bool :=
  match r with EnterAdd p => Nat.eqb p i | _ => false end.
Definition is_waking (i : nat) (r : reader) : bool :=
  match r with ExitWake p => Nat.eqb p i | _ => false end.

(** The sections that have incremented counter [i] and not decremented it. *)
Definition active (i : nat) (s : state) : Z := map_count (is_inside i) (readers s).
Definition adding (i : nat) (s : state) : Z := map_count (is_adding i) (readers s).
Definition waking (i : nat) (s : state) : Z := map_count (is_waking i) (readers s).

Definition reader_phase (r : reader) : nat :=
  match r with
  | EnterLoad p | EnterAdd p | Inside p | ExitWake p => p
  | Exited => 0
  end.

(** Whether the drainer has set the bit of counter [i]. *)
Definition draining (i : nat) (s : state) : bool :=
  match drain s with
  | DTest j _ | DFutex j _ | DSleep j | DLoad j | DAnd j => Nat.eqb j i
  | DIdle | DOr _ => false
  end.

Definition drain_phase (d : drainer) : nat :=
  match d with
  | DIdle => 0
  | DOr j | DTest j _ | DFutex j _ | DSleep j | DLoad j | DAnd j => j
  end.

(** Fewer than 2^31 sections are active at once. *)
Definition bounded (s : state) : Prop := active 0 s + active 1 s < 2 ^ 31.

Definition step (w : Z) (s s' : state) : Prop :=
  exists l, exec w l s = Some s' /\ bounded s'.

(** The states a program can reach. *)
Definition reachable (w : Z) (s : state) : Prop := rtc (step w) init s.


#[export] Instance reader_eq_dec : EqDecision reader.
Proof. solve_decision. Defined.

#[export] Instance bounded_dec s : Decision (bounded s).
Proof. unfold bounded. apply _. Defined.

(** A run whose states are all bounded, and its relation to [step]. *)
Fixpoint run_bounded (w : Z) (ls : list label) (s : state) : option state :=
  match ls with
  | [] => Some s
  | l :: ls =>
      s' ← exec w l s;
      if decide (bounded s') then run_bounded w ls s' else None
  end.

Lemma run_bounded_rtc w ls s s' : run_bounded w ls s = Some s' -> rtc (step w) s s'.
Proof.
  revert s; induction ls as [|l ls IH]; intros s; cbn; [by intros [= ->]|].
  destruct (exec w l s) as [s1|] eqn:E; cbn; [|done]. case_decide as Hb; [|done].
  intros H. eapply rtc_l; [by exists l|]. by apply IH.
Qed.

(** * The invariant *)

Section Phaser.
Context (w : Z) (Hw : 32 <= w).

Lemma DRAINING_pow2 : DRAINING w = 2 ^ (w - 1).
Proof.
  unfold DRAINING, SIZE_T_HIGH_BIT, SIZE_MAX. rewrite Z.shiftr_div_pow2 by lia.
  assert (E : 2 ^ w = 2 * 2 ^ (w - 1)) by (rewrite <- Z.pow_succ_r by lia; f_equal; lia).
  rewrite E. change (2 ^ 1) with 2.
  replace (2 * 2 ^ (w - 1) - 1) with (1 + (2 ^ (w - 1) - 1) * 2) by lia.
  rewrite Z.div_add by lia. change (1 / 2) with 0. lia.
Qed.

Lemma COUNT_DRAINED_pow2 : COUNT_DRAINED w = 2 ^ (w - 1).
Proof. unfold COUNT_DRAINED. rewrite Z.lor_0_r. apply DRAINING_pow2. Qed.

Lemma pow_w : 2 ^ w = 2 * 2 ^ (w - 1) /\ 2 ^ 31 <= 2 ^ (w - 1).
Proof.
  split; [rewrite <- Z.pow_succ_r by lia; f_equal; lia|]. apply Z.pow_le_mono_r; lia.
Qed.

(** The value of a counter with [n] active sections. *)
Definition encode_count (d : bool) (n : Z) : Z := (if d then 2 ^ (w - 1) else 0) + n.

Lemma draining_bit_encode d n : 0 <= n < 2 ^ 31 -> draining_bit w (encode_count d n) = d.
Proof.
  intros Hn. pose proof pow_w as [_ Hp]. unfold draining_bit, encode_count.
  rewrite DRAINING_pow2. destruct d.
  - rewrite land_pow2_high by lia. destruct (Z.eqb_spec (2 ^ (w - 1)) 0); [lia|done].
  - rewrite Z.add_0_l, land_pow2_small by lia. done.
Qed.

Lemma add_fetch_encode d n k : 0 <= n + k < 2 ^ 31 ->
  atomic_add_fetch w (encode_count d n) k = encode_count d (n + k).
Proof.
  intros Hn. pose proof pow_w as [E Hp]. unfold atomic_add_fetch, encode_count.
  rewrite wrap_small; [lia|]. unfold in_range. destruct d; lia.
Qed.

Lemma or_encode n : 0 <= n < 2 ^ 31 ->
  Z.lor (encode_count false n) (DRAINING w) = encode_count true n.
Proof.
  intros Hn. pose proof pow_w as [_ Hp]. unfold encode_count.
  by rewrite DRAINING_pow2, Z.add_0_l, lor_pow2_small by lia.
Qed.

Lemma and_encode n : 0 <= n < 2 ^ 31 ->
  Z.land (encode_count true n) (wrap w (Z.lnot (DRAINING w))) = encode_count false n.
Proof.
  intros Hn. pose proof pow_w as [E Hp]. unfold encode_count. rewrite DRAINING_pow2.
  rewrite <- wrap_land_ones, (Z.land_comm (Z.lnot _)), Z.land_assoc by lia.
  rewrite wrap_land_ones, wrap_small by (unfold in_range; lia).
  rewrite <- Z.ldiff_land. rewrite ldiff_pow2_high by lia. lia.
Qed.

Lemma i32_encode m n : 0 <= m < 2 ^ 31 -> 0 <= n < 2 ^ 31 ->
  i32 (encode_count true m) = i32 (encode_count true n) -> m = n.
Proof.
  intros Hm Hn E. apply (f_equal (wrap 32)) in E. rewrite !wrap_swrap in E by lia.
  unfold encode_count, wrap in E.
  destruct (decide (w = 32)) as [->|].
  - change (2 ^ (32 - 1)) with 2147483648 in E. change (2 ^ 31) with 2147483648 in *.
    change (2 ^ 32) with 4294967296 in E. rewrite !Z.mod_small in E by lia. lia.
  - assert (Ep : 2 ^ (w - 1) = 2 ^ (w - 1 - 32) * 2 ^ 32) by (rewrite <- Z.pow_add_r by lia; f_equal; lia).
    rewrite Ep, !(Z.add_comm (_ * _)), !Z_mod_plus_full, !Z.mod_small in E by lia. done.
Qed.

Lemma active_set_reader i s id r :
  active i (set_reader s id r)
  = active i s - count_opt (is_inside i) (readers s !! id) + Z.b2z (is_inside i r).
Proof. apply map_count_insert. Qed.

Lemma waking_set_reader i s id r :
  waking i (set_reader s id r)
  = waking i s - count_opt (is_waking i) (readers s !! id) + Z.b2z (is_waking i r).
Proof. apply map_count_insert. Qed.

Record Inv (s : state) : Prop := {
  inv_bounded : bounded s;
  inv_readers : forall id r, readers s !! id = Some r -> (reader_phase r < NUM_PHASES)%nat;
  inv_drain : (drain_phase (drain s) < NUM_PHASES)%nat;
  inv_length : length (counter (phaser s)) = NUM_PHASES;
  inv_counter : forall i, (i < NUM_PHASES)%nat ->
    counter (phaser s) !! i = Some (encode_count (draining i s) (active i s));
  inv_value : forall i v, drain s = DTest i v \/ drain s = DFutex i v ->
    exists n, 0 <= n < 2 ^ 31 /\ v = encode_count true n;
  inv_futex : forall i v, drain s = DFutex i v -> v <> COUNT_DRAINED w;
  inv_sleep : forall i, drain s = DSleep i -> 0 < active i s + waking i s;
}.

Lemma active_nonneg i s : 0 <= active i s.
Proof. apply map_count_nonneg. Qed.

Lemma active_bound i s : bounded s -> (i < NUM_PHASES)%nat -> 0 <= active i s < 2 ^ 31.
Proof.
  unfold bounded, NUM_PHASES. intros Hb Hi. pose proof (active_nonneg 0 s).
  pose proof (active_nonneg 1 s). destruct i as [|[|i]]; lia.
Qed.

Lemma active_init i : active i init = 0.
Proof. apply map_count_empty. Qed.

Lemma inv_init : Inv init.
Proof.
  constructor.
  - unfold bounded. by rewrite !active_init.
  - intros id r Hr. cbn in Hr. by rewrite lookup_empty in Hr.
  - unfold NUM_PHASES; cbn; lia.
  - done.
  - intros i Hi. rewrite active_init. unfold NUM_PHASES in Hi. by destruct i as [|[|i]]; [..|lia].
  - cbn. naive_solver.
  - done.
  - done.
Qed.

Lemma next_phase_lt p : (next_phase p < NUM_PHASES)%nat.
Proof.
  unfold next_phase, NUM_PHASES. change (Z.of_nat 2 - 1) with (Z.ones 1).
  rewrite Z.land_ones by lia. pose proof (Z.mod_pos_bound (Z.of_nat p + 1) (2 ^ 1)). lia.
Qed.

Lemma active_set_drain i s d : active i (set_drain s d) = active i s.
Proof. reflexivity. Qed.

Lemma active_set_counter i s p v : active i (set_counter s p v) = active i s.
Proof. reflexivity. Qed.

(** A section moves and the drainer does not: what is left to check. *)
Lemma inv_reader_step s id r r' : Inv s -> readers s !! id = Some r ->
  (reader_phase r' < NUM_PHASES)%nat -> forall s',
  readers s' = <[id := r']> (readers s) -> drain s' = drain s ->
  length (counter (phaser s')) = NUM_PHASES ->
  (forall i, (i < NUM_PHASES)%nat ->
    counter (phaser s') !! i = Some (encode_count (draining i s) (active i s'))) ->
  bounded s' ->
  (forall i, drain s = DSleep i -> 0 < active i s + waking i s -> 0 < active i s' + waking i s') ->
  Inv s'.
Proof.
  intros HI Hr Hr' s' Er Ed El Ec Hb Hs. split; rewrite ?Ed; try apply HI; try done.
  - intros id' q. rewrite Er. intros [[<- <-]|[_ Hq]]%lookup_insert_Some; [done|].
    by apply (inv_readers s HI id').
  - unfold draining in *. by rewrite Ed.
  - intros i Hi. apply Hs; [done|]. by apply HI.
Qed.


Lemma waking_nonneg i s : 0 <= waking i s.
Proof. apply map_count_nonneg. Qed.

Lemma active_inside s id p : readers s !! id = Some (Inside p) -> 0 < active p s.
Proof. intros H. apply (map_count_pos _ _ id (Inside p)); [done|]. apply Nat.eqb_refl. Qed.

Lemma waking_wakes s id p : readers s !! id = Some (ExitWake p) -> 0 < waking p s.
Proof. intros H. apply (map_count_pos _ _ id (ExitWake p)); [done|]. apply Nat.eqb_refl. Qed.

Lemma b2z_eqb p i : Z.b2z (Nat.eqb p i) = if decide (p = i) then 1 else 0.
Proof. destruct (Nat.eqb_spec p i); case_decide; congruence || done. Qed.

Lemma encode_drained d n : 0 <= n < 2 ^ 31 -> encode_count d n = COUNT_DRAINED w <-> d = true /\ n = 0.
Proof.
  intros Hn. pose proof pow_w as [_ Hp]. rewrite COUNT_DRAINED_pow2. unfold encode_count.
  destruct d; split; intros; destruct_and?; try lia; done.
Qed.

Ltac counts := rewrite ?active_set_reader, ?waking_set_reader, ?active_set_counter.

Lemma inv_enter s id s' : Inv s -> exec w (LEnter id) s = Some s' -> bounded s' -> Inv s'.
Proof.
  intros HI E Hb. cbn in E. destruct (readers s !! id) eqn:Hr; simplify_eq.
  assert (Ha : forall i, active i (set_reader s id (EnterLoad 0)) = active i s)
    by (intros i; counts; rewrite Hr; cbn; lia).
  split; cbn [drain readers phaser set_reader]; try apply HI; try done.
  - intros id' q. intros [[<- <-]|[_ Hq]]%lookup_insert_Some; [unfold NUM_PHASES; cbn; lia|].
    by apply (inv_readers s HI id').
  - intros i Hi. rewrite Ha. by apply HI.
  - intros i Hi. rewrite Ha. counts. rewrite Hr. cbn.
    pose proof (inv_sleep s HI i Hi). lia.
Qed.


(** The counter list after one counter is set. *)
Lemma counter_insert s i p v : Inv s -> (p < NUM_PHASES)%nat -> (i < NUM_PHASES)%nat ->
  <[p := v]> (counter (phaser s)) !! i
  = Some (if decide (p = i) then v else encode_count (draining i s) (active i s)).
Proof.
  intros HI Hp Hi. case_decide as D.
  - subst i. apply list_lookup_insert_eq. by rewrite (inv_length s HI).
  - rewrite list_lookup_insert_ne by done. by apply HI.
Qed.

Lemma length_counter_insert s p v : Inv s ->
  length (<[p := v]> (counter (phaser s))) = NUM_PHASES.
Proof. intros HI. rewrite length_insert. apply HI. Qed.

Lemma inv_reader s id s' : Inv s -> exec w (LReader id) s = Some s' -> bounded s' -> Inv s'.
Proof.
  intros HI E Hb. cbn in E. destruct (readers s !! id) as [r|] eqn:Hr; [|done]. cbn in E.
  pose proof (inv_readers s HI id r Hr) as Hp.
  destruct r as [p|p|p|p|]; cbn [reader_phase] in Hp; cbn [exec_reader] in E; [..|done].
  - rewrite (inv_counter s HI p Hp) in E. cbn in E. injection E as <-.
    assert (Hlt := next_phase_lt p).
    eapply (inv_reader_step s id _ _ HI Hr); [|reflexivity|reflexivity|by apply HI|..|done|].
    + by destruct (draining_bit _ _).
    + intros i Hi. counts. rewrite Hr. cbn. rewrite (inv_counter s HI i Hi).
      destruct (draining_bit _ _); cbn; do 2 f_equal; lia.
    + intros i Hi Hs. counts. rewrite Hr. cbn. destruct (draining_bit _ _); cbn; lia.
  - rewrite (inv_counter s HI p Hp) in E. cbn in E. injection E as <-.
    pose proof (active_bound p _ Hb Hp) as Ha. revert Ha. counts. cbn. rewrite Hr. cbn.
    rewrite Nat.eqb_refl; cbn. intros Ha.
    eapply (inv_reader_step s id _ _ HI Hr); [|reflexivity|reflexivity|by apply length_counter_insert|..|done|].
    + done.
    + intros i Hi. cbn [phaser counter set_counter set_reader]. rewrite counter_insert by done.
      counts. cbn. rewrite Hr. cbn. rewrite b2z_eqb. rewrite add_fetch_encode by lia.
      case_decide; subst; do 2 f_equal; lia.
    + intros i Hi Hs. counts. cbn. rewrite Hr. cbn. rewrite b2z_eqb.
      unfold active, waking in *. cbn. case_decide; lia.
  - rewrite (inv_counter s HI p Hp) in E. cbn in E. injection E as <-.
    pose proof (active_inside s id p Hr) as Hpos.
    pose proof (active_bound p s (inv_bounded s HI) Hp) as Ha.
    rewrite add_fetch_encode in Hb |- * by lia.
    eapply (inv_reader_step s id _ _ HI Hr); [|reflexivity|reflexivity|by apply length_counter_insert|..|done|].
    + case_decide; [done|unfold NUM_PHASES; cbn; lia].
    + intros i Hi. cbn [phaser counter set_counter set_reader]. rewrite counter_insert by done.
      counts. cbn. rewrite Hr. cbn. rewrite b2z_eqb.
      clear Hb. repeat (case_decide; subst; cbn); do 2 f_equal; try lia; done.
    + clear Hb. intros i Hi Hs. counts. cbn. rewrite Hr. cbn. rewrite !b2z_eqb.
      pose proof (active_nonneg i s). pose proof (waking_nonneg i s).
      destruct (decide (p = i)) as [<-|].
      * assert (Hd : draining p s = true) by (unfold draining; rewrite Hi; apply Nat.eqb_refl).
        rewrite Hd. case_decide as D; cbn.
        -- rewrite Nat.eqb_refl. cbn. unfold active, waking in *. cbn in *. lia.
        -- rewrite encode_drained in D by lia. unfold active, waking in *. cbn in *. 
           destruct (decide (map_count (is_inside p) (readers s) = 1)) as [E1|]; [|lia].
           destruct D. rewrite E1. done.
      * case_decide; cbn; rewrite ?b2z_eqb, ?(decide_False (P:=p = i)) by assumption; cbn; unfold active, waking in *; cbn in *; lia.
  - injection E as <-. 
    assert (Ha : forall i, active i (set_reader (set_drain s (futex_wake p (drain s))) id Exited) = active i s)
      by (intros i; counts; cbn; rewrite Hr; unfold active; cbn; lia).
    assert (Hd : forall i, draining i (set_reader (set_drain s (futex_wake p (drain s))) id Exited) = draining i s)
      by (intros i; unfold draining; cbn; destruct (drain s); cbn; try case_decide; done).
    split; cbn [drain readers phaser set_reader set_drain]; try apply HI; try done.
    + intros id' q. intros [[<- <-]|[_ Hq]]%lookup_insert_Some; [unfold NUM_PHASES; cbn; lia|].
      by apply (inv_readers s HI id').
    + pose proof (inv_drain s HI). destruct (drain s); cbn; try case_decide; done.
    + intros i Hi. rewrite Ha, Hd. by apply HI.
    + intros i v Hv. apply (inv_value s HI i). destruct (drain s); cbn in *; try case_decide; naive_solver.
    + intros i v Hv. apply (inv_futex s HI i). destruct (drain s); cbn in *; try case_decide; naive_solver.
    + intros i Hi. rewrite Ha. counts. cbn. rewrite Hr. cbn. rewrite b2z_eqb.
      assert (drain s = DSleep i /\ p <> i) as [Hs Hne].
      { destruct (drain s); cbn in *; try case_decide; naive_solver. }
      rewrite decide_False by done. pose proof (inv_sleep s HI i Hs). unfold waking, active in *. cbn. lia.
Qed.


(** The drainer moves and the sections do not. *)
Lemma inv_drainer_step s s' : Inv s -> readers s' = readers s -> bounded s' ->
  (drain_phase (drain s') < NUM_PHASES)%nat ->
  length (counter (phaser s')) = NUM_PHASES ->
  (forall i, (i < NUM_PHASES)%nat ->
    counter (phaser s') !! i = Some (encode_count (draining i s') (active i s))) ->
  (forall i v, drain s' = DTest i v \/ drain s' = DFutex i v ->
    exists n, 0 <= n < 2 ^ 31 /\ v = encode_count true n) ->
  (forall i v, drain s' = DFutex i v -> v <> COUNT_DRAINED w) ->
  (forall i, drain s' = DSleep i -> 0 < active i s + waking i s) ->
  Inv s'.
Proof.
  intros HI Er Hb Hp Hl Hc Hv Hf Hs.
  split; unfold active, waking; rewrite ?Er; try done. apply HI.
Qed.

Lemma inv_start s s' : Inv s -> exec w LDrainStart s = Some s' -> Inv s'.
Proof.
  intros HI E. cbn in E. destruct (drain s) eqn:Ed; try done. injection E as <-.
  apply (inv_drainer_step s); try done; try apply HI; try (cbn; naive_solver).
  - unfold NUM_PHASES; cbn; lia.
  - intros i Hi. cbn [phaser set_drain]. rewrite (inv_counter s HI i Hi). unfold draining. by rewrite Ed.
Qed.

Lemma inv_interrupt s s' : Inv s -> exec w LInterrupt s = Some s' -> Inv s'.
Proof.
  intros HI E. cbn in E. destruct (drain s) as [| | | |j| |] eqn:Ed; try done. injection E as <-.
  apply (inv_drainer_step s); try done; try apply HI; try (cbn; naive_solver).
  - pose proof (inv_drain s HI). by rewrite Ed in *.
  - intros i Hi. cbn [phaser set_drain]. rewrite (inv_counter s HI i Hi). unfold draining. by rewrite Ed.
Qed.

Lemma inv_drain_loop s s' : Inv s -> exec w LDrain s = Some s' ->
  (forall i, drain s <> DOr i) -> (forall i, drain s <> DAnd i) -> Inv s'.
Proof.
  intros HI E Ho Ha. cbn in E. unfold exec_drain in E.
  pose proof (inv_drain s HI) as Hp.
  destruct (drain s) as [|i|i v|i v|i|i|i] eqn:Ed; cbn [drain_phase] in Hp;
    [done|by destruct (Ho i)| | |done| |by destruct (Ha i)].
  - injection E as <-. apply (inv_drainer_step s); try done; try apply HI.
    + cbn. case_decide; exact Hp.
    + intros j Hj. cbn [phaser set_drain]. rewrite (inv_counter s HI j Hj). unfold draining. cbn. rewrite Ed. by case_decide.
    + cbn. intros j v'. case_decide; [naive_solver|]. intros [|[= <- <-]]; [done|].
      apply (inv_value s HI i v). auto.
    + cbn. intros j v'. case_decide; naive_solver.
    + cbn. intros j. by case_decide.
  - rewrite (inv_counter s HI i Hp) in E. cbn in E. injection E as <-.
    assert (Hd : draining i s = true) by (unfold draining; rewrite Ed; apply Nat.eqb_refl).
    destruct (inv_value s HI i v (or_intror Ed)) as (n & Hn & ->).
    pose proof (inv_futex s HI i _ Ed) as Hne. rewrite encode_drained in Hne by lia.
    apply (inv_drainer_step s); try done; try apply HI.
    + cbn. case_decide; exact Hp.
    + intros j Hj. cbn [phaser set_drain]. rewrite (inv_counter s HI j Hj). unfold draining. cbn. rewrite Ed. by case_decide.
    + cbn. intros j v'. case_decide; naive_solver.
    + cbn. intros j v'. by case_decide.
    + cbn. intros j. case_decide as D; [|done]. intros [= <-].
      pose proof (active_bound i s (inv_bounded s HI) Hp). pose proof (waking_nonneg i s).
      rewrite Hd in D. apply i32_encode in D; [|lia..]. subst n.
      destruct (decide (active i s = 0)); [tauto|lia].
  - rewrite (inv_counter s HI i Hp) in E. cbn in E. injection E as <-.
    assert (Hd : draining i s = true) by (unfold draining; rewrite Ed; apply Nat.eqb_refl).
    apply (inv_drainer_step s); try done; try apply HI; try (cbn; naive_solver).
    + intros j Hj. cbn [phaser set_drain]. rewrite (inv_counter s HI j Hj). unfold draining. cbn. by rewrite Ed.
    + cbn. intros j v' [[= <- <-]|]; [|done]. rewrite Hd.
      exists (active i s). split; [|done]. apply active_bound; [apply HI|done].
Qed.

Lemma inv_drain_bits s s' i : Inv s -> exec w LDrain s = Some s' ->
  drain s = DOr i \/ drain s = DAnd i -> Inv s'.
Proof.
  intros HI E Hd. cbn in E. unfold exec_drain in E. pose proof (inv_drain s HI) as Hp.
  assert (Hp' : (i < NUM_PHASES)%nat) by (destruct Hd as [Hd|Hd]; by rewrite Hd in Hp).
  pose proof (active_bound i s (inv_bounded s HI) Hp') as Ha.
  destruct Hd as [Ed|Ed]; rewrite Ed in E; rewrite (inv_counter s HI i Hp') in E;
    cbn in E; injection E as <-;
    (apply (inv_drainer_step s); [done|done|apply HI|..|by apply length_counter_insert| | | |]);
    cbn; try naive_solver.
  - intros j Hj. rewrite counter_insert by done. unfold draining in *. cbn in *. rewrite Ed.
    case_decide as D; [subst; rewrite Nat.eqb_refl; by rewrite or_encode|].
    by destruct (Nat.eqb_spec i j).
  - intros j v [[= <- <-]|]; [|done]. exists (active i s). split; [done|].
    unfold draining. rewrite Ed. by apply or_encode.
  - case_decide; [done|unfold NUM_PHASES; cbn; lia].
  - intros j Hj. rewrite counter_insert by done. unfold draining in *. cbn in *. rewrite Ed.
    case_decide as D; [subst; rewrite Nat.eqb_refl; rewrite and_encode by done|].
    + by case_decide.
    + destruct (Nat.eqb_spec i j); [done|]. by case_decide.
  - intros j v. case_decide; naive_solver.
  - intros j v. case_decide; naive_solver.
  - intros j. case_decide; naive_solver.
Qed.

Lemma inv_step s s' : Inv s -> step w s s' -> Inv s'.
Proof.
  intros HI [l [E Hb]]. destruct l as [id|id| | |].
  - by apply (inv_enter s id).
  - by apply (inv_reader s id).
  - by apply (inv_start s).
  - destruct (drain s) as [|i|i v|i v|i|i|i] eqn:Ed.
    2: apply (inv_drain_bits s s' i HI E); auto.
    6: apply (inv_drain_bits s s' i HI E); auto.
    all: apply (inv_drain_loop s s' HI E); rewrite Ed; done.
  - by apply (inv_interrupt s).
Qed.

Lemma inv_reachable s : reachable w s -> Inv s.
Proof. apply rtc_ind_r; [apply inv_init|]. intros x y _ Hxy HI. by apply (inv_step x). Qed.


(** * What the sections and the drainer can rely on *)

(** In every reachable state, counter [i] is the number of sections that
    have entered phase [i] and not left it, with the DRAINING bit set exactly
    while the drainer works on that counter: the count never reaches the bit,
    whatever the interleaving. *)
Theorem counter_counts_sections s i : reachable w s -> (i < NUM_PHASES)%nat ->
  counter (phaser s) !! i
  = Some ((if draining i s then DRAINING w else 0) + active i s).
Proof.
  intros HI%inv_reachable Hi. rewrite (inv_counter s HI i Hi). unfold encode_count.
  by rewrite DRAINING_pow2.
Qed.

Lemma at_most_one_draining s : draining 0 s && draining 1 s = false.
Proof. unfold draining. by destruct (drain s) as [|i|i v|i v|i|i|i]; try destruct i as [|[|i]]. Qed.

(** [phaser_enter] and [phaser_exit] never block: a section that is not
    over has a next step in every reachable state, and when the counter that
    [phaser_enter] tests is draining, the next one it tries is not. *)
Theorem sections_never_block s id r : reachable w s ->
  readers s !! id = Some r -> r <> Exited ->
  is_Some (exec w (LReader id) s) /\
  forall p, r = EnterLoad p -> draining p s = true -> draining (next_phase p) s = false.
Proof.
  intros HI%inv_reachable Hr Hne. pose proof (inv_readers s HI id r Hr) as Hp. split.
  - cbn. rewrite Hr. cbn. destruct r; cbn in *; try done;
      rewrite (inv_counter s HI _ Hp); by eexists.
  - intros p -> Hd. cbn in Hp. unfold NUM_PHASES in Hp. pose proof (at_most_one_draining s) as H.
    destruct p as [|[|p]]; [| |lia]; rewrite Hd in H; cbn in H; rewrite ?andb_true_r in H; apply H.
Qed.

(** A section [id] that was inside phase [p] when the drain began: it has
    left, or the drainer has not passed its counter. *)
Definition waited_for (id p : nat) (s : state) : Prop :=
  readers s !! id = Some (ExitWake p) \/ readers s !! id = Some Exited \/
  (readers s !! id = Some (Inside p) /\ (drain_phase (drain s) <= p)%nat /\
   drain s <> DIdle /\ drain s <> DAnd p /\ drain s <> DTest p (COUNT_DRAINED w)).

Lemma waited_for_reader s s' id p id' : Inv s -> waited_for id p s ->
  exec w (LReader id') s = Some s' -> waited_for id p s'.
Proof.
  intros HI HJ E. cbn in E. destruct (readers s !! id') as [r|] eqn:Hr; [|done]. cbn in E.
  pose proof (inv_readers s HI id' r Hr) as Hp. unfold waited_for in *.
  destruct r as [q|q|q|q|]; cbn [reader_phase] in Hp; cbn [exec_reader] in E; [..|done];
    try (rewrite (inv_counter s HI q Hp) in E; cbn in E); injection E as <-;
    cbn [readers drain set_reader set_counter set_drain];
    (destruct (decide (id' = id)) as [->|];
     [rewrite lookup_insert_eq; destruct HJ as [HJ|[HJ|(HJ & Hrest)]]; simplify_eq; try (by auto)
     |rewrite lookup_insert_ne by done; try exact HJ]).
  - case_decide; auto.
  - destruct HJ as [HJ|[HJ|(HJ & Hd & H1 & H2 & H3)]]; [by auto..|]. right; right.
    split; [done|]. destruct (drain s); cbn in *; try case_decide; by auto.
Qed.

Lemma waited_for_drain s s' id p : Inv s -> waited_for id p s ->
  exec w LDrain s = Some s' -> waited_for id p s'.
Proof.
  intros HI HJ E. cbn in E. unfold exec_drain in E. unfold waited_for in *.
  assert (Hrs : readers s' = readers s).
  { destruct (drain s); try done; try injection E as <-; try done;
      destruct (_ !! _) in E; try done; by injection E as <-. }
  rewrite Hrs. destruct HJ as [HJ|[HJ|(HJ & Hd & H1 & H2 & H3)]]; [by auto..|].
  right; right. split; [done|]. pose proof (inv_drain s HI) as Hp.
  pose proof (active_inside s id p HJ) as Hpos.
  destruct (drain s) as [|i|i v|i v|i|i|i] eqn:Ed; cbn [drain_phase] in *; try done;
    try (rewrite (inv_counter s HI i Hp) in E; cbn in E); injection E as <-; cbn [drain set_drain].
  - split_and!; [done..|]. intros [= -> Hv].
    pose proof (active_bound p s (inv_bounded s HI) Hp).
    assert (Hf : draining p s = false) by (unfold draining; by rewrite Ed).
    rewrite Hf, or_encode, encode_drained in Hv by done. lia.
  - case_decide; subst; split_and!; try done; congruence.
  - case_decide; done.
  - split_and!; [done..|]. intros [= -> Hv].
    pose proof (active_bound p s (inv_bounded s HI) Hp).
    rewrite encode_drained in Hv by done. lia.
  - pose proof (inv_readers s HI id _ HJ) as Hp'. cbn in Hp'.
    assert (i <> p) by congruence. case_decide; cbn; [|lia]. split_and!; done || lia.
Qed.

Lemma waited_for_step s s' id p : Inv s -> waited_for id p s -> step w s s' -> waited_for id p s'.
Proof.
  intros HI HJ [[id'|id'| | |] [E _]].
  - cbn in E. destruct (readers s !! id') eqn:Hr; simplify_eq. unfold waited_for in *.
    cbn. rewrite lookup_insert_ne; [done|]. intros ->.
    destruct HJ as [?|[?|(? & _)]]; congruence.
  - by apply (waited_for_reader s s' id p id').
  - cbn in E. destruct (drain s) eqn:Ed; try done. injection E as <-.
    destruct HJ as [HJ|[HJ|(HJ & _ & H & _)]]; unfold waited_for; auto. by rewrite Ed in H.
  - by apply (waited_for_drain s).
  - cbn in E. destruct (drain s) eqn:Ed; try done. injection E as <-. unfold waited_for in *.
    rewrite Ed in HJ. cbn in *. naive_solver.
Qed.

(** C5: [phaser_drain] returns only when every critical section that was
    active when it began has ended: a section that was inside a phase in the
    state where the drain starts has at least decremented its counter in any
    later state where the drainer is idle again, whatever the other sections,
    the wake-ups and the interrupted waits did in between. *)
Theorem drain_waits_for_sections s0 s1 s id p :
  reachable w s0 -> readers s0 !! id = Some (Inside p) ->
  exec w LDrainStart s0 = Some s1 -> rtc (step w) s1 s -> drain s = DIdle ->
  readers s !! id = Some (ExitWake p) \/ readers s !! id = Some Exited.
Proof.
  intros HI%inv_reachable Hin E Hrun Hidle.
  assert (HI1 : Inv s1) by (by apply (inv_start s0)).
  assert (HJ1 : waited_for id p s1).
  { cbn in E. destruct (drain s0) eqn:Ed; try done. injection E as <-.
    right; right. cbn. split_and!; [done|lia|done..]. }
  assert (HJ : waited_for id p s).
  { clear E HI. induction Hrun as [|x y z Hxy _ IH]; [done|].
    apply IH; [done|by apply (inv_step x)|by apply (waited_for_step x)]. }
  destruct HJ as [?|[?|(_ & _ & ? & _)]]; by auto.
Qed.

(** No wake-up is lost: whenever the drainer sleeps on counter [i], some
    section is still inside phase [i], so that it will see the DRAINING bit
    when it leaves, or has left it and is about to call FUTEX_WAKE. *)
Theorem no_lost_wakeup s i : reachable w s -> drain s = DSleep i ->
  exists id, readers s !! id = Some (Inside i) \/ readers s !! id = Some (ExitWake i).
Proof.
  intros HI%inv_reachable Hs. pose proof (inv_sleep s HI i Hs) as H.
  pose proof (active_nonneg i s). destruct (decide (0 < active i s)) as [Ha|].
  - apply map_count_witness in Ha as (id & r & Hr & Ht). exists id. left.
    destruct r; cbn in Ht; try done. by apply Nat.eqb_eq in Ht as ->.
  - assert (Hw' : 0 < waking i s) by lia.
    apply map_count_witness in Hw' as (id & r & Hr & Ht). exists id. right.
    destruct r; cbn in Ht; try done. by apply Nat.eqb_eq in Ht as ->.
Qed.

(** All the sections are over. *)
Definition quiet (s : state) : Prop := forall id r, readers s !! id = Some r -> r = Exited.

(** The steps the drainer has left when all the sections are over. *)
Definition drain_left (d : drainer) : nat :=
  match d with
  | DIdle => 0
  | DOr i => 3 + 3 * (1 - i)
  | DTest i v => (if decide (v = COUNT_DRAINED w) then 2 else 5) + 3 * (1 - i)
  | DFutex i _ => 4 + 3 * (1 - i)
  | DSleep i => 4 + 3 * (1 - i)
  | DLoad i => 3 + 3 * (1 - i)
  | DAnd i => 1 + 3 * (1 - i)
  end.

Lemma drain_left_0 d : drain_left d = 0%nat -> d = DIdle.
Proof. unfold drain_left. destruct d; try case_decide; by lia || done. Qed.

Lemma quiet_count (P : reader -> bool) s : quiet s -> P Exited = false ->
  map_count P (readers s) = 0.
Proof.
  intros Hq HP. pose proof (map_count_nonneg P (readers s)).
  destruct (decide (0 < map_count P (readers s))) as [Hc|]; [|lia].
  apply map_count_witness in Hc as (id & r & Hr & Ht). rewrite (Hq id r Hr) in Ht. congruence.
Qed.

Lemma quiet_drain_step s : Inv s -> quiet s -> drain s <> DIdle -> exists s',
  exec w LDrain s = Some s' /\ readers s' = readers s /\ bounded s' /\
  (drain_left (drain s') < drain_left (drain s))%nat.
Proof.
  intros HI Hq Hd. pose proof (inv_drain s HI) as Hp. cbn. unfold exec_drain.
  assert (Ha : forall i, active i s = 0) by (intros i; by apply quiet_count).
  assert (Hk : forall i, waking i s = 0) by (intros i; by apply quiet_count).
  pose proof (inv_bounded s HI) as Hb.
  destruct (drain s) as [|i|i v|i v|i|i|i] eqn:Ed; cbn [drain_phase] in Hp; try done;
    try (rewrite (inv_counter s HI i Hp), Ha; cbn [mbind option_bind]);
    try (eexists; split_and!; [reflexivity|done|done|]; cbn [drain set_drain]).
  - unfold draining. rewrite Ed. cbn. rewrite or_encode by done. rewrite decide_True; [lia|].
    by apply encode_drained.
  - case_decide as D; cbn; [rewrite ?decide_True by done|]; try lia; rewrite ?decide_False by done; lia.
  - case_decide as D; cbn; [|lia]. exfalso.
    destruct (inv_value s HI i v (or_intror Ed)) as (n & Hn & ->).
    unfold draining in D. rewrite Ed, Nat.eqb_refl in D. apply i32_encode in D; [|lia..]. subst n.
    by apply (inv_futex s HI i _ Ed), encode_drained.
  - pose proof (inv_sleep s HI i Ed). rewrite Ha, Hk in *. lia.
  - unfold draining. rewrite Ed, Nat.eqb_refl. cbn. rewrite decide_True; [lia|]. by apply encode_drained.
  - unfold NUM_PHASES in *. case_decide; cbn; lia.
Qed.

Lemma quiet_drain_runs s : Inv s -> quiet s -> exists n s',
  (n <= drain_left (drain s))%nat /\ run w (replicate n LDrain) s = Some s' /\ drain s' = DIdle.
Proof.
  remember (drain_left (drain s)) as k eqn:Ek. revert s Ek.
  induction k as [k IH] using (well_founded_induction lt_wf). intros s -> HI Hq.
  destruct (decide (drain_left (drain s) = 0%nat)) as [E0|Hne].
  - exists 0%nat, s. split; [lia|]. split; [done|]. by apply drain_left_0.
  - destruct (quiet_drain_step s HI Hq) as (s1 & E & Er & Hb & Hlt); [intros H; by rewrite H in Hne|].
    destruct (IH _ Hlt s1 eq_refl) as (n & s' & Hn & Hrun & Hidle).
    + apply (inv_step s); [done|]. by exists LDrain.
    + unfold quiet. by rewrite Er.
    + exists (S n), s'. split; [lia|]. split; [|done]. cbn [replicate run]. rewrite E. exact Hrun.
Qed.

Lemma drain_left_le d : (drain_left d <= 8)%nat.
Proof. destruct d; cbn; try case_decide; lia. Qed.

(** C26: [phaser_drain] terminates: from any reachable state in which no
    section is left, at most eight steps of the drainer complete the drain,
    wherever it was (about to sleep, woken, or between the two counters). *)
Theorem drain_terminates s : reachable w s -> quiet s -> exists n s',
  (n <= 8)%nat /\ run w (replicate n LDrain) s = Some s' /\ drain s' = DIdle.
Proof.
  intros HI%inv_reachable Hq. destruct (quiet_drain_runs s HI Hq) as (n & s' & Hn & H).
  exists n, s'. pose proof (drain_left_le (drain s)). split; [lia|done].
Qed.

End Phaser.

(** ** Example runs *)

(** A drain of a phase with one section inside, from its start to the sleep
    of the drainer, and from there to its end. *)
Definition labels_inside : list label := [LEnter 7; LReader 7; LReader 7].
Definition labels_asleep : list label := [LDrain; LDrain; LDrain].
Definition labels_done : list label :=
  [LReader 7; LReader 7; LDrain; LDrain; LDrain; LDrain; LDrain; LDrain].

Lemma counter_counts_sections_witness : exists s,
  active 0 s = 1 /\ draining 0 s = true /\
  counter (phaser s) !! 0%nat
  = Some ((if draining 0 s then DRAINING 64 else 0) + active 0 s).
Proof.
  assert (H : exists s, run_bounded 64 (labels_inside ++ LDrainStart :: labels_asleep) init = Some s
    /\ active 0 s = 1 /\ draining 0 s = true).
  { eexists. split; [vm_compute; reflexivity|]. split; vm_compute; reflexivity. }
  destruct H as (s & Hs & Ha & Hd). exists s. do 2 (split; [done|]).
  apply (counter_counts_sections 64 ltac:(lia) s 0);
    [by apply run_bounded_rtc in Hs|unfold NUM_PHASES; lia].
Defined.

Lemma sections_never_block_witness : exists s,
  readers s !! 8%nat = Some (EnterLoad 0) /\ draining 0 s = true /\
  is_Some (exec 64 (LReader 8) s) /\ draining (next_phase 0) s = false.
Proof.
  assert (H : exists s, run_bounded 64 (labels_inside ++ LDrainStart :: labels_asleep ++ [LEnter 8]) init = Some s
    /\ readers s !! 8%nat = Some (EnterLoad 0) /\ draining 0 s = true).
  { eexists. split; [vm_compute; reflexivity|]. split; vm_compute; reflexivity. }
  destruct H as (s & Hs & Hr & Hd). exists s. split; [done|]. split; [done|].
  destruct (sections_never_block 64 ltac:(lia) s 8 (EnterLoad 0)) as [H1 H2];
    [by apply run_bounded_rtc in Hs|done|done|]. split; [done|by apply H2].
Defined.

Lemma drain_waits_for_sections_witness : exists s,
  drain s = DIdle /\
  (readers s !! 7%nat = Some (ExitWake 0) \/ readers s !! 7%nat = Some Exited).
Proof.
  assert (H : exists s0 s1 s, run_bounded 64 labels_inside init = Some s0 /\
    exec 64 LDrainStart s0 = Some s1 /\ run_bounded 64 (labels_asleep ++ labels_done) s1 = Some s /\
    drain s = DIdle /\ readers s0 !! 7%nat = Some (Inside 0)).
  { eexists _, _, _. do 3 (split; [vm_compute; reflexivity|]). split; vm_compute; reflexivity. }
  destruct H as (s0 & s1 & s & H0 & H1 & H2 & Hd & Hr). exists s. split; [done|].
  apply (drain_waits_for_sections 64 ltac:(lia) s0 s1 s 7 0);
    [by apply run_bounded_rtc in H0|done|done|by apply run_bounded_rtc in H2|done].
Defined.

Lemma no_lost_wakeup_witness : exists s,
  drain s = DSleep 0 /\
  exists id, readers s !! id = Some (Inside 0) \/ readers s !! id = Some (ExitWake 0).
Proof.
  assert (H : exists s, run_bounded 64 (labels_inside ++ LDrainStart :: labels_asleep) init = Some s
    /\ drain s = DSleep 0).
  { eexists. split; vm_compute; reflexivity. }
  destruct H as (s & Hs & Hd). exists s. split; [done|].
  apply (no_lost_wakeup 64 ltac:(lia) s 0); [by apply run_bounded_rtc in Hs|done].
Defined.

Lemma drain_terminates_witness : exists s n s',
  drain s = DOr 0 /\ (n <= 8)%nat /\ run 64 (replicate n LDrain) s = Some s' /\ drain s' = DIdle.
Proof.
  assert (H : exists s, run_bounded 64 (labels_inside ++ [LReader 7; LDrainStart]) init = Some s
    /\ drain s = DOr 0 /\ map_Forall (fun _ r => r = Exited) (readers s)).
  { eexists. split; [vm_compute; reflexivity|]. split; [reflexivity|].
    apply (bool_decide_unpack _). vm_compute. exact I. }
  destruct H as (s & Hs & Hd & Hq).
  destruct (drain_terminates 64 ltac:(lia) s) as (n & s' & H);
    [by apply run_bounded_rtc in Hs|exact Hq|]. by exists s, n, s'.
Defined.
