(* ===== verification/Sigmux.v ===== *)
(** Signal multiplexing: ThreadHook/src/main/cpp/linker/sigmux.c and sigmux.h
    (atracehook has the same files).

    The state is the [sigmux_global] structure, with the memory it points to:
    the heap of [struct sigaction] that [orig_sigact] and [alt_sigact] point
    into, and the doubly linked circular list of registrations, whose links
    are addresses ([Sentinel] is [&sigmux_global.handlers]), so that writes
    through [prev] and [next] alias as they do in C. Signal handlers, and
    sigaction(2) with the state it acts on, are parameters. What a function
    does to the process (calls of handlers, phaser operations, signal masks,
    raise, abort) is recorded in order in [trace]. The calls under the mutex
    are atomic with respect to each other; the one race the code admits, two
    threads taking the same one-shot handler, is a transition system of its
    own (section OneShot). *)
From S2P Require Import Prelude.

Definition NSIG : Z := 65.

(** ** Constants of signal.h (Linux) *)

Definition SIGILL : Z := 4.
Definition SIGABRT : Z := 6.
Definition SIGBUS : Z := 7.
Definition SIGSEGV : Z := 11.
Definition SIGCHLD : Z := 17.
Definition SIGSTOP : Z := 19.
Definition SIGTSTP : Z := 20.
Definition SIGTTIN : Z := 21.
Definition SIGTTOU : Z := 22.
Definition SIGWINCH : Z := 28.

Definition SIG_DFL : Z := 0.
Definition SIG_IGN : Z := 1.
Definition SA_SIGINFO : Z := 0x4.
Definition SA_ONSTACK : Z := 0x08000000.
Definition SA_RESTART : Z := 0x10000000.
Definition SA_NODEFER : Z := 0x40000000.
Definition SA_RESETHAND : Z := 0x80000000.

Inductive sigmux_action := SIGMUX_CONTINUE_SEARCH | SIGMUX_CONTINUE_EXECUTION.

#[export] Instance sigmux_action_eq_dec : EqDecision sigmux_action.
Proof. solve_decision. Defined.

Definition SIGMUX_LOW_PRIORITY : Z := Z.shiftl 1 0.
Definition SIGMUX_HANDLE_SIGNAL_NORMAL_PRIORITY : Z := Z.shiftl 1 0.
Definition SIGMUX_HANDLE_SIGNAL_LOW_PRIORITY : Z := Z.shiftl 1 1.
Definition SIGMUX_HANDLE_SIGNAL_INVOKE_DEFAULT : Z := Z.shiftl 1 2.

(** A test [flags & bit]. *)
Definition has_flag (flags bit : Z) : bool := negb (Z.land flags bit =? 0).

(** The complement of a flag word, [flags &= ~bits]. *)
Definition clear_flag (flags bits : Z) : Z := Z.land flags (u32 (Z.lnot bits)).

Record sigmux_siginfo := mkSiginfo { signum : Z; info : Z; context : Z }.

(** [struct sigaction]; [sa_handler] and [sa_sigaction] are one union. *)
Record sigaction := mkSigaction { sa_handler : Z; sa_mask : gset Z; sa_flags : Z }.

(** A zeroed one, as [calloc] and [memset] give. *)
Definition zero_sigaction : sigaction := mkSigaction 0 ∅ 0.

(** * The bit set of initialised signals *)

(** [errno] is EINVAL when the result is -1. *)
Definition sigmux_sigismember (ss : list Z) (signum : Z) : res Z :=
  if negb ((0 <? signum) && (signum <? NSIG)) then Ret (-1)
  else
    b ← get_or_oob (ss !! Z.to_nat (signum / 8));
    Ret (if Z.land b (Z.shiftl 1 (signum mod 8)) =? 0 then 0 else 1).

Definition sigmux_sigaddset (ss : list Z) (signum : Z) : res (list Z) :=
  b ← get_or_oob (ss !! Z.to_nat (signum / 8));
  Ret (<[Z.to_nat (signum / 8) := u8 (Z.lor b (Z.shiftl 1 (signum mod 8)))]> ss).

(** The library call on [sigset_t]: -1 for a number that is no signal. *)
Definition sigismember (set : gset Z) (signum : Z) : Z :=
  if (0 <? signum) && (signum <? NSIG) then Z.b2z (bool_decide (signum ∈ set)) else -1.

Definition signal_default_fatal_p (signum : Z) : bool :=
  negb ((signum =? SIGCHLD) || (signum =? SIGWINCH)).

Definition signal_always_fatal_p (signum : Z) : bool :=
  (signum =? SIGSEGV) || (signum =? SIGBUS) || (signum =? SIGABRT) || (signum =? SIGILL).

(** * State *)

Inductive addr := Sentinel | Reg (n : nat).

#[export] Instance addr_eq_dec : EqDecision addr.
Proof. solve_decision. Defined.

Record sigmux_registration_link := mkLink { prev : addr; next : addr }.

Record sigmux_registration := mkRegistration {
  link : sigmux_registration_link;
  signals : gset Z;
  handler : Z;
  handler_data : Z;
  flags : Z;
}.

(** The list head and the allocated registrations. *)
Record registry := mkRegistry {
  head : sigmux_registration_link;
  regs : gmap nat sigmux_registration;
}.

Definition link_at (r : registry) (a : addr) : option sigmux_registration_link :=
  match a with
  | Sentinel => Some (head r)
  | Reg n => link <$> regs r !! n
  end.

Definition set_link (r : registry) (a : addr) (k : sigmux_registration_link) : registry :=
  match a with
  | Sentinel => mkRegistry k (regs r)
  | Reg n =>
      mkRegistry (head r)
        (alter (fun x => mkRegistration k (signals x) (handler x) (handler_data x) (flags x)) n (regs r))
  end.

(** [a->prev = v] and [a->next = v]. *)
Definition set_prev (r : registry) (a v : addr) : res registry :=
  k ← get_or_oob (link_at r a); Ret (set_link r a (mkLink v (next k))).
Definition set_next (r : registry) (a v : addr) : res registry :=
  k ← get_or_oob (link_at r a); Ret (set_link r a (mkLink (prev k) v)).

Inductive event :=
| PhaserEnter
| PhaserExit
| PhaserDrain
| CallRegistered (n : nat)                 (* reg->handler(...) of registration n *)
| FatalHook                                (* sigmux_gdbhook_on_fatal_signal *)
| SeizedHook                               (* sigmux_gdbhook_on_signal_seized *)
| SetMask (mask : gset Z)                  (* sigprocmask(SIG_SETMASK, ...) *)
| Unblock (mask : gset Z)                  (* sigprocmask(SIG_UNBLOCK, ...) *)
| CallSigaction (f signum : Z)             (* action->sa_sigaction(...) *)
| CallHandler (f signum : Z)               (* action->sa_handler(signum) *)
| ResetToDefault (signum flags : Z)        (* rt_sigaction to SIG_DFL *)
| Raise (signum : Z)
| Abort
| SigLongjmp (val : Z)
| Free (n : nat).

Record sigmux_global {K : Type} := mkGlobal {
  phaser_needs_init : Z;
  orig_sigact : list (option nat);
  alt_sigact : list (option nat);
  sigacts : gmap nat sigaction;
  handlers : registry;
  real_sigaction : option Z;
  initsig : list Z;
  kernel : K;
  trace : list event;
}.
Arguments sigmux_global K : clear implicits.
Arguments mkGlobal {K}.

(** The static initialiser, before any call. *)
Definition initial {K : Type} (k : K) : sigmux_global K :=
  mkGlobal 1 (replicate (Z.to_nat NSIG) None) (replicate (Z.to_nat NSIG) None) ∅
    (mkRegistry (mkLink Sentinel Sentinel) ∅) None
    (replicate (Z.to_nat ((NSIG + 7) / 8)) 0) k [].

Section Setters.
Context {K : Type}.
Implicit Type g : sigmux_global K.

Definition set_handlers g r :=
  mkGlobal (phaser_needs_init g) (orig_sigact g) (alt_sigact g) (sigacts g) r
    (real_sigaction g) (initsig g) (kernel g) (trace g).
Definition set_sigacts g o a h :=
  mkGlobal (phaser_needs_init g) o a h (handlers g) (real_sigaction g) (initsig g)
    (kernel g) (trace g).
Definition set_kernel g (k : K) :=
  mkGlobal (phaser_needs_init g) (orig_sigact g) (alt_sigact g) (sigacts g) (handlers g)
    (real_sigaction g) (initsig g) k (trace g).
Definition set_initsig g i :=
  mkGlobal (phaser_needs_init g) (orig_sigact g) (alt_sigact g) (sigacts g) (handlers g)
    (real_sigaction g) i (kernel g) (trace g).
Definition set_phaser_init g :=
  mkGlobal 0 (orig_sigact g) (alt_sigact g) (sigacts g) (handlers g)
    (real_sigaction g) (initsig g) (kernel g) (trace g).
Definition set_real g f :=
  mkGlobal (phaser_needs_init g) (orig_sigact g) (alt_sigact g) (sigacts g) (handlers g)
    f (initsig g) (kernel g) (trace g).
Definition emit g es :=
  mkGlobal (phaser_needs_init g) (orig_sigact g) (alt_sigact g) (sigacts g) (handlers g)
    (real_sigaction g) (initsig g) (kernel g) (trace g ++ es).
End Setters.

(** * Delivering a signal *)

Definition set_sigmask_for_handler (action : sigaction) (signum : Z) : list event :=
  [SetMask (if Z.land (sa_flags action) SA_NODEFER =? 0
            then {[signum]} ∪ sa_mask action else sa_mask action)].

Definition set_signal_handler_to_default (signum : Z) : list event :=
  [ResetToDefault signum SA_RESTART].

(** What [invoke_sighandler] does, in order; nothing follows [Abort]. *)
Definition invoke_sighandler (action : sigaction) (signum : Z) : list event :=
  let hook := if signal_always_fatal_p signum then [FatalHook] else [] in
  let is_siginfo := has_flag (sa_flags action) SA_SIGINFO in
  let is_default := if is_siginfo then sa_handler action =? 0 else sa_handler action =? SIG_DFL in
  let is_ignore := negb is_siginfo && (sa_handler action =? SIG_IGN) in
  hook ++
  (if is_siginfo && negb is_default && negb is_ignore then
     set_sigmask_for_handler action signum ++ [CallSigaction (sa_handler action) signum]
   else if negb is_siginfo && negb is_default && negb is_ignore then
     set_sigmask_for_handler action signum ++ [CallHandler (sa_handler action) signum]
   else if signal_always_fatal_p signum || (is_default && signal_default_fatal_p signum) then
     set_signal_handler_to_default signum ++ [Unblock {[signum]}; Raise signum; Abort]
   else if is_default && ((signum =? SIGTSTP) || (signum =? SIGTTIN) || (signum =? SIGTTOU)) then
     [Raise SIGSTOP]
   else []).

(** The compare-and-exchange on the handler of a one-shot action: the local
    copy [nh] keeps its handler when it wins, and takes the stored one when
    it loses. Both branches of the code act on the same word of the union,
    with the same new value. *)
Definition oneshot_cas (nh snapshot : sigaction) : sigaction * sigaction :=
  if sa_handler snapshot =? sa_handler nh
  then (nh, mkSigaction SIG_DFL (sa_mask snapshot) (sa_flags snapshot))
  else (mkSigaction (sa_handler snapshot) (sa_mask nh) (sa_flags nh), snapshot).

Definition oneshot_clear (snapshot : sigaction) : sigaction :=
  mkSigaction (sa_handler snapshot) (sa_mask snapshot) (clear_flag (sa_flags snapshot) SA_RESETHAND).

Section Deliver.
Context {K : Type} (call_handler : Z -> sigmux_siginfo -> Z -> sigmux_action).
Implicit Type g : sigmux_global K.

(** One of the two loops over the registrations, for the priority [low]. *)
Fixpoint search (fuel : nat) (low : bool) (si : sigmux_siginfo) (it : addr)
    (action : sigmux_action) (g : sigmux_global K) : res (sigmux_action * sigmux_global K) :=
  match it, action with
  | Reg n, SIGMUX_CONTINUE_SEARCH =>
      match fuel with
      | O => Fault OutOfFuel
      | S fuel =>
          reg ← get_or_oob (regs (handlers g) !! n);
          if Bool.eqb (has_flag (flags reg) SIGMUX_LOW_PRIORITY) low &&
             negb (sigismember (signals reg) (signum si) =? 0)
          then search fuel low si (next (link reg))
                 (call_handler (handler reg) si (handler_data reg)) (emit g [CallRegistered n])
          else search fuel low si (next (link reg)) action g
      end
  | _, _ => Ret (action, g)
  end.

(** The copy of the next handler, and the one-shot protocol on it. *)
Definition take_next_handler (signum : Z) (g : sigmux_global K)
    : res (sigaction * sigmux_global K) :=
  if negb ((0 <=? signum) && (signum <? NSIG)) then Fault OutOfBounds else
  p ← get_or_oob (mjoin (orig_sigact g !! Z.to_nat signum));
  snapshot ← get_or_oob (sigacts g !! p);
  let next_handler := snapshot in
  if has_flag (sa_flags next_handler) SA_RESETHAND then
    let '(next_handler, snapshot) := oneshot_cas next_handler snapshot in
    Ret (next_handler,
         set_sigacts g (orig_sigact g) (alt_sigact g) (<[p := oneshot_clear snapshot]> (sigacts g)))
  else Ret (next_handler, g).

Definition search_fuel (g : sigmux_global K) : nat := S (size (regs (handlers g))).

Definition sigmux_handle_signal (signum info context flags : Z) (g : sigmux_global K)
    : res (sigmux_action * sigmux_global K) :=
  let siginfo := mkSiginfo signum info context in
  let g := emit g [PhaserEnter] in
  let reglist := next (head (handlers g)) in
  '(action, g) ← (if has_flag flags SIGMUX_HANDLE_SIGNAL_NORMAL_PRIORITY
                  then search (search_fuel g) false siginfo reglist SIGMUX_CONTINUE_SEARCH g
                  else Ret (SIGMUX_CONTINUE_SEARCH, g));
  '(action, g) ← (if has_flag flags SIGMUX_HANDLE_SIGNAL_LOW_PRIORITY
                  then search (search_fuel g) true siginfo reglist action g
                  else Ret (action, g));
  if has_flag flags SIGMUX_HANDLE_SIGNAL_INVOKE_DEFAULT &&
     bool_decide (action = SIGMUX_CONTINUE_SEARCH)
  then
    '(next_handler, g) ← take_next_handler signum g;
    let g := emit g [PhaserExit] in
    Ret (SIGMUX_CONTINUE_EXECUTION, emit g (invoke_sighandler next_handler signum))
  else Ret (action, emit g [PhaserExit]).

(** The handler that [sigmux_init] installs. *)
Definition sigmux_handle_signal_1 (signum info context : Z) (g : sigmux_global K)
    : res (sigmux_global K) :=
  '(_, g) ← sigmux_handle_signal signum info context
              (Z.lor (Z.lor SIGMUX_HANDLE_SIGNAL_NORMAL_PRIORITY SIGMUX_HANDLE_SIGNAL_LOW_PRIORITY)
                     SIGMUX_HANDLE_SIGNAL_INVOKE_DEFAULT)
              (emit g [SetMask ∅]);
  Ret g.

(** Leaving a handler by a jump: the phase is left first. *)
Definition sigmux_longjmp (val : Z) (g : sigmux_global K) : sigmux_global K :=
  emit (emit g [PhaserExit]) [SigLongjmp val].
End Deliver.

(** * Configuration *)

Section Configure.
Context {K : Type}.
(** [call_sigaction f k signum act] is sigaction(2), or the function at [f]
    that replaces it: the result, the old action and the new state. *)
Context (call_sigaction : option Z -> K -> Z -> option sigaction -> Z * sigaction * K).
(** The address of [sigmux_handle_signal_1]. *)
Context (handle_signal_1 : Z).
Implicit Type g : sigmux_global K.

Definition invoke_real_sigaction g (signum : Z) (act : option sigaction)
    : Z * sigaction * sigmux_global K :=
  let '(ret, old, k) := call_sigaction (real_sigaction g) (kernel g) signum act in
  (ret, old, set_kernel g k).

(** [*sap] when it is not NULL, and otherwise what [calloc] gives; [ok] says
    whether [calloc] has memory. *)
Definition allocate_sigaction (sap : option nat) (ok : bool) (h : gmap nat sigaction)
    : option nat * gmap nat sigaction :=
  match sap with
  | Some p => (Some p, h)
  | None =>
      if ok then let p := fresh (dom h) in (Some p, <[p := zero_sigaction]> h) else (None, h)
  end.

Definition seize_flags : Z := Z.lor (Z.lor (Z.lor SA_NODEFER SA_SIGINFO) SA_ONSTACK) SA_RESTART.

(** [ok_orig] and [ok_alt] say whether the two allocations have memory. *)
Definition sigmux_init (ok_orig ok_alt : bool) (signum : Z) g : res (Z * sigmux_global K) :=
  let g := if decide (phaser_needs_init g = 0) then g else set_phaser_init g in
  ismem ← sigmux_sigismember (initsig g) signum;
  if decide (ismem = -1) then Ret (-1, g)
  else if decide (ismem = 0) then
    let s := Z.to_nat signum in
    o ← get_or_oob (orig_sigact g !! s);
    let '(o, h) := allocate_sigaction o ok_orig (sigacts g) in
    let g := set_sigacts g (<[s := o]> (orig_sigact g)) (alt_sigact g) h in
    match o with
    | None => Ret (-1, g)
    | Some p =>
        a ← get_or_oob (alt_sigact g !! s);
        let '(a, h) := allocate_sigaction a ok_alt (sigacts g) in
        let g := set_sigacts g (orig_sigact g) (<[s := a]> (alt_sigact g)) h in
        match a with
        | None => Ret (-1, g)
        | Some _ =>
            let newact := mkSigaction handle_signal_1 ∅ seize_flags in
            let '(ret, old, g) := invoke_real_sigaction g signum (Some newact) in
            if decide (ret = 0) then
              let g := set_sigacts g (orig_sigact g) (alt_sigact g) (<[p := old]> (sigacts g)) in
              i ← sigmux_sigaddset (initsig g) signum;
              Ret (0, emit (set_initsig g i) [SeizedHook])
            else Ret (-1, g)
        end
    end
  else Ret (0, g).

(** [None] when [calloc] fails. *)
Definition sigmux_register (ok : bool) (signals : gset Z) (handler handler_data flags : Z) g
    : res (option nat * sigmux_global K) :=
  if negb ok then Ret (None, g)
  else
    let r := handlers g in
    let n := fresh (dom (regs r)) in
    let reg := mkRegistration (mkLink Sentinel (next (head r))) signals handler handler_data flags in
    let r := mkRegistry (head r) (<[n := reg]> (regs r)) in
    r ← set_prev r (next (head r)) (Reg n);
    r ← set_next r Sentinel (Reg n);
    Ret (Some n, set_handlers g r).

(** The part of [sigmux_unregister] before the drain. *)
Definition unlink (n : nat) (r : registry) : res registry :=
  k ← get_or_oob (link_at r (Reg n));
  r ← set_next r (prev k) (next k);
  k ← get_or_oob (link_at r (Reg n));
  set_prev r (next k) (prev k).

Definition sigmux_unregister (n : nat) g : res (sigmux_global K) :=
  r ← unlink n (handlers g);
  let g := emit (set_handlers g r) [PhaserDrain] in
  Ret (emit (set_handlers g (mkRegistry (head r) (delete n (regs r)))) [Free n]).

(** The view of a one-shot action that has been taken. *)
Definition pretend (oldact : sigaction) : sigaction :=
  if (has_flag (sa_flags oldact) SA_SIGINFO && (sa_handler oldact =? 0)) ||
     (negb (has_flag (sa_flags oldact) SA_SIGINFO) && (sa_handler oldact =? SIG_DFL))
  then mkSigaction SIG_DFL (sa_mask oldact)
         (clear_flag (sa_flags oldact) (Z.lor SA_RESETHAND SA_SIGINFO))
  else oldact.

(** [want_old] says whether [oldact] is not NULL; the second result is what
    is written there. *)
Definition sigmux_sigaction (signum : Z) (act : option sigaction) (want_old : bool) g
    : res (Z * option sigaction * sigmux_global K) :=
  ismem ← sigmux_sigismember (initsig g) signum;
  if bool_decide (ismem = 0) || (signum <=? 0) || (NSIG <=? signum)
  then
    let '(ret, old, g) := invoke_real_sigaction g signum act in
    Ret (ret, if want_old then Some old else None, g)
  else
    let s := Z.to_nat signum in
    orig ← get_or_oob (orig_sigact g !! s);
    oldact ← (if want_old then
                p ← get_or_oob orig;
                old ← get_or_oob (sigacts g !! p);
                Ret (Some (pretend old))
              else Ret None);
    match act with
    | None => Ret (0, oldact, g)
    | Some act =>
        alt ← get_or_oob (alt_sigact g !! s);
        q ← get_or_oob alt;
        _ ← get_or_oob (sigacts g !! q);
        let g := set_sigacts g (orig_sigact g) (alt_sigact g) (<[q := act]> (sigacts g)) in
        let g := set_sigacts g (<[s := alt]> (orig_sigact g)) (<[s := orig]> (alt_sigact g))
                   (sigacts g) in
        Ret (0, oldact, emit g [PhaserDrain])
    end.

Definition sigmux_set_real_sigaction (f : option Z) g : option Z * sigmux_global K :=
  (real_sigaction g, set_real g f).
End Configure.

(** * The bit set *)

(** The byte array of a [struct sigmux_sigset]. *)
Definition sigset_ok (ss : list Z) : Prop :=
  length ss = Z.to_nat ((NSIG + 7) / 8) /\ bytes_ok ss.

Lemma sigset_index signum : 0 < signum < NSIG ->
  (Z.to_nat (signum / 8) < Z.to_nat ((NSIG + 7) / 8))%nat.
Proof. unfold NSIG. intros H. change ((65 + 7) / 8) with 9. Z.div_mod_to_equations. lia. Qed.

Lemma sigset_byte ss signum : sigset_ok ss -> 0 < signum < NSIG ->
  exists b, ss !! Z.to_nat (signum / 8) = Some b /\ in_range 8 b.
Proof.
  intros [Hl Hb] Hs. pose proof (sigset_index signum Hs) as Hi. rewrite <- Hl in Hi.
  apply lookup_lt_is_Some in Hi as [b E]. exists b. split; [done|].
  by eapply Forall_lookup_1.
Qed.

Definition signal_in_range (signum : Z) : bool := (0 <? signum) && (signum <? NSIG).

Lemma signal_in_range_spec signum : reflect (0 < signum < NSIG) (signal_in_range signum).
Proof.
  apply iff_reflect. unfold signal_in_range. rewrite andb_true_iff, !Z.ltb_lt. done.
Qed.

(** The bit of a signal number. *)
Definition sig_bit (ss : list Z) (signum : Z) : bool :=
  match ss !! Z.to_nat (signum / 8) with Some b => Z.testbit b (signum mod 8) | None => false end.

Lemma sigismember_bit ss signum : sigset_ok ss ->
  sigmux_sigismember ss signum
  = Ret (if signal_in_range signum then Z.b2z (sig_bit ss signum) else -1).
Proof.
  intros Hok. unfold sigmux_sigismember. fold (signal_in_range signum).
  destruct (signal_in_range_spec signum) as [Hr|]; [|done]. cbn [negb].
  destruct (sigset_byte ss signum Hok Hr) as (b & E & _). unfold sig_bit. rewrite E. cbn.
  rewrite land_bit by (apply Z.mod_pos_bound; lia). by destruct (Z.testbit _ _).
Qed.

Lemma sigaddset_ok ss signum : sigset_ok ss -> 0 < signum < NSIG ->
  exists ss', sigmux_sigaddset ss signum = Ret ss' /\ sigset_ok ss' /\
    forall j, 0 < j < NSIG -> sig_bit ss' j = bool_decide (j = signum) || sig_bit ss j.
Proof.
  intros Hok Hs. destruct (sigset_byte ss signum Hok Hs) as (b & E & Hb).
  unfold sigmux_sigaddset. rewrite E. cbn.
  pose proof (Z.mod_pos_bound signum 8 ltac:(lia)) as Hm.
  assert (Hb' : in_range 8 (Z.lor b (Z.shiftl 1 (signum mod 8)))).
  { apply in_range_lor; [lia|done|]. by apply in_range_bit. }
  rewrite wrap_small by done. eexists; split; [done|]. destruct Hok as [Hl Hok]. split.
  - split; [by rewrite length_insert|]. by apply Forall_insert.
  - intros j Hj. unfold sig_bit.
    destruct (decide (Z.to_nat (j / 8) = Z.to_nat (signum / 8))) as [Ei|Hne].
    + rewrite Ei, list_lookup_insert_eq by (by eapply lookup_lt_Some). rewrite E.
      rewrite Z.lor_spec, Z.shiftl_1_l, Z.pow2_bits_eqb by lia. rewrite orb_comm. f_equal.
      case_bool_decide as D; [subst; apply Z.eqb_refl|]. apply Z.eqb_neq.
      intros Em. apply D. Z.div_mod_to_equations. lia.
    + rewrite list_lookup_insert_ne by done. rewrite bool_decide_eq_false_2; [done|]. congruence.
Qed.

(** The bit set of initialised signals stays within its bytes, and adding
    a signal changes the membership of that signal only. *)
Theorem sigaddset_ismember ss signum : sigset_ok ss -> 0 < signum < NSIG ->
  exists ss', sigmux_sigaddset ss signum = Ret ss' /\ sigset_ok ss' /\
    forall j, sigmux_sigismember ss' j
              = if decide (j = signum) then Ret 1 else sigmux_sigismember ss j.
Proof.
  intros Hok Hs. destruct (sigaddset_ok ss signum Hok Hs) as (ss' & E & Hok' & Hbits).
  exists ss'. split; [done|]. split; [done|]. intros j. rewrite !sigismember_bit by done.
  destruct (signal_in_range_spec j) as [Hj|]; [|case_decide; [by subst|done]].
  rewrite Hbits by done. case_decide; case_bool_decide; done.
Qed.

(** * The list of registrations *)

Definition next_at (r : registry) (a : addr) : option addr := next <$> link_at r a.
Definition prev_at (r : registry) (a : addr) : option addr := prev <$> link_at r a.

Definition linked (r : registry) (a b : addr) : Prop :=
  next_at r a = Some b /\ prev_at r b = Some a.

(** From [a] through the registrations [l] to [b], in both directions. *)
Fixpoint seg (r : registry) (a : addr) (l : list nat) (b : addr) : Prop :=
  match l with
  | [] => linked r a b
  | n :: l => linked r a (Reg n) /\ seg r (Reg n) l b
  end.

(** The circular list through the head holds exactly the registrations [l]. *)
Record dll (r : registry) (l : list nat) : Prop := {
  dll_seg : seg r Sentinel l Sentinel;
  dll_nodup : NoDup l;
  dll_dom : forall n, n ∈ l <-> is_Some (regs r !! n);
}.

Lemma seg_app r a l1 n l2 b :
  seg r a (l1 ++ n :: l2) b <-> seg r a l1 (Reg n) /\ seg r (Reg n) l2 b.
Proof. revert a; induction l1 as [|m l1 IH]; intros a; cbn; [done|]. rewrite IH. tauto. Qed.

Lemma seg_frame r r' a l b : seg r a l b ->
  (forall c, c = a \/ c ∈ Reg <$> l -> next_at r' c = next_at r c) ->
  (forall c, c = b \/ c ∈ Reg <$> l -> prev_at r' c = prev_at r c) -> seg r' a l b.
Proof.
  revert a; induction l as [|n l IH]; intros a; cbn; unfold linked.
  - intros [H1 H2] Hn Hp. rewrite Hn, Hp by auto. done.
  - intros [[H1 H2] Hs] Hn Hp. rewrite Hn, Hp by (rewrite ?elem_of_cons; auto). split; [done|].
    apply IH; [done|..]; intros c Hc; [apply Hn|apply Hp]; rewrite elem_of_cons; tauto.
Qed.

(** The last address before the end of a segment. *)
Fixpoint seg_last (a : addr) (l : list nat) : addr :=
  match l with [] => a | n :: l => seg_last (Reg n) l end.

Lemma seg_last_in a l : seg_last a l = a \/ seg_last a l ∈ Reg <$> l.
Proof.
  revert a; induction l as [|n l IH]; intros a; cbn; [by left|].
  right. rewrite elem_of_cons. by destruct (IH (Reg n)) as [->|]; [left|right].
Qed.

Lemma seg_last_linked r a l b : seg r a l b -> linked r (seg_last a l) b.
Proof. revert a; induction l as [|n l IH]; intros a; cbn; [done|]. intros [_ H]. by apply IH. Qed.

(** The last link of a segment is redirected to [b']. *)
Lemma seg_redirect r r' a l b b' : seg r a l b -> NoDup (a :: (Reg <$> l)) ->
  linked r' (seg_last a l) b' ->
  (forall c, c <> seg_last a l -> next_at r' c = next_at r c) ->
  (forall c, c ∈ Reg <$> l -> prev_at r' c = prev_at r c) -> seg r' a l b'.
Proof.
  revert a; induction l as [|n l IH]; intros a; cbn [seg seg_last]; [done|].
  intros [[H1 H2] Hs] Hnd Hl Hn Hp. cbn in Hnd. apply NoDup_cons in Hnd as [Ha Hnd].
  split.
  - split; [rewrite Hn; [done|]|rewrite Hp; [done|cbn; rewrite elem_of_cons; auto]].
    intros E. rewrite E in Ha. apply Ha. rewrite elem_of_cons.
    by destruct (seg_last_in (Reg n) l) as [->|]; [left|right].
  - apply IH; try done. intros c Hc. apply Hp. cbn. rewrite elem_of_cons. auto.
Qed.

(** ** Writing a link *)

Lemma link_at_set r a k b : is_Some (link_at r a) ->
  link_at (set_link r a k) b = if decide (a = b) then Some k else link_at r b.
Proof.
  intros [k0 Hk]. destruct a as [|n]; cbn in Hk.
  - destruct b as [|m]; cbn; [done|]. done.
  - destruct b as [|m]; cbn; [done|]. destruct (decide (n = m)) as [<-|Hne].
    + rewrite decide_True, lookup_alter_eq by done. by destruct (regs r !! n).
    + rewrite decide_False by congruence. by rewrite lookup_alter_ne.
Qed.

Lemma regs_set_link r a k m : is_Some (regs (set_link r a k) !! m) <-> is_Some (regs r !! m).
Proof.
  destruct a as [|n]; cbn; [done|]. rewrite lookup_alter_is_Some. done.
Qed.

Lemma next_at_set r a k b : is_Some (link_at r a) ->
  next_at (set_link r a k) b = if decide (a = b) then Some (next k) else next_at r b.
Proof. intros H. unfold next_at. rewrite link_at_set by done. by case_decide. Qed.

Lemma prev_at_set r a k b : is_Some (link_at r a) ->
  prev_at (set_link r a k) b = if decide (a = b) then Some (prev k) else prev_at r b.
Proof. intros H. unfold prev_at. rewrite link_at_set by done. by case_decide. Qed.

Lemma next_at_alloc r a b : next_at r a = Some b -> is_Some (link_at r a).
Proof. unfold next_at. destruct (link_at r a); [eauto|done]. Qed.

Lemma prev_at_alloc r a b : prev_at r a = Some b -> is_Some (link_at r a).
Proof. unfold prev_at. destruct (link_at r a); [eauto|done]. Qed.

(** What a write through [prev] and a write through [next] do. *)
Lemma set_prev_spec r a v : is_Some (link_at r a) -> exists r', set_prev r a v = Ret r' /\
  (forall c, next_at r' c = next_at r c) /\
  (forall c, prev_at r' c = if decide (a = c) then Some v else prev_at r c) /\
  (forall c, is_Some (link_at r' c) <-> is_Some (link_at r c)).
Proof.
  intros [k Hk]. unfold set_prev. rewrite Hk. cbn. eexists. split; [done|]. split_and!; intros c.
  - rewrite next_at_set by eauto. case_decide; [|done]. subst c. unfold next_at. by rewrite Hk.
  - by rewrite prev_at_set by eauto.
  - rewrite link_at_set by eauto. case_decide; [subst c; rewrite Hk; split; eauto|done].
Qed.

Lemma set_next_spec r a v : is_Some (link_at r a) -> exists r', set_next r a v = Ret r' /\
  (forall c, next_at r' c = if decide (a = c) then Some v else next_at r c) /\
  (forall c, prev_at r' c = prev_at r c) /\
  (forall c, is_Some (link_at r' c) <-> is_Some (link_at r c)).
Proof.
  intros [k Hk]. unfold set_next. rewrite Hk. cbn. eexists. split; [done|]. split_and!; intros c.
  - by rewrite next_at_set by eauto.
  - rewrite prev_at_set by eauto. case_decide; [|done]. subst c. unfold prev_at. by rewrite Hk.
  - rewrite link_at_set by eauto. case_decide; [subst c; rewrite Hk; split; eauto|done].
Qed.

(** What a registration holds besides its links. *)
Definition payload (r : registry) (n : nat) : option (gset Z * Z * Z * Z) :=
  (fun x => (signals x, handler x, handler_data x, flags x)) <$> regs r !! n.

Lemma payload_set_link r a k m : payload (set_link r a k) m = payload r m.
Proof.
  unfold payload. destruct a as [|n]; [done|]. cbn. destruct (decide (n = m)) as [<-|].
  - rewrite lookup_alter_eq. by destruct (regs r !! n).
  - by rewrite lookup_alter_ne.
Qed.

Lemma payload_set_prev r a v r' m : set_prev r a v = Ret r' -> payload r' m = payload r m.
Proof. unfold set_prev. destruct (link_at r a); cbn; [|done]. intros <-%Ret_inj. apply payload_set_link. Qed.

Lemma payload_set_next r a v r' m : set_next r a v = Ret r' -> payload r' m = payload r m.
Proof. unfold set_next. destruct (link_at r a); cbn; [|done]. intros <-%Ret_inj. apply payload_set_link. Qed.

Lemma link_regs r n : is_Some (link_at r (Reg n)) <-> is_Some (regs r !! n).
Proof. cbn. by rewrite fmap_is_Some. Qed.

#[export] Instance Reg_inj : Inj (=) (=) Reg.
Proof. by intros ? ? [= ->]. Qed.

Lemma NoDup_addr l : NoDup l -> NoDup (Sentinel :: (Reg <$> l)).
Proof.
  intros H. constructor; [|by apply (NoDup_fmap_2 _)].
  intros (n & E & _)%list_elem_of_fmap. done.
Qed.

(** The address that follows a registration in the circle. *)
Definition first_of (l : list nat) : addr := match l with [] => Sentinel | m :: _ => Reg m end.

(** Unlinking a registration in the middle of the circle. *)
Lemma unlink_dll r l1 n l2 : dll r (l1 ++ n :: l2) -> exists r',
  unlink n r = Ret r' /\ seg r' Sentinel (l1 ++ l2) Sentinel /\
  (forall m, is_Some (regs r' !! m) <-> is_Some (regs r !! m)) /\
  next_at r' (Reg n) = Some (first_of l2) /\ forall m, payload r' m = payload r m.
Proof.
  intros [Hs Hnd Hdom]. apply seg_app in Hs as [H1 H2].
  pose proof (NoDup_addr _ Hnd) as Hnda. rewrite fmap_app, fmap_cons in Hnda.
  destruct (seg_last_linked _ _ _ _ H1) as [Hx1 Hx2]. set (x := seg_last Sentinel l1) in *.
  assert (Hy : linked r (Reg n) (first_of l2)) by (destruct l2; cbn in *; tauto).
  destruct Hy as [Hy1 Hy2]. set (y := first_of l2) in *.
  assert (Hxin : x = Sentinel \/ x ∈ Reg <$> l1) by apply seg_last_in.
  assert (Hxn : x <> Reg n).
  { intros E. rewrite E in Hxin. destruct Hxin as [|Hin]; [done|].
    apply NoDup_cons in Hnda as [_ Hnda]. apply NoDup_app in Hnda as (_ & Hd & _).
    apply (Hd (Reg n)); [done|]. rewrite elem_of_cons. auto. }
  assert (Hk : exists k, link_at r (Reg n) = Some k /\ next k = y /\ prev k = x).
  { unfold next_at, prev_at in *. destruct (link_at r (Reg n)) as [k|]; [|done].
    exists k. cbn in *. by simplify_eq. }
  destruct Hk as (k & Hk & Hkn & Hkp).
  destruct (set_next_spec r x y) as (r1 & E1 & Hn1 & Hp1 & Hd1); [by eapply next_at_alloc|].
  destruct (set_prev_spec r1 y x) as (r2 & E2 & Hn2 & Hp2 & Hd2);
    [apply Hd1; by eapply prev_at_alloc|].
  assert (Hn' : forall c, next_at r2 c = if decide (x = c) then Some y else next_at r c)
    by (intros c; by rewrite Hn2).
  assert (Hp' : forall c, prev_at r2 c = if decide (y = c) then Some x else prev_at r c)
    by (intros c; by rewrite Hp2, Hp1).
  exists r2. unfold unlink. rewrite Hk. cbn [get_or_oob mbind res_bind]. rewrite Hkp, Hkn, E1. cbn [mbind res_bind].
  assert (Hk1 : exists k1, link_at r1 (Reg n) = Some k1 /\ next k1 = y /\ prev k1 = x).
  { pose proof (Hn1 (Reg n)) as A. pose proof (Hp1 (Reg n)) as B. rewrite decide_False in A by done.
    unfold next_at, prev_at in A, B. rewrite Hk in A, B. destruct (link_at r1 (Reg n)) as [k1|]; [|done].
    exists k1. cbn in A, B. split_and!; congruence. }
  destruct Hk1 as (k1 & Hk1 & Hk1n & Hk1p). rewrite Hk1. cbn [get_or_oob mbind res_bind].
  rewrite Hk1n, Hk1p.
  split; [done|]. split; [|split; [intros m; by rewrite <- !link_regs, Hd2, Hd1|split; [by rewrite Hn', decide_False|]]].
  2: { intros m. by rewrite (payload_set_prev _ _ _ _ m E2), (payload_set_next _ _ _ _ m E1). }
  assert (Hseg1 : seg r2 Sentinel l1 y).
  { apply (seg_redirect r r2 Sentinel l1 (Reg n) y H1).
    - apply NoDup_addr. by apply NoDup_app in Hnd as [? _].
    - split; [by rewrite Hn', decide_True|by rewrite Hp', decide_True].
    - intros c Hc. rewrite Hn'. by rewrite decide_False.
    - intros c Hc. rewrite Hp'. rewrite decide_False; [done|]. intros <-.
      unfold y in Hc. apply list_elem_of_fmap in Hc as (m & Em & Hm).
      destruct l2 as [|m2 l2]; [done|]. injection Em as <-.
      apply NoDup_app in Hnd as (_ & Hd & _). apply (Hd m2); [done|]. rewrite !elem_of_cons. auto. }
  destruct l2 as [|m l2]; [by rewrite app_nil_r|]. apply seg_app. split; [done|].
  cbn in H2. destruct H2 as [_ H2]. apply (seg_frame r); [done|..].
  - intros c Hc. rewrite Hn', decide_False; [done|]. intros <-.
    apply NoDup_cons in Hnda as [HS Hnda]. apply NoDup_app in Hnda as (_ & Hd & _).
    destruct Hxin as [->|Hin].
    + apply HS. rewrite elem_of_app, !elem_of_cons. cbn. rewrite elem_of_cons. tauto.
    + apply (Hd x Hin). cbn. rewrite !elem_of_cons. tauto.
  - intros c Hc. rewrite Hp', decide_False; [done|]. intros <-. unfold y in Hc. cbn in Hc.
    apply NoDup_app in Hnd as (_ & _ & Hnd). rewrite !NoDup_cons, list_elem_of_fmap in *.
    destruct Hc as [|(m' & [= <-] & Hm')]; [done|]. tauto.
Qed.

Section Lists.
Context {K : Type}.
Implicit Type g : sigmux_global K.

Lemma register_dll g l signals handler handler_data flags : dll (handlers g) l ->
  exists n g', sigmux_register true signals handler handler_data flags g = Ret (Some n, g') /\
    (n ∉ l) /\ dll (handlers g') (n :: l) /\
    payload (handlers g') n = Some (signals, handler, handler_data, flags) /\
    forall m, m <> n -> payload (handlers g') m = payload (handlers g) m.
Proof.
  intros [Hs Hnd Hdom]. unfold sigmux_register. cbn [negb].
  set (n := fresh (dom (regs (handlers g)))). set (r := handlers g) in *.
  set (k := mkLink Sentinel (next (head r))).
  set (r0 := mkRegistry (head r) (<[n := mkRegistration k signals handler handler_data flags]> (regs r))).
  assert (Hn : regs r !! n = None) by (apply not_elem_of_dom, is_fresh).
  assert (Hnl : n ∉ l) by (rewrite Hdom, Hn; by intros []).
  assert (Hk : forall c, c <> Reg n -> link_at r0 c = link_at r c).
  { intros [|m] Hc; cbn; [done|]. rewrite lookup_insert_ne by congruence. done. }
  assert (Hkn : link_at r0 (Reg n) = Some k) by (cbn; by rewrite lookup_insert_eq).
  assert (Hy : next_at r Sentinel = Some (first_of l) /\ prev_at r (first_of l) = Some Sentinel)
    by (destruct l; cbn in Hs; unfold linked in Hs; tauto).
  destruct Hy as [Hy1 Hy2]. assert (Ey : next (head r) = first_of l) by (by injection Hy1).
  assert (Hyn : first_of l <> Reg n).
  { destruct l as [|m l]; [done|]. cbn. intros [= ->]. apply Hnl. rewrite elem_of_cons. auto. }
  change (head r0) with (head r). rewrite Ey. destruct (set_prev_spec r0 (first_of l) (Reg n)) as (r1 & E1 & Hn1 & Hp1 & Hd1);
    [rewrite Hk by done; by eapply prev_at_alloc|].
  destruct (set_next_spec r1 Sentinel (Reg n)) as (r2 & E2 & Hn2 & Hp2 & Hd2); [by eexists|].
  rewrite E1. cbn [mbind res_bind]. rewrite E2. cbn [mbind res_bind].
  exists n. eexists. split; [done|]. split; [done|]. cbn [handlers set_handlers].
  assert (Hnext : forall c, next_at r2 c = if decide (c = Sentinel) then Some (Reg n)
     else if decide (c = Reg n) then Some (first_of l) else next_at r c).
  { intros c. rewrite Hn2, Hn1. repeat case_decide; subst; try done; unfold next_at;
      [rewrite Hkn; cbn; by rewrite Ey|by rewrite Hk]. }
  assert (Hprev : forall c, prev_at r2 c = if decide (c = first_of l) then Some (Reg n)
     else if decide (c = Reg n) then Some Sentinel else prev_at r c).
  { intros c. rewrite Hp2, Hp1. repeat case_decide; subst; try done; unfold prev_at;
      [by rewrite Hkn|by rewrite Hk]. }
  assert (Hpay : forall m, payload r2 m = payload r0 m)
    by (intros m; by rewrite (payload_set_next _ _ _ _ m E2), (payload_set_prev _ _ _ _ m E1)).
  split; [|split; [rewrite Hpay; unfold payload; cbn; by rewrite lookup_insert_eq|]].
  2: { intros m Hm. rewrite Hpay. unfold payload. cbn. by rewrite lookup_insert_ne. }
  split; [|by constructor|].
  - cbn [seg]. split; [split; [by rewrite Hnext|by rewrite Hprev, decide_False, decide_True]|].
    assert (Hfirst : linked r2 (Reg n) (first_of l)).
    { split; [by rewrite Hnext, decide_False, decide_True|by rewrite Hprev, decide_True]. }
    destruct l as [|m l]; [done|]. cbn [seg first_of] in *. destruct Hs as [_ Hs].
    split; [done|]. apply NoDup_cons in Hnd as [Hm _].
    apply (seg_frame r); [done|..].
    + intros c Hc. rewrite elem_of_cons in Hnl. rewrite Hnext, !decide_False; [done|..]; intros ->.
      * destruct Hc as [[= ->]|(m' & [= <-] & Hm')%list_elem_of_fmap]; tauto.
      * destruct Hc as [|(m' & ? & _)%list_elem_of_fmap]; done.
    + intros c Hc. rewrite elem_of_cons in Hnl. rewrite Hprev, !decide_False; [done|..]; intros ->.
      * destruct Hc as [|(m' & [= <-] & Hm')%list_elem_of_fmap]; [done|tauto].
      * destruct Hc as [|(m' & [= <-] & Hm')%list_elem_of_fmap]; [done|tauto].
  - intros m. rewrite <- link_regs, Hd2, Hd1, link_regs. cbn.
    rewrite lookup_insert_is_Some, elem_of_cons, Hdom. split; [intros [->|]; auto|].
    + destruct (decide (n = m)); [auto|]. right. done.
    + intros [->|[? ?]]; auto.
Qed.

(** The whole of [sigmux_unregister] on the circle. *)
Lemma unregister_dll g l1 n l2 : dll (handlers g) (l1 ++ n :: l2) ->
  exists r g', unlink n (handlers g) = Ret r /\ next_at r (Reg n) = Some (first_of l2) /\
    sigmux_unregister n g = Ret g' /\ dll (handlers g') (l1 ++ l2) /\
    regs (handlers g') !! n = None /\ trace g' = trace g ++ [PhaserDrain; Free n] /\
    forall m, m <> n -> payload (handlers g') m = payload (handlers g) m.
Proof.
  intros H. destruct (unlink_dll _ _ _ _ H) as (r' & E & Hs & Hd & Hn & Hpay). destruct H as [_ Hnd Hdom].
  exists r'. unfold sigmux_unregister. rewrite E. cbn. eexists. split; [done|]. split; [done|].
  split; [done|]. cbn. split_and!; [|by rewrite lookup_delete_eq|by rewrite <- app_assoc|].
  2: { intros m Hm. rewrite <- Hpay. unfold payload. cbn. by rewrite lookup_delete_ne. }
  assert (Hnl : n ∉ l1 ++ l2).
  { rewrite <- Permutation_middle, NoDup_cons in Hnd. by destruct Hnd. }
  assert (Hl : forall c, c = Sentinel \/ c ∈ Reg <$> (l1 ++ l2) ->
    link_at (mkRegistry (head r') (delete n (regs r'))) c = link_at r' c).
  { intros c [->|(m & -> & Hm)%list_elem_of_fmap]; [done|]. cbn.
    rewrite lookup_delete_ne; [done|]. by intros ->. }
  split.
  - apply (seg_frame r'); [done|..]; intros c Hc; unfold next_at, prev_at; by rewrite Hl.
  - rewrite <- Permutation_middle in Hnd. by apply NoDup_cons in Hnd as [_ ?].
  - intros m. cbn. rewrite lookup_delete_is_Some, Hd, <- Hdom, !elem_of_app, elem_of_cons.
    rewrite elem_of_app in Hnl.
    split; [intros Hm; split; [intros ->|]; tauto|]. intros [Hne [|[->|]]]; tauto.
Qed.
(** Registering prepends: the circle that held [l] holds the new
    registration followed by [l], both links of every node consistent. *)
Theorem register_prepends g l signals handler handler_data flags : dll (handlers g) l ->
  exists n g', sigmux_register true signals handler handler_data flags g = Ret (Some n, g') /\
    (n ∉ l) /\ dll (handlers g') (n :: l) /\
    payload (handlers g') n = Some (signals, handler, handler_data, flags) /\
    forall m, m <> n -> payload (handlers g') m = payload (handlers g) m.
Proof. apply register_dll. Qed.

(** Unregistering removes exactly the registration it is given, wherever
    it is in the circle, and frees it after the drain; a reader that is on it
    while it is unlinked still goes on to the registrations that followed it. *)
Theorem unregister_removes g l1 n l2 : dll (handlers g) (l1 ++ n :: l2) ->
  exists r g', unlink n (handlers g) = Ret r /\ next_at r (Reg n) = Some (first_of l2) /\
    sigmux_unregister n g = Ret g' /\ dll (handlers g') (l1 ++ l2) /\
    regs (handlers g') !! n = None /\ trace g' = trace g ++ [PhaserDrain; Free n] /\
    forall m, m <> n -> payload (handlers g') m = payload (handlers g) m.
Proof. apply unregister_dll. Qed.
End Lists.

(** * Dispatch *)

(** What the search consults: the registrations of one priority that have
    the signal in their set. *)
Definition matches (low : bool) (signum : Z) (reg : sigmux_registration) : bool :=
  Bool.eqb (has_flag (flags reg) SIGMUX_LOW_PRIORITY) low &&
  negb (sigismember (signals reg) signum =? 0).

Definition entries (r : registry) (l : list nat) : list (nat * sigmux_registration) :=
  omap (fun n => (fun reg => (n, reg)) <$> regs r !! n) l.

Definition candidates (low : bool) (signum : Z) (r : registry) (l : list nat) :
    list (nat * sigmux_registration) :=
  List.filter (fun e => matches low signum e.2) (entries r l).

Section Dispatch.
Context {K : Type} (call_handler : Z -> sigmux_siginfo -> Z -> sigmux_action).
Implicit Type g : sigmux_global K.

(** The contract of the header: handlers are tried in order until one
    continues the execution. The result, and the handlers called. *)
Fixpoint dispatch (si : sigmux_siginfo) (cs : list (nat * sigmux_registration)) :
    sigmux_action * list nat :=
  match cs with
  | [] => (SIGMUX_CONTINUE_SEARCH, [])
  | (n, reg) :: cs =>
      match call_handler (handler reg) si (handler_data reg) with
      | SIGMUX_CONTINUE_EXECUTION => (SIGMUX_CONTINUE_EXECUTION, [n])
      | SIGMUX_CONTINUE_SEARCH => let '(a, ns) := dispatch si cs in (a, n :: ns)
      end
  end.

Lemma emit_nil g : emit g [] = g.
Proof. destruct g. unfold emit. cbn. by rewrite app_nil_r. Qed.

Lemma emit_app g l1 l2 : emit (emit g l1) l2 = emit g (l1 ++ l2).
Proof. unfold emit. cbn. by rewrite app_assoc. Qed.

Lemma search_execution fuel low si it g :
  search call_handler fuel low si it SIGMUX_CONTINUE_EXECUTION g = Ret (SIGMUX_CONTINUE_EXECUTION, g).
Proof. by destruct fuel, it. Qed.

(** Along the circle, the loop is the dispatch of its candidates. *)
Lemma search_dispatch low si r l a fuel g : seg r a l Sentinel -> handlers g = r ->
  (forall n, n ∈ l -> is_Some (regs r !! n)) -> (length l < fuel)%nat ->
  search call_handler fuel low si (first_of l) SIGMUX_CONTINUE_SEARCH g
  = let '(act, ns) := dispatch si (candidates low (signum si) r l) in
    Ret (act, emit g (CallRegistered <$> ns)).
Proof.
  revert a fuel g; induction l as [|n l IH]; intros a [|fuel] g Hs Hg Hin Hf;
    [cbn in *; lia|cbn; by rewrite emit_nil|cbn in *; lia|].
  destruct (Hin n) as [reg Hreg]; [rewrite elem_of_cons; auto|].
  cbn [seg] in Hs. destruct Hs as [_ Hs].
  assert (Hnx : next (link reg) = first_of l).
  { assert (Hh : next_at r (Reg n) = Some (first_of l)) by (destruct l; cbn in Hs; unfold linked in Hs; tauto).
    unfold next_at in Hh. cbn in Hh. rewrite Hreg in Hh. cbn in Hh. by injection Hh. }
  assert (IH' : forall g', handlers g' = r ->
    search call_handler fuel low si (first_of l) SIGMUX_CONTINUE_SEARCH g'
    = let '(act, ns) := dispatch si (candidates low (signum si) r l) in
      Ret (act, emit g' (CallRegistered <$> ns))).
  { intros g' Hg'. apply (IH (Reg n)); [done|done| |cbn in Hf; lia].
    intros m Hm. apply Hin. rewrite elem_of_cons. auto. }
  cbn [first_of search]. rewrite Hg, Hreg. cbn [get_or_oob mbind res_bind]. rewrite Hnx.
  unfold candidates, entries. cbn [omap list_omap]. rewrite Hreg. cbn [fmap option_fmap option_map List.filter snd].
  fold (matches low (signum si) reg). destruct (matches low (signum si) reg).
  - cbn [dispatch]. destruct (call_handler _ _ _) eqn:Ec.
    + rewrite IH' by done. unfold candidates, entries. destruct (dispatch _ _) as [act ns].
      by rewrite emit_app.
    + by rewrite search_execution.
  - rewrite IH' by done. done.
Qed.

Lemma dll_length r l : dll r l -> (length l <= size (regs r))%nat.
Proof.
  intros [_ Hnd Hd]. rewrite <- (size_list_to_set (C:=gset nat) l) by done. rewrite <- size_dom.
  apply subseteq_size. intros n. rewrite elem_of_list_to_set, elem_of_dom. apply Hd.
Qed.

Lemma dispatch_app si c1 c2 :
  dispatch si (c1 ++ c2)
  = let '(a, ns) := dispatch si c1 in
    match a with
    | SIGMUX_CONTINUE_EXECUTION => (a, ns)
    | SIGMUX_CONTINUE_SEARCH => let '(b, ms) := dispatch si c2 in (b, ns ++ ms)
    end.
Proof.
  induction c1 as [|[n reg] c1 IH]; cbn; [by destruct (dispatch si c2)|].
  destruct (call_handler _ _ _); [|done]. rewrite IH.
  destruct (dispatch si c1) as [[] ns]; [|done]. by destruct (dispatch si c2).
Qed.

(** The candidates of a call of [sigmux_handle_signal], by its flags. *)
Definition chosen (flags signum : Z) (r : registry) (l : list nat) :=
  (if has_flag flags SIGMUX_HANDLE_SIGNAL_NORMAL_PRIORITY then candidates false signum r l else []) ++
  (if has_flag flags SIGMUX_HANDLE_SIGNAL_LOW_PRIORITY then candidates true signum r l else []).

(** C6: A signal is offered to the registered handlers of normal priority,
    most recent first, then to those of low priority, until one continues the
    execution; only when none does is the next handler invoked, and then
    after the phase has been left. The loops end, and no other handler runs. *)
Theorem handle_signal_dispatches signum info context flags g l : dll (handlers g) l ->
  sigmux_handle_signal call_handler signum info context flags g
  = let '(act, ns) := dispatch (mkSiginfo signum info context) (chosen flags signum (handlers g) l) in
    let g1 := emit g (PhaserEnter :: (CallRegistered <$> ns)) in
    if has_flag flags SIGMUX_HANDLE_SIGNAL_INVOKE_DEFAULT && bool_decide (act = SIGMUX_CONTINUE_SEARCH)
    then
      '(next_handler, g2) ← take_next_handler signum g1;
      Ret (SIGMUX_CONTINUE_EXECUTION, emit g2 (PhaserExit :: invoke_sighandler next_handler signum))
    else Ret (act, emit g1 [PhaserExit]).
Proof.
  intros Hdll. pose proof (dll_length _ _ Hdll) as Hlen. destruct Hdll as [Hs _ Hd].
  unfold sigmux_handle_signal, chosen. rewrite dispatch_app.
  set (si := mkSiginfo signum info context). set (g0 := emit g [PhaserEnter]).
  assert (Hfirst : next (head (handlers g0)) = first_of l).
  { assert (E : next_at (handlers g) Sentinel = Some (first_of l)) by (destruct l; cbn in Hs; unfold linked in Hs; tauto).
    by injection E. }
  assert (Hsearch : forall low g', handlers g' = handlers g ->
    search call_handler (search_fuel g') low si (first_of l) SIGMUX_CONTINUE_SEARCH g'
    = let '(act, ns) := dispatch si (candidates low signum (handlers g) l) in
      Ret (act, emit g' (CallRegistered <$> ns))).
  { intros low g' Hg'. apply (search_dispatch low si (handlers g) l Sentinel); [done|done|by intros n Hn; apply Hd|].
    unfold search_fuel. rewrite Hg'. lia. }
  assert (Hphase : forall b low g', handlers g' = handlers g ->
    (if b : bool then search call_handler (search_fuel g') low si (first_of l) SIGMUX_CONTINUE_SEARCH g'
     else Ret (SIGMUX_CONTINUE_SEARCH, g'))
    = let '(act, ns) := dispatch si (if b then candidates low signum (handlers g) l else []) in
      Ret (act, emit g' (CallRegistered <$> ns))).
  { intros [] low g' Hg'; [by apply Hsearch|]. cbn. by rewrite emit_nil. }
  rewrite Hfirst, Hphase by done.
  destruct (dispatch si (if has_flag flags SIGMUX_HANDLE_SIGNAL_NORMAL_PRIORITY then _ else _)) as [[] ns];
    cbn [mbind res_bind].
  - rewrite Hphase by done.
    destruct (dispatch si (if has_flag flags SIGMUX_HANDLE_SIGNAL_LOW_PRIORITY then _ else _)) as [act ms].
    cbn [mbind res_bind]. unfold g0. rewrite !emit_app, fmap_app. cbn [app].
    destruct (_ && _); [|done]. destruct (take_next_handler _ _) as [[nh g2]|]; [|done].
    cbn [mbind res_bind]. by rewrite emit_app.
  - rewrite search_execution. rewrite bool_decide_eq_false_2, andb_false_r by done.
    unfold g0. destruct (has_flag flags SIGMUX_HANDLE_SIGNAL_LOW_PRIORITY); cbn [mbind res_bind];
      by rewrite ?andb_false_r, !emit_app.
Qed.
End Dispatch.

(** * The tables of actions *)

(** Entry [s] of [orig_sigact] ([b] true) or [alt_sigact]. *)
Definition slot (o a : list (option nat)) (b : bool) (s : nat) : option nat :=
  mjoin ((if b then o else a) !! s).

(** The entries that are not NULL point to distinct allocated actions. *)
Record slots_ok (o a : list (option nat)) (h : gmap nat sigaction) : Prop := {
  slots_o : length o = Z.to_nat NSIG;
  slots_a : length a = Z.to_nat NSIG;
  slots_inj : forall b s b' s' p,
    slot o a b s = Some p -> slot o a b' s' = Some p -> b = b' /\ s = s';
  slots_alloc : forall b s p, slot o a b s = Some p -> is_Some (h !! p);
}.

Lemma slot_sym o a b s : slot o a b s = slot a o (negb b) s.
Proof. by destruct b. Qed.

Lemma slots_ok_sym o a h : slots_ok o a h -> slots_ok a o h.
Proof.
  intros [Ho Ha Hi Hl]. split; [done|done|..].
  - intros b s b' s' p. rewrite !(slot_sym a). intros H1 H2.
    destruct (Hi _ _ _ _ _ H1 H2) as [E ->]. by destruct b, b'.
  - intros b s p. rewrite slot_sym. apply Hl.
Qed.

Lemma slot_insert o a b s s' v : (s < length o)%nat ->
  slot (<[s := v]> o) a b s' = if b && bool_decide (s = s') then v else slot o a b s'.
Proof.
  intros Hs. unfold slot. destruct b; cbn; [|done]. case_bool_decide as D.
  - subst s'. by rewrite list_lookup_insert_eq.
  - by rewrite list_lookup_insert_ne.
Qed.

Lemma slots_ok_new o a h s p x : slots_ok o a h -> (s < Z.to_nat NSIG)%nat -> h !! p = None ->
  slots_ok (<[s := Some p]> o) a (<[p := x]> h).
Proof.
  intros [Ho Ha Hi Hl] Hs Hp.
  assert (Hno : forall b s', slot o a b s' <> Some p).
  { intros b s' E. apply Hl in E as [? E]. congruence. }
  split; [by rewrite length_insert|done|..].
  - intros b t b' t' q. rewrite !slot_insert by (by rewrite Ho).
    destruct (b && bool_decide (s = t)) eqn:E1, (b' && bool_decide (s = t')) eqn:E2.
    + apply andb_prop in E1 as [-> E1%bool_decide_eq_true]. apply andb_prop in E2 as [-> E2%bool_decide_eq_true].
      by subst.
    + intros [= <-] H. by destruct (Hno b' t').
    + intros H [= <-]. by destruct (Hno b t).
    + apply Hi.
  - intros b t q. rewrite slot_insert by (by rewrite Ho).
    destruct (_ && _); [intros [= <-]; rewrite lookup_insert_eq; eauto|].
    intros E. rewrite lookup_insert_ne; [by eapply Hl|]. intros <-. by destruct (Hno b t).
Qed.

Lemma slots_ok_write o a h p x : slots_ok o a h -> slots_ok o a (<[p := x]> h).
Proof.
  intros [Ho Ha Hi Hl]. split; try done. intros b s q E. rewrite lookup_insert_is_Some.
  destruct (decide (p = q)); [by left|right]. split; [done|]. by eapply Hl.
Qed.

Lemma slots_ok_swap o a h s vo va : slots_ok o a h -> o !! s = Some vo -> a !! s = Some va ->
  slots_ok (<[s := va]> o) (<[s := vo]> a) h.
Proof.
  intros [Ho Ha Hi Hl] Eo Ea.
  assert (Hs : (s < length o)%nat) by (by eapply lookup_lt_Some).
  assert (Hs' : (s < length a)%nat) by (by eapply lookup_lt_Some).
  assert (Hv : forall b t, slot (<[s := va]> o) (<[s := vo]> a) b t
    = slot o a (if decide (s = t) then negb b else b) t).
  { intros b t. rewrite slot_insert by done. destruct b; cbn.
    - case_bool_decide; subst; [rewrite decide_True by done|by rewrite decide_False].
      unfold slot. cbn. by rewrite Ea.
    - rewrite slot_sym, slot_insert by done. cbn.
      case_bool_decide; subst; [rewrite decide_True by done|by rewrite decide_False].
      unfold slot. cbn. by rewrite Eo. }
  split; rewrite ?length_insert; [done|done|..].
  - intros b t b' t' p. rewrite !Hv. intros H1 H2. destruct (Hi _ _ _ _ _ H1 H2) as [E ->].
    split; [|done]. destruct (decide (s = t')); [by destruct b, b'|done].
  - intros b t p. rewrite Hv. apply Hl.
Qed.

(** [allocate_sigaction] on entry [s] of the first table. *)
Lemma allocate_ok o a h s sap ok sap' h' : slots_ok o a h -> o !! s = Some sap ->
  allocate_sigaction sap ok h = (sap', h') ->
  slots_ok (<[s := sap']> o) a h' /\
  (forall q, is_Some (h !! q) -> h' !! q = h !! q) /\
  (forall p, sap = Some p -> sap' = Some p) /\ (ok = true -> is_Some sap').
Proof.
  intros Hok Es. assert (Hs : (s < length o)%nat) by (by eapply lookup_lt_Some).
  unfold allocate_sigaction. destruct sap as [p|]; [intros [= <- <-]|destruct ok; intros [= <- <-]].
  - rewrite list_insert_id by done. naive_solver.
  - assert (Hf : h !! fresh (dom h) = None) by (apply not_elem_of_dom, is_fresh).
    split; [apply slots_ok_new; [done|by rewrite <- (slots_o _ _ _ Hok)|done]|].
    split; [|by split; eauto]. intros q [x Hq]. rewrite lookup_insert_ne; [done|]. congruence.
  - rewrite list_insert_id by done. naive_solver.
Qed.

Section Actions.
Context {K : Type}.
Context (call_sigaction : option Z -> K -> Z -> option sigaction -> Z * sigaction * K).
Context (handle_signal_1 : Z).
Implicit Type g : sigmux_global K.

(** The action that a signal falls back to. *)
Definition orig_action g (s : nat) : option sigaction :=
  p ← slot (orig_sigact g) (alt_sigact g) true s; sigacts g !! p.

(** The signals for which [sigmux_init] has succeeded. *)
Definition initialised g (signum : Z) : Prop := 0 < signum < NSIG /\ sig_bit (initsig g) signum = true.

Record global_ok g : Prop := {
  ok_slots : slots_ok (orig_sigact g) (alt_sigact g) (sigacts g);
  ok_initsig : sigset_ok (initsig g);
  ok_init : forall signum, initialised g signum -> forall b,
    is_Some (slot (orig_sigact g) (alt_sigact g) b (Z.to_nat signum));
}.

Lemma initial_ok k : global_ok (@initial K k).
Proof.
  assert (Hslot : forall b s, slot (orig_sigact (initial k)) (alt_sigact (initial k)) b s = None).
  { intros b s. unfold slot, initial. cbn [orig_sigact alt_sigact].
    destruct b; (destruct (_ !! s) eqn:E; [|done]); by apply lookup_replicate in E as [-> _]. }
  split.
  - split; [done|done|..]; intros; by rewrite Hslot in *.
  - split; [done|]. apply Forall_replicate. by vm_compute.
  - intros signum [_ H]. exfalso. revert H. unfold sig_bit, initial. cbn [initsig].
    destruct (_ !! _) eqn:E; [|done]. apply lookup_replicate in E as [-> _]. by rewrite Z.bits_0.
Qed.

Lemma initialised_ismember g signum : global_ok g ->
  sigmux_sigismember (initsig g) signum = Ret 1 <-> initialised g signum.
Proof.
  intros Hok. rewrite sigismember_bit by apply Hok. unfold initialised.
  destruct (signal_in_range_spec signum); [|split; [done|tauto]].
  destruct (sig_bit _ _); cbn; split; try done; naive_solver.
Qed.

(** A signal that is seized: what changes, and what does not. *)
Record seized (signum : Z) (old : sigaction) g g' : Prop := {
  seized_kernel : call_sigaction (real_sigaction g) (kernel g) signum
    (Some (mkSigaction handle_signal_1 ∅ seize_flags)) = (0, old, kernel g');
  seized_orig : orig_action g' (Z.to_nat signum) = Some old;
  seized_member : forall j, sigmux_sigismember (initsig g') j
    = if decide (j = signum) then Ret 1 else sigmux_sigismember (initsig g) j;
}.

Lemma signal_index signum : 0 < signum < NSIG -> (Z.to_nat signum < Z.to_nat NSIG)%nat.
Proof. lia. Qed.

Lemma slot_lookup o a b s v : (if b : bool then o else a) !! s = Some v -> slot o a b s = v.
Proof. intros E. unfold slot. rewrite E. by destruct v. Qed.

Lemma slot_lookup_inv o a b s p : slot o a b s = Some p -> (if b : bool then o else a) !! s = Some (Some p).
Proof. unfold slot. destruct (_ !! s) as [[q|]|]; cbn; congruence. Qed.

(** The state while [sigmux_init] prepares entry [s]: the invariant holds,
    and the actions of the other signals are the ones it began with. *)
Definition preparing (s : nat) g g' : Prop :=
  slots_ok (orig_sigact g') (alt_sigact g') (sigacts g') /\
  (forall b t, t <> s -> slot (orig_sigact g') (alt_sigact g') b t = slot (orig_sigact g) (alt_sigact g) b t) /\
  (forall b p, slot (orig_sigact g) (alt_sigact g) b s = Some p ->
               slot (orig_sigact g') (alt_sigact g') b s = Some p) /\
  (forall q, is_Some (sigacts g !! q) -> sigacts g' !! q = sigacts g !! q) /\
  initsig g' = initsig g /\ kernel g' = kernel g /\ real_sigaction g' = real_sigaction g /\
  handlers g' = handlers g.

Lemma preparing_ok s g g' : global_ok g -> preparing s g g' -> global_ok g'.
Proof.
  intros [Hs Hi Hinit] (Hok & Ht & Hk & Hh & Ei & _). split; [done|by rewrite Ei|].
  intros signum Hin b. unfold initialised in Hin. rewrite Ei in Hin.
  destruct (Hinit signum Hin b) as [p Hp].
  destruct (decide (Z.to_nat signum = s)) as [<-|]; [rewrite (Hk b p Hp)|rewrite Ht, Hp by done]; eauto.
Qed.

Lemma preparing_orig s t g g' : global_ok g -> preparing s g g' -> t <> s ->
  orig_action g' t = orig_action g t.
Proof.
  intros Hok (Hs & Ht & _ & Hh & _) Hne. unfold orig_action. rewrite Ht by done.
  destruct (slot _ _ true t) as [p|] eqn:E; [|done]. cbn. apply Hh.
  by eapply (slots_alloc _ _ _ (ok_slots g Hok)).
Qed.

Lemma preparing_refl s g : global_ok g -> preparing s g g.
Proof. intros [H _ _]. by repeat (split; [by eauto|]). Qed.

Lemma preparing_alloc_o s g g1 o ok o' h' : preparing s g g1 ->
  orig_sigact g1 !! s = Some o -> allocate_sigaction o ok (sigacts g1) = (o', h') ->
  preparing s g (set_sigacts g1 (<[s := o']> (orig_sigact g1)) (alt_sigact g1) h').
Proof.
  intros (Hs & Ht & Hk & Hh & Hrest) Eo Ea.
  assert (Hlt : (s < length (orig_sigact g1))%nat) by (by eapply lookup_lt_Some).
  destruct (allocate_ok _ _ _ _ _ _ _ _ Hs Eo Ea) as (Hs' & Hh' & Hp & _).
  split; [done|]. cbn [orig_sigact alt_sigact sigacts set_sigacts]. split; [|split; [|split; [|exact Hrest]]].
  - intros b t Hne. rewrite slot_insert by done. rewrite bool_decide_eq_false_2, andb_false_r by done.
    by apply Ht.
  - intros b p E. rewrite slot_insert by done. rewrite bool_decide_eq_true_2, andb_true_r by done.
    apply Hk in E. destruct b; [|done]. cbn. apply Hp. rewrite <- E. symmetry. by apply (slot_lookup _ _ true).
  - intros q Hq. rewrite Hh'; [by apply Hh|]. by rewrite Hh.
Qed.

Lemma preparing_alloc_a s g g1 a ok a' h' : preparing s g g1 ->
  alt_sigact g1 !! s = Some a -> allocate_sigaction a ok (sigacts g1) = (a', h') ->
  preparing s g (set_sigacts g1 (orig_sigact g1) (<[s := a']> (alt_sigact g1)) h').
Proof.
  intros (Hs & Ht & Hk & Hh & Hrest) Eo Ea.
  assert (Hlt : (s < length (alt_sigact g1))%nat) by (by eapply lookup_lt_Some).
  destruct (allocate_ok _ _ _ _ _ _ _ _ (slots_ok_sym _ _ _ Hs) Eo Ea) as (Hs' & Hh' & Hp & _).
  apply slots_ok_sym in Hs'.
  split; [done|]. cbn [orig_sigact alt_sigact sigacts set_sigacts]. split; [|split; [|split; [|exact Hrest]]].
  - intros b t Hne. rewrite slot_sym, slot_insert by done.
    rewrite bool_decide_eq_false_2, andb_false_r, <- slot_sym by done. by apply Ht.
  - intros b p E. rewrite slot_sym, slot_insert by done.
    rewrite bool_decide_eq_true_2, andb_true_r, <- slot_sym by done.
    apply Hk in E. destruct b; [done|]. cbn. apply Hp. rewrite <- E. symmetry. by apply (slot_lookup _ _ false).
  - intros q Hq. rewrite Hh'; [by apply Hh|]. by rewrite Hh.
Qed.

Lemma set_phaser_ok g : global_ok g -> global_ok (set_phaser_init g).
Proof. by intros [H1 H2 H3]; split. Qed.

(** The last part of [sigmux_init]: the kernel has accepted the handler. *)
Lemma seize_ok signum p q old k i g g2 : global_ok g -> preparing (Z.to_nat signum) g g2 ->
  0 < signum < NSIG ->
  slot (orig_sigact g2) (alt_sigact g2) true (Z.to_nat signum) = Some p ->
  slot (orig_sigact g2) (alt_sigact g2) false (Z.to_nat signum) = Some q ->
  sigmux_sigaddset (initsig g2) signum = Ret i ->
  call_sigaction (real_sigaction g) (kernel g) signum
    (Some (mkSigaction handle_signal_1 ∅ seize_flags)) = (0, old, k) ->
  let g' := emit (set_initsig (set_sigacts (set_kernel g2 k) (orig_sigact g2) (alt_sigact g2)
                               (<[p := old]> (sigacts g2))) i) [SeizedHook] in
  global_ok g' /\ (forall t, t <> Z.to_nat signum -> orig_action g' t = orig_action g t) /\
  seized signum old g g'.
Proof.
  intros Hok Hprep Hs Ep Eq Ei Ecall g'.
  pose proof (preparing_ok _ _ _ Hok Hprep) as Hok2. pose proof Hprep as (Hslots & _ & _ & _ & Ei2 & _).
  destruct (sigaddset_ok (initsig g2) signum (ok_initsig g2 Hok2) Hs) as (i' & Ei' & Hi' & Hbits).
  rewrite Ei in Ei'. apply Ret_inj in Ei' as <-.
  split; [split|split].
  - by apply slots_ok_write.
  - done.
  - intros j [Hj Hb] b. cbn in *. rewrite Hbits in Hb by done. case_bool_decide as D.
    + subst j. destruct b; eauto.
    + by apply (ok_init g2 Hok2 j).
  - intros t Ht. rewrite <- (preparing_orig _ t _ _ Hok Hprep Ht). unfold orig_action. cbn.
    destruct (slot (orig_sigact g2) (alt_sigact g2) true t) as [p'|] eqn:E; [|done]. cbn.
    rewrite lookup_insert_ne; [done|]. intros <-.
    destruct (slots_inj _ _ _ Hslots _ _ _ _ _ Ep E) as [_ Et]. by rewrite Et in Ht.
  - split; [done|unfold orig_action; cbn; rewrite Ep; cbn; by rewrite lookup_insert_eq|].
    intros j. cbn. rewrite <- Ei2. rewrite !sigismember_bit by (done || apply Hok2).
    destruct (signal_in_range_spec j) as [Hj|]; [|case_decide; [by subst|done]].
    rewrite Hbits by done. case_decide; case_bool_decide; done.
Qed.

Lemma sigmux_init_ok ok_orig ok_alt signum g : global_ok g -> exists ret g',
  sigmux_init call_sigaction handle_signal_1 ok_orig ok_alt signum g = Ret (ret, g') /\
  global_ok g' /\ handlers g' = handlers g /\
  (forall t, t <> Z.to_nat signum -> orig_action g' t = orig_action g t) /\
  (ret = -1 /\ initsig g' = initsig g \/
   ret = 0 /\ 0 < signum < NSIG /\
     (initialised g signum /\ (g' = g \/ g' = set_phaser_init g) \/
      ~ initialised g signum /\ exists old, seized signum old g g')).
Proof.
  intros Hok. unfold sigmux_init.
  set (g0 := if decide (phaser_needs_init g = 0) then g else set_phaser_init g).
  assert (Hg0 : global_ok g0 /\ (g0 = g \/ g0 = set_phaser_init g) /\ handlers g0 = handlers g /\
    initsig g0 = initsig g /\ kernel g0 = kernel g /\ real_sigaction g0 = real_sigaction g /\
    forall t, orig_action g0 t = orig_action g t).
  { unfold g0. case_decide; split_and!; eauto using set_phaser_ok. }
  destruct Hg0 as (Hok0 & Heq & Hh & Hi & Hk & Hr & Ho).
  rewrite sigismember_bit by apply Hok0. cbn [mbind res_bind].
  destruct (signal_in_range_spec signum) as [Hs|Hs];
    [|eexists _, g0; split; [done|]; split_and!; eauto].
  destruct (sig_bit (initsig g0) signum) eqn:Hbit; cbn [Z.b2z].
  { eexists _, g0. split; [done|]. split_and!; eauto. right. split_and!; [done|lia|lia|].
    left. split; [|done]. unfold initialised. by rewrite <- Hi. }
  set (s := Z.to_nat signum). pose proof (signal_index signum Hs) as Hlt. fold s in Hlt.
  assert (Hni : ~ initialised g signum) by (intros [_ H]; congruence).
  assert (Hres : forall g', preparing s g0 g' -> global_ok g' /\ handlers g' = handlers g /\
    (forall t, t <> s -> orig_action g' t = orig_action g t) /\ initsig g' = initsig g).
  { intros g' Hp. split; [by apply (preparing_ok s g0)|]. pose proof Hp as (_ & _ & _ & _ & E1 & _ & _ & E2).
    split; [congruence|]. split; [|congruence]. intros t Ht. rewrite <- Ho. by apply (preparing_orig s). }
  destruct (lookup_lt_is_Some_2 (orig_sigact g0) s) as [o Eo];
    [by rewrite (slots_o _ _ _ (ok_slots g0 Hok0))|].
  rewrite Eo. cbn [get_or_oob mbind res_bind].
  destruct (allocate_sigaction o ok_orig (sigacts g0)) as [o' h] eqn:Ea.
  pose proof (preparing_alloc_o s g0 g0 o ok_orig o' h (preparing_refl s g0 Hok0) Eo Ea) as Hp1.
  set (g1 := set_sigacts g0 _ _ h) in *.
  destruct o' as [p|]; [|eexists _, g1; split; [done|]; destruct (Hres g1 Hp1) as (? & ? & ? & ?); by eauto 10].
  destruct (lookup_lt_is_Some_2 (alt_sigact g1) s) as [a Eal];
    [by rewrite (slots_a _ _ _ (proj1 Hp1))|].
  change (alt_sigact (set_sigacts g0 _ _ _)) with (alt_sigact g1). rewrite Eal. cbn [get_or_oob mbind res_bind].
  destruct (allocate_sigaction a ok_alt (sigacts g1)) as [a' h2] eqn:Ea2.
  pose proof (preparing_alloc_a s g0 g1 a ok_alt a' h2 Hp1 Eal Ea2) as Hp2.
  set (g2 := set_sigacts g1 _ _ h2) in *.
  destruct a' as [q|]; [|eexists _, g2; split; [done|]; destruct (Hres g2 Hp2) as (? & ? & ? & ?); by eauto 10].
  unfold invoke_real_sigaction.
  destruct (call_sigaction (real_sigaction g2) (kernel g2) signum _) as [[ret old] k] eqn:Ecall.
  destruct (decide (ret = 0)) as [->|Hne].
  2: { eexists _, _. split; [done|]. destruct (Hres g2 Hp2) as ([H1 H2 H3] & ? & ? & ?).
       split; [by split|]. by eauto 10. }
  assert (Hpq : slot (orig_sigact g2) (alt_sigact g2) true s = Some p /\
                slot (orig_sigact g2) (alt_sigact g2) false s = Some q).
  { split; apply slot_lookup; cbn; apply list_lookup_insert_eq; [|by eapply lookup_lt_Some].
    by eapply lookup_lt_Some. }
  destruct (sigaddset_ok (initsig g2) signum) as (i & Ei & _ & _);
    [apply (preparing_ok s g0 g2 Hok0 Hp2)|done|].
  change (initsig (set_sigacts _ _ _ _)) with (initsig g2). rewrite Ei. cbn [mbind res_bind].
  destruct (seize_ok signum p q old k i g0 g2) as (Hf1 & Hf2 & [Hf3 Hf4 Hf5]);
    [done|done|done|apply Hpq|apply Hpq|done|exact Ecall|].
  eexists _, _. split; [done|]. split; [done|]. split; [done|].
  split; [intros t Ht; rewrite <- Ho; by apply Hf2|]. right. split; [done|]. split; [done|].
  right. split; [by unfold initialised; rewrite <- Hi; intros [_ ?]; congruence|].
  exists old. split; [by rewrite <- Hr, <- Hk|done|by rewrite <- Hi].
Qed.

(** [sigmux_init] never fails in the middle: it returns 0 or -1, keeps the
    invariant of the tables, and leaves the action of every other signal
    alone. On -1 no signal has been added to the set. On 0 the signal is
    valid; if it was initialised already nothing has changed but the phaser
    flag, and otherwise the kernel has taken the multiplexer's handler and the
    action it replaced is the one the signal falls back to. *)
Theorem sigmux_init_spec ok_orig ok_alt signum g : global_ok g -> exists ret g',
  sigmux_init call_sigaction handle_signal_1 ok_orig ok_alt signum g = Ret (ret, g') /\
  global_ok g' /\ handlers g' = handlers g /\
  (forall t, t <> Z.to_nat signum -> orig_action g' t = orig_action g t) /\
  (ret = -1 /\ initsig g' = initsig g \/
   ret = 0 /\ 0 < signum < NSIG /\
     (initialised g signum /\ (g' = g \/ g' = set_phaser_init g) \/
      ~ initialised g signum /\ exists old, seized signum old g g')).
Proof. apply sigmux_init_ok. Qed.

(** [sigmux_sigaction] on a signal that is initialised replaces the action
    the signal falls back to, and no other, without calling the kernel and
    without allocating; it reports the old action as the kernel would after a
    one-shot action has been taken, and a later query reports the new one. *)
Theorem sigaction_round_trip signum act g : global_ok g -> initialised g signum ->
  exists old g', orig_action g (Z.to_nat signum) = Some old /\
    sigmux_sigaction call_sigaction signum (Some act) true g = Ret (0, Some (pretend old), g') /\
    global_ok g' /\ kernel g' = kernel g /\ handlers g' = handlers g /\
    (forall t, orig_action g' t = if decide (t = Z.to_nat signum) then Some act else orig_action g t) /\
    sigmux_sigaction call_sigaction signum None true g' = Ret (0, Some (pretend act), g').
Proof.
  intros Hok Hin. pose proof Hin as [Hr _]. pose proof Hok as [Hslots Hset Hinit].
  set (s := Z.to_nat signum).
  destruct (Hinit signum Hin true) as [p Ep], (Hinit signum Hin false) as [q Eq]. fold s in Ep, Eq.
  assert (Eo : orig_sigact g !! s = Some (Some p)) by (by apply slot_lookup_inv in Ep).
  assert (Ea : alt_sigact g !! s = Some (Some q)) by (by apply slot_lookup_inv in Eq).
  destruct (slots_alloc _ _ _ Hslots _ _ _ Ep) as [old Hold].
  destruct (slots_alloc _ _ _ Hslots _ _ _ Eq) as [spare Hspare].
  assert (Hpq : p <> q).
  { intros <-. by destruct (slots_inj _ _ _ Hslots _ _ _ _ _ Ep Eq). }
  assert (Hguard : bool_decide (1 = 0) || (signum <=? 0) || (NSIG <=? signum) = false).
  { cbn. destruct (Z.leb_spec signum 0), (Z.leb_spec NSIG signum); lia || done. }
  pose proof (proj2 (initialised_ismember g signum Hok) Hin) as Hmem.
  unfold sigmux_sigaction at 1. rewrite Hmem. cbn [mbind res_bind]. rewrite Hguard.
  fold s. rewrite Eo, Ea. cbn [get_or_oob mbind res_bind]. rewrite Hold, Hspare.
  cbn [get_or_oob mbind res_bind orig_sigact alt_sigact sigacts set_sigacts].
  exists old. eexists. split; [unfold orig_action; rewrite Ep; cbn; done|]. split; [done|].
  set (g' := emit _ _).
  assert (Hok' : global_ok g').
  { split; [apply slots_ok_swap; [by apply slots_ok_write|done..]|done|].
    intros j Hj b. cbn. rewrite slot_insert by (by eapply lookup_lt_Some).
    rewrite slot_sym, slot_insert, <- slot_sym by (by eapply lookup_lt_Some).
    destruct (_ && _); [eauto|]. destruct (_ && _); [eauto|]. by apply Hinit. }
  assert (Horig : forall t, orig_action g' t
    = if decide (t = s) then Some act else orig_action g t).
  { intros t. clear Hguard. unfold orig_action. cbn. rewrite slot_insert by (by eapply lookup_lt_Some). cbn [andb].
    case_bool_decide as D; case_decide; try congruence; cbn; [by rewrite lookup_insert_eq|].
    change (slot (orig_sigact g) (<[s:=Some p]> (alt_sigact g)) true t)
      with (slot (orig_sigact g) (alt_sigact g) true t).
    destruct (slot _ _ true t) as [p'|] eqn:E; [|done]. cbn. rewrite lookup_insert_ne; [done|].
    intros <-. by destruct (slots_inj _ _ _ Hslots _ _ _ _ _ Eq E). }
  do 4 (split; [done|]).
  unfold sigmux_sigaction. change (initsig g') with (initsig g). rewrite Hmem. cbn [mbind res_bind].
  rewrite Hguard. fold s. cbn. rewrite list_lookup_insert_eq by (by eapply lookup_lt_Some). cbn.
  by rewrite lookup_insert_eq.
Qed.

(** On a signal that is not initialised, or a number that is no signal,
    [sigmux_sigaction] is the real sigaction, whatever the arguments. *)
Theorem sigaction_defers signum act want_old g : global_ok g -> ~ initialised g signum ->
  sigmux_sigaction call_sigaction signum act want_old g
  = (let '(ret, old, k) := call_sigaction (real_sigaction g) (kernel g) signum act in
     Ret (ret, if want_old then Some old else None, set_kernel g k)).
Proof.
  intros Hok Hni. unfold sigmux_sigaction. rewrite sigismember_bit by apply Hok. cbn [mbind res_bind].
  assert (Hguard : bool_decide ((if signal_in_range signum then Z.b2z (sig_bit (initsig g) signum) else -1) = 0)
    || (signum <=? 0) || (NSIG <=? signum) = true).
  { destruct (signal_in_range_spec signum) as [Hr|Hr].
    - destruct (sig_bit (initsig g) signum) eqn:E; [|done]. by destruct Hni.
    - destruct (Z.leb_spec signum 0), (Z.leb_spec NSIG signum); rewrite ?orb_true_r; lia || done. }
  rewrite Hguard. unfold invoke_real_sigaction. by destruct (call_sigaction _ _ _ _) as [[ret old] k].
Qed.
End Actions.

(** * The next handler *)

Lemma has_flag_bit flags k : 0 <= k -> has_flag flags (Z.shiftl 1 k) = Z.testbit flags k.
Proof. intros Hk. unfold has_flag. rewrite land_bit by done. apply negb_involutive. Qed.

(** The handlers for which [invoke_sighandler] calls nothing of the user. *)
Definition user_handler (action : sigaction) : bool :=
  negb (sa_handler action =? SIG_DFL) &&
  (has_flag (sa_flags action) SA_SIGINFO || negb (sa_handler action =? SIG_IGN)).

Lemma stop_signal_fatal signum :
  (signum =? SIGTSTP) || (signum =? SIGTTIN) || (signum =? SIGTTOU) = true ->
  signal_default_fatal_p signum = true.
Proof.
  rewrite !orb_true_iff, !Z.eqb_eq. by intros [[-> | ->] | ->].
Qed.

(** What [invoke_sighandler] does is decided by the action and the signal:
    a handler of the user is called, last and once, under its own mask;
    without one, a signal that is always fatal, or fatal by default and not
    ignored, resets the action, unblocks the signal, raises it and aborts;
    any other signal has no effect. *)
Theorem invoke_sighandler_cases action signum :
  invoke_sighandler action signum
  = (if signal_always_fatal_p signum then [FatalHook] else []) ++
    (if user_handler action then
       [SetMask (if has_flag (sa_flags action) SA_NODEFER then sa_mask action
                 else {[signum]} ∪ sa_mask action);
        if has_flag (sa_flags action) SA_SIGINFO then CallSigaction (sa_handler action) signum
        else CallHandler (sa_handler action) signum]
     else if signal_always_fatal_p signum ||
             ((sa_handler action =? SIG_DFL) && signal_default_fatal_p signum) then
       [ResetToDefault signum SA_RESTART; Unblock {[signum]}; Raise signum; Abort]
     else []).
Proof.
  unfold invoke_sighandler, user_handler, set_sigmask_for_handler, set_signal_handler_to_default, SIG_DFL.
  f_equal. replace (Z.land (sa_flags action) SA_NODEFER =? 0)
    with (negb (has_flag (sa_flags action) SA_NODEFER)) by apply negb_involutive.
  pose proof (stop_signal_fatal signum) as Hstop.
  destruct (has_flag (sa_flags action) SA_SIGINFO), (sa_handler action =? 0),
    (has_flag (sa_flags action) SA_NODEFER), (sa_handler action =? SIG_IGN),
    (signal_always_fatal_p signum), (_ || _ || _);
    cbn; rewrite ?Hstop by done; try done; by destruct (signal_default_fatal_p signum).
Qed.

(** The branch that stops the process for SIGTSTP, SIGTTIN and SIGTTOU is
    never taken: with the default action these signals take the fatal branch,
    and a process that is resumed after being stopped aborts. *)
Theorem stop_signals_abort mask flags signum :
  In signum [SIGTSTP; SIGTTIN; SIGTTOU] ->
  invoke_sighandler (mkSigaction SIG_DFL mask flags) signum
  = [ResetToDefault signum SA_RESTART; Unblock {[signum]}; Raise signum; Abort].
Proof.
  unfold invoke_sighandler. cbn [sa_handler sa_flags].
  intros [<-|[<-|[<-|[]]]]; destruct (has_flag _ _); reflexivity.
Qed.

(** * Taking a one-shot handler *)

Section OneShot.
(** The action that was installed: one-shot, with a handler. *)
Context (act : sigaction).

(** A thread that delivers the signal: the points of the copy of the
    snapshot, of the compare-and-exchange and of the clearing of the flag.
    The two words of the copy are read one after the other. *)
Inductive taker :=
| CopyFirst
| CopyHandler (f : Z)      (* has read sa_flags *)
| CopyFlags (x : Z)        (* has read sa_handler *)
| Cas (nh : sigaction)
| Clear (nh : sigaction)
| Taken (nh : sigaction).

Record race := mkRace { snapshot : sigaction; takers : gmap nat taker }.

Definition after_copy (nh : sigaction) : taker :=
  if has_flag (sa_flags nh) SA_RESETHAND then Cas nh else Taken nh.

(** One step of a thread. [flags_first] is the order in which the compiled
    structure assignment reads its words. *)
Definition take_step (flags_first : bool) (t : taker) (m : sigaction) : option (taker * sigaction) :=
  match t with
  | CopyFirst =>
      Some (if flags_first then CopyHandler (sa_flags m) else CopyFlags (sa_handler m), m)
  | CopyHandler f => Some (after_copy (mkSigaction (sa_handler m) (sa_mask m) f), m)
  | CopyFlags x => Some (after_copy (mkSigaction x (sa_mask m) (sa_flags m)), m)
  | Cas nh => let '(nh, m) := oneshot_cas nh m in Some (Clear nh, m)
  | Clear nh => Some (Taken nh, oneshot_clear m)
  | Taken _ => None
  end.

Inductive race_step (flags_first : bool) : race -> race -> Prop :=
| RaceStart r id :
    takers r !! id = None ->
    race_step flags_first r (mkRace (snapshot r) (<[id := CopyFirst]> (takers r)))
| RaceStep r id t t' m :
    takers r !! id = Some t -> take_step flags_first t (snapshot r) = Some (t', m) ->
    race_step flags_first r (mkRace m (<[id := t']> (takers r))).

Definition race_start : race := mkRace act ∅.

(** The threads that will run the user's handler. *)
Definition won (t : taker) : bool :=
  match t with
  | Clear nh | Taken nh => negb (sa_handler nh =? SIG_DFL)
  | _ => false
  end.

Definition winners (r : race) : Z := map_count won (takers r).

(** What a thread knows when the handler is still [h], and when it is gone. *)
Definition taker_ok (h : Z) (m : sigaction) (t : taker) : Prop :=
  match t with
  | CopyFirst => True
  | CopyHandler f => sa_handler m <> SIG_DFL -> has_flag f SA_RESETHAND = true
  | CopyFlags _ => False
  | Cas nh => sa_handler nh = h \/ sa_handler nh = SIG_DFL /\ sa_handler m = SIG_DFL
  | Clear nh => sa_handler m = SIG_DFL
  | Taken nh => sa_handler m = SIG_DFL
  end.

Record race_inv (h : Z) (r : race) : Prop := {
  race_handler : sa_handler (snapshot r) = h \/ sa_handler (snapshot r) = SIG_DFL;
  race_flag : sa_handler (snapshot r) <> SIG_DFL -> has_flag (sa_flags (snapshot r)) SA_RESETHAND = true;
  race_takers : forall id t, takers r !! id = Some t -> taker_ok h (snapshot r) t;
  race_winners : winners r = if sa_handler (snapshot r) =? SIG_DFL then 1 else 0;
}.

Context (h : Z) (Hh : sa_handler act = h) (Hnz : h <> SIG_DFL)
  (Hreset : has_flag (sa_flags act) SA_RESETHAND = true).

Lemma race_inv_start : race_inv h race_start.
Proof.
  split; cbn; [by left|done| |].
  - intros id t. by rewrite lookup_empty.
  - rewrite Hh. destruct (Z.eqb_spec h SIG_DFL); [done|]. apply map_count_empty.
Qed.

(** What a thread knows survives the steps of the others. *)
Lemma taker_ok_mono m m' t : taker_ok h m t ->
  sa_handler m' = sa_handler m \/ sa_handler m' = SIG_DFL -> taker_ok h m' t.
Proof. destruct t; cbn; intuition congruence. Qed.

Lemma winners_insert r id t m :
  winners (mkRace m (<[id := t]> (takers r)))
  = winners r - count_opt won (takers r !! id) + Z.b2z (won t).
Proof. apply map_count_insert. Qed.

(** The step of one thread, on its own knowledge and the shared action. *)
Lemma take_step_ok t m t' m' : taker_ok h m t ->
  (sa_handler m = h \/ sa_handler m = SIG_DFL) ->
  (sa_handler m <> SIG_DFL -> has_flag (sa_flags m) SA_RESETHAND = true) ->
  take_step true t m = Some (t', m') ->
  taker_ok h m' t' /\ (sa_handler m' = sa_handler m \/ sa_handler m' = SIG_DFL) /\
  (sa_handler m' <> SIG_DFL -> has_flag (sa_flags m') SA_RESETHAND = true) /\
  Z.b2z (won t') - Z.b2z (won t)
  = (if sa_handler m' =? SIG_DFL then 1 else 0) - (if sa_handler m =? SIG_DFL then 1 else 0).
Proof.
  intros Ht Hm Hf. destruct t as [|f|x|nh|nh|nh]; cbn [take_step taker_ok] in *; try done.
  - intros [= <- <-]. cbn. split_and!; [done|by left|done|lia].
  - intros [= <- <-]. unfold after_copy. cbn. destruct (has_flag f SA_RESETHAND); cbn.
    + split_and!; [destruct Hm; auto|by left|done|lia].
    + assert (sa_handler m = SIG_DFL) as -> by (destruct (decide (sa_handler m = SIG_DFL)); [done|by discriminate Ht]).
      split_and!; [done|by left|done|cbn; lia].
  - unfold oneshot_cas. destruct (Z.eqb_spec (sa_handler m) (sa_handler nh)) as [E|E];
      intros [= <- <-]; cbn.
    + split_and!; [done|by right|done|]. rewrite E. destruct (sa_handler nh =? SIG_DFL); cbn; lia.
    + assert (sa_handler m = SIG_DFL) as H0 by (destruct Hm, Ht as [|[]]; congruence).
      split_and!; [done|by left|done|]. rewrite H0. cbn. lia.
  - intros [= <- <-]. cbn. split_and!; [done|by left|by rewrite Ht|lia].
Qed.

Lemma race_inv_step r r' : race_inv h r -> race_step true r r' -> race_inv h r'.
Proof.
  intros [H1 H2 H3 H4] Hstep. destruct Hstep as [r id Hn|r id t t' m Hl Hs].
  - split; try done.
    + cbn. intros id' t [[<- <-]|[_ H]]%lookup_insert_Some; [done|by eapply H3].
    + rewrite winners_insert, H4, Hn. cbn. lia.
  - destruct (take_step_ok t (snapshot r) t' m) as (Ho & Hm & Hf & Hw); [by eapply H3|done..|].
    split; cbn [snapshot takers]; [|done| |].
    + destruct Hm as [->|]; [done|by right].
    + intros id' u [[<- <-]|[_ H]]%lookup_insert_Some; [done|].
      apply (taker_ok_mono (snapshot r)); [by eapply H3|done].
    + rewrite winners_insert, H4, Hl. cbn. lia.
Qed.

(** If the copy reads the handler first (the order of the fields of the
    structure on 32-bit ABIs), two threads can both run the handler: one reads
    it, the other takes it and clears the flag, and the first then reads flags
    that no longer ask for the exchange. *)
Lemma torn_copy : exists r, rtc (race_step false) race_start r /\ winners r = 2.
Proof.
  set (m1 := mkSigaction SIG_DFL (sa_mask act) (sa_flags act)).
  assert (has_flag (clear_flag (sa_flags act) SA_RESETHAND) SA_RESETHAND = false) as Hclear.
  { unfold has_flag, clear_flag. rewrite <- Z.land_assoc. by rewrite (eq_refl : Z.land (u32 (Z.lnot SA_RESETHAND)) SA_RESETHAND = 0), Z.land_0_r. }
  pose (t1 := Taken (mkSigaction (sa_handler act) (sa_mask act) (clear_flag (sa_flags act) SA_RESETHAND))).
  pose (r := mkRace (oneshot_clear m1) (<[1%nat := t1]> (<[2%nat := Taken act]> (<[2%nat := Clear act]> (<[2%nat := Cas act]>
    (<[2%nat := CopyFlags (sa_handler act)]> (<[2%nat := CopyFirst]> (<[1%nat := CopyFlags (sa_handler act)]> (<[1%nat := CopyFirst]> ∅))))))))).
  assert (mkSigaction (sa_handler act) (sa_mask act) (sa_flags act) = act) as Eact by (by destruct act).
  assert (sa_handler act <> SIG_DFL) as Hsa by (by rewrite Hh).
  exists r. split.
  - eapply rtc_l; [by apply (RaceStart _ _ 1%nat)|].
    eapply rtc_l; [eapply (RaceStep _ _ 1%nat); [by simplify_map_eq|cbn [take_step snapshot race_start]; reflexivity]|].
    eapply rtc_l; [apply (RaceStart _ _ 2%nat); by simplify_map_eq|].
    eapply rtc_l; [eapply (RaceStep _ _ 2%nat); [by simplify_map_eq|cbn [take_step snapshot race_start]; reflexivity]|].
    eapply rtc_l; [eapply (RaceStep _ _ 2%nat); [by simplify_map_eq|cbn [take_step snapshot race_start]; unfold after_copy; by rewrite Eact, Hreset]|].
    eapply rtc_l; [eapply (RaceStep _ _ 2%nat); [by simplify_map_eq|cbn [take_step snapshot race_start]; unfold oneshot_cas; by rewrite Z.eqb_refl]|].
    eapply rtc_l; [eapply (RaceStep _ _ 2%nat); [by simplify_map_eq|cbn [take_step snapshot]; reflexivity]|].
    eapply rtc_l; [eapply (RaceStep _ _ 1%nat); [by simplify_map_eq|cbn [take_step snapshot oneshot_clear sa_mask sa_flags]; unfold after_copy; cbn [sa_flags]; by rewrite Hclear]|].
    apply rtc_refl.
  - unfold winners, r. cbn [takers]. rewrite !map_count_insert, map_count_empty. simplify_map_eq.
    unfold t1. cbn [count_opt won sa_handler]. apply Z.eqb_neq in Hsa. by rewrite Hsa.
Qed.

(** C28: However many threads deliver the signal at once, at most one of them
    gets the handler of a one-shot action, and as soon as one thread is done
    there is exactly one, if the copy of the action reads its flags before its
    handler; and only then: in the other order two threads may get it. *)
Theorem oneshot_taken_once flags_first :
  (forall r, rtc (race_step flags_first) race_start r ->
     winners r <= 1 /\ forall id nh, takers r !! id = Some (Taken nh) -> winners r = 1)
  <-> flags_first = true.
Proof.
  destruct flags_first; (split; [intros H|intros [= ]]); [done| |].
  - intros r Hrun. assert (HI : race_inv h r).
    { revert Hrun. apply rtc_ind_r; [apply race_inv_start|]. intros x y _ Hxy HI. by apply (race_inv_step x). }
    destruct HI as [H1 H2 H3 H4]. split; [rewrite H4; by destruct (_ =? _)|].
    intros id nh Hl. apply H3 in Hl. cbn in Hl. by rewrite H4, Hl.
  - destruct torn_copy as (r & Hr & Hw). destruct (H r Hr) as [Hle _]. lia.
Qed.
End OneShot.

(** One thread's steps, one after the other. *)
Fixpoint race_run (flags_first : bool) (ids : list nat) (r : race) : option race :=
  match ids with
  | [] => Some r
  | id :: ids =>
      match takers r !! id with
      | None => race_run flags_first ids (mkRace (snapshot r) (<[id := CopyFirst]> (takers r)))
      | Some t =>
          '(t', m) ← take_step flags_first t (snapshot r);
          race_run flags_first ids (mkRace m (<[id := t']> (takers r)))
      end
  end.

Lemma race_run_rtc b ids r r' : race_run b ids r = Some r' -> rtc (race_step b) r r'.
Proof.
  revert r; induction ids as [|id ids IH]; intros r; cbn; [by intros [= ->]|].
  destruct (takers r !! id) as [t|] eqn:E.
  - destruct (take_step b t (snapshot r)) as [[t' m]|] eqn:Es; cbn; [|done].
    intros H. eapply rtc_l; [by eapply RaceStep|]. by apply IH.
  - intros H. eapply rtc_l; [by apply RaceStart|]. by apply IH.
Qed.

Definition oneshot_example : sigaction := mkSigaction 4096 ∅ SA_RESETHAND.

(** A run of that kind. *)
Theorem oneshot_torn_copy : exists r,
  rtc (race_step false) (race_start oneshot_example) r /\ winners r = 2.
Proof.
  assert (H : exists r, race_run false [1; 1; 2; 2; 2; 2; 2; 1]%nat (race_start oneshot_example) = Some r /\ winners r = 2).
  { eexists. split; vm_compute; reflexivity. }
  destruct H as (r & Hr & Hw). exists r. split; [|done]. by eapply race_run_rtc.
Qed.

(** * Instances *)

(** A kernel that keeps a table of actions and refuses nothing. *)
Definition table_sigaction (f : option Z) (k : gmap Z sigaction) (signum : Z)
    (act : option sigaction) : Z * sigaction * gmap Z sigaction :=
  (0, default zero_sigaction (k !! signum),
   match act with Some a => <[signum := a]> k | None => k end).

(** A handler that continues the execution when its data is not zero. *)
Definition data_handler (f : Z) (si : sigmux_siginfo) (data : Z) : sigmux_action :=
  if data =? 0 then SIGMUX_CONTINUE_SEARCH else SIGMUX_CONTINUE_EXECUTION.

Definition fresh_global : sigmux_global (gmap Z sigaction) := initial ∅.

Lemma fresh_dll : dll (handlers fresh_global) [].
Proof. split; [done|constructor|]. intros n. split; [set_solver|]. cbn. rewrite lookup_empty. by intros []. Qed.

Lemma sigaddset_ismember_witness : exists ss',
  sigmux_sigaddset (replicate 9 0) SIGSEGV = Ret ss' /\ sigset_ok ss' /\
  forall j, sigmux_sigismember ss' j
            = if decide (j = SIGSEGV) then Ret 1 else sigmux_sigismember (replicate 9 0) j.
Proof.
  apply (sigaddset_ismember (replicate 9 0) SIGSEGV).
  - split; [reflexivity|]. apply Forall_replicate. by vm_compute.
  - unfold SIGSEGV, NSIG. lia.
Defined.

Lemma register_prepends_witness : exists n g',
  sigmux_register true {[SIGSEGV]} 4096 1 0 fresh_global = Ret (Some n, g') /\
  dll (handlers g') [n].
Proof.
  destruct (register_prepends fresh_global [] {[SIGSEGV]} 4096 1 0 fresh_dll)
    as (n & g' & E & _ & H & _). by exists n, g'.
Defined.

Lemma unregister_removes_witness : exists n (g g' : sigmux_global (gmap Z sigaction)),
  dll (handlers g) [n] /\ sigmux_unregister n g = Ret g' /\ dll (handlers g') [].
Proof.
  destruct (register_dll fresh_global [] {[SIGSEGV]} 4096 1 0 fresh_dll) as (n & g & _ & _ & H & _).
  destruct (unregister_removes g [] n [] H) as (r & g' & _ & _ & E & Hd & _). by exists n, g, g'.
Defined.

Lemma handle_signal_dispatches_witness : exists n (g : sigmux_global (gmap Z sigaction)),
  dll (handlers g) [n] /\
  sigmux_handle_signal data_handler SIGSEGV 0 0 7 g
  = Ret (SIGMUX_CONTINUE_EXECUTION, emit g [PhaserEnter; CallRegistered n; PhaserExit]).
Proof.
  destruct (register_dll fresh_global [] {[SIGSEGV]} 4096 1 0 fresh_dll) as (n & g & _ & _ & H & Hp & _).
  exists n, g. split; [exact H|].
  rewrite (handle_signal_dispatches data_handler SIGSEGV 0 0 7 g [n] H).
  unfold payload in Hp. destruct (regs (handlers g) !! n) as [reg|] eqn:E; [|discriminate Hp].
  injection Hp as H1 H2 H3 H4.
  assert (Hc : chosen 7 SIGSEGV (handlers g) [n] = [(n, reg)]).
  { unfold chosen, candidates, entries. cbn [omap list_omap]. rewrite E. cbn. unfold matches.
    rewrite H1, H4. reflexivity. }
  rewrite Hc. cbn [dispatch]. rewrite H2, H3.
  change (data_handler 4096 _ 1) with SIGMUX_CONTINUE_EXECUTION. cbv beta iota zeta.
  rewrite bool_decide_eq_false_2, andb_false_r by done. by rewrite emit_app.
Defined.

Lemma sigmux_init_spec_witness : exists ret g',
  sigmux_init table_sigaction 8192 true true SIGSEGV fresh_global = Ret (ret, g') /\ global_ok g'.
Proof.
  destruct (sigmux_init_spec table_sigaction 8192 true true SIGSEGV fresh_global (initial_ok _))
    as (ret & g' & E & H & _). by exists ret, g'.
Defined.

Lemma init_example : exists g : sigmux_global (gmap Z sigaction), global_ok g /\ initialised g SIGSEGV.
Proof.
  destruct (sigmux_init_ok table_sigaction 8192 true true SIGSEGV fresh_global (initial_ok _))
    as (ret & g' & E & H & _ & _ & [[Hr _]|(_ & Hs & [[Hi _]|(_ & old & Hseized)])]).
  - exfalso. revert E. rewrite Hr. vm_compute. discriminate.
  - exfalso. destruct Hi as [_ Hi]. revert Hi. vm_compute. discriminate.
  - exists g'. split; [done|]. apply initialised_ismember; [done|].
    by rewrite (seized_member _ _ _ _ _ _ Hseized), decide_True.
Qed.

Lemma sigaction_round_trip_witness : exists g g' old,
  sigmux_sigaction table_sigaction SIGSEGV (Some oneshot_example) true g = Ret (0, Some old, g') /\
  sigmux_sigaction table_sigaction SIGSEGV None true g' = Ret (0, Some (pretend oneshot_example), g').
Proof.
  destruct init_example as (g & Hok & Hi).
  destruct (sigaction_round_trip table_sigaction SIGSEGV oneshot_example g Hok Hi)
    as (old & g' & _ & E & _ & _ & _ & _ & E'). by exists g, g', (pretend old).
Defined.

Lemma sigaction_defers_witness :
  sigmux_sigaction table_sigaction SIGBUS None true fresh_global
  = Ret (0, Some zero_sigaction, fresh_global).
Proof.
  rewrite (sigaction_defers table_sigaction SIGBUS None true fresh_global (initial_ok _)); [reflexivity|].
  intros [_ H]. revert H. vm_compute. discriminate.
Defined.

Lemma stop_signals_abort_witness :
  invoke_sighandler zero_sigaction SIGTSTP
  = [ResetToDefault SIGTSTP SA_RESTART; Unblock {[SIGTSTP]}; Raise SIGTSTP; Abort].
Proof. apply (stop_signals_abort ∅ 0 SIGTSTP). by left. Defined.

Lemma oneshot_taken_once_witness : exists r,
  rtc (race_step true) (race_start oneshot_example) r /\ winners r <= 1.
Proof.
  assert (H : exists r, race_run true [1; 1; 2; 2; 1; 2; 2; 1]%nat (race_start oneshot_example) = Some r)
    by (eexists; vm_compute; reflexivity).
  destruct H as (r & Hr). apply race_run_rtc in Hr. exists r. split; [done|].
  apply (proj2 (oneshot_taken_once oneshot_example 4096 eq_refl ltac:(done) ltac:(reflexivity) true) eq_refl r Hr).
Defined.
