(* ===== verification/Hde64.v ===== *)
(** The instruction length disassembler of
    alloctrack/src/main/cpp/Substrate/hde64.c, with the constants of hde64.h
    and the table of table64.h.

    [hde64_disasm] is cut where the code has its labels: the prefixes, REX,
    the opcode and its flags, the checks of the ModRM operand, the addressing
    form, and the immediates. The code is a list of bytes and a read past its
    end is a fault, as is a read outside [hde64_table]. The fields of the
    result that a path does not assign are 0, as [memset] leaves them. *)
From S2P Require Import Prelude.

(** ** hde64.h *)

Definition F_MODRM : Z := 0x00000001.
Definition F_SIB : Z := 0x00000002.
Definition F_IMM8 : Z := 0x00000004.
Definition F_IMM16 : Z := 0x00000008.
Definition F_IMM32 : Z := 0x00000010.
Definition F_IMM64 : Z := 0x00000020.
Definition F_DISP8 : Z := 0x00000040.
Definition F_DISP16 : Z := 0x00000080.
Definition F_DISP32 : Z := 0x00000100.
Definition F_RELATIVE : Z := 0x00000200.
Definition F_ERROR : Z := 0x00001000.
Definition F_ERROR_OPCODE : Z := 0x00002000.
Definition F_ERROR_LENGTH : Z := 0x00004000.
Definition F_ERROR_LOCK : Z := 0x00008000.
Definition F_ERROR_OPERAND : Z := 0x00010000.
Definition F_PREFIX_REX : Z := 0x40000000.

(** The result; [imm] and [disp] are the unions, as the integer of their bytes. *)
Record hde64s := mkHde64s {
  len : Z;
  p_rep : Z; p_lock : Z; p_seg : Z; p_66 : Z; p_67 : Z;
  rex_w : Z; rex_r : Z; rex_x : Z; rex_b : Z;
  opcode : Z; opcode2 : Z;
  modrm : Z; modrm_mod : Z; modrm_reg : Z; modrm_rm : Z;
  sib : Z; sib_scale : Z; sib_index : Z; sib_base : Z;
  imm : Z; disp : Z;
  flags : Z;
}.

(** ** table64.h *)

Definition C_MODRM : Z := 0x01.
Definition C_IMM8 : Z := 0x02.
Definition C_IMM16 : Z := 0x04.
Definition C_IMM_P66 : Z := 0x10.
Definition C_REL8 : Z := 0x20.
Definition C_REL32 : Z := 0x40.
Definition C_GROUP : Z := 0x80.
Definition C_ERROR : Z := 0xff.

Definition PRE_NONE : Z := 0x01.
Definition PRE_F2 : Z := 0x02.
Definition PRE_F3 : Z := 0x04.
Definition PRE_66 : Z := 0x08.
Definition PRE_67 : Z := 0x10.
Definition PRE_LOCK : Z := 0x20.
Definition PRE_SEG : Z := 0x40.

Definition DELTA_OPCODES : Z := 0x4a.
Definition DELTA_FPU_REG : Z := 0xfd.
Definition DELTA_FPU_MODRM : Z := 0x104.
Definition DELTA_PREFIXES : Z := 0x13c.
Definition DELTA_OP_LOCK_OK : Z := 0x1ae.
Definition DELTA_OP2_LOCK_OK : Z := 0x1c6.
Definition DELTA_OP_ONLY_MEM : Z := 0x1d8.
Definition DELTA_OP2_ONLY_MEM : Z := 0x1e7.

Definition hde64_table : list Z :=
  [
   0xa5; 0xaa; 0xa5; 0xb8; 0xa5; 0xaa; 0xa5; 0xaa; 0xa5; 0xb8; 0xa5; 0xb8; 0xa5; 0xb8; 0xa5;
   0xb8; 0xc0; 0xc0; 0xc0; 0xc0; 0xc0; 0xc0; 0xc0; 0xc0; 0xac; 0xc0; 0xcc; 0xc0; 0xa1; 0xa1;
   0xa1; 0xa1; 0xb1; 0xa5; 0xa5; 0xa6; 0xc0; 0xc0; 0xd7; 0xda; 0xe0; 0xc0; 0xe4; 0xc0; 0xea;
   0xea; 0xe0; 0xe0; 0x98; 0xc8; 0xee; 0xf1; 0xa5; 0xd3; 0xa5; 0xa5; 0xa1; 0xea; 0x9e; 0xc0;
   0xc0; 0xc2; 0xc0; 0xe6; 0x03; 0x7f; 0x11; 0x7f; 0x01; 0x7f; 0x01; 0x3f; 0x01; 0x01; 0xab;
   0x8b; 0x90; 0x64; 0x5b; 0x5b; 0x5b; 0x5b; 0x5b; 0x92; 0x5b; 0x5b; 0x76; 0x90; 0x92; 0x92;
   0x5b; 0x5b; 0x5b; 0x5b; 0x5b; 0x5b; 0x5b; 0x5b; 0x5b; 0x5b; 0x5b; 0x5b; 0x6a; 0x73; 0x90;
   0x5b; 0x52; 0x52; 0x52; 0x52; 0x5b; 0x5b; 0x5b; 0x5b; 0x77; 0x7c; 0x77; 0x85; 0x5b; 0x5b;
   0x70; 0x5b; 0x7a; 0xaf; 0x76; 0x76; 0x5b; 0x5b; 0x5b; 0x5b; 0x5b; 0x5b; 0x5b; 0x5b; 0x5b;
   0x5b; 0x5b; 0x86; 0x01; 0x03; 0x01; 0x04; 0x03; 0xd5; 0x03; 0xd5; 0x03; 0xcc; 0x01; 0xbc;
   0x03; 0xf0; 0x03; 0x03; 0x04; 0x00; 0x50; 0x50; 0x50; 0x50; 0xff; 0x20; 0x20; 0x20; 0x20;
   0x01; 0x01; 0x01; 0x01; 0xc4; 0x02; 0x10; 0xff; 0xff; 0xff; 0x01; 0x00; 0x03; 0x11; 0xff;
   0x03; 0xc4; 0xc6; 0xc8; 0x02; 0x10; 0x00; 0xff; 0xcc; 0x01; 0x01; 0x01; 0x00; 0x00; 0x00;
   0x00; 0x01; 0x01; 0x03; 0x01; 0xff; 0xff; 0xc0; 0xc2; 0x10; 0x11; 0x02; 0x03; 0x01; 0x01;
   0x01; 0xff; 0xff; 0xff; 0x00; 0x00; 0x00; 0xff; 0x00; 0x00; 0xff; 0xff; 0xff; 0xff; 0x10;
   0x10; 0x10; 0x10; 0x02; 0x10; 0x00; 0x00; 0xc6; 0xc8; 0x02; 0x02; 0x02; 0x02; 0x06; 0x00;
   0x04; 0x00; 0x02; 0xff; 0x00; 0xc0; 0xc2; 0x01; 0x01; 0x03; 0x03; 0x03; 0xca; 0x40; 0x00;
   0x0a; 0x00; 0x04; 0x00; 0x00; 0x00; 0x00; 0x7f; 0x00; 0x33; 0x01; 0x00; 0x00; 0x00; 0x00;
   0x00; 0x00; 0xff; 0xbf; 0xff; 0xff; 0x00; 0x00; 0x00; 0x00; 0x07; 0x00; 0x00; 0xff; 0x00;
   0x00; 0x00; 0x00; 0x00; 0x00; 0x00; 0x00; 0x00; 0x00; 0x00; 0x00; 0x00; 0x00; 0xff; 0xff;
   0x00; 0x00; 0x00; 0xbf; 0x00; 0x00; 0x00; 0x00; 0x00; 0x00; 0x00; 0x00; 0x7f; 0x00; 0x00;
   0xff; 0x40; 0x40; 0x40; 0x40; 0x41; 0x49; 0x40; 0x40; 0x40; 0x40; 0x4c; 0x42; 0x40; 0x40;
   0x40; 0x40; 0x40; 0x40; 0x40; 0x40; 0x4f; 0x44; 0x53; 0x40; 0x40; 0x40; 0x44; 0x57; 0x43;
   0x5c; 0x40; 0x60; 0x40; 0x40; 0x40; 0x40; 0x40; 0x40; 0x40; 0x40; 0x40; 0x40; 0x40; 0x40;
   0x40; 0x40; 0x64; 0x66; 0x6e; 0x6b; 0x40; 0x40; 0x6a; 0x46; 0x40; 0x40; 0x44; 0x46; 0x40;
   0x40; 0x5b; 0x44; 0x40; 0x40; 0x00; 0x00; 0x00; 0x00; 0x06; 0x06; 0x06; 0x06; 0x01; 0x06;
   0x06; 0x02; 0x06; 0x06; 0x00; 0x06; 0x00; 0x0a; 0x0a; 0x00; 0x00; 0x00; 0x02; 0x07; 0x07;
   0x06; 0x02; 0x0d; 0x06; 0x06; 0x06; 0x0e; 0x05; 0x05; 0x02; 0x02; 0x00; 0x00; 0x04; 0x04;
   0x04; 0x04; 0x05; 0x06; 0x06; 0x06; 0x00; 0x00; 0x00; 0x0e; 0x00; 0x00; 0x08; 0x00; 0x10;
   0x00; 0x18; 0x00; 0x20; 0x00; 0x28; 0x00; 0x30; 0x00; 0x80; 0x01; 0x82; 0x01; 0x86; 0x00;
   0xf6; 0xcf; 0xfe; 0x3f; 0xab; 0x00; 0xb0; 0x00; 0xb1; 0x00; 0xb3; 0x00; 0xba; 0xf8; 0xbb;
   0x00; 0xc0; 0x00; 0xc1; 0x00; 0xc7; 0xbf; 0x62; 0xff; 0x00; 0x8d; 0xff; 0x00; 0xc4; 0xff;
   0x00; 0xc5; 0xff; 0x00; 0xff; 0xff; 0xeb; 0x01; 0xff; 0x0e; 0x12; 0x08; 0x00; 0x13; 0x09;
   0x00; 0x16; 0x08; 0x00; 0x17; 0x09; 0x00; 0x2b; 0x09; 0x00; 0xae; 0xff; 0x07; 0xb2; 0xff;
   0x00; 0xb4; 0xff; 0x00; 0xb5; 0xff; 0x00; 0xc3; 0x01; 0x00; 0xc7; 0xff; 0xbf; 0xe7; 0x08;
   0x00; 0xf0; 0x02; 0x00].

Definition sizeof_table : Z := Z.of_nat (length hde64_table).

(** ** Reads *)

Definition bit (flags mask : Z) : bool := negb (Z.land flags mask =? 0).

(** [hde64_table[i]]. *)
Definition table (i : Z) : res Z :=
  if i <? 0 then Fault OutOfBounds else get_or_oob (hde64_table !! Z.to_nat i).

(** The two-level lookup [ht[ht[opcode / 4] + (opcode % 4)]]. *)
Definition lookup2 (ht opcode : Z) : res Z :=
  d ← table (ht + opcode / 4);
  table (ht + d + opcode mod 4).

(** [*p], and the load of [n] bytes at [p]. *)
Definition byte_at (code : list Z) (p : Z) : res Z := get_or_oob (code !! Z.to_nat p).
Definition word_at (code : list Z) (p : Z) (n : nat) : res Z :=
  l ← load code (Z.to_nat p) n; Ret (le_val l).

(** ** Prefixes *)

Record prefixes := mkPrefixes {
  rep : Z; lock : Z; seg : Z; pfx66 : Z; pfx67 : Z; pref : Z;
}.

Definition is_seg_prefix (c : Z) : bool :=
  (c =? 0x26) || (c =? 0x2e) || (c =? 0x36) || (c =? 0x3e) || (c =? 0x64) || (c =? 0x65).

(** The switch of the prefix loop; [None] is its default case. *)
Definition prefix (c : Z) (s : prefixes) : option prefixes :=
  let '(mkPrefixes r l g o a f) := s in
  if c =? 0xf3 then Some (mkPrefixes c l g o a (Z.lor f PRE_F3))
  else if c =? 0xf2 then Some (mkPrefixes c l g o a (Z.lor f PRE_F2))
  else if c =? 0xf0 then Some (mkPrefixes r c g o a (Z.lor f PRE_LOCK))
  else if is_seg_prefix c then Some (mkPrefixes r l c o a (Z.lor f PRE_SEG))
  else if c =? 0x66 then Some (mkPrefixes r l g c a (Z.lor f PRE_66))
  else if c =? 0x67 then Some (mkPrefixes r l g o c (Z.lor f PRE_67))
  else None.

(** The loop, with the last byte read. *)
Fixpoint prefix_loop (x : nat) (code : list Z) (p : Z) (c : Z) (s : prefixes)
    : res (Z * Z * prefixes) :=
  match x with
  | O => Ret (p, c, s)
  | S x =>
      c ← byte_at code p;
      match prefix c s with
      | Some s => prefix_loop x code (p + 1) c s
      | None => Ret (p + 1, c, s)
      end
  end.

(** ** REX and the opcode *)

Record rex_bits := mkRex { bit_w : Z; bit_r : Z; bit_x : Z; bit_b : Z }.

(** The REX byte [c], if it is one: its bits, whether it makes a [mov] of a
    64-bit immediate, the byte that follows, and whether that byte is a
    second REX. *)
Definition rex_stage (code : list Z) (p c : Z) : res (Z * Z * rex_bits * Z * Z * bool) :=
  if Z.land c 0xf0 =? 0x40 then
    let w := Z.shiftr (Z.land c 0xf) 3 in
    op64 ← (if w =? 0 then Ret 0
            else b ← byte_at code p; Ret (if Z.land b 0xf8 =? 0xb8 then 1 else 0));
    let rex := mkRex w (Z.shiftr (Z.land c 7) 2) (Z.shiftr (Z.land c 3) 1) (Z.land c 1) in
    c ← byte_at code p;
    Ret (p + 1, c, rex, op64, F_PREFIX_REX, Z.land c 0xf0 =? 0x40)
  else Ret (p, c, mkRex 0 0 0 0, 0, 0, false).

Record op_info := mkOp {
  op_p : Z;          (* p *)
  op_first : Z;      (* hs->opcode *)
  op_second : Z;     (* hs->opcode2 *)
  op_code : Z;       (* opcode *)
  op_ht : Z;         (* ht - hde64_table *)
  op_pref : Z;       (* pref *)
  op_op64 : Z;       (* op64 *)
  op_cflags : Z;     (* cflags *)
  op_flags : Z;      (* hs->flags *)
}.

(** [bad] is the jump to [error_opcode] from a second REX. *)
Definition opcode_stage (code : list Z) (p c pref op64 fl : Z) (bad : bool) : res op_info :=
  o ← (if bad then Ret (mkOp p 0 0 c 0 pref op64 C_ERROR fl)
       else
         '(p, second, c', ht, op64, pref) ←
           (if c =? 0x0f then
              c2 ← byte_at code p; Ret (p + 1, c2, c2, DELTA_OPCODES, op64, pref)
            else if (0xa0 <=? c) && (c <=? 0xa3) then
              Ret (p, 0, c, 0, op64 + 1,
                   if bit pref PRE_67 then Z.lor pref PRE_66
                   else Z.land pref (u8 (Z.lnot PRE_66)))
            else Ret (p, 0, c, 0, op64, pref));
         cflags ← lookup2 ht c';
         Ret (mkOp p c second c' ht pref op64 cflags fl));
  if op_cflags o =? C_ERROR then
    Ret (mkOp (op_p o) (op_first o) (op_second o) (op_code o) (op_ht o) (op_pref o) (op_op64 o)
           (if Z.land (op_code o) 0xfd =? 0x24 then 1 else 0)
           (Z.lor (op_flags o) (Z.lor F_ERROR F_ERROR_OPCODE)))
  else Ret o.

(** [C_GROUP]: the flags of the group, and the mask of its bad members. *)
Definition group_stage (ht cflags : Z) : res (Z * Z) :=
  if bit cflags C_GROUP then
    lo ← table (ht + Z.land cflags 0x7f);
    hi ← table (ht + Z.land cflags 0x7f + 1);
    Ret (lo, hi)
  else Ret (cflags, 0).

Definition set_if (b : bool) (fl mask : Z) : Z := if b then Z.lor fl mask else fl.

Definition prefix_check (opcode2 opcode pref fl : Z) : res Z :=
  if opcode2 =? 0 then Ret fl
  else
    m ← lookup2 DELTA_PREFIXES opcode;
    Ret (set_if (bit m pref) fl (Z.lor F_ERROR F_ERROR_OPCODE)).

(** * ModRM *)

(** [(x << n) & 0x80] on bytes. *)
Definition shl_bit7 (x n : Z) : bool := bit (Z.shiftl x n) 0x80.

(** The x87 opcodes. *)
Definition fpu_check (opcode2 opcode m_mod m_reg m_rm fl : Z) : res Z :=
  if (opcode2 =? 0) && (0xd9 <=? opcode) && (opcode <=? 0xdf) then
    let t := opcode - 0xd9 in
    t ← (if m_mod =? 3 then
           v ← table (DELTA_FPU_MODRM + t * 8 + m_reg); Ret (u8 (Z.shiftl v m_rm))
         else v ← table (DELTA_FPU_REG + t); Ret (u8 (Z.shiftl v m_reg)));
    Ret (set_if (bit t 0x80) fl (Z.lor F_ERROR F_ERROR_OPCODE))
  else Ret fl.

(** The search of a LOCK-able opcode between [ht] and [table_end]. *)
Fixpoint lock_loop (fuel : nat) (ht table_end op m_reg : Z) : res bool :=
  if ht =? table_end then Ret false
  else
    match fuel with
    | O => Fault OutOfFuel
    | S fuel =>
        b ← table ht;
        if b =? op then v ← table (ht + 1); Ret (negb (shl_bit7 v m_reg))
        else lock_loop fuel (ht + 2) table_end op m_reg
    end.

Definition lock_check (pref opcode2 opcode m_mod m_reg fl : Z) : res Z :=
  if bit pref PRE_LOCK then
    ok ← (if m_mod =? 3 then Ret false
          else if opcode2 =? 0 then
            lock_loop 16 DELTA_OP_LOCK_OK DELTA_OP2_LOCK_OK (Z.land opcode 0xfe) m_reg
          else lock_loop 16 DELTA_OP2_LOCK_OK DELTA_OP_ONLY_MEM opcode m_reg);
    Ret (set_if (negb ok) fl (Z.lor F_ERROR F_ERROR_LOCK))
  else Ret fl.

(** The search of an opcode that needs a memory operand. *)
Fixpoint only_mem_loop (fuel : nat) (ht table_end opcode pref m_reg : Z) : res bool :=
  if ht =? table_end then Ret false
  else
    match fuel with
    | O => Fault OutOfFuel
    | S fuel =>
        b ← table ht;
        if b =? opcode then
          f ← table (ht + 1);
          if bit f pref then v ← table (ht + 2); Ret (negb (shl_bit7 v m_reg)) else Ret false
        else only_mem_loop fuel (ht + 3) table_end opcode pref m_reg
    end.

(** The checks between the labels: whether the operand is in error, and
    [m_mod] as they leave it. *)
Definition operand_check (pref opcode2 opcode m_mod m_reg : Z) : res (bool * Z) :=
  if negb (opcode2 =? 0) && ((opcode =? 0x20) || (opcode =? 0x22)) then
    Ret ((4 <? m_reg) || (m_reg =? 1), 3)
  else if negb (opcode2 =? 0) && ((opcode =? 0x21) || (opcode =? 0x23)) then
    Ret ((m_reg =? 4) || (m_reg =? 5), 3)
  else if (opcode2 =? 0) && (opcode =? 0x8c) then Ret (5 <? m_reg, m_mod)
  else if (opcode2 =? 0) && (opcode =? 0x8e) then Ret ((m_reg =? 1) || (5 <? m_reg), m_mod)
  else if m_mod =? 3 then
    e ← (if opcode2 =? 0
         then only_mem_loop 16 DELTA_OP_ONLY_MEM DELTA_OP2_ONLY_MEM opcode pref m_reg
         else only_mem_loop 16 DELTA_OP2_ONLY_MEM sizeof_table opcode pref m_reg);
    Ret (e, m_mod)
  else if negb (opcode2 =? 0) then
    Ret (if (opcode =? 0x50) || (opcode =? 0xd7) || (opcode =? 0xf7) then
           bit pref (Z.lor PRE_NONE PRE_66)
         else if opcode =? 0xd6 then bit pref (Z.lor PRE_F2 PRE_F3)
         else opcode =? 0xc5, m_mod)
  else Ret (false, m_mod).

(** The size of the displacement, before the SIB byte is looked at. *)
Definition disp_size_of (pref m_mod m_rm : Z) : Z :=
  if m_mod =? 0 then
    if bit pref PRE_67 then (if m_rm =? 6 then 2 else 0) else (if m_rm =? 5 then 4 else 0)
  else if m_mod =? 1 then 1
  else if m_mod =? 2 then (if bit pref PRE_67 then 2 else 4)
  else 0.

Record addressing := mkAddressing {
  a_p : Z; a_sib : Z; a_scale : Z; a_index : Z; a_base : Z; a_disp : Z; a_flags : Z;
}.

(** SIB and displacement; [p] is after the ModRM byte. The byte at [p] is
    read whatever the addressing form. *)
Definition addressing_stage (code : list Z) (p pref m_mod m_rm fl : Z) : res addressing :=
  c ← byte_at code p;
  let d := disp_size_of pref m_mod m_rm in
  let has_sib := negb (m_mod =? 3) && (m_rm =? 4) in
  let base := Z.land c 7 in
  let d := if has_sib && (base =? 5) && negb (bit m_mod 1) then 4 else d in
  let p := if has_sib then p + 1 else p in
  let fl := set_if has_sib fl F_SIB in
  v ← (if d =? 0 then Ret 0 else word_at code p (Z.to_nat d));
  let fl := if d =? 1 then Z.lor fl F_DISP8
            else if d =? 2 then Z.lor fl F_DISP16
            else if d =? 4 then Z.lor fl F_DISP32 else fl in
  Ret (if has_sib
       then mkAddressing (p + d) c (Z.shiftr c 6) (Z.shiftr (Z.land c 0x3f) 3) base v fl
       else mkAddressing (p + d) 0 0 0 0 v fl).

Record modrm_info := mkModrm {
  m_byte : Z; m_cflags : Z; m_addr : addressing;
}.

(** The whole [C_MODRM] branch. *)
Definition modrm_stage (code : list Z) (p x pref opcode2 opcode cflags fl : Z) : res modrm_info :=
  c ← byte_at code p;
  let p := p + 1 in
  let fl := Z.lor fl F_MODRM in
  let m_mod := Z.shiftr c 6 in
  let m_rm := Z.land c 7 in
  let m_reg := Z.shiftr (Z.land c 0x3f) 3 in
  let fl := set_if (negb (x =? 0) && shl_bit7 x m_reg) fl (Z.lor F_ERROR F_ERROR_OPCODE) in
  fl ← fpu_check opcode2 opcode m_mod m_reg m_rm fl;
  fl ← lock_check pref opcode2 opcode m_mod m_reg fl;
  '(err, m_mod) ← operand_check pref opcode2 opcode m_mod m_reg;
  let fl := set_if err fl (Z.lor F_ERROR F_ERROR_OPERAND) in
  let cflags := if m_reg <=? 1
                then if opcode =? 0xf6 then Z.lor cflags C_IMM8
                     else if opcode =? 0xf7 then Z.lor cflags C_IMM_P66 else cflags
                else cflags in
  a ← addressing_stage code p pref m_mod m_rm fl;
  Ret (mkModrm c cflags a).

(** * Immediates *)

(** Writing the low [8 * n] bits of the union. *)
Definition put (n : Z) (v u : Z) : Z := Z.lor (Z.ldiff u (Z.ones (8 * n))) v.

(** Reading an immediate of [n] bytes into the union. *)
Definition take_imm (code : list Z) (n : nat) (fl : Z) (s : Z * Z * Z) : res (Z * Z * Z) :=
  let '(p, u, flags) := s in
  v ← word_at code p n;
  Ret (p + Z.of_nat n, put (Z.of_nat n) v u, Z.lor flags fl).

(** The statements from [rel32_ok] on, and those from [imm16_ok] on. *)
Definition imm_tail (code : list Z) (cflags : Z) (s : Z * Z * Z) : res (Z * Z * Z) :=
  s ← (if bit cflags C_IMM8 then take_imm code 1 F_IMM8 s else Ret s);
  if bit cflags C_REL32 then take_imm code 4 (Z.lor F_IMM32 F_RELATIVE) s
  else if bit cflags C_REL8 then take_imm code 1 (Z.lor F_IMM8 F_RELATIVE) s
  else Ret s.

Definition imm_stage (code : list Z) (pref op64 cflags : Z) (s : Z * Z * Z) : res (Z * Z * Z) :=
  if bit cflags C_IMM_P66 && bit cflags C_REL32 then
    if bit pref PRE_66 then take_imm code 2 (Z.lor F_IMM16 F_RELATIVE) s
    else take_imm code 4 (Z.lor F_IMM32 F_RELATIVE) s
  else
    let imm16_ok := bit cflags C_IMM_P66 && (op64 =? 0) && bit pref PRE_66 in
    s ← (if bit cflags C_IMM_P66 then
           if negb (op64 =? 0) then take_imm code 8 F_IMM64 s
           else if negb (bit pref PRE_66) then take_imm code 4 F_IMM32 s
           else Ret s
         else Ret s);
    s ← (if imm16_ok || bit cflags C_IMM16 then take_imm code 2 F_IMM16 s else Ret s);
    imm_tail code cflags s.

(** * The disassembler *)

Definition no_modrm (cflags p fl : Z) : modrm_info :=
  mkModrm 0 cflags (mkAddressing p 0 0 0 0 0 fl).

(** The result, and the number of bytes that [p] has passed. *)
Definition hde64_decode (code : list Z) : res (hde64s * Z) :=
  '(p, c, s) ← prefix_loop 16 code 0 0 (mkPrefixes 0 0 0 0 0 0);
  let fl := u32 (Z.shiftl (pref s) 23) in
  let pref := if pref s =? 0 then PRE_NONE else pref s in
  '(p, c, rex, op64, rexfl, bad) ← rex_stage code p c;
  o ← opcode_stage code p c pref op64 (Z.lor fl rexfl) bad;
  '(cflags, x) ← group_stage (op_ht o) (op_cflags o);
  fl ← prefix_check (op_second o) (op_code o) (op_pref o) (op_flags o);
  m ← (if bit cflags C_MODRM
       then modrm_stage code (op_p o) x (op_pref o) (op_second o) (op_code o) cflags fl
       else Ret (no_modrm cflags (op_p o)
                   (set_if (bit (op_pref o) PRE_LOCK) fl (Z.lor F_ERROR F_ERROR_LOCK))));
  let a := m_addr m in
  let c := m_byte m in
  '(p, u, fl) ← imm_stage code (op_pref o) (op_op64 o) (m_cflags m) (a_p a, 0, a_flags a);
  let long := 15 <? u8 p in
  Ret (mkHde64s (if long then 15 else u8 p)
         (rep s) (lock s) (seg s) (pfx66 s) (pfx67 s)
         (bit_w rex) (bit_r rex) (bit_x rex) (bit_b rex)
         (op_first o) (op_second o)
         c (Z.shiftr c 6) (Z.shiftr (Z.land c 0x3f) 3) (Z.land c 7)
         (a_sib a) (a_scale a) (a_index a) (a_base a)
         u (a_disp a)
         (set_if long fl (Z.lor F_ERROR F_ERROR_LENGTH)), p).

(** [unsigned int hde64_disasm(const void *code, hde64s *hs)]. *)
Definition hde64_disasm (code : list Z) : res (Z * hde64s) :=
  '(hs, _) ← hde64_decode code;
  Ret (len hs, hs).

(** ** Checks on instructions *)

(** [push rbp], [mov rbp, rsp], [call rel32], [mov rax, imm64],
    [mov eax, [rip + disp32]] and [lock cmpxchg [rbx], rcx]. *)
Definition disasm_length (code : list Z) : res (Z * Z) :=
  '(n, hs) ← hde64_disasm (code ++ replicate 32 0); Ret (n, Z.land (flags hs) F_ERROR).

Example disasm_push : disasm_length [0x55] = Ret (1, 0).
Proof. vm_compute. reflexivity. Qed.
Example disasm_mov : disasm_length [0x48; 0x89; 0xe5] = Ret (3, 0).
Proof. vm_compute. reflexivity. Qed.
Example disasm_call : disasm_length [0xe8; 1; 2; 3; 4] = Ret (5, 0).
Proof. vm_compute. reflexivity. Qed.
Example disasm_movabs : disasm_length [0x48; 0xb8; 1; 2; 3; 4; 5; 6; 7; 8] = Ret (10, 0).
Proof. vm_compute. reflexivity. Qed.
Example disasm_rip : disasm_length [0x8b; 0x05; 1; 2; 3; 4] = Ret (6, 0).
Proof. vm_compute. reflexivity. Qed.
Example disasm_cmpxchg : disasm_length [0xf0; 0x48; 0x0f; 0xb1; 0x0b] = Ret (5, 0).
Proof. vm_compute. reflexivity. Qed.

(** * Flags *)

Lemma bit_lor a b m : bit (Z.lor a b) m = bit a m || bit b m.
Proof.
  unfold bit. rewrite Z.land_lor_distr_l. destruct (Z.eqb_spec (Z.land a m) 0) as [->|Ha].
  - by rewrite Z.lor_0_l.
  - cbn. destruct (Z.eqb_spec (Z.lor (Z.land a m) (Z.land b m)) 0) as [E|]; [|done].
    by apply Z.lor_eq_0_iff in E as [? _].
Qed.

Lemma bit_set_if b fl mask m : bit (set_if b fl mask) m = bit fl m || b && bit mask m.
Proof. destruct b; cbn; [apply bit_lor|by rewrite orb_false_r]. Qed.

(** * Reads within bounds *)

Definition readable (code : list Z) : Prop := bytes_ok code /\ (40 <= length code)%nat.

Lemma byte_at_ok code p : readable code -> 0 <= p < 40 ->
  exists b, byte_at code p = Ret b /\ in_range 8 b.
Proof.
  intros [Hb Hl] Hp. unfold byte_at.
  destruct (lookup_lt_is_Some_2 code (Z.to_nat p)) as [b E]; [lia|].
  rewrite E. exists b. split; [done|]. by eapply Forall_lookup_1.
Qed.

Lemma word_at_ok code p n : readable code -> 0 <= p -> p + Z.of_nat n <= 40 ->
  exists v, word_at code p n = Ret v.
Proof.
  intros [Hb Hl] Hp Hn. unfold word_at. rewrite load_in_bounds by lia. cbn. eauto.
Qed.

(** * The table *)

Definition bytes256 : list Z := map Z.of_nat (seq 0 256).

Lemma in_bytes256 b : in_range 8 b -> In b bytes256.
Proof.
  intros [H1 H2]. unfold bytes256. apply in_map_iff. exists (Z.to_nat b).
  split; [lia|]. apply in_seq. change (2 ^ 8) with 256 in H2. lia.
Qed.

(** A decidable property of bytes, checked on each of them. *)
Lemma bytes_forallb (P : Z -> bool) : forallb P bytes256 = true ->
  forall b, in_range 8 b -> P b = true.
Proof. intros H b Hb. rewrite forallb_forall in H. by apply H, in_bytes256. Qed.

(** The flags of an opcode, with its group taken: never both kinds of 8-bit
    immediate, also when the ModRM byte adds one. *)
Definition cflags_ok (opcode cflags : Z) : bool :=
  negb (bit cflags C_REL8 && (bit cflags C_IMM8 || (opcode =? 0xf6))).

Definition opcode_ok (ht : Z) (opcode : Z) : bool :=
  match lookup2 ht opcode with
  | Ret v =>
      (v =? C_ERROR) ||
      match group_stage ht v with
      | Ret (cf, _) => cflags_ok opcode cf
      | Fault _ => false
      end
  | Fault _ => false
  end.

Lemma opcodes_ok ht opcode : ht = 0 \/ ht = DELTA_OPCODES -> in_range 8 opcode ->
  opcode_ok ht opcode = true.
Proof.
  intros [-> | ->]; apply (bytes_forallb (opcode_ok _)); vm_compute; reflexivity.
Qed.

Definition is_ret {A} (m : res A) : bool := match m with Ret _ => true | Fault _ => false end.

Lemma is_ret_inv {A} (m : res A) : is_ret m = true -> exists a, m = Ret a.
Proof. destruct m; [eauto|done]. Qed.

Lemma prefix_table_ok opcode : in_range 8 opcode -> exists m, lookup2 DELTA_PREFIXES opcode = Ret m.
Proof.
  intros H. apply is_ret_inv. revert opcode H.
  apply (bytes_forallb (fun b => is_ret (lookup2 DELTA_PREFIXES b))). vm_compute. reflexivity.
Qed.

Lemma table_ok i : 0 <= i < sizeof_table -> exists v, table i = Ret v.
Proof.
  unfold table, sizeof_table. intros Hi. destruct (Z.ltb_spec i 0); [lia|].
  destruct (lookup_lt_is_Some_2 hde64_table (Z.to_nat i)) as [v E]; [lia|]. rewrite E. by exists v.
Qed.

Lemma lock_loop_ok fuel ht table_end op m_reg : 0 <= ht -> table_end <= sizeof_table ->
  (exists n : nat, table_end = ht + 2 * Z.of_nat n /\ (n <= fuel)%nat) ->
  exists b, lock_loop fuel ht table_end op m_reg = Ret b.
Proof.
  revert ht; induction fuel as [|fuel IH]; intros ht H0 Hend (n & -> & Hn); cbn [lock_loop];
    destruct (Z.eqb_spec ht (ht + 2 * Z.of_nat n)); try (by eauto); [lia|].
  destruct (table_ok ht) as [v ->]; [lia|]. cbn. case_match.
  - destruct (table_ok (ht + 1)) as [u ->]; [lia|]. cbn. eauto.
  - apply IH; [lia|done|]. exists (n - 1)%nat. lia.
Qed.

Lemma only_mem_loop_ok fuel ht table_end opcode pref m_reg : 0 <= ht -> table_end <= sizeof_table ->
  (exists n : nat, table_end = ht + 3 * Z.of_nat n /\ (n <= fuel)%nat) ->
  exists b, only_mem_loop fuel ht table_end opcode pref m_reg = Ret b.
Proof.
  revert ht; induction fuel as [|fuel IH]; intros ht H0 Hend (n & -> & Hn); cbn [only_mem_loop];
    destruct (Z.eqb_spec ht (ht + 3 * Z.of_nat n)); try (by eauto); [lia|].
  destruct (table_ok ht) as [v ->]; [lia|]. cbn. case_match.
  - destruct (table_ok (ht + 1)) as [u ->]; [lia|]. cbn. case_match; [|eauto].
    destruct (table_ok (ht + 2)) as [u' ->]; [lia|]. cbn. eauto.
  - apply IH; [lia|done|]. exists (n - 1)%nat. lia.
Qed.

(** * The stages *)

(** The bytes that the flags of a result account for. *)
Definition flags_size (fl : Z) : Z :=
  Z.b2z (bit fl F_MODRM) + Z.b2z (bit fl F_SIB) +
  Z.b2z (bit fl F_DISP8) + 2 * Z.b2z (bit fl F_DISP16) + 4 * Z.b2z (bit fl F_DISP32) +
  Z.b2z (bit fl F_IMM8) + 2 * Z.b2z (bit fl F_IMM16) + 4 * Z.b2z (bit fl F_IMM32) +
  8 * Z.b2z (bit fl F_IMM64) + Z.b2z (bit fl F_PREFIX_REX).

(** A stage only adds error flags. *)
Definition adds_errors (fl fl' : Z) : Prop :=
  exists e, fl' = Z.lor fl e /\
    (e = 0 \/ e = Z.lor F_ERROR F_ERROR_OPCODE \/ e = Z.lor F_ERROR F_ERROR_LOCK \/
     e = Z.lor F_ERROR F_ERROR_OPERAND \/ e = Z.lor F_ERROR F_ERROR_LENGTH).

Lemma set_if_errors b fl e :
  e = Z.lor F_ERROR F_ERROR_OPCODE \/ e = Z.lor F_ERROR F_ERROR_LOCK \/
  e = Z.lor F_ERROR F_ERROR_OPERAND \/ e = Z.lor F_ERROR F_ERROR_LENGTH ->
  adds_errors fl (set_if b fl e).
Proof. intros He. destruct b; [by exists e; auto|]. exists 0. rewrite Z.lor_0_r. auto. Qed.

(** Error flags are no part of the size. *)
Lemma errors_bit fl fl' m : adds_errors fl fl' ->
  In m [F_MODRM; F_SIB; F_DISP8; F_DISP16; F_DISP32; F_IMM8; F_IMM16; F_IMM32; F_IMM64; F_PREFIX_REX] ->
  bit fl' m = bit fl m.
Proof.
  intros (e & -> & He) Hm. rewrite bit_lor. assert (bit e m = false) as ->; [|by rewrite orb_false_r].
  destruct He as [->|[->|[->|[->| ->]]]]; cbn in Hm; intuition subst; reflexivity.
Qed.

Lemma errors_size fl fl' : adds_errors fl fl' -> flags_size fl' = flags_size fl.
Proof.
  intros He. unfold flags_size. rewrite !(errors_bit fl fl') by (done || cbn; tauto). done.
Qed.

(** ** Sizes *)

Definition size_bits : list (Z * Z) :=
  [(F_MODRM, 1); (F_SIB, 1); (F_DISP8, 1); (F_DISP16, 2); (F_DISP32, 4); (F_IMM8, 1);
   (F_IMM16, 2); (F_IMM32, 4); (F_IMM64, 8); (F_PREFIX_REX, 1)].

(** [e] has the size bit [f] and no other. *)
Definition only_bit (e f : Z) : bool :=
  forallb (fun '(g, _) => Bool.eqb (bit e g) (g =? f)) size_bits.

Lemma lor_size fl e f n : In (f, n) size_bits -> only_bit e f = true -> bit fl f = false ->
  flags_size (Z.lor fl e) = flags_size fl + n.
Proof.
  intros Hin Ho Hf. unfold flags_size. rewrite !bit_lor.
  unfold only_bit in Ho. rewrite forallb_forall in Ho.
  assert (He : forall g k, In (g, k) size_bits -> bit e g = (g =? f)).
  { intros g k Hg. by apply Ho in Hg as ->%eqb_prop. }
  rewrite (He F_MODRM 1), (He F_SIB 1), (He F_DISP8 1), (He F_DISP16 2), (He F_DISP32 4),
    (He F_IMM8 1), (He F_IMM16 2), (He F_IMM32 4), (He F_IMM64 8), (He F_PREFIX_REX 1)
    by (cbn; tauto).
  cbn [size_bits In] in Hin.
  repeat (destruct Hin as [Hin|Hin]; [injection Hin as <- <-; rewrite Hf; cbn; rewrite ?orb_false_r; lia|]).
  destruct Hin.
Qed.

Definition clear (fl : Z) (ms : list Z) : Prop := Forall (fun m => bit fl m = false) ms.

Definition form_bits : list Z := [F_SIB; F_DISP8; F_DISP16; F_DISP32].
Definition imm_bits : list Z := [F_IMM8; F_IMM16; F_IMM32; F_IMM64].

Lemma clear_bit fl ms m : clear fl ms -> In m ms -> bit fl m = false.
Proof. intros H Hm. unfold clear in H. rewrite Forall_forall in H. apply H. by apply list_elem_of_In. Qed.

Lemma clear_lor fl e ms : clear fl ms -> forallb (fun m => negb (bit e m)) ms = true ->
  clear (Z.lor fl e) ms.
Proof.
  intros H He. unfold clear in *. rewrite Forall_forall in *. intros m Hm. rewrite bit_lor, H by done.
  rewrite forallb_forall in He. apply list_elem_of_In, He in Hm. by apply negb_true_iff in Hm.
Qed.

Lemma clear_errors fl fl' ms : clear fl ms -> adds_errors fl fl' ->
  Forall (fun m => In m (map fst size_bits)) ms -> clear fl' ms.
Proof.
  intros H He Hms. unfold clear in *. rewrite Forall_forall in *. intros m Hm.
  rewrite (errors_bit fl fl'); [by apply H|done|]. apply Hms in Hm. cbn in *. tauto.
Qed.

(** ** Immediates *)

Lemma take_imm_ok code n fl p u flags : readable code -> 0 <= p -> p + Z.of_nat n <= 40 ->
  exists u', take_imm code n fl (p, u, flags) = Ret (p + Z.of_nat n, u', Z.lor flags fl).
Proof.
  intros Hr Hp Hn. unfold take_imm. destruct (word_at_ok code p n Hr Hp Hn) as [v ->]. cbn. eauto.
Qed.

Ltac take_imms :=
  repeat match goal with
  | |- context [take_imm ?c ?n ?f (?p, ?u, ?g)] =>
      let v := fresh "v" in
      destruct (take_imm_ok c n f p u g) as [v ->]; [assumption|lia|lia|]; cbn [mbind res_bind]
  end.

(** The size of a sum of flags, one at a time. *)
Ltac clear_side :=
  first [assumption | eapply clear_bit; [eassumption|cbn; tauto]
        | rewrite bit_lor; apply orb_false_intro; [clear_side|reflexivity]].

Ltac sizes :=
  repeat first
    [ rewrite (lor_size _ F_IMM8 F_IMM8 1) by first [cbn; tauto|reflexivity|clear_side]
    | rewrite (lor_size _ F_IMM16 F_IMM16 2) by first [cbn; tauto|reflexivity|clear_side]
    | rewrite (lor_size _ F_IMM32 F_IMM32 4) by first [cbn; tauto|reflexivity|clear_side]
    | rewrite (lor_size _ F_IMM64 F_IMM64 8) by first [cbn; tauto|reflexivity|clear_side]
    | rewrite (lor_size _ (Z.lor F_IMM8 F_RELATIVE) F_IMM8 1) by first [cbn; tauto|reflexivity|clear_side]
    | rewrite (lor_size _ (Z.lor F_IMM16 F_RELATIVE) F_IMM16 2) by first [cbn; tauto|reflexivity|clear_side]
    | rewrite (lor_size _ (Z.lor F_IMM32 F_RELATIVE) F_IMM32 4) by first [cbn; tauto|reflexivity|clear_side] ].

(** The immediates are read within the code, and their flags account for
    their bytes, unless the opcode asks for two 8-bit ones or for two of 32. *)
Lemma imm_stage_ok code pref op64 cflags p fl : readable code -> 0 <= p -> p + 15 <= 40 ->
  clear fl imm_bits -> bit cflags C_REL8 && bit cflags C_IMM8 = false ->
  exists p' u fl', imm_stage code pref op64 cflags (p, 0, fl) = Ret (p', u, fl') /\
    p <= p' <= p + 15 /\ flags_size fl' = flags_size fl + (p' - p).
Proof.
  intros Hr Hp H15 Hc Hex. unfold imm_stage, imm_tail.
  destruct (bit cflags C_IMM_P66), (bit cflags C_REL32), (bit cflags C_IMM8), (bit cflags C_REL8),
    (bit cflags C_IMM16), (bit pref PRE_66), (op64 =? 0);
    try discriminate Hex; cbn [andb orb negb mbind res_bind]; take_imms;
    (eexists _, _, _; split; [reflexivity|]; split; [lia|]; sizes; lia).
Qed.

(** ** ModRM *)

Lemma fpu_check_ok opcode2 opcode m_mod m_reg m_rm fl :
  0 <= m_reg <= 7 -> 0 <= m_rm <= 7 ->
  exists fl', fpu_check opcode2 opcode m_mod m_reg m_rm fl = Ret fl' /\ adds_errors fl fl'.
Proof.
  intros Hreg Hrm. unfold fpu_check.
  destruct (opcode2 =? 0), (Z.leb_spec 0xd9 opcode), (Z.leb_spec opcode 0xdf); cbn [andb];
    try (exists fl; split; [done|]; exists 0; rewrite Z.lor_0_r; by auto).
  destruct (m_mod =? 3).
  - destruct (table_ok (DELTA_FPU_MODRM + (opcode - 217) * 8 + m_reg)) as [v ->];
      [unfold DELTA_FPU_MODRM, sizeof_table; cbn; lia|]. cbn.
    eexists; split; [done|]. by apply set_if_errors; auto.
  - destruct (table_ok (DELTA_FPU_REG + (opcode - 217))) as [v ->];
      [unfold DELTA_FPU_REG, sizeof_table; cbn; lia|]. cbn.
    eexists; split; [done|]. by apply set_if_errors; auto.
Qed.

Lemma lock_check_ok pref opcode2 opcode m_mod m_reg fl :
  exists fl', lock_check pref opcode2 opcode m_mod m_reg fl = Ret fl' /\ adds_errors fl fl'.
Proof.
  unfold lock_check. destruct (bit pref PRE_LOCK);
    [|exists fl; split; [done|]; exists 0; rewrite Z.lor_0_r; by auto].
  assert (H : exists b, (if m_mod =? 3 then Ret false
    else if opcode2 =? 0 then lock_loop 16 DELTA_OP_LOCK_OK DELTA_OP2_LOCK_OK (Z.land opcode 0xfe) m_reg
    else lock_loop 16 DELTA_OP2_LOCK_OK DELTA_OP_ONLY_MEM opcode m_reg) = Ret b).
  { destruct (m_mod =? 3); [eauto|]. destruct (opcode2 =? 0); apply lock_loop_ok; try done.
    - exists 12%nat. by split; [|lia].
    - exists 9%nat. by split; [|lia]. }
  destruct H as [b ->]. cbn. eexists; split; [done|]. by apply set_if_errors; auto.
Qed.

Lemma operand_check_ok pref opcode2 opcode m_mod m_reg :
  exists e m', operand_check pref opcode2 opcode m_mod m_reg = Ret (e, m') /\
    (m' = m_mod \/ m' = 3).
Proof.
  unfold operand_check.
  set (loop := if opcode2 =? 0 then only_mem_loop 16 DELTA_OP_ONLY_MEM _ opcode pref m_reg else _).
  assert (H : exists e, loop = Ret e).
  { unfold loop. destruct (opcode2 =? 0); apply only_mem_loop_ok; try done.
    - exists 5%nat. by split; [|lia].
    - exists 14%nat. by split; [|lia]. }
  destruct H as [e H]. clearbody loop. subst loop. cbn [mbind res_bind].
  destruct (_ && _); [eauto|]. destruct (_ && _); [eauto|]. destruct (_ && _); [eauto|].
  destruct (_ && _); [eauto|]. destruct (m_mod =? 3); [eauto|]. destruct (negb _); eauto.
Qed.

Lemma disp_size_cases pref m_mod m_rm :
  disp_size_of pref m_mod m_rm = 0 \/ disp_size_of pref m_mod m_rm = 1 \/
  disp_size_of pref m_mod m_rm = 2 \/ disp_size_of pref m_mod m_rm = 4.
Proof. unfold disp_size_of. repeat case_match; auto. Qed.

(** What [addressing_stage] gives, for a displacement of [d] bytes. *)
Lemma addressing_ok code p pref m_mod m_rm fl : readable code -> 0 <= p -> p + 6 <= 40 ->
  clear fl form_bits -> let sib := negb (m_mod =? 3) && (m_rm =? 4) in exists c a,
  byte_at code p = Ret c /\ addressing_stage code p pref m_mod m_rm fl = Ret a /\
  a_p a = p + Z.b2z sib +
    (if sib && (Z.land c 7 =? 5) && negb (bit m_mod 1) then 4 else disp_size_of pref m_mod m_rm) /\
  p <= a_p a <= p + 5 /\ flags_size (a_flags a) = flags_size fl + (a_p a - p) /\
  forall ms, clear fl ms -> (forall m, In m ms -> In m imm_bits) -> clear (a_flags a) ms.
Proof.
  intros Hr Hp H6 Hc sib. unfold addressing_stage. fold sib.
  destruct (byte_at_ok code p Hr) as (c & E & _); [lia|]. rewrite E. cbn [mbind res_bind].
  exists c. clearbody sib.
  remember (if sib && (Z.land c 7 =? 5) && negb (bit m_mod 1) then 4 else disp_size_of pref m_mod m_rm) as d eqn:Ed.
  assert (Hd : d = 0 \/ d = 1 \/ d = 2 \/ d = 4).
  { rewrite Ed. case_match; [auto|apply disp_size_cases]. }
  clear Ed.
  assert (Hv : exists v, (if d =? 0 then Ret 0
    else word_at code (if sib then p + 1 else p) (Z.to_nat d)) = Ret v).
  { destruct Hd as [-> |Hd]; [by exists 0|]. destruct (Z.eqb_spec d 0); [lia|].
    apply word_at_ok; [done|destruct sib; lia|destruct sib; lia]. }
  destruct Hv as [v ->]. cbn [mbind res_bind].
  set (fl' := if d =? 1 then _ else _).
  assert (Hs : flags_size fl' = flags_size fl + Z.b2z sib + d /\
    forall ms, clear fl ms -> (forall m, In m ms -> In m imm_bits) -> clear fl' ms).
  { split.
    - unfold fl', set_if. destruct Hd as [-> |[-> |[-> | ->]]]; destruct sib; cbn [Z.eqb Pos.eqb Z.b2z].
      all: repeat first
        [ rewrite (lor_size _ F_SIB F_SIB 1) by first [cbn; tauto|reflexivity|clear_side]
        | rewrite (lor_size _ F_DISP8 F_DISP8 1) by first [cbn; tauto|reflexivity|clear_side]
        | rewrite (lor_size _ F_DISP16 F_DISP16 2) by first [cbn; tauto|reflexivity|clear_side]
        | rewrite (lor_size _ F_DISP32 F_DISP32 4) by first [cbn; tauto|reflexivity|clear_side] ]; lia.
    - intros ms Hms Hin. unfold clear in *. rewrite Forall_forall in *. intros m Hm.
      pose proof (Hms m Hm) as H0. apply list_elem_of_In, Hin in Hm.
      assert (Hbits : bit F_SIB m = false /\ bit F_DISP8 m = false /\ bit F_DISP16 m = false /\ bit F_DISP32 m = false).
      { cbn in Hm. intuition subst; reflexivity. }
      destruct Hbits as (B1 & B2 & B3 & B4). unfold fl'.
      repeat case_match; rewrite ?bit_lor, ?bit_set_if, ?B1, ?B2, ?B3, ?B4, H0; by rewrite ?andb_false_r. }
  exists (if sib then mkAddressing ((if sib then p + 1 else p) + d) c (Z.shiftr c 6) (Z.shiftr (Z.land c 0x3f) 3) (Z.land c 7) v fl'
          else mkAddressing ((if sib then p + 1 else p) + d) 0 0 0 0 v fl').
  destruct Hs as [Hs1 Hs2]. split; [done|]. split; [by destruct sib|].
  destruct sib; cbn [a_p a_flags Z.b2z] in *; (split; [lia|]; split; [lia|]; split; [lia|done]).
Qed.

Definition all_bits : list Z := F_MODRM :: form_bits ++ imm_bits.

Lemma modrm_fields c : in_range 8 c ->
  0 <= Z.shiftr c 6 <= 3 /\ 0 <= Z.land c 7 <= 7 /\ 0 <= Z.shiftr (Z.land c 0x3f) 3 <= 7.
Proof.
  intros [H1 H2]. change (2 ^ 8) with 256 in H2.
  assert (E7 : Z.land c 7 = c mod 8) by (apply (Z.land_ones c 3); lia).
  assert (E63 : Z.land c 0x3f = c mod 64) by (apply (Z.land_ones c 6); lia).
  rewrite E7, E63, !Z.shiftr_div_pow2 by lia. change (2 ^ 6) with 64. change (2 ^ 3) with 8.
  Z.div_mod_to_equations. lia.
Qed.

Lemma clear_sub fl ms ms' : clear fl ms -> (forall m, In m ms' -> In m ms) -> clear fl ms'.
Proof.
  intros H Hs. unfold clear in *. rewrite Forall_forall in *. intros m Hm.
  apply H. apply list_elem_of_In. by apply Hs, list_elem_of_In.
Qed.

Lemma errors_trans a b c : adds_errors a b -> forall ms, clear a ms ->
  Forall (fun m => In m (map fst size_bits)) ms ->
  adds_errors b c -> clear c ms /\ flags_size c = flags_size a.
Proof.
  intros Hab ms Hc Hms Hbc. split.
  - eapply clear_errors; [by eapply clear_errors|done|done].
  - by rewrite (errors_size b c Hbc), (errors_size a b Hab).
Qed.

Lemma all_bits_size : Forall (fun m => In m (map fst size_bits)) all_bits.
Proof. apply Forall_forall. intros m Hm%list_elem_of_In. cbn in *. tauto. Qed.

Lemma modrm_ok code p x pref opcode2 opcode cflags fl : readable code -> 0 <= p -> p + 7 <= 40 ->
  clear fl all_bits -> cflags_ok opcode cflags = true -> exists m,
  modrm_stage code p x pref opcode2 opcode cflags fl = Ret m /\
  p + 1 <= a_p (m_addr m) <= p + 6 /\
  flags_size (a_flags (m_addr m)) = flags_size fl + (a_p (m_addr m) - p) /\
  clear (a_flags (m_addr m)) imm_bits /\
  bit (m_cflags m) C_REL8 && bit (m_cflags m) C_IMM8 = false.
Proof.
  intros Hr Hp H7 Hc Hcf. unfold modrm_stage.
  destruct (byte_at_ok code p Hr) as (c & -> & Hcr); [lia|]. cbn [mbind res_bind].
  destruct (modrm_fields c Hcr) as (Hmod & Hrm & Hreg).
  set (m_mod := Z.shiftr c 6) in *. set (m_rm := Z.land c 7) in *.
  set (m_reg := Z.shiftr (Z.land c 0x3f) 3) in *.
  set (fl0 := Z.lor fl F_MODRM).
  assert (Hc0 : clear fl0 (form_bits ++ imm_bits)).
  { apply clear_lor; [|reflexivity]. eapply clear_sub; [exact Hc|]. intros m Hm. by right. }
  assert (Hs0 : flags_size fl0 = flags_size fl + 1).
  { unfold fl0. rewrite (lor_size fl F_MODRM F_MODRM 1); [reflexivity|by left|reflexivity|].
    apply (clear_bit fl all_bits); [exact Hc|by left]. }
  assert (Hfb : Forall (fun m => In m (map fst size_bits)) (form_bits ++ imm_bits)).
  { pose proof all_bits_size as H. by inversion H. }
  set (fl1 := set_if _ fl0 _). assert (H1 : adds_errors fl0 fl1) by (apply set_if_errors; auto).
  destruct (fpu_check_ok opcode2 opcode m_mod m_reg m_rm fl1 Hreg Hrm) as (fl2 & -> & H2). cbn [mbind res_bind].
  destruct (errors_trans fl0 fl1 fl2 H1 _ Hc0 Hfb H2) as [Hc2 Hs2].
  destruct (lock_check_ok pref opcode2 opcode m_mod m_reg fl2) as (fl3 & -> & H3). cbn [mbind res_bind].
  destruct (operand_check_ok pref opcode2 opcode m_mod m_reg) as (e & m' & -> & Hm'). cbn [mbind res_bind].
  set (fl4 := set_if e fl3 _). assert (H4 : adds_errors fl3 fl4) by (apply set_if_errors; auto).
  destruct (errors_trans fl2 fl3 fl4 H3 _ Hc2 Hfb H4) as [Hc4 Hs4].
  destruct (addressing_ok code (p + 1) pref m' m_rm fl4 Hr) as (c' & a & _ & -> & _ & Hap & Has & Hac);
    [lia|lia|eapply clear_sub; [exact Hc4|]; intros m; rewrite in_app_iff; auto|].
  cbn [mbind res_bind]. eexists. split; [reflexivity|]. cbn [m_addr m_cflags].
  split; [lia|]. split; [lia|]. split.
  - apply Hac; [|done]. eapply clear_sub; [exact Hc4|]. intros m. rewrite in_app_iff. auto.
  - unfold cflags_ok in Hcf. apply negb_true_iff in Hcf.
    assert (Hn : bit C_IMM8 C_REL8 = false /\ bit C_IMM_P66 C_REL8 = false /\ bit C_IMM_P66 C_IMM8 = false)
      by (split_and!; reflexivity). destruct Hn as (N1 & N2 & N3).
    destruct (m_reg <=? 1); [destruct (opcode =? 0xf6); [|destruct (opcode =? 0xf7)]|];
      rewrite ?bit_lor, ?N1, ?N2, ?N3, ?orb_false_r;
      destruct (bit cflags C_REL8), (bit cflags C_IMM8); cbn in Hcf |- *;
      rewrite ?orb_false_r, ?orb_true_r in *; done.
Qed.

(** ** Prefixes, REX and the opcode *)

Definition is_prefix (c : Z) : bool :=
  match prefix c (mkPrefixes 0 0 0 0 0 0) with Some _ => true | None => false end.

Lemma prefix_is c s : is_Some (prefix c s) <-> is_prefix c = true.
Proof.
  unfold is_prefix, prefix. destruct s. repeat case_match; split; intros Hx; try done; eauto;
    by destruct Hx.
Qed.

(** The number of prefixes the code begins with. *)
Fixpoint prefix_count (code : list Z) : Z :=
  match code with
  | c :: code => if is_prefix c then 1 + prefix_count code else 0
  | [] => 0
  end.

Lemma prefix_pref c s s' : prefix c s = Some s' -> in_range 7 (pref s) -> in_range 7 (pref s').
Proof.
  unfold prefix. destruct s as [r l g o a f]. cbn. intros H Hf.
  assert (Hl : forall k, 0 <= k < 7 -> in_range 7 (Z.lor f (Z.shiftl 1 k))).
  { intros k Hk. apply in_range_lor; [lia|done|]. by apply in_range_bit. }
  repeat case_match; simplify_eq; cbn;
    [apply (Hl 2)|apply (Hl 1)|apply (Hl 5)|apply (Hl 6)|apply (Hl 3)|apply (Hl 4)]; lia.
Qed.

Lemma byte_at_drop code p : 0 <= p -> byte_at code p = get_or_oob (head (drop (Z.to_nat p) code)).
Proof.
  intros Hp. unfold byte_at. f_equal.
  destruct (drop (Z.to_nat p) code) as [|b l] eqn:E.
  - apply lookup_ge_None_2. apply (f_equal length) in E. rewrite length_drop in E. cbn in E. lia.
  - rewrite <- (Nat.add_0_r (Z.to_nat p)), <- lookup_drop, E. done.
Qed.

Lemma prefix_loop_ok x code p c s : readable code -> 0 <= p -> p + Z.of_nat x = 16 ->
  in_range 8 c -> in_range 7 (pref s) -> (0 < x)%nat -> exists p' c' s',
  prefix_loop x code p c s = Ret (p', c', s') /\ p < p' <= p + Z.of_nat x /\ in_range 8 c' /\
  in_range 7 (pref s') /\
  (p' < 16 -> p' = p + prefix_count (drop (Z.to_nat p) code) + 1).
Proof.
  revert p c s; induction x as [|x IH]; intros p c s Hr Hp Hx Hc Hs Hpos; [lia|]. cbn [prefix_loop].
  destruct (byte_at_ok code p Hr) as (b & E & Hb); [lia|]. rewrite E. cbn [mbind res_bind].
  assert (Hd : exists l, drop (Z.to_nat p) code = b :: l /\ l = drop (Z.to_nat (p + 1)) code).
  { rewrite byte_at_drop in E by done. destruct (drop (Z.to_nat p) code) as [|b' l] eqn:Ed; [done|].
    apply Ret_inj in E as ->. exists l. split; [done|].
    replace (Z.to_nat (p + 1)) with (Z.to_nat p + 1)%nat by lia. by rewrite <- drop_drop, Ed. }
  destruct Hd as (l & Hd & Hl). rewrite Hd. cbn [prefix_count].
  pose proof (prefix_is b s) as Hpre. destruct (prefix b s) as [s1|] eqn:Ep.
  - rewrite (proj1 Hpre) by eauto. pose proof (prefix_pref _ _ _ Ep Hs) as Hs1.
    destruct x as [|x].
    + cbn. exists (p + 1), b, s1. split; [done|]. split_and!; try done; lia.
    + destruct (IH (p + 1) b s1) as (p' & c' & s' & -> & H1 & H2 & H3 & H4); [done|lia|lia|done|done|lia|].
      exists p', c', s'. split; [done|]. split; [lia|]. split; [done|]. split; [done|]. intros Hlt.
      rewrite (H4 Hlt), <- Hl. lia.
  - destruct (is_prefix b); [by destruct (proj2 Hpre eq_refl)|].
    exists (p + 1), b, s. split; [done|]. split_and!; try done; lia.
Qed.

(** The prefix flags hold no size bit. *)
Lemma prefix_flags pref : in_range 7 pref ->
  clear (u32 (Z.shiftl pref 23)) (map fst size_bits).
Proof.
  intros H. assert (Hb : in_range 8 pref) by (eapply (in_range_weaken 7); [lia|done]).
  pose proof (bytes_forallb (fun b => negb (b <? 128) || forallb (fun m => negb (bit (u32 (Z.shiftl b 23)) m)) (map fst size_bits))
    ltac:(vm_compute; reflexivity) pref Hb) as Hc. cbn beta in Hc.
  destruct H as [_ H]. change (2 ^ 7) with 128 in H. destruct (Z.ltb_spec pref 128); [|lia].
  cbn [negb orb] in Hc. rewrite forallb_forall in Hc. unfold clear. apply Forall_forall.
  intros m Hm%list_elem_of_In. by apply Hc, negb_true_iff in Hm.
Qed.

Lemma clear_size fl : clear fl (map fst size_bits) -> flags_size fl = 0.
Proof.
  intros H. unfold flags_size.
  rewrite !(clear_bit fl (map fst size_bits)); [done|done|cbn; tauto..].
Qed.

Lemma rex_stage_ok code p c fl : readable code -> 0 <= p <= 16 -> in_range 8 c ->
  clear fl (map fst size_bits) ->
  exists p' c' rex op64 rexfl bad, rex_stage code p c = Ret (p', c', rex, op64, rexfl, bad) /\
  p <= p' <= p + 1 /\ in_range 8 c' /\ clear (Z.lor fl rexfl) all_bits /\
  flags_size (Z.lor fl rexfl) = p' - p.
Proof.
  intros Hr Hp Hc Hfl. unfold rex_stage. pose proof (clear_size fl Hfl) as H0.
  destruct (Z.land c 0xf0 =? 0x40).
  - assert (H : exists op64, (if Z.shiftr (Z.land c 0xf) 3 =? 0 then Ret 0
      else b ← byte_at code p; Ret (if Z.land b 0xf8 =? 0xb8 then 1 else 0)) = Ret op64).
    { case_match; [eauto|]. destruct (byte_at_ok code p Hr) as (b & -> & _); [lia|]. cbn. eauto. }
    destruct H as [op64 ->]. cbn [mbind res_bind].
    destruct (byte_at_ok code p Hr) as (b & -> & Hb); [lia|]. cbn [mbind res_bind].
    eexists _, _, _, _, _, _. split; [reflexivity|]. split; [lia|]. split; [done|]. split.
    + apply clear_lor; [|reflexivity]. eapply clear_sub; [exact Hfl|]. cbn. tauto.
    + rewrite (lor_size fl _ F_PREFIX_REX 1); [lia|cbn; tauto|reflexivity|].
      eapply clear_bit; [exact Hfl|cbn; tauto].
  - eexists _, _, _, _, _, _. split; [reflexivity|]. rewrite Z.lor_0_r.
    split; [lia|]. split; [done|]. split; [|lia]. eapply clear_sub; [exact Hfl|]. cbn. tauto.
Qed.

Lemma errors_opcode fl : adds_errors fl (Z.lor fl (Z.lor F_ERROR F_ERROR_OPCODE)).
Proof. eexists; split; [reflexivity|]. auto. Qed.

Lemma all_bits_sub : forall m, In m all_bits -> In m (map fst size_bits).
Proof. intros m Hm. pose proof all_bits_size as H. rewrite Forall_forall in H. by apply H, list_elem_of_In. Qed.

Lemma opcode_stage_ok code p c pref op64 fl bad : readable code -> 0 <= p <= 17 -> in_range 8 c ->
  clear fl all_bits -> exists o x cflags,
  opcode_stage code p c pref op64 fl bad = Ret o /\
  group_stage (op_ht o) (op_cflags o) = Ret (cflags, x) /\ cflags_ok (op_code o) cflags = true /\
  in_range 8 (op_code o) /\
  op_p o = p + Z.b2z (op_first o =? 0x0f) /\ p <= op_p o <= p + 1 /\
  clear (op_flags o) all_bits /\ flags_size (op_flags o) = flags_size fl.
Proof.
  intros Hr Hp Hc Hfl. unfold opcode_stage.
  pose proof (errors_opcode fl) as He.
  assert (Herr : clear (Z.lor fl (Z.lor F_ERROR F_ERROR_OPCODE)) all_bits).
  { eapply clear_errors; [done|done|apply all_bits_size]. }
  assert (H : exists o, (if bad then Ret (mkOp p 0 0 c 0 pref op64 C_ERROR fl)
     else
       '(p, second, c', ht, op64, pref) ←
         (if c =? 0x0f then c2 ← byte_at code p; Ret (p + 1, c2, c2, DELTA_OPCODES, op64, pref)
          else if (0xa0 <=? c) && (c <=? 0xa3) then
            Ret (p, 0, c, 0, op64 + 1,
                 if bit pref PRE_67 then Z.lor pref PRE_66 else Z.land pref (u8 (Z.lnot PRE_66)))
          else Ret (p, 0, c, 0, op64, pref));
       cflags ← lookup2 ht c';
       Ret (mkOp p c second c' ht pref op64 cflags fl)) = Ret o /\
    op_flags o = fl /\ in_range 8 (op_code o) /\ op_p o = p + Z.b2z (op_first o =? 0x0f) /\
    p <= op_p o <= p + 1 /\
    (op_cflags o = C_ERROR \/ exists cf x, group_stage (op_ht o) (op_cflags o) = Ret (cf, x) /\ cflags_ok (op_code o) cf = true)).
  { destruct bad; [eexists; split; [reflexivity|]; cbn; split_and!; auto; lia|].
    assert (Hlook : forall p' second c' ht op64' pref' first, in_range 8 c' -> ht = 0 \/ ht = DELTA_OPCODES ->
      p' = p + Z.b2z (first =? 0x0f) -> exists o,
      (cflags ← lookup2 ht c'; Ret (mkOp p' first second c' ht pref' op64' cflags fl)) = Ret o /\
      op_flags o = fl /\ in_range 8 (op_code o) /\ op_p o = p + Z.b2z (op_first o =? 0x0f) /\
      p <= op_p o <= p + 1 /\
      (op_cflags o = C_ERROR \/ exists cf x, group_stage (op_ht o) (op_cflags o) = Ret (cf, x) /\ cflags_ok (op_code o) cf = true)).
    { intros p' second c' ht op64' pref' first Hc' Hht Hp'.
      pose proof (opcodes_ok ht c' Hht Hc') as Hok. unfold opcode_ok in Hok.
      destruct (lookup2 ht c') as [v|]; [|done]. cbn [mbind res_bind].
      eexists; split; [reflexivity|]. cbn. split_and!; try done; [subst; destruct (first =? 15); cbn; lia..|].
      destruct (Z.eqb_spec v C_ERROR); [by left|right]. cbn [orb] in Hok.
      destruct (group_stage ht v) as [[cf x]|]; [|done]. eauto. }
    destruct (Z.eqb_spec c 0x0f) as [->|Hne].
    - destruct (byte_at_ok code p Hr) as (c2 & -> & Hc2); [lia|]. cbn [mbind res_bind]. by apply Hlook; auto.
    - destruct (_ && _); cbn [mbind res_bind]; apply Hlook; auto;
        destruct (Z.eqb_spec c 15); cbn; lia. }
  destruct H as (o & -> & Hf & Hcode & Hpo & Hpo' & Hcf). cbn [mbind res_bind].
  destruct (Z.eqb_spec (op_cflags o) C_ERROR) as [E|E].
  - eexists _, 0, (if Z.land (op_code o) 0xfd =? 0x24 then 1 else 0). split; [reflexivity|].
    cbn [op_ht op_cflags op_code op_p op_first op_flags].
    split; [by destruct (_ =? 0x24)|]. split; [by destruct (_ =? 0x24)|]. rewrite Hf.
    split_and!; try done; try lia. by apply errors_size.
  - destruct Hcf as [|(cf & x & Hg & Hok)]; [done|]. exists o, x, cf. rewrite Hf. split_and!; done || lia.
Qed.

(** ** The whole *)

Lemma hde64_decode_ok code : readable code -> exists hs p, hde64_decode code = Ret (hs, p) /\
  1 <= p <= 39 /\ len hs = (if 15 <? p then 15 else p) /\
  (15 < p -> bit (flags hs) F_ERROR_LENGTH = true) /\
  (p <= 15 -> p = prefix_count code + 1 + Z.b2z (opcode hs =? 0x0f) + flags_size (flags hs)).
Proof.
  intros Hr. unfold hde64_decode.
  destruct (prefix_loop_ok 16 code 0 0 (mkPrefixes 0 0 0 0 0 0) Hr) as (p & c & s & -> & Hp & Hc & Hs & Hcount);
    [lia|lia|by vm_compute|by vm_compute|lia|]. cbn [mbind res_bind].
  pose proof (prefix_flags (pref s) Hs) as Hfl. set (fl := u32 (Z.shiftl (pref s) 23)) in *.
  set (pr := if pref s =? 0 then PRE_NONE else pref s).
  destruct (rex_stage_ok code p c fl Hr) as (p1 & c1 & rex & op64 & rexfl & bad & -> & Hp1 & Hc1 & Hcl1 & Hs1);
    [lia|done|done|]. cbn [mbind res_bind].
  destruct (opcode_stage_ok code p1 c1 pr op64 (Z.lor fl rexfl) bad Hr)
    as (o & x & cf & -> & Hg & Hok & Hcode & Hpo & Hpo' & Hcl2 & Hs2); [lia|done|done|].
  cbn [mbind res_bind]. rewrite Hg. cbn [mbind res_bind].
  assert (Hpc : exists fl', prefix_check (op_second o) (op_code o) (op_pref o) (op_flags o) = Ret fl' /\
    adds_errors (op_flags o) fl').
  { unfold prefix_check. destruct (op_second o =? 0).
    - eexists; split; [done|]. exists 0. rewrite Z.lor_0_r. auto.
    - destruct (prefix_table_ok (op_code o) Hcode) as [m ->]. cbn.
      eexists; split; [done|]. apply set_if_errors. auto. }
  destruct Hpc as (fl3 & -> & He3). cbn [mbind res_bind].
  pose proof (clear_errors _ _ _ Hcl2 He3 all_bits_size) as Hcl3.
  pose proof (errors_size _ _ He3) as Hs3.
  assert (Hm : exists m, (if bit cf C_MODRM
      then modrm_stage code (op_p o) x (op_pref o) (op_second o) (op_code o) cf fl3
      else Ret (no_modrm cf (op_p o) (set_if (bit (op_pref o) PRE_LOCK) fl3 (Z.lor F_ERROR F_ERROR_LOCK)))) = Ret m /\
    op_p o <= a_p (m_addr m) <= op_p o + 6 /\
    flags_size (a_flags (m_addr m)) = flags_size fl3 + (a_p (m_addr m) - op_p o) /\
    clear (a_flags (m_addr m)) imm_bits /\ bit (m_cflags m) C_REL8 && bit (m_cflags m) C_IMM8 = false).
  { destruct (bit cf C_MODRM).
    - destruct (modrm_ok code (op_p o) x (op_pref o) (op_second o) (op_code o) cf fl3 Hr)
        as (m & -> & H1 & H2 & H3 & H4); [lia|lia|done|done|]. exists m. split_and!; done || lia.
    - eexists; split; [reflexivity|]. cbn.
      pose proof (set_if_errors (bit (op_pref o) PRE_LOCK) fl3 (Z.lor F_ERROR F_ERROR_LOCK) ltac:(auto)) as He.
      split; [lia|]. split; [rewrite (errors_size _ _ He); lia|]. split.
      + eapply clear_sub; [exact (clear_errors _ _ _ Hcl3 He all_bits_size)|]. cbn. tauto.
      + unfold cflags_ok in Hok. destruct (bit cf C_REL8), (bit cf C_IMM8); done. }
  destruct Hm as (m & -> & Hm1 & Hm2 & Hm3 & Hm4). cbn [mbind res_bind].
  destruct (imm_stage_ok code (op_pref o) (op_op64 o) (m_cflags m) (a_p (m_addr m)) (a_flags (m_addr m)) Hr)
    as (p' & u & fl' & -> & Hp' & Hs'); [lia|lia|done|done|]. cbn [mbind res_bind].
  eexists _, p'. split; [reflexivity|]. cbn [len flags opcode].
  assert (E8 : u8 p' = p') by (apply wrap_small; split; [lia|]; change (2 ^ 8) with 256; lia).
  rewrite E8. split; [lia|]. split; [done|]. destruct (Z.ltb_spec 15 p').
  - split; [intros _|lia]. unfold set_if. rewrite bit_lor. apply orb_true_r.
  - split; [lia|]. intros _. cbn [set_if]. rewrite Hcount in * by lia.
    change (drop (Z.to_nat 0) code) with code in *. lia.
Qed.

(** C29: The disassembler is total: on any forty readable bytes it returns a
    length between 1 and 15, whatever the bytes are. It reads no byte past
    them, no entry outside [hde64_table], and its table searches end. *)
Theorem hde64_total code : bytes_ok code -> (40 <= length code)%nat ->
  exists n hs, hde64_disasm code = Ret (n, hs) /\ n = len hs /\ 1 <= n <= 15.
Proof.
  intros Hb Hl. destruct (hde64_decode_ok code (conj Hb Hl)) as (hs & p & E & Hp & Hlen & _).
  exists (len hs), hs. unfold hde64_disasm. rewrite E. split; [done|]. split; [done|].
  rewrite Hlen. destruct (Z.ltb_spec 15 p); lia.
Qed.

(** The length is exactly accounted for: when it is not the error of an
    instruction too long, it is the number of prefixes, the opcode bytes, and
    the REX, ModRM, SIB, displacement and immediate bytes that the flags of
    the result name. *)
Theorem hde64_length_accounts code n hs : bytes_ok code -> (40 <= length code)%nat ->
  hde64_disasm code = Ret (n, hs) -> bit (flags hs) F_ERROR_LENGTH = false ->
  n = prefix_count code + 1 + Z.b2z (opcode hs =? 0x0f) + flags_size (flags hs).
Proof.
  intros Hb Hl E Hlen. destruct (hde64_decode_ok code (conj Hb Hl)) as (hs' & p & Ed & Hp & Hn & H15 & Hacc).
  unfold hde64_disasm in E. rewrite Ed in E. cbn in E. injection E as <- <-.
  destruct (Z.ltb_spec 15 p); [rewrite H15 in Hlen by done; discriminate|].
  rewrite Hn. by apply Hacc.
Qed.

(** The bytes after ModRM that the processor's manual gives for 64-bit
    addressing: the SIB byte for [m_rm] 4, and the displacement by [m_mod],
    of 32 bits also without a base register. *)
Definition manual_form_size (m_mod m_rm sib : Z) : Z :=
  if m_mod =? 3 then 0
  else
    (if m_rm =? 4 then 1 else 0) +
    (if m_mod =? 1 then 1
     else if m_mod =? 2 then 4
     else if m_rm =? 5 then 4
     else if (m_rm =? 4) && (Z.land sib 7 =? 5) then 4 else 0).

(** Without the address size prefix, the SIB byte and the displacement
    are those of the processor's manual, for every ModRM and SIB byte. *)
Theorem addressing_is_manual code p pref m_mod m_rm fl :
  bytes_ok code -> (40 <= length code)%nat -> 0 <= p <= 34 -> 0 <= m_mod <= 3 -> clear fl form_bits ->
  bit pref PRE_67 = false -> exists sib a,
  byte_at code p = Ret sib /\ addressing_stage code p pref m_mod m_rm fl = Ret a /\
  a_p a = p + manual_form_size m_mod m_rm sib.
Proof.
  intros Hb Hl Hp Hm Hc H67.
  destruct (addressing_ok code p pref m_mod m_rm fl (conj Hb Hl)) as (c & a & E1 & E2 & Ha & _); [lia|lia|done|].
  exists c, a. split; [done|]. split; [done|]. rewrite Ha. unfold manual_form_size, disp_size_of.
  rewrite H67. assert (Hcases : m_mod = 0 \/ m_mod = 1 \/ m_mod = 2 \/ m_mod = 3) by lia.
  destruct Hcases as [-> |[-> |[-> | ->]]]; cbn [Z.eqb Pos.eqb negb andb bit];
    destruct (Z.eqb_spec m_rm 4), (Z.eqb_spec m_rm 5), (Z.land c 7 =? 5); try lia;
    change (bit 0 1) with false; change (bit 1 1) with true; change (bit 2 1) with false; cbn; lia.
Qed.

(** Under the address size prefix the displacement rules of 16-bit
    addressing are used, which do not exist in 64-bit mode: [mov eax,
    [eax + disp32]] has seven bytes and [mov eax, [eip + disp32]] as well,
    but five and three are reported. *)
Theorem addr32_lengths : 
  disasm_length [0x67; 0x8b; 0x80; 1; 2; 3; 4] = Ret (5, 0) /\
  disasm_length [0x67; 0x8b; 0x05; 1; 2; 3; 4] = Ret (3, 0).
Proof. split; vm_compute; reflexivity. Qed.

(** The immediates that belong to the one-byte opcodes F6 and F7 are also
    added to 0F F6 and 0F F7: [psadbw mm0, mm0] has three bytes and is
    reported to have four, [maskmovq mm0, mm0] as well, and seven. *)
Theorem two_byte_f6_lengths :
  disasm_length [0x0f; 0xf6; 0xc0] = Ret (4, 0) /\ disasm_length [0x0f; 0xf7; 0xc0] = Ret (7, 0).
Proof. split; vm_compute; reflexivity. Qed.

(** ** Instances *)

(** [lock cmpxchg [rbx], rcx] and what follows. *)
Definition sample_code : list Z := [0xf0; 0x48; 0x0f; 0xb1; 0x0b] ++ replicate 40 0x90.

Lemma sample_ok : bytes_ok sample_code.
Proof. apply (bool_decide_unpack _). vm_compute. exact I. Qed.

Lemma hde64_total_witness : exists n hs, hde64_disasm sample_code = Ret (n, hs) /\ n = len hs /\ 1 <= n <= 15.
Proof. apply (hde64_total sample_code sample_ok). vm_compute. lia. Defined.

Lemma hde64_length_accounts_witness : exists hs,
  hde64_disasm sample_code = Ret (5, hs) /\
  5 = prefix_count sample_code + 1 + Z.b2z (opcode hs =? 0x0f) + flags_size (flags hs).
Proof.
  assert (H : exists hs, hde64_disasm sample_code = Ret (5, hs) /\ bit (flags hs) F_ERROR_LENGTH = false).
  { eexists. split; [vm_compute; reflexivity|vm_compute; reflexivity]. }
  destruct H as (hs & E & Hf). exists hs. split; [exact E|].
  apply (hde64_length_accounts sample_code 5 hs sample_ok); [vm_compute; lia|exact E|exact Hf].
Defined.

Lemma addressing_is_manual_witness : exists sib a,
  byte_at sample_code 3 = Ret sib /\ addressing_stage sample_code 3 PRE_NONE 2 4 0 = Ret a /\
  a_p a = 3 + manual_form_size 2 4 sib.
Proof.
  apply (addressing_is_manual sample_code 3 PRE_NONE 2 4 0 sample_ok);
    [vm_compute; lia|lia|lia|repeat (constructor; [reflexivity|]); constructor|reflexivity].
Defined.

(** * Locality *)

(** Two pieces of code with the same first [n] bytes. *)
Definition agree (n : Z) (c1 c2 : list Z) : Prop := take (Z.to_nat n) c1 = take (Z.to_nat n) c2.

Lemma agree_le n m c1 c2 : m <= n -> agree n c1 c2 -> agree m c1 c2.
Proof.
  unfold agree. intros Hm H. replace (Z.to_nat m) with (Z.to_nat m `min` Z.to_nat n)%nat by lia.
  by rewrite <- !take_take, H.
Qed.

Lemma byte_at_agree n c1 c2 p : agree n c1 c2 -> 0 <= p < n -> byte_at c1 p = byte_at c2 p.
Proof.
  intros H Hp. unfold byte_at. rewrite <- (lookup_take_lt c1 (Z.to_nat n) (Z.to_nat p)) by lia.
  rewrite H. by rewrite lookup_take_lt by lia.
Qed.

Lemma word_at_agree n c1 c2 p k : readable c1 -> readable c2 -> agree n c1 c2 -> 0 <= p ->
  p + Z.of_nat k <= n -> p + Z.of_nat k <= 40 -> word_at c1 p k = word_at c2 p k.
Proof.
  intros [_ H1] [_ H2] H Hp Hk H40. unfold word_at. rewrite !load_in_bounds by lia. cbn. do 2 f_equal.
  assert (E : forall c : list Z, take k (drop (Z.to_nat p) c) = take k (drop (Z.to_nat p) (take (Z.to_nat n) c))).
  { intros c. rewrite !take_drop_commute, take_take. do 2 f_equal. lia. }
  by rewrite (E c1), (E c2), H.
Qed.

Section Local.
Context (c1 c2 : list Z) (H1 : readable c1) (H2 : readable c2).

Lemma prefix_loop_local x p c s p' c' s' : 0 <= p -> prefix_loop x c1 p c s = Ret (p', c', s') ->
  agree p' c1 c2 -> p <= p' /\ prefix_loop x c2 p c s = Ret (p', c', s').
Proof.
  revert p c s; induction x as [|x IH]; intros p c s Hp; cbn [prefix_loop].
  - intros [= <- <- <-] _. split; [lia|done].
  - destruct (byte_at c1 p) as [b|] eqn:E; [|done]. cbn [mbind res_bind].
    destruct (prefix b s) as [s1|] eqn:Ep.
    + intros H Ha. destruct (IH (p + 1) b s1 ltac:(lia) H Ha) as [Hle Hrun]. split; [lia|].
      rewrite <- (byte_at_agree p' c1 c2), E by (done || lia). cbn. by rewrite Ep.
    + intros [= <- <- <-] Ha. split; [lia|].
      rewrite <- (byte_at_agree (p + 1) c1 c2), E by (done || lia). cbn. by rewrite Ep.
Qed.

Lemma rex_stage_local p c r : 0 <= p -> rex_stage c1 p c = Ret r -> agree (r.1.1.1.1.1) c1 c2 ->
  p <= r.1.1.1.1.1 /\ rex_stage c2 p c = Ret r.
Proof.
  intros Hp. unfold rex_stage. destruct (Z.land c 0xf0 =? 0x40); [|intros [= <-] _; split; [cbn; lia|done]].
  destruct (byte_at c1 p) as [b|] eqn:E; cbn [mbind res_bind].
  2: { destruct (_ =? 0); cbn; discriminate. }
  intros H Ha. assert (Hr : r.1.1.1.1.1 = p + 1) by (destruct (_ =? 0); cbn in H; by simplify_eq).
  rewrite Hr in *. split; [lia|]. rewrite <- (byte_at_agree (p + 1) c1 c2), E by (done || lia). done.
Qed.

Lemma opcode_stage_local p c pref op64 fl bad o : 0 <= p ->
  opcode_stage c1 p c pref op64 fl bad = Ret o -> agree (op_p o) c1 c2 ->
  opcode_stage c2 p c pref op64 fl bad = Ret o.
Proof.
  intros Hp. unfold opcode_stage. destruct bad; [done|]. destruct (c =? 0x0f); [|done].
  destruct (byte_at c1 p) as [b|] eqn:E; cbn [mbind res_bind]; [|done].
  intros H Ha. assert (Ho : op_p o = p + 1).
  { destruct (lookup2 _ _); cbn in H; [|done]. destruct (_ =? C_ERROR); by simplify_eq/=. }
  rewrite Ho in Ha. rewrite <- (byte_at_agree (p + 1) c1 c2), E by (done || lia). done.
Qed.

Lemma addressing_local p pref m_mod m_rm fl a : 0 <= p -> p + 6 <= 40 ->
  addressing_stage c1 p pref m_mod m_rm fl = Ret a -> agree (a_p a) c1 c2 ->
  addressing_stage c2 p pref m_mod m_rm fl = Ret a.
Proof.
  intros Hp H6. unfold addressing_stage.
  destruct (byte_at_ok c1 p H1) as (b1 & E1 & _); [lia|].
  destruct (byte_at_ok c2 p H2) as (b2 & E2 & _); [lia|]. rewrite E1, E2. cbn [mbind res_bind].
  destruct (negb (m_mod =? 3) && (m_rm =? 4)); cbn [andb].
  - set (d := if _ && _ then 4 else _).
    assert (Hd : 0 <= d <= 4) by (unfold d; case_match; [lia|]; destruct (disp_size_cases pref m_mod m_rm) as [-> |[-> |[-> | ->]]]; lia).
    intros H Ha. assert (Hap : a_p a = p + 1 + d).
    { destruct (d =? 0); [by simplify_eq/=|]. destruct (word_at c1 (p + 1) (Z.to_nat d)); by simplify_eq/=. }
    rewrite Hap in Ha. assert (b2 = b1) as ->.
    { apply Ret_inj. rewrite <- E1, <- E2. symmetry. apply (byte_at_agree (p + 1 + d)); [done|lia]. }
    fold d. rewrite <- (word_at_agree (p + 1 + d) c1 c2) by (done || lia). done.
  - set (d := disp_size_of pref m_mod m_rm).
    assert (Hd : 0 <= d <= 4) by (unfold d; destruct (disp_size_cases pref m_mod m_rm) as [-> |[-> |[-> | ->]]]; lia).
    intros H Ha. assert (Hap : a_p a = p + d).
    { destruct (d =? 0); [by simplify_eq/=|]. destruct (word_at c1 p (Z.to_nat d)); by simplify_eq/=. }
    rewrite Hap in Ha. rewrite <- (word_at_agree (p + d) c1 c2) by (done || lia). done.
Qed.

Lemma modrm_local p x pref opcode2 opcode cflags fl m : 0 <= p -> p + 7 <= 40 ->
  modrm_stage c1 p x pref opcode2 opcode cflags fl = Ret m -> p + 1 <= a_p (m_addr m) ->
  agree (a_p (m_addr m)) c1 c2 -> modrm_stage c2 p x pref opcode2 opcode cflags fl = Ret m.
Proof.
  intros Hp H7 H Hle Ha. revert H. unfold modrm_stage.
  rewrite <- (byte_at_agree _ c1 c2 p Ha) by lia.
  destruct (byte_at c1 p) as [c|]; [|done]. cbn [mbind res_bind].
  destruct (fpu_check _ _ _ _ _ _) as [fl1|]; [|done]. cbn [mbind res_bind].
  destruct (lock_check _ _ _ _ _ _) as [fl2|]; [|done]. cbn [mbind res_bind].
  destruct (operand_check _ _ _ _ _) as [[e m']|]; [|done]. cbn [mbind res_bind].
  destruct (addressing_stage c1 _ _ _ _ _) as [a|] eqn:E; [|done]. cbn [mbind res_bind].
  intros [= <-]. cbn in Ha. by rewrite (addressing_local _ _ _ _ _ a) by (done || lia).
Qed.

Lemma take_imm_local n k fl p u g : agree n c1 c2 -> 0 <= p -> p + Z.of_nat k <= n -> n <= 40 ->
  take_imm c1 k fl (p, u, g) = take_imm c2 k fl (p, u, g).
Proof. intros. unfold take_imm. by rewrite (word_at_agree n c1 c2) by (done || lia). Qed.

Lemma take_imm_inv code k fl p u g s : take_imm code k fl (p, u, g) = Ret s -> exists u',
  s = (p + Z.of_nat k, u', Z.lor g fl).
Proof. unfold take_imm. destruct (word_at _ _ _); [|done]. cbn. intros [= <-]. eauto. Qed.

Lemma imm_local pref op64 cflags p fl p' u fl' : 0 <= p -> p' <= 40 ->
  imm_stage c1 pref op64 cflags (p, 0, fl) = Ret (p', u, fl') -> agree p' c1 c2 ->
  imm_stage c2 pref op64 cflags (p, 0, fl) = Ret (p', u, fl').
Proof.
  intros Hp H40 H Ha. rewrite <- H. symmetry. revert H. unfold imm_stage, imm_tail.
  destruct (bit cflags C_IMM_P66), (bit cflags C_REL32), (bit cflags C_IMM8), (bit cflags C_REL8),
    (bit cflags C_IMM16), (bit pref PRE_66), (op64 =? 0); cbn [andb orb negb mbind res_bind];
    try reflexivity; intros H;
    repeat match type of H with
    | context [take_imm c1 ?n ?f (?q, ?v, ?g)] =>
        let E := fresh "E" in let Ei := fresh "Ei" in let v' := fresh "v" in
        destruct (take_imm c1 n f (q, v, g)) as [?s|] eqn:E; [|discriminate H];
        destruct (take_imm_inv _ _ _ _ _ _ _ E) as [v' Ei]; subst; cbn [mbind res_bind] in H |- *
    end; injection H as <- _ _;
    repeat match goal with
    | E : take_imm c1 ?n ?f (?q, ?v, ?g) = Ret _ |- _ =>
        rewrite (take_imm_local _ n f q v g Ha) in E by lia; try rewrite E; clear E; cbn [mbind res_bind]
    end; reflexivity.
Qed.
End Local.

Lemma hde64_decode_local c1 c2 hs p : readable c1 -> readable c2 ->
  hde64_decode c1 = Ret (hs, p) -> agree p c1 c2 -> hde64_decode c2 = Ret (hs, p).
Proof.
  intros H1 H2. unfold hde64_decode.
  destruct (prefix_loop_ok 16 c1 0 0 (mkPrefixes 0 0 0 0 0 0) H1) as (p0 & c & s & E0 & Hp0 & Hc & Hs & _);
    [lia|lia|by vm_compute|by vm_compute|lia|]. rewrite E0. cbn [mbind res_bind].
  pose proof (prefix_flags (pref s) Hs) as Hfl.
  set (fl := u32 (Z.shiftl (pref s) 23)) in *. set (pr := if pref s =? 0 then PRE_NONE else pref s).
  destruct (rex_stage_ok c1 p0 c fl H1) as (p1 & c' & rex & op64 & rexfl & bad & E1 & Hp1 & Hc1 & Hcl1 & _);
    [lia|done|done|]. rewrite E1. cbn [mbind res_bind].
  destruct (opcode_stage_ok c1 p1 c' pr op64 (Z.lor fl rexfl) bad H1)
    as (o & x & cf & E2 & Hg & Hok & Hcode & _ & Hpo & Hcl2 & _); [lia|done|done|].
  rewrite E2. cbn [mbind res_bind]. rewrite Hg. cbn [mbind res_bind].
  destruct (prefix_check (op_second o) (op_code o) (op_pref o) (op_flags o)) as [fl3|] eqn:E3; [|done].
  cbn [mbind res_bind].
  assert (He3 : adds_errors (op_flags o) fl3).
  { revert E3. unfold prefix_check. destruct (op_second o =? 0); [intros [= <-]; exists 0; rewrite Z.lor_0_r; auto|].
    destruct (lookup2 _ _); cbn; [|done]. intros [= <-]. apply set_if_errors. auto. }
  pose proof (clear_errors _ _ _ Hcl2 He3 all_bits_size) as Hcl3.
  set (stage code := if bit cf C_MODRM
      then modrm_stage code (op_p o) x (op_pref o) (op_second o) (op_code o) cf fl3
      else Ret (no_modrm cf (op_p o) (set_if (bit (op_pref o) PRE_LOCK) fl3 (Z.lor F_ERROR F_ERROR_LOCK)))).
  change (if bit cf C_MODRM then modrm_stage c1 _ _ _ _ _ _ _ else _) with (stage c1).
  change (if bit cf C_MODRM then modrm_stage c2 _ _ _ _ _ _ _ else _) with (stage c2).
  assert (Hm : exists m, stage c1 = Ret m /\ op_p o <= a_p (m_addr m) <= op_p o + 6 /\
    clear (a_flags (m_addr m)) imm_bits /\ bit (m_cflags m) C_REL8 && bit (m_cflags m) C_IMM8 = false /\
    (agree (a_p (m_addr m)) c1 c2 -> stage c2 = Ret m)).
  { unfold stage. destruct (bit cf C_MODRM).
    - destruct (modrm_ok c1 (op_p o) x (op_pref o) (op_second o) (op_code o) cf fl3 H1)
        as (m & E & B1 & _ & B3 & B4); [lia|lia|done|done|]. exists m. split_and!; try done; try lia.
      intros Ha. by apply (modrm_local c1 c2 H1 H2); try lia.
    - eexists; split; [reflexivity|]. cbn.
      pose proof (set_if_errors (bit (op_pref o) PRE_LOCK) fl3 (Z.lor F_ERROR F_ERROR_LOCK) ltac:(auto)) as He.
      split; [lia|]. split; [|split; [|done]].
      + eapply clear_sub; [exact (clear_errors _ _ _ Hcl3 He all_bits_size)|]. cbn. tauto.
      + unfold cflags_ok in Hok. destruct (bit cf C_REL8), (bit cf C_IMM8); done. }
  destruct Hm as (m & E4 & Hm1 & Hm2 & Hm3 & Hm4). rewrite E4. cbn [mbind res_bind].
  destruct (imm_stage_ok c1 (op_pref o) (op_op64 o) (m_cflags m) (a_p (m_addr m)) (a_flags (m_addr m)) H1)
    as (p' & u & fl' & E5 & Hp' & _); [lia|lia|done|done|]. rewrite E5. cbn [mbind res_bind].
  intros Hres Ha. assert (p' = p) as <- by (apply Ret_inj in Hres; congruence).
  destruct (prefix_loop_local c1 c2 16 0 0 _ _ _ _ ltac:(lia) E0) as [_ ->]; [eapply agree_le; [|exact Ha]; lia|].
  cbn [mbind res_bind]. fold fl.
  destruct (rex_stage_local c1 c2 p0 c _ ltac:(lia) E1) as [_ ->]; [eapply agree_le; [|exact Ha]; cbn; lia|].
  cbn [mbind res_bind]. fold pr.
  rewrite (opcode_stage_local c1 c2 p1 c' pr op64 _ bad o ltac:(lia) E2) by (eapply agree_le; [|exact Ha]; lia).
  cbn [mbind res_bind]. rewrite Hg. cbn [mbind res_bind]. rewrite E3. cbn [mbind res_bind].
  fold (stage c2). rewrite Hm4 by (eapply agree_le; [|exact Ha]; lia). cbn [mbind res_bind].
  rewrite (imm_local c1 c2 H1 H2 (op_pref o) (op_op64 o) (m_cflags m) (a_p (m_addr m))
    (a_flags (m_addr m)) p' u fl'); [exact Hres|lia|lia|exact E5|exact Ha].
Qed.

(** The length is that of the bytes passed when the instruction is not too long. *)
Lemma hde64_disasm_local c1 c2 n hs : readable c1 -> readable c2 ->
  hde64_disasm c1 = Ret (n, hs) -> bit (flags hs) F_ERROR_LENGTH = false ->
  agree n c1 c2 -> hde64_disasm c2 = Ret (n, hs).
Proof.
  intros H1 H2 E Hl Ha. destruct (hde64_decode_ok c1 H1) as (hs' & p & Ed & Hp & Hn & H15 & _).
  unfold hde64_disasm in *. rewrite Ed in E. cbn in E. injection E as <- <-.
  destruct (Z.ltb_spec 15 p); [rewrite H15 in Hl by done; discriminate|]. rewrite Hn in Ha.
  by rewrite (hde64_decode_local c1 c2 hs' p H1 H2 Ed Ha).
Qed.

(** An instruction is decoded from its own bytes: code that agrees with it
    on the length it is given decodes to the same length and fields, whatever
    bytes follow. *)
Theorem hde64_self_delimiting c1 c2 n hs :
  bytes_ok c1 -> (40 <= length c1)%nat -> bytes_ok c2 -> (40 <= length c2)%nat ->
  hde64_disasm c1 = Ret (n, hs) -> bit (flags hs) F_ERROR_LENGTH = false ->
  take (Z.to_nat n) c1 = take (Z.to_nat n) c2 -> hde64_disasm c2 = Ret (n, hs).
Proof. intros. by apply (hde64_disasm_local c1 c2). Qed.

Lemma hde64_self_delimiting_witness : exists hs,
  hde64_disasm (take 5 sample_code ++ replicate 40 0x0f) = Ret (5, hs).
Proof.
  assert (H : exists hs, hde64_disasm sample_code = Ret (5, hs) /\ bit (flags hs) F_ERROR_LENGTH = false).
  { eexists. split; [vm_compute; reflexivity|vm_compute; reflexivity]. }
  destruct H as (hs & E & Hf). exists hs.
  apply (hde64_self_delimiting sample_code _ 5 hs sample_ok); [vm_compute; lia| |vm_compute; lia|exact E|exact Hf|reflexivity].
  apply (bool_decide_unpack _). vm_compute. exact I.
Defined.
