(* ===== verification/SubstrateX86.v ===== *)
(** Function hooking on x86: alloctrack/src/main/cpp/Substrate/SubstrateX86.hpp
    (the instruction emitters and their sizes) and the x86 part of
    SubstrateHook.cpp ([SubstrateHookFunction] with [hde64_disasm]).

    A [uint8_t *&current] is a cursor: the address it started from and the
    bytes written since. [ia32] is the constant of the header, true for 32-bit
    builds; addresses wrap at the width it gives. The memory of the hooked
    function is the list of bytes from its first one, the anonymous mapping
    and mprotect are results given to the model, and the stack bytes that
    follow the [backup] array, which the disassembler may look at, are
    arbitrary. The reports under [MSDebug] are left out. *)
From S2P Require Import Prelude Hde64.

Section Emit.
Context (ia32 : bool).

(** [uintptr_t] and [intptr_t]. *)
Definition addr_width : Z := if ia32 then 32 else 64.
Definition uptr (z : Z) : Z := wrap addr_width z.
Definition sptr (z : Z) : Z := swrap addr_width z.

Record cursor := mkCursor { base : Z; out : list Z }.

(** The address that [current] holds. *)
Definition at_addr (c : cursor) : Z := uptr (base c + Z.of_nat (length (out c))).

(** [MSWrite] of an integer of [n] bytes, and of bytes. *)
Definition MSWrite (n : nat) (c : cursor) (value : Z) : cursor :=
  mkCursor (base c) (out c ++ le_bytes n value).
Definition MSWriteBytes (c : cursor) (data : list Z) : cursor :=
  mkCursor (base c) (out c ++ data).

Definition MSIs32BitOffset (target source : Z) : bool :=
  let offset := sptr (target - source) in i32 offset =? offset.

Definition MSSizeOfSkip : Z := 5.

Definition MSSizeOfPushPointer (target : Z) : Z :=
  if Z.shiftr (u64 target) 32 =? 0 then 5 else 13.

Definition MSSizeOfJump_ (blind : bool) (target source : Z) : Z :=
  if ia32 || negb blind && MSIs32BitOffset target (uptr (source + 5))
  then MSSizeOfSkip else MSSizeOfPushPointer target + 1.

(** The overloads with a source and without. *)
Definition MSSizeOfJump (target source : Z) : Z := MSSizeOfJump_ false target source.
Definition MSSizeOfJumpBlind (target : Z) : Z := MSSizeOfJump_ true target 0.

Definition MSWriteSkip (c : cursor) (size : Z) : cursor :=
  MSWrite 4 (MSWrite 1 c 0xe9) size.

Definition MSPushPointer (c : cursor) (target : Z) : cursor :=
  let c := MSWrite 4 (MSWrite 1 c 0x68) target in
  let high := Z.shiftr (u64 target) 32 in
  if high =? 0 then c
  else MSWrite 4 (MSWrite 1 (MSWrite 1 (MSWrite 1 (MSWrite 1 c 0xc7) 0x44) 0x24) 0x04) high.

(** The REX prefix that the register emitters write for [r8] to [r15]. *)
Definition MSWriteRex (c : cursor) (target : Z) : cursor :=
  if Z.shiftr target 3 =? 0 then c
  else MSWrite 1 c (Z.lor 0x40 (Z.shiftr (Z.land target 0x08) 3)).

Definition MSWriteCallReg (c : cursor) (target : Z) : cursor :=
  MSWrite 1 (MSWrite 1 (MSWriteRex c target) 0xff) (Z.lor 0xd0 (Z.land target 0x07)).

Definition MSWriteCall (c : cursor) (target : Z) : cursor :=
  let source := at_addr c in
  if ia32 || MSIs32BitOffset target (uptr (source + 5)) then
    MSWrite 4 (MSWrite 1 c 0xe8) (target - (source + 5))
  else
    fold_left (MSWrite 1) [0x83; 0xc4; 0x08; 0x67; 0xff; 0x54; 0x24; 0xf8] (MSPushPointer c target).

Definition MSWriteJump (c : cursor) (target : Z) : cursor :=
  let source := at_addr c in
  if ia32 || MSIs32BitOffset target (uptr (source + 5)) then
    MSWriteSkip c (sptr (target - (source + 5)))
  else MSWrite 1 (MSPushPointer c target) 0xc3.

Definition MSWriteJumpReg (c : cursor) (target : Z) : cursor :=
  MSWrite 1 (MSWrite 1 (MSWriteRex c target) 0xff) (Z.lor 0xe0 (Z.land target 0x07)).

Definition MSWritePop (c : cursor) (target : Z) : cursor :=
  MSWrite 1 (MSWriteRex c target) (Z.lor 0x58 (Z.land target 0x07)).

Definition MSSizeOfPop (target : Z) : Z := if Z.shiftr target 3 =? 0 then 1 else 2.

Definition MSWritePush (c : cursor) (target : Z) : cursor :=
  MSWrite 1 (MSWriteRex c target) (Z.lor 0x50 (Z.land target 0x07)).

Definition MSWriteAdd (c : cursor) (target source : Z) : cursor :=
  MSWrite 1 (MSWrite 1 (MSWrite 1 c 0x83) (Z.lor 0xc4 (Z.land target 0x07))) source.

Definition MSWriteSet64 (c : cursor) (target source : Z) : cursor :=
  MSWrite 8 (MSWrite 1 (MSWrite 1 c (Z.lor 0x48 (Z.shiftl (Z.shiftr (Z.land target 0x08) 3) 2)))
               (Z.lor 0xb8 (Z.land target 0x7))) source.

Definition MSWriteMove64 (c : cursor) (source target : Z) : cursor :=
  MSWrite 1
    (MSWrite 1
       (MSWrite 1 c (Z.lor (Z.lor 0x48 (Z.shiftl (Z.shiftr (Z.land target 0x08) 3) 2))
                       (Z.shiftr (Z.land source 0x08) 3))) 0x8b)
    (Z.lor (Z.shiftl (Z.land target 0x07) 3) (Z.land source 0x07)).

Definition MSSizeOfMove64 : Z := 3.

(** * SubstrateHook.cpp *)

Definition MSGetInstructionWidthIntel (code : list Z) : res Z :=
  '(n, _) ← hde64_disasm code; Ret n.

(** The loop that finds how many bytes the jump will cover. *)
Fixpoint used_loop (fuel : nat) (area : list Z) (used required : Z) : res (option Z) :=
  if required <=? used then Ret (Some used)
  else
    match fuel with
    | O => Fault OutOfFuel
    | S fuel =>
        width ← MSGetInstructionWidthIntel (drop (Z.to_nat used) area);
        if width =? 0 then Ret None else used_loop fuel area (used + width) required
    end.

(** The tests of the two passes, on an instruction at [code] and its
    decoding: how it is treated. *)
Inductive relocation :=
| RipLoad                  (* mov reg, [rip + disp32] *)
| Call (relative : Z)      (* e8 *)
| Jump (relative : Z)      (* eb, e9 *)
| Branch (relative : Z)    (* e3, 70 to 7f *)
| Copy.

Definition is_rip (d : hde64s) : bool := negb ia32 && (Z.land (modrm d) 0xc7 =? 0x05).

Definition classify (code : list Z) (d : hde64s) : res relocation :=
  if is_rip d then
    Ret (if opcode d =? 0x8b then RipLoad else Copy)
  else
    b ← byte_at code 0;
    if b =? 0xe8 then r ← word_at code 1 4; Ret (Call (i32 r))
    else if b =? 0xeb then r ← byte_at code 1; Ret (Jump (i8 r))
    else if b =? 0xe9 then r ← word_at code 1 4; Ret (Jump (i32 r))
    else if (b =? 0xe3) || (Z.land b 0xf0 =? 0x70) then
      r ← byte_at code 1; Ret (Branch (i8 r))
    else Ret Copy.

(** The register and the address of a load from [rip]; [next] is the address
    of the instruction that follows. *)
Definition rip_reg (d : hde64s) : Z := Z.lor (Z.shiftl (rex_r d) 3) (modrm_reg d).
Definition rip_destiny (d : hde64s) (next : Z) : Z := uptr (next + i32 (disp d)).

(** The first pass, on one instruction: what it adds to [length]. *)
Definition measure_one (code : list Z) (d : hde64s) (next : Z) : res Z :=
  k ← classify code d;
  Ret (match k with
       | RipLoad =>
           - len d + MSSizeOfPushPointer (rip_destiny d next) + MSSizeOfPop (rip_reg d)
             + MSSizeOfMove64
       | Call relative =>
           let destiny := uptr (next + relative) in
           if relative =? 0 then - len d + MSSizeOfPushPointer destiny
           else MSSizeOfSkip + MSSizeOfJumpBlind destiny
       | Jump relative => - len d + MSSizeOfJumpBlind (uptr (next + relative))
       | Branch relative => len d + MSSizeOfJumpBlind (uptr (next + relative))
       | Copy => 0
       end).

(** The second pass, on one instruction. *)
Definition relocate_one (code : list Z) (d : hde64s) (next : Z) (c : cursor) : res cursor :=
  k ← classify code d;
  match k with
  | RipLoad =>
      let reg := rip_reg d in
      Ret (MSWriteMove64 (MSWritePop (MSPushPointer c (rip_destiny d next)) reg) reg reg)
  | Call relative =>
      if relative =? 0 then Ret (MSPushPointer c next)
      else
        let c := MSWrite 4 (MSWrite 1 c 0xe8) MSSizeOfSkip in
        let destiny := uptr (next + relative) in
        let c := MSWriteSkip c (MSSizeOfJump destiny (uptr (at_addr c + MSSizeOfSkip))) in
        Ret (MSWriteJump c destiny)
  | Jump relative => Ret (MSWriteJump c (uptr (next + relative)))
  | Branch relative =>
      b ← byte_at code 0;
      let c := MSWrite 1 (MSWrite 1 (MSWrite 1 c b) 2) 0xeb in
      let destiny := uptr (next + relative) in
      let c := MSWrite 1 c (MSSizeOfJump destiny (uptr (at_addr c + 1))) in
      Ret (MSWriteJump c destiny)
  | Copy =>
      data ← load code 0 (Z.to_nat (len d));
      Ret (MSWriteBytes c data)
  end.

(** The two [for] loops over the backup; [code] is [backup + offset]. *)
Fixpoint measure_loop (fuel : nat) (code : list Z) (area offset used length : Z) : res Z :=
  if offset =? used then Ret length
  else
    match fuel with
    | O => Fault OutOfFuel
    | S fuel =>
        '(width, d) ← hde64_disasm code;
        delta ← measure_one code d (uptr (area + offset + width));
        measure_loop fuel (drop (Z.to_nat width) code) area (offset + width) used (length + delta)
    end.

Fixpoint relocate_loop (fuel : nat) (code : list Z) (area offset used : Z) (c : cursor) : res cursor :=
  if offset =? used then Ret c
  else
    match fuel with
    | O => Fault OutOfFuel
    | S fuel =>
        '(width, d) ← hde64_disasm code;
        c ← relocate_one code d (uptr (area + offset + width)) c;
        relocate_loop fuel (drop (Z.to_nat width) code) area (offset + width) used c
    end.

(** What a call does: the memory of the function after it, and what it has
    written to [*result]. *)
Inductive result_value :=
| NotWritten
| Null
| Address (a : Z)
| Deref (a : Z)                        (* the pointer stored at an address *)
| Trampoline (buffer length : Z) (code : list Z).

Record outcome := mkOutcome { memory : list Z; result : result_value }.

Definition install (area : list Z) (source target used blank : Z) : res (list Z) :=
  let c := MSWriteJump (mkCursor source []) target in
  let c := MSWriteBytes c (replicate (Z.to_nat blank) 0x90) in
  store area 0 (out c).

(** [buffer] is what mmap gives, [None] for MAP_FAILED; [protect] says
    whether mprotect succeeds; [beyond] is the memory after [backup]. *)
Definition SubstrateHookFunction (area beyond : list Z) (source target : Z)
    (want_result : bool) (buffer : option Z) (protect : bool) : res outcome :=
  if source =? 0 then Ret (mkOutcome area NotWritten)
  else
    let required := MSSizeOfJump target source in
    used ← used_loop (Z.to_nat required) area 0 required;
    match used with
    | None => Ret (mkOutcome area NotWritten)
    | Some used =>
        let blank := used - required in
        backup ← load area 0 (Z.to_nat used);
        if want_result then
          b0 ← byte_at backup 0;
          b1 ← byte_at backup 1;
          if b0 =? 0xe9 then
            r ← word_at backup 1 4;
            Ret (mkOutcome area (Address (uptr (source + 5 + r))))
          else if negb ia32 && (b0 =? 0xff) && (b1 =? 0x25) then
            r ← word_at backup 2 4;
            Ret (mkOutcome area (Deref (uptr (source + 6 + r))))
          else
            let code := backup ++ beyond in
            length ← measure_loop (Z.to_nat used) code source 0 used
                       (used + MSSizeOfJumpBlind (uptr (source + used)));
            match buffer with
            | None => Ret (mkOutcome area Null)
            | Some buffer =>
                c ← relocate_loop (Z.to_nat used) code source 0 used (mkCursor buffer []);
                let c := MSWriteJump c (uptr (source + used)) in
                if protect then
                  area ← install area source target used blank;
                  Ret (mkOutcome area (Trampoline buffer length (out c)))
                else Ret (mkOutcome area Null)
            end
        else
          area ← install area source target used blank;
          Ret (mkOutcome area NotWritten)
    end.
End Emit.

(** * Sizes *)

Section Sizes.
Context (ia32 : bool).

Definition out_length (c : cursor) : Z := Z.of_nat (length (out c)).

Lemma MSWrite_length n c v : out_length (MSWrite n c v) = out_length c + Z.of_nat n.
Proof. unfold out_length, MSWrite. cbn. rewrite length_app, length_le_bytes. lia. Qed.

Lemma MSWriteBytes_length c data : out_length (MSWriteBytes c data) = out_length c + Z.of_nat (length data).
Proof. unfold out_length, MSWriteBytes. cbn. rewrite length_app. lia. Qed.

Create Rewrite HintDb emitted.
Hint Rewrite MSWrite_length MSWriteBytes_length : emitted.

Lemma MSPushPointer_length c target :
  out_length (MSPushPointer c target) = out_length c + MSSizeOfPushPointer target.
Proof.
  unfold MSPushPointer, MSSizeOfPushPointer. case_match; autorewrite with emitted; lia.
Qed.

Lemma MSWriteRex_length c r : out_length (MSWriteRex c r) = out_length c + MSSizeOfPop r - 1.
Proof.
  unfold MSWriteRex, MSSizeOfPop. case_match; autorewrite with emitted; lia.
Qed.

Lemma MSWritePop_length c r : out_length (MSWritePop c r) = out_length c + MSSizeOfPop r.
Proof. unfold MSWritePop. rewrite MSWrite_length, MSWriteRex_length. lia. Qed.

Lemma MSWriteMove64_length c s t : out_length (MSWriteMove64 c s t) = out_length c + MSSizeOfMove64.
Proof. unfold MSWriteMove64, MSSizeOfMove64. autorewrite with emitted. lia. Qed.

Lemma MSWriteSkip_length c size : out_length (MSWriteSkip c size) = out_length c + MSSizeOfSkip.
Proof. unfold MSWriteSkip, MSSizeOfSkip. autorewrite with emitted. lia. Qed.

Lemma MSWriteJump_length c target :
  out_length (MSWriteJump ia32 c target) = out_length c + MSSizeOfJump ia32 target (at_addr ia32 c).
Proof.
  unfold MSWriteJump, MSSizeOfJump, MSSizeOfJump_. cbn [negb andb].
  destruct (ia32 || _); [apply MSWriteSkip_length|].
  rewrite MSWrite_length, MSPushPointer_length. lia.
Qed.

Lemma size_push_range target : 5 <= MSSizeOfPushPointer target <= 13.
Proof. unfold MSSizeOfPushPointer. case_match; lia. Qed.

(** The size asked for without a source is enough for any source. *)
Lemma size_jump_blind target source :
  5 <= MSSizeOfJump ia32 target source <= MSSizeOfJumpBlind ia32 target /\
  MSSizeOfJumpBlind ia32 target <= 14.
Proof.
  unfold MSSizeOfJump, MSSizeOfJumpBlind, MSSizeOfJump_, MSSizeOfSkip. cbn [negb andb].
  pose proof (size_push_range target). destruct ia32; cbn [orb]; [lia|].
  destruct (MSIs32BitOffset _ _ _); lia.
Qed.

(** * Walking over the instructions *)

(** From offset [o] the code decodes to the instructions [ws] and ends at [u];
    none of them is in error for its length. *)
Fixpoint chain (area : list Z) (o : Z) (ws : list (Z * hde64s)) (u : Z) : Prop :=
  match ws with
  | [] => o = u
  | (n, d) :: ws =>
      hde64_disasm (drop (Z.to_nat o) area) = Ret (n, d) /\
      1 <= n <= 15 /\ n = len d /\ bit (flags d) F_ERROR_LENGTH = false /\ chain area (o + n) ws u
  end.

Lemma readable_drop (area : list Z) o : bytes_ok area -> (Z.to_nat o + 40 <= length area)%nat ->
  readable (drop (Z.to_nat o) area).
Proof. intros Hb Hl. split; [by apply Forall_drop|rewrite length_drop; lia]. Qed.

Lemma disasm_range code n d : readable code -> hde64_disasm code = Ret (n, d) -> 1 <= n <= 15 /\ n = len d.
Proof.
  intros Hr. destruct (hde64_decode_ok code Hr) as (hs & p & E & Hp & Hn & _).
  unfold hde64_disasm. rewrite E. cbn. intros [= <- <-]. split; [|done]. rewrite Hn.
  destruct (Z.ltb_spec 15 p); lia.
Qed.

Lemma disasm_total code : readable code -> exists n d, hde64_disasm code = Ret (n, d).
Proof.
  intros Hr. destruct (hde64_decode_ok code Hr) as (hs & p & E & _). unfold hde64_disasm. rewrite E. cbn. eauto.
Qed.

Lemma chain_le area o ws u : chain area o ws u -> o + Z.of_nat (length ws) <= u.
Proof.
  revert o; induction ws as [|[n d] ws IH]; intros o; cbn [chain length]; [intros ->; lia|].
  intros (_ & Hn & _ & _ & Hc). apply IH in Hc. lia.
Qed.

(** The offsets at which the instructions of the function begin. *)
Inductive boundary (area : list Z) : Z -> Prop :=
| boundary_0 : boundary area 0
| boundary_next o n d :
    boundary area o -> hde64_disasm (drop (Z.to_nat o) area) = Ret (n, d) -> boundary area (o + n).

(** No instruction that begins before [required] is in error for its length. *)
Definition decodable (area : list Z) (required : Z) : Prop :=
  forall o n d, boundary area o -> o < required ->
    hde64_disasm (drop (Z.to_nat o) area) = Ret (n, d) -> bit (flags d) F_ERROR_LENGTH = false.

Lemma used_loop_ok fuel area used required : bytes_ok area ->
  (Z.to_nat required + 60 <= length area)%nat -> decodable area required ->
  0 <= used -> boundary area used -> required - used <= Z.of_nat fuel -> exists u ws,
  used_loop fuel area used required = Ret (Some u) /\ chain area used ws u /\
  (required <= u) /\ (used <= required -> u <= required + 14).
Proof.
  intros Hb Hl Hdec. revert used; induction fuel as [|fuel IH]; intros used H0 Hbd Hf; cbn [used_loop];
    destruct (Z.leb_spec required used); try (exists used, []; split; [done|]; split; [done|]; lia); [lia|].
  unfold MSGetInstructionWidthIntel.
  assert (Hr : readable (drop (Z.to_nat used) area)) by (apply readable_drop; [done|lia]).
  destruct (disasm_total _ Hr) as (n & d & E). rewrite E. cbn [mbind res_bind].
  destruct (disasm_range _ n d Hr E) as [Hn Hnd]. destruct (Z.eqb_spec n 0); [lia|].
  destruct (IH (used + n)) as (u & ws & Eu & Hc & Hu1 & Hu2);
    [lia|by eapply boundary_next|lia|].
  exists u, ((n, d) :: ws). split; [done|]. split.
  - cbn. split_and!; try done; try lia. by apply (Hdec used n).
  - split; [done|]. intros _. destruct (decide (used + n <= required)); [lia|].
    pose proof (chain_le _ _ _ _ Hc). destruct fuel as [|fuel]; cbn [used_loop] in Eu;
      destruct (Z.leb_spec required (used + n)); try lia; injection Eu as <-; lia.
Qed.

(** The same instructions, decoded from the copy of the first [u] bytes. *)
Definition copy_at (area beyond : list Z) (u o : Z) : list Z :=
  drop (Z.to_nat o) (take (Z.to_nat u) area ++ beyond).

Lemma copy_decodes area beyond u o n d : bytes_ok area -> bytes_ok beyond -> (40 <= length beyond)%nat ->
  (Z.to_nat u + 40 <= length area)%nat -> 0 <= o -> 1 <= n -> o + n <= u ->
  hde64_disasm (drop (Z.to_nat o) area) = Ret (n, d) -> bit (flags d) F_ERROR_LENGTH = false ->
  hde64_disasm (copy_at area beyond u o) = Ret (n, d) /\ readable (copy_at area beyond u o).
Proof.
  intros Hb Hbe Hlb Hl Ho Hn Hou E Hf.
  assert (Hr : readable (copy_at area beyond u o)).
  { unfold copy_at. split.
    - apply Forall_drop, Forall_app. split; [by apply Forall_take|done].
    - rewrite length_drop, length_app, length_take. lia. }
  split; [|done]. apply (hde64_disasm_local (drop (Z.to_nat o) area)); try done.
  - apply readable_drop; [done|lia].
  - unfold agree, copy_at.
    rewrite drop_app_le by (rewrite length_take; lia).
    rewrite take_app_le by (rewrite length_drop, length_take; lia).
    rewrite <- (take_drop_commute (take (Z.to_nat u) area)) || idtac.
    rewrite !take_drop_commute, take_take. do 2 f_equal. lia.
Qed.

(** ** Opcodes without ModRM *)

(** A one-byte opcode, with no prefix and no ModRM byte, whose flags are [cf]. *)
Definition plain (b cf : Z) : bool :=
  negb (is_prefix b) && negb (Z.land b 0xf0 =? 0x40) && negb (b =? 0x0f) &&
  negb ((0xa0 <=? b) && (b <=? 0xa3)) && bool_decide (lookup2 0 b = Ret cf) &&
  negb (cf =? C_ERROR) && negb (bit cf C_GROUP) && negb (bit cf C_MODRM).

Lemma plain_length code b cf : readable code -> byte_at code 0 = Ret b -> plain b cf = true ->
  bit cf C_REL8 && bit cf C_IMM8 = false -> exists p u fl d,
  imm_stage code PRE_NONE 0 cf (1, 0, 0) = Ret (p, u, fl) /\
  (p <= 15 -> hde64_disasm code = Ret (p, d)).
Proof.
  intros Hr E Hp Hex. unfold plain in Hp. rewrite !andb_true_iff, !negb_true_iff in Hp.
  destruct Hp as [[[[[[[P1 P2] P3] P4] P5] P6] P7] P8]. apply bool_decide_eq_true in P5.
  destruct (imm_stage_ok code PRE_NONE 0 cf 1 0 Hr) as (p & u & fl & Ei & Hpr & _);
    [lia|lia|repeat constructor; reflexivity|done|].
  exists p, u, fl. eexists. split; [done|]. unfold hde64_disasm, hde64_decode. cbn [prefix_loop].
  rewrite E. cbn [mbind res_bind].
  destruct (prefix b (mkPrefixes 0 0 0 0 0 0)) as [s|] eqn:Epre.
  { pose proof (proj1 (prefix_is b (mkPrefixes 0 0 0 0 0 0))) as H. rewrite Epre, P1 in H.
    by specialize (H ltac:(eauto)). }
  cbn [mbind res_bind]. unfold rex_stage. rewrite P2. cbn [mbind res_bind pref].
  unfold opcode_stage. rewrite P3, P4. cbn [mbind res_bind]. rewrite P5. cbn [mbind res_bind op_cflags].
  rewrite P6. cbn [mbind res_bind op_cflags op_ht op_second op_code op_pref op_flags op_p op_op64 op_first].
  unfold group_stage. rewrite P7. cbn [mbind res_bind]. unfold prefix_check. cbn [Z.eqb mbind res_bind].
  rewrite P8. cbn [mbind res_bind m_addr m_byte m_cflags no_modrm a_p a_flags].
  change (if 0 =? 0 then PRE_NONE else 0) with PRE_NONE. change (0 + 1) with 1.
  change (set_if (bit PRE_NONE PRE_LOCK) (Z.lor (u32 (Z.shiftl 0 23)) 0) (Z.lor F_ERROR F_ERROR_LOCK)) with 0.
  rewrite Ei. cbn [mbind res_bind]. rewrite wrap_small by (split; [lia|]; change (2 ^ 8) with 256; lia).
  intros H15. destruct (Z.ltb_spec 15 p); [lia|]. reflexivity.
Qed.

(** The lengths of a relative call, and of a short conditional jump. *)
Lemma call_length code n d : readable code -> byte_at code 0 = Ret 0xe8 ->
  hde64_disasm code = Ret (n, d) -> n = 5.
Proof.
  intros Hr Hb E. destruct (plain_length code 0xe8 0x50 Hr Hb) as (p & u & fl & d' & Ei & Ed); [reflexivity|reflexivity|].
  unfold imm_stage in Ei. change (bit 0x50 C_IMM_P66) with true in Ei. change (bit 0x50 C_REL32) with true in Ei.
  cbn [andb] in Ei. change (bit PRE_NONE PRE_66) with false in Ei. cbn iota in Ei.
  apply take_imm_inv in Ei as (u' & Ei). injection Ei as -> _ _. rewrite Ed in E by lia. by injection E.
Qed.

Lemma branch_length code b n d : readable code -> byte_at code 0 = Ret b ->
  (b =? 0xe3) || (Z.land b 0xf0 =? 0x70) = true -> hde64_disasm code = Ret (n, d) -> n = 2.
Proof.
  intros Hr Hb Hbr E. destruct (byte_at_ok code 0 Hr) as (b' & Eb & Hrange); [lia|].
  rewrite Hb in Eb. apply Ret_inj in Eb as <-.
  assert (Hpl : plain b 0x20 = true).
  { pose proof (bytes_forallb (fun b => negb ((b =? 0xe3) || (Z.land b 0xf0 =? 0x70)) || plain b 0x20)
      ltac:(vm_compute; reflexivity) b Hrange) as H. cbn beta in H. by rewrite Hbr in H. }
  destruct (plain_length code b 0x20 Hr Hb Hpl) as (p & u & fl & d' & Ei & Ed); [reflexivity|].
  unfold imm_stage, imm_tail in Ei. change (bit 0x20 C_IMM_P66) with false in Ei.
  change (bit 0x20 C_REL32) with false in Ei. change (bit 0x20 C_IMM16) with false in Ei.
  change (bit 0x20 C_IMM8) with false in Ei. change (bit 0x20 C_REL8) with true in Ei.
  cbn [andb orb mbind res_bind] in Ei.
  apply take_imm_inv in Ei as (u' & Ei). injection Ei as -> _ _. rewrite Ed in E by lia. by injection E.
Qed.


(** An indirect jump through [rip] has at least six bytes. *)
Lemma jump_rip_length code n d : readable code -> byte_at code 0 = Ret 0xff -> byte_at code 1 = Ret 0x25 ->
  hde64_disasm code = Ret (n, d) -> 6 <= n.
Proof.
  intros Hr E0 E1. unfold hde64_disasm, hde64_decode. cbn [prefix_loop]. rewrite E0. cbn [mbind res_bind].
  change (prefix 0xff (mkPrefixes 0 0 0 0 0 0)) with (@None prefixes). cbn [mbind res_bind pref].
  change (0 + 1) with 1. change (if 0 =? 0 then PRE_NONE else 0) with PRE_NONE.
  change (rex_stage code 1 0xff) with (Ret (1, 0xff, mkRex 0 0 0 0, 0, 0, false) : res (Z * Z * rex_bits * Z * Z * bool)).
  cbn [mbind res_bind].
  assert (Eop : exists o, opcode_stage code 1 0xff PRE_NONE 0 (Z.lor (u32 (Z.shiftl 0 23)) 0) false = Ret o /\
     op_p o = 1 /\ op_pref o = PRE_NONE /\ op_second o = 0 /\ op_code o = 0xff /\ op_flags o = 0 /\ op_op64 o = 0 /\
     exists cf x, group_stage (op_ht o) (op_cflags o) = Ret (cf, x) /\ bit cf C_MODRM = true /\
       cflags_ok 0xff cf = true).
  { eexists. split; [vm_compute; reflexivity|]. do 6 (split; [vm_compute; reflexivity|]).
    eexists _, _. split; [vm_compute; reflexivity|]. split; vm_compute; reflexivity. }
  destruct Eop as (o & Eo & Ep & Epr & Es & Ec & Ef & E64 & cf & x & Eg & Hm & Hok).
  rewrite Eo. cbn [mbind res_bind]. rewrite Eg. cbn [mbind res_bind]. rewrite Ep, Epr, Es, Ec, Ef, E64.
  unfold prefix_check. cbn [Z.eqb mbind res_bind]. rewrite Hm.
  destruct (modrm_ok code 1 x PRE_NONE 0 0xff cf 0 Hr) as (m & Em & _ & _ & Hclr & Hcf);
    [lia|lia|repeat constructor; reflexivity|done|].
  assert (Hap : a_p (m_addr m) = 6).
  { revert Em. unfold modrm_stage. rewrite E1. cbn [mbind res_bind].
    change (Z.land 0x25 7) with 5. change (Z.shiftr 0x25 6) with 0.
    change (Z.shiftr (Z.land 0x25 0x3f) 3) with 4. change (fpu_check 0 255 0 4 5) with (fun fl : Z => Ret fl).
    cbn beta. cbn [mbind res_bind]. change (lock_check PRE_NONE 0 255 0 4) with (fun fl : Z => Ret fl).
    cbn beta. cbn [mbind res_bind]. change (operand_check PRE_NONE 0 255 0 4) with (Ret (false, 0) : res (bool * Z)).
    cbn [mbind res_bind]. change (4 <=? 1) with false. cbn iota. change (1 + 1) with 2.
    destruct (addressing_stage code 2 PRE_NONE 0 5 _) as [a|] eqn:Ea; [|done]. cbn [mbind res_bind].
    intros [= <-]. cbn [m_addr]. revert Ea. unfold addressing_stage.
    destruct (byte_at code 2); [|done]. cbn [mbind res_bind].
    change (disp_size_of PRE_NONE 0 5) with 4. cbn [Z.eqb negb andb Pos.eqb].
    destruct (word_at code 2 _); [|done]. cbn [mbind res_bind]. by intros [= <-]. }
  rewrite Em. cbn [mbind res_bind].
  destruct (imm_stage_ok code PRE_NONE 0 (m_cflags m) (a_p (m_addr m)) (a_flags (m_addr m)) Hr)
    as (p' & u & fl' & -> & Hp' & _); [lia|lia|done|done|]. cbn [mbind res_bind len].
  rewrite wrap_small by (split; [lia|]; change (2 ^ 8) with 256; lia).
  intros [= <- _]. destruct (Z.ltb_spec 15 p'); lia.
Qed.

(** ** Relocation *)

Lemma uptr_idem z : uptr ia32 (uptr ia32 z) = uptr ia32 z.
Proof. unfold uptr. apply wrap_wrap. unfold addr_width. by destruct ia32. Qed.

(** What [classify] has seen when it gives a call or a branch. *)
Lemma classify_inv code d k : classify ia32 code d = Ret k ->
  match k with
  | Call _ => byte_at code 0 = Ret 0xe8
  | Branch _ => exists b, byte_at code 0 = Ret b /\ (b =? 0xe3) || (Z.land b 0xf0 =? 0x70) = true
  | _ => True
  end.
Proof.
  unfold classify. destruct (is_rip ia32 d); [destruct (_ =? _); by intros [= <-]|].
  destruct (byte_at code 0) as [b|]; [|done]. cbn [mbind res_bind].
  destruct (Z.eqb_spec b 0xe8) as [->|].
  { destruct (word_at _ _ _); cbn; [|done]. by intros [= <-]. }
  destruct (b =? 0xeb).
  { destruct (byte_at code 1); cbn; [|done]. by intros [= <-]. }
  destruct (b =? 0xe9).
  { destruct (word_at _ _ _); cbn; [|done]. by intros [= <-]. }
  destruct (_ || _) eqn:Eb; [|by intros [= <-]].
  destruct (byte_at code 1); cbn; [|done]. intros [= <-]. eauto.
Qed.

Lemma classify_ok code d : readable code -> exists k, classify ia32 code d = Ret k.
Proof.
  intros Hr. unfold classify. destruct (is_rip ia32 d); [eauto|].
  destruct (byte_at_ok code 0 Hr) as (b & -> & _); [lia|].
  destruct (byte_at_ok code 1 Hr) as (r & -> & _); [lia|].
  destruct (word_at_ok code 1 4 Hr) as (v & ->); [lia|lia|].
  cbn [mbind res_bind]. repeat case_match; eauto.
Qed.

(** One instruction: both passes succeed, and the second writes no more than
    the first has counted. *)
Lemma one_fits code d next c : readable code -> hde64_disasm code = Ret (len d, d) ->
  uptr ia32 next = next -> exists delta c',
  measure_one ia32 code d next = Ret delta /\ relocate_one ia32 code d next c = Ret c' /\
  out_length c' <= out_length c + len d + delta.
Proof.
  intros Hr Ed Hnext. destruct (disasm_range code (len d) d Hr Ed) as [Hn _].
  unfold measure_one, relocate_one.
  destruct (classify_ok code d Hr) as [k Ek]. pose proof (classify_inv code d k Ek) as Hk. rewrite Ek.
  cbn [mbind res_bind]. destruct k as [|r|r|r|].
  - eexists _, _. split; [done|]. split; [done|].
    rewrite MSWriteMove64_length, MSWritePop_length, MSPushPointer_length. lia.
  - pose proof (call_length code (len d) d Hr Hk Ed) as H5. destruct (Z.eqb_spec r 0) as [->|].
    + eexists _, _. split; [done|]. split; [done|]. rewrite MSPushPointer_length, Z.add_0_r, Hnext. lia.
    + eexists _, _. split; [done|]. split; [done|].
      rewrite MSWriteJump_length, MSWriteSkip_length, !MSWrite_length. unfold MSSizeOfSkip.
      match goal with |- context [MSSizeOfJump ia32 ?t (at_addr ia32 ?c0)] =>
        pose proof (size_jump_blind t (at_addr ia32 c0)) end. lia.
  - eexists _, _. split; [done|]. split; [done|]. rewrite MSWriteJump_length.
    pose proof (size_jump_blind (uptr ia32 (next + r)) (at_addr ia32 c)). lia.
  - destruct Hk as (b & Hb & Hbr). pose proof (branch_length code b (len d) d Hr Hb Hbr Ed).
    rewrite Hb. cbn [mbind res_bind]. eexists _, _. split; [done|]. split; [done|].
    rewrite MSWriteJump_length, !MSWrite_length.
    match goal with |- context [MSSizeOfJump ia32 ?t (at_addr ia32 (MSWrite 1 ?c0 ?v))] =>
      pose proof (size_jump_blind t (at_addr ia32 (MSWrite 1 c0 v))) end. lia.
  - rewrite load_in_bounds by (destruct Hr; lia). cbn [mbind res_bind].
    eexists _, _. split; [done|]. split; [done|]. rewrite MSWriteBytes_length, length_take, length_drop.
    destruct Hr. lia.
Qed.

Lemma drop_copy area beyond u o n : 0 <= o -> 0 <= n ->
  drop (Z.to_nat n) (copy_at area beyond u o) = copy_at area beyond u (o + n).
Proof. intros. unfold copy_at. rewrite drop_drop. f_equal. lia. Qed.

(** The two passes over the copied instructions. *)
Lemma loops_fit area beyond source u : bytes_ok area -> bytes_ok beyond -> (40 <= length beyond)%nat ->
  (Z.to_nat u + 40 <= length area)%nat ->
  forall ws o fuel length c, 0 <= o -> chain area o ws u -> (List.length ws <= fuel)%nat ->
  exists length' c',
  measure_loop ia32 fuel (copy_at area beyond u o) source o u length = Ret length' /\
  relocate_loop ia32 fuel (copy_at area beyond u o) source o u c = Ret c' /\
  out_length c' <= out_length c + (u - o) + (length' - length).
Proof.
  intros Hb Hbe Hlb Hl. induction ws as [|[n d] ws IH]; intros o fuel length c Ho Hc Hf.
  - cbn in Hc. subst o. exists length, c.
    destruct fuel; cbn [measure_loop relocate_loop]; rewrite Z.eqb_refl; split; [done| |done|]; split; done || lia.
  - cbn [chain] in Hc. destruct Hc as (E & Hn & Hnd & Hfl & Hc). cbn [List.length] in Hf.
    pose proof (chain_le _ _ _ _ Hc) as Hle.
    destruct (copy_decodes area beyond u o n d) as [Ed Hr]; try done; try lia.
    destruct fuel as [|fuel]; [lia|]. cbn [measure_loop relocate_loop].
    destruct (Z.eqb_spec o u); [lia|]. rewrite Ed. cbn [mbind res_bind].
    destruct (one_fits (copy_at area beyond u o) d (uptr ia32 (source + o + n)) c Hr) as (delta & c1 & -> & -> & H1);
      [by rewrite <- Hnd|apply uptr_idem|]. cbn [mbind res_bind]. rewrite drop_copy by lia.
    destruct (IH (o + n) fuel (length + delta) c1) as (length' & c' & -> & -> & H2); [lia|done|lia|].
    exists length', c'. split; [done|]. split; [done|]. lia.
Qed.

(** What a call may assume of the process: the code of the function is mapped
    well past the bytes it moves, it decodes without length errors, and it is
    not at address 0; the bytes beyond the copy are readable. *)
Record hookable (area beyond : list Z) (source target : Z) : Prop := {
  hookable_area : bytes_ok area;
  hookable_length : (80 <= length area)%nat;
  hookable_beyond : bytes_ok beyond /\ (40 <= length beyond)%nat;
  hookable_source : source <> 0;
  hookable_decodes : decodable area (MSSizeOfJump ia32 target source);
}.

Lemma hookable_used area beyond source target : hookable area beyond source target ->
  exists u ws, used_loop (Z.to_nat (MSSizeOfJump ia32 target source)) area 0 (MSSizeOfJump ia32 target source)
    = Ret (Some u) /\ chain area 0 ws u /\
    MSSizeOfJump ia32 target source <= u <= MSSizeOfJump ia32 target source + 14 /\ u <= 28.
Proof.
  intros [Ha Hl Hb Hs Hd]. pose proof (size_jump_blind target source).
  destruct (used_loop_ok (Z.to_nat (MSSizeOfJump ia32 target source)) area 0 (MSSizeOfJump ia32 target source))
    as (u & ws & E & Hc & H1 & H2); [done|lia|done|lia|constructor|lia|].
  exists u, ws. split; [done|]. split; [done|]. lia.
Qed.

Lemma install_ok area source target used : (80 <= length area)%nat -> source = uptr ia32 source ->
  MSSizeOfJump ia32 target source <= used <= 28 ->
  install ia32 area source target used (used - MSSizeOfJump ia32 target source)
  = Ret (out (MSWriteJump ia32 (mkCursor source []) target)
         ++ replicate (Z.to_nat (used - MSSizeOfJump ia32 target source)) 0x90
         ++ drop (Z.to_nat used) area).
Proof.
  intros Hl Hs Hu. unfold install.
  set (c := MSWriteJump ia32 (mkCursor source []) target).
  assert (Hc : Z.of_nat (length (out c)) = MSSizeOfJump ia32 target source).
  { change (out_length c = MSSizeOfJump ia32 target source). unfold c. rewrite MSWriteJump_length.
    unfold out_length, at_addr. cbn. by rewrite Z.add_0_r, <- Hs. }
  assert (Hlen : length (out (MSWriteBytes c (replicate (Z.to_nat (used - MSSizeOfJump ia32 target source)) 144))) = Z.to_nat used).
  { cbn. rewrite length_app, length_replicate. pose proof (size_jump_blind target source). lia. }
  rewrite store_in_bounds by (rewrite Hlen; lia). rewrite Hlen. cbn [take app Nat.add out MSWriteBytes].
  by rewrite <- app_assoc.
Qed.

Lemma byte_at_take l u p b : byte_at (take (Z.to_nat u) l) p = Ret b -> byte_at l p = Ret b.
Proof.
  unfold byte_at. rewrite lookup_take. case_decide; [|done]. done.
Qed.

Lemma backup_jump_rip area u ws : bytes_ok area -> (Z.to_nat u + 40 <= length area)%nat ->
  5 <= u -> chain area 0 ws u -> byte_at (take (Z.to_nat u) area) 0 = Ret 0xff ->
  byte_at (take (Z.to_nat u) area) 1 = Ret 0x25 -> 6 <= u.
Proof.
  intros Ha Hl Hu Hc H0 H1. destruct ws as [|[n d] ws]; cbn [chain] in Hc; [lia|].
  destruct Hc as (E & _ & _ & _ & Hc). pose proof (chain_le _ _ _ _ Hc).
  change (drop (Z.to_nat 0) area) with area in E. apply byte_at_take in H0, H1.
  assert (Hr : readable area) by (split; [done|lia]).
  pose proof (jump_rip_length area n d Hr H0 H1 E). lia.
Qed.

Lemma hook_ok area beyond source target want buffer protect : hookable area beyond source target ->
  source = uptr ia32 source -> exists u,
  MSSizeOfJump ia32 target source <= u <= 28 /\ exists o,
  SubstrateHookFunction ia32 area beyond source target want buffer protect = Ret o /\
  (forall b l code, result o = Trampoline b l code -> Z.of_nat (length code) <= l) /\
  (memory o = area \/
   memory o = out (MSWriteJump ia32 (mkCursor source []) target)
              ++ replicate (Z.to_nat (u - MSSizeOfJump ia32 target source)) 0x90
              ++ drop (Z.to_nat u) area) /\
  (want = false -> memory o <> area -> result o = NotWritten) /\
  ((want = false \/ exists b l code, result o = Trampoline b l code) ->
    memory o = out (MSWriteJump ia32 (mkCursor source []) target)
              ++ replicate (Z.to_nat (u - MSSizeOfJump ia32 target source)) 0x90
              ++ drop (Z.to_nat u) area).
Proof.
  intros Hh Hsrc. destruct (hookable_used _ _ _ _ Hh) as (u & ws & Eu & Hc & Hu & Hu28).
  pose proof Hh as [Ha Hl [Hb Hlb] Hs Hd]. exists u. split; [lia|].
  pose proof (size_jump_blind target source) as Hsz.
  unfold SubstrateHookFunction. destruct (Z.eqb_spec source 0); [done|]. rewrite Eu. cbn [mbind res_bind].
  rewrite load_in_bounds by lia. cbn [mbind res_bind]. change (drop 0 area) with area.
  rewrite (install_ok area source target u Hl Hsrc) by lia.
  destruct want; cbn [mbind res_bind].
  2: { eexists. split; [done|]. cbn. split; [done|]. split; [by right|]. done. }
  set (backup := take (Z.to_nat u) area).
  assert (Hbl : Z.of_nat (length backup) = u) by (unfold backup; rewrite length_take; lia).
  assert (Hby : forall p, 0 <= p < u -> exists b, byte_at backup p = Ret b).
  { intros p Hp. unfold byte_at. destruct (lookup_lt_is_Some_2 backup (Z.to_nat p)) as [b ->]; [lia|]. by exists b. }
  assert (Hwd : forall p, 0 <= p -> p + 4 <= u -> exists v, word_at backup p 4 = Ret v).
  { intros p Hp1 Hp2. unfold word_at. rewrite load_in_bounds by lia. cbn. eauto. }
  destruct (Hby 0) as [b0 E0]; [lia|]. destruct (Hby 1) as [b1 E1]; [lia|]. rewrite E0, E1. cbn [mbind res_bind].
  destruct (b0 =? 0xe9).
  { destruct (Hwd 1) as [v ->]; [lia|lia|]. cbn. eexists. split; [done|]. cbn.
    split; [done|]. split; [by left|]. split; [done|]. intros [|(? & ? & ? & ?)]; done. }
  destruct (negb ia32 && (b0 =? 0xff) && (b1 =? 0x25)) eqn:Eff.
  { assert (Hu6 : 6 <= u).
    { rewrite !andb_true_iff, !Z.eqb_eq in Eff. destruct Eff as [[_ Eb0] Eb1]. rewrite Eb0 in E0. rewrite Eb1 in E1.
      apply (backup_jump_rip area u ws); try done; lia. }
    destruct (Hwd 2) as [v ->]; [lia|lia|]. cbn. eexists. split; [done|]. cbn.
    split; [done|]. split; [by left|]. split; [done|]. intros [|(? & ? & ? & ?)]; done. }
  destruct (loops_fit area beyond source u Ha Hb Hlb ltac:(lia) ws 0 (Z.to_nat u)
    (u + MSSizeOfJumpBlind ia32 (uptr ia32 (source + u))) (mkCursor (default 0 buffer) []))
    as (len' & c' & Em & Er & Hfit); [lia|done|pose proof (chain_le _ _ _ _ Hc); lia|].
  change (copy_at area beyond u 0) with (backup ++ beyond) in Em, Er. rewrite Em. cbn [mbind res_bind].
  destruct buffer as [bf|]; [change (default 0 (Some bf)) with bf in *|].
  2: { eexists. split; [done|]. cbn. split; [done|]. split; [by left|]. split; [done|].
       intros [|(? & ? & ? & ?)]; done. }
  rewrite Er. cbn [mbind res_bind]. destruct protect.
  - eexists. split; [done|]. cbn. split.
    + intros b l code [= <- <- <-]. change (out_length (MSWriteJump ia32 c' (uptr ia32 (source + u))) <= len').
      rewrite MSWriteJump_length.
      pose proof (size_jump_blind (uptr ia32 (source + u)) (at_addr ia32 c')).
      change (out_length (mkCursor bf [])) with 0 in Hfit. lia.
    + split; [by right|]. done.
  - eexists. split; [done|]. cbn. split; [done|]. split; [by left|]. split; [done|].
    intros [|(? & ? & ? & ?)]; done.
Qed.


(** * Theorems *)

(** C30: Hooking a function terminates, and the relocated code fits in the
    mapping that was sized for it: on any code that decodes, the two passes
    agree on the instructions (the second decodes a copy, with arbitrary
    bytes after it), the loops end exactly at the end of the copy, and the
    bytes written are at most the [length] given to mmap. *)
Theorem substrate_x86_fits area beyond source target want buffer protect :
  hookable area beyond source target -> source = uptr ia32 source -> exists o,
  SubstrateHookFunction ia32 area beyond source target want buffer protect = Ret o /\
  forall b l code, result o = Trampoline b l code -> Z.of_nat (length code) <= l.
Proof.
  intros Hh Hs. destruct (hook_ok _ _ _ _ want buffer protect Hh Hs) as (u & _ & o & E & Hfit & _).
  by exists o.
Qed.

(** When the hook is installed the function begins with the jump to the
    replacement, the bytes up to the end of the last moved instruction are
    [nop]s, and nothing after it has changed. *)
Theorem substrate_x86_installs area beyond source target want buffer protect o :
  hookable area beyond source target -> source = uptr ia32 source ->
  SubstrateHookFunction ia32 area beyond source target want buffer protect = Ret o ->
  want = false \/ (exists b l code, result o = Trampoline b l code) ->
  exists used, MSSizeOfJump ia32 target source <= used <= 28 /\
    memory o = out (MSWriteJump ia32 (mkCursor source []) target)
               ++ replicate (Z.to_nat (used - MSSizeOfJump ia32 target source)) 0x90
               ++ drop (Z.to_nat used) area /\
    length (memory o) = length area.
Proof.
  intros Hh Hs E Hw. destruct (hook_ok _ _ _ _ want buffer protect Hh Hs) as (u & Hu & o' & E' & _ & _ & _ & Hm).
  rewrite E in E'. apply Ret_inj in E' as <-. exists u. split; [done|]. split; [by apply Hm|].
  rewrite (Hm Hw), !length_app, length_replicate, length_drop. pose proof (hookable_length _ _ _ _ Hh).
  pose proof (MSWriteJump_length (mkCursor source []) target) as Hl. unfold out_length, at_addr in Hl.
  cbn [out base length] in Hl. rewrite Z.add_0_r, <- Hs in Hl. lia.
Qed.

(** The near jump reaches its target: the displacement written by
    [MSWriteJump] is the one the processor adds to the address that follows. *)
Theorem near_jump_reaches source target :
  target = uptr ia32 target -> source = uptr ia32 source ->
  ia32 || MSIs32BitOffset ia32 target (uptr ia32 (source + 5)) = true -> exists rel,
  out (MSWriteJump ia32 (mkCursor source []) target) = 0xe9 :: rel /\ length rel = 4%nat /\
  uptr ia32 (source + 5 + i32 (le_val rel)) = target.
Proof.
  intros Ht Hs H32. unfold MSWriteJump, at_addr. cbn [out base length]. rewrite Z.add_0_r, <- Hs, H32.
  eexists. split; [reflexivity|]. split; [done|]. cbn [app out MSWriteSkip MSWrite].
  rewrite le_val_bytes, swrap_wrap by lia. change (8 * Z.of_nat 4) with 32.
  unfold uptr, addr_width in *. unfold MSIs32BitOffset, sptr, addr_width, uptr, addr_width in *.
  destruct ia32; cbn [orb] in *.
  - rewrite swrap_idem, wrap_add_swrap by lia. rewrite Ht at 2. f_equal. lia.
  - apply Z.eqb_eq in H32. rewrite swrap_sub_wrap in H32 by lia. rewrite H32, wrap_add_swrap by lia.
    rewrite Ht at 2. f_equal. lia.
Qed.
(** A function that begins with a relative jump is not hooked when the
    original is asked for: the call returns with the memory unchanged. The
    address it gives for the original extends the displacement with zeros, so
    on 64-bit processes it is wrong for every jump backwards. *)
Theorem existing_jump_not_hooked area beyond source target buffer protect rel :
  hookable area beyond source target -> byte_at area 0 = Ret 0xe9 -> word_at area 1 4 = Ret rel ->
  SubstrateHookFunction ia32 area beyond source target true buffer protect
  = Ret (mkOutcome area (Address (uptr ia32 (source + 5 + rel)))) /\
  (ia32 = false -> 2 ^ 31 <= rel < 2 ^ 32 ->
   uptr ia32 (source + 5 + rel) <> uptr ia32 (source + 5 + i32 rel)).
Proof.
  intros Hh H0 H1. destruct (hookable_used _ _ _ _ Hh) as (u & ws & Eu & Hc & Hu & Hu28).
  pose proof Hh as [Ha Hl _ Hs _]. pose proof (size_jump_blind target source) as Hsz. split.
  - unfold SubstrateHookFunction. destruct (Z.eqb_spec source 0); [done|]. rewrite Eu. cbn [mbind res_bind].
    rewrite load_in_bounds by lia. cbn [mbind res_bind]. change (drop 0 area) with area.
    assert (E0 : byte_at (take (Z.to_nat u) area) 0 = Ret 0xe9).
    { rewrite <- H0. unfold byte_at. by rewrite lookup_take_lt by lia. }
    assert (E1 : exists b, byte_at (take (Z.to_nat u) area) 1 = Ret b).
    { unfold byte_at. rewrite lookup_take_lt by lia.
      destruct (lookup_lt_is_Some_2 area (Z.to_nat 1)) as [b ->]; [lia|]. by exists b. }
    assert (E4 : word_at (take (Z.to_nat u) area) 1 4 = Ret rel).
    { rewrite <- H1. unfold word_at. rewrite !load_in_bounds by (rewrite ?length_take; lia). cbn [mbind res_bind].
      do 2 f_equal. rewrite take_drop_commute, (take_drop_commute area), take_take. do 2 f_equal. lia. }
    destruct E1 as [b E1]. rewrite E0, E1. cbn [mbind res_bind]. change (0xe9 =? 0xe9) with true. cbn iota.
    by rewrite E4.
  - intros -> Hrel. unfold swrap. rewrite wrap_small by (split; [lia|tauto]).
    destruct (Z.ltb_spec rel (2 ^ (32 - 1))); [change (2 ^ (32 - 1)) with (2 ^ 31) in *; lia|].
    unfold uptr, wrap, addr_width. intros E. change (2 ^ 64) with 18446744073709551616 in E.
    change (2 ^ 32) with 4294967296 in *. Z.div_mod_to_equations. lia.
Qed.
End Sizes.

(** The value that [push imm32], and a [mov] of the high half when there is
    one, leave on the stack of a 64-bit process: [push] extends the sign. *)
Definition pushed_value (code : list Z) : option Z :=
  match code with
  | 0x68 :: l0 :: l1 :: l2 :: l3 :: rest =>
      let v := u64 (i32 (le_val [l0; l1; l2; l3])) in
      match rest with
      | [] => Some v
      | [0xc7; 0x44; 0x24; 0x04; h0; h1; h2; h3] =>
          Some (u32 v + Z.shiftl (le_val [h0; h1; h2; h3]) 32)
      | _ => None
      end
  | _ => None
  end.

Lemma le_bytes_four v : exists a b c d, le_bytes 4 v = [a; b; c; d].
Proof. cbn. eauto. Qed.

Lemma pushed_code base target : exists l0 l1 l2 l3,
  le_bytes 4 target = [l0; l1; l2; l3] /\
  ((Z.shiftr (u64 target) 32 = 0 /\
    out (MSPushPointer (mkCursor base []) target) = [0x68; l0; l1; l2; l3]) \/
   (Z.shiftr (u64 target) 32 <> 0 /\ exists h0 h1 h2 h3,
    le_bytes 4 (Z.shiftr (u64 target) 32) = [h0; h1; h2; h3] /\
    out (MSPushPointer (mkCursor base []) target)
    = [0x68; l0; l1; l2; l3; 0xc7; 0x44; 0x24; 0x04; h0; h1; h2; h3])).
Proof.
  destruct (le_bytes_four target) as (a & b & c & d & E). exists a, b, c, d. split; [done|].
  unfold MSPushPointer. cbn zeta. destruct (Z.eqb_spec (Z.shiftr (u64 target) 32) 0).
  - left. split; [done|]. cbn [out MSWrite]. rewrite E. reflexivity.
  - right. split; [done|].
    destruct (le_bytes_four (Z.shiftr (u64 target) 32)) as (h0 & h1 & h2 & h3 & Eh). exists h0, h1, h2, h3.
    split; [done|]. cbn [out MSWrite]. rewrite E, Eh. reflexivity.
Qed.

(** [MSPushPointer] leaves the pointer on the stack, except for the
    pointers between 2^31 and 2^32: there the high half is left to [push],
    which fills it with ones. *)
Theorem push_pointer_value base target : in_range 64 target ->
  pushed_value (out (MSPushPointer (mkCursor base []) target)) = Some target
  <-> ~ (2 ^ 31 <= target < 2 ^ 32).
Proof.
  intros [Ht0 Ht1]. destruct (pushed_code base target) as (a & b & c & d & El & H).
  assert (Elow : le_val [a; b; c; d] = target mod 2 ^ 32) by (rewrite <- El; apply (le_val_bytes 4)).
  rewrite (wrap_small 64) in H by (by split). rewrite Z.shiftr_div_pow2 in H by lia.
  destruct H as [[Hh Ec]|(Hh & h0 & h1 & h2 & h3 & Eh & Ec)]; rewrite Ec; cbn [pushed_value].
  - assert (target < 2 ^ 32) by (apply Z.div_small_iff in Hh; lia).
    rewrite Elow, Z.mod_small by lia. unfold swrap. rewrite (wrap_small 32) by (by split).
    destruct (Z.ltb_spec target (2 ^ (32 - 1))).
    + rewrite (wrap_small 64) by (by split). split; [intros _|done]. change (2 ^ 31) with (2 ^ (32 - 1)). lia.
    + change (2 ^ (32 - 1)) with (2 ^ 31) in *. split; [|lia]. intros [= E]. exfalso.
      unfold wrap in E. revert E. rewrite <- (Z.mod_unique (target - 2 ^ 32) (2 ^ 64) (-1) (target - 2 ^ 32 + 2 ^ 64)).
      * change (2 ^ 64) with (2 ^ 32 * 2 ^ 32). change (2 ^ 32) with 4294967296. lia.
      * change (2 ^ 64) with (2 ^ 32 * 2 ^ 32). change (2 ^ 32) with 4294967296 in *. change (2 ^ 31) with 2147483648 in *. lia.
      * lia.
  - assert (Ehigh : le_val [h0; h1; h2; h3] = target / 2 ^ 32).
    { rewrite <- Eh, (le_val_bytes 4). apply wrap_small. split; [by apply Z.div_pos|].
      apply Z.div_lt_upper_bound; [done|]. exact Ht1. }
    rewrite Ehigh, Elow, Z.shiftl_mul_pow2 by lia.
    assert (Ev : u32 (u64 (i32 (target mod 2 ^ 32))) = target mod 2 ^ 32).
    { unfold wrap at 1 2. rewrite Z.mod_mod_divide by (exists (2 ^ 32); reflexivity).
      change ((i32 (target mod 2 ^ 32)) mod 2 ^ 32) with (wrap 32 (i32 (target mod 2 ^ 32))).
      rewrite wrap_swrap by lia. unfold wrap. by rewrite Zmod_mod. }
    rewrite Ev. split; intros _; [|f_equal; pose proof (Z.div_mod target (2 ^ 32)); lia].
    intros [_ Hlt]. apply Hh. by apply Z.div_small.
Qed.

(** The relocation of [mov reg, [rip + d]] ends in an instruction that is
    meant to be [mov reg, [reg]], of three bytes; for the registers whose
    number is 4 or 5 modulo 8 it is another instruction, one that takes a SIB
    byte or a displacement from the code that follows. *)
Theorem move64_bad_registers : forall reg, 0 <= reg < 16 ->
  disasm_length (out (MSWriteMove64 (mkCursor 0 []) reg reg))
  = Ret (if reg mod 8 =? 4 then 4 else if reg mod 8 =? 5 then 7 else 3, 0).
Proof.
  intros reg Hreg.
  assert (H : forallb (fun reg => bool_decide (disasm_length (out (MSWriteMove64 (mkCursor 0 []) reg reg))
      = Ret (if reg mod 8 =? 4 then 4 else if reg mod 8 =? 5 then 7 else 3, 0)))
      (map Z.of_nat (seq 0 16)) = true) by (vm_compute; reflexivity).
  rewrite forallb_forall in H. apply (bool_decide_eq_true_1 _), H. apply in_map_iff.
  exists (Z.to_nat reg). split; [lia|]. apply in_seq. lia.
Qed.

(** ** Instances *)

(** A function of the usual shape: [push rbp; mov rbp, rsp; sub rsp, 16;
    call +16; ...]. *)
Definition sample_function : list Z :=
  [0x55; 0x48; 0x89; 0xe5; 0x48; 0x83; 0xec; 0x10; 0xe8; 0x10; 0; 0; 0; 0x5d; 0xc3] ++ replicate 80 0x90.

Lemma disasm_nonneg code n d : hde64_disasm code = Ret (n, d) -> 0 <= n.
Proof.
  unfold hde64_disasm. intros E. apply bind_Ret_inv in E as ([hs p] & E & [= <- <-]).
  unfold hde64_decode in E.
  apply bind_Ret_inv in E as ([[p0 c0] s0] & _ & E). apply bind_Ret_inv in E as ([[[[[p1 c1] r1] o1] f1] b1] & _ & E).
  apply bind_Ret_inv in E as (o & _ & E). apply bind_Ret_inv in E as ([cf x] & _ & E).
  apply bind_Ret_inv in E as (fl & _ & E). apply bind_Ret_inv in E as (m & _ & E).
  apply bind_Ret_inv in E as ([[p2 u] f2] & _ & E). injection E as <- <-. cbn [len].
  pose proof (wrap_range 8 p2 ltac:(lia)) as [H _]. destruct (15 <? u8 p2); lia.
Qed.

Lemma sample_boundary o : boundary sample_function o -> o = 0 \/ o = 1 \/ o = 4 \/ 5 <= o.
Proof.
  assert (E0 : forall n d, hde64_disasm (drop (Z.to_nat 0) sample_function) = Ret (n, d) -> n = 1).
  { intros n d E. assert (H : (r ← hde64_disasm (drop (Z.to_nat 0) sample_function); Ret r.1) = Ret 1) by (vm_compute; reflexivity).
    rewrite E in H. by injection H. }
  assert (E1 : forall n d, hde64_disasm (drop (Z.to_nat 1) sample_function) = Ret (n, d) -> n = 3).
  { intros n d E. assert (H : (r ← hde64_disasm (drop (Z.to_nat 1) sample_function); Ret r.1) = Ret 3) by (vm_compute; reflexivity).
    rewrite E in H. by injection H. }
  assert (E4 : forall n d, hde64_disasm (drop (Z.to_nat 4) sample_function) = Ret (n, d) -> n = 4).
  { intros n d E. assert (H : (r ← hde64_disasm (drop (Z.to_nat 4) sample_function); Ret r.1) = Ret 4) by (vm_compute; reflexivity).
    rewrite E in H. by injection H. }
  induction 1 as [|o n d _ IH E]; [by left|].
  destruct IH as [-> |[-> |[-> |H]]]; [apply E0 in E|apply E1 in E|apply E4 in E|apply disasm_nonneg in E]; lia.
Qed.

Lemma sample_decodable : decodable sample_function 5.
Proof.
  intros o n d H Hlt E.
  assert (Hf : forall o, In o [0; 1; 4] -> hde64_disasm (drop (Z.to_nat o) sample_function) = Ret (n, d) ->
    bit (flags d) F_ERROR_LENGTH = false).
  { intros o' Ho Eo.
    assert (Hc : (r ← hde64_disasm (drop (Z.to_nat o') sample_function); Ret (bit (flags r.2) F_ERROR_LENGTH)) = Ret false)
      by (destruct Ho as [<-|[<-|[<-|[]]]]; vm_compute; reflexivity).
    rewrite Eo in Hc. by injection Hc. }
  apply (Hf o); [|exact E]. apply sample_boundary in H. cbn. lia.
Qed.

Lemma sample_hookable : hookable false sample_function (replicate 40 0) 0x1000 0x2000.
Proof.
  split.
  - apply (bool_decide_unpack _). vm_compute. exact I.
  - vm_compute. lia.
  - split; [apply (bool_decide_unpack _); vm_compute; exact I|vm_compute; lia].
  - lia.
  - exact sample_decodable.
Qed.

Lemma substrate_x86_fits_witness : exists b l code o,
  SubstrateHookFunction false sample_function (replicate 40 0) 0x1000 0x2000 true (Some 0x7000) true = Ret o /\
  result o = Trampoline b l code /\ Z.of_nat (length code) <= l.
Proof.
  destruct (substrate_x86_fits false sample_function (replicate 40 0) 0x1000 0x2000 true (Some 0x7000) true
    sample_hookable eq_refl) as (o & E & H).
  assert (Hr : exists b l code, (x ← SubstrateHookFunction false sample_function (replicate 40 0) 0x1000 0x2000 true (Some 0x7000) true;
    Ret (result x)) = Ret (Trampoline b l code)) by (eexists _, _, _; vm_compute; reflexivity).
  destruct Hr as (b & l & code & Hr). rewrite E in Hr. injection Hr as Hr. exists b, l, code, o.
  split; [exact E|]. split; [exact Hr|]. exact (H b l code Hr).
Defined.

Lemma substrate_x86_installs_witness : exists o used,
  SubstrateHookFunction false sample_function (replicate 40 0) 0x1000 0x2000 false None true = Ret o /\
  memory o = out (MSWriteJump false (mkCursor 0x1000 []) 0x2000)
             ++ replicate (Z.to_nat (used - MSSizeOfJump false 0x2000 0x1000)) 0x90
             ++ drop (Z.to_nat used) sample_function.
Proof.
  assert (E : exists o, SubstrateHookFunction false sample_function (replicate 40 0) 0x1000 0x2000 false None true = Ret o)
    by (eexists; vm_compute; reflexivity).
  destruct E as (o & E).
  destruct (substrate_x86_installs false sample_function (replicate 40 0) 0x1000 0x2000 false None true o
    sample_hookable eq_refl E (or_introl eq_refl)) as (used & _ & H & _). by exists o, used.
Defined.

Lemma near_jump_reaches_witness : exists rel,
  out (MSWriteJump false (mkCursor 0x2000 []) 0x1000) = 0xe9 :: rel /\ length rel = 4%nat /\
  uptr false (0x2000 + 5 + i32 (le_val rel)) = 0x1000.
Proof. exact (near_jump_reaches false 0x2000 0x1000 eq_refl eq_refl eq_refl). Defined.

Lemma push_pointer_value_witness :
  pushed_value (out (MSPushPointer (mkCursor 0 []) 0x7fff12345678)) = Some 0x7fff12345678.
Proof. apply (push_pointer_value 0 0x7fff12345678); [vm_compute; intuition congruence|lia]. Defined.

Lemma move64_bad_registers_witness :
  disasm_length (out (MSWriteMove64 (mkCursor 0 []) 5 5)) = Ret (7, 0).
Proof. exact (move64_bad_registers 5 ltac:(lia)). Defined.

(** A function that is a jump back to an earlier address, and padding. *)
Definition sample_jump : list Z := [0xe9; 0xfb; 0xff; 0xff; 0xff] ++ replicate 80 0x90.

Lemma sample_jump_hookable : hookable false sample_jump (replicate 40 0) 0x1000 0x2000.
Proof.
  split; [apply (bool_decide_unpack _); vm_compute; exact I|vm_compute; lia|
    split; [apply (bool_decide_unpack _); vm_compute; exact I|vm_compute; lia]|lia|].
  intros o n d H Hlt E. change (MSSizeOfJump false 0x2000 0x1000) with 5 in Hlt.
  assert (Ho : o = 0 \/ 5 <= o).
  { clear E Hlt. induction H as [|o n' d' _ IH E]; [by left|].
    destruct IH as [-> |IH]; [right|apply disasm_nonneg in E; lia].
    assert (Hv : (r ← hde64_disasm (drop (Z.to_nat 0) sample_jump); Ret r.1) = Ret 5) by (vm_compute; reflexivity).
    rewrite E in Hv. injection Hv as Hv. lia. }
  destruct Ho as [-> |]; [|lia].
  assert (Hv : (r ← hde64_disasm (drop (Z.to_nat 0) sample_jump); Ret (bit (flags r.2) F_ERROR_LENGTH)) = Ret false)
    by (vm_compute; reflexivity).
  rewrite E in Hv. by injection Hv.
Qed.

Lemma existing_jump_not_hooked_witness :
  SubstrateHookFunction false sample_jump (replicate 40 0) 0x1000 0x2000 true (Some 0x7000) true
  = Ret (mkOutcome sample_jump (Address 0x100001000)).
Proof.
  exact (proj1 (existing_jump_not_hooked false sample_jump (replicate 40 0) 0x1000 0x2000 (Some 0x7000) true
    0xfffffffb sample_jump_hookable eq_refl eq_refl)).
Defined.
