(* ===== verification/SubstrateArm.v ===== *)
(** Function hooking on 32-bit ARM: SubstrateARM.hpp and the ARM and Thumb
    parts of SubstrateHook.cpp (alloctrack/src/main/cpp/Substrate).

    The code of the hooked function is the list of its words (ARM) or
    half-words (Thumb) from its first one. The mapping for the moved code is a
    list of the size asked from mmap, zeroed, and a write outside it is a
    fault; [start] and [end_] are the indices the code keeps, and [trailer] the
    index of the last word written from the end. Addresses and words are
    32-bit. The reports under [MSDebug] are left out. *)
From S2P Require Import Prelude.

(** ** SubstrateARM.hpp *)

Definition A_r0 : Z := 0.
Definition A_r1 : Z := 1.
Definition A_r6 : Z := 6.
Definition A_r7 : Z := 7.
Definition A_sp : Z := 13.
Definition A_lr : Z := 14.
Definition A_pc : Z := 15.
Definition A_al : Z := 14.

Definition A_ldr_rd_rn_im (rd rn im : Z) : Z :=
  u32 (Z.lor (Z.lor (Z.lor (Z.lor 0xe5100000 (if im <? 0 then 0 else Z.shiftl 1 23))
                       (Z.shiftl rn 16)) (Z.shiftl rd 12)) (Z.abs (i32 im))).
Definition A_ldmia_sp_rs (rs : Z) : Z := Z.lor (Z.lor 0xe8b00000 (Z.shiftl A_sp 16)) rs.
Definition A_stmdb_sp_rs (rs : Z) : Z := Z.lor (Z.lor 0xe9200000 (Z.shiftl A_sp 16)) rs.

(** ** Thumb encodings *)

(** Indices are [size_t], so the differences of indices are unsigned. *)
Definition T_Label (l r : Z) : Z := u32 ((r - l) * 2 - 4 + (if l mod 2 =? 0 then 0 else 2)).
Definition T_bx (rm : Z) : Z := Z.lor 0x4700 (Z.shiftl rm 3).
Definition T_blx (rm : Z) : Z := Z.lor 0x4780 (Z.shiftl rm 3).
Definition T_nop : Z := 0x46c0.
Definition T_add_rd_rm (rd rm : Z) : Z :=
  Z.lor (Z.lor (Z.lor (Z.lor 0x4400 (Z.shiftl (Z.shiftr (Z.land rd 0x8) 3) 7))
    (Z.shiftl (Z.shiftr (Z.land rm 0x8) 3) 6)) (Z.shiftl (Z.land rm 0x7) 3)) (Z.land rd 0x7).
Definition T_push_r (r : Z) : Z :=
  Z.lor (Z.lor 0xb400 (Z.shiftl (Z.shiftr (Z.land r (Z.shiftl 1 A_lr)) A_lr) 8)) (Z.land r 0xff).
Definition T_pop_r (r : Z) : Z :=
  Z.lor (Z.lor 0xbc00 (Z.shiftl (Z.shiftr (Z.land r (Z.shiftl 1 A_pc)) A_pc) 8)) (Z.land r 0xff).
Definition T_mov_rd_rm (rd rm : Z) : Z :=
  Z.lor (Z.lor (Z.lor (Z.lor 0x4600 (Z.shiftl (Z.shiftr (Z.land rd 0x8) 3) 7))
    (Z.shiftl (Z.shiftr (Z.land rm 0x8) 3) 6)) (Z.shiftl (Z.land rm 0x7) 3)) (Z.land rd 0x7).
Definition T_ldr_rd_rn_im_4 (rd rn im : Z) : Z :=
  Z.lor (Z.lor (Z.lor 0x6800 (Z.shiftl (Z.land im 0x1f) 6)) (Z.shiftl rn 3)) rd.
Definition T_ldr_rd_pc_im_4 (rd im : Z) : Z :=
  Z.lor (Z.lor 0x4800 (Z.shiftl rd 8)) (Z.land im 0xff).
Definition T_cbz_rn_im (op rn im : Z) : Z :=
  Z.lor (Z.lor (Z.lor (Z.lor 0xb100 (Z.shiftl op 11)) (Z.shiftl (Z.shiftr (Z.land im 0x40) 6) 9))
    (Z.shiftl (Z.shiftr (Z.land im 0x3e) 1) 3)) rn.
Definition T_b_im (cond im : Z) : Z :=
  if cond =? A_al then Z.lor 0xe000 (Z.land (Z.shiftr im 1) 0x7ff)
  else Z.lor (Z.lor 0xd000 (Z.shiftl cond 8)) (Z.land (Z.shiftr im 1) 0xff).
Definition T1_ldr_rt_rn_im (rt rn im : Z) : Z :=
  Z.lor (Z.lor 0xf850 (Z.shiftl (if im <? 0 then 0 else 1) 7)) rn.
Definition T2_ldr_rt_rn_im (rt rn im : Z) : Z := Z.lor (Z.shiftl rt 12) (Z.abs (i32 im)).
Definition T1_mrs_rd_apsr (rd : Z) : Z := 0xf3ef.
Definition T2_mrs_rd_apsr (rd : Z) : Z := Z.lor 0x8000 (Z.shiftl rd 8).
Definition T1_msr_apsr_nzcvqg_rn (rn : Z) : Z := Z.lor 0xf380 rn.
Definition T2_msr_apsr_nzcvqg_rn (rn : Z) : Z := 0x8c00.
Definition T_msr_apsr_nzcvqg_rn (rn : Z) : Z :=
  Z.lor (Z.shiftl (T2_msr_apsr_nzcvqg_rn rn) 16) (T1_msr_apsr_nzcvqg_rn rn).

(** ** Tests on instructions *)

Definition A_pcrel_r (ic : Z) : bool :=
  (Z.land ic 0x0c000000 =? 0x04000000) && negb (Z.land ic 0xf0000000 =? 0xf0000000) &&
  (Z.land ic 0x000f0000 =? 0x000f0000).
Definition T_32bit_i (ic : Z) : bool :=
  (Z.land ic 0xe000 =? 0xe000) && negb (Z.land ic 0x1800 =? 0).
Definition T_pcrel_cbz (ic : Z) : bool := Z.land ic 0xf500 =? 0xb100.
Definition T_pcrel_b (ic : Z) : bool :=
  (Z.land ic 0xf000 =? 0xd000) && negb (Z.land ic 0x0e00 =? 0x0e00).
Definition T_pcrel_ldr (ic : Z) : bool := Z.land ic 0xf800 =? 0x4800.
Definition T_pcrel_add (ic : Z) : bool := Z.land ic 0xff78 =? 0x4478.
Definition T_pcrel_ldrw (ic : Z) : bool := Z.land ic 0xff7f =? 0xf85f.

(** The tests that look at a second half-word; it is read only when the first
    half-word calls for it. *)
Definition T2_pcrel_b (ic0 ic1 : Z) : bool :=
  (Z.land ic0 0xf800 =? 0xf000) &&
  ((Z.land ic1 0xd000 =? 0x9000) ||
   (Z.land ic1 0xd000 =? 0x8000) && negb (Z.land ic0 0x0380 =? 0x0380)).
Definition T_pcrel_bl (ic0 ic1 : Z) : bool :=
  (Z.land ic0 0xf800 =? 0xf000) &&
  ((Z.land ic1 0xd000 =? 0xd000) || (Z.land ic1 0xd001 =? 0xc000)).

Definition MSGetInstructionWidthThumb (ic : Z) : Z := if T_32bit_i ic then 4 else 2.
Definition MSGetInstructionWidthARM : Z := 4.
Definition MSGetInstructionWidth (start ic : Z) : Z :=
  if Z.land start 0x1 =? 0 then MSGetInstructionWidthARM else MSGetInstructionWidthThumb ic.

(** A field of [w] bits at bit [p], as the unions give it. *)
Definition field (p w v : Z) : Z := Z.land (Z.shiftr v p) (Z.ones w).

(** [v << n >> n] on 32-bit integers. *)
Definition sign_extend (n v : Z) : Z := Z.shiftr (i32 (Z.shiftl v n)) n.

(** ** Results *)

Inductive hook_result :=
| NotWritten
| Null
| Original (a : Z)
| Moved (entry : Z) (code : list Z).

Record hook := mkHook { area_after : list Z; result : hook_result; returned : Z }.

(** [buf[i] = v]. *)
Definition put (buf : list Z) (i v : Z) : res (list Z) :=
  if (0 <=? i) && (i <? Z.of_nat (length buf)) then Ret (<[Z.to_nat i := v]> buf)
  else Fault OutOfBounds.

Fixpoint puts (buf : list Z) (i : Z) (vs : list Z) : res (list Z) :=
  match vs with
  | [] => Ret buf
  | v :: vs => buf ← put buf i v; puts buf (i + 1) vs
  end.

Definition get (l : list Z) (i : Z) : res Z :=
  if 0 <=? i then get_or_oob (l !! Z.to_nat i) else Fault OutOfBounds.

(** * ARM *)

Record arm_state := mkArm { a_buf : list Z; a_start : Z; a_end : Z; a_trailer : Z }.

(** What one instruction adds to [length]. The shift binds tighter than the
    mask, as in the source. *)
Definition arm_extra (ic : Z) : Z :=
  if A_pcrel_r ic then
    if (Z.land ic 0x02000000 =? 0) ||
       negb (Z.land ic (Z.shiftr 0x0000f000 12) =? Z.land ic 0x0000000f)
    then 2 * 4 else 4 * 4
  else 0.

Definition arm_length (backup : list Z) : Z :=
  8 + fold_left (fun n ic => n + arm_extra ic) backup 0 + 2 * 4.

(** One turn of the loop over the backup. *)
Definition arm_move (area offset ic : Z) (s : arm_state) : res arm_state :=
  if A_pcrel_r ic then
    let rm := field 0 4 ic in
    let rd := field 12 4 ic in
    let mode := field 25 1 ic in
    let guard := negb ((mode =? 0) || negb (rd =? rm)) in
    let rn := if guard then (if negb (rm =? A_r0) then A_r0 else A_r1) else rd in
    let copy := Z.lor (Z.ldiff ic (Z.shiftl 0xf 16)) (Z.shiftl rn 16) in
    buf ← (if guard then put (a_buf s) (a_start s) (A_stmdb_sp_rs (Z.shiftl 1 rn)) else Ret (a_buf s));
    let start := if guard then a_start s + 1 else a_start s in
    buf ← puts buf start [A_ldr_rd_rn_im rn A_pc (u32 ((a_end s - 1 - start) * 4 - 8)); copy];
    let start := start + 2 in
    buf ← (if guard then put buf start (A_ldmia_sp_rs (Z.shiftl 1 rn)) else Ret buf);
    let start := if guard then start + 1 else start in
    buf ← put buf (a_trailer s - 1) (u32 (area + 4 * offset + 8));
    Ret (mkArm buf start (a_end s - 1) (a_trailer s - 1))
  else
    buf ← put (a_buf s) (a_start s) ic;
    Ret (mkArm buf (a_start s + 1) (a_end s) (a_trailer s)).

Fixpoint arm_loop (area offset : Z) (backup : list Z) (s : arm_state) : res arm_state :=
  match backup with
  | [] => Ret s
  | ic :: backup => s ← arm_move area offset ic s; arm_loop area (offset + 1) backup s
  end.

(** [buffer] is what mmap gives, [None] for MAP_FAILED. *)
Definition SubstrateHookFunctionARM (area : list Z) (symbol replace : Z) (want_result : bool)
    (buffer : option Z) (protect : bool) : res hook :=
  if symbol =? 0 then Ret (mkHook area NotWritten 0)
  else
    backup ← load area 0 2;
    let install := store area 0 [A_ldr_rd_rn_im A_pc A_pc (4 - 8); replace] in
    if want_result then
      b0 ← get backup 0;
      b1 ← get backup 1;
      if b0 =? A_ldr_rd_rn_im A_pc A_pc (4 - 8) then Ret (mkHook area (Original b1) 4)
      else
        let length := arm_length backup in
        match buffer with
        | None => Ret (mkHook area Null 0)
        | Some buffer =>
            let end_ := length / 4 in
            s ← arm_loop symbol 0 backup (mkArm (replicate (Z.to_nat end_) 0) 0 end_ end_);
            buf ← puts (a_buf s) (a_start s) [A_ldr_rd_rn_im A_pc A_pc (4 - 8); u32 (symbol + 8)];
            if protect then
              area ← install;
              Ret (mkHook area (Moved buffer buf) 8)
            else Ret (mkHook area Null 0)
        end
    else
      area ← install;
      Ret (mkHook area NotWritten 8).

(** * Thumb *)

Inductive thumb_class :=
| TLdr | TB | T2B | TBl | TCbz | TLdrw | TAdd | TWide | TPlain.

#[export] Instance thumb_class_dec : EqDecision thumb_class.
Proof. solve_decision. Defined.

(** The chain of tests on [backup + offset]; [rest] is what follows
    [backup[offset]]. *)
Definition classify (ic : Z) (rest : list Z) : res thumb_class :=
  if T_pcrel_ldr ic then Ret TLdr
  else if T_pcrel_b ic then Ret TB
  else
    '(b2, bl) ← (if Z.land ic 0xf800 =? 0xf000 then
                   ic1 ← get_or_oob (head rest);
                   Ret (T2_pcrel_b ic ic1, T_pcrel_bl ic ic1)
                 else Ret (false, false));
    Ret (if (b2 : bool) then T2B
         else if (bl : bool) then TBl
         else if T_pcrel_cbz ic then TCbz
         else if T_pcrel_ldrw ic then TLdrw
         else if T_pcrel_add ic then TAdd
         else if T_32bit_i ic then TWide
         else TPlain).

(** The cases with a [++offset]. *)
Definition wide (k : thumb_class) : bool :=
  match k with T2B | TBl | TLdrw | TWide => true | _ => false end.

(** Half-words added to [length]. *)
Definition thumb_extra (k : thumb_class) : Z :=
  match k with
  | TLdr => 3 | TB => 6 | T2B => 5 | TBl => 5 | TCbz => 16 | TLdrw => 4 | TAdd => 6
  | TWide | TPlain => 0
  end.

Fixpoint thumb_measure (backup : list Z) (length : Z) : res Z :=
  match backup with
  | [] => Ret length
  | ic :: rest =>
      k ← classify ic rest;
      let length := length + thumb_extra k * 2 in
      if wide k then
        match rest with
        | _ :: rest => thumb_measure rest length
        | [] => Fault OutOfBounds
        end
      else thumb_measure rest length
  end.

Fixpoint thumb_used (fuel : nat) (area : list Z) (used required : Z) : res Z :=
  if used <? required then
    match fuel with
    | O => Fault OutOfFuel
    | S fuel =>
        ic ← get area (used / 2);
        thumb_used fuel area (used + MSGetInstructionWidthThumb ic) required
    end
  else Ret used.

Record thumb_state := mkThumb { t_buf : list Z; t_start : Z; t_end : Z; t_trailer : Z }.

(** A word as two half-words in memory order. *)
Definition halves (v : Z) : list Z := [u16 v; u16 (Z.shiftr v 16)].

(** [*--trailer = v] for each of the words. *)
Fixpoint trail (buf : list Z) (trailer : Z) (vs : list Z) : res (list Z * Z) :=
  match vs with
  | [] => Ret (buf, trailer)
  | v :: vs => buf ← puts buf (trailer - 2) (halves v); trail buf (trailer - 2) vs
  end.

(** What a case writes: half-words at [start], words under [trailer], and what
    it takes from [end]. *)
Definition emit (s : thumb_state) (head : list Z) (words : list Z) (taken : Z) : res thumb_state :=
  buf ← puts (t_buf s) (t_start s) head;
  '(buf, trailer) ← trail buf (t_trailer s) words;
  Ret (mkThumb buf (t_start s + Z.of_nat (length head)) (t_end s - taken) trailer).

Definition to_arm : Z := Z.lor (Z.shiftl T_nop 16) (T_bx A_pc).
Definition ldr_pc : Z := A_ldr_rd_rn_im A_pc A_pc (4 - 8).

(** Targets of the branches, from the address [here] of the instruction. *)
Definition target_b (here ic : Z) : Z :=
  u32 (here + 4 + sign_extend 23 (Z.lor (Z.shiftl (field 0 8 ic) 1) 1)).

Definition jump_bit (s j : Z) : Z := Z.land (Z.lnot (Z.lxor s j)) 0x1.

Definition target_2b (here ic ic1 : Z) : Z :=
  let s := field 10 1 ic in
  let jump := Z.lor (Z.lor 1 (Z.shiftl (field 0 11 ic1) 1)) (Z.shiftl (field 0 6 ic) 12) in
  let jump :=
    if negb (field 12 1 ic1 =? 0) then
      sign_extend 7 (Z.lor (Z.lor (Z.lor (Z.lor jump (Z.shiftl s 24))
        (Z.shiftl (jump_bit s (field 13 1 ic1)) 23)) (Z.shiftl (jump_bit s (field 11 1 ic1)) 22))
        (Z.shiftl (field 6 4 ic) 18))
    else
      sign_extend 11 (Z.lor (Z.lor (Z.lor jump (Z.shiftl s 20))
        (Z.shiftl (field 11 1 ic1) 19)) (Z.shiftl (field 13 1 ic1) 18)) in
  u32 (here + 4 + jump).

Definition target_bl (here ic ic1 : Z) : Z :=
  let s := field 10 1 ic in
  u32 (here + 4 + sign_extend 7 (Z.lor (Z.lor (Z.lor (Z.lor (Z.lor (Z.shiftl s 24)
    (Z.shiftl (jump_bit s (field 13 1 ic1)) 23)) (Z.shiftl (jump_bit s (field 11 1 ic1)) 22))
    (Z.shiftl (field 0 10 ic) 12)) (Z.shiftl (field 0 11 ic1) 1)) (field 12 1 ic1))).

Definition target_cbz (here ic : Z) : Z :=
  u32 (here + 4 + Z.lor (Z.lor 1 (Z.shiftl (field 9 1 ic) 6)) (Z.shiftl (field 3 5 ic) 1)).

(** The longer cases of the loop. [None] is the jump to [fail]. *)
Definition move_bl (here ic ic1 : Z) (s : thumb_state) : res (option thumb_state) :=
  let start := t_start s in
  let end_ := t_end s in
  s ← emit s [T_push_r (Z.shiftl 1 A_r7);
              T_ldr_rd_pc_im_4 A_r7 (u32 ((end_ - 2 - (start + 1)) * 2 - 4 + 2) / 4);
              T_mov_rd_rm A_lr A_r7; T_pop_r (Z.shiftl 1 A_r7); T_blx A_lr]
        [target_bl here ic ic1] 2;
  Ret (Some s).

Definition move_cbz (here ic : Z) (s : thumb_state) : res (option thumb_state) :=
  let start := t_start s in
  let end_ := t_end s in
  let rn := field 0 3 ic in
  let rt := if rn =? A_r7 then A_r6 else A_r7 in
  s ← emit s [T_push_r (Z.shiftl 1 rt); T1_mrs_rd_apsr rt; T2_mrs_rd_apsr rt;
              T_cbz_rn_im (field 11 1 ic) rn (u32 ((end_ - 10 - (start + 3)) * 2 - 4));
              T1_msr_apsr_nzcvqg_rn rt; T2_msr_apsr_nzcvqg_rn rt; T_pop_r (Z.shiftl 1 rt)]
        [target_cbz here ic; ldr_pc; to_arm;
         Z.lor (Z.shiftl T_nop 16) (T_pop_r (Z.shiftl 1 rt)); T_msr_apsr_nzcvqg_rn rt] 10;
  Ret (Some s).

Definition move_ldrw (here ic ic1 : Z) (s : thumb_state) : res (option thumb_state) :=
  let rt := field 12 4 ic1 in
  let imm := field 0 12 ic1 in
  let label := T_Label (t_start s) (t_end s - 2) in
  s ← emit s [T1_ldr_rt_rn_im rt A_pc label; T2_ldr_rt_rn_im rt A_pc label;
              T1_ldr_rt_rn_im rt rt 0; T2_ldr_rt_rn_im rt rt 0]
        [u32 (Z.ldiff (u32 (here + 4)) 0x2 + (if field 7 1 ic =? 0 then - imm else imm))] 2;
  Ret (Some s).

Definition move_add (here ic : Z) (s : thumb_state) : res (option thumb_state) :=
  if negb (field 7 1 ic =? 0) then Ret None
  else
    let rd := field 0 3 ic in
    let rt := if rd =? A_r7 then A_r6 else A_r7 in
    s ← emit s [T_push_r (Z.shiftl 1 rt); T_mov_rd_rm rt rd;
                T_ldr_rd_pc_im_4 rd (T_Label (t_start s + 2) (t_end s - 2) / 4);
                T_add_rd_rm rd rt; T_pop_r (Z.shiftl 1 rt)]
          [u32 (here + 4)] 2;
    Ret (Some s).

(** One turn of the loop. The macro T$b$_$im tests its argument [cond] without
    parentheses: for [exts.a ? A$al : bits.cond] the test is that of
    [bits.cond], and the value for [exts.a] is A$al itself. *)
Definition thumb_move (here ic ic1 : Z) (k : thumb_class) (s : thumb_state)
    : res (option thumb_state) :=
  let start := t_start s in
  let end_ := t_end s in
  match k with
  | TLdr =>
      let rd := field 8 3 ic in
      s ← emit s [T_ldr_rd_pc_im_4 rd (T_Label start (end_ - 2) / 4); T_ldr_rd_rn_im_4 rd rd 0]
            [u32 (Z.ldiff (u32 (here + 4)) 0x2 + field 0 8 ic * 4)] 2;
      Ret (Some s)
  | TB =>
      s ← emit s [T_b_im (field 8 4 ic) (u32 ((end_ - 6 - start) * 2 - 4))]
            [target_b here ic; ldr_pc; to_arm] 6;
      Ret (Some s)
  | T2B =>
      s ← emit s [if negb (field 12 1 ic1 =? 0) then A_al
                  else T_b_im (field 6 4 ic) (u32 ((end_ - 6 - start) * 2 - 4))]
            [target_2b here ic ic1; ldr_pc; to_arm] 6;
      Ret (Some s)
  | TBl => move_bl here ic ic1 s
  | TCbz => move_cbz here ic s
  | TLdrw => move_ldrw here ic ic1 s
  | TAdd => move_add here ic s
  | TWide => s ← emit s [ic; ic1] [] 0; Ret (Some s)
  | TPlain => s ← emit s [ic] [] 0; Ret (Some s)
  end.

Fixpoint thumb_loop (here : Z) (backup : list Z) (s : thumb_state) : res (option thumb_state) :=
  match backup with
  | [] => Ret (Some s)
  | ic :: rest =>
      k ← classify ic rest;
      if wide k then
        match rest with
        | ic1 :: rest =>
            o ← thumb_move here ic ic1 k s;
            match o with Some s => thumb_loop (here + 4) rest s | None => Ret None end
        | [] => Fault OutOfBounds
        end
      else
        o ← thumb_move here ic 0 k s;
        match o with Some s => thumb_loop (here + 2) rest s | None => Ret None end
  end.

(** A word at a half-word index. *)
Definition get32 (l : list Z) (i : Z) : res Z :=
  lo ← get l i; hi ← get l (i + 1); Ret (lo + Z.shiftl hi 16).

(** The test for a hook in place. *)
Definition hooked (area : list Z) (align : Z) : res bool :=
  pad ← (if align =? 0 then Ret true else a ← get area 0; Ret (a =? T_nop));
  if negb pad then Ret false
  else
    t0 ← get area align;
    if negb (t0 =? T_bx A_pc) then Ret false
    else
      t1 ← get area (align + 1);
      if negb (t1 =? T_nop) then Ret false
      else a0 ← get32 area (align + 2); Ret (a0 =? ldr_pc).

(** The jump written over the function. *)
Definition thumb_jump (align replace blank : Z) : list Z :=
  (if align =? 0 then [] else [T_nop]) ++ [T_bx A_pc; T_nop] ++ halves ldr_pc ++ halves replace ++
  replicate (Z.to_nat blank) T_nop.

(** The moved code: [None] is the jump to [fail]. *)
Definition thumb_moved (symbol used length pad : Z) (backup : list Z) : res (option (list Z)) :=
  let end_ := length / 2 in
  o ← thumb_loop symbol backup (mkThumb (replicate (Z.to_nat end_) 0) pad end_ end_);
  match o with
  | None => Ret None
  | Some s =>
      buf ← puts (t_buf s) (t_start s) [T_bx A_pc; T_nop];
      buf ← puts buf (t_start s + 2) (halves ldr_pc ++ halves (u32 (symbol + used + 1)));
      Ret (Some buf)
  end.

Definition SubstrateHookFunctionThumb (area : list Z) (symbol replace : Z) (want_result : bool)
    (buffer : option Z) (protect : bool) : res hook :=
  if symbol =? 0 then Ret (mkHook area NotWritten 0)
  else
    let align := if Z.land symbol 0x2 =? 0 then 0 else 1 in
    h ← hooked area align;
    if (h : bool) then
      old ← get32 area (align + 4);
      area ← puts area (align + 4) (halves replace);
      Ret (mkHook area (if want_result then Original old else NotWritten) 4)
    else
      let required := (align + 6) * 2 in
      used ← thumb_used (Z.to_nat required) area 0 required;
      let used := (used + 1) / 2 * 2 in
      let blank := (used - required) / 2 in
      backup ← load area 0 (Z.to_nat (used / 2));
      let install result :=
        area ← puts area 0 (thumb_jump align replace blank);
        Ret (mkHook area result used) in
      if want_result then
        length ← thumb_measure backup used;
        let pad := if Z.land length 0x2 =? 0 then 0 else 1 in
        let length := length + (pad + 2) * 2 + 2 * 4 in
        match buffer with
        | None => Ret (mkHook area Null 0)
        | Some buffer =>
            o ← thumb_moved symbol used length pad backup;
            match o with
            | None => Ret (mkHook area Null 0)
            | Some buf =>
                if protect then install (Moved (u32 (buffer + 2 * pad + 1)) buf)
                else Ret (mkHook area NotWritten 0)
            end
        end
      else install NotWritten.

(** [area] is the half-words of a Thumb function and the words of an ARM one,
    as the low bit of [symbol] says. *)
Definition SubstrateHookFunction (area : list Z) (symbol replace : Z) (want_result : bool)
    (buffer : option Z) (protect : bool) : res hook :=
  if Z.land symbol 0x1 =? 0
  then SubstrateHookFunctionARM area symbol replace want_result buffer protect
  else SubstrateHookFunctionThumb area (Z.ldiff symbol 0x1) replace want_result buffer protect.

(** * Writing *)

Lemma put_ok buf i v : 0 <= i < Z.of_nat (length buf) ->
  put buf i v = Ret (<[Z.to_nat i := v]> buf).
Proof.
  intros H. unfold put.
  destruct (Z.leb_spec 0 i), (Z.ltb_spec i (Z.of_nat (length buf))); try lia. done.
Qed.

(** Consecutive writes replace a segment. *)
Lemma puts_app a old c i vs : Z.of_nat (length a) = i -> length vs = length old ->
  puts (a ++ old ++ c) i vs = Ret (a ++ vs ++ c).
Proof.
  revert a old i. induction vs as [|v vs IH]; intros a [|o old] i Hi Hl; try discriminate Hl; [done|].
  cbn [puts]. rewrite put_ok by (rewrite !length_app; cbn; lia). rewrite bind_Ret.
  replace (Z.to_nat i) with (length a + 0)%nat by lia.
  rewrite insert_app_r. cbn [app]. unfold insert at 1. cbn [list_insert].
  rewrite (cons_middle v a (old ++ c)), (app_assoc a [v]).
  rewrite (IH (a ++ [v]) old) by (rewrite ?length_app; cbn in *; lia).
  by rewrite <- app_assoc.
Qed.

Lemma get_app a v c i : Z.of_nat (length a) = i -> get (a ++ v :: c) i = Ret v.
Proof.
  intros Hi. unfold get. destruct (Z.leb_spec 0 i); [|lia].
  by rewrite list_lookup_middle by lia.
Qed.

Lemma get_ok l i : 0 <= i < Z.of_nat (length l) -> exists v, get l i = Ret v /\ l !! Z.to_nat i = Some v.
Proof.
  intros Hi. unfold get. destruct (Z.leb_spec 0 i); [|lia].
  destruct (lookup_lt_is_Some_2 l (Z.to_nat i)) as [v Hv]; [lia|].
  exists v. by rewrite Hv.
Qed.

Lemma get_inv l i v : get l i = Ret v -> 0 <= i /\ l !! Z.to_nat i = Some v.
Proof.
  unfold get. destruct (Z.leb_spec 0 i); [|done].
  destruct (l !! Z.to_nat i); [|done]. by intros [= ->].
Qed.

Lemma length_halves v : length (halves v) = 2%nat.
Proof. done. Qed.

Lemma halves_val v : u16 v + Z.shiftl (u16 (Z.shiftr v 16)) 16 = u32 v.
Proof.
  unfold wrap. rewrite Z.shiftl_mul_pow2, Z.shiftr_div_pow2 by lia.
  change (2 ^ 32) with (2 ^ 16 * 2 ^ 16). rewrite Z.rem_mul_r by lia. lia.
Qed.

Lemma get32_app a v c i : Z.of_nat (length a) = i -> get32 (a ++ halves v ++ c) i = Ret (u32 v).
Proof.
  intros Hi. unfold get32, halves. cbn [app].
  rewrite (get_app a (u16 v) (u16 (Z.shiftr v 16) :: c) i Hi), bind_Ret.
  rewrite (cons_middle (u16 v) a), app_assoc.
  rewrite (get_app (a ++ [u16 v])) by (rewrite length_app; cbn; lia).
  rewrite bind_Ret. by rewrite halves_val.
Qed.

(** ** The mapping while the code is moved

    [head] has been written from the start, [n] elements are free, and [tail]
    has been written from the end. *)
Definition layout (head : list Z) (n : nat) (tail : list Z) : list Z := head ++ replicate n 0 ++ tail.

Lemma puts_layout head n tail vs : (length vs <= n)%nat ->
  puts (layout head n tail) (Z.of_nat (length head)) vs =
    Ret (layout (head ++ vs) (n - length vs) tail).
Proof.
  intros Hn. unfold layout.
  replace n with (length vs + (n - length vs))%nat at 1 by lia.
  rewrite replicate_add, <- !app_assoc. apply puts_app; [done|]. by rewrite length_replicate.
Qed.

Lemma puts_layout_end head n tail vs : (length vs <= n)%nat ->
  puts (layout head n tail) (Z.of_nat (length head) + Z.of_nat n - Z.of_nat (length vs)) vs =
    Ret (layout head (n - length vs) (vs ++ tail)).
Proof.
  intros Hn. unfold layout.
  replace n with ((n - length vs) + length vs)%nat at 1 by lia.
  rewrite replicate_add, <- !app_assoc, (app_assoc head), (app_assoc head).
  apply puts_app; [rewrite length_app, length_replicate; lia|]. by rewrite length_replicate.
Qed.

(** The words under [trailer], the last written first. *)
Definition words_back (ws : list Z) (tail : list Z) : list Z :=
  fold_left (fun t w => halves w ++ t) ws tail.

Lemma trail_layout ws head n tail : (2 * length ws <= n)%nat ->
  trail (layout head n tail) (Z.of_nat (length head) + Z.of_nat n) ws =
    Ret (layout head (n - 2 * length ws) (words_back ws tail),
         Z.of_nat (length head) + Z.of_nat n - 2 * Z.of_nat (length ws)).
Proof.
  revert n tail. induction ws as [|w ws IH]; intros n tail Hn.
  - cbn. do 2 f_equal; [f_equal|]; lia.
  - cbn [trail words_back fold_left length] in *.
    pose proof (puts_layout_end head n tail (halves w) ltac:(cbn; lia)) as E.
    rewrite length_halves in E. change (Z.of_nat 2) with 2 in E. rewrite E, bind_Ret.
    replace (Z.of_nat (length head) + Z.of_nat n - 2) with (Z.of_nat (length head) + Z.of_nat (n - 2)) by lia.
    rewrite IH by lia. do 2 f_equal; [f_equal|]; lia.
Qed.

Definition thumb_at (head : list Z) (n : nat) (tail : list Z) : thumb_state :=
  let e := Z.of_nat (length head) + Z.of_nat n in
  mkThumb (layout head n tail) (Z.of_nat (length head)) e e.

Lemma emit_at head n tail hs ws taken :
  taken = 2 * Z.of_nat (length ws) -> (length hs + 2 * length ws <= n)%nat ->
  emit (thumb_at head n tail) hs ws taken =
    Ret (thumb_at (head ++ hs) (n - length hs - 2 * length ws) (words_back ws tail)).
Proof.
  intros -> Hn. unfold emit, thumb_at. cbn [t_buf t_start t_end t_trailer].
  rewrite puts_layout by lia. rewrite bind_Ret.
  replace (Z.of_nat (length head) + Z.of_nat n)
    with (Z.of_nat (length (head ++ hs)) + Z.of_nat (n - length hs)) by (rewrite length_app; lia).
  rewrite trail_layout by lia. rewrite bind_Ret. cbn beta iota.
  do 2 f_equal; rewrite !length_app; lia.
Qed.

(** * Thumb instruction boundaries *)

Definition half_range (l : list Z) : Prop := Forall (in_range 16) l.

Definition class_widths (ic : Z) : bool :=
  let w := T_32bit_i ic in
  implb (T_pcrel_ldr ic) (negb w) && implb (T_pcrel_b ic) (negb w) &&
  implb (Z.land ic 0xf800 =? 0xf000) w && implb (T_pcrel_cbz ic) (negb w) &&
  implb (T_pcrel_ldrw ic) w && implb (T_pcrel_add ic) (negb w).

Definition all_bytes : list Z := map Z.of_nat (seq 0 256).

Lemma all_bytes_complete b : in_range 8 b -> In b all_bytes.
Proof.
  intros [H1 H2]. change (2 ^ 8) with 256 in H2. apply in_map_iff. exists (Z.to_nat b).
  split; [lia|]. apply in_seq. lia.
Qed.

Lemma class_widths_all :
  forallb (fun h => forallb (fun l => class_widths (h * 256 + l)) all_bytes) all_bytes = true.
Proof. vm_compute. reflexivity. Qed.

Lemma class_widths_ok ic : in_range 16 ic -> class_widths ic = true.
Proof.
  intros [H1 H2]. change (2 ^ 16) with 65536 in H2.
  pose proof class_widths_all as Hall. rewrite forallb_forall in Hall.
  assert (in_range 8 (ic / 256)) as Hh.
  { split; [apply Z.div_pos; lia|]. change (2 ^ 8) with 256. apply Z.div_lt_upper_bound; lia. }
  assert (in_range 8 (ic mod 256)) as Hl by (apply Z.mod_pos_bound; lia).
  specialize (Hall _ (all_bytes_complete _ Hh)). rewrite forallb_forall in Hall.
  specialize (Hall _ (all_bytes_complete _ Hl)).
  by replace (ic / 256 * 256 + ic mod 256) with ic in Hall
    by (pose proof (Z.div_mod ic 256); lia).
Qed.

(** The tests see a wide case exactly on the instructions of 32 bits. *)
Lemma classify_wide ic rest k :
  in_range 16 ic -> classify ic rest = Ret k -> wide k = T_32bit_i ic.
Proof.
  intros Hr. apply class_widths_ok in Hr. unfold class_widths in Hr. unfold classify.
  destruct (T_pcrel_ldr ic), (T_32bit_i ic), (T_pcrel_b ic), (Z.land ic 0xf800 =? 0xf000),
    (T_pcrel_cbz ic), (T_pcrel_ldrw ic), (T_pcrel_add ic); try discriminate Hr;
    cbn; try (intros [= <-]; done);
    destruct (head rest); cbn; try discriminate;
    repeat destruct (T2_pcrel_b _ _); repeat destruct (T_pcrel_bl _ _); by intros [= <-].
Qed.

(** The second half-word is there when the instruction has one. *)
Lemma classify_total ic rest : in_range 16 ic ->
  (T_32bit_i ic = true -> rest <> []) -> exists k, classify ic rest = Ret k.
Proof.
  intros Hr Hrest. apply class_widths_ok in Hr. unfold class_widths in Hr. unfold classify.
  destruct (T_pcrel_ldr ic); [by eexists|]. destruct (T_pcrel_b ic); [by eexists|].
  destruct (Z.land ic 0xf800 =? 0xf000); [|by eexists].
  destruct (T_32bit_i ic); [|discriminate Hr]. destruct rest as [|x rest]; [by destruct Hrest|].
  cbn. by eexists.
Qed.

Lemma classify_head ic rest rest' : head rest = head rest' -> classify ic rest = classify ic rest'.
Proof. unfold classify. by intros ->. Qed.

(** A sequence of whole instructions and their cases. *)
Inductive parsed : list Z -> list thumb_class -> Prop :=
| parsed_nil : parsed [] []
| parsed_one ic rest k ks : classify ic rest = Ret k -> wide k = false ->
    parsed rest ks -> parsed (ic :: rest) (k :: ks)
| parsed_two ic ic1 rest k ks : classify ic (ic1 :: rest) = Ret k -> wide k = true ->
    parsed rest ks -> parsed (ic :: ic1 :: rest) (k :: ks).

Definition width (k : thumb_class) : nat := if wide k then 2 else 1.
Definition units (k : thumb_class) : nat := width k + Z.to_nat (thumb_extra k).
Definition extras (ks : list thumb_class) : Z :=
  Z.of_nat (list_sum (map (fun k => Z.to_nat (thumb_extra k)) ks)).
Definition total (ks : list thumb_class) : nat := list_sum (map units ks).

Lemma total_cons k ks : total (k :: ks) = (units k + total ks)%nat.
Proof. done. Qed.

Lemma extras_cons k ks : extras (k :: ks) = thumb_extra k + extras ks.
Proof.
  change (Z.of_nat (Z.to_nat (thumb_extra k) + list_sum (map (fun k => Z.to_nat (thumb_extra k)) ks))
          = thumb_extra k + extras ks).
  unfold extras. destruct k; cbn [thumb_extra]; lia.
Qed.

Lemma parsed_total backup ks : parsed backup ks ->
  Z.of_nat (total ks) = Z.of_nat (length backup) + extras ks.
Proof.
  induction 1 as [|ic rest k ks _ Hw _ IH|ic ic1 rest k ks _ Hw _ IH]; [done| |];
    rewrite total_cons, extras_cons; unfold units, width; rewrite Hw; cbn [length];
    destruct k; cbn [thumb_extra]; lia.
Qed.

Lemma parsed_measure backup ks n : parsed backup ks ->
  thumb_measure backup n = Ret (n + extras ks * 2).
Proof.
  intros H. revert n.
  induction H as [|ic rest k ks Hc Hw _ IH|ic ic1 rest k ks Hc Hw _ IH]; intros n;
    [change (extras []) with 0; cbn [thumb_measure]; f_equal; lia| |];
    cbn [thumb_measure]; rewrite Hc, bind_Ret, Hw, IH, extras_cons;
    f_equal; lia.
Qed.

Lemma width_thumb ic : MSGetInstructionWidthThumb ic = if T_32bit_i ic then 4 else 2.
Proof. done. Qed.

(** The loop over the widths stops at a boundary, at most one half-word after
    the bytes that are required. *)
Lemma thumb_used_ok fuel area m req :
  half_range area -> 2 * Z.of_nat (length area) >= req + 2 -> req = 2 * (req / 2) ->
  req - 2 * Z.of_nat m <= 2 * Z.of_nat fuel -> 2 * Z.of_nat m <= req + 2 ->
  exists w ks, thumb_used fuel area (2 * Z.of_nat m) req = Ret (2 * Z.of_nat (m + w)) /\
    req <= 2 * Z.of_nat (m + w) <= req + 2 /\ parsed (take w (drop m area)) ks.
Proof.
  intros Hr Hl Heven. revert m. induction fuel as [|fuel IH]; intros m Hf Hm.
  - exists 0%nat, []. cbn [thumb_used]. destruct (Z.ltb_spec (2 * Z.of_nat m) req); [lia|].
    rewrite Nat.add_0_r. split; [done|]. split; [lia|]. rewrite take_0. constructor.
  - cbn [thumb_used]. destruct (Z.ltb_spec (2 * Z.of_nat m) req) as [Hlt|Hge].
    2: { exists 0%nat, []. rewrite Nat.add_0_r. split; [done|]. split; [lia|].
         rewrite take_0. constructor. }
    replace (2 * Z.of_nat m / 2) with (Z.of_nat m) by (rewrite Z.mul_comm, Z.div_mul; lia).
    destruct (get_ok area (Z.of_nat m)) as (ic & -> & Hic); [lia|]. rewrite bind_Ret, width_thumb.
    rewrite Nat2Z.id in Hic. pose proof (Forall_lookup_1 _ _ _ _ Hr Hic) as Hicr.
    rewrite (drop_S _ _ _ Hic). destruct (T_32bit_i ic) eqn:Hw.
    + destruct (IH (m + 2)%nat) as (w & ks & E & Hb & Hp); [lia|lia|].
      destruct (lookup_lt_is_Some_2 area (S m)) as [ic1 Hic1]; [lia|].
      rewrite (drop_S _ _ _ Hic1).
      destruct (classify_total ic (ic1 :: take w (drop (S (S m)) area)) Hicr) as [k Hk]; [done|].
      exists (S (S w)), (k :: ks).
      replace (m + S (S w))%nat with (m + 2 + w)%nat by lia.
      replace (2 * Z.of_nat m + 4) with (2 * Z.of_nat (m + 2)) by lia.
      split; [exact E|]. split; [done|]. cbn [take].
      apply parsed_two; [done| |by replace (S (S m)) with (m + 2)%nat by lia].
      by rewrite (classify_wide _ _ _ Hicr Hk).
    + destruct (IH (m + 1)%nat) as (w & ks & E & Hb & Hp); [lia|lia|].
      destruct (classify_total ic (take w (drop (S m) area)) Hicr) as [k Hk]; [congruence|].
      exists (S w), (k :: ks).
      replace (m + S w)%nat with (m + 1 + w)%nat by lia.
      replace (2 * Z.of_nat m + 2) with (2 * Z.of_nat (m + 1)) by lia.
      split; [exact E|]. split; [done|]. cbn [take].
      apply parsed_one; [done| |by replace (S m) with (m + 1)%nat by lia].
      by rewrite (classify_wide _ _ _ Hicr Hk).
Qed.

(** * The moved code fits *)

(** A move that does not fail writes as many half-words, at both ends
    together, as the length pass has counted for it. *)
Lemma thumb_move_at here ic ic1 k head n tail : (units k <= n)%nat ->
  (thumb_move here ic ic1 k (thumb_at head n tail) = Ret None /\ k = TAdd /\ field 7 1 ic <> 0) \/
  exists hs ws,
    thumb_move here ic ic1 k (thumb_at head n tail) =
      Ret (Some (thumb_at (head ++ hs) (n - units k) (words_back ws tail))) /\
    (length hs + 2 * length ws = units k)%nat /\
    (k = TPlain -> hs = [ic] /\ ws = []) /\ (k = TWide -> hs = [ic; ic1] /\ ws = []).
Proof.
  intros Hn. destruct k; cbn in Hn.
  all: try (right; unfold thumb_move, move_bl, move_cbz, move_ldrw; do 2 eexists; split;
    [rewrite emit_at by (cbn [length]; lia); cbn [length];
     rewrite bind_Ret; do 3 f_equal; cbn; lia | split; [reflexivity | split; intros [=]; done]]).
  unfold thumb_move, move_add. destruct (Z.eqb_spec (field 7 1 ic) 0) as [E|E]; [right|by left].
  do 2 eexists. split; [|split; [|split; intros [=]]].
  - cbn [negb]. rewrite emit_at by (cbn [length]; lia). cbn [length].
    rewrite bind_Ret. do 3 f_equal. cbn. lia.
  - reflexivity.
Qed.

Lemma words_back_app ws tail : words_back ws tail = words_back ws [] ++ tail.
Proof.
  unfold words_back. revert tail. induction ws as [|w ws IH] using rev_ind; intros tail; [done|].
  rewrite !fold_left_app. cbn [fold_left]. by rewrite IH, app_assoc.
Qed.

Lemma words_back_even ws : Nat.Even (length (words_back ws [])).
Proof.
  induction ws as [|w ws [m IH]] using rev_ind; [by exists 0%nat|]. exists (S m).
  unfold words_back in *. rewrite fold_left_app. cbn [fold_left]. rewrite length_app, IH. cbn. lia.
Qed.

Lemma length_words_back ws tail : length (words_back ws tail) = (2 * length ws + length tail)%nat.
Proof.
  revert tail. induction ws as [|w ws IH]; intros tail; [done|].
  cbn [words_back fold_left]. unfold words_back in IH. rewrite IH. cbn. lia.
Qed.

(** The state after the loop: what follows at the start, and what precedes at
    the end, in whole words. *)
Definition moved_to (here : Z) (backup : list Z) (ks : list thumb_class) head n tail : Prop :=
  thumb_loop here backup (thumb_at head n tail) = Ret None \/
  exists hs ts, thumb_loop here backup (thumb_at head n tail) =
    Ret (Some (thumb_at (head ++ hs) (n - total ks) (ts ++ tail))) /\ Nat.Even (length ts) /\
    (length hs + length ts = total ks)%nat.

Lemma moved_to_cons here step backup ks k hs ws head n tail :
  (length hs + 2 * length ws = units k)%nat ->
  moved_to (here + step) backup ks (head ++ hs) (n - units k) (words_back ws tail) ->
  let loop := thumb_loop (here + step) backup (thumb_at (head ++ hs) (n - units k) (words_back ws tail)) in
  loop = Ret None \/ exists hs' ts, loop =
    Ret (Some (thumb_at (head ++ hs') (n - total (k :: ks)) (ts ++ tail))) /\ Nat.Even (length ts) /\
    (length hs' + length ts = total (k :: ks))%nat.
Proof.
  intros Hk [E|(hs' & ts & E & [m Hts] & Ht)] loop; subst loop; rewrite E; [by left|right].
  exists (hs ++ hs'), (ts ++ words_back ws []).
  rewrite (words_back_app ws tail), <- !app_assoc, total_cons, Nat.sub_add_distr.
  split; [done|]. rewrite !length_app. destruct (words_back_even ws) as [m' Hw].
  pose proof (length_words_back ws []) as Hl. cbn [length] in Hl.
  split; [exists (m + m')%nat|]; lia.
Qed.

Lemma thumb_loop_at backup ks here head n tail :
  parsed backup ks -> (total ks <= n)%nat -> moved_to here backup ks head n tail.
Proof.
  intros H. revert here head n tail.
  induction H as [|ic rest k ks Hc Hw _ IH|ic ic1 rest k ks Hc Hw _ IH]; intros here head n tail Hn.
  - right. exists [], []. cbn. rewrite app_nil_r, Nat.sub_0_r. split; [reflexivity|]. split; [by exists 0%nat|reflexivity].
  - rewrite total_cons in Hn. unfold moved_to. cbn [thumb_loop]. rewrite Hc, bind_Ret, Hw.
    destruct (thumb_move_at here ic 0 k head n tail) as [(-> & _)|(hs & ws & -> & Hk & _)]; [lia|by left|].
    rewrite bind_Ret. apply moved_to_cons; [done|]. apply IH. lia.
  - rewrite total_cons in Hn. unfold moved_to. cbn [thumb_loop]. rewrite Hc, bind_Ret, Hw.
    destruct (thumb_move_at here ic ic1 k head n tail) as [(-> & _)|(hs & ws & -> & Hk & _)]; [lia|by left|].
    rewrite bind_Ret. apply moved_to_cons; [done|]. apply IH. lia.
Qed.

(** Instructions that do not look at the program counter are copied. *)
Definition plain_class (k : thumb_class) : bool :=
  match k with TPlain | TWide => true | _ => false end.

Lemma thumb_loop_plain backup ks here head n tail :
  parsed backup ks -> forallb plain_class ks = true -> (length backup <= n)%nat ->
  thumb_loop here backup (thumb_at head n tail) =
    Ret (Some (thumb_at (head ++ backup) (n - length backup) tail)).
Proof.
  intros H. revert here head n.
  induction H as [|ic rest k ks Hc Hw _ IH|ic ic1 rest k ks Hc Hw _ IH]; intros here head n Hk Hn;
    [cbn; by rewrite app_nil_r, Nat.sub_0_r| |];
    cbn [forallb length] in *; apply andb_prop in Hk as [Hk Hks];
    cbn [thumb_loop]; rewrite Hc, bind_Ret, Hw;
    destruct k; try discriminate Hk; try discriminate Hw.
  - destruct (thumb_move_at here ic 0 TPlain head n tail) as [(_ & [=] & _)|(hs & ws & -> & _ & Hp & _)]; [cbn; lia|].
    destruct (Hp eq_refl) as [-> ->]. rewrite bind_Ret. cbn [words_back fold_left].
    rewrite IH by (done || (cbn; lia)). rewrite <- app_assoc. cbn [app]. do 3 f_equal. cbn. lia.
  - destruct (thumb_move_at here ic ic1 TWide head n tail) as [(_ & [=] & _)|(hs & ws & -> & _ & _ & Hp)]; [cbn; lia|].
    destruct (Hp eq_refl) as [-> ->]. rewrite bind_Ret. cbn [words_back fold_left].
    rewrite IH by (done || (cbn; lia)). rewrite <- app_assoc. cbn [app]. do 3 f_equal. cbn. lia.
Qed.

(** What ends the moved code: a change to ARM, and the jump back. *)
Definition thumb_exit (back : Z) : list Z := [T_bx A_pc; T_nop] ++ halves ldr_pc ++ halves back.

Definition moved_size (pad : nat) (ks : list thumb_class) : nat := pad + total ks + 6.

Lemma thumb_start pad ks : let size := moved_size pad ks in
  mkThumb (replicate (Z.to_nat (Z.of_nat size)) 0) (Z.of_nat pad) (Z.of_nat size) (Z.of_nat size) =
    thumb_at (replicate pad 0) (total ks + 6) [].
Proof.
  unfold thumb_at, layout, moved_size. rewrite length_replicate, Nat2Z.id, app_nil_r, <- replicate_add.
  f_equal; [f_equal|..]; lia.
Qed.

Lemma half_of_double a : 2 * a / 2 = a.
Proof. rewrite Z.mul_comm. by apply Z.div_mul. Qed.

Lemma thumb_moved_done symbol used backup pad ks hs ts :
  thumb_loop symbol backup (thumb_at (replicate pad 0) (total ks + 6) []) =
    Ret (Some (thumb_at (replicate pad 0 ++ hs) 6 ts)) ->
  thumb_moved symbol used (2 * Z.of_nat (moved_size pad ks)) (Z.of_nat pad) backup =
    Ret (Some (replicate pad 0 ++ hs ++ thumb_exit (u32 (symbol + used + 1)) ++ ts)).
Proof.
  intros E. unfold thumb_moved. rewrite half_of_double, thumb_start.
  rewrite E, bind_Ret. unfold thumb_at. cbn [t_buf t_start].
  rewrite puts_layout by (cbn; lia). rewrite bind_Ret. cbn [length].
  pose proof (puts_layout ((replicate pad 0 ++ hs) ++ [T_bx A_pc; T_nop]) 4 ts
    (halves ldr_pc ++ halves (u32 (symbol + used + 1))) ltac:(cbn; lia)) as P.
  rewrite length_app, Nat2Z.inj_add in P. change (Z.of_nat (length [T_bx A_pc; T_nop])) with 2 in P.
  change (6 - 2)%nat with 4%nat. rewrite P, bind_Ret. unfold layout, thumb_exit.
  cbn [length Nat.sub app replicate]. by rewrite <- !app_assoc.
Qed.

(** * Hooking a Thumb function *)

Definition align_of (symbol : Z) : Z := if Z.land symbol 0x2 =? 0 then 0 else 1.

Lemma align_of_cases symbol : align_of symbol = 0 \/ align_of symbol = 1.
Proof. unfold align_of. destruct (_ =? _); auto. Qed.

Definition jumped (symbol replace : Z) (m : nat) (area : list Z) : list Z :=
  thumb_jump (align_of symbol) replace (Z.of_nat m - (align_of symbol + 6)) ++ drop m area.

Lemma length_thumb_jump align replace blank : align = 0 \/ align = 1 -> 0 <= blank ->
  Z.of_nat (length (thumb_jump align replace blank)) = align + 6 + blank.
Proof.
  intros [-> | ->] Hb; unfold thumb_jump; rewrite !length_app, length_replicate; cbn; lia.
Qed.

Lemma puts_jump symbol replace m area :
  align_of symbol + 6 <= Z.of_nat m <= Z.of_nat (length area) ->
  puts area 0 (thumb_jump (align_of symbol) replace (Z.of_nat m - (align_of symbol + 6))) =
    Ret (jumped symbol replace m area).
Proof.
  intros Hm. rewrite <- (take_drop m area) at 1.
  pose proof (length_thumb_jump (align_of symbol) replace (Z.of_nat m - (align_of symbol + 6))
    (align_of_cases symbol) ltac:(lia)) as Hl.
  apply (puts_app [] (take m area) (drop m area)); [done|]. rewrite length_take. lia.
Qed.

Definition pad_of (t : nat) : nat := t mod 2.

Lemma pad_of_even t : Nat.Even (pad_of t + t).
Proof.
  unfold pad_of. pose proof (Nat.div_mod t 2 ltac:(done)).
  pose proof (Nat.mod_upper_bound t 2 ltac:(done)). destruct (t mod 2)%nat as [|[|]]; [| |lia].
  - exists (t / 2)%nat. lia.
  - exists (S (t / 2)). lia.
Qed.

Lemma pad_of_source t : (if Z.land (2 * Z.of_nat t) 0x2 =? 0 then 0 else 1) = Z.of_nat (pad_of t).
Proof.
  pose proof (land_bit (2 * Z.of_nat t) 1 ltac:(lia)) as E0. change (Z.shiftl 1 1) with 2 in E0.
  rewrite E0.
  assert (Z.testbit (2 * Z.of_nat t) 1 = Z.odd (Z.of_nat t)) as ->
    by (rewrite <- Z.bit0_odd; apply (Z.double_bits_succ _ 0)).
  unfold pad_of.
  pose proof (Nat.div_mod t 2 ltac:(done)) as E. pose proof (Nat.mod_upper_bound t 2 ltac:(done)).
  destruct (t mod 2)%nat as [|[|]]; [| |lia].
  - replace (Z.of_nat t) with (2 * Z.of_nat (t / 2)) by lia. by rewrite Z.odd_mul.
  - replace (Z.of_nat t) with (1 + 2 * Z.of_nat (t / 2)) by lia. by rewrite Z.odd_add_mul_2.
Qed.

(** The instructions that the jump covers: [m] half-words. *)
Definition covers (symbol : Z) (area : list Z) (m : nat) (ks : list thumb_class) : Prop :=
  thumb_used (Z.to_nat ((align_of symbol + 6) * 2)) area 0 ((align_of symbol + 6) * 2) =
    Ret (2 * Z.of_nat m) /\
  align_of symbol + 6 <= Z.of_nat m <= align_of symbol + 7 /\ parsed (take m area) ks.

Lemma covers_exists symbol area : half_range area -> (9 <= length area)%nat ->
  exists m ks, covers symbol area m ks.
Proof.
  intros Hr Hl. destruct (align_of_cases symbol) as [E|E]; unfold covers; rewrite E.
  - destruct (thumb_used_ok 12 area 0 12 Hr) as (w & ks & H1 & H2 & H3); [lia|done|lia|lia|].
    exists w, ks. split; [exact H1|]. split; [lia|exact H3].
  - destruct (thumb_used_ok 14 area 0 14 Hr) as (w & ks & H1 & H2 & H3); [lia|done|lia|lia|].
    exists w, ks. split; [exact H1|]. split; [lia|exact H3].
Qed.

Lemma used_rounded m : (2 * Z.of_nat m + 1) / 2 * 2 = 2 * Z.of_nat m.
Proof. rewrite (Z.mul_comm 2 (Z.of_nat m)), Z.div_add_l by lia. change (1 / 2) with 0. lia. Qed.

(** The function from the point where it has counted the instructions. *)
Lemma hook_thumb_fresh area symbol replace want buffer protect m ks :
  symbol <> 0 -> (9 <= length area)%nat -> hooked area (align_of symbol) = Ret false ->
  covers symbol area m ks ->
  SubstrateHookFunctionThumb area symbol replace want buffer protect =
    let install result := Ret (mkHook (jumped symbol replace m area) result (2 * Z.of_nat m)) in
    if want then
      match buffer with
      | None => Ret (mkHook area Null 0)
      | Some buffer =>
          let pad := pad_of (total ks) in
          o ← thumb_moved symbol (2 * Z.of_nat m) (2 * Z.of_nat (moved_size pad ks)) (Z.of_nat pad) (take m area);
          match o with
          | None => Ret (mkHook area Null 0)
          | Some buf =>
              if protect then install (Moved (u32 (buffer + 2 * Z.of_nat pad + 1)) buf)
              else Ret (mkHook area NotWritten 0)
          end
      end
    else install NotWritten.
Proof.
  intros Hs Hl Hh (Hu & Hm & Hp). unfold SubstrateHookFunctionThumb.
  apply Z.eqb_neq in Hs. rewrite Hs. cbv zeta. fold (align_of symbol).
  rewrite Hh, bind_Ret, Hu, bind_Ret, used_rounded.
  pose proof (align_of_cases symbol) as Ha.
  replace (2 * Z.of_nat m - (align_of symbol + 6) * 2) with (2 * (Z.of_nat m - (align_of symbol + 6))) by lia.
  rewrite !half_of_double, Nat2Z.id, load_in_bounds by lia. rewrite bind_Ret, drop_0.
  rewrite puts_jump by lia. rewrite !bind_Ret.
  destruct want; [|done]. rewrite (parsed_measure _ _ _ Hp), bind_Ret.
  pose proof (parsed_total _ _ Hp) as Ht. rewrite length_take in Ht.
  replace (2 * Z.of_nat m + extras ks * 2) with (2 * Z.of_nat (total ks)) by lia.
  rewrite pad_of_source. destruct buffer as [b|]; [|done].
  replace (2 * Z.of_nat (total ks) + (Z.of_nat (pad_of (total ks)) + 2) * 2 + 2 * 4)
    with (2 * Z.of_nat (moved_size (pad_of (total ks)) ks)) by (unfold moved_size; lia).
  destruct (thumb_moved _ _ _ _ _) as [[buf|]|]; [|done|done]. rewrite !bind_Ret. by destruct protect.
Qed.

Lemma get_total l i : 0 <= i < Z.of_nat (length l) -> exists v, get l i = Ret v.
Proof. intros H. destruct (get_ok l i H) as (v & E & _). by exists v. Qed.

Lemma hooked_total symbol area : (9 <= length area)%nat ->
  exists b, hooked area (align_of symbol) = Ret b.
Proof.
  intros Hl. pose proof (align_of_cases symbol) as Ha. unfold hooked, get32.
  destruct (get_total area 0) as [v0 E0]; [lia|].
  destruct (get_total area (align_of symbol)) as [v1 E1]; [lia|].
  destruct (get_total area (align_of symbol + 1)) as [v2 E2]; [lia|].
  destruct (get_total area (align_of symbol + 2)) as [v3 E3]; [lia|].
  destruct (get_total area (align_of symbol + 2 + 1)) as [v4 E4]; [lia|].
  rewrite E0, E1, E2, E3, E4. cbn.
  destruct (align_of symbol =? 0); cbn; repeat (case_match; cbn; try by eexists).
Qed.

(** The words that a hook in place has at [align]. *)
Lemma hooked_jump align r blank rest : align = 0 \/ align = 1 ->
  hooked (thumb_jump align r blank ++ rest) align = Ret true.
Proof. intros [-> | ->]; reflexivity. Qed.

Lemma get32_jump align r blank rest : align = 0 \/ align = 1 ->
  get32 (thumb_jump align r blank ++ rest) (align + 4) = Ret (u32 r).
Proof.
  intros [-> | ->]; unfold thumb_jump; rewrite <- !app_assoc.
  - by apply (get32_app ([T_bx A_pc; T_nop] ++ halves ldr_pc)).
  - by apply (get32_app ([T_nop; T_bx A_pc; T_nop] ++ halves ldr_pc)).
Qed.

Lemma puts_replace_jump align r r' blank rest : align = 0 \/ align = 1 ->
  puts (thumb_jump align r blank ++ rest) (align + 4) (halves r') = Ret (thumb_jump align r' blank ++ rest).
Proof.
  intros [-> | ->]; unfold thumb_jump; rewrite <- !app_assoc.
  - by apply (puts_app ([T_bx A_pc; T_nop] ++ halves ldr_pc) (halves r)).
  - by apply (puts_app ([T_nop; T_bx A_pc; T_nop] ++ halves ldr_pc) (halves r)).
Qed.

(** A hook on a function that has been hooked changes the replacement only. *)
Lemma hook_thumb_again symbol r r' m area want buffer protect : symbol <> 0 ->
  SubstrateHookFunctionThumb (jumped symbol r m area) symbol r' want buffer protect =
    Ret (mkHook (jumped symbol r' m area) (if want then Original (u32 r) else NotWritten) 4).
Proof.
  intros Hs. unfold SubstrateHookFunctionThumb, jumped.
  apply Z.eqb_neq in Hs. rewrite Hs. cbv zeta. fold (align_of symbol).
  pose proof (align_of_cases symbol).
  by rewrite hooked_jump, bind_Ret, get32_jump, bind_Ret, puts_replace_jump, bind_Ret by done.
Qed.

(** What a hook on a fresh Thumb function is: the mapping holds the padding, a
    body, the jump back to the first instruction that was not covered, and
    whole words of literals; the function holds the jump to the replacement. *)
Record relocated (area : list Z) (symbol replace : Z) (m : nat) (buffer : Z) (h : hook) (code : list Z) : Prop := {
  re_code : exists pad body words, (pad <= 1)%nat /\
    code = replicate pad 0 ++ body ++ thumb_exit (u32 (symbol + 2 * Z.of_nat m + 1)) ++ words /\
    Nat.Even (length words) /\ Nat.Even (pad + length body) /\
    result h = Moved (u32 (buffer + 2 * Z.of_nat pad + 1)) code;
  re_area : area_after h = jumped symbol replace m area;
  re_returned : returned h = 2 * Z.of_nat m;
}.

(** Both outcomes of moving the code. *)
Lemma thumb_moved_cases symbol used backup ks : parsed backup ks ->
  let pad := pad_of (total ks) in
  let moved := thumb_moved symbol used (2 * Z.of_nat (moved_size pad ks)) (Z.of_nat pad) backup in
  moved = Ret None \/
  exists body words, moved =
    Ret (Some (replicate pad 0 ++ body ++ thumb_exit (u32 (symbol + used + 1)) ++ words)) /\
    Nat.Even (length words) /\ Nat.Even (pad + length body).
Proof.
  intros Hp pad moved.
  destruct (thumb_loop_at backup ks symbol (replicate pad 0) (total ks + 6) [] Hp ltac:(lia))
    as [E|(hs & ts & E & Hts & Ht)].
  - left. subst moved. unfold thumb_moved. by rewrite half_of_double, thumb_start, E.
  - right. exists hs, ts. replace (total ks + 6 - total ks)%nat with 6%nat in E by lia.
    rewrite app_nil_r in E. subst moved. rewrite (thumb_moved_done _ _ _ _ _ _ _ E).
    split; [done|]. split; [done|]. destruct Hts as [a Ha]. destruct (pad_of_even (total ks)) as [b Hb].
    fold pad in Hb. exists (b - a)%nat. lia.
Qed.

Section ThumbHook.
Context (area : list Z) (symbol : Z).
Hypothesis symbol_nonnull : symbol <> 0.
Hypothesis area_halves : half_range area.
Hypothesis area_readable : (9 <= length area)%nat.
Hypothesis area_fresh : hooked area (align_of symbol) = Ret false.


(** A moved unconditional B.W, for which T$b$_$im gives the condition alone, is
    the half-word 0x000e, which is MOVS r6, r1, and not a branch; the words that
    it should reach are written and never reached. *)
Theorem wide_branch_lost here ic ic1 head n tail : field 12 1 ic1 <> 0 -> (7 <= n)%nat ->
  thumb_move here ic ic1 T2B (thumb_at head n tail) =
    Ret (Some (thumb_at (head ++ [0x000e]) (n - 7) (words_back [target_2b here ic ic1; ldr_pc; to_arm] tail))).
Proof.
  intros Hx%Z.eqb_neq Hn. unfold thumb_move. rewrite Hx. cbn [negb].
  rewrite emit_at by (cbn [length]; lia). cbn [length]. rewrite bind_Ret. do 3 f_equal. lia.
Qed.

(** Instructions that do not refer to the program counter are moved as they
    are. *)
Theorem thumb_plain_copy replace buffer m ks :
  covers symbol area m ks -> forallb plain_class ks = true ->
  SubstrateHookFunctionThumb area symbol replace true (Some buffer) true =
    let pad := pad_of (total ks) in
    Ret (mkHook (jumped symbol replace m area)
           (Moved (u32 (buffer + 2 * Z.of_nat pad + 1))
              (replicate pad 0 ++ take m area ++ thumb_exit (u32 (symbol + 2 * Z.of_nat m + 1))))
           (2 * Z.of_nat m)).
Proof.
  intros Hc Hk. rewrite (hook_thumb_fresh _ _ _ _ _ _ m ks) by done. cbv zeta.
  destruct Hc as (_ & Hm & Hp). pose proof (align_of_cases symbol) as Ha.
  pose proof (parsed_total _ _ Hp) as Ht.
  assert (extras ks = 0) as Hx.
  { clear -Hk. induction ks as [|k ks IH]; [done|]. cbn [forallb] in Hk. apply andb_prop in Hk as [H1 H2].
    rewrite extras_cons, IH by done. by destruct k. }
  rewrite Hx in Ht.
  rewrite (thumb_moved_done symbol (2 * Z.of_nat m) (take m area) (pad_of (total ks)) ks (take m area) []).
  - by rewrite app_nil_r.
  - rewrite (thumb_loop_plain _ ks) by (done || lia). do 3 f_equal. lia.
Qed.

(** Hooking twice gives the function that hooking once with the second
    replacement gives, and reports the first replacement as the original. *)
Theorem thumb_rehook r r' want want' buffer buffer' protect protect' h :
  SubstrateHookFunctionThumb area symbol r want buffer protect = Ret h -> returned h <> 0 ->
  exists area', 
    SubstrateHookFunctionThumb (area_after h) symbol r' want' buffer' protect' =
      Ret (mkHook area' (if want' then Original (u32 r) else NotWritten) 4) /\
    exists h', SubstrateHookFunctionThumb area symbol r' want buffer protect = Ret h' /\ area_after h' = area'.
Proof.
  intros E Hret. destruct (covers_exists symbol area area_halves area_readable) as (m & ks & Hc).
  rewrite (hook_thumb_fresh _ _ _ _ _ _ m ks) in E by done. cbv zeta in E.
  assert (exists res, area_after h = jumped symbol r m area /\
    exists h', SubstrateHookFunctionThumb area symbol r' want buffer protect = Ret h' /\
    h' = mkHook (jumped symbol r' m area) res (2 * Z.of_nat m)) as (res & -> & h' & E' & ->).
  { rewrite (hook_thumb_fresh _ _ _ _ _ _ m ks) by done. cbv zeta.
    destruct want; [|injection E as <-; eexists; split; [done|]; by eexists].
    destruct buffer as [b|]; [|by injection E as <-].
    destruct (thumb_moved _ _ _ _ _) as [[buf|]|]; cbn in *; [|by injection E as <-|done].
    destruct protect; injection E as <-; [|done]. eexists. split; [done|]. by eexists. }
  exists (jumped symbol r' m area). rewrite hook_thumb_again by done. split; [done|].
  eexists. split; [exact E'|done].
Qed.
End ThumbHook.

(** * Where the moved code refers to

    The half-word index that an instruction at index [pos] of the mapping
    refers to, by the architecture manual; the mapping starts on a page. *)
Definition lit_target (pos ic : Z) : Z := (pos * 2 + 4) / 4 * 2 + field 0 8 ic * 2.
Definition branch_target (pos ic : Z) : Z :=
  pos + 2 + (if field 12 4 ic =? 0xe then swrap 11 (field 0 11 ic) else swrap 8 (field 0 8 ic)).
Definition cbz_target (pos ic : Z) : Z := pos + 2 + field 9 1 ic * 32 + field 3 5 ic.
Definition ldrw_target (pos ic ic1 : Z) : Z :=
  (pos * 2 + 4) / 4 * 2 + (if field 7 1 ic =? 0 then - field 0 12 ic1 else field 0 12 ic1) / 2.

(** The reference in the code written for an instruction. *)
Definition reference (k : thumb_class) (hs : list Z) (pos : Z) : option Z :=
  match k, hs with
  | TLdr, i :: _ => Some (lit_target pos i)
  | TB, i :: _ | T2B, i :: _ => Some (branch_target pos i)
  | TBl, _ :: i :: _ => Some (lit_target (pos + 1) i)
  | TCbz, _ :: _ :: _ :: i :: _ => Some (cbz_target (pos + 3) i)
  | TLdrw, i :: j :: _ => Some (ldrw_target pos i j)
  | TAdd, _ :: _ :: i :: _ => Some (lit_target (pos + 2) i)
  | _, _ => None
  end.

(** The word it must find there: the address or the value that the original
    instruction at [here] computes, or the first instructions on the way to the
    branch's target. *)
Definition referred (k : thumb_class) (here ic ic1 : Z) : Z :=
  match k with
  | TLdr => (here + 4) / 4 * 4 + field 0 8 ic * 4
  | TLdrw => (here + 4) / 4 * 4 + (if field 7 1 ic =? 0 then - field 0 12 ic1 else field 0 12 ic1)
  | TAdd => here + 4
  | TBl => target_bl here ic ic1
  | TCbz => T_msr_apsr_nzcvqg_rn (if field 0 3 ic =? A_r7 then A_r6 else A_r7)
  | _ => to_arm
  end.

Lemma land_shiftl_ones a w : 0 <= w -> Z.land (Z.shiftl a w) (Z.ones w) = 0.
Proof. intros H. rewrite Z.land_ones, Z.shiftl_mul_pow2 by lia. apply Z_mod_mult. Qed.

Lemma field_imm8 base r im : field 0 8 base = 0 ->
  field 0 8 (Z.lor (Z.lor base (Z.shiftl r 8)) (Z.land im 0xff)) = u8 im.
Proof.
  unfold field. rewrite !Z.shiftr_0_r. intros Hb. change 0xff with (Z.ones 8).
  rewrite !Z.land_lor_distr_l, Hb, land_shiftl_ones, <- Z.land_assoc, Z.land_diag by lia.
  cbn [Z.lor]. by rewrite wrap_land_ones.
Qed.

Lemma lit_target_ok pos end_ r d : 0 <= d <= 1 ->
  0 <= pos -> end_ = 2 * (end_ / 2) -> pos + 2 <= end_ <= pos + 256 ->
  d = (if pos mod 2 =? 0 then 0 else 1) ->
  lit_target pos (T_ldr_rd_pc_im_4 r (u32 ((end_ - pos) * 2 - 4 + 2 * d) / 4)) = end_.
Proof.
  intros Hd Hp He Hr Ed. unfold lit_target, T_ldr_rd_pc_im_4. rewrite field_imm8 by done.
  rewrite (wrap_small 32) by (split; lia).
  pose proof (Z.div_mod pos 2 ltac:(done)) as Hq. pose proof (Z.mod_pos_bound pos 2 ltac:(done)).
  assert (pos mod 2 = d) as Hm by (destruct (Z.eqb_spec (pos mod 2) 0); lia).
  set (q := pos / 2) in *. set (e := end_ / 2) in *.
  replace ((end_ - pos) * 2 - 4 + 2 * d) with ((e - q - 1) * 4) by lia.
  rewrite Z.div_mul by done. rewrite wrap_small by (split; lia).
  replace (pos * 2 + 4) with (2 * d + (q + 1) * 4) by lia.
  rewrite Z.div_add, Z.div_small by lia. lia.
Qed.

Lemma T_Label_of pos end_ : exists d, 0 <= d <= 1 /\ d = (if pos mod 2 =? 0 then 0 else 1) /\
  T_Label pos end_ = u32 ((end_ - pos) * 2 - 4 + 2 * d).
Proof. unfold T_Label. destruct (_ =? _); [exists 0|exists 1]; repeat split; lia. Qed.

(** The literal load of the [bl] case rounds to the same word. *)
Lemma bl_literal pos end_ : 0 <= pos -> end_ = 2 * (end_ / 2) -> pos + 2 <= end_ <= pos + 256 ->
  u32 ((end_ - pos) * 2 - 4 + 2) / 4 = u32 ((end_ - pos) * 2 - 4 + 2 * (if pos mod 2 =? 0 then 0 else 1)) / 4.
Proof.
  intros Hp He Hr. pose proof (Z.div_mod pos 2 ltac:(done)) as Hq.
  pose proof (Z.mod_pos_bound pos 2 ltac:(done)).
  destruct (Z.eqb_spec (pos mod 2) 0) as [E|E]; [|done].
  rewrite !wrap_small by (split; lia).
  replace ((end_ - pos) * 2 - 4 + 2) with (2 + (end_ / 2 - pos / 2 - 1) * 4) by lia.
  replace ((end_ - pos) * 2 - 4 + 2 * 0) with (0 + (end_ / 2 - pos / 2 - 1) * 4) by lia.
  by rewrite !Z.div_add.
Qed.

(** Integers from [a], [n] of them, for exhaustive checks. *)
Definition upto (a : Z) (n : nat) : list Z := map (fun i => a + Z.of_nat i) (seq 0 n).

Lemma upto_complete a n z : a <= z < a + Z.of_nat n -> In z (upto a n).
Proof.
  intros H. apply in_map_iff. exists (Z.to_nat (z - a)). split; [lia|]. apply in_seq. lia.
Qed.

Lemma upto_forall (P : Z -> bool) a n : forallb P (upto a n) = true ->
  forall z, a <= z < a + Z.of_nat n -> P z = true.
Proof. intros H z Hz. rewrite forallb_forall in H. by apply H, upto_complete. Qed.

Lemma branch_offsets :
  forallb (fun cond => forallb (fun d =>
    branch_target 0 (T_b_im cond (u32 (d * 2 - 4))) =? d) (upto 1 129)) (upto 0 16) = true.
Proof. vm_compute. reflexivity. Qed.

Lemma branch_target_ok pos cond d : 0 <= cond < 16 -> 1 <= d < 130 ->
  branch_target pos (T_b_im cond (u32 (d * 2 - 4))) = pos + d.
Proof.
  intros Hc Hd. pose proof (upto_forall _ _ _ branch_offsets cond ltac:(lia)) as H1. cbv beta in H1.
  pose proof (upto_forall _ _ _ H1 d ltac:(lia)) as H2. apply Z.eqb_eq in H2.
  unfold branch_target in *. lia.
Qed.

Lemma cbz_offsets :
  forallb (fun op => forallb (fun rn => forallb (fun d =>
    Bool.eqb (cbz_target 0 (T_cbz_rn_im op rn (u32 (d * 2 - 4))) =? d) (d <? 66))
    (upto 4 127)) (upto 0 8)) (upto 0 2) = true.
Proof. vm_compute. reflexivity. Qed.

(** The short branch reaches 65 half-words. *)
Lemma cbz_target_ok pos op rn d : 0 <= op < 2 -> 0 <= rn < 8 -> 4 <= d < 131 ->
  cbz_target pos (T_cbz_rn_im op rn (u32 (d * 2 - 4))) = pos + d <-> d < 66.
Proof.
  intros Ho Hr Hd. pose proof (upto_forall _ _ _ cbz_offsets op ltac:(lia)) as H1. cbv beta in H1.
  pose proof (upto_forall _ _ _ H1 rn ltac:(lia)) as H2. cbv beta in H2.
  pose proof (upto_forall _ _ _ H2 d ltac:(lia)) as H3. apply Bool.eqb_prop in H3.
  unfold cbz_target in *. lia.
Qed.

Lemma ldrw_target_ok pos end_ rt : 0 <= pos -> end_ = 2 * (end_ / 2) -> pos + 2 <= end_ <= pos + 256 ->
  ldrw_target pos (T1_ldr_rt_rn_im rt A_pc (T_Label pos end_)) (T2_ldr_rt_rn_im rt A_pc (T_Label pos end_)) = end_.
Proof.
  intros Hp He Hr. destruct (T_Label_of pos end_) as (d & Hd & Ed & ->).
  pose proof (Z.div_mod pos 2 ltac:(done)) as Hq. pose proof (Z.mod_pos_bound pos 2 ltac:(done)).
  assert (pos mod 2 = d) as Hm by (destruct (Z.eqb_spec (pos mod 2) 0); lia).
  rewrite (wrap_small 32) by (split; lia).
  set (q := pos / 2) in *. set (e := end_ / 2) in *.
  replace ((end_ - pos) * 2 - 4 + 2 * d) with ((e - q - 1) * 4) by lia.
  unfold ldrw_target, T1_ldr_rt_rn_im, T2_ldr_rt_rn_im.
  destruct (Z.ltb_spec ((e - q - 1) * 4) 0) as [|_]; [lia|].
  change (field 7 1 (Z.lor (Z.lor 0xf850 (Z.shiftl 1 7)) A_pc) =? 0) with false. cbv iota.
  rewrite swrap_small, Z.abs_eq by lia. unfold field.
  rewrite Z.shiftr_0_r, Z.land_lor_distr_l, land_shiftl_ones, Z.lor_0_l, wrap_land_ones by lia.
  rewrite wrap_small by (split; lia).
  replace ((e - q - 1) * 4 / 2) with ((e - q - 1) * 2) by (apply Z.div_unique_exact; lia).
  replace (pos * 2 + 4) with (2 * d + (q + 1) * 4) by lia.
  rewrite Z.div_add, Z.div_small by lia. lia.
Qed.

Lemma field_range p w v : 0 <= w -> 0 <= field p w v < 2 ^ w.
Proof. intros H. unfold field. rewrite wrap_land_ones by done. by apply wrap_range. Qed.

(** [& ~0x2] on an even address. *)
Lemma align_word a : Z.even a = true -> u32 (Z.ldiff (u32 a) 0x2) = u32 (a / 4 * 4).
Proof.
  intros He. assert (Z.even (u32 a) = true) as He'.
  { unfold wrap. rewrite Z.mod_eq, Z.even_sub, Z.even_mul, He by done. done. }
  assert (Z.ldiff (u32 a) 0x2 = Z.ldiff (u32 a) (Z.ones 2)) as ->.
  { apply Z.bits_inj'. intros i Hi. rewrite !Z.ldiff_spec. destruct (decide (i = 0)) as [->|].
    - by rewrite !Z.bit0_odd, <- Z.negb_even, He'.
    - f_equal. f_equal. change 0x2 with (2 ^ 1). rewrite Z.pow2_bits_eqb, Z.testbit_ones_nonneg by lia.
      destruct (Z.eqb_spec 1 i), (Z.ltb_spec i 2); lia || done. }
  rewrite Z.ldiff_ones_r, Z.shiftl_mul_pow2, Z.shiftr_div_pow2 by lia. change (2 ^ 2) with 4.
  unfold wrap. pose proof (Z.div_mod a (2 ^ 32) ltac:(done)) as E. rewrite E at 2.
  replace (2 ^ 32 * (a / 2 ^ 32) + a mod 2 ^ 32) with (a mod 2 ^ 32 + (a / 2 ^ 32 * 2 ^ 30) * 4) by lia.
  rewrite Z.div_add, Z.mul_add_distr_r by done.
  rewrite <- Z.mul_assoc. change (2 ^ 30 * 4) with (2 ^ 32). by rewrite Z_mod_plus_full.
Qed.

Lemma align_word_plus a x : Z.even a = true -> u32 (u32 (Z.ldiff (u32 a) 0x2 + x)) = u32 (a / 4 * 4 + x).
Proof. intros He. rewrite wrap_wrap, <- wrap_add_l, align_word, wrap_add_l by done. done. Qed.

Lemma drop_layout head hs n tail :
  drop (length head) (layout (head ++ hs) n tail) = hs ++ replicate n 0 ++ tail.
Proof. unfold layout. by rewrite <- app_assoc, drop_app_length. Qed.

Lemma get32_layout head n w tail :
  get32 (layout head n (halves w ++ tail)) (Z.of_nat (length head) + Z.of_nat n) = Ret (u32 w).
Proof.
  unfold layout. rewrite (app_assoc head). apply get32_app. rewrite length_app, length_replicate. lia.
Qed.

Lemma emit_refers head n tail hs ws w taken s' :
  taken = 2 * Z.of_nat (S (length ws)) -> Z.of_nat (length hs) + taken <= Z.of_nat n ->
  (s ← emit (thumb_at head n tail) hs (ws ++ [w]) taken; Ret (Some s)) = Ret (Some s') ->
  t_end s' = Z.of_nat (length head) + Z.of_nat n - taken /\
  (exists r, drop (length head) (t_buf s') = hs ++ r) /\
  get32 (t_buf s') (t_end s') = Ret (u32 w).
Proof.
  intros Ht Hn E. rewrite emit_at in E by (rewrite length_app; cbn [length]; lia).
  rewrite bind_Ret in E. injection E as <-. unfold thumb_at. cbn [t_end t_buf].
  split; [rewrite !length_app; cbn [length]; lia|].
  split; [eexists; apply drop_layout|].
  unfold words_back. rewrite fold_left_app. cbn [fold_left]. apply get32_layout.
Qed.

(** The two literal loads. *)
Lemma label_literal pos end_ r : 0 <= pos -> end_ = 2 * (end_ / 2) -> pos + 2 <= end_ <= pos + 256 ->
  lit_target pos (T_ldr_rd_pc_im_4 r (T_Label pos end_ / 4)) = end_.
Proof.
  intros Hp He Hr. destruct (T_Label_of pos end_) as (d & Hd & Ed & ->). by apply lit_target_ok.
Qed.

Lemma bl_literal_ok pos end_ r : 0 <= pos -> end_ = 2 * (end_ / 2) -> pos + 2 <= end_ <= pos + 256 ->
  lit_target pos (T_ldr_rd_pc_im_4 r (u32 ((end_ - pos) * 2 - 4 + 2) / 4)) = end_.
Proof.
  intros Hp He Hr. rewrite bl_literal by done. apply lit_target_ok; try done. by destruct (_ =? _).
Qed.

(** Whatever the instruction, the code it has become refers to the word that
    the relocator has just put before the literals, and that word is the one
    the instruction needs. The exceptions are [cbz], whose short branch reaches
    when at most 78 half-words were free, and the unconditional wide branch,
    which is lost ([wide_branch_lost]). *)
Theorem thumb_move_refers here ic ic1 k head n tail s' :
  Z.even here = true -> Nat.Even (length head + n) -> (units k <= n <= 130)%nat ->
  (k = TCbz -> n <= 78)%nat -> (k = T2B -> field 12 1 ic1 = 0) -> plain_class k = false ->
  thumb_move here ic ic1 k (thumb_at head n tail) = Ret (Some s') ->
  reference k (drop (length head) (t_buf s')) (Z.of_nat (length head)) = Some (t_end s') /\
  get32 (t_buf s') (t_end s') = Ret (u32 (referred k here ic ic1)).
Proof.
  intros Hh [e He] Hn Hc Hb Hk E.
  set (p := Z.of_nat (length head)) in *.
  assert (p + Z.of_nat n - 2 = 2 * ((p + Z.of_nat n - 2) / 2)) as Hev.
  { replace (p + Z.of_nat n - 2) with (2 * (Z.of_nat e - 1)) by lia. by rewrite half_of_double. }
  assert (Z.even (here + 4) = true) as Hh4 by (by rewrite Z.even_add, Hh).
  assert (0 <= p) as Hp by lia.
  destruct k; try discriminate Hk; cbn in Hn; unfold thumb_move, move_bl, move_cbz, move_ldrw, move_add in E;
    cbn [t_start t_end thumb_at] in E; fold p in E; cbn [referred].
  - apply (emit_refers _ _ _ _ []) in E as (-> & (r & ->) & ->); [|done|cbn; lia].
    cbn [reference app]. fold p. rewrite label_literal by lia. by rewrite align_word_plus.
  - apply (emit_refers _ _ _ _ [_; _]) in E as (-> & (r & ->) & ->); [|done|cbn; lia].
    cbn [reference app]. fold p. rewrite branch_target_ok by (pose proof (field_range 8 4 ic); lia).
    split; [f_equal; lia|done].
  - rewrite (Hb eq_refl) in E. cbn [Z.eqb negb] in E.
    apply (emit_refers _ _ _ _ [_; _]) in E as (-> & (r & ->) & ->); [|done|cbn; lia].
    cbn [reference app]. fold p. rewrite branch_target_ok by (pose proof (field_range 6 4 ic); lia).
    split; [f_equal; lia|done].
  - apply (emit_refers _ _ _ _ []) in E as (-> & (r & ->) & ->); [|done|cbn; lia].
    cbn [reference app]. fold p. by rewrite bl_literal_ok by lia.
  - apply (emit_refers _ _ _ _ [_; _; _; _]) in E as (-> & (r & ->) & ->); [|done|cbn; lia].
    cbn [reference app]. fold p. split; [|done].
    f_equal. specialize (Hc eq_refl).
    replace (p + Z.of_nat n - 10) with (p + 3 + (Z.of_nat n - 13)) by lia.
    replace (p + 3 + (Z.of_nat n - 13) - (p + 3)) with (Z.of_nat n - 13) by lia.
    apply cbz_target_ok; [apply (field_range 11 1)|apply (field_range 0 3)| |]; lia.
  - apply (emit_refers _ _ _ _ []) in E as (-> & (r & ->) & ->); [|done|cbn; lia].
    cbn [reference app]. fold p. rewrite ldrw_target_ok by lia. by rewrite align_word_plus.
  - destruct (negb _); [discriminate E|].
    apply (emit_refers _ _ _ _ []) in E as (-> & (r & ->) & ->); [|done|cbn; lia].
    cbn [reference app]. fold p. rewrite label_literal by lia. by rewrite wrap_wrap.
Qed.

(** Beyond those 78 half-words the short branch goes elsewhere: its offset is
    cut to seven bits. *)
Theorem cbz_out_of_reach here ic head n tail s' :
  (78 < n <= 130)%nat -> thumb_move here ic 0 TCbz (thumb_at head n tail) = Ret (Some s') ->
  reference TCbz (drop (length head) (t_buf s')) (Z.of_nat (length head)) <> Some (t_end s').
Proof.
  intros Hn E. unfold thumb_move, move_bl, move_cbz, move_ldrw, move_add in E. cbn [t_start t_end thumb_at] in E.
  set (p := Z.of_nat (length head)) in *.
  apply (emit_refers _ _ _ _ [_; _; _; _]) in E as (-> & (r & ->) & _); [|done|cbn; lia].
  cbn [reference app]. fold p. intros [= F].
  replace (p + Z.of_nat n - 10) with (p + 3 + (Z.of_nat n - 13)) in F by lia.
  replace (p + 3 + (Z.of_nat n - 13) - (p + 3)) with (Z.of_nat n - 13) in F by lia.
  apply cbz_target_ok in F; [lia|apply (field_range 11 1)|apply (field_range 0 3)|]; lia.
Qed.

(** [bl] and [blx] immediate by the manual: [blx] counts from the aligned
    program counter, and goes to ARM code. *)
Definition manual_bl (here ic ic1 : Z) : Z :=
  let jump := target_bl 0 ic ic1 - 4 in
  u32 (if field 12 1 ic1 =? 0 then (here + 4) / 4 * 4 + jump else here + 4 + jump).

(** The address stored for a [blx] at an address that is not a multiple of
    four is two bytes after its target. *)
Theorem blx_target_off here ic ic1 : Z.even here = true ->
  target_bl here ic ic1 =
    u32 (manual_bl here ic ic1 + (if field 12 1 ic1 =? 0 then here mod 4 else 0)).
Proof.
  intros He. unfold manual_bl, target_bl. cbv zeta.
  set (j := sign_extend 7 _). rewrite wrap_add_l.
  assert (here mod 4 = here - here / 4 * 4) as Hm by (rewrite Z.mod_eq by done; lia).
  assert ((here + 4) / 4 * 4 = here / 4 * 4 + 4) as Ha
    by (replace (here + 4) with (here + 1 * 4) by lia; rewrite Z.div_add by done; lia).
  destruct (_ =? 0).
  - rewrite Ha, Hm.
    replace (here / 4 * 4 + 4 + (u32 (0 + 4 + j) - 4) + (here - here / 4 * 4)) with (here + u32 (0 + 4 + j)) by lia.
    rewrite wrap_add_r. f_equal. lia.
  - replace (here + 4 + (u32 (0 + 4 + j) - 4) + 0) with (here + u32 (0 + 4 + j)) by lia.
    rewrite wrap_add_r. f_equal. lia.
Qed.

(** * Hooking an ARM function *)

Definition arm_at (head : list Z) (n : nat) (tail : list Z) : arm_state :=
  let e := Z.of_nat (length head) + Z.of_nat n in
  mkArm (layout head n tail) (Z.of_nat (length head)) e e.

Definition arm_words (ic : Z) : nat := 1 + Z.to_nat (arm_extra ic) / 4.

Lemma arm_extra_cases ic : arm_extra ic =
  if A_pcrel_r ic then if Z.land ic 0x02000000 =? 0 then 8 else 16 else 0.
Proof.
  unfold arm_extra. destruct (A_pcrel_r ic); [|done].
  change (Z.shiftr 0x0000f000 12) with 0x0000000f. rewrite Z.eqb_refl. by destruct (_ =? 0).
Qed.

Lemma arm_words_cases ic : arm_words ic =
  if A_pcrel_r ic then if Z.land ic 0x02000000 =? 0 then 3%nat else 5%nat else 1%nat.
Proof. unfold arm_words. rewrite arm_extra_cases. by destruct (A_pcrel_r ic), (Z.land ic 0x02000000 =? 0). Qed.

Lemma mode_bit ic : Z.land ic 0x02000000 = 0 <-> field 25 1 ic = 0.
Proof.
  change 0x02000000 with (Z.shiftl 1 25). rewrite <- Z.eqb_eq, land_bit, <- Z.eqb_eq by lia.
  unfold field. change (Z.ones 1) with (Z.shiftl 1 0). rewrite land_bit, Z.shiftr_spec by lia. done.
Qed.

Lemma puts_one buf i v : puts buf i [v] = put buf i v.
Proof. cbn. by destruct (put buf i v). Qed.

Lemma put_layout head n tail v : (1 <= n)%nat ->
  put (layout head n tail) (Z.of_nat (length head)) v = Ret (layout (head ++ [v]) (n - 1) tail).
Proof. intros H. rewrite <- puts_one. by apply (puts_layout head n tail [v]). Qed.

Lemma put_layout_end head n tail v i : (1 <= n)%nat -> i = Z.of_nat (length head) + Z.of_nat n - 1 ->
  put (layout head n tail) i v = Ret (layout head (n - 1) (v :: tail)).
Proof. intros H ->. rewrite <- puts_one. by apply (puts_layout_end head n tail [v]). Qed.

Lemma arm_move_at symbol offset ic head n tail : (arm_words ic <= n)%nat ->
  exists hs ws, (length hs + length ws <= arm_words ic)%nat /\
    arm_move symbol offset ic (arm_at head n tail) =
      Ret (arm_at (head ++ hs) (n - length hs - length ws) (ws ++ tail)).
Proof.
  rewrite arm_words_cases. intros Hn. unfold arm_move, arm_at.
  cbn [a_buf a_start a_end a_trailer]. destruct (A_pcrel_r ic); cycle 1.
  { exists [ic], []. split; [cbn; lia|].
    rewrite put_layout by lia. rewrite bind_Ret. do 2 f_equal; rewrite ?length_app; cbn [length app]; [f_equal|..]; lia. }
  assert (forall b, (2 <= n)%nat -> 
    put (layout head n tail) (Z.of_nat (length head)) b = Ret (layout (head ++ [b]) (n - 1) tail)) as P1
    by (intros; apply put_layout; lia).
  destruct ((field 25 1 ic =? 0) || negb (field 12 4 ic =? field 0 4 ic)) eqn:Hg; cbn [negb].
  - set (i1 := A_ldr_rd_rn_im _ _ _). set (i2 := Z.lor _ _). exists [i1; i2], [u32 (symbol + 4 * offset + 8)].
    assert (3 <= n)%nat as Hn3 by (destruct (Z.land ic 0x02000000 =? 0); lia).
    split; [destruct (Z.land ic 0x02000000 =? 0); cbn [length]; lia|].
    rewrite bind_Ret. rewrite puts_layout by (cbn; lia). rewrite !bind_Ret. cbn [length].
    rewrite put_layout_end by (rewrite ?length_app; cbn; lia). rewrite bind_Ret.
    do 2 f_equal; rewrite ?length_app; cbn [length app]; [f_equal|..]; lia.
  - apply orb_false_elim in Hg as [Hm _].
    destruct (Z.eqb_spec (Z.land ic 0x02000000) 0) as [Hz|_].
    { apply mode_bit in Hz. by rewrite Hz in Hm. }
    cbn in Hn. set (i0 := A_stmdb_sp_rs _).
    set (i1 := A_ldr_rd_rn_im _ _ _). set (i2 := Z.lor _ _). set (i3 := A_ldmia_sp_rs _).
    exists [i0; i1; i2; i3], [u32 (symbol + 4 * offset + 8)]. split; [cbn; lia|].
    rewrite P1 by lia. rewrite bind_Ret.
    replace (Z.of_nat (length head) + 1) with (Z.of_nat (length (head ++ [i0]))) by (rewrite length_app; cbn; lia).
    rewrite puts_layout by (cbn; lia). rewrite bind_Ret. cbn [length].
    replace (Z.of_nat (length (head ++ [i0])) + 2) with (Z.of_nat (length ((head ++ [i0]) ++ [i1; i2])))
      by (rewrite !length_app; cbn; lia).
    rewrite put_layout by lia. rewrite bind_Ret.
    rewrite put_layout_end by (rewrite ?length_app; cbn; lia). rewrite bind_Ret.
    rewrite <- !app_assoc. cbn [app].
    do 2 f_equal; rewrite ?length_app; cbn [length app]; [f_equal|..]; lia.
Qed.

Lemma arm_loop_at symbol backup : forall offset head n tail,
  (list_sum (map arm_words backup) <= n)%nat ->
  exists hs ws n', (n' + list_sum (map arm_words backup) >= n)%nat /\
    arm_loop symbol offset backup (arm_at head n tail) = Ret (arm_at (head ++ hs) n' (ws ++ tail)).
Proof.
  induction backup as [|ic backup IH]; intros offset head n tail Hn.
  - exists [], [], n. split; [cbn; lia|]. cbn. by rewrite app_nil_r.
  - change (list_sum (map arm_words (ic :: backup))) with (arm_words ic + list_sum (map arm_words backup))%nat in *.
    destruct (arm_move_at symbol offset ic head n tail) as (hs & ws & Hl & E); [lia|].
    cbn [arm_loop]. rewrite E, bind_Ret.
    destruct (IH (offset + 1) (head ++ hs) (n - length hs - length ws)%nat (ws ++ tail))
      as (hs' & ws' & n' & Hn' & ->); [lia|].
    exists (hs ++ hs'), (ws' ++ ws), n'. split; [lia|]. by rewrite !app_assoc.
Qed.

(** Hooking an ARM function whose first two words are readable always returns,
    and every write of the moved code is within the mapping. The moved code
    ends with a jump to the third word; the function is changed exactly when 8
    is returned, and then holds the jump to the replacement. *)
Theorem arm_relocates area symbol replace want buffer protect :
  symbol <> 0 -> (2 <= length area)%nat ->
  exists h, SubstrateHookFunctionARM area symbol replace want buffer protect = Ret h /\
    (returned h = 8 -> area_after h = ldr_pc :: replace :: drop 2 area) /\
    (returned h <> 8 -> area_after h = area) /\
    (forall entry code, result h = Moved entry code -> buffer = Some entry /\
       exists body n words, code = body ++ [ldr_pc; u32 (symbol + 8)] ++ replicate n 0 ++ words).
Proof.
  intros Hs Hl. destruct area as [|a0 [|a1 area]]; try (cbn in Hl; lia).
  apply Z.eqb_neq in Hs. unfold SubstrateHookFunctionARM. rewrite Hs.
  change (load (a0 :: a1 :: area) 0 2) with (Ret (A := list Z) [a0; a1]). rewrite bind_Ret. cbv zeta.
  assert (store (a0 :: a1 :: area) 0 [A_ldr_rd_rn_im A_pc A_pc (4 - 8); replace] =
          Ret (ldr_pc :: replace :: area)) as Hst by (by rewrite store_in_bounds by (cbn; lia)).
  rewrite Hst, !bind_Ret. cbn [drop].
  destruct want; [|eexists; split; [done|]; by repeat split].
  change (get [a0; a1] 0) with (Ret a0). change (get [a0; a1] 1) with (Ret a1). rewrite !bind_Ret.
  destruct (a0 =? _) eqn:Ee; [eexists; split; [done|]; by repeat split|].
  destruct buffer as [b|]; [|eexists; split; [done|]; by repeat split].
  set (words := list_sum (map arm_words [a0; a1])).
  assert (arm_length [a0; a1] / 4 = Z.of_nat (words + 2)) as ->.
  { subst words. unfold arm_length. cbn [fold_left map list_sum foldr].
    rewrite !arm_words_cases, !arm_extra_cases.
    destruct (A_pcrel_r a0), (A_pcrel_r a1), (Z.land a0 0x02000000 =? 0), (Z.land a1 0x02000000 =? 0); done. }
  assert (mkArm (replicate (Z.to_nat (Z.of_nat (words + 2))) 0) 0 (Z.of_nat (words + 2)) (Z.of_nat (words + 2)) =
          arm_at [] (words + 2) []) as ->.
  { unfold arm_at, layout. by rewrite Nat2Z.id, app_nil_r. }
  destruct (arm_loop_at symbol [a0; a1] 0 [] (words + 2) []) as (hs & ws & n' & Hn' & ->); [subst words; lia|].
  rewrite bind_Ret, app_nil_r. cbn [app]. unfold arm_at. cbn [a_buf a_start].
  rewrite puts_layout by (cbn; subst words; lia). rewrite bind_Ret.
  destruct protect; [|eexists; split; [done|]; by repeat split].
  eexists. split; [done|]. split; [done|]. split; [done|]. intros entry code [= <- <-]. split; [done|].
  exists hs, (n' - 2)%nat, ws. unfold layout. by rewrite <- app_assoc.
Qed.

(** With a result pointer, a second hook on an ARM function returns the first
    replacement and does not install the second one. *)
Theorem arm_rehook_ignored area symbol r r' buffer protect :
  symbol <> 0 ->
  SubstrateHookFunctionARM (ldr_pc :: r :: area) symbol r' true buffer protect =
    Ret (mkHook (ldr_pc :: r :: area) (Original r) 4).
Proof. intros Hs. apply Z.eqb_neq in Hs. unfold SubstrateHookFunctionARM. by rewrite Hs. Qed.

(** * Witnesses

    [push {r4, lr}], [ldr r0, [pc, #8]], [bl], [cbz r0], [beq], and a nop. *)
Definition sample_thumb : list Z :=
  [0xb510; 0x4802; 0xf000; 0xf801; 0xb100; 0xd001; 0xbf00; 0xbf00; 0xbf00; 0xbf00].

Lemma sample_halves : half_range sample_thumb.
Proof. apply (bool_decide_unpack _). vm_compute. exact I. Qed.


Lemma thumb_plain_copy_witness :
  SubstrateHookFunctionThumb (replicate 10 0xbf00) 0x8002 0x9000 true (Some 0x100000) true =
    Ret (mkHook (jumped 0x8002 0x9000 7 (replicate 10 0xbf00))
      (Moved 0x100003 ([0] ++ replicate 7 0xbf00 ++ thumb_exit 0x8011)) 14).
Proof.
  rewrite (thumb_plain_copy (replicate 10 0xbf00) 0x8002 ltac:(done)
    ltac:(cbn; lia) eq_refl 0x9000 0x100000 7 (replicate 7 TPlain)).
  - reflexivity.
  - split; [reflexivity|]. split; [by split; vm_compute|]. cbn [replicate take]. repeat (apply parsed_one; [reflexivity|done|]). constructor.
  - reflexivity.
Defined.

Lemma thumb_rehook_witness :
  exists h area', SubstrateHookFunctionThumb sample_thumb 0x8000 0x9000 false None true = Ret h /\
    SubstrateHookFunctionThumb (area_after h) 0x8000 0xa000 true None true =
      Ret (mkHook area' (Original 0x9000) 4).
Proof.
  destruct (SubstrateHookFunctionThumb sample_thumb 0x8000 0x9000 false None true) as [h|] eqn:E; [|done].
  exists h.
  destruct (thumb_rehook sample_thumb 0x8000 ltac:(done) sample_halves ltac:(cbn; lia) eq_refl
    0x9000 0xa000 false true None None true true h E) as (area' & E' & _).
  { vm_compute in E. apply Ret_inj in E. by subst h. }
  exists area'. split; [done|]. exact E'.
Defined.

Lemma thumb_move_refers_witness :
  exists s', thumb_move 0x8004 0xf000 0xf801 TBl (thumb_at [0xb510; 0xbf00] 20 []) = Ret (Some s') /\
    reference TBl (drop 2 (t_buf s')) 2 = Some 20 /\ get32 (t_buf s') 20 = Ret 0x800b.
Proof.
  destruct (thumb_move 0x8004 0xf000 0xf801 TBl (thumb_at [0xb510; 0xbf00] 20 [])) as [[s'|]|] eqn:E;
    [|done|done].
  exists s'. split; [done|].
  assert (t_end s' = 20) as He by (vm_compute in E; apply Ret_inj in E; injection E as <-; done).
  destruct (thumb_move_refers 0x8004 0xf000 0xf801 TBl [0xb510; 0xbf00] 20 [] s'
    eq_refl ltac:(by exists 11%nat) ltac:(cbn; lia) ltac:(done) ltac:(done) eq_refl E) as [Hr Hg].
  rewrite He in Hr, Hg. split; [exact Hr|]. rewrite Hg. vm_compute. reflexivity.
Defined.

Lemma cbz_out_of_reach_witness :
  exists s', thumb_move 0x8000 0xb100 0 TCbz (thumb_at [] 108 []) = Ret (Some s') /\
    reference TCbz (t_buf s') 0 <> Some (t_end s').
Proof.
  destruct (thumb_move 0x8000 0xb100 0 TCbz (thumb_at [] 108 [])) as [[s'|]|] eqn:E; [|done|done].
  exists s'. split; [done|]. apply (cbz_out_of_reach 0x8000 0xb100 [] 108 [] s'); [lia|exact E].
Defined.

Lemma blx_target_off_witness :
  target_bl 0x8002 0xf000 0xe800 = u32 (manual_bl 0x8002 0xf000 0xe800 + 2).
Proof. apply (blx_target_off 0x8002 0xf000 0xe800). reflexivity. Defined.

Lemma arm_relocates_witness :
  exists h code, SubstrateHookFunctionARM [0xe59f0000; 0xe12fff1e; 0] 0x8000 0x9000 true (Some 0x100000) true = Ret h /\
    result h = Moved 0x100000 code /\ area_after h = [ldr_pc; 0x9000; 0].
Proof.
  destruct (arm_relocates [0xe59f0000; 0xe12fff1e; 0] 0x8000 0x9000 true (Some 0x100000) true
    ltac:(done) ltac:(cbn; lia)) as (h & E & Ha & _ & _).
  assert (exists code, h = mkHook (area_after h) (Moved 0x100000 code) 8) as [code Hh].
  { vm_compute in E. apply Ret_inj in E. subst h. by eexists. }
  exists h, code. split; [exact E|]. split; [by rewrite Hh|]. rewrite Ha by (by rewrite Hh). reflexivity.
Defined.

Lemma arm_rehook_ignored_witness :
  SubstrateHookFunctionARM [ldr_pc; 0x9000; 0] 0x8000 0xa000 true None true =
    Ret (mkHook [ldr_pc; 0x9000; 0] (Original 0x9000) 4).
Proof. apply (arm_rehook_ignored [0]). done. Defined.
