(* ===== verification/Hooks.v ===== *)
(** The table of hooked GOT slots: linker/hooks.h and linker/hooks.cpp.

    Two maps of the C++ code hold [shared_ptr]s to the same objects, so the
    model keeps the objects in a store of their own and the maps hold
    references to it: a change of an object is seen through both maps. An
    object that neither map refers to any more stays in the store. Pointers are
    integers, [nullptr] is 0. The locks are not modelled; [add] releases the
    map's lock between its two halves, which are two definitions. *)
From S2P Require Import Prelude.

(** ** Data *)

Record HookInfo := mkHookInfo {
  out_id : Z;
  got_address : Z;
  new_function : Z;
  previous_function : Z;
}.

Inductive HookResult :=
| WRONG_HOOK_INFO
| NEW_HOOK
| ALREADY_HOOKED_APPENDED
| REMOVED_STILL_HOOKED
| REMOVED_TRIVIAL
| REMOVED_FULLY.

#[export] Instance HookResult_eq_dec : EqDecision HookResult.
Proof. solve_decision. Defined.

Record InternalHookInfo := mkInternal {
  hook_id : Z;
  at_got : Z;
  hooks : list Z;
}.

(** [objects] and [next_ref] stand for the heap. *)
Record Globals := mkGlobals {
  objects : gmap nat InternalHookInfo;
  next_ref : nat;
  hooks_by_id : gmap Z nat;
  hooks_by_got_address : gmap Z nat;
  next_id : Z;
}.

Definition getGlobals : Globals := mkGlobals ∅ 0 ∅ ∅ 1.

(** [std::map::emplace] leaves an entry that is there. *)
Definition emplace (m : gmap Z nat) (k : Z) (r : nat) : gmap Z nat :=
  match m !! k with Some _ => m | None => <[k := r]> m end.

(** ** Operations *)

(** [next_id.fetch_add(1)] on a 32-bit identifier. *)
Definition allocate_id (g : Globals) : Z * Globals :=
  (next_id g, mkGlobals (objects g) (next_ref g) (hooks_by_id g) (hooks_by_got_address g)
                (u32 (next_id g + 1))).

Definition is_hooked (g : Globals) (got : Z) : bool :=
  match hooks_by_got_address g !! got with Some _ => true | None => false end.

(** The object behind a reference. *)
Definition deref (g : Globals) (r : nat) : res InternalHookInfo := get_or_oob (objects g !! r).

Definition list_size (g : Globals) (i : Z) : res Z :=
  match hooks_by_id g !! i with
  | None => Ret (-1)
  | Some r => o ← deref g r; Ret (Z.of_nat (length (hooks o)))
  end.

Definition get_run_list (g : Globals) (i : Z) : res (list Z) :=
  match hooks_by_id g !! i with
  | None => Ret []
  | Some r => o ← deref g r; Ret (hooks o)
  end.

(** [internal_info.hooks = l]. *)
Definition set_hooks (g : Globals) (r : nat) (o : InternalHookInfo) (l : list Z) : Globals :=
  mkGlobals (<[r := mkInternal (hook_id o) (at_got o) l]> (objects g)) (next_ref g)
    (hooks_by_id g) (hooks_by_got_address g) (next_id g).

(** The first half of [add]: the result, unless the hook is to be made. *)
Definition add_existing (g : Globals) (info : HookInfo) : res (option (HookResult * Globals)) :=
  if (previous_function info =? 0) || (new_function info =? 0) || (got_address info =? 0)
  then Ret (Some (WRONG_HOOK_INFO, g))
  else
    match hooks_by_got_address g !! got_address info with
    | Some r =>
        o ← deref g r;
        Ret (Some (ALREADY_HOOKED_APPENDED, set_hooks g r o (hooks o ++ [new_function info])))
    | None => Ret None
    end.

(** The second half. *)
Definition add_new (g : Globals) (info : HookInfo) : HookResult * HookInfo * Globals :=
  let '(i, g) := allocate_id g in
  let r := next_ref g in
  let o := mkInternal i (got_address info) [previous_function info; new_function info] in
  (NEW_HOOK,
   mkHookInfo i (got_address info) (new_function info) (previous_function info),
   mkGlobals (<[r := o]> (objects g)) (S r)
     (emplace (hooks_by_id g) i r)
     (emplace (hooks_by_got_address g) (got_address info) r)
     (next_id g)).

Definition add (g : Globals) (info : HookInfo) : res (HookResult * HookInfo * Globals) :=
  o ← add_existing g info;
  Ret (match o with
       | Some (result, g) => (result, info, g)
       | None => add_new g info
       end).

(** [std::find], as an index. *)
Fixpoint find_index (l : list Z) (x : Z) : option nat :=
  match l with
  | [] => None
  | y :: l => if y =? x then Some 0%nat else S <$> find_index l x
  end.

Definition remove (g : Globals) (info : HookInfo) : res (HookResult * HookInfo * Globals) :=
  if (new_function info =? 0) || (got_address info =? 0) then Ret (WRONG_HOOK_INFO, info, g)
  else
    match hooks_by_got_address g !! got_address info with
    | None => Ret (WRONG_HOOK_INFO, info, g)
    | Some r =>
        o ← deref g r;
        if (length (hooks o) =? 1)%nat then
          first ← get_or_oob (hooks o !! 0%nat);
          if negb (first =? new_function info) then Ret (WRONG_HOOK_INFO, info, g)
          else
            Ret (REMOVED_FULLY, info,
                 mkGlobals (objects g) (next_ref g) (hooks_by_id g)
                   (delete (got_address info) (hooks_by_got_address g)) (next_id g))
        else
          match find_index (hooks o) (new_function info) with
          | None => Ret (WRONG_HOOK_INFO, info, g)
          | Some O => Ret (WRONG_HOOK_INFO, info, g)
          | Some i =>
              let l := delete i (hooks o) in
              original ← get_or_oob (l !! 0%nat);
              Ret ((if (length l =? 1)%nat then REMOVED_TRIVIAL else REMOVED_STILL_HOOKED),
                   mkHookInfo (out_id info) (got_address info) (new_function info) original,
                   set_hooks g r o l)
          end
    end.

(** * Invariant

    [run_list g a] is the run list of the slot [a]. *)
Definition run_list (g : Globals) (a : Z) : option (list Z) :=
  r ← hooks_by_got_address g !! a; hooks <$> objects g !! r.

Record wf (g : Globals) : Prop := {
  wf_store : forall r o, objects g !! r = Some o -> (r < next_ref g)%nat /\ hooks o <> [];
  wf_got : forall a r, hooks_by_got_address g !! a = Some r ->
    a <> 0 /\ exists o, objects g !! r = Some o /\ at_got o = a /\ hooks_by_id g !! hook_id o = Some r;
  wf_id : forall i r, hooks_by_id g !! i = Some r ->
    1 <= i < next_id g /\ exists o, objects g !! r = Some o /\ hook_id o = i;
  wf_next : 1 <= next_id g < 2 ^ 32;
}.

(** * Specification

    What the table promises: a map from slots to run lists, the original
    function first. The results come with the [previous_function] that the
    caller gets back. *)
Abbreviation table := (gmap Z (list Z)).

Definition spec_add (t : table) (info : HookInfo) : HookResult * Z * table :=
  let prev := previous_function info in
  if (prev =? 0) || (new_function info =? 0) || (got_address info =? 0)
  then (WRONG_HOOK_INFO, prev, t)
  else
    match t !! got_address info with
    | Some l => (ALREADY_HOOKED_APPENDED, prev, <[got_address info := l ++ [new_function info]]> t)
    | None => (NEW_HOOK, prev, <[got_address info := [prev; new_function info]]> t)
    end.

(** The list without the first occurrence of [x]. *)
Fixpoint remove_first (x : Z) (l : list Z) : list Z :=
  match l with
  | [] => []
  | y :: l => if y =? x then l else y :: remove_first x l
  end.

(** The original function goes last, and alone; any other one can go as long
    as it is registered. [previous_function] is filled with the original
    function while the slot keeps its record. When the record goes, with
    REMOVED_FULLY, it is what the caller had put there: hooks.h says that it
    would be filled then too, which the code does not do
    ([removed_fully_not_filled]); the original function is then the one that the
    caller has named. *)
Definition spec_remove (t : table) (info : HookInfo) : HookResult * Z * table :=
  let f := new_function info in
  let wrong := (WRONG_HOOK_INFO, previous_function info, t) in
  if (f =? 0) || (got_address info =? 0) then wrong
  else
    match t !! got_address info with
    | Some [original] =>
        if original =? f then (REMOVED_FULLY, previous_function info, delete (got_address info) t)
        else wrong
    | Some (original :: l) =>
        if (original =? f) || negb (existsb (Z.eqb f) l) then wrong
        else
          let l := remove_first f l in
          ((if (length l =? 0)%nat then REMOVED_TRIVIAL else REMOVED_STILL_HOOKED),
           original, <[got_address info := original :: l]> t)
    | _ => wrong
    end.

(** The run lists of the slots. *)
Definition abs (g : Globals) : table := omap (fun r => hooks <$> objects g !! r) (hooks_by_got_address g).

Lemma lookup_abs g a : abs g !! a = run_list g a.
Proof. apply (lookup_omap (M := gmap Z)). Qed.

Lemma wf_init : wf getGlobals.
Proof. split; cbn; intros *; rewrite ?lookup_empty; try done; lia. Qed.

Lemma abs_init : abs getGlobals = ∅.
Proof. apply map_eq. intros a. by rewrite lookup_abs. Qed.

(** ** Lookups *)

Section Wf.
Context (g : Globals) (Hwf : wf g).

Lemma wf_slot a r : hooks_by_got_address g !! a = Some r ->
  exists o, objects g !! r = Some o /\ deref g r = Ret o /\ at_got o = a /\ hooks o <> [] /\
    abs g !! a = Some (hooks o).
Proof.
  intros Hr. destruct (wf_got _ Hwf _ _ Hr) as (_ & o & Ho & Ha & _). exists o.
  unfold deref. rewrite lookup_abs. unfold run_list. rewrite Hr. cbn. rewrite Ho.
  destruct (wf_store _ Hwf _ _ Ho) as [_ Hn]. done.
Qed.

Lemma wf_no_slot a : hooks_by_got_address g !! a = None -> abs g !! a = None.
Proof. intros H. rewrite lookup_abs. unfold run_list. by rewrite H. Qed.

Lemma wf_fresh_id : hooks_by_id g !! next_id g = None.
Proof.
  destruct (hooks_by_id g !! next_id g) as [r|] eqn:E; [|done].
  destruct (wf_id _ Hwf _ _ E). lia.
Qed.

Lemma wf_fresh_ref : objects g !! next_ref g = None.
Proof.
  destruct (objects g !! next_ref g) as [o|] eqn:E; [|done].
  destruct (wf_store _ Hwf _ _ E). lia.
Qed.

(** Changing the run list of a slot's object changes that slot only. *)
Lemma wf_set_hooks r o l : objects g !! r = Some o -> l <> [] -> wf (set_hooks g r o l).
Proof.
  intros Ho Hl. split; cbn.
  - intros r' o'. rewrite lookup_insert_Some. intros [[<- <-]|[_ H]]; [|by apply (wf_store _ Hwf)].
    split; [|done]. by destruct (wf_store _ Hwf _ _ Ho).
  - intros a r' H. destruct (wf_got _ Hwf _ _ H) as (Ha & o' & Ho' & <- & Hid). split; [done|].
    destruct (decide (r = r')) as [<-|Hne].
    + rewrite lookup_insert_eq. assert (o' = o) as -> by congruence. by eexists.
    + rewrite lookup_insert_ne by done. by exists o'.
  - intros i r' H. destruct (wf_id _ Hwf _ _ H) as (Hi & o' & Ho' & <-). split; [done|].
    destruct (decide (r = r')) as [<-|Hne].
    + rewrite lookup_insert_eq. assert (o' = o) as -> by congruence. by eexists.
    + rewrite lookup_insert_ne by done. by exists o'.
  - apply Hwf.
Qed.

Lemma abs_set_hooks a r o l : hooks_by_got_address g !! a = Some r -> objects g !! r = Some o ->
  abs (set_hooks g r o l) = <[a := l]> (abs g).
Proof.
  intros Hr Ho. apply map_eq. intros b. rewrite lookup_abs. unfold run_list. cbn.
  destruct (decide (a = b)) as [<-|Hne].
  - by rewrite Hr, lookup_insert_eq; cbn; rewrite lookup_insert_eq.
  - rewrite lookup_insert_ne by done. rewrite lookup_abs. unfold run_list.
    destruct (hooks_by_got_address g !! b) as [r'|] eqn:Hb; [|done]. cbn.
    rewrite lookup_insert_ne; [done|]. intros <-.
    destruct (wf_slot _ _ Hr) as (o1 & H1 & _ & Ha & _), (wf_slot _ _ Hb) as (o2 & H2 & _ & Hb' & _).
    congruence.
Qed.
End Wf.

Lemma find_index_spec l x :
  match find_index l x with
  | Some i => existsb (Z.eqb x) l = true /\ delete i l = remove_first x l /\ l !! i = Some x
  | None => existsb (Z.eqb x) l = false
  end.
Proof.
  induction l as [|y l IH]; [done|]. cbn [find_index existsb remove_first].
  rewrite (Z.eqb_sym x y). destruct (Z.eqb_spec y x) as [->|Hne]; [done|]. cbn [orb].
  destruct (find_index l x) as [i|]; cbn; [|done]. destruct IH as (H1 & H2 & H3).
  split; [done|]. split; [by rewrite <- H2|exact H3].
Qed.

(** ** The operations implement the specification *)

(** A new slot: the object is fresh, and both maps lead to it. *)
Lemma add_new_ok g info : wf g -> next_id g < 2 ^ 32 - 1 -> got_address info <> 0 ->
  hooks_by_got_address g !! got_address info = None ->
  let l := [previous_function info; new_function info] in
  exists g', add_new g info =
    (NEW_HOOK, mkHookInfo (next_id g) (got_address info) (new_function info) (previous_function info), g') /\
    wf g' /\ abs g' = <[got_address info := l]> (abs g) /\ next_id g' = next_id g + 1 /\
    get_run_list g' (next_id g) = Ret l.
Proof.
  intros Hwf Hid Hz Hr l. unfold add_new, allocate_id, emplace. cbn [next_id hooks_by_id hooks_by_got_address].
  rewrite (wf_fresh_id g Hwf), Hr. eexists. split; [done|].
  pose proof (wf_next _ Hwf) as Hn. rewrite (wrap_small 32) by (unfold in_range; lia).
  assert (forall r o, objects g !! r = Some o -> next_ref g <> r) as Hfresh
    by (intros r o H; destruct (wf_store _ Hwf _ _ H); lia).
  split; [split; cbn|split; [|split; [done|]]].
  - intros r' o. rewrite lookup_insert_Some. intros [[<- <-]|[_ H]]; [by split; [lia|]|].
    destruct (wf_store _ Hwf _ _ H). by split; [lia|].
  - intros a r'. rewrite lookup_insert_Some. intros [[<- <-]|[Hne H]].
    + split; [done|]. rewrite lookup_insert_eq. eexists. split; [done|]. cbn. by rewrite lookup_insert_eq.
    + destruct (wf_got _ Hwf _ _ H) as (Ha & o & Ho & Hg & Hi). split; [done|].
      exists o. rewrite lookup_insert_ne by (by eapply Hfresh).
      rewrite lookup_insert_ne; [done|]. destruct (wf_id _ Hwf _ _ Hi). lia.
  - intros i r'. rewrite lookup_insert_Some. intros [[<- <-]|[Hne H]].
    + split; [lia|]. rewrite lookup_insert_eq. by eexists.
    + destruct (wf_id _ Hwf _ _ H) as (Hi & o & Ho & Hg). split; [lia|].
      exists o. by rewrite lookup_insert_ne by (by eapply Hfresh).
  - lia.
  - apply map_eq. intros a. rewrite lookup_abs. unfold run_list. cbn.
    destruct (decide (got_address info = a)) as [<-|Hne].
    + rewrite !lookup_insert_eq. cbn. by rewrite lookup_insert_eq.
    + rewrite !lookup_insert_ne by done. rewrite lookup_abs. unfold run_list.
      destruct (hooks_by_got_address g !! a) as [r'|] eqn:Hb; [|done]. cbn.
      rewrite lookup_insert_ne; [done|]. destruct (wf_slot g Hwf _ _ Hb) as (o & Ho & _). by eapply Hfresh.
  - unfold get_run_list, deref. cbn. by rewrite lookup_insert_eq, lookup_insert_eq.
Qed.

Lemma add_implements g info : wf g -> next_id g < 2 ^ 32 - 1 ->
  exists info' g', let '(result, prev, t) := spec_add (abs g) info in
    add g info = Ret (result, info', g') /\ previous_function info' = prev /\
    wf g' /\ abs g' = t /\ next_id g <= next_id g' <= next_id g + 1 /\
    (result <> NEW_HOOK -> next_id g' = next_id g) /\
    (result = NEW_HOOK ->
       get_run_list g' (out_id info') = Ret [previous_function info; new_function info]).
Proof.
  intros Hwf Hid. unfold add, add_existing, spec_add. cbv zeta.
  destruct ((previous_function info =? 0) || (new_function info =? 0) || (got_address info =? 0)) eqn:Hz.
  { exists info, g. rewrite bind_Ret. do 4 (split; [done|]). split; [lia|]. by split. }
  apply orb_false_elim in Hz as [_ Hz]. apply Z.eqb_neq in Hz.
  destruct (hooks_by_got_address g !! got_address info) as [r|] eqn:Hr.
  - destruct (wf_slot g Hwf _ _ Hr) as (o & Ho & -> & _ & Hne & ->). rewrite !bind_Ret.
    exists info, (set_hooks g r o (hooks o ++ [new_function info])).
    split; [done|]. split; [done|]. split; [apply wf_set_hooks; [done..|]; by destruct (hooks o)|].
    split; [by apply abs_set_hooks|]. split; [cbn; lia|]. by split.
  - rewrite (wf_no_slot g _ Hr), bind_Ret.
    destruct (add_new_ok g info Hwf Hid Hz Hr) as (g' & -> & Hwf' & Habs & Hn & Hl).
    do 2 eexists. split; [done|]. split; [done|]. split; [done|]. split; [done|]. split; [lia|]. by split.
Qed.

Lemma remove_implements g info : wf g ->
  exists info' g', let '(result, prev, t) := spec_remove (abs g) info in
    remove g info = Ret (result, info', g') /\ previous_function info' = prev /\
    wf g' /\ abs g' = t /\ next_id g' = next_id g.
Proof.
  intros Hwf. unfold remove, spec_remove. cbv zeta.
  destruct ((new_function info =? 0) || (got_address info =? 0)); [by exists info, g|].
  destruct (hooks_by_got_address g !! got_address info) as [r|] eqn:Hr;
    [|rewrite (wf_no_slot g _ Hr); by exists info, g].
  destruct (wf_slot g Hwf _ _ Hr) as (o & Ho & -> & Ha & Hne & ->). rewrite bind_Ret.
  destruct (hooks o) as [|original l] eqn:Hl; [done|]. clear Hne.
  destruct l as [|f1 l].
  - cbn [length Nat.eqb lookup list_lookup get_or_oob]. rewrite bind_Ret.
    destruct (original =? new_function info); cbn [negb]; [|by exists info, g].
    do 2 eexists. split; [done|]. split; [done|]. split; [|split; [|done]].
    + split; cbn; try apply Hwf. intros a r'. rewrite lookup_delete_Some. intros [_ H].
      by apply (wf_got _ Hwf).
    + apply map_eq. intros a. rewrite lookup_abs. unfold run_list. cbn.
      destruct (decide (got_address info = a)) as [<-|Hne]; [by rewrite !lookup_delete_eq|].
      rewrite !lookup_delete_ne by done. by rewrite lookup_abs.
  - cbn [length Nat.eqb find_index].
    destruct (original =? new_function info); cbn [orb]; [by exists info, g|].
    pose proof (find_index_spec (f1 :: l) (new_function info)) as Hf.
    change (if f1 =? new_function info then Some 0%nat else S <$> find_index l (new_function info))
      with (find_index (f1 :: l) (new_function info)).
    destruct (find_index (f1 :: l) (new_function info)) as [i|].
    + destruct Hf as (-> & Hd & Hi). cbn [negb fmap option_fmap option_map].
      change (delete (S i) (original :: f1 :: l)) with (original :: delete i (f1 :: l)).
      rewrite Hd. cbn [lookup list_lookup get_or_oob]. rewrite bind_Ret.
      do 2 eexists. split; [cbn [length]; by destruct (length (remove_first _ _))|].
      split; [done|]. split; [by apply wf_set_hooks|]. split; [by apply abs_set_hooks|done].
    + rewrite Hf. cbn [negb fmap option_fmap option_map]. by exists info, g.
Qed.

(** * Histories *)

Inductive op := Add (info : HookInfo) | Remove (info : HookInfo).

Definition exec (g : Globals) (o : op) : res (HookResult * HookInfo * Globals) :=
  match o with Add info => add g info | Remove info => remove g info end.

Definition spec_exec (t : table) (o : op) : HookResult * Z * table :=
  match o with Add info => spec_add t info | Remove info => spec_remove t info end.

Fixpoint run (g : Globals) (ops : list op) : res (list (HookResult * Z) * Globals) :=
  match ops with
  | [] => Ret ([], g)
  | o :: ops =>
      '(result, info, g) ← exec g o;
      '(results, g) ← run g ops;
      Ret ((result, previous_function info) :: results, g)
  end.

Fixpoint spec_run (t : table) (ops : list op) : list (HookResult * Z) * table :=
  match ops with
  | [] => ([], t)
  | o :: ops =>
      let '(result, prev, t) := spec_exec t o in
      let '(results, t) := spec_run t ops in
      ((result, prev) :: results, t)
  end.

Lemma exec_implements o g : wf g -> next_id g < 2 ^ 32 - 1 ->
  exists info' g', let '(result, prev, t) := spec_exec (abs g) o in
    exec g o = Ret (result, info', g') /\ previous_function info' = prev /\
    wf g' /\ abs g' = t /\ next_id g' <= next_id g + 1.
Proof.
  intros Hwf Hn. destruct o as [info|info]; cbn [exec spec_exec].
  - destruct (add_implements g info Hwf ltac:(lia)) as (i' & g' & H). exists i', g'.
    destruct (spec_add _ _) as [[result prev] t]. destruct H as (? & ? & ? & ? & ? & _).
    do 4 (split; [done|]). lia.
  - destruct (remove_implements g info Hwf) as (i' & g' & H). exists i', g'.
    destruct (spec_remove _ _) as [[result prev] t]. destruct H as (? & ? & ? & ? & ?).
    do 4 (split; [done|]). lia.
Qed.

Lemma run_implements ops : forall g, wf g -> next_id g + Z.of_nat (length ops) < 2 ^ 32 ->
  exists g', run g ops = Ret (fst (spec_run (abs g) ops), g') /\ wf g' /\
    abs g' = snd (spec_run (abs g) ops) /\ next_id g' <= next_id g + Z.of_nat (length ops).
Proof.
  induction ops as [|o ops IH]; intros g Hwf Hn; [exists g; split; [done|]; split; [done|]; split; [done|cbn; lia]|].
  cbn [length] in *.
  destruct (exec_implements o g Hwf ltac:(lia)) as (info' & g' & H).
  cbn [run spec_run]. destruct (spec_exec (abs g) o) as [[result prev] t].
  destruct H as (-> & <- & Hwf' & <- & Hn'). rewrite bind_Ret.
  destruct (IH g' Hwf' ltac:(lia)) as (g2 & -> & Hwf2 & Habs2 & Hn2). rewrite bind_Ret.
  exists g2. destruct (spec_run (abs g') ops). do 3 (split; [done|]). lia.
Qed.

(** The states that a history from the start can give. *)
Lemma run_wf ops results g : Z.of_nat (length ops) < 2 ^ 32 - 1 -> run getGlobals ops = Ret (results, g) ->
  wf g /\ next_id g <= 1 + Z.of_nat (length ops).
Proof.
  intros Hn E. destruct (run_implements ops getGlobals wf_init ltac:(cbn; lia)) as (g' & E' & Hwf & _ & Hi).
  assert (g' = g) as -> by congruence. done.
Qed.

(** C2: The table of hooks implements its specification: whatever the operations,
    while fewer than 2^32 - 1 of them have been made, no reference dangles, the
    results and the previous functions reported are those of a map from slots
    to run lists, and the run lists are the map's. The specification reports
    the original function of a slot from which a hook is removed and which is
    still known; it reports nothing, and leaves the caller's value, for the
    removal that erases the slot and for an operation that is refused. *)
Theorem hooks_refine ops : Z.of_nat (length ops) < 2 ^ 32 - 1 ->
  exists g, run getGlobals ops = Ret (fst (spec_run ∅ ops), g) /\ wf g /\
    forall a, run_list g a = snd (spec_run ∅ ops) !! a.
Proof.
  intros Hn. destruct (run_implements ops getGlobals wf_init ltac:(cbn; lia)) as (g & E & Hwf & Ha & _).
  rewrite abs_init in *. exists g. split; [done|]. split; [done|]. intros a. by rewrite <- lookup_abs, Ha.
Qed.

(** The identifier of a slot's trampoline. *)
Definition slot_id (g : Globals) (a : Z) : option Z :=
  r ← hooks_by_got_address g !! a; hook_id <$> objects g !! r.

(** A trampoline finds the run list of its slot by identifier, and no other
    slot has that identifier. *)
Theorem run_list_by_id ops g results a l :
  Z.of_nat (length ops) < 2 ^ 32 - 1 -> run getGlobals ops = Ret (results, g) ->
  run_list g a = Some l ->
  exists i, slot_id g a = Some i /\ get_run_list g i = Ret l /\ list_size g i = Ret (Z.of_nat (length l)) /\
    l <> [] /\ forall b, slot_id g b = Some i -> b = a.
Proof.
  intros Hn E Hl. destruct (run_wf _ _ _ Hn E) as [Hwf _]. rewrite <- lookup_abs in Hl.
  destruct (hooks_by_got_address g !! a) as [r|] eqn:Hr; [|by rewrite (wf_no_slot g _ Hr) in Hl].
  destruct (wf_slot g Hwf _ _ Hr) as (o & Ho & Hd & Ha & Hne & Habs).
  assert (hooks o = l) as <- by congruence.
  destruct (wf_got _ Hwf _ _ Hr) as (_ & o' & Ho' & _ & Hi). assert (o' = o) as -> by congruence.
  exists (hook_id o). unfold slot_id at 1, get_run_list, list_size. rewrite Hr. cbn. rewrite Ho, Hi, Hd.
  do 4 (split; [done|]). intros b Hb. unfold slot_id in Hb.
  destruct (hooks_by_got_address g !! b) as [rb|] eqn:Hrb; [|done]. cbn in Hb.
  destruct (wf_got _ Hwf _ _ Hrb) as (_ & ob & Hob & Hgb & Hib). rewrite Hob in Hb. cbn in Hb.
  assert (rb = r) as -> by congruence. congruence.
Qed.

(** ** Identifiers outlive their slots *)

Definition id_head (g : Globals) (i x : Z) : Prop :=
  exists r o l, hooks_by_id g !! i = Some r /\ objects g !! r = Some o /\ hooks o = x :: l.

Lemma id_head_set_hooks g r o l i x :
  objects g !! r = Some o -> head l = head (hooks o) -> id_head g i x -> id_head (set_hooks g r o l) i x.
Proof.
  intros Ho Hl (r' & o' & t & Hi & Ho' & Ht). unfold id_head. cbn.
  destruct (decide (r = r')) as [<-|Hne].
  - assert (o' = o) as -> by congruence. rewrite Ht in Hl. destruct l as [|y l]; [done|].
    injection Hl as ->. exists r. rewrite lookup_insert_eq. by do 2 eexists.
  - exists r', o', t. by rewrite lookup_insert_ne.
Qed.

Lemma id_head_add_new g info i x : wf g -> id_head g i x -> id_head (snd (add_new g info)) i x.
Proof.
  intros Hwf (r & o & l & Hi & Ho & Hl). unfold add_new, allocate_id, id_head. cbn.
  exists r, o, l. rewrite lookup_insert_ne by (destruct (wf_store _ Hwf _ _ Ho); lia).
  split; [|done]. unfold emplace. case_match; [done|]. rewrite lookup_insert_ne; congruence.
Qed.

Lemma id_head_exec g o result info g' i x : wf g -> exec g o = Ret (result, info, g') ->
  id_head g i x -> id_head g' i x.
Proof.
  intros Hwf E Hh. destruct o as [hi|hi]; cbn [exec] in E.
  - unfold add, add_existing in E. destruct (_ || _); [by injection E as <- <- <-|].
    destruct (hooks_by_got_address g !! got_address hi) as [r|] eqn:Hr.
    + destruct (wf_slot g Hwf _ _ Hr) as (o & Ho & Hd & _ & Hne & _). rewrite Hd in E.
      injection E as <- <- <-. apply id_head_set_hooks; [done| |done]. by destruct (hooks o).
    + pose proof (id_head_add_new g hi i x Hwf Hh) as H. rewrite bind_Ret in E.
      destruct (add_new g hi) as [[? ?] ?]. by injection E as <- <- <-.
  - unfold remove in E. destruct (_ || _); [by injection E as <- <- <-|].
    destruct (hooks_by_got_address g !! got_address hi) as [r|] eqn:Hr; [|by injection E as <- <- <-].
    destruct (wf_slot g Hwf _ _ Hr) as (o & Ho & Hd & _ & Hne & _). rewrite Hd in E.
    destruct (hooks o) as [|y l] eqn:Hl; [done|]. rewrite bind_Ret, Hl in E.
    destruct (length (y :: l) =? 1)%nat.
    + cbn in E. destruct (negb _); by injection E as <- <- <-.
    + destruct (find_index (y :: l) (new_function hi)) as [[|k]|]; [by injection E as <- <- <-| |by injection E as <- <- <-].
      cbn in E. injection E as <- <- <-. apply id_head_set_hooks; [done| |done]. by rewrite Hl.
Qed.

Lemma id_head_run ops : forall g results g' i x, wf g -> next_id g + Z.of_nat (length ops) < 2 ^ 32 ->
  run g ops = Ret (results, g') -> id_head g i x -> id_head g' i x.
Proof.
  induction ops as [|o ops IH]; intros g results g' i x Hwf Hn E Hh; [by injection E as _ <-|].
  cbn [length run] in *. destruct (exec_implements o g Hwf ltac:(lia)) as (info & g1 & H).
  destruct (spec_exec (abs g) o) as [[result prev] t]. destruct H as (E1 & _ & Hwf1 & _ & Hn1).
  rewrite E1, bind_Ret in E. apply bind_Ret_inv in E as ([rs g2] & E2 & E). injection E as _ <-.
  apply (IH g1 rs g2); [done|lia|done|]. by apply (id_head_exec g o result info).
Qed.

Lemma id_head_list g i x : wf g ->
  id_head g i x <-> exists l, get_run_list g i = Ret (x :: l).
Proof.
  intros Hwf. unfold get_run_list, deref. split.
  - intros (r & o & l & -> & -> & Hl). exists l. cbn. by rewrite Hl.
  - intros [l H]. destruct (hooks_by_id g !! i) as [r|] eqn:Hr; [|done].
    destruct (wf_id _ Hwf _ _ Hr) as (_ & o & Ho & _). rewrite Ho in H. cbn in H.
    injection H as Hl. by exists r, o, l.
Qed.

(** An identifier that has been given out leads to a run list for ever, whose
    first function is the original one: a thread that enters the trampoline
    while the slot is unhooked still finds something to call. *)
Theorem id_keeps_original ops1 ops2 results1 g i x l :
  Z.of_nat (length (ops1 ++ ops2)) < 2 ^ 32 - 1 ->
  run getGlobals ops1 = Ret (results1, g) -> get_run_list g i = Ret (x :: l) ->
  exists results2 g' l', run g ops2 = Ret (results2, g') /\ get_run_list g' i = Ret (x :: l').
Proof.
  rewrite length_app. intros Hn E Hi. destruct (run_wf ops1 results1 g ltac:(lia) E) as [Hwf Hid].
  destruct (run_implements ops2 g Hwf ltac:(lia)) as (g' & E' & Hwf' & _).
  do 2 eexists. assert (id_head g' i x) as Hh.
  { apply (id_head_run ops2 g _ g' i x Hwf ltac:(lia) E'). apply id_head_list; [done|by exists l]. }
  apply (id_head_list g' i x Hwf') in Hh as [l' Hl']. by exists l'.
Qed.

(** The removal that erases a slot leaves the caller's [previous_function],
    whatever it is, where hooks.h promises the original value of the slot. *)
Theorem removed_fully_not_filled g a original junk : wf g -> run_list g a = Some [original] -> original <> 0 -> a <> 0 ->
  exists info g', remove g (mkHookInfo 0 a original junk) = Ret (REMOVED_FULLY, info, g') /\
    previous_function info = junk /\ run_list g' a = None.
Proof.
  intros Hwf Hl Ho Ha. destruct (remove_implements g (mkHookInfo 0 a original junk) Hwf) as (info & g' & H).
  unfold spec_remove in H. cbn [new_function got_address previous_function] in H.
  apply Z.eqb_neq in Ho, Ha. rewrite Ho, Ha, lookup_abs, Hl, Z.eqb_refl in H. destruct H as (E & Hp & _ & Habs & _).
  exists info, g'. split; [exact E|]. split; [exact Hp|]. by rewrite <- lookup_abs, Habs, lookup_delete_eq.
Qed.

(** Hooking a free slot and removing the hook, then the original function,
    leaves the slots as they were; the results tell the caller the original
    function and that nothing is left. *)
Theorem hook_round_trip g a f original id0 : wf g -> next_id g < 2 ^ 32 - 1 -> is_hooked g a = false ->
  a <> 0 -> f <> 0 -> original <> 0 -> f <> original ->
  exists info1 g1 info2 g2 info3 g3,
    add g (mkHookInfo id0 a f original) = Ret (NEW_HOOK, info1, g1) /\
    remove g1 (mkHookInfo 0 a f 0) = Ret (REMOVED_TRIVIAL, info2, g2) /\ previous_function info2 = original /\
    remove g2 (mkHookInfo 0 a original 0) = Ret (REMOVED_FULLY, info3, g3) /\
    is_hooked g3 a = false /\ forall b, run_list g3 b = run_list g b.
Proof.
  intros Hwf Hn Hh Ha Hf Ho Hne. apply Z.eqb_neq in Ha, Hf, Ho.
  assert (hooks_by_got_address g !! a = None) as Hfree
    by (unfold is_hooked in Hh; by destruct (hooks_by_got_address g !! a)).
  pose proof (wf_no_slot g a Hfree) as Hnone.
  destruct (add_implements g (mkHookInfo id0 a f original) Hwf Hn) as (info1 & g1 & H1).
  unfold spec_add in H1. cbn [previous_function new_function got_address] in H1.
  rewrite Ha, Hf, Ho, Hnone in H1. destruct H1 as (E1 & _ & Hwf1 & Habs1 & Hn1 & _).
  destruct (remove_implements g1 (mkHookInfo 0 a f 0) Hwf1) as (info2 & g2 & H2).
  unfold spec_remove in H2. cbn [previous_function new_function got_address] in H2.
  rewrite Hf, Ha, Habs1, lookup_insert_eq in H2. cbn [orb existsb remove_first length] in H2.
  rewrite Z.eqb_refl in H2. replace (original =? f) with false in H2 by (symmetry; by apply Z.eqb_neq).
  cbn in H2. rewrite insert_insert_eq in H2. destruct H2 as (E2 & Hp & Hwf2 & Habs2 & _).
  destruct (remove_implements g2 (mkHookInfo 0 a original 0) Hwf2) as (info3 & g3 & H3).
  unfold spec_remove in H3. cbn [previous_function new_function got_address] in H3.
  rewrite Ho, Ha, Habs2, lookup_insert_eq in H3. cbn [orb] in H3. rewrite Z.eqb_refl in H3.
  rewrite delete_insert_id in H3 by done. destruct H3 as (E3 & _ & Hwf3 & Habs3 & _).
  exists info1, g1, info2, g2, info3, g3. do 4 (split; [done|]). split.
  - unfold is_hooked. destruct (hooks_by_got_address g3 !! a) as [r|] eqn:Hr; [|done].
    destruct (wf_slot g3 Hwf3 _ _ Hr) as (o & _ & _ & _ & _ & Hs). congruence.
  - intros b. by rewrite <- !lookup_abs, Habs3.
Qed.

(** The two halves of [add] are two critical sections. When two threads hook
    the same free slot and both pass the first one, both are told NEW_HOOK, and
    the second thread's function is in no slot's run list. *)
Theorem add_race_loses_hook :
  let slot := 0x1000 in
  let info1 := mkHookInfo 0 slot 0x51 0x50 in
  let info2 := mkHookInfo 0 slot 0x52 0x50 in
  let '(r1, _, g1) := add_new getGlobals info1 in
  let '(r2, _, g2) := add_new g1 info2 in
  add_existing getGlobals info1 = Ret None /\ add_existing getGlobals info2 = Ret None /\
  r1 = NEW_HOOK /\ r2 = NEW_HOOK /\ run_list g2 slot = Some [0x50; 0x51].
Proof. vm_compute. by repeat split. Qed.

(** ** Witnesses *)

Definition sample_ops : list op :=
  [Add (mkHookInfo 0 0x1000 0x51 0x50); Add (mkHookInfo 0 0x1000 0x52 0x51);
   Add (mkHookInfo 0 0x2000 0x61 0x60); Remove (mkHookInfo 0 0x1000 0x51 0)].

Definition sample_globals : Globals :=
  match run getGlobals sample_ops with Ret (_, g) => g | Fault _ => getGlobals end.

Lemma sample_run : run getGlobals sample_ops =
  Ret ([(NEW_HOOK, 0x50); (ALREADY_HOOKED_APPENDED, 0x51); (NEW_HOOK, 0x60); (REMOVED_STILL_HOOKED, 0x50)],
       sample_globals).
Proof. vm_compute. reflexivity. Qed.

Lemma hooks_refine_witness :
  exists g, run getGlobals sample_ops =
    Ret ([(NEW_HOOK, 0x50); (ALREADY_HOOKED_APPENDED, 0x51); (NEW_HOOK, 0x60); (REMOVED_STILL_HOOKED, 0x50)], g) /\
    run_list g 0x1000 = Some [0x50; 0x52].
Proof.
  destruct (hooks_refine sample_ops) as (g & E & _ & H); [cbn; lia|].
  exists g. split; [exact E|]. rewrite H. vm_compute. reflexivity.
Defined.

Lemma run_list_by_id_witness :
  exists i, slot_id sample_globals 0x1000 = Some i /\ get_run_list sample_globals i = Ret [0x50; 0x52].
Proof.
  assert (Z.of_nat (length sample_ops) < 2 ^ 32 - 1) as Hn by (cbn; lia).
  destruct (run_list_by_id sample_ops sample_globals _ 0x1000 [0x50; 0x52] Hn sample_run eq_refl)
    as (i & H1 & H2 & _). by exists i.
Defined.

Lemma id_keeps_original_witness :
  exists results g l, run sample_globals
    [Remove (mkHookInfo 0 0x1000 0x52 0); Remove (mkHookInfo 0 0x1000 0x50 0)] = Ret (results, g) /\
    get_run_list g 1 = Ret (0x50 :: l).
Proof.
  eapply (id_keeps_original sample_ops); [|exact sample_run|].
  - cbn. lia.
  - vm_compute. reflexivity.
Defined.

Lemma hook_round_trip_witness :
  exists info g1, add getGlobals (mkHookInfo 0 0x1000 0x51 0x50) = Ret (NEW_HOOK, info, g1) /\
  exists info2 g2, remove g1 (mkHookInfo 0 0x1000 0x51 0) = Ret (REMOVED_TRIVIAL, info2, g2).
Proof.
  destruct (hook_round_trip getGlobals 0x1000 0x51 0x50 0 wf_init ltac:(cbn; lia) eq_refl
    ltac:(lia) ltac:(lia) ltac:(lia) ltac:(lia)) as (info1 & g1 & info2 & g2 & info3 & g3 & H1 & H2 & _).
  exists info1, g1. split; [exact H1|]. by exists info2, g2.
Defined.
