(* ===== verification/Trampoline.v ===== *)
(** Trampolines of hooked slots: linker/trampoline.h and linker/trampoline.cpp.

    Three parts: the allocator of executable memory, the code object that is
    written into it, and the per-thread stack of active hooks that the
    trampoline's assembly code pushes and pops. The assembly template is a
    parameter, as bytes; so are the addresses that mmap returns and the success
    of prctl. Addresses and [size_t] are those of the 32-bit targets the
    trampolines support. The locks are not modelled: each operation is one
    critical section. *)
From S2P Require Import Prelude Hooks.

(** * The allocator *)

Module Allocator.

Definition kPageSize : Z := 4096.
Definition kPagesPerBlock : Z := 1.
Definition kSize : Z := kPageSize * kPagesPerBlock.
Definition kAlignment : Z := 4.

(** [page] is the memory of the mapping. *)
Record allocator_block := mkBlock { map_ : Z; top_ : Z; page : list Z }.

(** The constructor; [mmap] is [None] for MAP_FAILED. *)
Definition new_block (mmap : option Z) (prctl_ok : bool) : res allocator_block :=
  match mmap with
  | None => Fault Thrown
  | Some map => if prctl_ok then Ret (mkBlock map map (replicate (Z.to_nat kSize) 0)) else Fault Thrown
  end.

Definition remaining (b : allocator_block) : Z := u32 (kSize - (top_ b - map_ b)).

Definition block_allocate (b : allocator_block) (sz : Z) : res (Z * allocator_block) :=
  if remaining b <? sz then Fault Thrown
  else Ret (top_ b, mkBlock (map_ b) (top_ b + sz) (page b)).

Definition round_up (sz : Z) : Z := Z.land (u32 (sz + (kAlignment - 1))) (u32 (Z.lnot (kAlignment - 1))).

(** The blocks, the last one first: the code only looks at [blocks_.back()]. *)
Definition allocate (blocks : list allocator_block) (sz : Z) (mmap : option Z) (prctl_ok : bool)
    : res (Z * list allocator_block) :=
  let sz := round_up sz in
  let full := match blocks with [] => true | b :: _ => remaining b <? sz end in
  blocks ← (if full then b ← new_block mmap prctl_ok; Ret (b :: blocks) else Ret blocks);
  match blocks with
  | [] => Fault OutOfBounds
  | b :: blocks => '(p, b) ← block_allocate b sz; Ret (p, b :: blocks)
  end.

(** [memcpy] into the last block. *)
Definition write (blocks : list allocator_block) (p : Z) (src : list Z) : res (list allocator_block) :=
  match blocks with
  | [] => Fault OutOfBounds
  | b :: blocks =>
      if p <? map_ b then Fault OutOfBounds
      else page ← store (page b) (Z.to_nat (p - map_ b)) src; Ret (mkBlock (map_ b) (top_ b) page :: blocks)
  end.

End Allocator.

(** * The trampoline *)

Section Create.

(** The bytes between [trampoline_template] and [trampoline_data], and the
    addresses of the two functions. *)
Context (template : list Z) (push_hook_stack_address pop_hook_stack_address : Z).

Import Allocator.

Definition trampoline_data_size : Z := 4 * 2 + 4.

(** The copies of the template, the two functions and the identifier. *)
Definition write_code (blocks : list allocator_block) (code i : Z) : res (list allocator_block) :=
  blocks ← write blocks code template;
  let data := code + Z.of_nat (length template) in
  blocks ← write blocks data (le_bytes 4 push_hook_stack_address);
  blocks ← write blocks (data + 4) (le_bytes 4 pop_hook_stack_address);
  write blocks (data + 8) (le_bytes 4 i).

(** The constructor from an identifier: its code, and the blocks. *)
Definition trampoline (blocks : list allocator_block) (i : Z) (mmap : option Z) (prctl_ok : bool)
    : res (Z * list allocator_block) :=
  let code_size := Z.of_nat (length template) in
  '(code, blocks) ← allocate blocks (code_size + trampoline_data_size) mmap prctl_ok;
  blocks ← write_code blocks code i;
  Ret (code, blocks).

(** [trampolines_] is the list of their codes. *)
Definition create_trampoline (s : list Z * list allocator_block) (i : Z) (mmap : option Z) (prctl_ok : bool)
    : res (Z * (list Z * list allocator_block)) :=
  let '(trampolines, blocks) := s in
  '(code, blocks) ← trampoline blocks i mmap prctl_ok;
  Ret (code, (trampolines ++ [code], blocks)).

End Create.

(** * The stack of active hooks *)

Module HookStack.

Record trampoline_hook_info := mkHook {
  id : Z;
  return_address : Z;
  previous : option nat;
  run_list : list Z;
}.

(** The thread's specific value and the objects it owns. *)
Record thread := mkThread {
  heap : gmap nat trampoline_hook_info;
  next_info : nat;
  specific : option nat;
}.

Definition new_thread : thread := mkThread ∅ 0 None.

Definition get_hook_info (t : thread) : res (option trampoline_hook_info) :=
  match specific t with
  | None => Ret None
  | Some r => o ← get_or_oob (heap t !! r); Ret (Some o)
  end.

Definition push_hook_stack (g : Globals) (t : thread) (hook ret : Z) : res (Z * thread) :=
  run_list ← get_run_list g hook;
  if (length run_list =? 0)%nat then Fault Aborted
  else
    let info := mkHook hook ret (specific t) run_list in
    let r := next_info t in
    last ← get_or_oob (last run_list);
    Ret (last, mkThread (<[r := info]> (heap t)) (S r) (Some r)).

(** With no active hook the null pointer is read. *)
Definition pop_hook_stack (t : thread) : res (Z * thread) :=
  r ← get_or_oob (specific t);
  info ← get_or_oob (heap t !! r);
  Ret (return_address info, mkThread (delete r (heap t)) (next_info t) (previous info)).

Definition get_previous_from_hook (t : thread) (hook : Z) : res Z :=
  info ← get_hook_info t;
  match info with
  | None => Fault Aborted
  | Some info =>
      match find_index (run_list info) hook with
      | Some O => Fault Aborted
      | None => Fault Aborted
      | Some (S i) => get_or_oob (run_list info !! i)
      end
  end.

End HookStack.

(** * Allocation *)

Section Installed.

Context (template : list Z) (push_address pop_address : Z).
Import Allocator.

Definition code_bytes (i : Z) : list Z :=
  template ++ le_bytes 4 push_address ++ le_bytes 4 pop_address ++ le_bytes 4 i.

Definition size : Z := Z.of_nat (length template) + trampoline_data_size.

(** The template fits a block with its data. *)
Hypothesis template_fits : size <= kSize.

Record block_ok (b : allocator_block) : Prop := {
  bo_map : 0 <= map_ b /\ map_ b mod 4 = 0;
  bo_top : map_ b <= top_ b <= map_ b + kSize;
  bo_aligned : top_ b mod 4 = 0;
  bo_page : Z.of_nat (length (page b)) = kSize;
}.

Lemma round_up_spec sz : 0 <= sz -> sz + 3 < 2 ^ 32 -> round_up sz = (sz + 3) / 4 * 4.
Proof.
  intros H1 H2. unfold round_up, kAlignment. change (4 - 1) with 3.
  rewrite (wrap_small 32) by (split; lia).
  change (u32 (Z.lnot 3)) with (Z.ldiff (Z.ones 32) (Z.ones 2)).
  assert (Z.land (sz + 3) (Z.ldiff (Z.ones 32) (Z.ones 2)) =
          Z.ldiff (Z.land (sz + 3) (Z.ones 32)) (Z.ones 2)) as ->.
  { apply Z.bits_inj'. intros i Hi. rewrite !Z.ldiff_spec, !Z.land_spec, Z.ldiff_spec. by rewrite andb_assoc. }
  rewrite wrap_land_ones by lia. rewrite wrap_small by (split; lia).
  by rewrite Z.ldiff_ones_r, Z.shiftl_mul_pow2, Z.shiftr_div_pow2 by lia.
Qed.

Lemma round_up_bounds sz : 0 <= sz -> sz + 3 < 2 ^ 32 ->
  sz <= round_up sz < sz + 4 /\ round_up sz mod 4 = 0.
Proof.
  intros H1 H2. rewrite round_up_spec by done.
  pose proof (Z.div_mod (sz + 3) 4 ltac:(done)). pose proof (Z.mod_pos_bound (sz + 3) 4 ltac:(done)).
  split; [lia|]. by rewrite Z.mod_mul.
Qed.

Lemma remaining_ok b : block_ok b -> remaining b = map_ b + kSize - top_ b.
Proof.
  intros Hb. unfold remaining. destruct (bo_top _ Hb). unfold kSize, kPageSize, kPagesPerBlock in *.
  rewrite wrap_small; [lia|]. split; lia.
Qed.

Lemma round_up_fits sz : 0 <= sz <= kSize -> round_up sz <= kSize.
Proof.
  intros H. unfold kSize, kPageSize, kPagesPerBlock in *. rewrite round_up_spec by lia.
  pose proof (Z.div_le_mono (sz + 3) 4099 4 ltac:(done)) as E. change (4099 / 4) with 1024 in E. lia.
Qed.

(** The block that an allocation uses: the last one, or a new one. *)
Definition uses (blocks : list allocator_block) (sz : Z) (mmap : option Z) (prctl_ok : bool)
    (b : allocator_block) (rest : list allocator_block) : Prop :=
  (blocks = b :: rest /\ round_up sz <= remaining b) \/
  (rest = blocks /\ new_block mmap prctl_ok = Ret b).

Lemma new_block_ok map : 0 <= map -> map mod 4096 = 0 ->
  block_ok (mkBlock map map (replicate (Z.to_nat kSize) 0)).
Proof.
  intros Hm Ha. assert (map mod 4 = 0) as H4.
  { rewrite <- (Z.mod_mod_divide map 4096 4) by (by exists 1024). by rewrite Ha. }
  split; cbn [map_ top_ page]; rewrite ?length_replicate; unfold kSize, kPageSize, kPagesPerBlock;
    done || lia.
Qed.

(** [allocate] gives the old top of the block it uses. *)
Lemma block_allocate_ok blocks sz mmap prctl_ok p blocks' :
  Forall block_ok blocks -> (forall m, mmap = Some m -> 0 <= m /\ m mod 4096 = 0) ->
  0 <= sz <= kSize -> allocate blocks sz mmap prctl_ok = Ret (p, blocks') ->
  exists b rest, uses blocks sz mmap prctl_ok b rest /\ block_ok b /\ p = top_ b /\
    round_up sz <= map_ b + kSize - top_ b /\
    blocks' = mkBlock (map_ b) (top_ b + round_up sz) (page b) :: rest.
Proof.
  intros Hb Hm Hsz E. unfold allocate in E. cbv zeta in E.
  pose proof (round_up_fits sz Hsz) as Hr.
  apply bind_Ret_inv in E as (bs & E1 & E).
  assert (exists b rest, bs = b :: rest /\ uses blocks sz mmap prctl_ok b rest /\ block_ok b /\
            round_up sz <= remaining b) as (b & rest & -> & Hu & Hok & Hrem).
  { destruct (match blocks with [] => true | b :: _ => remaining b <? round_up sz end) eqn:Hf.
    - apply bind_Ret_inv in E1 as (b & Eb & E1). injection E1 as <-. exists b, blocks.
      split; [done|]. unfold uses. pose proof Eb as Enew. unfold new_block in Eb.
      destruct mmap as [m|]; [|done]. destruct prctl_ok; [|done]. injection Eb as <-.
      destruct (Hm m eq_refl) as [Hm0 Hm1]. pose proof (new_block_ok m Hm0 Hm1) as Hok.
      split; [by right|]. split; [done|]. rewrite remaining_ok by done. cbn [map_ top_]. lia.
    - injection E1 as <-. destruct blocks as [|b rest]; [done|]. exists b, rest. apply Z.ltb_ge in Hf.
      split; [done|]. split; [by left|]. by inversion Hb. }
  exists b, rest. split; [done|]. split; [done|].
  rewrite remaining_ok in Hrem by done. unfold block_allocate in E.
  rewrite remaining_ok in E by done.
  destruct (Z.ltb_spec (map_ b + kSize - top_ b) (round_up sz)); [lia|].
  rewrite bind_Ret in E. injection E as <- <-. done.
Qed.

Lemma write_ok b rest p src :
  block_ok b -> map_ b <= p -> p - map_ b + Z.of_nat (length src) <= kSize ->
  write (b :: rest) p src =
    Ret (mkBlock (map_ b) (top_ b)
      (take (Z.to_nat (p - map_ b)) (page b) ++ src ++
       drop (Z.to_nat (p - map_ b) + length src) (page b)) :: rest).
Proof.
  intros Hb Hp Hs. unfold write. destruct (Z.ltb_spec p (map_ b)); [lia|].
  rewrite store_in_bounds; [done|]. destruct Hb. lia.
Qed.

(** A write just after the bytes that are there. *)
Lemma write_next b rest done_ src :
  block_ok b -> map_ b + Z.of_nat (length done_) + Z.of_nat (length src) <= map_ b + kSize ->
  take (length done_) (page b) = done_ ->
  exists b', write (b :: rest) (map_ b + Z.of_nat (length done_)) src = Ret (b' :: rest) /\
    block_ok b' /\ map_ b' = map_ b /\ top_ b' = top_ b /\
    take (length (done_ ++ src)) (page b') = done_ ++ src.
Proof.
  intros Hb Hs Hd. eexists. split; [apply write_ok; [done|lia|lia]|].
  replace (Z.to_nat (map_ b + Z.of_nat (length done_) - map_ b)) with (length done_) by lia.
  rewrite Hd. cbn [map_ top_ page].
  assert (Z.of_nat (length (page b)) = kSize) as Hl by apply Hb.
  split; [|split; [done|split; [done|]]].
  - split; cbn [map_ top_ page]; try apply Hb. rewrite !length_app, length_drop. lia.
  - rewrite app_assoc. by apply take_app_length.
Qed.

Lemma length_code_bytes i : Z.of_nat (length (code_bytes i)) = size.
Proof. unfold code_bytes, size, trampoline_data_size. rewrite !length_app, !length_le_bytes. lia. Qed.

Lemma size_eq : size = Z.of_nat (length template) + 12.
Proof. done. Qed.

Abbreviation write_code := (write_code template push_address pop_address).

Lemma write_code_ok b rest old i :
  block_ok b -> Z.of_nat (length old) + size <= kSize -> take (length old) (page b) = old ->
  exists b', write_code (b :: rest) (map_ b + Z.of_nat (length old)) i = Ret (b' :: rest) /\
    block_ok b' /\ map_ b' = map_ b /\ top_ b' = top_ b /\
    take (length (old ++ code_bytes i)) (page b') = old ++ code_bytes i.
Proof.
  intros H0 Hfit Hd. rewrite size_eq in Hfit. unfold Trampoline.write_code. cbv zeta.
  destruct (write_next b rest old template H0) as (b1 & -> & H1 & Hm1 & Ht1 & Hd1); [lia|done|].
  rewrite bind_Ret. rewrite <- Hm1.
  destruct (write_next b1 rest (old ++ template) (le_bytes 4 push_address) H1)
    as (b2 & E2 & H2 & Hm2 & Ht2 & Hd2); [rewrite length_app, length_le_bytes; lia|done|].
  rewrite length_app, Nat2Z.inj_add, Z.add_assoc in E2. rewrite E2, bind_Ret, <- Hm2.
  destruct (write_next b2 rest ((old ++ template) ++ le_bytes 4 push_address) (le_bytes 4 pop_address) H2)
    as (b3 & E3 & H3 & Hm3 & Ht3 & Hd3); [rewrite !length_app, !length_le_bytes; lia|done|].
  rewrite !length_app, !Nat2Z.inj_add, !Z.add_assoc, length_le_bytes in E3.
  change (Z.of_nat 4) with 4 in E3. rewrite E3, bind_Ret, <- Hm3.
  destruct (write_next b3 rest (((old ++ template) ++ le_bytes 4 push_address) ++ le_bytes 4 pop_address)
    (le_bytes 4 i) H3) as (b4 & E4 & H4 & Hm4 & Ht4 & Hd4); [rewrite !length_app, !length_le_bytes; lia|done|].
  rewrite !length_app, !Nat2Z.inj_add, !Z.add_assoc, !length_le_bytes in E4.
  change (Z.of_nat 4) with 4 in E4. rewrite <- (Z.add_assoc _ 4 4) in E4. change (4 + 4) with 8 in E4.
  exists b4. split; [done|]. split; [done|]. split; [congruence|]. split; [congruence|].
  rewrite <- !app_assoc in Hd4. exact Hd4.
Qed.

Lemma size_fits : 0 <= size <= kSize /\ size <= round_up size.
Proof.
  assert (0 <= size <= kSize) as H by (split; [rewrite size_eq; lia|done]). split; [done|].
  unfold kSize, kPageSize, kPagesPerBlock in H. apply (round_up_bounds size); lia.
Qed.

Lemma code_written blocks i mmap prctl_ok p bs :
  Forall block_ok blocks -> (forall m, mmap = Some m -> 0 <= m /\ m mod 4096 = 0) ->
  allocate blocks size mmap prctl_ok = Ret (p, bs) ->
  exists b b' rest, uses blocks size mmap prctl_ok b rest /\ block_ok b /\ p = top_ b /\
    write_code bs p i = Ret (b' :: rest) /\ block_ok b' /\ map_ b' = map_ b /\ top_ b' = top_ b + round_up size /\
    exists old, Z.of_nat (length old) = top_ b - map_ b /\ take (length old) (page b) = old /\
      take (length (old ++ code_bytes i)) (page b') = old ++ code_bytes i.
Proof.
  intros Hb Hm E. destruct size_fits as [Hsz Hru].
  destruct (block_allocate_ok _ _ _ _ _ _ Hb Hm Hsz E) as (b & rest & Hu & Hok & -> & Hr & ->). clear E.
  destruct (bo_top _ Hok) as [Ht _]. pose proof (bo_page _ Hok) as Hp.
  assert (block_ok (mkBlock (map_ b) (top_ b + round_up size) (page b))) as H0.
  { split; cbn [map_ top_ page]; try apply Hok; [lia|].
    rewrite <- Z.add_mod_idemp_l, (bo_aligned _ Hok) by done. rewrite Z.add_0_l.
    unfold kSize, kPageSize, kPagesPerBlock in *. by apply (round_up_bounds size); lia. }
  set (old := take (Z.to_nat (top_ b - map_ b)) (page b)).
  assert (Z.of_nat (length old) = top_ b - map_ b) as Hold by (subst old; rewrite length_take; lia).
  assert (take (length old) (page b) = old) as Htake.
  { subst old. rewrite length_take, Nat.min_l by lia. done. }
  destruct (write_code_ok _ rest old i H0 ltac:(lia) Htake) as (b' & E' & H' & Hm' & Ht' & Hd').
  cbn [map_ top_] in *. replace (map_ b + Z.of_nat (length old)) with (top_ b) in E' by lia.
  exists b, b', rest. do 7 (split; [done|]). by exists old.
Qed.

(** The code object of the identifier [i] is at [code]. *)
Definition installed (blocks : list allocator_block) (code i : Z) : Prop :=
  exists b, In b blocks /\ map_ b <= code /\ code + size <= top_ b /\ code mod 4 = 0 /\
    take (Z.to_nat size) (drop (Z.to_nat (code - map_ b)) (page b)) = code_bytes i.

Lemma installed_same_prefix b b' (old new : list Z) c i :
  map_ b' = map_ b -> Z.of_nat (length old) = top_ b - map_ b -> top_ b <= top_ b' ->
  take (length old) (page b) = old -> take (length (old ++ new)) (page b') = old ++ new ->
  map_ b <= c -> c + size <= top_ b ->
  take (Z.to_nat size) (drop (Z.to_nat (c - map_ b)) (page b)) = code_bytes i ->
  take (Z.to_nat size) (drop (Z.to_nat (c - map_ b')) (page b')) = code_bytes i.
Proof.
  intros Hm Hl Ht Ho Hn Hc1 Hc2 <-. rewrite Hm.
  assert (take (length old) (page b') = old) as Ho'.
  { rewrite <- (take_app_length old new) at 2. rewrite <- Hn, take_take. f_equal. rewrite length_app. lia. }
  pose proof size_eq as Hs. rewrite !take_drop_commute. f_equal.
  replace (Z.to_nat (c - map_ b) + Z.to_nat size)%nat
    with (Nat.min (Z.to_nat (c - map_ b) + Z.to_nat size) (length old)) by lia.
  by rewrite <- !take_take, Ho, Ho'.
Qed.

Lemma trampoline_installs blocks i mmap prctl_ok code blocks' :
  Forall block_ok blocks -> (forall m, mmap = Some m -> 0 <= m /\ m mod 4096 = 0) ->
  trampoline template push_address pop_address blocks i mmap prctl_ok = Ret (code, blocks') ->
  Forall block_ok blocks' /\ installed blocks' code i /\
  forall c j, installed blocks c j -> installed blocks' c j.
Proof.
  intros Hb Hm E. unfold trampoline in E. cbv zeta in E. apply bind_Ret_inv in E as ([p bs] & Ea & E).
  destruct (code_written blocks i mmap prctl_ok p bs Hb Hm Ea)
    as (b & b' & rest & Hu & Hok & -> & Ew & Hok' & Hm' & Ht' & old & Hl & Ho & Hd).
  rewrite Ew in E. injection E as <- <-.
  destruct size_fits as [Hsz Hru]. destruct (bo_top _ Hok) as [Ht _].
  split; [|split].
  - constructor; [done|]. destruct Hu as [[-> _]|[-> _]]; [by inversion Hb|done].
  - exists b'. split; [by left|]. split; [lia|]. split; [lia|]. split; [apply Hok|].
    rewrite Hm', <- Hl, Nat2Z.id. rewrite take_drop_commute.
    replace (length old + Z.to_nat size)%nat with (length (old ++ code_bytes i))
      by (rewrite length_app; pose proof (length_code_bytes i); lia).
    rewrite Hd. by apply drop_app_length.
  - intros c j (b0 & Hin & Hc1 & Hc2 & Hc4 & Hcb).
    assert (In b0 rest \/ b0 = b) as [Hr| ->].
    { destruct Hu as [[-> _]|[-> _]]; [destruct Hin; auto|by left]. }
    { exists b0. split; [by right|]. done. }
    exists b'. split; [by left|]. split; [lia|]. split; [lia|]. split; [done|].
    apply (installed_same_prefix b b' old (code_bytes i)); (done || lia).
Qed.

(** The trampolines made for a sequence of identifiers. *)
Fixpoint create_all (s : list Z * list allocator_block) (calls : list (Z * option Z * bool))
    : res (list Z * list allocator_block) :=
  match calls with
  | [] => Ret s
  | (i, mmap, prctl_ok) :: calls =>
      '(_, s) ← create_trampoline template push_address pop_address s i mmap prctl_ok;
      create_all s calls
  end.

Definition pages_aligned (calls : list (Z * option Z * bool)) : Prop :=
  Forall (fun c => forall m, c.1.2 = Some m -> 0 <= m /\ m mod 4096 = 0) calls.

Lemma create_all_installed calls : forall codes ids blocks codes' blocks',
  pages_aligned calls -> Forall block_ok blocks -> Forall2 (installed blocks) codes ids ->
  create_all (codes, blocks) calls = Ret (codes', blocks') ->
  Forall2 (installed blocks') codes' (ids ++ map (fun c => c.1.1) calls).
Proof.
  induction calls as [|[[i mmap] ok] calls IH]; intros codes ids blocks codes' blocks' Hp Hb Hi E.
  - injection E as <- <-. cbn. by rewrite app_nil_r.
  - inversion_clear Hp as [|? ? Hm Hp']. cbn [create_all] in E.
    apply bind_Ret_inv in E as ([c [cs bs]] & Ec & E). unfold create_trampoline in Ec.
    apply bind_Ret_inv in Ec as ([c' bs'] & Et & Ec). injection Ec as <- <- <-.
    destruct (trampoline_installs blocks i mmap ok c' bs' Hb Hm Et) as (Hb' & Hn & Hpres).
    cbn [map]. rewrite (cons_middle _ ids), app_assoc.
    apply (IH (codes ++ [c']) (ids ++ [i]) bs'); [done|done| |done].
    apply Forall2_app; [|by repeat constructor]. eapply Forall2_impl; [done|]. apply Hpres.
Qed.

(** C8: Every trampoline stays what it was made: however many are created
    afterwards, its code, the two functions and its identifier are at the
    address returned, on a multiple of four and inside an allocated block. *)
Theorem trampolines_intact calls codes blocks :
  pages_aligned calls -> create_all ([], []) calls = Ret (codes, blocks) ->
  Forall2 (installed blocks) codes (map (fun c => c.1.1) calls).
Proof. intros Hp E. by apply (create_all_installed calls [] [] []). Qed.

Lemma allocate_total blocks map : Forall block_ok blocks -> 0 <= map -> map mod 4096 = 0 ->
  exists p bs, allocate blocks size (Some map) true = Ret (p, bs).
Proof.
  intros Hb Hm Ha. destruct size_fits as [Hsz Hru]. pose proof (round_up_fits size Hsz) as Hfit.
  unfold allocate. cbv zeta.
  assert (forall bs, exists p bs', ('(p, b) ← block_allocate (mkBlock map map (replicate (Z.to_nat kSize) 0)) (round_up size);
            Ret (p, b :: bs)) = Ret (p, bs')) as Hnew.
  { intros bs. unfold block_allocate. rewrite remaining_ok by (by apply new_block_ok). cbn [map_ top_].
    destruct (Z.ltb_spec (map + kSize - map) (round_up size)); [lia|]. by do 2 eexists. }
  destruct blocks as [|b blocks]; [cbn [new_block]; rewrite !bind_Ret; apply Hnew|].
  destruct (Z.ltb_spec (remaining b) (round_up size)) as [Hlt|Hge].
  - cbn [new_block]. rewrite !bind_Ret. apply Hnew.
  - rewrite bind_Ret. unfold block_allocate. apply Z.ltb_ge in Hge. rewrite Hge. by do 2 eexists.
Qed.

(** A trampoline can be made whenever the system gives a page. *)
Theorem trampoline_created blocks i map : Forall block_ok blocks -> 0 <= map -> map mod 4096 = 0 ->
  exists code blocks', trampoline template push_address pop_address blocks i (Some map) true = Ret (code, blocks').
Proof.
  intros Hb Hm Ha. destruct (allocate_total blocks map Hb Hm Ha) as (p & bs & Ea).
  destruct (code_written blocks i (Some map) true p bs Hb ltac:(by intros m [= <-]) Ea)
    as (b & b' & rest & _ & _ & _ & Ew & _).
  unfold trampoline. cbv zeta. change (Z.of_nat (length template) + trampoline_data_size) with size.
  rewrite Ea, bind_Ret, Ew. by do 2 eexists.
Qed.
End Installed.

(** * The stack of hooks is a stack *)

Section Stack.
Import HookStack.

(** An active call: the slot's identifier, where it returns to, and the run
    list as it was on entry. *)
Definition frame : Type := Z * Z * list Z.

Definition frame_of (o : trampoline_hook_info) : frame := (id o, return_address o, run_list o).

(** The objects from [p] on, allocated in the order of the calls. *)
Fixpoint chain (h : gmap nat trampoline_hook_info) (bound : nat) (p : option nat) (l : list frame) : Prop :=
  match l with
  | [] => p = None
  | f :: l => exists r o, p = Some r /\ (r < bound)%nat /\ h !! r = Some o /\ frame_of o = f /\
                chain h r (previous o) l
  end.

Definition stack (t : thread) (l : list frame) : Prop := chain (heap t) (next_info t) (specific t) l.

Lemma chain_change h h' bound bound' p l : (bound <= bound')%nat ->
  (forall r, (r < bound)%nat -> h' !! r = h !! r) -> chain h bound p l -> chain h' bound' p l.
Proof.
  revert bound bound' p. induction l as [|f l IH]; intros bound bound' p Hb Hh; cbn [chain]; [done|].
  intros (r & o & -> & Hr & Ho & Hf & Hc). exists r, o. split; [done|]. split; [lia|].
  split; [by rewrite Hh|]. split; [done|]. apply (IH r r); [done| |done]. intros r' Hr'. apply Hh. lia.
Qed.

Lemma push_ok g t hook ret rl l : stack t l -> get_run_list g hook = Ret rl -> rl <> [] ->
  exists t', push_hook_stack g t hook ret = Ret (List.last rl 0, t') /\ stack t' ((hook, ret, rl) :: l).
Proof.
  intros Hs Hrl Hne. unfold push_hook_stack. rewrite Hrl, bind_Ret.
  destruct (Nat.eqb_spec (length rl) 0) as [H0|_]; [by destruct rl|].
  assert (last rl = Some (List.last rl 0)) as ->.
  { clear -Hne. induction rl as [|x [|y rl] IH]; [done|done|]. cbn in *. by apply IH. }
  cbn [get_or_oob]. rewrite bind_Ret. eexists. split; [done|]. unfold stack. cbn [heap next_info specific chain].
  exists (next_info t). eexists. split; [done|]. split; [lia|]. split; [apply lookup_insert_eq|].
  split; [done|]. cbn [previous]. apply (chain_change (heap t) _ (next_info t)); [done| |done].
  intros r Hr. rewrite lookup_insert_ne; [done|lia].
Qed.

Lemma pop_ok t hook ret rl l : stack t ((hook, ret, rl) :: l) ->
  exists t', pop_hook_stack t = Ret (ret, t') /\ stack t' l.
Proof.
  intros (r & o & Hp & Hr & Ho & Hf & Hc). injection Hf as _ Hret _.
  unfold pop_hook_stack. rewrite Hp. cbn [get_or_oob]. rewrite bind_Ret, Ho. cbn [get_or_oob].
  rewrite bind_Ret, Hret. eexists. split; [done|]. unfold stack. cbn.
  apply (chain_change (heap t) _ r); [lia| |done]. intros r' Hr'. rewrite lookup_delete_ne; [done|lia].
Qed.

Inductive call := Enter (g : Globals) (hook ret : Z) | Leave.

Fixpoint run_calls (t : thread) (calls : list call) : res (list Z * thread) :=
  match calls with
  | [] => Ret ([], t)
  | c :: calls =>
      '(v, t) ← match c with
                | Enter g hook ret => push_hook_stack g t hook ret
                | Leave => pop_hook_stack t
                end;
      '(vs, t) ← run_calls t calls;
      Ret (v :: vs, t)
  end.

(** The calls as they should be: the last hook is entered, and the return
    address is the one of the matching entry. *)
Fixpoint spec_calls (l : list frame) (calls : list call) : option (list Z * list frame) :=
  match calls with
  | [] => Some ([], l)
  | Enter g hook ret :: calls =>
      match get_run_list g hook with
      | Ret (x :: rl) =>
          '(vs, l) ← spec_calls ((hook, ret, x :: rl) :: l) calls;
          Some (List.last (x :: rl) 0 :: vs, l)
      | _ => None
      end
  | Leave :: calls =>
      match l with
      | (_, ret, _) :: l => '(vs, l) ← spec_calls l calls; Some (ret :: vs, l)
      | [] => None
      end
  end.

Lemma run_calls_ok calls : forall t l vs l', stack t l -> spec_calls l calls = Some (vs, l') ->
  exists t', run_calls t calls = Ret (vs, t') /\ stack t' l'.
Proof.
  induction calls as [|[g hook ret|] calls IH]; intros t l vs l' Hs E; cbn [run_calls spec_calls] in *.
  - injection E as <- <-. by exists t.
  - destruct (get_run_list g hook) as [[|x rl]|] eqn:Hg; try done.
    destruct (spec_calls ((hook, ret, x :: rl) :: l) calls) as [[vs1 l1]|] eqn:E1; [|done].
    injection E as <- <-.
    destruct (push_ok g t hook ret (x :: rl) l Hs Hg ltac:(done)) as (t1 & -> & Hs1). rewrite bind_Ret.
    destruct (IH t1 _ _ _ Hs1 E1) as (t' & -> & Hs'). by exists t'.
  - destruct l as [|[[hook ret] rl] l]; [done|].
    destruct (spec_calls l calls) as [[vs1 l1]|] eqn:E1; [|done]. injection E as <- <-.
    destruct (pop_ok t hook ret rl l Hs) as (t1 & -> & Hs1). rewrite bind_Ret.
    destruct (IH t1 _ _ _ Hs1 E1) as (t' & -> & Hs'). by exists t'.
Qed.

(** C31: However calls of hooked functions nest, each enters the last function of
    its run list and returns to its own caller. *)
Theorem nested_hooks_return calls vs l :
  spec_calls [] calls = Some (vs, l) -> exists t, run_calls new_thread calls = Ret (vs, t) /\ stack t l.
Proof. intros E. by apply (run_calls_ok calls new_thread []). Qed.

Lemma find_index_nodup rl i h : NoDup rl -> rl !! i = Some h -> find_index rl h = Some i.
Proof.
  intros Hn Hi. pose proof (find_index_spec rl h) as Hf. destruct (find_index rl h) as [j|].
  - destruct Hf as (_ & _ & Hj). f_equal. by eapply NoDup_lookup.
  - apply not_true_iff_false in Hf. destruct Hf. apply existsb_exists. exists h.
    split; [|apply Z.eqb_refl]. by apply list_elem_of_In, (list_elem_of_lookup_2 _ i).
Qed.

(** Inside a hook, CALL_PREV gives the function before the hook in the run
    list of the innermost active call; called by the original function or by a
    function that is not in the list, it ends the process. *)
Theorem call_prev_walks t hook ret rl l h : stack t ((hook, ret, rl) :: l) -> NoDup rl ->
  get_previous_from_hook t h =
    match find_index rl h with
    | Some (S i) => get_or_oob (rl !! i)
    | _ => Fault Aborted
    end /\
  (forall i, rl !! S i = Some h -> exists p, rl !! i = Some p /\ get_previous_from_hook t h = Ret p) /\
  (rl !! 0%nat = Some h \/ h ∉ rl -> get_previous_from_hook t h = Fault Aborted).
Proof.
  intros (r & o & Hp & Hr & Ho & Hf & Hc) Hn. injection Hf as _ _ Hrl.
  assert (get_previous_from_hook t h =
    match find_index rl h with Some (S i) => get_or_oob (rl !! i) | _ => Fault Aborted end) as E.
  { unfold get_previous_from_hook, get_hook_info. rewrite Hp, Ho. cbn. rewrite Hrl.
    by destruct (find_index rl h) as [[|]|]. }
  split; [done|]. rewrite E. split.
  - intros i Hi. rewrite (find_index_nodup rl (S i) h Hn Hi).
    destruct (lookup_lt_is_Some_2 rl i) as [p Hpv]; [apply lookup_lt_Some in Hi; lia|].
    exists p. by rewrite Hpv.
  - intros [H0|Hni]; [by rewrite (find_index_nodup rl 0 h)|].
    pose proof (find_index_spec rl h) as Hs. destruct (find_index rl h) as [i|]; [|done].
    destruct Hs as (_ & _ & Hi). by apply list_elem_of_lookup_2 in Hi.
Qed.
End Stack.

(** ** Witnesses *)

Lemma trampolines_intact_witness :
  exists codes blocks, create_all [0x55; 0x89; 0xe5] 0x8000 0x9000 ([], [])
    [(1, Some 0x40000, true); (2, None, true)] = Ret (codes, blocks) /\
    codes = [0x40000; 0x40010] /\ Forall2 (installed [0x55; 0x89; 0xe5] 0x8000 0x9000 blocks) codes [1; 2].
Proof.
  assert (exists blocks, create_all [0x55; 0x89; 0xe5] 0x8000 0x9000 ([], [])
    [(1, Some 0x40000, true); (2, None, true)] = Ret ([0x40000; 0x40010], blocks)) as [blocks E].
  { eexists. vm_compute. reflexivity. }
  exists [0x40000; 0x40010], blocks. split; [exact E|]. split; [done|].
  refine (trampolines_intact [0x55; 0x89; 0xe5] 0x8000 0x9000 _ _ _ _ _ E).
  - vm_compute. discriminate.
  - constructor; [intros m [= <-]; split; [lia|done]|].
    constructor; [intros m [=]|constructor].
Defined.

Lemma nested_hooks_return_witness :
  exists t, run_calls HookStack.new_thread
    [Enter sample_globals 1 0x111; Enter sample_globals 2 0x222; Leave; Leave] =
      Ret ([0x52; 0x61; 0x222; 0x111], t).
Proof.
  destruct (nested_hooks_return
    [Enter sample_globals 1 0x111; Enter sample_globals 2 0x222; Leave; Leave] [0x52; 0x61; 0x222; 0x111] [])
    as (t & E & _).
  - vm_compute. reflexivity.
  - exists t. exact E.
Defined.

Lemma call_prev_walks_witness :
  exists v t, HookStack.push_hook_stack sample_globals HookStack.new_thread 1 0x111 = Ret (v, t) /\
    HookStack.get_previous_from_hook t 0x52 = Ret 0x50 /\
    HookStack.get_previous_from_hook t 0x50 = Fault Aborted.
Proof.
  assert (exists t, HookStack.push_hook_stack sample_globals HookStack.new_thread 1 0x111 = Ret (0x52, t) /\
    stack t [(1, 0x111, [0x50; 0x52])]) as (t & E & Hs).
  { eexists. split; [reflexivity|]. exists 0%nat. eexists. split; [reflexivity|]. split; [cbn; lia|].
    split; [reflexivity|]. split; reflexivity. }
  assert (NoDup [0x50; 0x52]) as Hn by (apply (bool_decide_unpack _); vm_compute; exact I).
  exists 0x52, t. split; [exact E|].
  destruct (call_prev_walks t 1 0x111 [0x50; 0x52] [] 0x52 Hs Hn) as (-> & _).
  destruct (call_prev_walks t 1 0x111 [0x50; 0x52] [] 0x50 Hs Hn) as (-> & _). done.
Defined.
