(* ===== verification/ElfLib.v ===== *)
(** The dynamic section of a loaded library: linker/elfSharedLibData.h and
    linker/elfSharedLibData.cpp.

    The image is memory: a function from addresses to bytes, undefined where
    nothing is mapped, and every pointer of the code is an address in it, so
    that a table with wrong contents is read as the code reads it. The
    structures of <elf.h> are at their offsets for the two word sizes. Integers
    have their widths; the target decides the size of pointers, the kind of
    relocations and whether [char] is signed. *)
From S2P Require Import Prelude.

(** ** Targets *)

Inductive target := ARM | I386 | AARCH64 | X86_64.

#[export] Instance target_eq_dec : EqDecision target.
Proof. solve_decision. Defined.

Section Elf.

Context (arch : target).

(** Memory while the library is looked at. *)
Context (mem : Z -> option Z).

Definition lp64 : bool := match arch with AARCH64 | X86_64 => true | _ => false end.
Definition addr_width : Z := if lp64 then 64 else 32.
Definition uptr (z : Z) : Z := wrap addr_width z.

(** [char] is unsigned on the two ARMs. *)
Definition char_value (b : Z) : Z :=
  match arch with ARM | AARCH64 => b | _ => swrap 8 b end.

Definition PLT_RELOCATION_TYPE : Z :=
  match arch with ARM => 22 | I386 => 7 | AARCH64 => 1026 | X86_64 => 7 end.

Definition DT_GNU_HASH : Z := 0x6ffffef5.

Definition ELF_RELOC_TYPE (info : Z) : Z := if lp64 then Z.land info 0xffffffff else Z.land info 0xff.
Definition ELF_RELOC_SYM (info : Z) : Z := if lp64 then Z.shiftr info 32 else Z.shiftr info 8.

(** From <elf.h>: the tags, and the layout of the structures. *)
Definition PT_DYNAMIC : Z := 2.
Definition DT_NULL : Z := 0.
Definition DT_PLTRELSZ : Z := 2.
Definition DT_HASH : Z := 4.
Definition DT_STRTAB : Z := 5.
Definition DT_SYMTAB : Z := 6.
Definition DT_RELA : Z := 7.
Definition DT_RELASZ : Z := 8.
Definition DT_REL : Z := 17.
Definition DT_RELSZ : Z := 18.
Definition DT_JMPREL : Z := 23.

Definition sizeof_addr : Z := if lp64 then 8 else 4.
Definition sizeof_Dyn : Z := 2 * sizeof_addr.
Definition sizeof_Reloc : Z := if lp64 then 24 else 8.
Definition sizeof_Sym : Z := if lp64 then 24 else 16.

(** ** Reading memory *)

Fixpoint read_bytes (n : nat) (p : Z) : res (list Z) :=
  match n with
  | O => Ret []
  | S n => b ← get_or_oob (mem (uptr p)); l ← read_bytes n (p + 1); Ret (b :: l)
  end.

Definition read (n : nat) (p : Z) : res Z := l ← read_bytes n p; Ret (le_val l).
Definition read32 (p : Z) : res Z := read 4 p.
Definition read_addr (p : Z) : res Z := read (Z.to_nat sizeof_addr) p.

(** [table[i]] for a table of words of 32 bits. *)
Definition word_at (table i : Z) : res Z := read32 (uptr (table + 4 * i)).

Definition r_offset (rel : Z) : res Z := read_addr rel.
Definition r_info (rel : Z) : res Z := read_addr (uptr (rel + sizeof_addr)).
Definition st_name (sym : Z) : res Z := read32 sym.
Definition st_value (sym : Z) : res Z := read_addr (uptr (sym + (if lp64 then 8 else 4))).

(** [strcmp(p, name) == 0]: memory is read up to the first difference. *)
Fixpoint string_is (p : Z) (name : list Z) : res bool :=
  b ← get_or_oob (mem (uptr p));
  match name with
  | [] => Ret (b =? 0)
  | c :: name => if b =? c then string_is (p + 1) name else Ret false
  end.

(** ** Hashes *)

Definition elfhash_step (h c : Z) : Z :=
  let h := u32 (Z.shiftl h 4 + c) in
  let g := Z.land h 0xf0000000 in
  let h := Z.lxor h g in
  Z.lxor h (Z.shiftr g 24).

Definition elfhash (name : list Z) : Z :=
  fold_left (fun h c => elfhash_step h (char_value c)) name 0.

Definition gnuhash (name : list Z) : Z :=
  fold_left (fun h c => u32 (h + (Z.shiftl h 5 + char_value c))) name 5381.

(** * The structure *)

Record elf_hash := mkElfHash { numbuckets_ : Z; numchains_ : Z; buckets_ : Z; chains_ : Z }.

Record gnu_hash := mkGnuHash {
  gnu_numbuckets : Z; symoffset_ : Z; bloom_size_ : Z; bloom_shift_ : Z;
  bloom_filter_ : Z; gnu_buckets : Z; gnu_chains : Z;
}.

Record elfSharedLibData := mkLib {
  loadBias : Z;
  pltRelocations : Z;
  pltRelocationsLen : Z;
  relocations : Z;
  relocationsLen : Z;
  dynSymbolsTable : Z;
  dynStrsTable : Z;
  libName : list Z;
  elfHash_ : elf_hash;
  gnuHash_ : gnu_hash;
}.

Definition kBloomMaskBits : Z := sizeof_addr * 8.

(** The default constructor. *)
Definition empty_lib : elfSharedLibData :=
  mkLib 0 0 0 0 0 0 0 [] (mkElfHash 0 0 0 0) (mkGnuHash 0 0 0 0 0 0 0).

Definition is_complete (l : elfSharedLibData) : bool :=
  negb (pltRelocationsLen l =? 0) && negb (pltRelocations l =? 0) &&
  negb (dynSymbolsTable l =? 0) && negb (dynStrsTable l =? 0) &&
  ((0 <? numbuckets_ (elfHash_ l)) || (0 <? gnu_numbuckets (gnuHash_ l))).

Definition usesGnuHashTable (l : elfSharedLibData) : bool := 0 <? gnu_numbuckets (gnuHash_ l).

(** ** Parsing *)

(** The case DT_HASH. *)
Definition parse_hash (p : Z) : res elf_hash :=
  nb ← word_at p 0;
  nc ← word_at p 1;
  let b := uptr (p + 8) in
  Ret (mkElfHash nb nc b (uptr (b + 4 * nb))).

(** The case DT_GNU_HASH. The index of [chains_] is a 32-bit unsigned
    difference. *)
Definition parse_gnu_hash (p : Z) : res gnu_hash :=
  nb ← word_at p 0;
  symoffset ← word_at p 1;
  bloom_size ← word_at p 2;
  bloom_shift ← word_at p 3;
  let filter := uptr (p + 16) in
  let buckets := uptr (filter + sizeof_addr * bloom_size) in
  let chains := uptr (buckets + 4 * u32 (nb - symoffset)) in
  if negb (Z.land (u32 (bloom_size - 1)) bloom_size =? 0) then Fault Thrown
  else Ret (mkGnuHash nb symoffset (u32 (bloom_size - 1)) bloom_shift filter buckets chains).

(** The switch on one entry of the dynamic table. *)
Definition parse_entry (l : elfSharedLibData) (tag val : Z) : res elfSharedLibData :=
  let '(mkLib bias plt pltlen rel rellen sym str name eh gh) := l in
  let p := uptr (bias + val) in
  if tag =? DT_PLTRELSZ then Ret (mkLib bias plt (val / sizeof_Reloc) rel rellen sym str name eh gh)
  else if tag =? DT_JMPREL then Ret (mkLib bias p pltlen rel rellen sym str name eh gh)
  else if (tag =? DT_RELSZ) || (tag =? DT_RELASZ) then
    Ret (mkLib bias plt pltlen rel (val / sizeof_Reloc) sym str name eh gh)
  else if (tag =? DT_REL) || (tag =? DT_RELA) then Ret (mkLib bias plt pltlen p rellen sym str name eh gh)
  else if tag =? DT_SYMTAB then Ret (mkLib bias plt pltlen rel rellen p str name eh gh)
  else if tag =? DT_STRTAB then Ret (mkLib bias plt pltlen rel rellen sym p name eh gh)
  else if tag =? DT_HASH then
    eh ← parse_hash p; Ret (mkLib bias plt pltlen rel rellen sym str name eh gh)
  else if tag =? DT_GNU_HASH then
    gh ← parse_gnu_hash p; Ret (mkLib bias plt pltlen rel rellen sym str name eh gh)
  else Ret l.

(** The loop over the dynamic table. *)
Fixpoint parse_loop (fuel : nat) (l : elfSharedLibData) (entry : Z) : res elfSharedLibData :=
  if entry =? 0 then Ret l
  else
    tag ← read_addr entry;
    if tag =? DT_NULL then Ret l
    else
      match fuel with
      | O => Fault OutOfFuel
      | S fuel =>
          val ← read_addr (uptr (entry + sizeof_addr));
          l ← parse_entry l tag val;
          if is_complete l then Ret l else parse_loop fuel l (uptr (entry + sizeof_Dyn))
      end.

(** [dl_phdr_info], with the types and addresses of the program headers. *)
Record dl_phdr_info := mkPhdrInfo {
  dlpi_addr : Z; dlpi_name : list Z; dlpi_phdr : list (Z * Z);
}.

Fixpoint find_dynamic (bias : Z) (phdrs : list (Z * Z)) : Z :=
  match phdrs with
  | [] => 0
  | (p_type, p_vaddr) :: phdrs =>
      if p_type =? PT_DYNAMIC then uptr (bias + p_vaddr) else find_dynamic bias phdrs
  end.

Definition elfSharedLibData_of_phdr (fuel : nat) (info : dl_phdr_info) : res elfSharedLibData :=
  let l := mkLib (dlpi_addr info) 0 0 0 0 0 0 (dlpi_name info) (elfHash_ empty_lib) (gnuHash_ empty_lib) in
  let dynamic_table := find_dynamic (dlpi_addr info) (dlpi_phdr info) in
  if dynamic_table =? 0 then Fault Thrown
  else
    l ← parse_loop fuel l dynamic_table;
    if is_complete l then Ret l else Fault Thrown.

(** The fields of bionic's [soinfo] that are used. *)
Record soinfo := mkSoinfo {
  si_name : list Z; si_base : Z; si_strtab : Z; si_symtab : Z;
  nbucket : Z; nchain : Z; bucket : Z; chain : Z;
  plt_rel : Z; plt_rel_count : Z; rel : Z; rel_count : Z; load_bias : Z;
}.

Definition elfSharedLibData_of_soinfo (sdk : Z) (si : soinfo) : elfSharedLibData :=
  mkLib (if 17 <=? sdk then load_bias si else si_base si)
    (plt_rel si) (plt_rel_count si) (rel si) (rel_count si) (si_symtab si) (si_strtab si) (si_name si)
    (mkElfHash (u32 (nbucket si)) (u32 (nchain si)) (bucket si) (chain si))
    (mkGnuHash 0 0 0 0 0 0 0).

(** * Symbols *)

Definition symbol_at (l : elfSharedLibData) (n : Z) : Z := uptr (dynSymbolsTable l + sizeof_Sym * n).

(** [strcmp(dynStrsTable + s->st_name, name) == 0]. *)
Definition symbol_is (l : elfSharedLibData) (s : Z) (name : list Z) : res bool :=
  off ← st_name s; string_is (dynStrsTable l + off) name.

(** The walk along a chain of the ELF table. Pointers to symbols are
    addresses, [None] is nullptr. *)
Fixpoint elf_walk (fuel : nat) (l : elfSharedLibData) (name : list Z) (n : Z) : res (option Z) :=
  if n =? 0 then Ret None
  else
    match fuel with
    | O => Fault OutOfFuel
    | S fuel =>
        let s := symbol_at l n in
        found ← symbol_is l s name;
        if (found : bool) then Ret (Some s)
        else n ← word_at (chains_ (elfHash_ l)) n; elf_walk fuel l name n
    end.

(** A remainder by zero is a fault. *)
Definition elf_find_symbol_by_name (fuel : nat) (l : elfSharedLibData) (name : list Z) : res (option Z) :=
  let hash := elfhash name in
  if numbuckets_ (elfHash_ l) =? 0 then Fault Aborted
  else
    n ← word_at (buckets_ (elfHash_ l)) (hash mod numbuckets_ (elfHash_ l));
    elf_walk fuel l name n.

Fixpoint gnu_walk (fuel : nat) (l : elfSharedLibData) (name : list Z) (hash n : Z) : res (option Z) :=
  match fuel with
  | O => Fault OutOfFuel
  | S fuel =>
      let s := symbol_at l n in
      h ← word_at (gnu_chains (gnuHash_ l)) n;
      found ← (if Z.shiftr (Z.lxor h hash) 1 =? 0 then symbol_is l s name else Ret false);
      if (found : bool) then Ret (Some s)
      else if Z.land h 1 =? 0 then gnu_walk fuel l name hash (u32 (n + 1)) else Ret None
  end.

(** The test of the Bloom filter. *)
Definition bloom_test (l : elfSharedLibData) (hash : Z) : res bool :=
  let g := gnuHash_ l in
  let h2 := Z.shiftr hash (bloom_shift_ g) in
  let word_num := Z.land (hash / kBloomMaskBits) (bloom_size_ g) in
  bloom_word ← read_addr (uptr (bloom_filter_ g + sizeof_addr * word_num));
  Ret (negb (Z.land (Z.land 1 (Z.shiftr bloom_word (hash mod kBloomMaskBits)))
               (Z.shiftr bloom_word (h2 mod kBloomMaskBits)) =? 0)).

Definition gnu_find_symbol_by_name (fuel : nat) (l : elfSharedLibData) (name : list Z) : res (option Z) :=
  let hash := gnuhash name in
  maybe ← bloom_test l hash;
  if negb maybe then Ret None
  else
    n ← word_at (gnu_buckets (gnuHash_ l)) (hash mod gnu_numbuckets (gnuHash_ l));
    if n =? 0 then Ret None else gnu_walk fuel l name hash n.

(** The search among the symbols of a table of relocations, from the [i]th,
    [n] being left. *)
Fixpoint find_in_relocs (l : elfSharedLibData) (table : Z) (name : list Z) (n : nat) (i : Z)
    : res (option Z) :=
  match n with
  | O => Ret None
  | S n =>
      info ← r_info (uptr (table + sizeof_Reloc * i));
      let s := symbol_at l (ELF_RELOC_SYM info) in
      found ← symbol_is l s name;
      if (found : bool) then Ret (Some s) else find_in_relocs l table name n (i + 1)
  end.

(** [sym ← m; k], when [m] finds nothing. *)
Definition or_else (sym : option Z) (m : res (option Z)) : res (option Z) :=
  match sym with Some s => Ret (Some s) | None => m end.

Definition find_symbol_by_name (fuel : nat) (l : elfSharedLibData) (name : list Z) : res (option Z) :=
  sym ← (if usesGnuHashTable l then gnu_find_symbol_by_name fuel l name
         else elf_find_symbol_by_name fuel l name);
  sym ← or_else sym (find_in_relocs l (pltRelocations l) name (Z.to_nat (pltRelocationsLen l)) 0);
  or_else sym (find_in_relocs l (relocations l) name (Z.to_nat (relocationsLen l)) 0).

Definition getLoadedAddress (l : elfSharedLibData) (sym : Z) : res Z :=
  v ← st_value sym; Ret (uptr (loadBias l + v)).

(** * Relocations *)

Fixpoint relocs_of (l : elfSharedLibData) (symbol : Z) (n : nat) (i : Z) : res (list Z) :=
  match n with
  | O => Ret []
  | S n =>
      off ← r_offset (uptr (relocations l + sizeof_Reloc * i));
      let relocated := uptr (loadBias l + off) in
      v ← read_addr relocated;
      rest ← relocs_of l symbol n (i + 1);
      Ret (if v =? symbol then relocated :: rest else rest)
  end.

Definition get_relocations (l : elfSharedLibData) (symbol : Z) : res (list Z) :=
  relocs_of l symbol (Z.to_nat (relocationsLen l)) 0.

(** The index is an [unsigned int] in the code, so [n] is below 2^32. *)
Fixpoint plt_relocs_of (l : elfSharedLibData) (elf_sym : Z) (n : nat) (i : Z) : res (list Z) :=
  match n with
  | O => Ret []
  | S n =>
      let rel := uptr (pltRelocations l + sizeof_Reloc * i) in
      info ← r_info rel;
      here ← (if negb (ELF_RELOC_TYPE info =? PLT_RELOCATION_TYPE) then Ret []
              else if symbol_at l (ELF_RELOC_SYM info) =? elf_sym then
                off ← r_offset rel; Ret [uptr (loadBias l + off)]
              else Ret []);
      rest ← plt_relocs_of l elf_sym n (i + 1);
      Ret (here ++ rest)
  end.

Definition get_plt_relocations (l : elfSharedLibData) (elf_sym : Z) : res (list Z) :=
  plt_relocs_of l elf_sym (Z.to_nat (pltRelocationsLen l)) 0.

(** * Validity

    [dladdr] gives the name of the file that an address belongs to. *)
Definition in_lib (dladdr : Z -> option (list Z)) (l : elfSharedLibData) (p : Z) : bool :=
  match dladdr p with
  | None => false
  | Some fname => negb (p =? 0) && bool_decide (fname = libName l)
  end.

Definition is_valid (dladdr : Z -> option (list Z)) (l : elfSharedLibData) : bool :=
  is_complete l && in_lib dladdr l (pltRelocations l) && in_lib dladdr l (dynSymbolsTable l) &&
  in_lib dladdr l (dynStrsTable l).

Definition lib_eq (l l' : elfSharedLibData) : bool := loadBias l =? loadBias l'.

(** * Hashes *)

Definition byte_string (s : list Z) : Prop := Forall (fun c => 0 <= c < 256) s.

(** The hash function of the System V ABI, on a 32-bit word. *)
Definition gabi_step (h c : Z) : Z :=
  let h := u32 (Z.shiftl h 4 + c) in
  let g := Z.land h 0xf0000000 in
  let h := if g =? 0 then h else Z.lxor h (Z.shiftr g 24) in
  Z.ldiff h g.

Definition gabi_hash (name : list Z) : Z := fold_left gabi_step name 0.

(** Bytes 128 to 255 are negative where [char] is signed. *)
Definition unsigned_chars (name : list Z) : Prop :=
  byte_string name /\ match arch with ARM | AARCH64 => True | _ => Forall (fun c => c < 128) name end.

Lemma char_value_unsigned name c : unsigned_chars name -> In c name -> char_value c = c.
Proof.
  intros [Hb Ha] Hc. unfold byte_string in Hb. unfold char_value. destruct arch; try done;
    rewrite Forall_forall in Ha, Hb; specialize (Ha c (proj2 (list_elem_of_In _ _) Hc));
    specialize (Hb c (proj2 (list_elem_of_In _ _) Hc)); apply swrap_small; lia.
Qed.

Lemma elfhash_step_gabi h c : elfhash_step h c = gabi_step h c.
Proof.
  unfold elfhash_step, gabi_step. cbv zeta. set (x := u32 _).
  assert (forall i, 0 <= i -> Z.testbit 0xf0000000 i = (28 <=? i) && (i <? 32)) as Hmask.
  { intros i Hi. change 0xf0000000 with (Z.shiftl (Z.ones 4) 28).
    rewrite Z.shiftl_spec by done. destruct (Z.leb_spec 28 i).
    - rewrite Z.testbit_ones_nonneg by lia. cbn. destruct (Z.ltb_spec (i - 28) 4), (Z.ltb_spec i 32); lia || done.
    - apply Z.testbit_neg_r. lia. }
  apply Z.bits_inj'. intros i Hi.
  destruct (Z.eqb_spec (Z.land x 0xf0000000) 0) as [->|_]; [by rewrite Z.lxor_0_r|].
  rewrite Z.ldiff_spec, !Z.lxor_spec, !Z.shiftr_spec, !Z.land_spec by done.
  rewrite (Hmask i Hi), (Hmask (i + 24)) by lia.
  destruct (Z.leb_spec 28 i), (Z.ltb_spec i 32), (Z.leb_spec 28 (i + 24)), (Z.ltb_spec (i + 24) 32);
    try lia; destruct (Z.testbit x i), (Z.testbit x (i + 24)); done.
Qed.

Lemma fold_left_ext_in {A B} (f g : A -> B -> A) l a :
  (forall a b, In b l -> f a b = g a b) -> fold_left f l a = fold_left g l a.
Proof.
  revert a. induction l as [|b l IH]; intros a H; [done|]. cbn. rewrite H by (by left).
  apply IH. intros a' b' Hb. apply H. by right.
Qed.

(** The two hash functions are the standard ones on names whose bytes are
    non-negative [char]s: on every name for the ARMs, on ASCII names for the
    x86s. *)
Theorem hashes_are_standard name : unsigned_chars name ->
  elfhash name = gabi_hash name /\
  gnuhash name = fold_left (fun h c => (h * 33 + c) mod 2 ^ 32) name 5381.
Proof.
  intros Hn. split.
  - apply fold_left_ext_in. intros h c Hc. by rewrite (char_value_unsigned name), elfhash_step_gabi.
  - apply fold_left_ext_in. intros h c Hc. rewrite (char_value_unsigned name) by done.
    rewrite Z.shiftl_mul_pow2 by lia. unfold wrap. f_equal. lia.
Qed.


(** * Names in memory *)

(** The C string [s] is at [p]. *)
Fixpoint cstring (p : Z) (s : list Z) : Prop :=
  match s with
  | [] => mem (uptr p) = Some 0
  | c :: s => mem (uptr p) = Some c /\ c <> 0 /\ cstring (p + 1) s
  end.

Definition name_ok (name : list Z) : Prop := Forall (fun c => c <> 0) name.

Lemma string_is_spec s : forall p name, cstring p s -> name_ok name ->
  string_is p name = Ret (bool_decide (name = s)).
Proof.
  induction s as [|c s IH]; intros p [|d name] Hs Hn; cbn [cstring string_is] in *.
  - by rewrite Hs.
  - rewrite Hs. cbn [get_or_oob]. rewrite bind_Ret. inversion_clear Hn. destruct (Z.eqb_spec 0 d); [by subst|].
    done.
  - destruct Hs as (-> & Hc & _). cbn [get_or_oob]. rewrite bind_Ret. destruct (Z.eqb_spec c 0); [done|].
    done.
  - destruct Hs as (-> & Hc & Hs). inversion_clear Hn as [|? ? Hd Hn']. cbn [get_or_oob]. rewrite bind_Ret.
    destruct (Z.eqb_spec c d) as [->|Hne].
    + rewrite (IH _ _ Hs Hn'). f_equal. apply bool_decide_ext. naive_solver.
    + rewrite bool_decide_eq_false_2; [done|]. congruence.
Qed.

Section Lookup.
Context (l : elfSharedLibData).

(** The symbol [m] of the table has the name [s]. *)
Definition symbol_named (m : Z) (s : list Z) : Prop :=
  exists off, st_name (symbol_at l m) = Ret off /\ cstring (dynStrsTable l + off) s.

Lemma symbol_is_spec m s name : symbol_named m s -> name_ok name ->
  symbol_is l (symbol_at l m) name = Ret (bool_decide (name = s)).
Proof.
  intros (off & Ho & Hs) Hn. unfold symbol_is. rewrite Ho, bind_Ret. by apply string_is_spec.
Qed.

(** The first symbol from [i] on that has the name, in a list of names. *)
Fixpoint first_named (names : list (list Z)) (i : Z) (name : list Z) : option Z :=
  match names with
  | [] => None
  | s :: names => if bool_decide (name = s) then Some i else first_named names (i + 1) name
  end.

Lemma first_named_range names : forall i name m, first_named names i name = Some m ->
  i <= m < i + Z.of_nat (length names) /\ names !! Z.to_nat (m - i) = Some name.
Proof.
  induction names as [|s names IH]; intros i name m; cbn [first_named length]; [done|].
  case_bool_decide as E.
  - intros [= ->]. rewrite Z.sub_diag, E. split; [lia|done].
  - intros H. destruct (IH _ _ _ H) as [Hr Hl]. split; [lia|].
    replace (Z.to_nat (m - i)) with (S (Z.to_nat (m - (i + 1)))) by lia. done.
Qed.

Lemma first_named_none names : forall i name, first_named names i name = None <-> name ∉ names.
Proof.
  induction names as [|s names IH]; intros i name; cbn [first_named]; [by split; [intros _; apply not_elem_of_nil|]|].
  rewrite not_elem_of_cons, <- (IH (i + 1) name). case_bool_decide; naive_solver.
Qed.

(** ** The GNU hash table

    [names] are the names of the hashed symbols, from [symoffset_] on. *)

(** The hash of the table's format: a polynomial in 33 whose coefficients are the
    characters, unsigned, after 5381. *)
Fixpoint gnu_poly (name : list Z) : Z :=
  match name with [] => 0 | c :: name => c * 33 ^ Z.of_nat (length name) + gnu_poly name end.

Definition gnu_hash_of (name : list Z) : Z := (5381 * 33 ^ Z.of_nat (length name) + gnu_poly name) mod 2 ^ 32.

Lemma gnu_fold name : forall h, fold_left (fun h c => (h * 33 + c) mod 2 ^ 32) name (h mod 2 ^ 32)
  = (h * 33 ^ Z.of_nat (length name) + gnu_poly name) mod 2 ^ 32.
Proof.
  induction name as [|c name IH]; intros h; cbn [fold_left gnu_poly length].
  - f_equal. change (33 ^ Z.of_nat 0) with 1. lia.
  - replace ((h mod 2 ^ 32 * 33 + c) mod 2 ^ 32) with ((h * 33 + c) mod 2 ^ 32) by (by rewrite <- Zplus_mod_idemp_l, <- Zmult_mod_idemp_l, Zplus_mod_idemp_l).
    rewrite IH. f_equal. rewrite Nat2Z.inj_succ, Z.pow_succ_r by lia. lia.
Qed.

(** The code's hash is that of the format. *)
Lemma gnuhash_of name : unsigned_chars name -> gnuhash name = gnu_hash_of name.
Proof. intros Hn. destruct (hashes_are_standard name Hn) as [_ ->]. exact (gnu_fold name 5381). Qed.

(** A Bloom word admits a hash if it has two bits, which the hash and the hash
    shifted give. *)
Definition bloom_bits (word shift h : Z) : Prop :=
  Z.testbit word (h mod kBloomMaskBits) = true /\ Z.testbit word ((h / 2 ^ shift) mod kBloomMaskBits) = true.

Let g := gnuHash_ l.
Definition bucket_of (name : list Z) : Z := gnu_hash_of name mod gnu_numbuckets g.

(** The Bloom word of a hash, in a filter of [words] words. *)
Definition bloom_word_at (i : Z) : res Z := read_addr (uptr (bloom_filter_ g + sizeof_addr * i)).

(** A table as a static linker makes it: the symbols are sorted by bucket;
    a bucket holds the index of its first symbol, or 0; a chain word holds the
    hash of its symbol with the low bit telling the last one of its bucket;
    the Bloom filter, of a power of two of words ([bloom_size_] has been
    decremented), has both bits of every symbol. *)
Record gnu_table (names : list (list Z)) : Prop := {
  gt_buckets : 0 < gnu_numbuckets g;
  gt_offset : 0 < symoffset_ g /\ symoffset_ g + Z.of_nat (length names) < 2 ^ 32;
  gt_names : forall k s, names !! k = Some s ->
    symbol_named (symoffset_ g + Z.of_nat k) s;
  gt_sorted : forall j k m s t u, names !! j = Some s -> names !! k = Some t -> names !! m = Some u ->
    (j <= k <= m)%nat -> bucket_of s = bucket_of u -> bucket_of t = bucket_of s;
  gt_bucket : forall b, 0 <= b < gnu_numbuckets g -> exists n, word_at (gnu_buckets g) b = Ret n /\
    match n with
    | 0 => forall k s, names !! k = Some s -> bucket_of s <> b
    | _ => symoffset_ g <= n /\
        (exists s, names !! Z.to_nat (n - symoffset_ g) = Some s /\ bucket_of s = b) /\
        forall k s, names !! k = Some s -> bucket_of s = b -> n <= symoffset_ g + Z.of_nat k
    end;
  gt_chain : forall k s, names !! k = Some s ->
    exists h, word_at (gnu_chains g) (symoffset_ g + Z.of_nat k) = Ret h /\
      h / 2 = gnu_hash_of s / 2 /\
      (h mod 2 = 0 <-> exists t, names !! S k = Some t /\ bucket_of t = bucket_of s);
  gt_bloom_size : exists e, 0 <= e <= 31 /\ bloom_size_ g = 2 ^ e - 1;
  gt_bloom_shift : 0 <= bloom_shift_ g < 32;
  gt_bloom_reads : forall i, 0 <= i <= bloom_size_ g -> exists w, bloom_word_at i = Ret w;
  gt_bloom : forall k s w, names !! k = Some s ->
    bloom_word_at ((gnu_hash_of s / kBloomMaskBits) mod (bloom_size_ g + 1)) = Ret w -> bloom_bits w (bloom_shift_ g) (gnu_hash_of s);
}.

(** The test of the filter is for the two bits. *)
Lemma two_bits w a b : 0 <= a -> 0 <= b ->
  negb (Z.land (Z.land 1 (Z.shiftr w a)) (Z.shiftr w b) =? 0) = Z.testbit w a && Z.testbit w b.
Proof.
  intros Ha Hb. assert (Z.land (Z.land 1 (Z.shiftr w a)) (Z.shiftr w b) = Z.b2z (Z.testbit w a && Z.testbit w b)) as ->.
  { apply Z.bits_inj'. intros i Hi. rewrite !Z.land_spec, !Z.shiftr_spec by done. destruct (decide (i = 0)) as [->|].
    - rewrite Z.b2z_bit0. by rewrite !Z.add_0_l.
    - change 1 with (2 ^ 0) at 1. rewrite Z.pow2_bits_false by lia. cbn [andb]. symmetry.
      destruct (_ && _); cbn [Z.b2z]; [change 1 with (2 ^ 0); by rewrite Z.pow2_bits_false by lia|apply Z.bits_0]. }
  by destruct (Z.testbit w a && Z.testbit w b).
Qed.

Lemma bloom_test_spec names hash : gnu_table names -> 0 <= hash ->
  exists w, bloom_word_at ((hash / kBloomMaskBits) mod (bloom_size_ g + 1)) = Ret w /\
    bloom_test l hash = Ret (bool_decide (bloom_bits w (bloom_shift_ g) hash)).
Proof.
  intros Hg Hh. destruct (gt_bloom_size _ Hg) as (e & He & Hsz). pose proof (gt_bloom_shift _ Hg) as Hsh.
  assert (0 < kBloomMaskBits) as Hk by (unfold kBloomMaskBits, sizeof_addr; by destruct lp64).
  assert (0 < 2 ^ e) by (apply Z.pow_pos_nonneg; lia).
  assert (Z.land (hash / kBloomMaskBits) (bloom_size_ g) = (hash / kBloomMaskBits) mod (bloom_size_ g + 1)) as E.
  { rewrite Hsz. replace (2 ^ e - 1 + 1) with (2 ^ e) by lia. replace (2 ^ e - 1) with (Z.ones e) by (rewrite Z.ones_equiv; lia).
    apply Z.land_ones. lia. }
  destruct (gt_bloom_reads _ Hg ((hash / kBloomMaskBits) mod (bloom_size_ g + 1))) as [w Hw].
  { rewrite Hsz. pose proof (Z.mod_pos_bound (hash / kBloomMaskBits) (2 ^ e - 1 + 1) ltac:(lia)). lia. }
  exists w. split; [exact Hw|]. unfold bloom_test. cbv zeta. fold g. rewrite E. fold (bloom_word_at ((hash / kBloomMaskBits) mod (bloom_size_ g + 1))).
  rewrite Hw, bind_Ret. f_equal. rewrite (Z.shiftr_div_pow2 hash) by lia.
  rewrite two_bits by (apply Z.mod_pos_bound; lia). unfold bloom_bits.
  destruct (Z.testbit w (hash mod kBloomMaskBits)), (Z.testbit w ((hash / 2 ^ bloom_shift_ g) mod kBloomMaskBits)); symmetry;
    (apply bool_decide_eq_true_2; done) || (apply bool_decide_eq_false_2; intros [? ?]; done).
Qed.

Lemma lxor_shiftr_zero a b : Z.shiftr (Z.lxor a b) 1 = 0 <-> Z.shiftr a 1 = Z.shiftr b 1.
Proof. rewrite Z.shiftr_lxor. split; [by apply Z.lxor_eq|intros ->; apply Z.lxor_nilpotent]. Qed.

Lemma first_named_drop names : forall k i name, (forall j, (j < k)%nat -> names !! j <> Some name) ->
  (k <= length names)%nat -> first_named names i name = first_named (drop k names) (i + Z.of_nat k) name.
Proof.
  induction names as [|s names IH]; intros [|k] i name Hj Hk; cbn [length] in *; try (by rewrite Z.add_0_r); [lia|].
  cbn [first_named drop]. case_bool_decide as E.
  - subst. exfalso. by apply (Hj 0%nat ltac:(lia)).
  - rewrite (IH k (i + 1)); [f_equal; lia| |lia]. intros j Hlt. apply (Hj (S j)). lia.
Qed.

Lemma low_bit h : Z.land h 1 = h mod 2.
Proof. exact (Z.land_ones h 1 ltac:(done)). Qed.

Lemma gnu_walk_step names fuel k s name :
  gnu_table names -> name_ok name -> unsigned_chars name -> names !! k = Some s ->
  exists h, let n := symoffset_ g + Z.of_nat k in
    gnu_walk (S fuel) l name (gnuhash name) n =
      (if bool_decide (name = s) then Ret (Some (symbol_at l n))
       else if Z.land h 1 =? 0 then gnu_walk fuel l name (gnuhash name) (u32 (n + 1)) else Ret None) /\
    (Z.land h 1 = 0 <-> exists t, names !! S k = Some t /\ bucket_of t = bucket_of s).
Proof.
  intros Hg Hn Hu Hs. destruct (gt_chain _ Hg k s Hs) as (h & Hh & Hhash & Hlast). exists h. split; [|by rewrite low_bit].
  cbn [gnu_walk]. cbv zeta. fold g. rewrite Hh, bind_Ret.
  rewrite (symbol_is_spec _ s name (gt_names _ Hg k s Hs) Hn). case_bool_decide as E.
  - subst s. destruct (Z.eqb_spec (Z.shiftr (Z.lxor h (gnuhash name)) 1) 0) as [_|Hne]; [done|].
    destruct Hne. apply lxor_shiftr_zero. rewrite (gnuhash_of name Hu). by rewrite !Z.shiftr_div_pow2 by done.
  - by destruct (Z.shiftr (Z.lxor h (gnuhash name)) 1 =? 0).
Qed.

Lemma gnu_walk_ok names name : gnu_table names -> name_ok name -> unsigned_chars name ->
  forall fuel k s, names !! k = Some s -> bucket_of s = bucket_of name ->
  (length names - k <= fuel)%nat ->
  gnu_walk fuel l name (gnuhash name) (symoffset_ g + Z.of_nat k) =
    Ret (symbol_at l <$> first_named (drop k names) (symoffset_ g + Z.of_nat k) name).
Proof.
  intros Hg Hn Hu. induction fuel as [|fuel IH]; intros k s Hs Hb Hf.
  { apply lookup_lt_Some in Hs. lia. }
  destruct (gnu_walk_step names fuel k s name Hg Hn Hu Hs) as (h & -> & Hlast).
  rewrite (drop_S _ _ _ Hs). cbn [first_named]. case_bool_decide as E; [done|].
  destruct (gt_offset _ Hg) as [Ho1 Ho2]. pose proof (lookup_lt_Some _ _ _ Hs) as Hlt.
  destruct (Z.eqb_spec (Z.land h 1) 0) as [Hz|Hnz].
  - apply Hlast in Hz as (t & Ht & Hbt). pose proof (lookup_lt_Some _ _ _ Ht) as Hlt'.
    rewrite wrap_small by (split; lia).
    replace (symoffset_ g + Z.of_nat k + 1) with (symoffset_ g + Z.of_nat (S k)) by lia.
    apply (IH (S k) t Ht); [congruence|lia].
  - destruct (first_named (drop (S k) names) (symoffset_ g + Z.of_nat k + 1) name) as [m|] eqn:Hm; [|done].
    exfalso. apply Hnz, Hlast. apply first_named_range in Hm as [Hr Hm].
    rewrite lookup_drop in Hm. rewrite length_drop in Hr.
    destruct (lookup_lt_is_Some_2 names (S k)) as [t Ht]; [lia|]. exists t. split; [done|].
    eapply (gt_sorted _ Hg k (S k)); [done|done|exact Hm|lia|done].
Qed.

(** C9: On a table that is well-formed by the format, with its own definition of
    the hash and of the Bloom filter, the GNU lookup is exact for a name whose
    bytes are non-negative characters (any name on the ARMs, an ASCII name on
    the x86s): it ends after at most as many turns as there are symbols, gives
    the first symbol of that name, and nullptr when there is none. *)
Theorem gnu_lookup_exact names name fuel :
  gnu_table names -> name_ok name -> unsigned_chars name -> (length names <= fuel)%nat ->
  gnu_find_symbol_by_name fuel l name = Ret (symbol_at l <$> first_named names (symoffset_ g) name).
Proof.
  intros Hg Hn Hu Hf. unfold gnu_find_symbol_by_name. cbv zeta. rewrite (gnuhash_of name Hu).
  assert (0 <= gnu_hash_of name) as Hpos by (by apply Z.mod_pos_bound).
  destruct (bloom_test_spec names _ Hg Hpos) as (w & Hw & ->). rewrite bind_Ret.
  assert (name ∉ names -> first_named names (symoffset_ g) name = None) as Hnone
    by apply first_named_none.
  case_bool_decide as Hb; cbn [negb]; cycle 1.
  { rewrite Hnone; [done|]. intros [k Hk]%list_elem_of_lookup. by apply Hb, (gt_bloom _ Hg k name w Hk). }
  destruct (gt_bucket _ Hg (bucket_of name)) as (n & Hwn & Hbk); [apply Z.mod_pos_bound, (gt_buckets _ Hg)|].
  unfold bucket_of in Hwn. fold g. rewrite Hwn, bind_Ret.
  destruct (Z.eqb_spec n 0) as [->|Hn0].
  { rewrite Hnone; [done|]. intros [k Hk]%list_elem_of_lookup. by apply (Hbk k name Hk). }
  assert (symoffset_ g <= n /\
        (exists s, names !! Z.to_nat (n - symoffset_ g) = Some s /\ bucket_of s = bucket_of name) /\
        forall k s, names !! k = Some s -> bucket_of s = bucket_of name -> n <= symoffset_ g + Z.of_nat k)
    as (Hge & (s & Hs & Hsb) & Hmin) by (by destruct n).
  set (k := Z.to_nat (n - symoffset_ g)) in *.
  replace n with (symoffset_ g + Z.of_nat k) by lia.
  rewrite <- (gnuhash_of name Hu). rewrite (gnu_walk_ok names name Hg Hn Hu fuel k s Hs Hsb) by lia.
  rewrite (first_named_drop names k); [done| |apply lookup_lt_Some in Hs; lia].
  intros j Hj Hname. specialize (Hmin j name Hname eq_refl). lia.
Qed.

(** ** The ELF hash table

    [chains b] is what the table has for the bucket [b]: the indices of its
    symbols, in order, up to the 0 that ends them. *)
Fixpoint linked (start : Z) (ns : list Z) : Prop :=
  match ns with
  | [] => start = 0
  | n :: ns => start = n /\ n <> 0 /\ exists next, word_at (chains_ (elfHash_ l)) n = Ret next /\ linked next ns
  end.

Definition elf_bucket (name : list Z) : Z := elfhash name mod numbuckets_ (elfHash_ l).

Record elf_table (name_of : Z -> list Z) (chains : Z -> list Z) : Prop := {
  et_buckets : 0 < numbuckets_ (elfHash_ l);
  et_chains : forall name, exists n, word_at (buckets_ (elfHash_ l)) (elf_bucket name) = Ret n /\
    linked n (chains (elf_bucket name));
  et_names : forall name n, In n (chains (elf_bucket name)) -> symbol_named n (name_of n);
}.

Lemma elf_walk_ok name_of name : name_ok name -> forall ns fuel start,
  linked start ns -> (forall n, In n ns -> symbol_named n (name_of n)) -> (length ns <= fuel)%nat ->
  elf_walk fuel l name start = Ret (symbol_at l <$> List.find (fun n => bool_decide (name = name_of n)) ns).
Proof.
  intros Hn. induction ns as [|n ns IH]; intros fuel start Hl Hs Hf; cbn [linked length] in *.
  - subst. by destruct fuel.
  - destruct Hl as (-> & Hn0 & next & Hnext & Hl). destruct fuel as [|fuel]; [lia|]. cbn [elf_walk List.find].
    apply Z.eqb_neq in Hn0. rewrite Hn0. cbv zeta.
    rewrite (symbol_is_spec n (name_of n) name) by (done || by apply Hs; left). rewrite bind_Ret.
    case_bool_decide; [done|]. rewrite Hnext, bind_Ret. apply IH; [done| |lia]. intros m Hm. apply Hs. by right.
Qed.

(** On a table whose chains end, so does the ELF lookup, and it gives the
    first symbol of that name in the name's bucket. *)
Theorem elf_lookup_exact name_of chains name fuel :
  elf_table name_of chains -> name_ok name -> (length (chains (elf_bucket name)) <= fuel)%nat ->
  elf_find_symbol_by_name fuel l name =
    Ret (symbol_at l <$> List.find (fun n => bool_decide (name = name_of n)) (chains (elf_bucket name))).
Proof.
  intros He Hn Hf. unfold elf_find_symbol_by_name. cbv zeta.
  destruct (Z.eqb_spec (numbuckets_ (elfHash_ l)) 0) as [E|_]; [pose proof (et_buckets _ _ He); lia|].
  destruct (et_chains _ _ He name) as (n & Hw & Hl). unfold elf_bucket in Hw at 1. rewrite Hw, bind_Ret.
  apply elf_walk_ok; [done|done| |done]. intros m Hm. by apply (et_names _ _ He name).
Qed.

(** ** Relocations *)

Definition plt_entry (i : Z) : Z := uptr (pltRelocations l + sizeof_Reloc * i).

(** The entry [i] is a jump slot of the symbol. *)
Definition jump_slot (i elf_sym : Z) : Prop :=
  exists info, r_info (plt_entry i) = Ret info /\ ELF_RELOC_TYPE info = PLT_RELOCATION_TYPE /\
    symbol_at l (ELF_RELOC_SYM info) = elf_sym.

Lemma plt_relocs_spec elf_sym n : forall i relocs, plt_relocs_of l elf_sym n i = Ret relocs ->
  forall a, In a relocs <-> exists j off, i <= j < i + Z.of_nat n /\ jump_slot j elf_sym /\
    r_offset (plt_entry j) = Ret off /\ a = uptr (loadBias l + off).
Proof.
  induction n as [|n IH]; intros i relocs E a; cbn [plt_relocs_of] in E.
  { injection E as <-. split; [done|]. intros (j & off & Hj & _). lia. }
  cbv zeta in E. fold (plt_entry i) in E. apply bind_Ret_inv in E as (info & Hi & E).
  apply bind_Ret_inv in E as (here & Hh & E). apply bind_Ret_inv in E as (rest & Hr & E).
  injection E as <-. rewrite in_app_iff, (IH _ _ Hr a).
  assert (In a here <-> exists off, jump_slot i elf_sym /\ r_offset (plt_entry i) = Ret off /\
            a = uptr (loadBias l + off)) as ->.
  { destruct (Z.eqb_spec (ELF_RELOC_TYPE info) PLT_RELOCATION_TYPE) as [Ht|Ht]; cbn [negb] in Hh; cycle 1.
    { injection Hh as <-. split; [done|]. intros (off & (info' & Hi' & Ht' & _) & _). congruence. }
    destruct (Z.eqb_spec (symbol_at l (ELF_RELOC_SYM info)) elf_sym) as [Hs|Hs]; cycle 1.
    { injection Hh as <-. split; [done|]. intros (off & (info' & Hi' & _ & Hs') & _). congruence. }
    apply bind_Ret_inv in Hh as (off & Ho & Hh). injection Hh as <-. split.
    - intros [<-|[]]. exists off. split; [by exists info|done].
    - intros (off' & _ & Ho' & ->). left. congruence. }
  split.
  - intros [(off & Hj & Ho & ->)|(j & off & Hj & H)]; [exists i, off|exists j, off]; split; (done || lia).
  - intros (j & off & Hj & H). destruct (decide (j = i)) as [->|Hne]; [left; by exists off|right].
    exists j, off. split; [lia|done].
Qed.

(** [get_plt_relocations] gives the GOT slots of the symbol, all of them and
    no other. *)
Theorem plt_relocations_exact elf_sym relocs : get_plt_relocations l elf_sym = Ret relocs ->
  forall a, In a relocs <-> exists j off, 0 <= j < Z.of_nat (Z.to_nat (pltRelocationsLen l)) /\
    jump_slot j elf_sym /\ r_offset (plt_entry j) = Ret off /\ a = uptr (loadBias l + off).
Proof. intros E a. exact (plt_relocs_spec elf_sym _ 0 relocs E a). Qed.

End Lookup.

(** * Parsing *)

(** The entries of a dynamic table, without the DT_NULL that ends it. *)
Fixpoint dynamic_at (entry : Z) (es : list (Z * Z)) : Prop :=
  entry <> 0 /\
  match es with
  | [] => read_addr entry = Ret DT_NULL
  | (tag, val) :: es => tag <> DT_NULL /\ read_addr entry = Ret tag /\
      read_addr (uptr (entry + sizeof_addr)) = Ret val /\ dynamic_at (uptr (entry + sizeof_Dyn)) es
  end.

(** What the loop does with them: it stops at the first complete state. *)
Fixpoint parse_entries (l : elfSharedLibData) (es : list (Z * Z)) : res elfSharedLibData :=
  match es with
  | [] => Ret l
  | (tag, val) :: es => l ← parse_entry l tag val; if is_complete l then Ret l else parse_entries l es
  end.

(** The loop over the dynamic table ends and sees its entries in order. *)
Theorem parse_loop_reads es : forall fuel l entry, dynamic_at entry es -> (length es <= fuel)%nat ->
  parse_loop fuel l entry = parse_entries l es.
Proof.
  induction es as [|[tag val] es IH]; intros fuel l entry [H0 He] Hf; apply Z.eqb_neq in H0.
  - destruct fuel; cbn [parse_loop]; by rewrite H0, He.
  - destruct He as (Ht & Hrt & Hrv & He). destruct fuel as [|fuel]; [cbn in Hf; lia|].
    cbn [parse_loop parse_entries]. rewrite H0, Hrt, bind_Ret. apply Z.eqb_neq in Ht. rewrite Ht, Hrv, bind_Ret.
    destruct (parse_entry l tag val) as [l'|f]; [|done]. rewrite !bind_Ret.
    destruct (is_complete l'); [done|]. apply IH; [done|cbn in Hf; lia].
Qed.

(** The constructor gives a complete structure or throws; it never returns an
    incomplete one. *)
Theorem constructor_complete fuel info l : elfSharedLibData_of_phdr fuel info = Ret l -> is_complete l = true.
Proof.
  unfold elfSharedLibData_of_phdr. cbv zeta. destruct (_ =? 0); [done|]. intros E.
  apply bind_Ret_inv in E as (l' & _ & E). destruct (is_complete l') eqn:Hc; [by injection E as <-|done].
Qed.

Lemma parse_step l tag val es l' : parse_entry l tag val = Ret l' -> is_complete l' = false ->
  parse_entries l ((tag, val) :: es) = parse_entries l' es.
Proof. intros E Hc. cbn [parse_entries]. by rewrite E, bind_Ret, Hc. Qed.

Lemma parse_last l tag val es l' : parse_entry l tag val = Ret l' -> is_complete l' = true ->
  parse_entries l ((tag, val) :: es) = Ret l'.
Proof. intros E Hc. cbn [parse_entries]. by rewrite E, bind_Ret, Hc. Qed.

Lemma no_table_incomplete l : numbuckets_ (elfHash_ l) = 0 -> gnu_numbuckets (gnuHash_ l) = 0 ->
  is_complete l = false.
Proof. intros H1 H2. unfold is_complete. rewrite H1, H2. apply andb_false_r. Qed.

(** The five kinds of entries that make the structure complete hide the
    relocations when these come later. *)
Theorem late_relocations_lost l plt sym str hash size rel relsize eh :
  l = mkLib (loadBias l) 0 0 0 0 0 0 (libName l) (elfHash_ empty_lib) (gnuHash_ empty_lib) ->
  uptr (loadBias l + plt) <> 0 -> uptr (loadBias l + sym) <> 0 -> uptr (loadBias l + str) <> 0 ->
  0 < size / sizeof_Reloc -> parse_hash (uptr (loadBias l + hash)) = Ret eh -> 0 < numbuckets_ eh ->
  exists l', parse_entries l [(DT_PLTRELSZ, size); (DT_JMPREL, plt); (DT_SYMTAB, sym); (DT_STRTAB, str);
      (DT_HASH, hash); (DT_REL, rel); (DT_RELSZ, relsize)] = Ret l' /\
    is_complete l' = true /\ relocationsLen l' = 0 /\ forall symbol, get_relocations l' symbol = Ret [].
Proof.
  intros Hl Hp Hs Ht Hsz Hh Hnb. set (bias := loadBias l) in *. rewrite Hl.
  apply Z.eqb_neq in Hp, Hs, Ht. apply Z.ltb_lt in Hnb.
  assert ((size / sizeof_Reloc =? 0) = false) as Hz by (apply Z.eqb_neq; lia).
  do 4 (erewrite parse_step; [|reflexivity|by apply no_table_incomplete]).
  assert (is_complete (mkLib bias (uptr (bias + plt)) (size / sizeof_Reloc) 0 0 (uptr (bias + sym))
    (uptr (bias + str)) (libName l) eh (gnuHash_ empty_lib)) = true) as Hc.
  { unfold is_complete. cbn [pltRelocationsLen pltRelocations dynSymbolsTable dynStrsTable elfHash_ gnuHash_].
    by rewrite Hz, Hp, Hs, Ht, Hnb. }
  eexists. split; [apply parse_last|].
  - cbn -[uptr Z.div sizeof_Reloc parse_hash]. rewrite Hh. reflexivity.
  - exact Hc.
  - split; [exact Hc|]. done.
Qed.

(** Where [chains_] points: the index is a 32-bit difference, so on a 64-bit
    target it is 16 GB too far when there are fewer buckets than symbols before
    the hashed ones. *)
Theorem gnu_chains_pointer p gh : parse_gnu_hash p = Ret gh ->
  in_range 32 (gnu_numbuckets gh) -> in_range 32 (symoffset_ gh) ->
  gnu_chains gh = uptr (gnu_buckets gh + 4 * (gnu_numbuckets gh - symoffset_ gh) +
    (if lp64 && (gnu_numbuckets gh <? symoffset_ gh) then 2 ^ 34 else 0)).
Proof.
  unfold parse_gnu_hash. intros E Hn Ho.
  apply bind_Ret_inv in E as (nb & _ & E). apply bind_Ret_inv in E as (so & _ & E).
  apply bind_Ret_inv in E as (bs & _ & E). apply bind_Ret_inv in E as (sh & _ & E).
  cbv zeta in E. destruct (negb _) in E; [done|]. injection E as <-.
  cbn [gnu_numbuckets symoffset_] in Hn, Ho. cbn [gnu_chains gnu_buckets gnu_numbuckets symoffset_].
  set (b := uptr (uptr (p + 16) + sizeof_addr * bs)). destruct Hn as [Hn1 Hn2], Ho as [Ho1 Ho2].
  destruct (Z.ltb_spec nb so) as [Hlt|Hge]; cycle 1.
  { rewrite andb_false_r, wrap_small by (split; lia). f_equal. lia. }
  assert (u32 (nb - so) = nb - so + 2 ^ 32) as ->.
  { unfold wrap. symmetry. apply Z.mod_unique with (-1); lia. }
  unfold uptr, addr_width. destruct lp64; cbn [andb].
  - f_equal. lia.
  - unfold wrap. replace (b + 4 * (nb - so + 2 ^ 32)) with (b + 4 * (nb - so) + 0 + 4 * 2 ^ 32) by lia.
    apply Z_mod_plus_full.
Qed.
End Elf.

(** * Witnesses

    A library of two symbols, [a] and [b], at address 0x1000 of a 32-bit
    process: strings, symbols, the two kinds of hash tables, and a table of one
    jump slot. *)
Definition sample_image : list Z :=
  [0; 97; 0; 98; 0; 0; 0; 0; 0; 0; 0; 0; 0; 0; 0; 0] ++
  replicate 16 0 ++ le_bytes 4 1 ++ replicate 12 0 ++ le_bytes 4 3 ++ replicate 12 0 ++
  le_bytes 4 1 ++ le_bytes 4 177670 ++ le_bytes 4 177671 ++ le_bytes 4 0xffffffff ++
  le_bytes 4 1 ++ le_bytes 4 0 ++ le_bytes 4 2 ++ le_bytes 4 0 ++
  le_bytes 4 0x2000 ++ le_bytes 4 (2 * 256 + 7).

Definition sample_mem (a : Z) : option Z :=
  if (0x1000 <=? a) then sample_image !! Z.to_nat (a - 0x1000) else None.

Definition sample_lib : elfSharedLibData :=
  mkLib 0 0x1060 1 0 0 0x1010 0x1000 [] (mkElfHash 1 3 0x1050 0x1054)
    (mkGnuHash 1 1 0 5 0x104c 0x1040 0x1040).

Lemma sample_symbol k s : [[97]; [98]] !! k = Some s ->
  symbol_named I386 sample_mem sample_lib (1 + Z.of_nat k) s.
Proof.
  destruct k as [|[|k]]; [| |done]; intros [= <-]; eexists; (split; [vm_compute; reflexivity|]);
    vm_compute; repeat split; discriminate.
Qed.

Lemma sample_bucket name : bucket_of sample_lib name = 0.
Proof. apply Z.mod_1_r. Qed.

Lemma sample_gnu_table : gnu_table I386 sample_mem sample_lib [[97]; [98]].
Proof.
  split.
  - done.
  - done.
  - apply sample_symbol.
  - intros. by rewrite !sample_bucket.
  - intros b Hb. assert (b = 0) as -> by (cbn in Hb; lia). exists 1. split; [vm_compute; reflexivity|]. split; [done|]. split.
    + exists [97]. by rewrite !sample_bucket.
    + intros k s _ _. cbn. lia.
  - intros [|[|k]] s; [| |done]; intros [= <-]; eexists; (split; [vm_compute; reflexivity|]);
      (split; [vm_compute; reflexivity|]); (split; [intros H; try done|intros (t & Ht & _); done]).
    exists [98]. by rewrite !sample_bucket.
  - by exists 0.
  - done.
  - intros i Hi. assert (i = 0) as -> by (cbn in Hi; lia). eexists. vm_compute. reflexivity.
  - intros [|[|k]] s w; [| |done]; intros [= <-]; intros [= <-]; vm_compute; done.
Qed.

Lemma gnu_lookup_exact_witness :
  gnu_find_symbol_by_name I386 sample_mem 2 sample_lib [98] = Ret (Some 0x1030) /\
  gnu_find_symbol_by_name I386 sample_mem 2 sample_lib [99] = Ret None.
Proof.
  split; (rewrite (gnu_lookup_exact I386 sample_mem sample_lib [[97]; [98]]);
    [reflexivity|exact sample_gnu_table|by repeat constructor|by repeat constructor|done]).
Defined.

Definition sample_name (n : Z) : list Z := if n =? 1 then [97] else [98].

Lemma sample_elf_table : elf_table I386 sample_mem sample_lib sample_name (fun _ => [1; 2]).
Proof.
  split.
  - done.
  - intros name. unfold elf_bucket. cbn [sample_lib elfHash_ numbuckets_]. rewrite Z.mod_1_r.
    exists 1. split; [vm_compute; reflexivity|]. split; [done|]. split; [done|].
    exists 2. split; [vm_compute; reflexivity|]. split; [done|]. split; [done|].
    exists 0. split; [vm_compute; reflexivity|done].
  - intros name n [<-|[<-|[]]]; [by apply (sample_symbol 0)|by apply (sample_symbol 1)].
Qed.

Lemma elf_lookup_exact_witness :
  elf_find_symbol_by_name I386 sample_mem 2 sample_lib [98] = Ret (Some 0x1030).
Proof.
  rewrite (elf_lookup_exact I386 sample_mem sample_lib sample_name (fun _ => [1; 2]));
    [reflexivity|exact sample_elf_table|by repeat constructor|done].
Defined.

Lemma hashes_are_standard_witness : elfhash ARM [0xe9; 0x74] = gabi_hash [0xe9; 0x74].
Proof. apply (hashes_are_standard ARM [0xe9; 0x74]). split; [repeat constructor; lia|exact I]. Defined.

(** Beyond ASCII the hashes differ where [char] is signed. *)
Lemma signed_char_hash : elfhash I386 [0xe9] <> gabi_hash [0xe9].
Proof. vm_compute. discriminate. Qed.

Lemma plt_relocations_exact_witness :
  get_plt_relocations I386 sample_mem sample_lib 0x1030 = Ret [0x2000] /\
  exists j, jump_slot I386 sample_mem sample_lib j 0x1030.
Proof.
  assert (get_plt_relocations I386 sample_mem sample_lib 0x1030 = Ret [0x2000]) as E by (vm_compute; reflexivity).
  split; [exact E|].
  destruct (proj1 (plt_relocations_exact I386 sample_mem sample_lib 0x1030 [0x2000] E 0x2000)
    (or_introl eq_refl)) as (j & off & _ & H & _).
  exists j. exact H.
Defined.

Lemma late_relocations_lost_witness :
  let l := mkLib 0 0 0 0 0 0 0 [] (elfHash_ empty_lib) (gnuHash_ empty_lib) in
  exists l', parse_entries I386 sample_mem l [(DT_PLTRELSZ, 8); (DT_JMPREL, 0x1060); (DT_SYMTAB, 0x1010);
      (DT_STRTAB, 0x1000); (DT_HASH, 0x1040); (DT_REL, 0x1060); (DT_RELSZ, 8)] = Ret l' /\ relocationsLen l' = 0.
Proof.
  intros l.
  destruct (late_relocations_lost I386 sample_mem l 0x1060 0x1010 0x1000 0x1040 8 0x1060 8
    (mkElfHash 1 177670 0x1048 0x104c)) as (l' & E & _ & H & _).
  - reflexivity.
  - vm_compute. discriminate.
  - vm_compute. discriminate.
  - vm_compute. discriminate.
  - vm_compute. reflexivity.
  - vm_compute. reflexivity.
  - vm_compute. reflexivity.
  - exists l'. split; [exact E|exact H].
Defined.

Lemma gnu_chains_pointer_witness :
  exists gh, parse_gnu_hash X86_64 (fun a => (le_bytes 4 1 ++ le_bytes 4 4 ++ le_bytes 4 1 ++ le_bytes 4 5) !! Z.to_nat a) 0 = Ret gh /\
    gnu_chains gh = gnu_buckets gh - 12 + 2 ^ 34.
Proof.
  assert (exists gh, parse_gnu_hash X86_64 (fun a => (le_bytes 4 1 ++ le_bytes 4 4 ++ le_bytes 4 1 ++ le_bytes 4 5) !! Z.to_nat a) 0 = Ret gh /\
    gnu_numbuckets gh = 1 /\ symoffset_ gh = 4 /\ gnu_buckets gh = 24) as (gh & E & H1 & H2 & H3).
  { eexists. split; [vm_compute; reflexivity|done]. }
  exists gh. split; [exact E|].
  rewrite (gnu_chains_pointer X86_64 _ 0 gh E);
    [rewrite H1, H2, H3; reflexivity|rewrite H1; split; lia|rewrite H2; split; lia].
Defined.
