(* ===== verification/SigSafe.v ===== *)
(** Operations that survive a fault: linker/sig_safe_write.c.

    [sig_safe_op] and [sig_safe_exec] register a handler with the signal
    multiplexer (Sigmux.v), run an operation, and unregister the handler; a
    fault of the operation jumps out of the handler, back to [sigsetjmp]. An
    operation is a function that completes or stops at a signal, with the
    state it has reached. The memory that [sig_safe_write] writes is a
    function from addresses to bytes together with the signal that a write to
    an address raises. *)
From S2P Require Import Prelude Sigmux.

Definition ENOMEM : Z := 12.
Definition EFAULT : Z := 14.

(** * The handler *)

Record fault_handler_data := mkFaultData { tid : Z; active : Z; check_sigill : Z }.

(** A handler returns, or leaves by [sigmux_longjmp] with a value. *)
Inductive handler_result := Returns (a : sigmux_action) | Jumps (val : Z).

(** [gettid] is the thread the signal is delivered to. *)
Definition fault_handler (data : fault_handler_data) (gettid : Z) (si : sigmux_siginfo) : handler_result :=
  if negb (tid data =? gettid) then Returns SIGMUX_CONTINUE_SEARCH
  else if active data =? 0 then Returns SIGMUX_CONTINUE_SEARCH
  else if negb (check_sigill data =? 0) then
    if negb (signum si =? SIGILL) then Returns SIGMUX_CONTINUE_SEARCH else Jumps 1
  else
    if negb (signum si =? SIGSEGV) && negb (signum si =? SIGBUS)
    then Returns SIGMUX_CONTINUE_SEARCH else Jumps 1.

(** * Running an operation *)

Inductive op_end (M : Type) := Completed (m : M) | Signalled (m : M) (signum : Z).
Arguments Completed {M}.
Arguments Signalled {M}.

Section SigSafe.
Context {K M : Type}.
Implicit Type g : sigmux_global K.

(** The handlers of the other registrations, which return; the addresses of
    [fault_handler] and of [handler_data]; the running thread. *)
Context (call_other : Z -> sigmux_siginfo -> Z -> sigmux_action).
Context (fault_handler_address data_address self : Z).

(** Whether [registration], which is not volatile and is assigned between
    [sigsetjmp] and the jump, has its value after the jump. The C standard
    leaves it indeterminate. *)
Context (kept : bool).

Definition call_handler (data : fault_handler_data) (f : Z) (si : sigmux_siginfo) (d : Z) : handler_result :=
  if (f =? fault_handler_address) && (d =? data_address) then fault_handler data self si
  else Returns (call_other f si d).

(** The loop of [sigmux_handle_signal] over the registrations of one priority,
    when a handler may leave it by a jump. *)
Fixpoint walk (data : fault_handler_data) (fuel : nat) (low : bool) (si : sigmux_siginfo) (it : addr)
    (r : handler_result) g : res (handler_result * sigmux_global K) :=
  match it, r with
  | Reg n, Returns SIGMUX_CONTINUE_SEARCH =>
      match fuel with
      | O => Fault OutOfFuel
      | S fuel =>
          reg ← get_or_oob (regs (handlers g) !! n);
          if Bool.eqb (has_flag (flags reg) SIGMUX_LOW_PRIORITY) low &&
             negb (sigismember (signals reg) (signum si) =? 0)
          then walk data fuel low si (next (link reg))
                 (call_handler data (handler reg) si (handler_data reg)) (emit g [CallRegistered n])
          else walk data fuel low si (next (link reg)) r g
      end
  | _, _ => Ret (r, g)
  end.

Definition returned (r : handler_result) : sigmux_action :=
  match r with Returns a => a | Jumps _ => SIGMUX_CONTINUE_EXECUTION end.

(** The delivery of [signum] while the operation runs, up to the jump; [None]
    when no handler jumps. A signal that the multiplexer has not seized ends
    the process. *)
Definition deliver (data : fault_handler_data) (signum : Z) g : res (option Z * sigmux_global K) :=
  ismem ← sigmux_sigismember (initsig g) signum;
  if negb (ismem =? 1) then Fault Aborted
  else
    let si := mkSiginfo signum 0 0 in
    let reglist := next (head (handlers g)) in
    '(r, g1) ← walk data (search_fuel g) false si reglist (Returns SIGMUX_CONTINUE_SEARCH)
                 (emit (emit g [SetMask ∅]) [PhaserEnter]);
    '(r, g1) ← walk data (search_fuel g) true si reglist r g1;
    match r with
    | Jumps val => Ret (Some val, sigmux_longjmp val g1)
    | Returns _ =>
        g ← sigmux_handle_signal_1 (fun f si d => returned (call_handler data f si d)) signum 0 0 g;
        Ret (None, g)
    end.

(** The common text of [sig_safe_op] and [sig_safe_exec]. [ok] says whether the
    registration can be allocated. The result, errno, and the states. A
    signal for which the handler does not jump is outside the model. *)
Definition guarded (check : Z) (signals : gset Z) (ok : bool) (op : M -> op_end M) (m : M) (errno : Z) g
    : res (Z * Z * M * sigmux_global K) :=
  '(registration, g) ← sigmux_register ok signals fault_handler_address data_address 0 g;
  match registration with
  | None => Ret (1, ENOMEM, m, g)
  | Some n =>
      match op m with
      | Completed m => g ← sigmux_unregister n g; Ret (0, errno, m, g)
      | Signalled m s =>
          '(jump, g) ← deliver (mkFaultData self 1 check) s g;
          match jump with
          | None => Fault Aborted
          | Some _ =>
              g ← (if kept then sigmux_unregister n g else Ret g);
              Ret (1, EFAULT, m, g)
          end
      end
  end.

Definition sig_safe_op := guarded 0 ({[SIGSEGV]} ∪ {[SIGBUS]}).
Definition sig_safe_exec := guarded 1 {[SIGILL]}.
End SigSafe.

(** * Writing a word *)

Record memory := mkMemory {
  byte_at : Z -> option Z;
  write_fault : Z -> option Z;      (* the signal a write raises *)
}.

(** The signal that a write to a byte raises. *)
Definition byte_fault (m : memory) (p : Z) : option Z :=
  match byte_at m p, write_fault m p with
  | _, Some s => Some s
  | None, None => Some SIGSEGV
  | Some _, None => None
  end.

(** The signal of the first byte that cannot be written. *)
Fixpoint store_fault (m : memory) (p : Z) (n : nat) : option Z :=
  match n with
  | O => None
  | S n => match byte_fault m p with Some s => Some s | None => store_fault m (p + 1) n end
  end.

Definition store_bytes (f : Z -> option Z) (p : Z) (l : list Z) : Z -> option Z :=
  fun a => if (p <=? a) && (a <? p + Z.of_nat (length l)) then l !! Z.to_nat (a - p) else f a.

(** [n] is sizeof(intptr_t). [__atomic_store_n] stores the word in one access,
    or raises a signal. *)
Definition sig_safe_write_op (n : nat) (destination value : Z) (m : memory) : op_end memory :=
  match store_fault m destination n with
  | Some s => Signalled m s
  | None => Completed (mkMemory (store_bytes (byte_at m) destination (le_bytes n value)) (write_fault m))
  end.

Definition sig_safe_write {K} call_other fault_handler_address data_address self kept (n : nat)
    (ok : bool) (destination value : Z) (m : memory) (errno : Z) (g : sigmux_global K) :=
  sig_safe_op call_other fault_handler_address data_address self kept ok
    (sig_safe_write_op n destination value) m errno g.

(** ** The store, byte by byte

    That the store is one access is what __atomic_store_n promises for an
    aligned word. Without the promise it is a store of the bytes one at a time,
    in some order, which stops at the first that cannot be written. *)
Definition store_byte (m : memory) (p b : Z) : memory := mkMemory (fun a => if a =? p then Some b else byte_at m a) (write_fault m).

Fixpoint store_in_order (order : list nat) (p : Z) (bytes : list Z) (m : memory) : op_end memory :=
  match order with
  | [] => Completed m
  | i :: order =>
      match byte_fault m (p + Z.of_nat i) with
      | Some s => Signalled m s
      | None => store_in_order order p bytes (store_byte m (p + Z.of_nat i) (nth i bytes 0))
      end
  end.

(** Memory is mapped and protected by pages, of 4096 bytes at least. *)
Definition paged (m : memory) : Prop := forall a b, a / 4096 = b / 4096 -> byte_fault m a = byte_fault m b.

(** The word is at [p] byte by byte, and nothing else has changed. *)
Definition written (n : nat) (p v : Z) (m m' : memory) : Prop :=
  write_fault m' = write_fault m
  /\ (forall i, (i < n)%nat -> byte_at m' (p + Z.of_nat i) = le_bytes n v !! i)
  /\ (forall a, a < p \/ p + Z.of_nat n <= a -> byte_at m' a = byte_at m a).

(** * The operations leave the multiplexer as they found it *)

(** The handler takes a fault only on the thread that runs the operation, while
    it runs, and only a signal of the operation's own kind. *)
Lemma fault_handler_jumps data gettid si v : fault_handler data gettid si = Jumps v <->
  v = 1 /\ tid data = gettid /\ active data <> 0 /\
  (if check_sigill data =? 0 then signum si = SIGSEGV \/ signum si = SIGBUS else signum si = SIGILL).
Proof.
  unfold fault_handler. destruct (Z.eqb_spec (tid data) gettid), (Z.eqb_spec (active data) 0),
    (check_sigill data =? 0), (Z.eqb_spec (signum si) SIGILL), (Z.eqb_spec (signum si) SIGSEGV),
    (Z.eqb_spec (signum si) SIGBUS); cbn; (split; [by intros [= <-]; tauto|]); intros (-> & H); try tauto;
    naive_solver.
Qed.

Section Correct.
Context {K M : Type}.
Implicit Type g : sigmux_global K.
Context (call_other : Z -> sigmux_siginfo -> Z -> sigmux_action).
Context (fault_handler_address data_address self : Z) (kept : bool).

Lemma register_frame g ok signals h d fl n g' :
  sigmux_register ok signals h d fl g = Ret (n, g') -> exists r, g' = set_handlers g r.
Proof.
  unfold sigmux_register. destruct ok; cbn [negb].
  - intros (r1 & _ & E)%bind_Ret_inv. apply bind_Ret_inv in E as (r2 & _ & E).
    injection E as _ <-. by eexists.
  - intros [= _ <-]. exists (handlers g). by destruct g.
Qed.

Lemma unregister_frame n g g' : sigmux_unregister n g = Ret g' -> initsig g' = initsig g.
Proof. unfold sigmux_unregister. intros (r & _ & [= <-])%bind_Ret_inv. done. Qed.

Lemma walk_jumps data fuel low si it v g :
  walk call_other fault_handler_address data_address self data fuel low si it (Jumps v) g = Ret (Jumps v, g).
Proof. by destruct fuel, it. Qed.

(** The handler just registered is the first one asked. *)
Lemma walk_first data s g n l signals (fuel : nat) :
  dll (handlers g) (n :: l) ->
  payload (handlers g) n = Some (signals, fault_handler_address, data_address, 0) ->
  0 < s < NSIG -> s ∈ signals -> fault_handler data self (mkSiginfo s 0 0) = Jumps 1 ->
  next (head (handlers g)) = Reg n /\
  forall g', handlers g' = handlers g ->
  walk call_other fault_handler_address data_address self data (S fuel) false (mkSiginfo s 0 0)
    (Reg n) (Returns SIGMUX_CONTINUE_SEARCH) g' = Ret (Jumps 1, emit g' [CallRegistered n]).
Proof.
  intros Hd Hp Hs Hin Hj. pose proof (dll_seg _ _ Hd) as Hseg. cbn [seg] in Hseg.
  destruct Hseg as [[Hn _] _]. unfold next_at in Hn. cbn in Hn. injection Hn as Hn.
  split; [done|]. intros g' Hg'. cbn [walk]. rewrite Hg'.
  unfold payload in Hp. destruct (regs (handlers g) !! n) as [reg|]; [|done].
  cbn in Hp. injection Hp as H1 H2 H3 H4. cbn [get_or_oob]. rewrite bind_Ret, H1, H2, H3, H4.
  unfold sigismember. cbn [signum]. destruct (Z.ltb_spec 0 s), (Z.ltb_spec s NSIG); try lia.
  rewrite bool_decide_eq_true_2 by done.
  change (Bool.eqb (has_flag 0 SIGMUX_LOW_PRIORITY) false && negb (Z.b2z true =? 0)) with true.
  unfold call_handler at 1. rewrite !Z.eqb_refl. cbn [andb]. rewrite Hj. apply walk_jumps.
Qed.

Lemma deliver_jumps data s g n l signals :
  dll (handlers g) (n :: l) ->
  payload (handlers g) n = Some (signals, fault_handler_address, data_address, 0) ->
  sigmux_sigismember (initsig g) s = Ret 1 -> 0 < s < NSIG -> s ∈ signals ->
  fault_handler data self (mkSiginfo s 0 0) = Jumps 1 ->
  deliver call_other fault_handler_address data_address self data s g =
    Ret (Some 1, emit g [SetMask ∅; PhaserEnter; CallRegistered n; PhaserExit; SigLongjmp 1]).
Proof.
  intros Hd Hp Hi Hs Hin Hj. unfold deliver. rewrite Hi, bind_Ret. cbn [negb Z.eqb Pos.eqb].
  destruct (walk_first data s g n l signals (size (regs (handlers g))) Hd Hp Hs Hin Hj) as [-> Hw].
  unfold search_fuel. rewrite Hw by done. rewrite bind_Ret, walk_jumps, bind_Ret.
  unfold sigmux_longjmp. by rewrite !emit_app.
Qed.

(** The signals an operation may raise: seized ones of the set, for which the
    handler jumps. *)
Definition catches (check : Z) (signals : gset Z) g (s : Z) : Prop :=
  0 < s < NSIG /\ s ∈ signals /\ sigmux_sigismember (initsig g) s = Ret 1 /\
  fault_handler (mkFaultData self 1 check) self (mkSiginfo s 0 0) = Jumps 1.

Lemma guarded_ok check signals ok (op : M -> op_end M) m errno g l : dll (handlers g) l ->
  (forall m' s, op m = Signalled m' s -> catches check signals g s) ->
  exists g', guarded call_other fault_handler_address data_address self kept check signals ok op m errno g =
    Ret (if ok then match op m with Completed m' => (0, errno, m', g') | Signalled m' _ => (1, EFAULT, m', g') end
         else (1, ENOMEM, m, g')) /\
  initsig g' = initsig g /\
  if negb ok then g' = g
  else
    exists n, (n ∉ l) /\
    match op m with
    | Completed _ => dll (handlers g') l /\ trace g' = trace g ++ [PhaserDrain; Free n]
    | Signalled _ _ =>
        dll (handlers g') (if kept then l else n :: l) /\
        trace g' = trace g ++ [SetMask ∅; PhaserEnter; CallRegistered n; PhaserExit; SigLongjmp 1] ++
                   (if kept then [PhaserDrain; Free n] else [])
    end.
Proof.
  intros Hd Hop. unfold guarded. destruct ok; cbn [negb].
  2: { exists g. cbn. done. }
  destruct (register_dll g l signals fault_handler_address data_address 0 Hd)
    as (n & g1 & E & Hn & Hd1 & Hp & _).
  destruct (register_frame _ _ _ _ _ _ _ _ E) as [r Hr]. rewrite E, bind_Ret.
  assert (initsig g1 = initsig g /\ trace g1 = trace g) as [Hi Ht] by (by rewrite Hr).
  destruct (op m) as [m'|m' s] eqn:Eop.
  - destruct (unregister_dll g1 [] n l Hd1) as (_ & g2 & _ & _ & E2 & Hd2 & _ & Ht2 & _).
    rewrite E2, bind_Ret. exists g2. split; [done|].
    split; [by rewrite (unregister_frame _ _ _ E2)|]. exists n. rewrite Ht2, Ht. done.
  - destruct (Hop m' s eq_refl) as (Hs & Hin & Hmem & Hj).
    rewrite (deliver_jumps _ s g1 n l signals); [|done|done|by rewrite Hi|done..].
    rewrite bind_Ret. set (g2 := emit g1 _). assert (dll (handlers g2) (n :: l)) as Hd2 by done.
    destruct kept.
    + destruct (unregister_dll g2 [] n l Hd2) as (_ & g3 & _ & _ & E3 & Hd3 & _ & Ht3 & _).
      rewrite E3, bind_Ret. exists g3. split; [done|]. split; [by rewrite (unregister_frame _ _ _ E3)|].
      exists n. split; [done|]. split; [done|].
      rewrite Ht3. unfold g2. cbn [trace emit]. by rewrite Ht, <- app_assoc.
    + rewrite bind_Ret. exists g2. split; [done|]. split; [done|]. exists n. split; [done|]. split; [done|].
      unfold g2. cbn [trace emit]. by rewrite Ht, app_nil_r.
Qed.

End Correct.

Definition fault_signals (m : memory) : Prop := forall a s, write_fault m a = Some s -> s = SIGSEGV \/ s = SIGBUS.

Lemma byte_fault_signal m p s : fault_signals m -> byte_fault m p = Some s -> s = SIGSEGV \/ s = SIGBUS.
Proof.
  intros Hm. unfold byte_fault. destruct (write_fault m p) as [s'|] eqn:E.
  - destruct (byte_at m p); intros [= <-]; by eapply Hm.
  - destruct (byte_at m p); [done|]. intros [= <-]. by left.
Qed.

Lemma store_fault_signal m p n s : fault_signals m -> store_fault m p n = Some s -> s = SIGSEGV \/ s = SIGBUS.
Proof.
  intros Hm. revert p. induction n as [|n IH]; intros p; cbn [store_fault]; [done|].
  destruct (byte_fault m p) as [s'|] eqn:E; [|apply IH]. intros [= <-]. by eapply byte_fault_signal.
Qed.

(** A word that can be stored is there byte by byte, and nothing else changes. *)
Lemma sig_safe_write_op_stored n p v m : store_fault m p n = None ->
  exists m', sig_safe_write_op n p v m = Completed m' /\ write_fault m' = write_fault m /\
    (forall i, (i < n)%nat -> byte_at m' (p + Z.of_nat i) = le_bytes n v !! i) /\
    (forall a, a < p \/ p + Z.of_nat n <= a -> byte_at m' a = byte_at m a).
Proof.
  intros E. unfold sig_safe_write_op. rewrite E. eexists. split; [done|]. split; [done|].
  cbn [byte_at]. unfold store_bytes. rewrite length_le_bytes. split.
  - intros i Hi. destruct (Z.leb_spec p (p + Z.of_nat i)), (Z.ltb_spec (p + Z.of_nat i) (p + Z.of_nat n)); try lia.
    cbn [andb]. f_equal. lia.
  - intros a Ha. destruct (Z.leb_spec p a), (Z.ltb_spec a (p + Z.of_nat n)); cbn [andb]; (done || lia).
Qed.

Lemma store_fault_None m p n : store_fault m p n = None <-> forall i, (i < n)%nat -> byte_fault m (p + Z.of_nat i) = None.
Proof.
  revert p. induction n as [|n IH]; intros p; cbn [store_fault]; [split; [lia|done]|].
  destruct (byte_fault m p) eqn:E.
  - split; [done|]. intros H. specialize (H 0%nat ltac:(lia)). rewrite Z.add_0_r in H. congruence.
  - rewrite IH. split.
    + intros H [|i] Hi; [by rewrite Z.add_0_r|]. rewrite <- (H i) by lia. f_equal. lia.
    + intros H i Hi. rewrite <- (H (S i)) by lia. f_equal. lia.
Qed.

Lemma byte_fault_store_byte m p b a : byte_fault m p = None -> byte_fault (store_byte m p b) a = byte_fault m a.
Proof.
  unfold byte_fault. cbn [byte_at write_fault store_byte]. intros H. destruct (Z.eqb_spec a p) as [->|Hne]; [|done].
  by destruct (byte_at m p), (write_fault m p).
Qed.

(** Bytes that can all be written are all there in the end, in any order. *)
Lemma store_in_order_completes order : forall p bytes m, (forall i, i ∈ order -> byte_fault m (p + Z.of_nat i) = None) -> NoDup order ->
  exists m', store_in_order order p bytes m = Completed m' /\ write_fault m' = write_fault m
    /\ (forall i, i ∈ order -> byte_at m' (p + Z.of_nat i) = Some (nth i bytes 0))
    /\ (forall a, (forall i, i ∈ order -> a <> p + Z.of_nat i) -> byte_at m' a = byte_at m a).
Proof.
  induction order as [|i order IH]; intros p bytes m Hf Hnd; cbn [store_in_order].
  - exists m. split; [done|]. split; [done|]. split; [by intros i ?%not_elem_of_nil|done].
  - apply NoDup_cons in Hnd as [Hi Hnd]. rewrite Hf by left.
    destruct (IH p bytes (store_byte m (p + Z.of_nat i) (nth i bytes 0))) as (m' & E & Hw & Hin & Hout); [|done|].
    { intros j Hj. rewrite byte_fault_store_byte by (apply Hf; left). apply Hf. by right. }
    exists m'. split; [done|]. split; [done|]. split.
    + intros j [->|Hj]%elem_of_cons; [|by apply Hin]. rewrite Hout; [by cbn; rewrite Z.eqb_refl|].
      intros k Hk Heq. apply Hi. by replace i with k by lia.
    + intros a Ha. rewrite Hout by (intros j Hj; apply Ha; by right). cbn. destruct (Z.eqb_spec a (p + Z.of_nat i)) as [->|]; [|done]. exfalso. apply (Ha i); [left|done].
Qed.

(** An aligned word lies in one page. *)
Lemma aligned_page n p i : 0 < n -> (n | 4096) -> (n | p) -> 0 <= i < n -> (p + i) / 4096 = p / 4096.
Proof.
  intros Hn [k Hk] [q ->] Hi. assert (0 < k) as Hk0 by nia.
  assert (forall x, 0 <= x < n -> (q * n + x) / 4096 = q / k) as H.
  { intros x Hx. rewrite Hk, (Z.mul_comm k n), <- Z.div_div by lia. f_equal. rewrite Z.div_add_l by lia. rewrite (Z.div_small x) by lia. lia. }
  rewrite H by lia. rewrite <- (H 0) by lia. f_equal. lia.
Qed.

(** Stored byte by byte, an aligned word is all or nothing: its first byte
    faults, or none does. *)
Lemma store_in_order_atomic (n : nat) p v order m : paged m -> (0 < n)%nat -> (Z.of_nat n | 4096) -> (Z.of_nat n | p) ->
  order ≡ₚ seq 0 n ->
  match store_fault m p n with
  | Some s => store_in_order order p (le_bytes n v) m = Signalled m s
  | None => exists m', store_in_order order p (le_bytes n v) m = Completed m' /\ written n p v m m'
  end.
Proof.
  intros Hp Hn Hd Ha Hperm.
  assert (forall i, i ∈ order <-> (i < n)%nat) as Hin by (intros i; rewrite Hperm, elem_of_seq; lia).
  assert (forall i, (i < n)%nat -> byte_fault m (p + Z.of_nat i) = byte_fault m p) as Hb
    by (intros i Hi; apply Hp, (aligned_page (Z.of_nat n)); (done || lia)).
  assert (store_fault m p n = byte_fault m p) as ->.
  { destruct (byte_fault m p) as [s|] eqn:E; [|by apply store_fault_None]. destruct n; [lia|]. cbn [store_fault]. by rewrite E. }
  destruct (byte_fault m p) as [s|].
  - destruct order as [|i order]; [apply Permutation_nil_l in Hperm; destruct n; [lia|done]|].
    cbn [store_in_order]. by rewrite Hb by (apply Hin; left).
  - destruct (store_in_order_completes order p (le_bytes n v) m) as (m' & E & Hw & H1 & H2);
      [intros i Hi; by apply Hb, Hin|rewrite Hperm; apply NoDup_seq|].
    exists m'. split; [done|]. split; [done|]. split.
    + intros i Hi. rewrite H1 by (by apply Hin). destruct (nth_lookup_or_length (le_bytes n v) i 0) as [->|Hl]; [done|]. rewrite length_le_bytes in Hl. lia.
    + intros a Hout. apply H2. intros i Hi%Hin. lia.
Qed.

(** The signals the multiplexer must have seized for [sig_safe_op]. *)
Definition seized_faults {K} (g : sigmux_global K) : Prop :=
  sigmux_sigismember (initsig g) SIGSEGV = Ret 1 /\ sigmux_sigismember (initsig g) SIGBUS = Ret 1.

Lemma seized_catches {K} self (g : sigmux_global K) s : seized_faults g -> s = SIGSEGV \/ s = SIGBUS ->
  catches self 0 ({[SIGSEGV]} ∪ {[SIGBUS]}) g s.
Proof.
  intros [H1 H2] Hs. split; [unfold NSIG, SIGSEGV, SIGBUS in *; lia|]. split; [set_solver|].
  split; [by destruct Hs as [-> | ->]|]. by apply fault_handler_jumps.
Qed.

Section Write.
Context {K : Type}.
Implicit Type g : sigmux_global K.
Context (call_other : Z -> sigmux_siginfo -> Z -> sigmux_action) (f d self : Z).

Lemma sig_safe_write_ok n p v m errno g l ok :
  dll (handlers g) l -> seized_faults g ->
  fault_signals m ->
  exists m' g', sig_safe_write call_other f d self true n ok p v m errno g =
      Ret (if negb ok then (1, ENOMEM, m', g')
           else match store_fault m p n with None => (0, errno, m', g') | Some _ => (1, EFAULT, m', g') end) /\
    dll (handlers g') l /\ initsig g' = initsig g /\
    if negb ok then m' = m /\ g' = g
    else match store_fault m p n with
    | Some _ => m' = m /\ exists r, trace g' = trace g ++ [SetMask ∅; PhaserEnter; CallRegistered r;
                                       PhaserExit; SigLongjmp 1; PhaserDrain; Free r]
    | None => sig_safe_write_op n p v m = Completed m'
    end.
Proof.
  intros Hd Hi Hm. unfold sig_safe_write, sig_safe_op.
  destruct (guarded_ok call_other f d self true 0 ({[SIGSEGV]} ∪ {[SIGBUS]}) ok
    (sig_safe_write_op n p v) m errno g l Hd) as (g' & -> & Hinit & H).
  { intros m' s E. apply seized_catches; [done|]. unfold sig_safe_write_op in E.
    destruct (store_fault m p n) as [s'|] eqn:Es; [|done]. injection E as _ <-.
    by apply (store_fault_signal m p n). }
  destruct ok; cbn [negb] in *; [|subst g'; exists m, g; done]. destruct H as (r & _ & H).
  unfold sig_safe_write_op in *. destruct (store_fault m p n) as [s|] eqn:Es; destruct H as [Hd' Ht].
  - exists m, g'. do 3 (split; [done|]). split; [done|]. exists r. by rewrite Ht.
  - by do 2 eexists.
Qed.

(** The multiplexer after an operation, from its state before: the registration
    of the fault handler is gone, behind a drain, or stays in front. *)
Definition handler_gone (kept faulted : bool) g (l : list nat) g' : Prop :=
  exists r, (r ∉ l) /\
    dll (handlers g') (if faulted && negb kept then r :: l else l) /\
    trace g' = trace g ++ (if faulted then [SetMask ∅; PhaserEnter; CallRegistered r; PhaserExit; SigLongjmp 1] else [])
                       ++ (if faulted && negb kept then [] else [PhaserDrain; Free r]).

(** Any operation that raises no other signals than these. *)
Lemma sig_safe_op_ok {M} kept (op : M -> op_end M) m errno g l : dll (handlers g) l -> seized_faults g ->
  (forall m' s, op m = Signalled m' s -> s = SIGSEGV \/ s = SIGBUS) ->
  exists g', sig_safe_op call_other f d self kept true op m errno g
      = Ret (match op m with Completed m' => (0, errno, m', g') | Signalled m' _ => (1, EFAULT, m', g') end)
    /\ handler_gone kept (match op m with Completed _ => false | Signalled _ _ => true end) g l g'.
Proof.
  intros Hd Hi Hop. destruct (guarded_ok call_other f d self kept 0 ({[SIGSEGV]} ∪ {[SIGBUS]}) true op m errno g l Hd) as (g' & E & _ & r & Hr & H).
  - intros m' s Es. apply seized_catches; [done|by eapply Hop].
  - exists g'. split; [exact E|]. exists r. split; [done|]. destruct (op m) as [m'|m' s]; [done|]. by destruct kept.
Qed.

(** C7: A write through the multiplexer of an aligned word to memory that is
    protected by pages is all or nothing, even if the store is not one access
    but one for each byte, in any order, that stops at the first fault; and
    [sig_safe_write] has the same result. Either the word is stored, the result
    is 0 and errno is kept, or no byte has changed, the result is 1 and errno
    is EFAULT, the handler having left the phase before it jumps. After a store
    the registrations are those from before. After a fault they are too if the
    local variable [registration] has its value after the jump ([kept]), and the
    fault handler is freed behind a drain; if not, its registration stays in
    front of them. *)
Theorem sig_safe_write_all_or_nothing kept (n : nat) p v m errno g l order :
  dll (handlers g) l -> seized_faults g -> fault_signals m -> paged m ->
  (0 < n)%nat -> (Z.of_nat n | 4096) -> (Z.of_nat n | p) -> order ≡ₚ seq 0 n ->
  exists m1 g1 m2 g2,
    let outcome m' g' := match store_fault m p n with None => (0, errno, m', g') | Some _ => (1, EFAULT, m', g') end in
    sig_safe_op call_other f d self kept true (store_in_order order p (le_bytes n v)) m errno g = Ret (outcome m1 g1)
    /\ sig_safe_write call_other f d self kept n true p v m errno g = Ret (outcome m2 g2)
    /\ (match store_fault m p n with None => written n p v m m1 /\ written n p v m m2 | Some _ => m1 = m /\ m2 = m end)
    /\ Forall (handler_gone kept (match store_fault m p n with None => false | Some _ => true end) g l) [g1; g2].
Proof.
  intros Hd Hi Hm Hp Hn Hpage Ha Hperm. pose proof (store_in_order_atomic n p v order m Hp Hn Hpage Ha Hperm) as Hs.
  assert (forall s, store_fault m p n = Some s -> s = SIGSEGV \/ s = SIGBUS) as Hsig by (intros s; by apply store_fault_signal).
  destruct (sig_safe_op_ok kept (store_in_order order p (le_bytes n v)) m errno g l Hd Hi) as (g1 & E1 & H1).
  { intros m' s E. destruct (store_fault m p n); [apply Hsig; congruence|]. destruct Hs as (m1 & E1 & _). congruence. }
  destruct (sig_safe_op_ok kept (sig_safe_write_op n p v) m errno g l Hd Hi) as (g2 & E2 & H2).
  { intros m' s E. unfold sig_safe_write_op in E. destruct (store_fault m p n); [apply Hsig; congruence|done]. }
  pose proof (sig_safe_write_op_stored n p v m) as Hw. unfold sig_safe_write.
  destruct (store_fault m p n) as [s|] eqn:Es.
  - assert (sig_safe_write_op n p v m = Signalled m s) as E by (unfold sig_safe_write_op; by rewrite Es).
    rewrite Hs in E1, H1. rewrite E in E2, H2. exists m, g1, m, g2. repeat split; try done. by repeat constructor.
  - destruct Hs as (m1 & Em1 & W1). destruct (Hw eq_refl) as (m2 & Em2 & W2). rewrite Em1 in E1, H1. rewrite Em2 in E2, H2.
    exists m1, g1, m2, g2. do 3 (split; [done|]). by repeat constructor.
Qed.

(** When the compiler keeps [registration] in a register that the jump restores,
    a write that faults leaves its registration in the circle, though the
    handler data it points to is gone. *)
Theorem lost_registration_stays n p v m errno g l s :
  dll (handlers g) l -> seized_faults g ->
  fault_signals m -> store_fault m p n = Some s ->
  exists g' r, sig_safe_write call_other f d self false n true p v m errno g = Ret (1, EFAULT, m, g') /\
    (r ∉ l) /\ dll (handlers g') (r :: l).
Proof.
  intros Hd Hi Hm Es. unfold sig_safe_write, sig_safe_op.
  destruct (guarded_ok call_other f d self false 0 ({[SIGSEGV]} ∪ {[SIGBUS]}) true
    (sig_safe_write_op n p v) m errno g l Hd) as (g' & -> & _ & r & Hr & H).
  { intros m' s' E. apply seized_catches; [done|]. unfold sig_safe_write_op in E. rewrite Es in E.
    injection E as _ <-. by apply (store_fault_signal m p n). }
  unfold sig_safe_write_op in *. rewrite Es in *. destruct H as [Hd' _]. by exists g', r.
Qed.
End Write.

(** [sig_safe_exec] is the same for operations that can only raise SIGILL. *)
Theorem sig_safe_exec_restores {K M} call_other f d self (op : M -> op_end M) m errno (g : sigmux_global K) l :
  dll (handlers g) l -> sigmux_sigismember (initsig g) SIGILL = Ret 1 ->
  (forall m' s, op m = Signalled m' s -> s = SIGILL) ->
  exists m' g', sig_safe_exec call_other f d self true true op m errno g =
      Ret (match op m with Completed _ => (0, errno, m', g') | Signalled _ _ => (1, EFAULT, m', g') end) /\
    dll (handlers g') l.
Proof.
  intros Hd Hi Hop. unfold sig_safe_exec.
  destruct (guarded_ok call_other f d self true 1 {[SIGILL]} true op m errno g l Hd) as (g' & -> & _ & r & _ & H).
  { intros m' s E. rewrite (Hop m' s E). split; [unfold NSIG, SIGILL; lia|]. split; [set_solver|]. split; [done|].
    apply fault_handler_jumps. done. }
  destruct (op m) as [m'|m' s]; exists m', g'; (split; [done|]); apply H.
Qed.

(** ** Witnesses *)

(** SIGSEGV and SIGBUS seized, then one other handler registered. *)
Definition initialised_global : sigmux_global (gmap Z sigaction) :=
  match
    ('(_, g) ← sigmux_init table_sigaction 0x1000 true true SIGSEGV fresh_global;
     '(_, g) ← sigmux_init table_sigaction 0x1000 true true SIGBUS g;
     Ret g)
  with Ret g => g | Fault _ => fresh_global end.

Definition seized_global : sigmux_global (gmap Z sigaction) :=
  match sigmux_register true {[SIGSEGV]} 0x2000 0 0 initialised_global with
  | Ret (_, g) => g
  | Fault _ => initialised_global
  end.

(** A page of zeros, then a read-only one. *)
Definition sample_memory : memory :=
  mkMemory (fun a => if (5 <=? a / 4096) && (a / 4096 <? 7) then Some 0 else None)
           (fun a => if a / 4096 =? 5 then None else Some SIGSEGV).

Lemma sample_faults : fault_signals sample_memory.
Proof. intros a s. cbn. destruct (_ =? _); [done|]. intros [= <-]. by left. Qed.

Lemma sample_paged : paged sample_memory.
Proof. intros a b E. unfold byte_fault. cbn. by rewrite E. Qed.

(** Over the border of the two pages a store is torn. *)
Example unaligned_store_torn : exists m', store_in_order [0; 1; 2; 3]%nat 0x5FFE (le_bytes 4 0x12345678) sample_memory = Signalled m' SIGSEGV
  /\ map (byte_at m') [0x5FFE; 0x5FFF] = [Some 0x78; Some 0x56].
Proof. eexists. by split; vm_compute. Qed.

Lemma seized_global_ok : exists n, dll (handlers seized_global) [n] /\ seized_faults seized_global.
Proof.
  assert (dll (handlers initialised_global) []) as Hd.
  { assert (handlers initialised_global = handlers fresh_global) as -> by (vm_compute; reflexivity).
    apply fresh_dll. }
  unfold seized_global.
  destruct (register_dll initialised_global [] {[SIGSEGV]} 0x2000 0 0 Hd) as (n & g & E & _ & Hd' & _).
  rewrite E. exists n. split; [done|].
  destruct (register_frame _ _ _ _ _ _ _ _ E) as [r ->]. split; vm_compute; reflexivity.
Qed.

Lemma sig_safe_write_all_or_nothing_witness :
  exists m1 g1, sig_safe_op (fun _ _ _ => SIGMUX_CONTINUE_SEARCH) 0x3000 0x4000 7 false true (store_in_order [3; 1; 2; 0]%nat 0x6008 (le_bytes 4 0x1234))
    sample_memory 0 seized_global = Ret (1, EFAULT, m1, g1) /\ m1 = sample_memory.
Proof.
  destruct seized_global_ok as (n & Hd & Hi).
  destruct (sig_safe_write_all_or_nothing (fun _ _ _ => SIGMUX_CONTINUE_SEARCH) 0x3000 0x4000 7
    false 4 0x6008 0x1234 sample_memory 0 seized_global [n] [3; 1; 2; 0]%nat Hd Hi sample_faults sample_paged) as (m1 & g1 & m2 & g2 & E & _ & [Hm _] & _);
    [lia|by exists 1024|by exists 0x1802|apply (bool_decide_unpack _); vm_compute; exact I|].
  exists m1, g1. split; [exact E|exact Hm].
Defined.

Lemma lost_registration_stays_witness :
  exists g' r n, sig_safe_write (fun _ _ _ => SIGMUX_CONTINUE_SEARCH) 0x3000 0x4000 7 false 4 true 0x6008 0x1234
    sample_memory 0 seized_global = Ret (1, EFAULT, sample_memory, g') /\ dll (handlers g') [r; n].
Proof.
  destruct seized_global_ok as (n & Hd & Hi).
  destruct (lost_registration_stays (fun _ _ _ => SIGMUX_CONTINUE_SEARCH) 0x3000 0x4000 7
    4 0x6008 0x1234 sample_memory 0 seized_global [n] SIGSEGV Hd Hi sample_faults eq_refl) as (g' & r & E & _ & H).
  exists g', r, n. split; [exact E|exact H].
Defined.
