(* ===== verification/SharedLibs.v ===== *)
(** The cache of shared libraries, linker/sharedlibs.h and
    linker/sharedlibs.cpp, and dladdr1 of linker/link.cpp.

    The cache is a map from base names to parsed dynamic sections (ElfLib.v).
    The lists of loaded libraries that the system gives, [dladdr] and the
    order of iteration of the unordered map are arguments. Strings are lists
    of bytes without the final zero. The locks are not modelled: each
    operation is one critical section. *)
From S2P Require Import Prelude ElfLib.

Abbreviation cstr := (list Z) (only parsing).
Definition slash : Z := 47.
Definition dot : Z := 46.
Definition dot_so : cstr := [46; 115; 111].

(** * Strings *)

Fixpoint drop_slashes (s : cstr) : cstr :=
  match s with c :: s' => if c =? slash then drop_slashes s' else s | [] => [] end.

Fixpoint take_component (s : cstr) : cstr :=
  match s with c :: s' => if c =? slash then [] else c :: take_component s' | [] => [] end.

(** basename(3): trailing slashes are dropped, and the last component is kept;
    both on the reversed string. *)
Definition basename (path : cstr) : cstr :=
  match path with
  | [] => [dot]
  | _ => match drop_slashes (rev path) with [] => [slash] | r => rev (take_component r) end
  end.

Definition ends_with (str ending : cstr) : bool :=
  if (length str <? length ending)%nat then false
  else bool_decide (drop (length str - length ending) str = ending).

(** * The cache *)

Abbreviation cache := (gmap (list Z) elfSharedLibData).

(** What [dladdr] finds; a pointer that may be NULL is an option. *)
Record Dl_info := mkDlInfo { dli_fname : cstr; dli_sname : option cstr; dli_saddr : Z }.

Section Cache.
Context (arch : target) (mem : Z -> option Z).

(** [parse] is the constructor on the argument; the exception it may throw is
    caught. *)
Definition addSharedLib (libs : cache) (libname : cstr) (parse : res elfSharedLibData) : res (bool * cache) :=
  if bool_decide (arch = AARCH64) then Ret (false, libs)
  else
    match libs !! basename libname with
    | Some _ => Ret (false, libs)
    | None =>
        match parse with
        | Ret data => Ret (true, <[basename libname := data]> libs)
        | Fault Thrown => Ret (false, libs)
        | Fault f => Fault f
        end
    end.

Definition fname_of (dladdr : Z -> option Dl_info) (p : Z) : option cstr := dli_fname <$> dladdr p.

(** std::out_of_range when the library is not known or not valid any more. *)
Definition sharedLib (dladdr : Z -> option Dl_info) (libs : cache) (libname : cstr) : res elfSharedLibData :=
  match libs !! basename libname with
  | None => Fault Thrown
  | Some lib => if is_valid (fname_of dladdr) lib then Ret lib else Fault Thrown
  end.

Definition allSharedLibs (order : cache -> list (cstr * elfSharedLibData)) (libs : cache) :
    list (cstr * elfSharedLibData) := order libs.

Definition clearSharedLibs : cache := ∅.

(** The loops over the libraries, whose names may be NULL. *)
Fixpoint add_each (libs : cache) (loaded : list (option cstr * res elfSharedLibData)) : res cache :=
  match loaded with
  | [] => Ret libs
  | (name, parse) :: loaded =>
      libs ← match name with
             | Some name =>
                 if ends_with name dot_so then '(_, libs) ← addSharedLib libs name parse; Ret libs
                 else Ret libs
             | None => Ret libs
             end;
      add_each libs loaded
  end.

Definition ANDROID_L : Z := 21.

(** What the system offers: dl_iterate_phdr, when its symbol is found, and the
    list behind the handle of dlopen(nullptr), when it is not NULL. *)
Record loaded_libs := mkLoaded {
  phdrs : option (list (option cstr * dl_phdr_info));
  soinfos : option (list (option cstr * soinfo));
}.

(** [fuel] bounds the length of a dynamic table. *)
Definition refresh_shared_libs (fuel : nat) (sdk : Z) (system : loaded_libs) (libs : cache) : res (Z * cache) :=
  if ANDROID_L <=? sdk then
    match phdrs system with
    | None => Ret (1, libs)
    | Some infos =>
        libs ← add_each libs (map (fun e => (e.1, elfSharedLibData_of_phdr arch mem fuel e.2)) infos);
        Ret (0, libs)
    end
  else if lp64 arch then Ret (0, libs)
  else
    match soinfos system with
    | None => Ret (1, libs)
    | Some sis =>
        libs ← add_each libs (map (fun e => (e.1, Ret (elfSharedLibData_of_soinfo sdk e.2))) sis);
        Ret (0, libs)
    end.

Definition RTLD_DL_SYMENT : Z := 1.

(** The result, and the symbol that is stored when there is one. A NULL symbol
    name is dereferenced. *)
Definition dladdr1 (dladdr : Z -> option Dl_info) (fuel : nat) (libs : cache) (addr flags : Z)
    : res (Z * option (option Z)) :=
  if negb (flags =? RTLD_DL_SYMENT) then Ret (0, None)
  else
    match dladdr addr with
    | None => Ret (0, None)
    | Some info =>
        match sharedLib dladdr libs (basename (dli_fname info)) with
        | Fault Thrown => Ret (0, None)
        | Fault f => Fault f
        | Ret lib =>
            name ← get_or_oob (dli_sname info);
            sym_info ← find_symbol_by_name arch mem fuel lib name;
            match sym_info with
            | None => Ret (0, Some None)
            | Some sym =>
                a ← getLoadedAddress arch mem lib sym;
                if negb (a =? dli_saddr info) then Fault Aborted else Ret (1, Some (Some sym))
            end
        end
    end.
End Cache.

(** * Base names *)

Definition no_slash (s : cstr) : Prop := slash ∉ s.

Lemma drop_slashes_head s : match drop_slashes s with [] => True | c :: _ => c <> slash end.
Proof. induction s as [|c s IH]; cbn; [done|]. by destruct (Z.eqb_spec c slash). Qed.

Lemma take_component_no_slash s : no_slash (take_component s).
Proof.
  induction s as [|c s IH]; cbn; [apply not_elem_of_nil|].
  destruct (Z.eqb_spec c slash) as [|Hc]; [apply not_elem_of_nil|].
  unfold no_slash. rewrite not_elem_of_cons. split; [congruence|done].
Qed.

Lemma take_component_id s : no_slash s -> take_component s = s.
Proof.
  induction s as [|c s IH]; cbn; [done|]. unfold no_slash. rewrite not_elem_of_cons. intros [Hc Hs].
  destruct (Z.eqb_spec c slash); [congruence|]. by rewrite IH.
Qed.

Lemma no_slash_rev s : no_slash (rev s) <-> no_slash s.
Proof. unfold no_slash. by rewrite !list_elem_of_In, <- in_rev. Qed.

Lemma drop_slashes_id s : no_slash s -> drop_slashes s = s.
Proof.
  destruct s as [|c s]; cbn; [done|]. unfold no_slash. rewrite not_elem_of_cons. intros [Hc _].
  destruct (Z.eqb_spec c slash); [congruence|done].
Qed.

Lemma basename_component s : no_slash s -> s <> [] -> basename s = s.
Proof.
  intros Hs Hne. unfold basename. destruct s as [|c s]; [done|].
  rewrite drop_slashes_id by (by apply no_slash_rev).
  destruct (rev (c :: s)) as [|d r] eqn:E; [apply (f_equal (@length Z)) in E; by rewrite length_rev in E|].
  rewrite <- E, take_component_id by (by apply no_slash_rev). by rewrite rev_involutive.
Qed.

(** A base name is a slash alone, or a nonempty string without slashes. *)
Lemma basename_cases s : basename s = [slash] \/ (no_slash (basename s) /\ basename s <> []).
Proof.
  unfold basename. destruct s as [|c s]; [right; split; [|done]; unfold no_slash, dot, slash; set_solver|].
  pose proof (drop_slashes_head (rev (c :: s))) as Hh.
  destruct (drop_slashes (rev (c :: s))) as [|d r]; [by left|]. right.
  split; [by apply no_slash_rev, take_component_no_slash|]. cbn [take_component].
  destruct (Z.eqb_spec d slash); [done|]. cbn [rev]. by destruct (rev (take_component r)).
Qed.

Lemma basename_idem s : basename (basename s) = basename s.
Proof. destruct (basename_cases s) as [-> | [H1 H2]]; [done|]. by apply basename_component. Qed.

(** What comes before the last slash does not matter. *)
Lemma basename_path dir s : no_slash s -> s <> [] -> basename (dir ++ slash :: s) = s.
Proof.
  intros Hs Hne. unfold basename.
  destruct (dir ++ slash :: s) as [|c t] eqn:E; [by destruct dir|]. rewrite <- E. clear c t E.
  rewrite rev_app_distr. cbn [rev]. rewrite <- app_assoc. cbn [app].
  destruct (rev s) as [|c r] eqn:Er; [by apply (f_equal (@rev Z)) in Er; rewrite rev_involutive in Er|].
  assert (no_slash (c :: r)) as Hcr by (rewrite <- Er; by apply no_slash_rev).
  assert (c <> slash) as Hc by (intros ->; apply Hcr; set_solver).
  cbn [app drop_slashes]. destruct (Z.eqb_spec c slash) as [|_]; [done|].
  assert (take_component (c :: r ++ slash :: rev dir) = c :: r) as ->.
  { change (c :: r ++ slash :: rev dir) with ((c :: r) ++ slash :: rev dir).
    clear Er Hc. induction (c :: r) as [|x l IH]; [done|]. unfold no_slash in Hcr.
    rewrite not_elem_of_cons in Hcr. destruct Hcr as [Hx Hl]. cbn [app take_component].
    destruct (Z.eqb_spec x slash); [congruence|]. by rewrite IH. }
  rewrite <- Er. apply rev_involutive.
Qed.

Lemma ends_with_spec str ending : ends_with str ending = true <-> exists pre, str = pre ++ ending.
Proof.
  unfold ends_with. destruct (Nat.ltb_spec (length str) (length ending)) as [Hl|Hl].
  - split; [done|]. intros [pre ->]. rewrite length_app in Hl. lia.
  - rewrite bool_decide_eq_true. split.
    + intros H. exists (take (length str - length ending) str). by rewrite <- H at 2; rewrite take_drop.
    + intros [pre ->]. rewrite length_app. replace (length pre + length ending - length ending)%nat
        with (length pre) by lia. by rewrite drop_app_length.
Qed.

Lemma basename_ends_with name : ends_with name dot_so = true -> ends_with (basename name) dot_so = true.
Proof.
  rewrite !ends_with_spec. intros [pre ->]. unfold basename.
  destruct (pre ++ dot_so) as [|c s] eqn:E; [by destruct pre|]. rewrite <- E, rev_app_distr.
  exists (rev (take_component (rev pre))). change (rev dot_so ++ rev pre) with (111 :: 115 :: 46 :: rev pre).
  cbn. by rewrite <- !app_assoc.
Qed.

(** * What the cache holds *)

(** The first library of the list that has the base name [k] and can be
    parsed. *)
Fixpoint first_parse (loaded : list (option cstr * res elfSharedLibData)) (k : cstr) : option elfSharedLibData :=
  match loaded with
  | (Some name, Ret data) :: loaded =>
      if ends_with name dot_so && bool_decide (basename name = k) then Some data else first_parse loaded k
  | _ :: loaded => first_parse loaded k
  | [] => None
  end.

Definition parses (e : option cstr * res elfSharedLibData) : Prop :=
  match e.2 with Ret _ => True | Fault f => f = Thrown end.

Definition known (o o' : option elfSharedLibData) : option elfSharedLibData :=
  match o with Some l => Some l | None => o' end.

Section Learn.
Context (arch : target) (mem : Z -> option Z).

Lemma addSharedLib_ok libs name parse : arch <> AARCH64 -> parses (Some name, parse) ->
  exists b libs', addSharedLib arch libs name parse = Ret (b, libs') /\
    forall k, libs' !! k = known (libs !! k)
      (match parse with Ret data => if bool_decide (basename name = k) then Some data else None | _ => None end).
Proof.
  intros Ha Hp. unfold addSharedLib. rewrite bool_decide_eq_false_2 by done.

  destruct (libs !! basename name) as [l|] eqn:El.
  - do 2 eexists. split; [done|]. intros k. destruct (libs !! k) as [l'|] eqn:Ek; [done|]. cbn.
    destruct parse; [|done]. rewrite bool_decide_eq_false_2; [done|]. intros <-. congruence.
  - destruct parse as [data|f].
    + do 2 eexists. split; [done|]. intros k. destruct (decide (basename name = k)) as [<-|Hne].
      * rewrite lookup_insert_eq, El. cbn. by rewrite bool_decide_eq_true_2.
      * rewrite lookup_insert_ne, bool_decide_eq_false_2 by done. by destruct (libs !! k).
    + cbn in Hp. subst f. do 2 eexists. split; [done|]. intros k. by destruct (libs !! k).
Qed.

Lemma add_each_ok loaded : arch <> AARCH64 -> Forall parses loaded ->
  forall libs, exists libs', add_each arch libs loaded = Ret libs' /\
    forall k, libs' !! k = known (libs !! k) (first_parse loaded k).
Proof.
  intros Ha. induction 1 as [|[name parse] loaded Hp _ IH]; intros libs.
  { exists libs. split; [done|]. intros k. by destruct (libs !! k). }
  cbn [add_each first_parse]. destruct name as [name|]; [|rewrite bind_Ret; apply IH].
  destruct (ends_with name dot_so) eqn:Ee; [|rewrite bind_Ret; destruct parse; apply IH].
  destruct (addSharedLib_ok libs name parse Ha Hp) as (b & libs1 & -> & H1). rewrite !bind_Ret.
  destruct (IH libs1) as (libs2 & -> & H2). exists libs2. split; [done|]. intros k.
  rewrite H2, H1. cbn [andb]. destruct parse as [data|f]; [|by destruct (libs !! k)].
  destruct (libs !! k); [done|]. cbn. by destruct (bool_decide _).
Qed.

(** [refresh_shared_libs] learns the libraries it does not know yet, each under
    its base name, the first one listed when several have it; what it knew, it
    keeps. A library that cannot be parsed, has no name or is not called
    [*.so] is left out, and no failure of one keeps the others away. *)
Theorem refresh_learns fuel sdk infos sis libs :
  arch <> AARCH64 -> ANDROID_L <= sdk ->
  let loaded := map (fun e => (e.1, elfSharedLibData_of_phdr arch mem fuel e.2)) infos in
  Forall parses loaded ->
  exists libs', refresh_shared_libs arch mem fuel sdk (mkLoaded (Some infos) sis) libs = Ret (0, libs') /\
    forall k, libs' !! k = known (libs !! k) (first_parse loaded k).
Proof.
  intros Ha Hs loaded Hp. unfold refresh_shared_libs. destruct (Z.leb_spec ANDROID_L sdk); [|lia].
  cbn [phdrs]. fold loaded. destruct (add_each_ok loaded Ha Hp libs) as (libs' & -> & H').
  rewrite bind_Ret. by exists libs'.
Qed.

Lemma addSharedLib_grows libs name parse b libs' : addSharedLib arch libs name parse = Ret (b, libs') ->
  (forall k l, libs !! k = Some l -> libs' !! k = Some l) /\
  (forall k, is_Some (libs' !! k) -> is_Some (libs !! k) \/ k = basename name).
Proof.
  unfold addSharedLib. destruct (bool_decide _); [intros [= _ <-]; split; [done|tauto]|].
  destruct (libs !! basename name) eqn:El; [intros [= _ <-]; split; [done|tauto]|].
  destruct parse as [data|[]]; intros [= _ <-]; [|split; [done|tauto]]. split.
  - intros k l Hk. rewrite lookup_insert_ne; [done|]. intros <-. congruence.
  - intros k. rewrite lookup_insert_is_Some. intros [<-|[_ ?]]; auto.
Qed.

(** Every key is the base name of a [.so] file. *)
Definition keys_ok (libs : cache) : Prop :=
  forall k, is_Some (libs !! k) -> basename k = k /\ ends_with k dot_so = true.

Lemma add_each_grows loaded : forall libs libs', add_each arch libs loaded = Ret libs' ->
  (forall k l, libs !! k = Some l -> libs' !! k = Some l) /\ (keys_ok libs -> keys_ok libs').
Proof.
  induction loaded as [|[name parse] loaded IH]; intros libs libs' E; [by injection E as <-|].
  cbn [add_each] in E. apply bind_Ret_inv in E as (libs1 & E1 & E). destruct (IH _ _ E) as [H1 H2].
  assert ((forall k l, libs !! k = Some l -> libs1 !! k = Some l) /\ (keys_ok libs -> keys_ok libs1)) as [H3 H4].
  { destruct name as [name|]; [|by injection E1 as <-].
    destruct (ends_with name dot_so) eqn:Ee; [|by injection E1 as <-].
    apply bind_Ret_inv in E1 as ([b l] & E1 & [= <-]). destruct (addSharedLib_grows _ _ _ _ _ E1) as [Hg Hk].
    split; [done|]. intros Hok k [Hs| ->]%Hk; [by apply Hok|].
    split; [apply basename_idem|by apply basename_ends_with]. }
  split; [|auto]. intros k l Hl. by apply H1, H3.
Qed.

Lemma refresh_grows fuel sdk system libs r libs' :
  refresh_shared_libs arch mem fuel sdk system libs = Ret (r, libs') ->
  (forall k l, libs !! k = Some l -> libs' !! k = Some l) /\ (keys_ok libs -> keys_ok libs').
Proof.
  unfold refresh_shared_libs. destruct (_ <=? _); [|destruct (lp64 arch); [by intros [= _ <-]|]].
  - destruct (phdrs system); [|by intros [= _ <-]].
    intros (l1 & E & [= _ <-])%bind_Ret_inv. by apply add_each_grows in E.
  - destruct (soinfos system); [|by intros [= _ <-]].
    intros (l1 & E & [= _ <-])%bind_Ret_inv. by apply add_each_grows in E.
Qed.

(** A library that was unloaded, and loaded again elsewhere, is never found
    again: its entry is not valid, and no refresh replaces it. *)
Theorem stale_library_stays dladdr fuel sdk system libs r libs' name lib :
  libs !! basename name = Some lib -> is_valid (fname_of dladdr) lib = false ->
  refresh_shared_libs arch mem fuel sdk system libs = Ret (r, libs') ->
  sharedLib dladdr libs' name = Fault Thrown.
Proof.
  intros Hl Hv E. destruct (refresh_grows _ _ _ _ _ _ E) as [Hg _].
  unfold sharedLib. by rewrite (Hg _ _ Hl), Hv.
Qed.

(** The cache after some refreshes. *)
Fixpoint refreshes (fuel : nat) (sdk : Z) (systems : list loaded_libs) (libs : cache) : res cache :=
  match systems with
  | [] => Ret libs
  | s :: systems =>
      '(_, libs) ← refresh_shared_libs arch mem fuel sdk s libs; refreshes fuel sdk systems libs
  end.

Lemma refreshes_keys fuel sdk systems : forall libs libs', keys_ok libs ->
  refreshes fuel sdk systems libs = Ret libs' -> keys_ok libs'.
Proof.
  induction systems as [|s systems IH]; intros libs libs' Hk E; cbn [refreshes] in E; [by injection E as <-|].
  apply bind_Ret_inv in E as ([r l1] & E1 & E). apply (IH l1); [|done].
  by apply (refresh_grows _ _ _ _ _ _ E1).
Qed.

Lemma keys_ok_empty : keys_ok clearSharedLibs.
Proof. intros k. unfold clearSharedLibs. rewrite lookup_empty. by intros []. Qed.

(** Every library that [allSharedLibs] lists is found again by the name it is
    listed under, as long as it is loaded. *)
Theorem all_libs_found fuel sdk systems libs order dladdr name lib :
  refreshes fuel sdk systems clearSharedLibs = Ret libs ->
  (forall l, order l ≡ₚ map_to_list l) -> (name, lib) ∈ allSharedLibs order libs ->
  sharedLib dladdr libs name = if is_valid (fname_of dladdr) lib then Ret lib else Fault Thrown.
Proof.
  intros E Ho Hin. unfold allSharedLibs in Hin. rewrite Ho in Hin. apply elem_of_map_to_list in Hin.
  pose proof (refreshes_keys _ _ _ _ _ keys_ok_empty E) as Hk.
  unfold sharedLib. destruct (Hk name) as [-> _]; [by exists lib|]. by rewrite Hin.
Qed.
End Learn.

(** On 64-bit ARM the cache stays empty. *)
Lemma aarch64_learns_nothing mem fuel sdk system libs r libs' :
  refresh_shared_libs AARCH64 mem fuel sdk system libs = Ret (r, libs') -> libs' = libs.
Proof.
  assert (forall loaded l l', add_each AARCH64 l loaded = Ret l' -> l' = l) as Ha.
  { induction loaded as [|[name parse] loaded IH]; intros l l' E; [by injection E|]. cbn [add_each] in E.
    apply bind_Ret_inv in E as (l1 & E1 & E). rewrite (IH _ _ E).
    destruct name; [|by injection E1]. destruct (ends_with _ _); by injection E1. }
  unfold refresh_shared_libs. destruct (_ <=? _); [|by intros [= _ <-]].
  destruct (phdrs system); [|by intros [= _ <-]]. intros (l1 & E & [= _ <-])%bind_Ret_inv. by eapply Ha.
Qed.

(** ** Witnesses *)

(** A dynamic section at 0x1000, with its hash table at 0x1030. *)
Definition sample_dynamic : list Z :=
  concat (map (le_bytes 4) [2; 8; 23; 0x100; 6; 0x200; 5; 0x300; 4; 0x30; 0; 0; 1; 1; 0; 0]).

Definition dynamic_mem (a : Z) : option Z :=
  if 0x1000 <=? a then sample_dynamic !! Z.to_nat (a - 0x1000) else None.

(** "/a/b.so", "b.so" and "c". *)
Definition sample_infos : list (option cstr * dl_phdr_info) :=
  [(None, mkPhdrInfo 0x1000 [] [(2, 0)]);
   (Some [47; 97; 47; 98; 46; 115; 111], mkPhdrInfo 0x1000 [47; 97; 47; 98; 46; 115; 111] [(2, 0)]);
   (Some [98; 46; 115; 111], mkPhdrInfo 0x1000 [98; 46; 115; 111] [(2, 0)]);
   (Some [99], mkPhdrInfo 0x1000 [99] [])].

Definition parsed_lib : elfSharedLibData :=
  mkLib 0x1000 0x1100 1 0 0 0x1200 0x1300 [47; 97; 47; 98; 46; 115; 111]
    (mkElfHash 1 1 0x1038 0x103c) (mkGnuHash 0 0 0 0 0 0 0).

Lemma sample_parses :
  Forall parses (map (fun e => (e.1, elfSharedLibData_of_phdr I386 dynamic_mem 9 e.2)) sample_infos).
Proof. vm_compute. repeat constructor. Qed.

Lemma refresh_learns_witness : exists libs,
  refresh_shared_libs I386 dynamic_mem 9 26 (mkLoaded (Some sample_infos) None) ∅ = Ret (0, libs) /\
  libs !! [98; 46; 115; 111] = Some parsed_lib /\ libs !! [99] = None.
Proof.
  destruct (refresh_learns I386 dynamic_mem 9 26 sample_infos None ∅ ltac:(done) ltac:(unfold ANDROID_L; lia)
    sample_parses) as (libs & E & H).
  exists libs. split; [exact E|]. rewrite !H. split; vm_compute; reflexivity.
Defined.

Definition sample_cache : cache := {[ [98; 46; 115; 111] := parsed_lib ]}.

Definition sample_system : loaded_libs := mkLoaded (Some sample_infos) None.

Definition refreshed (libs : cache) : cache :=
  match refresh_shared_libs I386 dynamic_mem 9 26 sample_system libs with Ret (_, libs) => libs | _ => libs end.

Lemma stale_library_stays_witness :
  refresh_shared_libs I386 dynamic_mem 9 26 sample_system sample_cache = Ret (0, refreshed sample_cache) /\
  sharedLib (fun _ => None) (refreshed sample_cache) [98; 46; 115; 111] = Fault Thrown.
Proof.
  assert (refresh_shared_libs I386 dynamic_mem 9 26 sample_system sample_cache = Ret (0, refreshed sample_cache)) as E
    by (vm_compute; reflexivity).
  split; [exact E|].
  apply (stale_library_stays I386 dynamic_mem (fun _ => None) 9 26 sample_system sample_cache 0 _
    [98; 46; 115; 111] parsed_lib); [vm_compute; reflexivity..|exact E].
Defined.

Lemma all_libs_found_witness :
  sharedLib (fun _ => Some (mkDlInfo (libName parsed_lib) None 0)) (refreshed clearSharedLibs)
    [98; 46; 115; 111] = Ret parsed_lib.
Proof.
  rewrite (all_libs_found I386 dynamic_mem 9 26 [sample_system] (refreshed clearSharedLibs) map_to_list _ _ parsed_lib).
  - vm_compute. reflexivity.
  - vm_compute. reflexivity.
  - done.
  - apply elem_of_map_to_list. vm_compute. reflexivity.
Defined.
