(* ===== verification/Linker.v ===== *)
(** Hooking through the global offset table: linker/linker.h and
    linker/linker.cpp.

    The file composes the other components: the cache of libraries
    (SharedLibs.v) and their dynamic sections (ElfLib.v) give the slots, the
    table of hooks (Hooks.v) and the trampolines (Trampoline.v) say what a slot
    is to hold, and the writes go through [sig_safe_write] (SigSafe.v), which
    registers with the signal multiplexer (Sigmux.v). All of their states are
    the fields of [world]. The locks are not modelled: [g_got_modification_lock]
    makes the change of a slot one critical section. *)
From S2P Require Import Prelude Sigmux SigSafe ElfLib SharedLibs Hooks Trampoline.

(** What surrounds the code: the target, the system calls, which answer from a
    state of their own, and the parameters of the other components. *)
Record platform {K OS : Type} := mkPlatform {
  arch : target;
  pagesize : Z;
  dladdr : Z -> option Dl_info;
  calloc : OS -> bool * OS;                       (* whether there is memory *)
  map_page : OS -> option Z * bool * OS;          (* mmap and prctl for a block *)
  mprotect : OS -> Z -> bool -> option Z * OS;    (* an errno when it fails *)
  template : list Z;
  push_address : Z;
  pop_address : Z;
  other_handlers : Z -> sigmux_siginfo -> Z -> sigmux_action;
  fault_handler_address : Z;
  handler_data_address : Z;
  gettid : Z;
  kept : bool;
  call_sigaction : option Z -> K -> Z -> option sigaction -> Z * sigaction * K;
  handle_signal_1 : Z;
  fuel : nat;
  sdk : Z;
}.
Arguments platform : clear implicits.
Arguments mkPlatform {K OS}.

Record world {K OS : Type} := mkWorld {
  enabled : bool;
  table : Globals;
  code : list Z * list Allocator.allocator_block;
  mem : memory;
  sigs : sigmux_global K;
  libs : cache;
  errno : Z;
  os : OS;
}.
Arguments world : clear implicits.
Arguments mkWorld {K OS}.

Definition ENOENT : Z := 2.
Definition ERANGE : Z := 34.
Definition ENODATA : Z := 61.

Record plt_hook_spec := mkSpec { fn_name : option cstr; hook_fn : Z; hook_result : Z }.

Definition counted (s : plt_hook_spec) : plt_hook_spec := mkSpec (fn_name s) (hook_fn s) (hook_result s + 1).

Section Linker.
Context {K OS : Type} (P : platform K OS).
Implicit Type w : world K OS.

Definition set_table w t := mkWorld (enabled w) t (code w) (mem w) (sigs w) (libs w) (errno w) (os w).
Definition set_code w c (o : OS) := mkWorld (enabled w) (table w) c (mem w) (sigs w) (libs w) (errno w) o.
Definition set_mem w m := mkWorld (enabled w) (table w) (code w) m (sigs w) (libs w) (errno w) (os w).
Definition set_sigs w (g : sigmux_global K) := mkWorld (enabled w) (table w) (code w) (mem w) g (libs w) (errno w) (os w).
Definition set_libs w l := mkWorld (enabled w) (table w) (code w) (mem w) (sigs w) l (errno w) (os w).
Definition set_errno w e := mkWorld (enabled w) (table w) (code w) (mem w) (sigs w) (libs w) e (os w).
Definition set_os w (o : OS) := mkWorld (enabled w) (table w) (code w) (mem w) (sigs w) (libs w) (errno w) o.

Definition linker_set_enabled w (enabled : Z) : world K OS :=
  mkWorld (negb (enabled =? 0)) (table w) (code w) (mem w) (sigs w) (libs w) (errno w) (os w).

Definition word_size : nat := Z.to_nat (sizeof_addr (arch P)).

Definition refresh w (system : loaded_libs) : res (Z * world K OS) :=
  '(ret, l) ← refresh_shared_libs (arch P) (byte_at (mem w)) (fuel P) (sdk P) system (libs w);
  Ret (ret, set_libs w l).

(** [sigmux_init], with the memory for its two actions. *)
Definition init_signal w (s : Z) : res (Z * world K OS) :=
  let '(ok1, o) := calloc P (os w) in
  let '(ok2, o) := calloc P o in
  '(ret, g) ← sigmux_init (call_sigaction P) (handle_signal_1 P) ok1 ok2 s (sigs w);
  Ret (ret, set_sigs (set_os w o) g).

Definition linker_initialize w (system : loaded_libs) : res (Z * world K OS) :=
  if negb (enabled w) then Ret (1, w)
  else
    '(r, w) ← init_signal w SIGSEGV;
    if negb (r =? 0) then Ret (1, w)
    else
      '(r, w) ← init_signal w SIGBUS;
      if negb (r =? 0) then Ret (1, w) else refresh w system.

(** The result, and what is copied to [relocs_out]. [basename(NULL)] is a dot. *)
Definition get_relocations w (sym relocs_out_len : Z) : res (Z * list Z * world K OS) :=
  match dladdr P sym with
  | None => Ret (-1, [], set_errno w ENOENT)
  | Some info =>
      match sharedLib (dladdr P) (libs w) (from_option id [dot] (dli_sname info)) with
      | Fault Thrown => Ret (-1, [], set_errno w ENODATA)
      | Fault f => Fault f
      | Ret lib =>
          relocs ← ElfLib.get_relocations (arch P) (byte_at (mem w)) lib sym;
          if relocs_out_len <? Z.of_nat (length relocs) then Ret (-1, [], set_errno w ERANGE)
          else Ret (Z.of_nat (length relocs), relocs, w)
      end
  end.

(** * Writing a slot *)

Definition write_word w (p v : Z) : res (Z * world K OS) :=
  let '(ok, o) := calloc P (os w) in
  '(rc, e, m, g) ← sig_safe_write (other_handlers P) (fault_handler_address P) (handler_data_address P)
                     (gettid P) (kept P) word_size ok p v (mem w) (errno w) (sigs w);
  Ret (rc, mkWorld (enabled w) (table w) (code w) m g (libs w) e o).

(** What mprotect does when it succeeds. *)
Definition protect (m : memory) (page : Z) (writable : bool) : memory :=
  mkMemory (byte_at m) (fun a =>
    if (page <=? a) && (a <? page + pagesize P) then (if writable then None else Some SIGSEGV)
    else write_fault m a).

Definition mprotect_page w (page : Z) (writable : bool) : option Z * world K OS :=
  let '(e, o) := mprotect P (os w) page writable in
  (e, match e with
      | Some e => set_errno (set_os w o) e
      | None => set_mem (set_os w o) (protect (mem w) page writable)
      end).

Definition PAGE_ALIGN (ptr : Z) : Z :=
  Z.land ptr (ElfLib.uptr (arch P) (Z.lnot (pagesize P - 1))).

Definition unsafe_patch_relocation_address w (plt_got_entry new_value : Z) : res (Z * world K OS) :=
  '(rc, w) ← write_word w plt_got_entry new_value;
  if negb (rc =? 0) && (errno w =? EFAULT) then
    let page := PAGE_ALIGN plt_got_entry in
    match mprotect_page w page true with
    | (Some _, w) => Ret (5, w)
    | (None, w) =>
        '(rc, w) ← write_word w plt_got_entry new_value;
        let old_errno := errno w in
        match mprotect_page w page false with
        | (Some _, _) => Fault Aborted
        | (None, w) => Ret (rc, set_errno w old_errno)
        end
    end
  else Ret (rc, w).

(** [*plt_got_entry]. *)
Definition slot_value w (p : Z) : res Z := read_addr (arch P) (byte_at (mem w)) p.

Definition new_trampoline w (i : Z) : res (Z * world K OS) :=
  let '(page, prctl_ok, o) := map_page P (os w) in
  '(t, c) ← create_trampoline (template P) (push_address P) (pop_address P) (code w) i page prctl_ok;
  Ret (t, set_code w c o).

Definition patch_relocation_address_for_hook w (plt_got_entry : Z) (spec : plt_hook_spec)
    : res (Z * world K OS) :=
  let got_addr := plt_got_entry in
  if is_hooked (table w) got_addr then
    previous ← slot_value w plt_got_entry;
    '(ret, _, t) ← add (table w) (mkHookInfo 0 got_addr (hook_fn spec) previous);
    Ret (if bool_decide (ret = ALREADY_HOOKED_APPENDED) then 0 else 1, set_table w t)
  else
    previous ← slot_value w plt_got_entry;
    '(ret, hook_info, t) ← add (table w) (mkHookInfo 0 got_addr (hook_fn spec) previous);
    let w := set_table w t in
    if bool_decide (ret <> NEW_HOOK) then Ret (1, w)
    else
      '(trampoline, w) ← new_trampoline w (out_id hook_info);
      unsafe_patch_relocation_address w plt_got_entry trampoline.

(** A NULL name is dereferenced. *)
Definition verify_got_entry_for_spec w (got_addr : Z) (spec : plt_hook_spec) : res bool :=
  if is_hooked (table w) got_addr then Ret true
  else
    match dladdr P got_addr with
    | None => Ret false
    | Some _ =>
        v ← slot_value w got_addr;
        match dladdr P v with
        | None => Ret false
        | Some info =>
            sname ← get_or_oob (dli_sname info);
            name ← get_or_oob (fn_name spec);
            Ret (bool_decide (sname = name))
        end
    end.

(** * Hooking a library *)

(** The loop over the slots of one symbol. *)
Fixpoint hook_slots (slots : list Z) (spec : plt_hook_spec) (failures : Z) w
    : res (Z * plt_hook_spec * world K OS) :=
  match slots with
  | [] => Ret (failures, spec, w)
  | plt_got_entry :: slots =>
      ok ← verify_got_entry_for_spec w plt_got_entry spec;
      if negb ok then hook_slots slots spec (failures + 1) w
      else
        '(r, w) ← patch_relocation_address_for_hook w plt_got_entry spec;
        if r =? 0 then hook_slots slots (counted spec) failures w
        else hook_slots slots spec (failures + 1) w
  end.

(** The slots of the symbol that a name has in a library; [None] when there is
    no such symbol. *)
Definition slots_of w (elfData : elfSharedLibData) (name : cstr) : res (option (list Z)) :=
  sym ← find_symbol_by_name (arch P) (byte_at (mem w)) (fuel P) elfData name;
  match sym with
  | None => Ret None
  | Some sym => slots ← get_plt_relocations (arch P) (byte_at (mem w)) elfData sym; Ret (Some slots)
  end.

Fixpoint hook_specs (elfData : elfSharedLibData) (specs : list plt_hook_spec) (failures : Z) w
    : res (Z * list plt_hook_spec * world K OS) :=
  match specs with
  | [] => Ret (failures, [], w)
  | spec :: specs =>
      '(failures, spec, w) ←
        match fn_name spec with
        | None => Ret (failures + 1, spec, w)
        | Some name =>
            if hook_fn spec =? 0 then Ret (failures + 1, spec, w)
            else
              slots ← slots_of w elfData name;
              match slots with
              | None => Ret (failures, spec, w)
              | Some slots => hook_slots slots spec failures w
              end
        end;
      '(failures, specs, w) ← hook_specs elfData specs failures w;
      Ret (failures, spec :: specs, w)
  end.

(** Only the exception of [sharedLib] is caught: nothing else in the body
    throws std::out_of_range. *)
Definition hook_single_lib w (libname : cstr) (specs : list plt_hook_spec)
    : res (Z * list plt_hook_spec * world K OS) :=
  match sharedLib (dladdr P) (libs w) libname with
  | Fault Thrown => Ret (0, specs, w)
  | Fault f => Fault f
  | Ret elfData => hook_specs elfData specs 0 w
  end.

(** ** Unhooking *)

(** The body of the loop over the slots. *)
Definition unhook_slot w (plt_got_entry : Z) (spec : plt_hook_spec) (failures : Z)
    : res (Z * plt_hook_spec * world K OS) :=
  if negb (is_hooked (table w) plt_got_entry) then Ret (failures, spec, w)
  else
    '(result, info, t) ← remove (table w) (mkHookInfo 0 plt_got_entry (hook_fn spec) 0);
    let w := set_table w t in
    match result with
    | REMOVED_STILL_HOOKED => Ret (failures, counted spec, w)
    | REMOVED_TRIVIAL =>
        let original := previous_function info in
        '(rc, w) ← unsafe_patch_relocation_address w plt_got_entry original;
        if negb (rc =? 0) then Fault Aborted
        else
          '(result, _, t) ← remove (table w) (mkHookInfo 0 plt_got_entry original 0);
          if bool_decide (result <> REMOVED_FULLY) then Fault Aborted
          else Ret (failures, counted spec, set_table w t)
    | _ => Ret (failures + 1, spec, w)
    end.

Fixpoint unhook_slots (slots : list Z) (spec : plt_hook_spec) (failures : Z) w
    : res (Z * plt_hook_spec * world K OS) :=
  match slots with
  | [] => Ret (failures, spec, w)
  | plt_got_entry :: slots =>
      '(failures, spec, w) ← unhook_slot w plt_got_entry spec failures;
      unhook_slots slots spec failures w
  end.

Fixpoint unhook_specs (elfData : elfSharedLibData) (specs : list plt_hook_spec) (failures : Z) w
    : res (Z * list plt_hook_spec * world K OS) :=
  match specs with
  | [] => Ret (failures, [], w)
  | spec :: specs =>
      name ← get_or_oob (fn_name spec);
      slots ← slots_of w elfData name;
      '(failures, spec, w) ←
        match slots with
        | None => Ret (failures, spec, w)
        | Some slots => unhook_slots slots spec failures w
        end;
      '(failures, specs, w) ← unhook_specs elfData specs failures w;
      Ret (failures, spec :: specs, w)
  end.

Definition unhook_single_lib w (libname : cstr) (specs : list plt_hook_spec)
    : res (Z * list plt_hook_spec * world K OS) :=
  match sharedLib (dladdr P) (libs w) libname with
  | Fault Thrown => Ret (0, specs, w)
  | Fault f => Fault f
  | Ret elfData => unhook_specs elfData specs 0 w
  end.

(** ** One method, all libraries *)

Definition hook_plt_method w (libname name : cstr) (hook : Z) : res (Z * world K OS) :=
  '(ret, specs, w) ← hook_single_lib w libname [mkSpec (Some name) hook 0];
  Ret (match specs with
       | [spec] => if (ret =? 0) && (hook_result spec =? 1) then 0 else 1
       | _ => 1
       end, w).

Definition unhook_plt_method w (libname name : cstr) (hook : Z) : res (Z * world K OS) :=
  '(ret, specs, w) ← unhook_single_lib w libname [mkSpec (Some name) hook 0];
  Ret (match specs with
       | [spec] => if (ret =? 0) && (hook_result spec =? 1) then 0 else 1
       | _ => 1
       end, w).

(** The loop over the libraries, for [hook_single_lib] or [unhook_single_lib]. *)
Fixpoint each_lib (f : world K OS -> cstr -> list plt_hook_spec -> res (Z * list plt_hook_spec * world K OS))
    (names : list cstr) (specs : list plt_hook_spec) (failures : Z) w
    : res (Z * list plt_hook_spec * world K OS) :=
  match names with
  | [] => Ret (failures, specs, w)
  | name :: names =>
      '(r, specs, w) ← f w name specs;
      each_lib f names specs (failures + r) w
  end.

Definition hook_all_libs (order : cache -> list (cstr * elfSharedLibData)) w (system : loaded_libs)
    (specs : list plt_hook_spec) (allowHookingLib : cstr -> bool) : res (Z * list plt_hook_spec * world K OS) :=
  '(r, w) ← refresh w system;
  if negb (r =? 0) then Ret (-1, specs, w)
  else
    let names := map fst (allSharedLibs order (libs w)) in
    each_lib hook_single_lib (List.filter allowHookingLib names) specs 0 w.

Definition unhook_all_libs (order : cache -> list (cstr * elfSharedLibData)) w
    (specs : list plt_hook_spec) : res (Z * list plt_hook_spec * world K OS) :=
  each_lib unhook_single_lib (map fst (allSharedLibs order (libs w))) specs 0 w.
End Linker.

(** * Invariant *)

(** What the code relies on outside itself: mmap gives pages, an mprotect that
    takes back the write permission succeeds, the trampoline fits a page, and
    [registration] survives the jump. *)
Record platform_ok {K OS} (P : platform K OS) : Prop := {
  po_kept : kept P = true;
  po_pages : forall o page ok o', map_page P o = (Some page, ok, o') -> 0 <= page /\ page mod 4096 = 0;
  po_unprotect : forall o page, fst (mprotect P o page false) = None;
  po_template : size (template P) <= Allocator.kSize;
}.

Record world_ok {K OS} (w : world K OS) : Prop := {
  wo_table : Hooks.wf (table w);
  wo_blocks : Forall block_ok (code w).2;
  wo_sigs : exists l, dll (handlers (sigs w)) l;
  wo_seized : seized_faults (sigs w);
  wo_faults : forall a s, write_fault (mem w) a = Some s -> s = SIGSEGV \/ s = SIGBUS;
  wo_bytes : forall a b, byte_at (mem w) a = Some b -> 0 <= b < 256;
}.

Section Words.
Context {K OS : Type} (P : platform K OS).
Implicit Type w : world K OS.

Lemma word_size_bits : 8 * Z.of_nat (word_size P) = addr_width (arch P).
Proof. unfold word_size, sizeof_addr, addr_width. by destruct (lp64 (arch P)). Qed.

(** A slot lies in the address space. *)
Definition slot_ok (p : Z) : Prop := 0 <= p /\ p + Z.of_nat (word_size P) <= 2 ^ addr_width (arch P).

Definition stored (m : memory) (p v : Z) : Prop :=
  forall i, (i < word_size P)%nat -> byte_at m (p + Z.of_nat i) = le_bytes (word_size P) v !! i.

Lemma read_bytes_at f n p l : 0 <= p -> p + Z.of_nat n <= 2 ^ addr_width (arch P) -> length l = n ->
  (forall i, (i < n)%nat -> f (p + Z.of_nat i) = l !! i) -> read_bytes (arch P) f n p = Ret l.
Proof.
  revert p l. induction n as [|n IH]; intros p l Hp Hb Hl Hf; [by destruct l|].
  destruct l as [|b l]; [done|]. cbn [read_bytes].
  assert (ElfLib.uptr (arch P) p = p) as -> by (apply wrap_small; split; lia).
  pose proof (Hf 0%nat ltac:(lia)) as H0. rewrite Z.add_0_r in H0. rewrite H0. cbn [lookup list_lookup get_or_oob].
  rewrite bind_Ret. rewrite (IH (p + 1) l); [done|lia|lia|by injection Hl|].
  intros i Hi. etrans; [|apply (Hf (S i)); lia]. f_equal. lia.
Qed.

Lemma read_stored m p v : slot_ok p -> stored m p v ->
  read_addr (arch P) (byte_at m) p = Ret (ElfLib.uptr (arch P) v).
Proof.
  intros [Hp Hb] Hs. unfold read_addr, read. fold (word_size P).
  rewrite (read_bytes_at _ _ _ (le_bytes (word_size P) v)); [|done..|apply length_le_bytes|done].
  rewrite bind_Ret. f_equal. rewrite le_val_bytes, word_size_bits. done.
Qed.

Lemma read_bytes_range f n p l : (forall a b, f a = Some b -> 0 <= b < 256) ->
  read_bytes (arch P) f n p = Ret l -> bytes_ok l /\ length l = n.
Proof.
  intros Hf. revert p l. induction n as [|n IH]; intros p l E; cbn [read_bytes] in E.
  - injection E as <-. split; [constructor|done].
  - destruct (f (ElfLib.uptr (arch P) p)) as [b|] eqn:Eb; [|done]. cbn [get_or_oob] in E. rewrite bind_Ret in E.
    apply bind_Ret_inv in E as (l' & E & [= <-]). destruct (IH _ _ E) as [H1 H2].
    split; [|cbn; lia]. constructor; [|done]. unfold in_range. change (2 ^ 8) with 256. by eapply Hf.
Qed.

(** A word that is read fits, so writing it back and reading it is the identity. *)
Lemma slot_value_fits w p v : world_ok w -> slot_value P w p = Ret v -> ElfLib.uptr (arch P) v = v.
Proof.
  intros Hw E. unfold slot_value, read_addr, read in E. fold (word_size P) in E.
  apply bind_Ret_inv in E as (l & E & [= <-]).
  destruct (read_bytes_range _ _ _ _ (wo_bytes _ Hw) E) as [Hl Hlen].
  apply wrap_small. rewrite <- word_size_bits, <- Hlen. by apply le_val_range.
Qed.

Context (HP : platform_ok P).

(** What a write may change. *)
Record same_but_memory w w' : Prop := {
  sb_table : table w' = table w;
  sb_code : code w' = code w;
  sb_libs : libs w' = libs w;
}.

(** The word is stored, or the bytes are as they were. *)
Definition wrote w w' (p v rc : Z) : Prop :=
  (rc = 0 /\ stored (mem w') p v /\
     forall a, a < p \/ p + Z.of_nat (word_size P) <= a -> byte_at (mem w') a = byte_at (mem w) a) \/
  (rc <> 0 /\ byte_at (mem w') = byte_at (mem w)).

Lemma same_trans w1 w2 w3 : same_but_memory w1 w2 -> same_but_memory w2 w3 -> same_but_memory w1 w3.
Proof. intros [] []. split; congruence. Qed.

Lemma le_bytes_bound n v i b : le_bytes n v !! i = Some b -> 0 <= b < 256.
Proof.
  intros H. pose proof (le_bytes_ok n v) as Hok. unfold bytes_ok in Hok.
  rewrite Forall_lookup in Hok. apply (Hok _ _ H).
Qed.

Lemma write_word_ok w p v : world_ok w -> exists rc w', write_word P w p v = Ret (rc, w') /\
  world_ok w' /\ same_but_memory w w' /\ write_fault (mem w') = write_fault (mem w) /\
  wrote w w' p v rc /\ (rc = 0 \/ rc = 1).
Proof.
  intros [Hwf Hb [l Hd] Hs Hf Hbytes]. unfold write_word. destruct (calloc P (os w)) as [ok o].
  rewrite (po_kept P HP).
  destruct (sig_safe_write_ok (other_handlers P) (fault_handler_address P) (handler_data_address P) (gettid P)
    (word_size P) p v (mem w) (errno w) (sigs w) l ok Hd Hs Hf) as (m' & g' & -> & Hd' & Hi & H).
  assert (seized_faults g') as Hs' by (unfold seized_faults; by rewrite Hi).
  destruct ok; cbn [negb] in *.
  - destruct (store_fault (mem w) p (word_size P)) eqn:Es.
    + destruct H as [-> _]. rewrite bind_Ret. do 2 eexists. split; [done|].
      split; [split; try done; by exists l|]. split; [done|]. split; [done|]. split; [|by right].
      right. by split; [lia|].
    + destruct (sig_safe_write_op_stored (word_size P) p v (mem w) Es) as (m2 & E2 & Hwf2 & H1 & H2).
      rewrite E2 in H. injection H as <-. rewrite bind_Ret. do 2 eexists. split; [done|].
      split; [|split; [done|split; [done|split; [left; done|by left]]]].
      split; cbn [table code sigs mem]; [done|done|by exists l|done|by rewrite Hwf2|].
      intros a b Ha. destruct (decide (p <= a < p + Z.of_nat (word_size P))) as [Hin|Hout].
      * pose proof (H1 (Z.to_nat (a - p)) ltac:(lia)) as E1.
        replace (p + Z.of_nat (Z.to_nat (a - p))) with a in E1 by lia.
        rewrite E1 in Ha. by eapply le_bytes_bound.
      * rewrite H2 in Ha by lia. by eapply Hbytes.
  - destruct H as [-> ->]. rewrite bind_Ret. do 2 eexists. split; [done|].
    split; [split; try done; by exists l|]. split; [done|]. split; [done|]. split; [|by right].
    right. by split; [lia|].
Qed.

Lemma wrote_refl w w1 w2 p v rc : byte_at (mem w1) = byte_at (mem w) -> wrote w1 w2 p v rc -> wrote w w2 p v rc.
Proof. unfold wrote. by intros ->. Qed.

Lemma protect_ok w page b : world_ok w -> world_ok (set_mem w (protect P (mem w) page b)).
Proof.
  intros []. split; try done. cbn. intros a s. destruct (_ && _); [|by apply wo_faults0].
  destruct b; [done|]. intros [= <-]. by left.
Qed.

Lemma set_os_ok w o : world_ok w -> world_ok (set_os w o).
Proof. by intros []. Qed.

Lemma set_errno_ok w e : world_ok w -> world_ok (set_errno w e).
Proof. by intros []. Qed.

Lemma mprotect_page_ok w page b e w' : world_ok w -> mprotect_page P w page b = (e, w') ->
  world_ok w' /\ same_but_memory w w' /\ byte_at (mem w') = byte_at (mem w).
Proof.
  intros Hw. unfold mprotect_page. destruct (mprotect P (os w) page b) as [[e'|] o]; intros [= <- <-].
  - by split; [apply set_errno_ok, set_os_ok|].
  - split; [by apply (protect_ok (set_os w o)), set_os_ok|done].
Qed.

Lemma mprotect_back w page : exists w', mprotect_page P w page false = (None, w').
Proof.
  pose proof (po_unprotect P HP (os w) page) as H. unfold mprotect_page.
  destruct (mprotect P (os w) page false) as [[e|] o]; [done|]. by eexists.
Qed.

(** Every way of patching a slot ends: the result says whether the word is
    stored, and only the slot's bytes can change. *)
Lemma unsafe_patch_ok w p v : world_ok w ->
  exists rc w', unsafe_patch_relocation_address P w p v = Ret (rc, w') /\
    world_ok w' /\ same_but_memory w w' /\ wrote w w' p v rc /\ (rc = 0 \/ rc = 1 \/ rc = 5).
Proof.
  intros Hw. unfold unsafe_patch_relocation_address.
  destruct (write_word_ok w p v Hw) as (rc1 & w1 & -> & Hw1 & Hs1 & _ & Hr1 & Hc1). rewrite bind_Ret.
  destruct (negb (rc1 =? 0) && (errno w1 =? EFAULT)) eqn:Eb;
    [|do 2 eexists; split; [done|]; split; [done|]; split; [done|]; split; [done|tauto]].
  apply andb_true_iff in Eb as [Hne _]. apply negb_true_iff, Z.eqb_neq in Hne.
  destruct Hr1 as [[? _]|[_ Hm1]]; [done|]. cbv zeta.
  destruct (mprotect_page P w1 (PAGE_ALIGN P p) true) as [e w2] eqn:E2.
  destruct (mprotect_page_ok _ _ _ _ _ Hw1 E2) as (Hw2 & Hs2 & Hm2).
  pose proof (same_trans _ _ _ Hs1 Hs2) as Hs12. destruct e as [e|].
  - do 2 eexists. split; [done|]. split; [done|]. split; [done|]. split; [|tauto]. right. split; [lia|congruence].
  - destruct (write_word_ok w2 p v Hw2) as (rc3 & w3 & -> & Hw3 & Hs3 & _ & Hr3 & Hc3). rewrite bind_Ret.
    destruct (mprotect_back w3 (PAGE_ALIGN P p)) as [w4 E4]. rewrite E4.
    destruct (mprotect_page_ok _ _ _ _ _ Hw3 E4) as (Hw4 & Hs4 & Hm4).
    do 2 eexists. split; [done|]. split; [by apply set_errno_ok|].
    split; [destruct (same_trans _ _ _ (same_trans _ _ _ Hs12 Hs3) Hs4); by split|]. split; [|tauto].
    apply (wrote_refl w w2); [congruence|]. unfold wrote, stored. cbn [mem set_errno]. by rewrite Hm4.
Qed.

(** * The slot after a patch *)

Lemma slot_value_wrote_fail w w' p v rc q : wrote w w' p v rc -> rc <> 0 -> slot_value P w' q = slot_value P w q.
Proof. unfold slot_value. intros [[? _]|[_ ->]] Hne; done. Qed.

Lemma slot_value_wrote w w' p v : slot_ok p -> wrote w w' p v 0 ->
  slot_value P w' p = Ret (ElfLib.uptr (arch P) v).
Proof. intros Hp [(_ & Hs & _)|[? _]]; [|done]. by apply read_stored. Qed.

Lemma new_trampoline_ok w i t w' : world_ok w -> new_trampoline P w i = Ret (t, w') ->
  world_ok w' /\ installed (template P) (push_address P) (pop_address P) (code w').2 t i /\
  table w' = table w /\ mem w' = mem w /\ libs w' = libs w /\
  forall c j, installed (template P) (push_address P) (pop_address P) (code w).2 c j ->
    installed (template P) (push_address P) (pop_address P) (code w').2 c j.
Proof.
  intros Hw. unfold new_trampoline. destruct (map_page P (os w)) as [[page ok] o] eqn:Em.
  destruct (code w) as [ts blocks] eqn:Ec. intros ([t' c] & E & [= <- <-])%bind_Ret_inv.
  unfold create_trampoline in E. apply bind_Ret_inv in E as ([t2 bs] & E & [= <- <-]).
  pose proof (wo_blocks _ Hw) as Hb. rewrite Ec in Hb.
  destruct (trampoline_installs (template P) (push_address P) (pop_address P) (po_template P HP)
    blocks i page ok t2 bs Hb) as (Hb' & Hi & Hp);
    [intros m ->; by apply (po_pages P HP _ _ _ _ Em)|done|].
  cbn. split; [|done]. destruct Hw. by split.
Qed.

Lemma new_trampoline_total w i : world_ok w ->
  (forall o, exists page o', map_page P o = (Some page, true, o')) -> exists t w', new_trampoline P w i = Ret (t, w').
Proof.
  intros Hw Hm. unfold new_trampoline. destruct (Hm (os w)) as (page & o' & Em). rewrite Em.
  destruct (po_pages P HP _ _ _ _ Em) as [H0 H1]. destruct (code w) as [ts blocks] eqn:Ec.
  pose proof (wo_blocks _ Hw) as Hb. rewrite Ec in Hb. unfold create_trampoline.
  destruct (trampoline_created (template P) (push_address P) (pop_address P) (po_template P HP)
    blocks i page Hb H0 H1) as (c & bs & ->). by do 2 eexists.
Qed.
End Words.

(** * Patching and restoring a slot *)

Lemma is_hooked_abs g a : Hooks.wf g -> is_hooked g a = bool_decide (is_Some (abs g !! a)).
Proof.
  intros Hwf. unfold is_hooked. destruct (hooks_by_got_address g !! a) as [r|] eqn:Hr.
  - destruct (wf_slot g Hwf _ _ Hr) as (o & _ & _ & _ & _ & ->). by rewrite bool_decide_eq_true_2.
  - rewrite (wf_no_slot g _ Hr). rewrite bool_decide_eq_false_2; [done|]. by intros [].
Qed.

Lemma set_table_ok {K OS} (w : world K OS) t : world_ok w -> Hooks.wf t -> world_ok (set_table w t).
Proof. by intros [] ?. Qed.

Section Patch.
Context {K OS : Type} (P : platform K OS) (HP : platform_ok P).
Implicit Type w : world K OS.

Abbreviation installed_at w t i := (installed (template P) (push_address P) (pop_address P) (code w).2 t i).

(** A slot that is not hooked yet: the table has it, whatever the write gives. *)
Lemma patch_new w p spec orig : world_ok w -> next_id (table w) < 2 ^ 32 - 1 ->
  (forall o, exists page o', map_page P o = (Some page, true, o')) ->
  is_hooked (table w) p = false -> slot_value P w p = Ret orig ->
  p <> 0 -> orig <> 0 -> hook_fn spec <> 0 ->
  exists t i rc w0 w1, patch_relocation_address_for_hook P w p spec = Ret (rc, w1) /\
    unsafe_patch_relocation_address P w0 p t = Ret (rc, w1) /\ world_ok w0 /\ mem w0 = mem w /\
    world_ok w1 /\ (rc = 0 \/ rc = 1 \/ rc = 5) /\
    wrote P w w1 p t rc /\ installed_at w1 t i /\ get_run_list (table w1) i = Ret [orig; hook_fn spec] /\
    abs (table w1) = <[p := [orig; hook_fn spec]]> (abs (table w)) /\
    next_id (table w1) <= next_id (table w) + 1.
Proof.
  intros Hw Hn Hm Hh Hv Hp Ho Hf. unfold patch_relocation_address_for_hook. rewrite Hh, Hv, bind_Ret.
  destruct (add_implements (table w) (mkHookInfo 0 p (hook_fn spec) orig) (wo_table _ Hw) Hn) as (info & t1 & H).
  unfold spec_add in H. cbn [previous_function new_function got_address] in H.
  apply Z.eqb_neq in Hp, Ho, Hf. rewrite Hp, Ho, Hf in H.
  rewrite (is_hooked_abs _ _ (wo_table _ Hw)) in Hh. apply bool_decide_eq_false, eq_None_not_Some in Hh.
  rewrite Hh in H. cbn [orb] in H. destruct H as (-> & _ & Hwf1 & Habs & Hid & _ & Hrl). rewrite bind_Ret.
  rewrite bool_decide_eq_false_2 by (by intros []).
  destruct (new_trampoline_total P HP (set_table w t1) (out_id info) (set_table_ok _ _ Hw Hwf1) Hm) as (t & w0 & E0).
  rewrite E0, bind_Ret.
  destruct (new_trampoline_ok P HP _ _ _ _ (set_table_ok _ _ Hw Hwf1) E0) as (Hw0 & Hi & Ht & Hmem & _ & _).
  destruct (unsafe_patch_ok P HP w0 p t Hw0) as (rc & w1 & E1 & Hw1 & [Ht1 Hc1 _] & Hr & Hc).
  exists t, (out_id info), rc, w0, w1. do 6 (split; [done|]).
  split; [apply (wrote_refl P w w0); [by rewrite Hmem|done]|]. rewrite Hc1, Ht1, Ht. cbn [table set_table].
  split; [done|]. split; [by apply Hrl|]. split; [done|lia].
Qed.

(** A slot that is hooked: the function goes to the end of the run list. *)
Lemma patch_again w p spec v l : world_ok w -> next_id (table w) < 2 ^ 32 - 1 ->
  abs (table w) !! p = Some l -> slot_value P w p = Ret v ->
  exists rc t, patch_relocation_address_for_hook P w p spec = Ret (rc, set_table w t) /\
    Hooks.wf t /\ next_id t = next_id (table w) /\
    abs t = (if rc =? 0 then <[p := l ++ [hook_fn spec]]> (abs (table w)) else abs (table w)) /\
    (rc = 0 <-> v <> 0 /\ hook_fn spec <> 0).
Proof.
  intros Hw Hn Hl Hv. unfold patch_relocation_address_for_hook.
  rewrite (is_hooked_abs _ _ (wo_table _ Hw)), bool_decide_eq_true_2 by (by exists l).
  rewrite Hv, bind_Ret.
  destruct (add_implements (table w) (mkHookInfo 0 p (hook_fn spec) v) (wo_table _ Hw) Hn) as (info & t1 & H).
  unfold spec_add in H. cbn [previous_function new_function got_address] in H.
  assert ((p =? 0) = false) as Hp.
  { apply Z.eqb_neq. intros ->. rewrite lookup_abs in Hl. unfold run_list in Hl.
    destruct (hooks_by_got_address (table w) !! 0) as [r|] eqn:Hr; [|done].
    by destruct (wf_got _ (wo_table _ Hw) _ _ Hr). }
  rewrite Hp, orb_false_r, Hl in H.
  destruct ((v =? 0) || (hook_fn spec =? 0)) eqn:Ec; destruct H as (-> & _ & Hwf1 & Habs & _ & Hid & _); rewrite bind_Ret.
  - exists 1, t1. do 2 (split; [done|]). split; [by apply Hid|]. do 2 (split; [done|]). intros [H1 H2].
    by apply orb_true_iff in Ec as [E%Z.eqb_eq|E%Z.eqb_eq].
  - exists 0, t1. do 2 (split; [done|]). split; [by apply Hid|]. split; [done|]. split; [intros _|done].
    by apply orb_false_iff in Ec as [E1%Z.eqb_neq E2%Z.eqb_neq].
Qed.

(** C1: Hooking a free slot puts a trampoline into it whose run list is the
    original function and the hook, and unhooking it puts the original
    function back and leaves the table as it was; the only other way out is
    the end of the process, when the slot cannot be written any more. *)
Theorem hook_unhook_restores w p spec orig failures :
  world_ok w -> next_id (table w) < 2 ^ 32 - 1 ->
  (forall o, exists page o', map_page P o = (Some page, true, o')) -> slot_ok P p ->
  is_hooked (table w) p = false -> slot_value P w p = Ret orig ->
  p <> 0 -> orig <> 0 -> hook_fn spec <> 0 -> hook_fn spec <> orig ->
  exists rc w1, patch_relocation_address_for_hook P w p spec = Ret (rc, w1) /\ (rc = 0 ->
    exists t i, slot_value P w1 p = Ret (ElfLib.uptr (arch P) t) /\ installed_at w1 t i /\
      get_run_list (table w1) i = Ret [orig; hook_fn spec] /\
      (unhook_slot P w1 p spec failures = Fault Aborted \/
       exists w2, unhook_slot P w1 p spec failures = Ret (failures, counted spec, w2) /\
         slot_value P w2 p = Ret orig /\ is_hooked (table w2) p = false /\
         forall b, run_list (table w2) b = run_list (table w) b)).
Proof.
  intros Hw Hn Hm Hs Hh Hv Hp Ho Hf Hne.
  destruct (patch_new w p spec orig Hw Hn Hm Hh Hv Hp Ho Hf)
    as (t & i & rc & w0 & w1 & E1 & _ & _ & _ & Hw1 & _ & Hr & Hi & Hrl & Habs & _).
  exists rc, w1. split; [done|]. intros ->. exists t, i. split; [by apply (slot_value_wrote P w w1)|].
  split; [done|]. split; [done|]. unfold unhook_slot.
  rewrite (is_hooked_abs _ p (wo_table _ Hw1)), Habs, lookup_insert_eq, bool_decide_eq_true_2 by done. cbn [negb].
  destruct (remove_implements (table w1) (mkHookInfo 0 p (hook_fn spec) 0) (wo_table _ Hw1)) as (info & t2 & H).
  unfold spec_remove in H. cbn [previous_function new_function got_address] in H.
  apply Z.eqb_neq in Hp, Ho, Hf. rewrite Hf, Hp, Habs, lookup_insert_eq in H.
  cbn [orb existsb remove_first length] in H. rewrite Z.eqb_refl in H.
  replace (orig =? hook_fn spec) with false in H by (symmetry; apply Z.eqb_neq; congruence).
  cbn in H. rewrite insert_insert_eq in H. destruct H as (-> & Hprev & Hwf2 & Habs2 & _). rewrite bind_Ret, Hprev.
  destruct (unsafe_patch_ok P HP (set_table w1 t2) p orig (set_table_ok _ _ Hw1 Hwf2))
    as (rc2 & w2 & -> & Hw2 & [Ht2 _ _] & Hr2 & _). rewrite bind_Ret.
  destruct (Z.eqb_spec rc2 0) as [->|]; cbn [negb]; [|by left]. right. cbn [table set_table] in Ht2.
  destruct (remove_implements (table w2) (mkHookInfo 0 p orig 0) (wo_table _ Hw2)) as (info3 & t3 & H).
  unfold spec_remove in H. cbn [previous_function new_function got_address] in H.
  rewrite Ho, Hp, Ht2, Habs2, lookup_insert_eq in H. cbn [orb] in H. rewrite Z.eqb_refl in H.
  rewrite (is_hooked_abs _ _ (wo_table _ Hw)) in Hh. apply bool_decide_eq_false, eq_None_not_Some in Hh.
  rewrite delete_insert_id in H by done. rewrite Ht2. destruct H as (-> & _ & Hwf3 & Habs3 & _). rewrite bind_Ret.
  rewrite bool_decide_eq_false_2 by (by intros []). eexists. split; [done|]. split; [|split].
  - change (slot_value P w2 p = Ret orig). rewrite (slot_value_wrote P _ w2 p orig Hs Hr2).
    by rewrite (slot_value_fits P w p orig Hw Hv).
  - cbn [table set_table]. rewrite (is_hooked_abs _ _ Hwf3), Habs3, Hh. by rewrite bool_decide_eq_false_2; [|intros []].
  - intros b. cbn [table set_table]. by rewrite <- !lookup_abs, Habs3.
Qed.

Lemma unsafe_patch_unwritable w p v s : world_ok w -> store_fault (mem w) p (word_size P) = Some s ->
  (forall o page, exists e o', mprotect P o page true = (Some e, o')) -> (forall o, fst (calloc P o) = true) ->
  exists w', unsafe_patch_relocation_address P w p v = Ret (5, w').
Proof.
  intros [_ _ [l Hd] Hs Hf _] Hst Hpr Hc. unfold unsafe_patch_relocation_address, write_word.
  pose proof (Hc (os w)) as Ho. destruct (calloc P (os w)) as [ok o]. cbn in Ho. subst ok. rewrite (po_kept P HP).
  destruct (sig_safe_write_ok (other_handlers P) (fault_handler_address P) (handler_data_address P) (gettid P)
    (word_size P) p v (mem w) (errno w) (sigs w) l true Hd Hs Hf) as (m' & g' & -> & _ & _ & _).
  cbn [negb]. rewrite Hst, !bind_Ret. cbn [errno]. rewrite Z.eqb_refl. cbn [negb andb Z.eqb].
  unfold mprotect_page. destruct (Hpr (os (mkWorld (enabled w) (table w) (code w) m' g' (libs w) EFAULT o)) (PAGE_ALIGN P p))
    as (e & o' & ->). by eexists.
Qed.

(** C32: When the slot of a new hook cannot be made writable, the result is 5 and
    the slot is as it was; but the table has the hook, so the next attempt
    reports success, and the slot still holds the original function. *)
Theorem failed_patch_stays_hooked w p spec spec2 orig s :
  world_ok w -> next_id (table w) < 2 ^ 32 - 2 ->
  (forall o, exists page o', map_page P o = (Some page, true, o')) ->
  (forall o page, exists e o', mprotect P o page true = (Some e, o')) -> (forall o, fst (calloc P o) = true) ->
  is_hooked (table w) p = false -> slot_value P w p = Ret orig ->
  store_fault (mem w) p (word_size P) = Some s ->
  p <> 0 -> orig <> 0 -> hook_fn spec <> 0 -> hook_fn spec2 <> 0 ->
  exists w1 w2, patch_relocation_address_for_hook P w p spec = Ret (5, w1) /\
    slot_value P w1 p = Ret orig /\ is_hooked (table w1) p = true /\
    patch_relocation_address_for_hook P w1 p spec2 = Ret (0, w2) /\ slot_value P w2 p = Ret orig.
Proof.
  intros Hw Hn Hm Hpr Hc Hh Hv Hs Hp Ho Hf Hf2.
  destruct (patch_new w p spec orig Hw ltac:(lia) Hm Hh Hv Hp Ho Hf)
    as (t & i & rc & w0 & w1 & E1 & Eu & Hw0 & Hm0 & Hw1 & _ & Hr & _ & _ & Habs & Hid).
  destruct (unsafe_patch_unwritable w0 p t s Hw0 ltac:(by rewrite Hm0) Hpr Hc) as (w1' & Eu').
  assert (rc = 5) as -> by congruence. clear w1' Eu'.
  assert (slot_value P w1 p = Ret orig) as Hv1 by (rewrite (slot_value_wrote_fail P w w1 p t 5); done).
  assert (abs (table w1) !! p = Some [orig; hook_fn spec]) as Hl by (by rewrite Habs, lookup_insert_eq).
  destruct (patch_again w1 p spec2 orig _ Hw1 ltac:(lia) Hl Hv1) as (rc2 & t2 & E2 & _ & _ & _ & Hrc).
  assert (rc2 = 0) as -> by (by apply Hrc). exists w1, (set_table w1 t2).
  split; [done|]. split; [done|]. split; [by rewrite (is_hooked_abs _ _ (wo_table _ Hw1)), bool_decide_eq_true_2|].
  by split.
Qed.

(** * All the slots of a symbol *)

(** The run list of [q] ends in [f]. *)
Definition hooked_last (t : Globals) (q f : Z) : Prop := exists l, run_list t q = Some (l ++ [f]).

Lemma hooked_last_abs t q f : hooked_last t q f <-> exists l, abs t !! q = Some (l ++ [f]).
Proof. unfold hooked_last. by rewrite lookup_abs. Qed.

(** What adding [f] somewhere may do to the table. *)
Definition grows (t t' : gmap Z (list Z)) (f : Z) : Prop :=
  forall q l, t !! q = Some l -> t' !! q = Some l \/ t' !! q = Some (l ++ [f]).

Lemma grows_last g g' q f : grows (abs g) (abs g') f -> hooked_last g q f -> hooked_last g' q f.
Proof.
  rewrite !hooked_last_abs. intros Hg [l Hl].
  destruct (Hg _ _ Hl) as [-> | ->]; by eexists.
Qed.

Lemma grows_insert (t : gmap Z (list Z)) p f l : t !! p = Some l \/ t !! p = None -> grows t (<[p := l ++ [f]]> t) f.
Proof.
  intros Hp q l' Hl. destruct (decide (p = q)) as [<-|Hne]; [|left; by rewrite lookup_insert_ne].
  rewrite lookup_insert_eq. destruct Hp as [Hp|Hp]; [right|]; congruence.
Qed.

(** Whatever the result of a patch that returns. *)
Lemma patch_step w p spec rc w' : world_ok w -> next_id (table w) < 2 ^ 32 - 1 ->
  patch_relocation_address_for_hook P w p spec = Ret (rc, w') ->
  world_ok w' /\ next_id (table w') <= next_id (table w) + 1 /\
  grows (abs (table w)) (abs (table w')) (hook_fn spec) /\
  (rc = 0 -> hooked_last (table w') p (hook_fn spec)).
Proof.
  intros Hw Hn E. unfold patch_relocation_address_for_hook in E. rewrite hooked_last_abs.
  rewrite (is_hooked_abs _ _ (wo_table _ Hw)) in E.
  destruct (slot_value P w p) as [v|]; [|by destruct (bool_decide _)]. rewrite !bind_Ret in E.
  destruct (add_implements (table w) (mkHookInfo 0 p (hook_fn spec) v) (wo_table _ Hw) Hn) as (info & t1 & H).
  unfold spec_add in H. cbn [previous_function new_function got_address] in H.
  assert (grows (abs (table w)) (abs (table w)) (hook_fn spec)) as Hsame by (by left).
  destruct ((v =? 0) || (hook_fn spec =? 0) || (p =? 0)).
  { destruct H as (Ea & _ & Hwf1 & Habs & Hid & _). rewrite Ea, !bind_Ret in E.
    assert (rc = 1 /\ w' = set_table w t1) as [-> ->] by (destruct (bool_decide _); by injection E as <- <-).
    split; [by apply set_table_ok|]. cbn [table set_table]. rewrite Habs. split; [lia|]. by split. }
  destruct (abs (table w) !! p) as [l|] eqn:Hl; destruct H as (Ea & _ & Hwf1 & Habs & Hid & _);
    rewrite Ea, !bind_Ret in E.
  - rewrite bool_decide_eq_true_2 in E by done. injection E as <- <-.
    split; [by apply set_table_ok|]. cbn [table set_table]. rewrite Habs. split; [lia|].
    split; [by apply grows_insert; left|]. intros _. exists l. by rewrite lookup_insert_eq.
  - rewrite bool_decide_eq_false_2 in E by (by intros []). rewrite bool_decide_eq_false_2 in E by (by intros []).
    apply bind_Ret_inv in E as ([t w0] & E0 & E).
    destruct (new_trampoline_ok P HP _ _ _ _ (set_table_ok _ _ Hw Hwf1) E0) as (Hw0 & _ & Ht & _).
    destruct (unsafe_patch_ok P HP w0 p t Hw0) as (rc' & w1 & E1 & Hw1 & [Ht1 _ _] & _).
    rewrite E1 in E. injection E as <- <-. split; [done|]. rewrite Ht1, Ht. cbn [table set_table].
    rewrite Habs. split; [lia|]. change [v; hook_fn spec] with ([v] ++ [hook_fn spec]).
    split; [by apply grows_insert; right|]. intros _. exists [v]. by rewrite lookup_insert_eq.
Qed.

(** Each slot of the loop counts once, as hooked or as a failure; when there is
    no failure, every slot's run list ends in the hook. *)
Lemma hook_slots_ok slots : forall spec failures w failures' spec' w', world_ok w ->
  next_id (table w) + Z.of_nat (length slots) < 2 ^ 32 ->
  hook_slots P slots spec failures w = Ret (failures', spec', w') ->
  world_ok w' /\ next_id (table w') <= next_id (table w) + Z.of_nat (length slots) /\
  failures <= failures' /\ hook_result spec <= hook_result spec' /\
  (failures' - failures) + (hook_result spec' - hook_result spec) = Z.of_nat (length slots) /\
  (forall q, hooked_last (table w) q (hook_fn spec) -> hooked_last (table w') q (hook_fn spec)) /\
  (failures' = failures -> forall q, In q slots -> hooked_last (table w') q (hook_fn spec)).
Proof.
  induction slots as [|p slots IH]; intros spec failures w failures' spec' w' Hw Hn E.
  { injection E as <- <- <-. split; [done|]. split; [cbn; lia|]. split; [lia|]. split; [lia|].
    split; [cbn; lia|]. split; [done|]. by intros _ q []. }
  cbn [hook_slots length] in *. apply bind_Ret_inv in E as (ok & _ & E). destruct ok; cbn [negb] in E.
  - apply bind_Ret_inv in E as ([rc w1] & E1 & E).
    destruct (patch_step w p spec rc w1 Hw ltac:(lia) E1) as (Hw1 & Hid & Hg & Hrc).
    destruct (Z.eqb_spec rc 0) as [->|Hne].
    + destruct (IH _ _ _ _ _ _ Hw1 ltac:(lia) E) as (Hw' & Hid' & Hf & Hr & Hsum & Hkeep & Hall).
      cbn [counted hook_result hook_fn] in *. split; [done|]. split; [lia|]. split; [lia|]. split; [lia|]. split; [lia|].
      split; [intros q Hq; by apply Hkeep, (grows_last _ _ _ _ Hg)|].
      intros Hz q [<-|Hq]; [by apply Hkeep, Hrc|by apply Hall].
    + destruct (IH _ _ _ _ _ _ Hw1 ltac:(lia) E) as (Hw' & Hid' & Hf & Hr & Hsum & Hkeep & Hall).
      split; [done|]. split; [lia|]. split; [lia|]. split; [lia|]. split; [lia|].
      split; [intros q Hq; by apply Hkeep, (grows_last _ _ _ _ Hg)|lia].
  - destruct (IH _ _ _ _ _ _ Hw ltac:(lia) E) as (Hw' & Hid' & Hf & Hr & Hsum & Hkeep & Hall).
    split; [done|]. split; [lia|]. split; [lia|]. split; [lia|]. split; [lia|]. split; [done|lia].
Qed.

(** Slots that are hooked: the hook goes to the end of each run list, once more
    for each time a slot is listed. *)
Definition appended (f : Z) (slots : list Z) (m : gmap Z (list Z)) : gmap Z (list Z) :=
  foldl (fun m p => alter (fun l => l ++ [f]) p m) m slots.

Lemma appended_lookup f slots : forall m p, appended f slots m !! p =
  (fun l => l ++ replicate (count_occ Z.eq_dec slots p) f) <$> m !! p.
Proof.
  induction slots as [|q slots IH]; intros m p; cbn [appended foldl count_occ].
  { cbn. destruct (m !! p); cbn; [by rewrite app_nil_r|done]. }
  change (foldl ?g ?a slots) with (appended f slots a). rewrite IH. destruct (Z.eq_dec q p) as [->|Hne].
  - rewrite lookup_alter_eq. destruct (m !! p) as [l|]; cbn; [by rewrite <- app_assoc|done].
  - by rewrite lookup_alter_ne.
Qed.

(** A slot that was hooked and can still be read. *)
Definition live_slot w p : Prop := is_Some (abs (table w) !! p) /\ exists v, slot_value P w p = Ret v /\ v <> 0.

Lemma hook_slots_again slots : forall spec failures w, world_ok w -> next_id (table w) < 2 ^ 32 - 1 ->
  hook_fn spec <> 0 -> Forall (live_slot w) slots ->
  exists t, hook_slots P slots spec failures w =
      Ret (failures, mkSpec (fn_name spec) (hook_fn spec) (hook_result spec + Z.of_nat (length slots)), set_table w t) /\
    Hooks.wf t /\ next_id t = next_id (table w) /\ abs t = appended (hook_fn spec) slots (abs (table w)).
Proof.
  induction slots as [|p slots IH]; intros spec failures w Hw Hn Hf Hl.
  { exists (table w). rewrite Z.add_0_r. destruct w, spec. split; [done|]. split; [apply (wo_table _ Hw)|]. done. }
  apply Forall_cons in Hl as [[[l Hl] (v & Hv & Hz)] Hs]. cbn [hook_slots].
  unfold verify_got_entry_for_spec. rewrite (is_hooked_abs _ _ (wo_table _ Hw)), bool_decide_eq_true_2 by (by exists l).
  rewrite bind_Ret. cbn [negb].
  destruct (patch_again w p spec v l Hw Hn Hl Hv) as (rc & t & -> & Hwf & Hid & Habs & Hrc).
  assert (rc = 0) as -> by (by apply Hrc). cbn in Habs. rewrite bind_Ret. cbn [Z.eqb].
  destruct (IH (counted spec) failures (set_table w t)) as (t' & E & Hwf' & Hid' & Habs').
  - by apply set_table_ok.
  - cbn. lia.
  - done.
  - eapply Forall_impl; [exact Hs|]. intros q [[lq Hq] Hvq]. split; [|done]. cbn [table set_table]. rewrite Habs.
    destruct (decide (p = q)) as [<-|]; [rewrite lookup_insert_eq|rewrite lookup_insert_ne by done]; by eexists.
  - exists t'. rewrite E. split; [|split; [done|]].
    + by replace (hook_result spec + Z.of_nat (length (p :: slots)))
        with (hook_result spec + 1 + Z.of_nat (length slots)) by (cbn [length]; lia).
    + split; [by rewrite Hid'|]. rewrite Habs'. cbn [table set_table hook_fn counted]. rewrite Habs.
      assert (<[p := l ++ [hook_fn spec]]> (abs (table w)) = alter (fun l => l ++ [hook_fn spec]) p (abs (table w))) as ->;
        [|done].
      apply map_eq. intros q. destruct (decide (p = q)) as [<-|Hne].
      * by rewrite lookup_insert_eq, lookup_alter_eq, Hl.
      * by rewrite lookup_insert_ne, lookup_alter_ne.
Qed.

(** [hook_single_lib] of one specification accounts for every slot that the
    symbol has in the library, and when it reports no failure, they all have
    the hook as the last function of their run list. *)
Theorem hook_single_lib_accounts w libname name hook lib slots f spec w' :
  world_ok w -> next_id (table w) + Z.of_nat (length slots) < 2 ^ 32 -> hook <> 0 ->
  sharedLib (dladdr P) (libs w) libname = Ret lib -> slots_of P w lib name = Ret (Some slots) ->
  hook_single_lib P w libname [mkSpec (Some name) hook 0] = Ret (f, [spec], w') ->
  0 <= f /\ 0 <= hook_result spec /\ f + hook_result spec = Z.of_nat (length slots) /\
  (f = 0 -> forall p, In p slots -> hooked_last (table w') p hook).
Proof.
  intros Hw Hn Hh Hlib Hslots E. unfold hook_single_lib in E. rewrite Hlib in E. cbn [hook_specs fn_name hook_fn] in E.
  destruct (Z.eqb_spec hook 0); [done|]. rewrite Hslots, bind_Ret in E.
  apply bind_Ret_inv in E as ([[f1 s1] w1] & E1 & E). injection E as <- <- <-.
  destruct (hook_slots_ok _ _ _ _ _ _ _ Hw Hn E1) as (_ & _ & Hf & Hr & Hsum & _ & Hall).
  cbn [hook_result hook_fn] in *. split; [lia|]. split; [lia|]. split; [lia|]. done.
Qed.

(** [hook_plt_method] returns 0 only when the symbol has exactly one slot in
    the library and that slot is hooked: with two slots it hooks both and
    reports a failure. *)
Theorem hook_plt_method_one_slot w libname name hook lib slots r w' :
  world_ok w -> next_id (table w) + Z.of_nat (length slots) < 2 ^ 32 -> hook <> 0 ->
  sharedLib (dladdr P) (libs w) libname = Ret lib -> slots_of P w lib name = Ret (Some slots) ->
  hook_plt_method P w libname name hook = Ret (r, w') ->
  (r = 0 -> exists p, slots = [p] /\ hooked_last (table w') p hook) /\ (r = 0 \/ r = 1).
Proof.
  intros Hw Hn Hh Hlib Hslots E. unfold hook_plt_method, hook_single_lib in E. rewrite Hlib in E.
  cbn [hook_specs fn_name hook_fn] in E.
  destruct (Z.eqb_spec hook 0); [done|]. rewrite Hslots, bind_Ret in E.
  apply bind_Ret_inv in E as ([[f1 ss] w1] & E1 & E). apply bind_Ret_inv in E1 as ([[f2 s2] w2] & E2 & E1).
  injection E1 as <- <- <-. injection E as <- <-.
  destruct (hook_slots_ok _ _ _ _ _ _ _ Hw Hn E2) as (_ & _ & Hf & Hr & Hsum & _ & Hall).
  cbn [hook_result hook_fn] in *. destruct (Z.eqb_spec f2 0) as [->|]; cbn [andb]; [|by split; [|right]].
  destruct (Z.eqb_spec (hook_result s2) 1) as [E1|]; [|by split; [|right]]. split; [|by left]. intros _.
  destruct slots as [|p [|]]; cbn [length] in Hsum; [lia| |lia]. exists p. split; [done|]. apply Hall; [done|by left].
Qed.

(** * Relocations of a symbol *)

(** [get_relocations] looks the library up under the name of the symbol: it
    fails for every symbol whose name is not the name of a library. *)
Theorem get_relocations_wrong_name w sym len info :
  keys_ok (libs w) ->
  dladdr P sym = Some info -> ends_with (basename (from_option id [dot] (dli_sname info))) dot_so = false ->
  get_relocations P w sym len = Ret (-1, [], set_errno w ENODATA).
Proof.
  intros Hk Hd Hn. unfold get_relocations. rewrite Hd. unfold sharedLib.
  destruct (libs w !! basename (from_option id [dot] (dli_sname info))) as [l|] eqn:El; [|done].
  destruct (Hk (basename (from_option id [dot] (dli_sname info)))) as [_ Hso]; [by exists l|]. by rewrite Hso in Hn.
Qed.
End Patch.

(** * Initialisation *)

Section Initialise.
Context {K OS : Type} (P : platform K OS).
Implicit Type w : world K OS.

(** The invariant before the signals are seized. *)
Record world_ready w : Prop := {
  wr_table : Hooks.wf (table w);
  wr_blocks : Forall block_ok (code w).2;
  wr_sigs : exists l, dll (handlers (sigs w)) l;
  wr_global : global_ok (sigs w);
  wr_faults : forall a s, write_fault (mem w) a = Some s -> s = SIGSEGV \/ s = SIGBUS;
  wr_bytes : forall a b, byte_at (mem w) a = Some b -> 0 <= b < 256;
}.

Lemma init_signal_ok w s : world_ready w -> exists r w', init_signal P w s = Ret (r, w') /\
  world_ready w' /\ table w' = table w /\ code w' = code w /\ mem w' = mem w /\ libs w' = libs w /\
  (forall j, sigmux_sigismember (initsig (sigs w)) j = Ret 1 -> sigmux_sigismember (initsig (sigs w')) j = Ret 1) /\
  (r = 0 -> sigmux_sigismember (initsig (sigs w')) s = Ret 1).
Proof.
  intros [Hwf Hb [l Hd] Hg Hf Hby]. unfold init_signal.
  destruct (calloc P (os w)) as [ok1 o1]. destruct (calloc P o1) as [ok2 o2].
  destruct (sigmux_init_ok (call_sigaction P) (handle_signal_1 P) ok1 ok2 s (sigs w) Hg)
    as (r & g & -> & Hg' & Hh & _ & Hr). rewrite bind_Ret. do 2 eexists. split; [done|].
  split; [split; cbn [table code sigs mem set_sigs set_os]; [done|done|by exists l; rewrite Hh|done..]|].
  do 4 (split; [done|]). cbn [sigs set_sigs].
  destruct Hr as [[-> Hi]|(-> & Hs & [[Hin Hc]|(_ & old & Hseized)])].
  - split; [by rewrite Hi|done].
  - assert (initsig g = initsig (sigs w)) as Hi by (by destruct Hc as [-> | ->]).
    rewrite Hi. split; [done|]. intros _. by apply initialised_ismember.
  - split.
    + intros j Hj. rewrite (seized_member _ _ _ _ _ _ Hseized). by destruct (decide _).
    + intros _. by rewrite (seized_member _ _ _ _ _ _ Hseized), decide_True.
Qed.

(** After [linker_initialize] has returned 0, the invariant of the linker holds:
    both faults are seized, so a write to a slot cannot kill the process. A
    disabled linker does nothing and says 1. *)
Theorem linker_initialize_ready w system r w' : world_ready w ->
  linker_initialize P w system = Ret (r, w') ->
  (r = 0 -> world_ok w' /\ table w' = table w /\ mem w' = mem w) /\
  (enabled w = false -> r = 1 /\ w' = w).
Proof.
  intros Hw. unfold linker_initialize. destruct (enabled w); cbn [negb]; [|by intros [= <- <-]].
  intros E. split; [|done]. intros ->.
  destruct (init_signal_ok w SIGSEGV Hw) as (r1 & w1 & E1 & Hw1 & Ht1 & _ & Hm1 & _ & _ & H1).
  rewrite E1, bind_Ret in E. destruct (Z.eqb_spec r1 0) as [->|]; cbn [negb] in E; [|done].
  destruct (init_signal_ok w1 SIGBUS Hw1) as (r2 & w2 & E2 & Hw2 & Ht2 & _ & Hm2 & _ & Hk2 & H2).
  rewrite E2, bind_Ret in E. destruct (Z.eqb_spec r2 0) as [->|]; cbn [negb] in E; [|done].
  unfold refresh in E. apply bind_Ret_inv in E as ([r3 l] & _ & [= _ <-]). cbn [table mem set_libs].
  split; [|by split; congruence]. destruct Hw2. split; cbn [table code sigs mem set_libs]; try done.
  split; [by apply Hk2, H1|by apply H2].
Qed.
End Initialise.

(** ** Witnesses

    The library of ElfLib.v, whose symbol [b] has its slot at 0x2000; the slot
    is writable, the image is not. *)
Abbreviation sample_kernel := (gmap Z sigaction).

(** [unprotect] is the errno of an mprotect that asks for write access. *)
Definition sample_platform (unprotect : option Z) : platform sample_kernel unit :=
  mkPlatform I386 4096 (fun _ => Some (mkDlInfo [] (Some [98]) 0))
    (fun o => (true, o)) (fun o => (Some 0x40000, true, o))
    (fun o _ writable => (if writable : bool then unprotect else None, o))
    [0x55; 0x89; 0xe5] 0x8000 0x9000 (fun _ _ _ => SIGMUX_CONTINUE_SEARCH) 0x3000 0x4000 7 true
    table_sigaction 0x1000 4 26.

Definition slot_memory (fault : option Z) : memory :=
  mkMemory (fun a => if (0x2000 <=? a) && (a <? 0x2004) then le_bytes 4 0x7000 !! Z.to_nat (a - 0x2000)
                     else sample_mem a)
           (fun a => if 0x2000 <=? a then fault else Some SIGSEGV).

Definition sample_world (g : sigmux_global sample_kernel) (fault : option Z) : world sample_kernel unit :=
  mkWorld true getGlobals ([], []) (slot_memory fault) g {[ [98; 46; 115; 111] := sample_lib ]} 0 tt.

Lemma sample_platform_ok e : platform_ok (sample_platform e).
Proof.
  split; [done| |done|by vm_compute]. intros [] page ok [] [= <- _]. split; [lia|done].
Qed.

Lemma sample_pages e o : exists page o', map_page (sample_platform e) o = (Some page, true, o').
Proof. by do 2 eexists. Qed.

Lemma slot_memory_bytes fault a b : byte_at (slot_memory fault) a = Some b -> 0 <= b < 256.
Proof.
  cbn [byte_at slot_memory]. destruct (_ && _); [apply le_bytes_bound|]. unfold sample_mem.
  destruct (0x1000 <=? a); [|done]. intros H.
  assert (Forall (fun b => 0 <= b < 256) sample_image) as Hf.
  { apply (bool_decide_unpack _). vm_compute. exact I. }
  rewrite Forall_lookup in Hf. by eapply Hf.
Qed.

Lemma slot_memory_faults fault a s : fault = None \/ fault = Some SIGSEGV ->
  write_fault (slot_memory fault) a = Some s -> s = SIGSEGV \/ s = SIGBUS.
Proof. intros Hf. cbn. destruct (_ <=? _); [destruct Hf as [-> | ->]|]; [done|..]; intros [= <-]; by left. Qed.

Lemma sample_world_ok fault : fault = None \/ fault = Some SIGSEGV -> world_ok (sample_world seized_global fault).
Proof.
  intros Hf. destruct seized_global_ok as (n & Hd & Hs).
  split; [apply wf_init|constructor|by exists [n]|done| |apply slot_memory_bytes].
  intros a s. by apply slot_memory_faults.
Qed.

Lemma fmap_fst_inv {A B} (m : res (A * B)) a : fst <$> m = Ret a -> exists b, m = Ret (a, b).
Proof. destruct m as [[a' b]|f]; cbn; [|done]. intros [= ->]. by exists b. Qed.

Definition writable_world : world sample_kernel unit := sample_world seized_global None.
Definition sample_spec : plt_hook_spec := mkSpec (Some [98]) 0x51 0.

Definition hooked_world : world sample_kernel unit :=
  match patch_relocation_address_for_hook (sample_platform None) writable_world 0x2000 sample_spec with
  | Ret (_, w) => w
  | Fault _ => writable_world
  end.

Lemma hook_unhook_restores_witness :
  slot_value (sample_platform None) hooked_world 0x2000 = Ret 0x40000 /\
  exists w2, unhook_slot (sample_platform None) hooked_world 0x2000 sample_spec 0 = Ret (0, counted sample_spec, w2) /\
    slot_value (sample_platform None) w2 0x2000 = Ret 0x7000.
Proof.
  split; [vm_compute; reflexivity|].
  assert (patch_relocation_address_for_hook (sample_platform None) writable_world 0x2000 sample_spec =
    Ret (0, hooked_world)) as E.
  { destruct (fmap_fst_inv (patch_relocation_address_for_hook (sample_platform None) writable_world 0x2000 sample_spec) 0)
      as [w E]; [vm_compute; reflexivity|]. unfold hooked_world. by rewrite E. }
  destruct (hook_unhook_restores (sample_platform None) (sample_platform_ok None) writable_world
    0x2000 sample_spec 0x7000 0 (sample_world_ok None (or_introl eq_refl)))
    as (rc & w1 & E1 & H); [cbn; lia|apply sample_pages|split; vm_compute; discriminate|reflexivity
    |vm_compute; reflexivity|done|done|done|done|].
  rewrite E in E1. apply Ret_inj, pair_equal_spec in E1 as [<- <-].
  destruct (H eq_refl) as (t & i & _ & _ & _ & [Hu|(w2 & Hu & Hv2 & _)]).
  - assert (fst <$> unhook_slot (sample_platform None) hooked_world 0x2000 sample_spec 0 = Ret (0, counted sample_spec))
      as Eu by (vm_compute; reflexivity). by rewrite Hu in Eu.
  - exists w2. split; [exact Hu|exact Hv2].
Defined.

Definition locked_world : world sample_kernel unit := sample_world seized_global (Some SIGSEGV).

Lemma failed_patch_stays_hooked_witness :
  exists w1 w2, patch_relocation_address_for_hook (sample_platform (Some 13)) locked_world 0x2000 sample_spec = Ret (5, w1) /\
    patch_relocation_address_for_hook (sample_platform (Some 13)) w1 0x2000 sample_spec = Ret (0, w2) /\
    slot_value (sample_platform (Some 13)) w2 0x2000 = Ret 0x7000.
Proof.
  destruct (failed_patch_stays_hooked (sample_platform (Some 13)) (sample_platform_ok _) locked_world 0x2000
    sample_spec sample_spec 0x7000 SIGSEGV (sample_world_ok _ (or_intror eq_refl)))
    as (w1 & w2 & E1 & _ & _ & E2 & Hv); [cbn; lia|apply sample_pages|by do 2 eexists|done|reflexivity
    |vm_compute; reflexivity|vm_compute; reflexivity|done..|].
  exists w1, w2. split; [exact E1|]. split; [exact E2|exact Hv].
Defined.

Lemma hook_single_lib_accounts_witness : exists spec w,
  hook_single_lib (sample_platform None) writable_world [98; 46; 115; 111] [sample_spec] = Ret (0, [spec], w) /\
  hook_result spec = 1 /\ hooked_last (table w) 0x2000 0x51.
Proof.
  destruct (fmap_fst_inv (hook_single_lib (sample_platform None) writable_world [98; 46; 115; 111] [sample_spec])
    (0, [counted sample_spec])) as [w E]; [vm_compute; reflexivity|].
  exists (counted sample_spec), w. split; [exact E|]. split; [done|].
  destruct (hook_single_lib_accounts (sample_platform None) (sample_platform_ok None) writable_world
    [98; 46; 115; 111] [98] 0x51 sample_lib [0x2000] 0 (counted sample_spec) w
    (sample_world_ok None (or_introl eq_refl))) as (_ & _ & _ & H);
    [vm_compute; reflexivity|done|vm_compute; reflexivity|vm_compute; reflexivity|exact E|].
  apply (H eq_refl). by left.
Defined.

Lemma hook_plt_method_one_slot_witness : exists w,
  hook_plt_method (sample_platform None) writable_world [98; 46; 115; 111] [98] 0x51 = Ret (0, w) /\
  hooked_last (table w) 0x2000 0x51.
Proof.
  destruct (fmap_fst_inv (hook_plt_method (sample_platform None) writable_world [98; 46; 115; 111] [98] 0x51) 0)
    as [w E]; [vm_compute; reflexivity|].
  exists w. split; [exact E|].
  destruct (hook_plt_method_one_slot (sample_platform None) (sample_platform_ok None) writable_world
    [98; 46; 115; 111] [98] 0x51 sample_lib [0x2000] 0 w
    (sample_world_ok None (or_introl eq_refl))) as [H _];
    [vm_compute; reflexivity|done|vm_compute; reflexivity|vm_compute; reflexivity|exact E|].
  destruct (H eq_refl) as (p & [= <-] & Hp). exact Hp.
Defined.

Lemma get_relocations_wrong_name_witness :
  get_relocations (sample_platform None) writable_world 0x7000 10 = Ret (-1, [], set_errno writable_world ENODATA).
Proof.
  apply (get_relocations_wrong_name (sample_platform None) writable_world 0x7000 10 (mkDlInfo [] (Some [98]) 0)).
  - intros k. cbn [libs writable_world sample_world]. intros [l [<- _]%lookup_singleton_Some].
    split; vm_compute; reflexivity.
  - reflexivity.
  - vm_compute. reflexivity.
Defined.

Lemma sample_world_ready : world_ready (sample_world fresh_global None).
Proof.
  split; [apply wf_init|constructor|exists []; apply fresh_dll|apply initial_ok| |apply slot_memory_bytes].
  intros a s. by apply slot_memory_faults; left.
Qed.

Lemma linker_initialize_ready_witness : exists w,
  linker_initialize (sample_platform None) (sample_world fresh_global None) (mkLoaded (Some []) None) = Ret (0, w) /\
  world_ok w.
Proof.
  destruct (fmap_fst_inv (linker_initialize (sample_platform None) (sample_world fresh_global None)
    (mkLoaded (Some []) None)) 0) as [w E]; [vm_compute; reflexivity|].
  exists w. split; [exact E|].
  apply (proj1 (linker_initialize_ready (sample_platform None) _ _ 0 w sample_world_ready E) eq_refl).
Defined.
