(* ===== verification/Utf8.v ===== *)
(** Conversions between UTF-8, the modified UTF-8 of JNI and UTF-16:
    fb/fbjni/detail/utf8.cpp of alloctrack.

    Strings are lists of bytes, or of 16-bit units, and the functions recurse
    on what is left of the input; the output is a buffer of its own length, and
    a write past its end is a fault. FBJNI_LOGF ends the process. *)
From S2P Require Import Prelude.

Definition kUtf8OneByteBoundary : Z := 0x80.
Definition kUtf8TwoBytesBoundary : Z := 0x800.
Definition kUtf16HighSubLowBoundary : Z := 0xD800.
Definition kUtf16HighSubHighBoundary : Z := 0xDC00.
Definition kUtf16LowSubHighBoundary : Z := 0xE000.

(** * Encoding one code *)

Definition encode3ByteUTF8 (code : Z) : res (list Z) :=
  if negb (Z.land code 0xffff0000 =? 0) then Fault Aborted
  else
    Ret [u8 (Z.lor 0xE0 (Z.shiftr code 12)); Z.lor 0x80 (Z.land (Z.shiftr code 6) 0x3F);
         Z.lor 0x80 (Z.land code 0x3F)].

Definition decode3ByteUTF8 (b0 b1 b2 : Z) : Z :=
  Z.lor (Z.lor (Z.shiftl (Z.land b0 0x0f) 12) (Z.shiftl (Z.land b1 0x3f) 6)) (Z.land b2 0x3f).

Definition encode4ByteUTF8 (code : Z) : res (list Z) :=
  if negb (Z.land code 0xfff80000 =? 0) then Fault Aborted
  else
    Ret [u8 (Z.lor 0xF0 (Z.shiftr code 18)); Z.lor 0x80 (Z.land (Z.shiftr code 12) 0x3F);
         Z.lor 0x80 (Z.land (Z.shiftr code 6) 0x3F); Z.lor 0x80 (Z.land code 0x3F)].

Definition isFourByteUTF8Encoding (b : Z) : bool := Z.land b 0xF8 =? 0xF0.

(** * From UTF-8 to modified UTF-8 *)

(** For a [std::string]. *)
Fixpoint modifiedLength (str : list Z) : nat :=
  match str with
  | [] => 0
  | b :: t =>
      if b =? 0 then 2 + modifiedLength t
      else
        match t with
        | _ :: _ :: _ :: t4 => if negb (isFourByteUTF8Encoding b) then 1 + modifiedLength t else 6 + modifiedLength t4
        | _ => 1 + modifiedLength t
        end
  end.

(** For a string in memory up to its zero: the length, and that of the string. *)
Fixpoint modifiedLength_z (str : list Z) : res (nat * nat) :=
  match str with
  | [] => Fault OutOfBounds
  | b :: t =>
      if b =? 0 then Ret (0%nat, 0%nat)
      else
        let one := '(j, i) ← modifiedLength_z t; Ret (1 + j, 1 + i)%nat in
        match t with
        | [] => Fault OutOfBounds
        | b1 :: t2 =>
            if b1 =? 0 then one
            else
              match t2 with
              | [] => Fault OutOfBounds
              | b2 :: t3 =>
                  if b2 =? 0 then one
                  else
                    match t3 with
                    | [] => Fault OutOfBounds
                    | b3 :: t4 =>
                        if (b3 =? 0) || negb (isFourByteUTF8Encoding b) then one
                        else '(j, i) ← modifiedLength_z t4; Ret (6 + j, 4 + i)%nat
                    end
              end
        end
  end.

(** The code of four bytes. *)
Definition decode4 (b0 b1 b2 b3 : Z) : Z :=
  Z.lor (Z.lor (Z.lor (Z.shiftl (Z.land b0 0x07) 18) (Z.shiftl (Z.land b1 0x3f) 12))
               (Z.shiftl (Z.land b2 0x3f) 6)) (Z.land b3 0x3f).

(** The two codes that stand for it; unsigned arithmetic. *)
Definition surrogates (code : Z) : Z * Z :=
  if 0x10ffff <? code then (0xfffd, 0xfffd)
  else (Z.lor (Z.shiftr (u32 (code - 0x010000)) 10) 0xd800, Z.lor (Z.land (u32 (code - 0x010000)) 0x3ff) 0xdc00).

(** The loop, at position [j] of the buffer. *)
Fixpoint to_modified (utf8 modified : list Z) (modifiedBufLen j : nat) : res (list Z) :=
  match utf8 with
  | [] => if (modifiedBufLen <=? j)%nat then Fault Aborted else store modified j [0]
  | b :: t =>
      if (modifiedBufLen <=? j)%nat then Fault Aborted
      else if b =? 0 then
        if (modifiedBufLen <=? j + 1)%nat then Fault Aborted
        else modified ← store modified j [0xc0; 0x80]; to_modified t modified modifiedBufLen (j + 2)
      else
        let copy := modified ← store modified j [b]; to_modified t modified modifiedBufLen (j + 1) in
        match t with
        | b1 :: b2 :: b3 :: t4 =>
            if negb (isFourByteUTF8Encoding b) then copy
            else
              let '(first, second) := surrogates (decode4 b b1 b2 b3) in
              if (modifiedBufLen <=? j + 5)%nat then Fault Aborted
              else
                l1 ← encode3ByteUTF8 first;
                modified ← store modified j l1;
                l2 ← encode3ByteUTF8 second;
                modified ← store modified (j + 3) l2;
                to_modified t4 modified modifiedBufLen (j + 6)
        | _ => copy
        end
  end.

Definition utf8ToModifiedUTF8 (utf8 modified : list Z) (modifiedBufLen : nat) : res (list Z) :=
  to_modified utf8 modified modifiedBufLen 0.

(** * From modified UTF-8 to UTF-8 *)

Fixpoint from_modified (modified utf8 : list Z) (j : nat) : res (list Z) :=
  match modified with
  | [] => Ret (take j utf8)
  | m0 :: t =>
      let copy := utf8 ← store utf8 j [m0]; from_modified t utf8 (j + 1) in
      let null_or_copy :=
        match t with
        | m1 :: t2 =>
            if (m0 =? 0xc0) && (m1 =? 0x80) then utf8 ← store utf8 j [0]; from_modified t2 utf8 (j + 1) else copy
        | [] => copy
        end in
      match t with
      | m1 :: m2 :: m3 :: m4 :: m5 :: t6 =>
          if (m0 =? 0xed) && (Z.land m1 0xf0 =? 0xa0) && (m3 =? 0xed) && (Z.land m4 0xf0 =? 0xb0) then
            let pair1 := decode3ByteUTF8 m0 m1 m2 in
            let pair2 := decode3ByteUTF8 m3 m4 m5 in
            let ch := 0x10000 + Z.lor (Z.shiftl (Z.land pair1 0x3ff) 10) (Z.land pair2 0x3ff) in
            l ← encode4ByteUTF8 ch;
            utf8 ← store utf8 j l;
            from_modified t6 utf8 (j + 4)
          else null_or_copy
      | _ => null_or_copy
      end
  end.

Definition modifiedUTF8ToUTF8 (modified : list Z) : res (list Z) :=
  from_modified modified (replicate (length modified) 0) 0.

(** * From UTF-16 to UTF-8 *)

(** The test for a surrogate pair. *)
Definition is_pair (ch ch2 : Z) : bool :=
  (kUtf16HighSubLowBoundary <=? ch) && (ch <? kUtf16HighSubHighBoundary) &&
  (kUtf16HighSubHighBoundary <=? ch2) && (ch2 <? kUtf16LowSubHighBoundary).

(** The loop; the length is a [uint32_t]. *)
Fixpoint utf16_length (s : list Z) (utf8StringLen : Z) : Z :=
  match s with
  | [] => utf8StringLen
  | ch :: t =>
      if ch <? kUtf8OneByteBoundary then utf16_length t (u32 (utf8StringLen + 1))
      else if ch <? kUtf8TwoBytesBoundary then utf16_length t (u32 (utf8StringLen + 2))
      else
        match t with
        | ch2 :: t2 =>
            if is_pair ch ch2 then utf16_length t2 (u32 (utf8StringLen + 4))
            else utf16_length t (u32 (utf8StringLen + 3))
        | [] => utf16_length t (u32 (utf8StringLen + 3))
        end
  end.

(** [None] is the null pointer. *)
Definition utf16toUTF8Length (utf16String : option (list Z)) : Z :=
  match utf16String with None | Some [] => 0 | Some s => utf16_length s 0 end.

Definition two_bytes (ch : Z) : list Z :=
  [u8 (Z.lor 0xC0 (Z.shiftr ch 6)); Z.lor 0x80 (Z.land ch 0x3F)].

Definition three_bytes (ch : Z) : list Z :=
  [u8 (Z.lor 0xE0 (Z.shiftr ch 12)); Z.lor 0x80 (Z.land (Z.shiftr ch 6) 0x3F); Z.lor 0x80 (Z.land ch 0x3F)].

Definition four_bytes (ch ch2 : Z) : list Z :=
  let trunc_byte := Z.land (Z.shiftr ch 6) 0x0F + 1 in
  [Z.lor 0xF0 (Z.shiftr trunc_byte 2);
   Z.lor (Z.lor 0x80 (Z.shiftl (Z.land trunc_byte 0x03) 4)) (Z.land (Z.shiftr ch 2) 0x0F);
   Z.lor (Z.lor 0x80 (Z.shiftl (Z.land ch 0x03) 4)) (Z.land (Z.shiftr ch2 6) 0x0F);
   Z.lor 0x80 (Z.land ch2 0x3F)].

Fixpoint utf16_loop (s utf8String : list Z) (idx8 : nat) : res (list Z) :=
  match s with
  | [] => Ret utf8String
  | ch :: t =>
      if ch <? kUtf8OneByteBoundary then
        utf8String ← store utf8String idx8 [Z.land ch 0x7F]; utf16_loop t utf8String (idx8 + 1)
      else if ch <? kUtf8TwoBytesBoundary then
        utf8String ← store utf8String idx8 (two_bytes ch); utf16_loop t utf8String (idx8 + 2)
      else
        let three := utf8String ← store utf8String idx8 (three_bytes ch); utf16_loop t utf8String (idx8 + 3) in
        match t with
        | ch2 :: t2 =>
            if is_pair ch ch2 then
              utf8String ← store utf8String idx8 (four_bytes ch ch2); utf16_loop t2 utf8String (idx8 + 4)
            else three
        | [] => three
        end
  end.

Definition utf16toUTF8 (utf16String : option (list Z)) : res (list Z) :=
  match utf16String with
  | None | Some [] => Ret []
  | Some s => utf16_loop s (replicate (Z.to_nat (utf16toUTF8Length utf16String)) 0) 0
  end.

(** * Standard encodings *)

(** UTF-8 (RFC 3629), for any code up to 0x10FFFF. *)
Definition utf8_encode (c : Z) : list Z :=
  if c <? 0x80 then [c]
  else if c <? 0x800 then [0xC0 + c / 64; 0x80 + c mod 64]
  else if c <? 0x10000 then [0xE0 + c / 4096; 0x80 + c / 64 mod 64; 0x80 + c mod 64]
  else [0xF0 + c / 262144; 0x80 + c / 4096 mod 64; 0x80 + c / 64 mod 64; 0x80 + c mod 64].

Definition high_surrogate (c : Z) : Z := 0xD800 + (c - 0x10000) / 1024.
Definition low_surrogate (c : Z) : Z := 0xDC00 + (c - 0x10000) mod 1024.

(** The modified UTF-8 of Java: zero takes two bytes, and a supplementary code
    is the two encodings of its surrogates. *)
Definition mutf8_encode (c : Z) : list Z :=
  if c =? 0 then [0xC0; 0x80]
  else if c <? 0x10000 then utf8_encode c
  else utf8_encode (high_surrogate c) ++ utf8_encode (low_surrogate c).

(** A Unicode scalar value. *)
Definition scalar (c : Z) : Prop := 0 <= c < 0xD800 \/ 0xE000 <= c < 0x110000.

Definition utf8_of (cs : list Z) : list Z := concat (map utf8_encode cs).
Definition mutf8_of (cs : list Z) : list Z := concat (map mutf8_encode cs).

(** * Bits and arithmetic *)

(** A value below [2 ^ k] has no bit above. *)
Lemma land_high_zero x k m : 0 <= k -> 0 <= x < 2 ^ k -> Z.land x (m * 2 ^ k) = 0.
Proof.
  intros Hk Hx. rewrite <- Z.shiftl_mul_pow2 by done. apply Z.bits_inj'. intros i Hi.
  rewrite Z.land_spec, Z.shiftl_spec, Z.bits_0 by lia.
  destruct (Z.ltb_spec i k); [by rewrite (Z.testbit_neg_r m), andb_false_r by lia|].
  rewrite <- (Z.mod_small x (2 ^ k)) by lia. by rewrite Z.mod_pow2_bits_high by lia.
Qed.

Lemma lor_low hi k x : 0 <= k -> 0 <= x < 2 ^ k -> Z.lor (hi * 2 ^ k) x = hi * 2 ^ k + x.
Proof.
  intros Hk Hx. assert (Z.land (hi * 2 ^ k) x = 0) as E by (rewrite Z.land_comm; by apply land_high_zero).
  rewrite Z.add_nocarry_lxor by done. symmetry. by apply Z.lxor_lor.
Qed.

(** The continuation byte and the lead bytes. *)
Lemma lor_0x80 x : 0 <= x < 64 -> Z.lor 0x80 x = 0x80 + x.
Proof. intros H. by apply (lor_low 2 6). Qed.
Lemma lor_0xC0 x : 0 <= x < 32 -> Z.lor 0xC0 x = 0xC0 + x.
Proof. intros H. by apply (lor_low 6 5). Qed.
Lemma lor_0xE0 x : 0 <= x < 16 -> Z.lor 0xE0 x = 0xE0 + x.
Proof. intros H. by apply (lor_low 14 4). Qed.
Lemma lor_0xF0 x : 0 <= x < 8 -> Z.lor 0xF0 x = 0xF0 + x.
Proof. intros H. by apply (lor_low 30 3). Qed.

Lemma land_0x3F x : Z.land x 0x3F = x mod 64.
Proof. change 0x3F with (Z.ones 6). by rewrite Z.land_ones. Qed.

Lemma land_0x0F x : Z.land x 0x0F = x mod 16.
Proof. change 0x0F with (Z.ones 4). by rewrite Z.land_ones. Qed.

Lemma land_0x03 x : Z.land x 0x03 = x mod 4.
Proof. change 0x03 with (Z.ones 2). by rewrite Z.land_ones. Qed.

Lemma land_0x3FF x : Z.land x 0x3FF = x mod 1024.
Proof. change 0x3FF with (Z.ones 10). by rewrite Z.land_ones. Qed.

Lemma u8_small x : 0 <= x < 256 -> u8 x = x.
Proof. intros H. apply wrap_small. split; lia. Qed.

Lemma continuation x : Z.lor 0x80 (Z.land x 0x3F) = 0x80 + x mod 64.
Proof. rewrite land_0x3F. apply lor_0x80, Z.mod_pos_bound. lia. Qed.

(** Division and remainder by constants, for [lia]. *)
Ltac divs := Z.to_euclidean_division_equations; lia.

Lemma land_bit_set x m i : 0 <= i -> Z.testbit x i = true -> Z.testbit m i = true -> Z.land x m <> 0.
Proof.
  intros Hi Hx Hm E. apply (f_equal (fun z => Z.testbit z i)) in E.
  by rewrite Z.land_spec, Hx, Hm, Z.bits_0 in E.
Qed.

Lemma three_bytes_arith c : 0 <= c < 0x10000 ->
  three_bytes c = [0xE0 + c / 4096; 0x80 + c / 64 mod 64; 0x80 + c mod 64].
Proof.
  intros H. unfold three_bytes. rewrite !continuation, !Z.shiftr_div_pow2 by lia.
  change (2 ^ 12) with 4096. change (2 ^ 6) with 64.
  assert (0 <= c / 4096 < 16) by divs. by rewrite lor_0xE0, u8_small by lia.
Qed.

Lemma encode3_ok c : 0 <= c < 0x10000 -> encode3ByteUTF8 c = Ret (three_bytes c).
Proof.
  intros H. unfold encode3ByteUTF8. change 0xffff0000 with (0xffff * 2 ^ 16).
  rewrite land_high_zero by lia. done.
Qed.

Lemma encode4_ok c : 0x10000 <= c < 0x80000 -> encode4ByteUTF8 c = Ret (utf8_encode c).
Proof.
  intros H. unfold encode4ByteUTF8, utf8_encode. change 0xfff80000 with (0x1fff * 2 ^ 19).
  rewrite land_high_zero by lia. cbn [negb Z.eqb]. rewrite !continuation, !Z.shiftr_div_pow2 by lia.
  change (2 ^ 18) with 262144. change (2 ^ 12) with 4096. change (2 ^ 6) with 64.
  destruct (Z.ltb_spec c 0x80), (Z.ltb_spec c 0x800), (Z.ltb_spec c 0x10000); try lia.
  assert (0 <= c / 262144 < 8) by divs. by rewrite lor_0xF0, u8_small by lia.
Qed.

(** The bound of the test is 2^19, below the codes the format has. *)
Lemma encode4_aborts c : 0x80000 <= c < 0x110000 -> encode4ByteUTF8 c = Fault Aborted.
Proof.
  intros H. unfold encode4ByteUTF8. destruct (Z.eqb_spec (Z.land c 0xfff80000) 0) as [E|]; [|done].
  exfalso. assert (Z.land (c / 2 ^ 19) 0x1fff <> 0) as Hne.
  { assert (1 <= c / 2 ^ 19 <= 2) as Hc by (change (2 ^ 19) with 524288; divs).
    assert (c / 2 ^ 19 = 1 \/ c / 2 ^ 19 = 2) as [-> | ->] by lia; done. }
  apply Hne. rewrite <- Z.shiftr_div_pow2 by lia. change 0x1fff with (Z.shiftr 0xfff80000 19).
  by rewrite <- Z.shiftr_land, E.
Qed.

Lemma utf8_encode_three c : 0x800 <= c < 0x10000 -> utf8_encode c = three_bytes c.
Proof.
  intros H. rewrite three_bytes_arith by lia. unfold utf8_encode.
  destruct (Z.ltb_spec c 0x80), (Z.ltb_spec c 0x800), (Z.ltb_spec c 0x10000); (done || lia).
Qed.

Lemma utf8_encode_two c : 0x80 <= c < 0x800 -> utf8_encode c = two_bytes c.
Proof.
  intros H. unfold utf8_encode, two_bytes. rewrite continuation, Z.shiftr_div_pow2 by lia. change (2 ^ 6) with 64.
  destruct (Z.ltb_spec c 0x80), (Z.ltb_spec c 0x800); try lia.
  assert (0 <= c / 64 < 32) by divs. by rewrite lor_0xC0, u8_small by lia.
Qed.

(** The four bytes computed from two units are those of their code. *)
Lemma four_bytes_pair h l : 0 <= h < 1024 -> 0 <= l < 1024 ->
  four_bytes (0xD800 + h) (0xDC00 + l) = utf8_encode (0x10000 + h * 1024 + l).
Proof.
  intros Hh Hl. unfold four_bytes, utf8_encode. cbv zeta.
  destruct (Z.ltb_spec (0x10000 + h * 1024 + l) 0x80), (Z.ltb_spec (0x10000 + h * 1024 + l) 0x800),
    (Z.ltb_spec (0x10000 + h * 1024 + l) 0x10000); try lia.
  rewrite continuation, !Z.shiftr_div_pow2, !Z.shiftl_mul_pow2 by lia.
  rewrite !land_0x0F, !land_0x03.
  change (2 ^ 6) with 64. change (2 ^ 4) with 16. change (2 ^ 2) with 4.
  assert ((0xD800 + h) / 64 mod 16 = h / 64) as -> by divs.
  rewrite lor_0xF0 by divs.
  assert (forall x y, 0 <= x < 4 -> 0 <= y < 16 -> Z.lor (Z.lor 128 (x * 16)) y = 128 + x * 16 + y) as Hlor.
  { intros x y Hx Hy. rewrite lor_0x80 by lia. replace (128 + x * 16) with ((8 + x) * 2 ^ 4) by lia.
    by apply lor_low. }
  rewrite !Hlor by divs. do 3 (f_equal; [divs|]). f_equal. divs.
Qed.

(** * What the loops write

    The output of the two byte loops, without the buffer. *)
Fixpoint modified_of (utf8 : list Z) : res (list Z) :=
  match utf8 with
  | [] => Ret []
  | b :: t =>
      if b =? 0 then out ← modified_of t; Ret ([0xc0; 0x80] ++ out)
      else
        let copy := out ← modified_of t; Ret ([b] ++ out) in
        match t with
        | b1 :: b2 :: b3 :: t4 =>
            if negb (isFourByteUTF8Encoding b) then copy
            else
              let '(first, second) := surrogates (decode4 b b1 b2 b3) in
              l1 ← encode3ByteUTF8 first;
              l2 ← encode3ByteUTF8 second;
              out ← modified_of t4;
              Ret (l1 ++ l2 ++ out)
        | _ => copy
        end
  end.

Fixpoint unmodified_of (modified : list Z) : res (list Z) :=
  match modified with
  | [] => Ret []
  | m0 :: t =>
      let copy := out ← unmodified_of t; Ret ([m0] ++ out) in
      let null_or_copy :=
        match t with
        | m1 :: t2 => if (m0 =? 0xc0) && (m1 =? 0x80) then out ← unmodified_of t2; Ret ([0] ++ out) else copy
        | [] => copy
        end in
      match t with
      | m1 :: m2 :: m3 :: m4 :: m5 :: t6 =>
          if (m0 =? 0xed) && (Z.land m1 0xf0 =? 0xa0) && (m3 =? 0xed) && (Z.land m4 0xf0 =? 0xb0) then
            l ← encode4ByteUTF8 (0x10000 + Z.lor (Z.shiftl (Z.land (decode3ByteUTF8 m0 m1 m2) 0x3ff) 10)
                                                 (Z.land (decode3ByteUTF8 m3 m4 m5) 0x3ff));
            out ← unmodified_of t6;
            Ret (l ++ out)
          else null_or_copy
      | _ => null_or_copy
      end
  end.

Lemma store_next (pre l rest : list Z) : (length l <= length rest)%nat ->
  store (pre ++ rest) (length pre) l = Ret ((pre ++ l) ++ drop (length l) rest).
Proof.
  intros H. rewrite store_in_bounds by (rewrite length_app; lia). f_equal.
  rewrite take_app_length, <- app_assoc. do 2 f_equal.
  rewrite drop_app. rewrite drop_ge by lia. cbn. f_equal. lia.
Qed.

(** Induction that may skip elements. *)
Lemma list_strong_ind (Q : list Z -> Prop) :
  (forall l, (forall l', (length l' < length l)%nat -> Q l') -> Q l) -> forall l, Q l.
Proof. intros H. exact (induction_ltof1 _ (@length Z) Q H). Qed.

Lemma encode3_length c l : encode3ByteUTF8 c = Ret l -> length l = 3%nat.
Proof. unfold encode3ByteUTF8. destruct (negb _); [done|]. by intros [= <-]. Qed.

Lemma encode4_length c l : encode4ByteUTF8 c = Ret l -> length l = 4%nat.
Proof. unfold encode4ByteUTF8. destruct (negb _); [done|]. by intros [= <-]. Qed.

(** One step of a loop that has [n] bytes to write and then goes on. *)
Lemma loop_step (pre l rest : list Z) (loop : list Z -> res (list Z)) (out : res (list Z)) :
  (length l <= length rest)%nat ->
  loop ((pre ++ l) ++ drop (length l) rest)
    = (o ← out; Ret ((pre ++ l) ++ o ++ [0] ++ drop (length o + 1) (drop (length l) rest))) ->
  (buf ← store (pre ++ rest) (length pre) l; loop buf)
    = (o ← (o ← out; Ret (l ++ o)); Ret (pre ++ o ++ [0] ++ drop (length o + 1) rest)).
Proof.
  intros Hl E. rewrite store_next, bind_Ret, E by done. destruct out as [o|]; [|done].
  rewrite !bind_Ret. f_equal. rewrite <- !app_assoc. do 4 f_equal. rewrite drop_drop. f_equal. rewrite length_app. lia.
Qed.

(** With room for [modifiedLength] bytes and a zero, the loop writes
    [modified_of] and the zero, and keeps what comes after. *)
Lemma to_modified_ok utf8 : forall pre rest, (modifiedLength utf8 < length rest)%nat ->
  to_modified utf8 (pre ++ rest) (length (pre ++ rest)) (length pre)
    = (o ← modified_of utf8; Ret (pre ++ o ++ [0] ++ drop (length o + 1) rest)).
Proof.
  induction utf8 as [utf8 IH] using list_strong_ind. intros pre rest Hr.
  assert (forall l, length l <= length rest -> length (pre ++ rest) = length ((pre ++ l) ++ drop (length l) rest))%nat
    as Hlen by (intros l Hl; rewrite !length_app, length_drop; lia).
  destruct utf8 as [|b t].
  - cbn [to_modified modified_of modifiedLength] in *. rewrite length_app.
    destruct (Nat.leb_spec (length pre + length rest) (length pre)); [lia|].
    rewrite store_next by (cbn; lia). rewrite bind_Ret. cbn [app length]. by rewrite <- app_assoc.
  - assert (forall l t', (length t' < length (b :: t))%nat -> (length l + modifiedLength t' < length rest)%nat ->
      to_modified t' ((pre ++ l) ++ drop (length l) rest) (length (pre ++ rest)) (length pre + length l)
        = (o ← modified_of t'; Ret ((pre ++ l) ++ o ++ [0] ++ drop (length o + 1) (drop (length l) rest)))) as Hnext.
    { intros l t' Ht Hl. rewrite (Hlen l), <- length_app by lia. apply IH; [done|]. rewrite length_drop. lia. }
    cbn [to_modified modified_of modifiedLength] in *.
    destruct (Nat.leb_spec (length (pre ++ rest)) (length pre)) as [Hle|_]; [rewrite length_app in Hle; lia|].
    destruct (b =? 0).
    { destruct (Nat.leb_spec (length (pre ++ rest)) (length pre + 1)) as [Hle|_]; [rewrite length_app in Hle; lia|].
      apply loop_step; [cbn; lia|]. apply (Hnext [0xc0; 0x80]); cbn in *; lia. }
    assert (forall k, (modifiedLength t <= k)%nat -> (1 + k < length rest)%nat ->
      (modified ← store (pre ++ rest) (length pre) [b]; to_modified t modified (length (pre ++ rest)) (length pre + 1))
      = (o ← (o ← modified_of t; Ret ([b] ++ o)); Ret (pre ++ o ++ [0] ++ drop (length o + 1) rest))) as Hcopy.
    { intros k Hk1 Hk2. apply loop_step; [cbn; lia|]. apply (Hnext [b]); cbn in *; lia. }
    destruct t as [|b1 [|b2 [|b3 t4]]]; try (by (eapply Hcopy; [reflexivity|exact Hr])).
    destruct (isFourByteUTF8Encoding b); cbn [negb] in *; [|by (eapply Hcopy; [reflexivity|exact Hr])].
    clear Hcopy. destruct (surrogates (decode4 b b1 b2 b3)) as [first second].
    destruct (Nat.leb_spec (length (pre ++ rest)) (length pre + 5)) as [Hle|_]; [rewrite length_app in Hle; lia|].
    destruct (encode3ByteUTF8 first) as [l1|f] eqn:E1; [|done]. rewrite !bind_Ret.
    pose proof (encode3_length _ _ E1) as H1.
    rewrite store_next, bind_Ret by lia.
    destruct (encode3ByteUTF8 second) as [l2|f] eqn:E2; [|done]. rewrite !bind_Ret.
    pose proof (encode3_length _ _ E2) as H2.
    replace (length pre + 3)%nat with (length (pre ++ l1)) by (rewrite length_app; lia).
    rewrite store_next, bind_Ret by (rewrite length_drop; lia).
    rewrite drop_drop. replace ((pre ++ l1) ++ l2) with (pre ++ (l1 ++ l2)) by apply app_assoc.
    replace (length l1 + length l2)%nat with (length (l1 ++ l2)) by apply length_app.
    replace (length pre + 6)%nat with (length pre + length (l1 ++ l2))%nat by (rewrite length_app; lia).
    rewrite Hnext; [|cbn; lia|rewrite length_app; lia].
    destruct (modified_of t4) as [o|]; [|done]. rewrite !bind_Ret. f_equal.
    rewrite <- !app_assoc. do 5 f_equal. rewrite drop_drop. f_equal. rewrite !length_app. lia.
Qed.

(** The codes of the four-byte groups that the loop finds. *)
Fixpoint groups (utf8 : list Z) : list Z :=
  match utf8 with
  | [] => []
  | b :: t =>
      if b =? 0 then groups t
      else
        match t with
        | b1 :: b2 :: b3 :: t4 =>
            if negb (isFourByteUTF8Encoding b) then groups t else decode4 b b1 b2 b3 :: groups t4
        | _ => groups t
        end
  end.

Lemma decode4_range b0 b1 b2 b3 : 0 <= decode4 b0 b1 b2 b3 < 0x200000.
Proof.
  assert (forall b n s, 0 <= n -> 0 <= s -> n + s <= 21 -> in_range 21 (Z.shiftl (Z.land b (Z.ones n)) s)) as H.
  { intros b n s Hn Hs Hns. rewrite Z.shiftl_mul_pow2, Z.land_ones by done.
    pose proof (Z.mod_pos_bound b (2 ^ n) ltac:(lia)) as Hb. unfold in_range.
    pose proof (Z.pow_le_mono_r 2 (n + s) 21 ltac:(lia) Hns) as Hp. rewrite Z.pow_add_r in Hp by done. nia. }
  assert (in_range 21 (decode4 b0 b1 b2 b3)) as Hr.
  { unfold decode4. repeat apply in_range_lor; try lia.
    - by apply (H b0 3 18).
    - by apply (H b1 6 12).
    - by apply (H b2 6 6).
    - rewrite <- (Z.shiftl_0_r (Z.land b3 63)). by apply (H b3 6 0). }
  exact Hr.
Qed.

Lemma surrogates_pair c : 0x10000 <= c <= 0x10ffff -> surrogates c = (high_surrogate c, low_surrogate c).
Proof.
  intros H. unfold surrogates, high_surrogate, low_surrogate.
  destruct (Z.ltb_spec 0x10ffff c); [lia|]. rewrite (wrap_small 32) by (split; lia).
  rewrite land_0x3FF, Z.shiftr_div_pow2 by lia. change (2 ^ 10) with 1024.
  assert (0 <= (c - 0x10000) / 1024 < 1024) by divs.
  rewrite !(Z.lor_comm _ 0xd800), !(Z.lor_comm _ 0xdc00).
  f_equal; [apply (lor_low 54 10)|apply (lor_low 55 10)]; [lia|done|lia|].
  apply Z.mod_pos_bound. lia.
Qed.

(** Four bytes for a code that needs fewer end the process. *)
Lemma surrogates_overlong c : 0 <= c < 0x10000 -> encode3ByteUTF8 (fst (surrogates c)) = Fault Aborted.
Proof.
  intros H. unfold surrogates. destruct (Z.ltb_spec 0x10ffff c); [lia|]. cbn [fst].
  assert (u32 (c - 0x10000) = c + 0xffff0000) as -> by (unfold wrap; symmetry; apply Z.mod_unique with (-1); lia).
  unfold encode3ByteUTF8. destruct (Z.eqb_spec (Z.land (Z.lor (Z.shiftr (c + 0xffff0000) 10) 0xd800) 0xffff0000) 0)
    as [E|]; [|done]. exfalso. revert E. apply (land_bit_set _ _ 20); [done| |done].
  rewrite Z.lor_spec. apply orb_true_iff. left. rewrite Z.shiftr_spec by lia. change (20 + 10) with 30.
  apply Z.testbit_true; [lia|]. change (2 ^ 30) with 1073741824. divs.
Qed.

Lemma surrogates_ok c : 0x10000 <= c < 0x200000 -> exists l1 l2,
  encode3ByteUTF8 (fst (surrogates c)) = Ret l1 /\ encode3ByteUTF8 (snd (surrogates c)) = Ret l2.
Proof.
  intros H. destruct (decide (c <= 0x10ffff)).
  - rewrite surrogates_pair by lia. unfold high_surrogate, low_surrogate. cbn [fst snd].
    rewrite !encode3_ok by divs. by do 2 eexists.
  - unfold surrogates. destruct (Z.ltb_spec 0x10ffff c); [|lia]. by do 2 eexists.
Qed.

Lemma modified_of_cases utf8 :
  if forallb (Z.leb 0x10000) (groups utf8)
  then exists out, modified_of utf8 = Ret out /\ length out = modifiedLength utf8
  else modified_of utf8 = Fault Aborted.
Proof.
  induction utf8 as [utf8 IH] using list_strong_ind. destruct utf8 as [|b t]; [by exists []|].
  assert (forall (l : list Z) t', (length t' < length (b :: t))%nat ->
    if forallb (Z.leb 0x10000) (groups t')
    then exists out, (o ← modified_of t'; Ret (l ++ o)) = Ret out /\ length out = (length l + modifiedLength t')%nat
    else (o ← modified_of t'; Ret (l ++ o)) = Fault Aborted) as Hnext.
  { intros l t' Ht. specialize (IH t' Ht). destruct (forallb _ _); [|by rewrite IH].
    destruct IH as (o & -> & Ho). exists (l ++ o). by rewrite length_app, Ho. }
  cbn [groups modified_of modifiedLength]. destruct (b =? 0); [apply (Hnext [0xc0; 0x80] t); cbn; lia|].
  assert (forall k, k = modifiedLength t ->
    if forallb (Z.leb 0x10000) (groups t)
    then exists out, (o ← modified_of t; Ret ([b] ++ o)) = Ret out /\ length out = (1 + k)%nat
    else (o ← modified_of t; Ret ([b] ++ o)) = Fault Aborted) as Hcopy by (intros k ->; apply (Hnext [b] t); cbn; lia).
  destruct t as [|b1 [|b2 [|b3 t4]]]; try (by apply Hcopy).
  destruct (isFourByteUTF8Encoding b); cbn [negb]; [|by apply Hcopy]. clear Hcopy.
  pose proof (decode4_range b b1 b2 b3) as Hr. set (c := decode4 b b1 b2 b3) in *.
  cbn [forallb]. destruct (Z.leb_spec 0x10000 c) as [Hc|Hc]; cbn [andb].
  - destruct (surrogates_ok c ltac:(lia)) as (l1 & l2 & E1 & E2).
    destruct (surrogates c) as [first second]. cbn [fst snd] in *. rewrite E1, E2, !bind_Ret.
    specialize (IH t4 ltac:(cbn; lia)). destruct (forallb _ _); [|by rewrite IH].
    destruct IH as (o & -> & Ho). exists (l1 ++ l2 ++ o). split; [done|].
    rewrite !length_app, (encode3_length _ _ E1), (encode3_length _ _ E2), Ho. lia.
  - pose proof (surrogates_overlong c ltac:(lia)) as E. destruct (surrogates c) as [first second].
    cbn [fst] in E. by rewrite E.
Qed.

(** The conversion of any bytes at all, into a buffer of [modifiedLength] bytes
    and one more for the zero, stays inside the buffer, fills exactly the
    length announced and keeps the rest of the buffer; the process ends if and
    only if a group of four bytes has a code below 0x10000. *)
Theorem utf8ToModifiedUTF8_fits utf8 modified : (modifiedLength utf8 < length modified)%nat ->
  if forallb (Z.leb 0x10000) (groups utf8)
  then exists out, length out = modifiedLength utf8 /\
    utf8ToModifiedUTF8 utf8 modified (length modified) = Ret (out ++ [0] ++ drop (length out + 1) modified)
  else utf8ToModifiedUTF8 utf8 modified (length modified) = Fault Aborted.
Proof.
  intros H. pose proof (to_modified_ok utf8 [] modified H) as E. cbn [app length] in E.
  unfold utf8ToModifiedUTF8. rewrite E. pose proof (modified_of_cases utf8) as Hc.
  destruct (forallb _ _); [|by rewrite Hc]. destruct Hc as (out & -> & Hl). by exists out.
Qed.

(** The two length functions agree on a string that ends at its first zero. *)
Theorem modifiedLength_agree s after : Forall (fun b => b <> 0) s ->
  modifiedLength_z (s ++ 0 :: after) = Ret (modifiedLength s, length s).
Proof.
  induction s as [s IH] using list_strong_ind. intros Hs. destruct s as [|b t]; [done|].
  inversion_clear Hs as [|? ? Hb Ht]. apply Z.eqb_neq in Hb.
  assert (forall m, m = modifiedLength t -> ('(j, i) ← modifiedLength_z (t ++ 0 :: after); Ret (1 + j, 1 + i)%nat)
    = Ret ((1 + m)%nat, length (b :: t))) as Hone.
  { intros m ->. rewrite (IH t) by (try (cbn; lia); done). done. }
  cbn [app modifiedLength_z modifiedLength]. rewrite Hb.
  destruct t as [|b1 t]; [by apply Hone|]. inversion Ht as [|? ? Hb1 Ht1]; subst. apply Z.eqb_neq in Hb1.
  cbn [app] in *. rewrite Hb1.
  destruct t as [|b2 t]; [by apply Hone|]. inversion Ht1 as [|? ? Hb2 Ht2]; subst. apply Z.eqb_neq in Hb2.
  cbn [app] in *. rewrite Hb2.
  destruct t as [|b3 t]; [by apply Hone|]. inversion Ht2 as [|? ? Hb3 Ht3]; subst. apply Z.eqb_neq in Hb3.
  cbn [app] in *. rewrite Hb3. cbn [orb].
  destruct (isFourByteUTF8Encoding b); cbn [negb]; [|by apply Hone].
  rewrite (IH t); [done|cbn; lia|done].
Qed.

(** * Back to UTF-8 *)

Lemma unmodified_step (pre l rest : list Z) (loop : list Z -> res (list Z)) (out : res (list Z)) :
  (length l <= length rest)%nat ->
  loop ((pre ++ l) ++ drop (length l) rest) = (o ← out; Ret ((pre ++ l) ++ o)) ->
  (buf ← store (pre ++ rest) (length pre) l; loop buf) = (o ← (o ← out; Ret (l ++ o)); Ret (pre ++ o)).
Proof.
  intros Hl E. rewrite store_next, bind_Ret, E by done. destruct out as [o|]; [|done].
  rewrite !bind_Ret. by rewrite <- app_assoc.
Qed.

Lemma from_modified_ok m : forall pre rest, (length m <= length rest)%nat ->
  from_modified m (pre ++ rest) (length pre) = (o ← unmodified_of m; Ret (pre ++ o)).
Proof.
  induction m as [m IH] using list_strong_ind. intros pre rest Hr.
  destruct m as [|m0 t]; [cbn; by rewrite take_app_length, app_nil_r|].
  assert (forall l t', (length t' < length (m0 :: t))%nat -> (length l + length t' <= length rest)%nat ->
    from_modified t' ((pre ++ l) ++ drop (length l) rest) (length pre + length l)
      = (o ← unmodified_of t'; Ret ((pre ++ l) ++ o))) as Hnext.
  { intros l t' Ht Hl. rewrite <- length_app. apply IH; [done|]. rewrite length_drop. lia. }
  assert ((utf8 ← store (pre ++ rest) (length pre) [m0]; from_modified t utf8 (length pre + 1))
    = (o ← (o ← unmodified_of t; Ret ([m0] ++ o)); Ret (pre ++ o))) as Hcopy.
  { apply unmodified_step; [cbn in *; lia|]. apply (Hnext [m0]); cbn in *; lia. }
  assert ((match t with
           | m1 :: t2 => if (m0 =? 0xc0) && (m1 =? 0x80)
                         then utf8 ← store (pre ++ rest) (length pre) [0]; from_modified t2 utf8 (length pre + 1)
                         else utf8 ← store (pre ++ rest) (length pre) [m0]; from_modified t utf8 (length pre + 1)
           | [] => utf8 ← store (pre ++ rest) (length pre) [m0]; from_modified t utf8 (length pre + 1)
           end)
    = (o ← match t with
           | m1 :: t2 => if (m0 =? 0xc0) && (m1 =? 0x80) then o ← unmodified_of t2; Ret ([0] ++ o)
                         else o ← unmodified_of t; Ret ([m0] ++ o)
           | [] => o ← unmodified_of t; Ret ([m0] ++ o)
           end; Ret (pre ++ o))) as Hnull.
  { destruct t as [|m1 t2]; [apply Hcopy|]. destruct (_ && _); [|apply Hcopy].
    apply unmodified_step; [cbn in *; lia|]. apply (Hnext [0]); cbn in *; lia. }
  cbn [from_modified unmodified_of].
  destruct t as [|m1 [|m2 [|m3 [|m4 [|m5 t6]]]]]; try exact Hnull.
  destruct ((m0 =? 0xed) && (Z.land m1 0xf0 =? 0xa0) && (m3 =? 0xed) && (Z.land m4 0xf0 =? 0xb0)); [|exact Hnull].
  destruct (encode4ByteUTF8 _) as [l|f] eqn:El; [|done]. rewrite !bind_Ret.
  pose proof (encode4_length _ _ El) as Hl. apply unmodified_step; [cbn in *; lia|].
  rewrite <- Hl. apply Hnext; cbn in *; lia.
Qed.

Lemma unmodified_length m : match unmodified_of m with Ret o => (length o <= length m)%nat | Fault f => f = Aborted end.
Proof.
  induction m as [m IH] using list_strong_ind. destruct m as [|m0 t]; [cbn; lia|].
  assert (forall (l : list Z) t', (length t' < length (m0 :: t))%nat -> (length l + length t' <= length (m0 :: t))%nat ->
    match o ← unmodified_of t'; Ret (l ++ o) with Ret o => (length o <= length (m0 :: t))%nat | Fault f => f = Aborted end) as Hn.
  { intros l t' H1 H2. specialize (IH t' H1). destruct (unmodified_of t'); [|done]. rewrite bind_Ret, length_app. lia. }
  pose proof (Hn [m0] t ltac:(cbn; lia) ltac:(cbn; lia)) as Hcopy. cbn [unmodified_of].
  assert (match (match t with
           | m1 :: t2 => if (m0 =? 0xc0) && (m1 =? 0x80) then o ← unmodified_of t2; Ret ([0] ++ o)
                         else o ← unmodified_of t; Ret ([m0] ++ o)
           | [] => o ← unmodified_of t; Ret ([m0] ++ o)
           end) with Ret o => (length o <= length (m0 :: t))%nat | Fault f => f = Aborted end) as Hnull.
  { destruct t as [|m1 t2]; [apply Hcopy|]. destruct (_ && _); [|apply Hcopy]. apply Hn; cbn; lia. }
  destruct t as [|m1 [|m2 [|m3 [|m4 [|m5 t6]]]]]; try exact Hnull.
  destruct ((m0 =? 0xed) && (Z.land m1 0xf0 =? 0xa0) && (m3 =? 0xed) && (Z.land m4 0xf0 =? 0xb0)); [|exact Hnull].
  destruct (encode4ByteUTF8 _) as [l|f] eqn:El.
  - rewrite bind_Ret. pose proof (encode4_length _ _ El) as Hl. apply Hn; cbn; lia.
  - unfold encode4ByteUTF8 in El. destruct (negb _); [|done]. cbn. congruence.
Qed.

(** Whatever bytes it is given, the conversion back never writes past its
    buffer and never makes the string longer; it ends the process or returns. *)
Theorem modifiedUTF8ToUTF8_fits m :
  match modifiedUTF8ToUTF8 m with Ret o => (length o <= length m)%nat | Fault f => f = Aborted end.
Proof.
  unfold modifiedUTF8ToUTF8. pose proof (from_modified_ok m [] (replicate (length m) 0)) as E.
  cbn [app length] in E. rewrite E by (by rewrite length_replicate). pose proof (unmodified_length m) as H.
  by destruct (unmodified_of m).
Qed.

(** ** Characters *)

Lemma copy_modified b t : b <> 0 -> isFourByteUTF8Encoding b = false ->
  modified_of (b :: t) = (o ← modified_of t; Ret (b :: o)).
Proof.
  intros Hb Hf. apply Z.eqb_neq in Hb. cbn [modified_of]. rewrite Hb, Hf. by destruct t as [|b1 [|b2 [|b3 t]]].
Qed.

Lemma copy_unmodified b t : b <> 0xc0 -> (b = 0xed -> exists c t', t = c :: t' /\ Z.land c 0xf0 <> 0xa0) ->
  unmodified_of (b :: t) = (o ← unmodified_of t; Ret (b :: o)).
Proof.
  intros Hc He. apply Z.eqb_neq in Hc. cbn [unmodified_of]. rewrite Hc. cbn [andb].
  destruct t as [|m1 [|m2 [|m3 [|m4 [|m5 t]]]]]; try done.
  destruct (Z.eqb_spec b 0xed) as [Hb|]; cbn [andb]; [|done].
  destruct (He Hb) as (c & t' & [= <- <-] & Hne). apply Z.eqb_neq in Hne. by rewrite Hne.
Qed.

(** A byte below F0 is no lead of four. *)
Lemma not_four b : 0 <= b < 0xF0 -> isFourByteUTF8Encoding b = false.
Proof.
  intros H. unfold isFourByteUTF8Encoding. destruct (Z.eqb_spec (Z.land b 0xF8) 0xF0) as [E|]; [|done].
  exfalso. apply (f_equal (fun z => Z.shiftr z 4)) in E. rewrite Z.shiftr_land in E.
  change (Z.shiftr 0xF8 4) with 0x0F in E. change (Z.shiftr 0xF0 4) with 15 in E.
  rewrite land_0x0F, Z.shiftr_div_pow2 in E by lia. change (2 ^ 4) with 16 in E. divs.
Qed.

Lemma four_lead x : 0 <= x < 8 -> isFourByteUTF8Encoding (0xF0 + x) = true.
Proof.
  intros H. assert (x = 0 \/ x = 1 \/ x = 2 \/ x = 3 \/ x = 4 \/ x = 5 \/ x = 6 \/ x = 7) as Hx by lia.
  repeat destruct Hx as [-> | Hx]; try subst x; reflexivity.
Qed.

Lemma bind_bind_Ret {A B} (m : res A) (k : A -> B) (h : B -> B) :
  (o ← (o ← m; Ret (k o)); Ret (h o)) = (o ← m; Ret (h (k o))).
Proof. by destruct m. Qed.

(** Encodings below 0x10000 are copied by both loops. *)
Lemma copy_bmp c t : 0 < c < 0xD800 \/ 0xE000 <= c < 0x10000 ->
  modified_of (utf8_encode c ++ t) = (o ← modified_of t; Ret (utf8_encode c ++ o)) /\
  unmodified_of (utf8_encode c ++ t) = (o ← unmodified_of t; Ret (utf8_encode c ++ o)).
Proof.
  intros H. unfold utf8_encode.
  destruct (Z.ltb_spec c 0x80); [|destruct (Z.ltb_spec c 0x800); [|destruct (Z.ltb_spec c 0x10000); [|lia]]];
    cbn [app].
  - split; [apply copy_modified; [lia|apply not_four; lia]|apply copy_unmodified; lia].
  - assert (2 <= c / 64 < 32) by divs. assert (0 <= c mod 64 < 64) by divs.
    split; [rewrite !copy_modified by (lia || (apply not_four; lia))|rewrite !copy_unmodified by lia];
      by rewrite bind_bind_Ret.
  - assert (0 <= c / 4096 < 16) by divs. assert (0 <= c / 64 mod 64 < 64) by divs. assert (0 <= c mod 64 < 64) by divs.
    split; [rewrite !copy_modified by (lia || (apply not_four; lia)); by rewrite !bind_bind_Ret|].
    rewrite (copy_unmodified (0xE0 + c / 4096)).
    + rewrite !copy_unmodified by lia. by rewrite !bind_bind_Ret.
    + lia.
    + intros E. do 2 eexists. split; [done|].
      assert (0 <= c / 64 mod 64 < 32) as Hc by divs.
      intros Ha. apply (f_equal (fun z => Z.testbit z 5)) in Ha. rewrite Z.land_spec, andb_true_r in Ha.
      change (Z.testbit 0xa0 5) with true in Ha. rewrite Z.testbit_true in Ha by lia. change (2 ^ 5) with 32 in Ha. divs.
Qed.

(** The bytes of a surrogate, and what the loop reads from them. *)
Lemma surrogate_bytes x : 0 <= x < 0x800 -> exists m1 m2,
  utf8_encode (0xD800 + x) = [0xED; m1; m2] /\ decode3ByteUTF8 0xED m1 m2 = 0xD800 + x /\
  Z.land m1 0xF0 = if x <? 0x400 then 0xA0 else 0xB0.
Proof.
  intros H. exists (0x80 + (0xD800 + x) / 64 mod 64), (0x80 + (0xD800 + x) mod 64).
  split; [|split].
  - unfold utf8_encode. destruct (Z.ltb_spec (0xD800 + x) 0x80), (Z.ltb_spec (0xD800 + x) 0x800),
      (Z.ltb_spec (0xD800 + x) 0x10000); try lia. do 2 f_equal. divs.
  - unfold decode3ByteUTF8. rewrite !land_0x3F. change (Z.land 0xED 0x0f) with 13. rewrite !Z.shiftl_mul_pow2 by lia.
    assert (forall y, 0 <= y < 64 -> (128 + y) mod 64 = y) as Hm by (intros y Hy; divs).
    rewrite !Hm by divs. rewrite lor_low by (change (2 ^ 12) with 4096; divs).
    replace (13 * 2 ^ 12 + (0xD800 + x) / 64 mod 64 * 2 ^ 6) with ((13 * 64 + (0xD800 + x) / 64 mod 64) * 2 ^ 6)
      by (change (2 ^ 12) with 4096; change (2 ^ 6) with 64; lia).
    rewrite lor_low by (change (2 ^ 6) with 64; divs). change (2 ^ 6) with 64. divs.
  - assert (forall y, 0 <= y < 16 -> Z.land (0xA0 + y) 0xF0 = 0xA0 /\ Z.land (0xB0 + y) 0xF0 = 0xB0) as Hn.
    { intros y Hy. assert (y = 0 \/ y = 1 \/ y = 2 \/ y = 3 \/ y = 4 \/ y = 5 \/ y = 6 \/ y = 7 \/ y = 8 \/ y = 9 \/
        y = 10 \/ y = 11 \/ y = 12 \/ y = 13 \/ y = 14 \/ y = 15) as Hc by lia.
      repeat destruct Hc as [-> | Hc]; try subst y; done. }
    destruct (Z.ltb_spec x 0x400).
    + replace (0x80 + (0xD800 + x) / 64 mod 64) with (0xA0 + x / 64) by divs. apply Hn. divs.
    + replace (0x80 + (0xD800 + x) / 64 mod 64) with (0xB0 + (x - 0x400) / 64) by divs. apply Hn. divs.
Qed.

Lemma decode4_encode c : 0x10000 <= c < 0x110000 -> exists b1 b2 b3,
  utf8_encode c = [0xF0 + c / 262144; b1; b2; b3] /\ decode4 (0xF0 + c / 262144) b1 b2 b3 = c.
Proof.
  intros H. exists (0x80 + c / 4096 mod 64), (0x80 + c / 64 mod 64), (0x80 + c mod 64). split.
  - unfold utf8_encode. destruct (Z.ltb_spec c 0x80), (Z.ltb_spec c 0x800), (Z.ltb_spec c 0x10000); (done || lia).
  - unfold decode4. rewrite !land_0x3F. change 0x07 with (Z.ones 3). rewrite Z.land_ones by lia.
    rewrite !Z.shiftl_mul_pow2 by lia. change (2 ^ 3) with 8.
    assert (forall y, 0 <= y < 64 -> (128 + y) mod 64 = y) as Hm by (intros y Hy; divs). rewrite !Hm by divs.
    assert ((0xF0 + c / 262144) mod 8 = c / 262144) as -> by divs.
    rewrite lor_low by (change (2 ^ 18) with 262144; change (2 ^ 12) with 4096; divs).
    replace (c / 262144 * 2 ^ 18 + c / 4096 mod 64 * 2 ^ 12) with ((c / 262144 * 64 + c / 4096 mod 64) * 2 ^ 12)
      by (change (2 ^ 18) with 262144; change (2 ^ 12) with 4096; lia).
    rewrite lor_low by (change (2 ^ 12) with 4096; change (2 ^ 6) with 64; divs).
    replace ((c / 262144 * 64 + c / 4096 mod 64) * 2 ^ 12 + c / 64 mod 64 * 2 ^ 6)
      with (((c / 262144 * 64 + c / 4096 mod 64) * 64 + c / 64 mod 64) * 2 ^ 6)
      by (change (2 ^ 12) with 4096; change (2 ^ 6) with 64; lia).
    rewrite lor_low by (change (2 ^ 6) with 64; divs). change (2 ^ 6) with 64. divs.
Qed.

Lemma modify_supplementary c t : 0x10000 <= c < 0x110000 ->
  modified_of (utf8_encode c ++ t) = (o ← modified_of t; Ret (mutf8_encode c ++ o)).
Proof.
  intros H. destruct (decode4_encode c H) as (b1 & b2 & b3 & -> & Hd). cbn [app modified_of].
  destruct (Z.eqb_spec (0xF0 + c / 262144) 0) as [E|_]; [divs|].
  rewrite four_lead by divs. cbn [negb]. rewrite Hd, surrogates_pair by lia.
  assert (0xD800 <= high_surrogate c < 0xDC00) as Hh by (unfold high_surrogate; divs).
  assert (0xDC00 <= low_surrogate c < 0xE000) as Hl by (unfold low_surrogate; divs).
  rewrite !encode3_ok, !bind_Ret by lia. unfold mutf8_encode.
  destruct (Z.eqb_spec c 0), (Z.ltb_spec c 0x10000); try lia.
  rewrite !utf8_encode_three by lia. destruct (modified_of t); [|done]. by rewrite !bind_Ret, <- app_assoc.
Qed.

Lemma unmodify_supplementary c t : 0x10000 <= c < 0x110000 ->
  unmodified_of (mutf8_encode c ++ t) = (l ← encode4ByteUTF8 c; o ← unmodified_of t; Ret (l ++ o)).
Proof.
  intros H. unfold mutf8_encode. destruct (Z.eqb_spec c 0), (Z.ltb_spec c 0x10000); try lia.
  set (x := (c - 0x10000) / 1024). set (y := (c - 0x10000) mod 1024).
  assert (0 <= x < 0x400) as Hx by (unfold x; divs). assert (0 <= y < 0x400) as Hy by (unfold y; divs).
  destruct (surrogate_bytes x ltac:(lia)) as (m1 & m2 & E1 & D1 & N1).
  destruct (surrogate_bytes (0x400 + y) ltac:(lia)) as (m4 & m5 & E2 & D2 & N2).
  destruct (Z.ltb_spec x 0x400); [|lia]. destruct (Z.ltb_spec (0x400 + y) 0x400); [lia|].
  change (high_surrogate c) with (0xD800 + x). replace (low_surrogate c) with (0xD800 + (0x400 + y))
    by (unfold low_surrogate; fold y; lia).
  rewrite E1, E2. cbn [app unmodified_of]. rewrite N1, N2, D1, D2. cbn [Z.eqb Pos.eqb andb].
  rewrite !land_0x3FF, Z.shiftl_mul_pow2 by lia.
  assert ((0xD800 + x) mod 1024 = x) as -> by divs. assert ((0xD800 + (0x400 + y)) mod 1024 = y) as -> by divs.
  rewrite lor_low by (change (2 ^ 10) with 1024; lia). change (2 ^ 10) with 1024.
  assert (0x10000 + (x * 1024 + y) = c) as -> by (unfold x, y; divs). done.
Qed.

Lemma modified_of_scalars cs : Forall scalar cs -> modified_of (utf8_of cs) = Ret (mutf8_of cs).
Proof.
  unfold utf8_of, mutf8_of. induction 1 as [|c cs Hc _ IH]; [done|]. cbn [map concat].
  destruct (decide (c = 0)) as [->|Hz]; [cbn [utf8_encode Z.ltb Z.compare app modified_of Z.eqb]; by rewrite IH|].
  destruct (decide (c < 0x10000)).
  - assert (mutf8_encode c = utf8_encode c) as ->.
    { unfold mutf8_encode. destruct (Z.eqb_spec c 0), (Z.ltb_spec c 0x10000); (done || lia). }
    destruct (copy_bmp c (concat (map utf8_encode cs))) as [-> _]; [unfold scalar in Hc; lia|]. by rewrite IH.
  - rewrite modify_supplementary by (unfold scalar in Hc; lia). by rewrite IH.
Qed.

Lemma unmodified_of_scalars cs : Forall scalar cs ->
  unmodified_of (mutf8_of cs) = if forallb (fun c => c <? 0x80000) cs then Ret (utf8_of cs) else Fault Aborted.
Proof.
  unfold utf8_of, mutf8_of. induction 1 as [|c cs Hc _ IH]; [done|]. cbn [map concat forallb].
  destruct (decide (c = 0)) as [->|Hz].
  { cbn [mutf8_encode Z.eqb Z.ltb Z.compare andb]. set (t := concat (map mutf8_encode cs)) in *.
    assert (unmodified_of ([0xC0; 0x80] ++ t) = (o ← unmodified_of t; Ret (0 :: o))) as ->.
    { cbn [app unmodified_of]. by destruct t as [|m2 [|m3 [|m4 [|m5 t]]]]. }
    rewrite IH. by destruct (forallb _ _). }
  destruct (decide (c < 0x10000)).
  - assert (mutf8_encode c = utf8_encode c) as ->.
    { unfold mutf8_encode. destruct (Z.eqb_spec c 0), (Z.ltb_spec c 0x10000); (done || lia). }
    destruct (copy_bmp c (concat (map mutf8_encode cs))) as [_ ->]; [unfold scalar in Hc; lia|].
    rewrite IH. destruct (Z.ltb_spec c 0x80000); [|lia]. by destruct (forallb _ _).
  - rewrite unmodify_supplementary by (unfold scalar in Hc; lia).
    destruct (Z.ltb_spec c 0x80000).
    + rewrite encode4_ok, bind_Ret, IH by lia. by destruct (forallb _ _).
    + rewrite encode4_aborts by (unfold scalar in Hc; lia). done.
Qed.

(** C4: Text survives the way to modified UTF-8 and back: on the encoding of
    Unicode characters the first conversion gives their modified UTF-8 and a
    zero, and the second one gives the text again, as long as every character
    is below U+80000. From there on it ends the process, though the format
    goes up to U+10FFFF. *)
Theorem modified_utf8_round_trip cs modified : Forall scalar cs ->
  (length (mutf8_of cs) < length modified)%nat ->
  modifiedLength (utf8_of cs) = length (mutf8_of cs) /\
  utf8ToModifiedUTF8 (utf8_of cs) modified (length modified)
    = Ret (mutf8_of cs ++ [0] ++ drop (length (mutf8_of cs) + 1) modified) /\
  modifiedUTF8ToUTF8 (mutf8_of cs) = if forallb (fun c => c <? 0x80000) cs then Ret (utf8_of cs) else Fault Aborted.
Proof.
  intros Hs Hb. pose proof (modified_of_scalars cs Hs) as E.
  assert (modifiedLength (utf8_of cs) = length (mutf8_of cs)) as Hl.
  { pose proof (modified_of_cases (utf8_of cs)) as Hc. rewrite E in Hc.
    destruct (forallb _ _); [|done]. destruct Hc as (o & [= <-] & Ho). done. }
  split; [done|]. split.
  - unfold utf8ToModifiedUTF8. pose proof (to_modified_ok (utf8_of cs) [] modified) as Ht.
    cbn [app length] in Ht. rewrite Ht, E by lia. done.
  - unfold modifiedUTF8ToUTF8. pose proof (from_modified_ok (mutf8_of cs) [] (replicate (length (mutf8_of cs)) 0)) as Ht.
    cbn [app length] in Ht. rewrite Ht, unmodified_of_scalars by (done || by rewrite length_replicate).
    by destruct (forallb _ _).
Qed.

(** * UTF-16 *)

(** The codes of a sequence of 16-bit units: a surrogate without its partner
    counts as a code of its own. *)
Fixpoint decode_utf16 (s : list Z) : list Z :=
  match s with
  | [] => []
  | ch :: t =>
      match t with
      | ch2 :: t2 =>
          if is_pair ch ch2 then 0x10000 + (ch - 0xD800) * 1024 + (ch2 - 0xDC00) :: decode_utf16 t2
          else ch :: decode_utf16 t
      | [] => ch :: decode_utf16 t
      end
  end.

Definition units (s : list Z) : Prop := Forall (fun u => 0 <= u < 0x10000) s.

Lemma is_pair_spec ch ch2 : is_pair ch ch2 = true <-> 0xD800 <= ch < 0xDC00 /\ 0xDC00 <= ch2 < 0xE000.
Proof.
  unfold is_pair, kUtf16HighSubLowBoundary, kUtf16HighSubHighBoundary, kUtf16LowSubHighBoundary.
  rewrite !andb_true_iff, !Z.leb_le, !Z.ltb_lt. tauto.
Qed.

Lemma is_pair_small ch ch2 : ch < 0x800 -> is_pair ch ch2 = false.
Proof. intros H. apply not_true_iff_false. rewrite is_pair_spec. lia. Qed.

(** The bytes for one unit that is not the first of a pair. *)
Lemma unit_bytes ch : 0 <= ch < 0x10000 ->
  utf8_encode ch = if ch <? 0x80 then [Z.land ch 0x7F] else if ch <? 0x800 then two_bytes ch else three_bytes ch.
Proof.
  intros H. destruct (Z.ltb_spec ch 0x80).
  - unfold utf8_encode. destruct (Z.ltb_spec ch 0x80); [|lia]. f_equal.
    change 0x7F with (Z.ones 7). rewrite Z.land_ones by lia. symmetry. apply Z.mod_small. change (2 ^ 7) with 128. lia.
  - destruct (Z.ltb_spec ch 0x800); [by apply utf8_encode_two|apply utf8_encode_three; lia].
Qed.

Lemma pair_bytes ch ch2 : is_pair ch ch2 = true ->
  utf8_encode (0x10000 + (ch - 0xD800) * 1024 + (ch2 - 0xDC00)) = four_bytes ch ch2.
Proof.
  intros [H1 H2]%is_pair_spec. rewrite <- four_bytes_pair by lia. f_equal; lia.
Qed.

(** One step of the loops: the unit or the pair in front. *)
Inductive utf16_front : list Z -> list Z -> list Z -> Prop :=
| front_one ch t : 0 <= ch < 0x10000 -> (forall ch2 t2, t = ch2 :: t2 -> is_pair ch ch2 = false) ->
    utf16_front (ch :: t) (utf8_encode ch) t
| front_two ch ch2 t : is_pair ch ch2 = true -> utf16_front (ch :: ch2 :: t) (four_bytes ch ch2) t.

Lemma utf16_front_exists ch t : units (ch :: t) ->
  exists l t', utf16_front (ch :: t) l t' /\ units t' /\ (length t' < length (ch :: t))%nat.
Proof.
  intros Hu. inversion_clear Hu as [|? ? Hch Ht]. destruct t as [|ch2 t2].
  - do 2 eexists. split; [by constructor|]. split; [done|cbn; lia].
  - destruct (is_pair ch ch2) eqn:E.
    + exists (four_bytes ch ch2), t2. split; [by constructor|]. split; [by inversion_clear Ht|cbn; lia].
    + exists (utf8_encode ch), (ch2 :: t2). split; [constructor; [done|by intros ? ? [= <- <-]]|]. split; [done|cbn; lia].
Qed.

Lemma front_decode s l t : utf16_front s l t -> utf8_of (decode_utf16 s) = l ++ utf8_of (decode_utf16 t).
Proof.
  unfold utf8_of. intros [ch t' Hch Hp|ch ch2 t' Hp]; cbn [decode_utf16].
  - destruct t' as [|ch2 t2]; [done|]. by rewrite (Hp ch2 t2 eq_refl).
  - rewrite Hp. cbn [map concat]. by rewrite pair_bytes.
Qed.

Lemma front_length s l t n : utf16_front s l t -> utf16_length s n = utf16_length t (u32 (n + Z.of_nat (length l))).
Proof.
  unfold kUtf8OneByteBoundary, kUtf8TwoBytesBoundary.
  intros [ch t' Hch Hp|ch ch2 t' Hp]; cbn [utf16_length]; unfold kUtf8OneByteBoundary, kUtf8TwoBytesBoundary.
  - rewrite unit_bytes by done. destruct (ch <? 0x80); [done|]. destruct (ch <? 0x800); [done|].
    destruct t' as [|ch2 t2]; [done|]. by rewrite (Hp ch2 t2 eq_refl).
  - pose proof (proj1 (is_pair_spec ch ch2) Hp). destruct (Z.ltb_spec ch 0x80), (Z.ltb_spec ch 0x800); try lia.
    by rewrite Hp.
Qed.

Lemma front_loop s l t buf i : utf16_front s l t ->
  utf16_loop s buf i = (buf ← store buf i l; utf16_loop t buf (i + length l)).
Proof.
  intros [ch t' Hch Hp|ch ch2 t' Hp]; cbn [utf16_loop]; unfold kUtf8OneByteBoundary, kUtf8TwoBytesBoundary.
  - rewrite unit_bytes by done. destruct (ch <? 0x80); [done|]. destruct (ch <? 0x800); [done|].
    destruct t' as [|ch2 t2]; [done|]. by rewrite (Hp ch2 t2 eq_refl).
  - pose proof (proj1 (is_pair_spec ch ch2) Hp). destruct (Z.ltb_spec ch 0x80), (Z.ltb_spec ch 0x800); try lia.
    by rewrite Hp.
Qed.

Lemma front_bound s l t : utf16_front s l t -> (length l + 3 * length t <= 3 * length s)%nat.
Proof.
  intros [ch t' Hch Hp|ch ch2 t' Hp]; [|cbn; lia]. rewrite unit_bytes by done.
  destruct (ch <? 0x80); [cbn; lia|]. destruct (ch <? 0x800); cbn; lia.
Qed.

Lemma utf16_length_ok s : forall n, units s -> in_range 32 n ->
  utf16_length s n = u32 (n + Z.of_nat (length (utf8_of (decode_utf16 s)))).
Proof.
  induction s as [s IH] using list_strong_ind. intros n Hu Hn.
  destruct s as [|ch t]; [cbn; rewrite Z.add_0_r; symmetry; by apply wrap_small|].
  destruct (utf16_front_exists ch t Hu) as (l & t' & Hf & Hu' & Hlen).
  rewrite (front_length _ _ _ _ Hf), (front_decode _ _ _ Hf), IH, length_app by (done || by apply wrap_range).
  rewrite wrap_add_l. f_equal. lia.
Qed.

Lemma decoded_bound s : units s -> (length (utf8_of (decode_utf16 s)) <= 3 * length s)%nat.
Proof.
  induction s as [s IH] using list_strong_ind. intros Hu. destruct s as [|ch t]; [done|].
  destruct (utf16_front_exists ch t Hu) as (l & t' & Hf & Hu' & Hlen).
  rewrite (front_decode _ _ _ Hf), length_app. pose proof (front_bound _ _ _ Hf). specialize (IH t' Hlen Hu'). lia.
Qed.

(** The loop, with enough room and without. *)
Lemma utf16_loop_ok s : forall pre rest, units s ->
  utf16_loop s (pre ++ rest) (length pre)
    = if (length (utf8_of (decode_utf16 s)) <=? length rest)%nat
      then Ret (pre ++ utf8_of (decode_utf16 s) ++ drop (length (utf8_of (decode_utf16 s))) rest)
      else Fault OutOfBounds.
Proof.
  induction s as [s IH] using list_strong_ind. intros pre rest Hu. destruct s as [|ch t]; [done|].
  destruct (utf16_front_exists ch t Hu) as (l & t' & Hf & Hu' & Hlen).
  rewrite (front_loop _ _ _ _ _ Hf), (front_decode _ _ _ Hf), length_app.
  set (out := utf8_of (decode_utf16 t')).
  destruct (decide (length l <= length rest)%nat) as [Hl|Hl].
  - rewrite store_next, bind_Ret, <- length_app, IH by done. fold out. rewrite length_drop.
    destruct (Nat.leb_spec (length out) (length rest - length l)), (Nat.leb_spec (length l + length out) (length rest));
      try lia; [|done]. rewrite <- !app_assoc, drop_drop. done.
  - unfold store. rewrite decide_False by (rewrite length_app; lia).
    destruct (Nat.leb_spec (length l + length out) (length rest)); [lia|done].
Qed.

Lemma utf16_loop_all s : units s ->
  utf16toUTF8 (Some s) = if Z.of_nat (length (utf8_of (decode_utf16 s))) <? 2 ^ 32
                         then Ret (utf8_of (decode_utf16 s)) else Fault OutOfBounds.
Proof.
  intros Hu. unfold utf16toUTF8, utf16toUTF8Length. destruct s as [|ch t]; [done|].
  pose proof (utf16_loop_ok (ch :: t) [] (replicate (Z.to_nat (utf16_length (ch :: t) 0)) 0) Hu) as E.
  cbn [app length] in E. rewrite E, utf16_length_ok by (done || (split; lia)). rewrite Z.add_0_l, length_replicate.
  set (n := length (utf8_of (decode_utf16 (ch :: t)))).
  destruct (Z.ltb_spec (Z.of_nat n) (2 ^ 32)).
  - rewrite wrap_small, Nat2Z.id, Nat.leb_refl by (split; lia).
    by rewrite drop_ge, app_nil_r by (by rewrite length_replicate).
  - assert (u32 (Z.of_nat n) < 2 ^ 32) by (by apply wrap_range).
    pose proof (wrap_range 32 (Z.of_nat n) ltac:(lia)) as [? _].
    destruct (Nat.leb_spec n (Z.to_nat (u32 (Z.of_nat n)))); [lia|done].
Qed.

(** The conversion from UTF-16 gives the UTF-8 encoding of the codes, and the
    first pass has measured it exactly: the buffer is filled to its end. This
    is so while three bytes for each unit fit 32 bits. *)
Theorem utf16toUTF8_encodes s : units s -> 3 * Z.of_nat (length s) < 2 ^ 32 ->
  utf16toUTF8 (Some s) = Ret (utf8_of (decode_utf16 s)) /\
  utf16toUTF8Length (Some s) = Z.of_nat (length (utf8_of (decode_utf16 s))).
Proof.
  intros Hu Hl. pose proof (decoded_bound s Hu). split.
  - rewrite utf16_loop_all by done. by destruct (Z.ltb_spec (Z.of_nat (length (utf8_of (decode_utf16 s)))) (2 ^ 32)); [|lia].
  - unfold utf16toUTF8Length. destruct s as [|ch t]; [done|].
    rewrite utf16_length_ok, Z.add_0_l by (done || (split; lia)). apply wrap_small. split; lia.
Qed.

(** Beyond, the 32-bit length wraps, the buffer is too small, and the second
    pass writes past its end. *)
Theorem utf16_length_overflows n : 2 ^ 32 <= 3 * Z.of_nat n ->
  utf16toUTF8 (Some (replicate n 0x20AC)) = Fault OutOfBounds.
Proof.
  intros Hn. assert (utf8_of (decode_utf16 (replicate n 0x20AC)) = concat (replicate n [0xE2; 0x82; 0xAC])) as E.
  { clear Hn. unfold utf8_of. induction n as [|n IH]; [done|]. destruct n as [|n]; [done|].
    assert (decode_utf16 (replicate (S (S n)) 0x20AC) = 0x20AC :: decode_utf16 (replicate (S n) 0x20AC)) as -> by done.
    cbn [map concat]. rewrite IH. done. }
  rewrite utf16_loop_all, E.
  - assert (length (concat (replicate n [0xE2; 0x82; 0xAC])) = (3 * n)%nat) as ->.
    { clear. induction n as [|n IH]; [done|]. cbn [replicate concat]. rewrite length_app, IH. cbn. lia. }
    destruct (Z.ltb_spec (Z.of_nat (3 * n)) (2 ^ 32)); [lia|done].
  - apply Forall_replicate. lia.
Qed.

(** Text in UTF-16. *)
Definition utf16_encode (c : Z) : list Z :=
  if c <? 0x10000 then [c] else [high_surrogate c; low_surrogate c].

Lemma decode_utf16_encode cs : Forall scalar cs -> decode_utf16 (concat (map utf16_encode cs)) = cs.
Proof.
  induction 1 as [|c cs Hc _ IH]; [done|]. cbn [map concat]. unfold utf16_encode at 1.
  destruct (Z.ltb_spec c 0x10000).
  - cbn [app decode_utf16]. rewrite IH. destruct (concat (map utf16_encode cs)) as [|ch2 t]; [done|].
    assert (is_pair c ch2 = false) as ->; [|done]. apply not_true_iff_false. rewrite is_pair_spec.
    unfold scalar in Hc. lia.
  - cbn [app decode_utf16]. assert (is_pair (high_surrogate c) (low_surrogate c) = true) as ->.
    { apply is_pair_spec. unfold high_surrogate, low_surrogate, scalar in *. divs. }
    rewrite IH. f_equal. unfold high_surrogate, low_surrogate. divs.
Qed.

(** ** Witnesses *)

Lemma utf8ToModifiedUTF8_fits_witness :
  utf8ToModifiedUTF8 [0x41; 0; 0xF0; 0x9F; 0x98; 0x80; 0xF0] (replicate 12 9) 12
    = Ret [0x41; 0xC0; 0x80; 0xED; 0xA0; 0xBD; 0xED; 0xB8; 0x80; 0xF0; 0; 9] /\
  utf8ToModifiedUTF8 [0xF0; 0x80; 0x80; 0x80] (replicate 7 9) 7 = Fault Aborted.
Proof.
  split; [vm_compute; reflexivity|].
  apply (utf8ToModifiedUTF8_fits [0xF0; 0x80; 0x80; 0x80] (replicate 7 9)). vm_compute. lia.
Defined.

Lemma modifiedLength_agree_witness : modifiedLength_z ([0xF0; 0x9F; 0x98; 0x80; 0x41] ++ [0; 5]) = Ret (7%nat, 5%nat).
Proof. apply (modifiedLength_agree [0xF0; 0x9F; 0x98; 0x80; 0x41] [5]). repeat constructor; lia. Defined.

Definition sample_text : list Z := [0x41; 0; 0xE9; 0x20AC; 0x1F600].

Lemma modified_utf8_round_trip_witness :
  modifiedUTF8ToUTF8 (mutf8_of sample_text) = Ret (utf8_of sample_text) /\
  modifiedUTF8ToUTF8 (mutf8_of [0x10FFFF]) = Fault Aborted.
Proof.
  assert (Forall scalar sample_text) as H1 by (repeat constructor; unfold scalar; lia).
  assert (Forall scalar [0x10FFFF]) as H2 by (repeat constructor; unfold scalar; lia).
  split.
  - destruct (modified_utf8_round_trip sample_text (replicate 20 0) H1) as (_ & _ & E); [vm_compute; lia|exact E].
  - destruct (modified_utf8_round_trip [0x10FFFF] (replicate 20 0) H2) as (_ & _ & E); [vm_compute; lia|exact E].
Defined.

Lemma utf16toUTF8_encodes_witness :
  utf16toUTF8 (Some [0x41; 0xD83D; 0xDE00; 0xD800]) = Ret [0x41; 0xF0; 0x9F; 0x98; 0x80; 0xED; 0xA0; 0x80].
Proof.
  assert (units [0x41; 0xD83D; 0xDE00; 0xD800]) as Hu by (repeat constructor; lia).
  destruct (utf16toUTF8_encodes _ Hu) as [E _]; [cbn; lia|]. exact E.
Defined.

Lemma utf16_length_overflows_witness :
  utf16toUTF8 (Some (replicate (Z.to_nat 1431655766) 0x20AC)) = Fault OutOfBounds.
Proof. apply (utf16_length_overflows (Z.to_nat 1431655766)). rewrite Z2Nat.id; lia. Defined.
