(* ===== verification/ATrace.v ===== *)
(** The two libraries that hook with the linker component: the systrace logger,
    atracehook/src/main/cpp/ATraceLogger.cpp, and the thread hook,
    ThreadHook/src/main/cpp/threadHook.cpp.

    The state of the logger holds the linker's [world] (Linker.v). The two
    variables of the platform's trace library that it finds with dlsym, a file
    descriptor and an atomic mask of tags, are objects by address in maps of
    their own, so that the pointers can be null and be found again. A
    std::runtime_error that is thrown here is [Some]; one that comes out of
    [hook_plt_method] is the system_error of the trampolines' allocator, and the
    world it leaves is a parameter. The lines given to the
    Android log are a list, newest first. dlopen, dlsym, the system version,
    and the function that a hook calls next are parameters. The JNI glue of
    threadHook.cpp is left out, apart from the Java stack it prints. *)
From S2P Require Import Prelude Sigmux SigSafe ElfLib SharedLibs Hooks Trampoline Linker.

Definition UINT64_MAX : Z := 2 ^ 64 - 1.

Inductive rtld := RTLD_LOCAL | RTLD_GLOBAL.

Inductive runtime_error := What (text : cstr) | system_error.

(** dlopen gives a handle, 0 on failure; dlsym an address, 0 when not found. *)
Record dynamic := mkDynamic {
  dlopen : option cstr -> rtld -> Z;
  dlsym : Z -> cstr -> Z;
}.

Module Systrace.

Record tracer {K OS : Type} := mkTracer {
  linker : world K OS;
  fds : gmap Z Z;
  tags : gmap Z Z;
  atrace_marker_fd : Z;
  atrace_enabled_tags : Z;
  original_tags : Z;
  systrace_installed : bool;
  first_enable : bool;
  log : list cstr;
}.
Arguments tracer : clear implicits.
Arguments mkTracer {K OS}.

(** The static initialisation: [systrace_installed] is zero-initialised. *)
Definition new_tracer {K OS} (w : world K OS) (fds tags : gmap Z Z) : tracer K OS :=
  mkTracer w fds tags 0 0 UINT64_MAX false true [].

Section Systrace.
Context {K OS : Type} (P : platform K OS) (D : dynamic).

(** The addresses of the two hooks, and the function that a pointer calls. *)
Context (write_hook_address write_chk_hook_address : Z) (call : Z -> list Z -> Z).

(** The world that an exception out of [hookLoadedLibs] leaves. *)
Context (thrown : world K OS -> world K OS).
Implicit Type t : tracer K OS.

Definition set_linker t w : tracer K OS :=
  mkTracer w (fds t) (tags t) (atrace_marker_fd t) (atrace_enabled_tags t) (original_tags t)
    (systrace_installed t) (first_enable t) (log t).
Definition set_tags t m : tracer K OS :=
  mkTracer (linker t) (fds t) m (atrace_marker_fd t) (atrace_enabled_tags t) (original_tags t)
    (systrace_installed t) (first_enable t) (log t).
Definition set_marker_fd t p : tracer K OS :=
  mkTracer (linker t) (fds t) (tags t) p (atrace_enabled_tags t) (original_tags t)
    (systrace_installed t) (first_enable t) (log t).
Definition set_enabled_tags t p : tracer K OS :=
  mkTracer (linker t) (fds t) (tags t) (atrace_marker_fd t) p (original_tags t)
    (systrace_installed t) (first_enable t) (log t).
Definition set_original t v : tracer K OS :=
  mkTracer (linker t) (fds t) (tags t) (atrace_marker_fd t) (atrace_enabled_tags t) v
    (systrace_installed t) (first_enable t) (log t).
Definition set_installed t b : tracer K OS :=
  mkTracer (linker t) (fds t) (tags t) (atrace_marker_fd t) (atrace_enabled_tags t) (original_tags t)
    b (first_enable t) (log t).
Definition set_first t b : tracer K OS :=
  mkTracer (linker t) (fds t) (tags t) (atrace_marker_fd t) (atrace_enabled_tags t) (original_tags t)
    (systrace_installed t) b (log t).
Definition ALOG t (line : cstr) : tracer K OS :=
  mkTracer (linker t) (fds t) (tags t) (atrace_marker_fd t) (atrace_enabled_tags t) (original_tags t)
    (systrace_installed t) (first_enable t) (line :: log t).

(** ** The hooks of write *)

(** [%s]: the bytes up to the first zero. *)
Fixpoint print_s (mem : Z -> option Z) (fuel : nat) (p : Z) : res cstr :=
  match fuel with
  | O => Fault OutOfFuel
  | S fuel =>
      c ← get_or_oob (mem p);
      if c =? 0 then Ret [] else s ← print_s mem fuel (p + 1); Ret (c :: s)
  end.

Definition log_systrace t (buf : Z) : res (tracer K OS) :=
  let m := byte_at (mem (linker t)) in
  c ← get_or_oob (m buf);
  if c =? 66 then
    s ← print_s m (fuel P) buf;
    Ret (ALOG t (literal "========= " ++ s))
  else if c =? 69 then Ret (ALOG t (literal "========= E"))
  else Ret t.

Definition should_log_systrace t (fd count : Z) : res bool :=
  if negb (systrace_installed t) then Ret false
  else
    marker ← get_or_oob (fds t !! atrace_marker_fd t);
    Ret ((fd =? marker) && (0 <? count)).

(** [CALL_PREV]: the next function of the run list in the thread's stack. *)
Definition CALL_PREV (thread : HookStack.thread) (hook : Z) (arguments : list Z) : res Z :=
  previous ← HookStack.get_previous_from_hook thread hook;
  Ret (call previous arguments).

(** [count] is returned as a [ssize_t]. *)
Definition write_hook t (thread : HookStack.thread) (fd buf count : Z) : res (Z * tracer K OS) :=
  should ← should_log_systrace t fd count;
  if should : bool then
    t ← log_systrace t buf;
    Ret (swrap (addr_width (arch P)) count, t)
  else
    r ← CALL_PREV thread write_hook_address [fd; buf; count];
    Ret (r, t).

Definition write_chk_hook t (thread : HookStack.thread) (fd buf count buf_size : Z) : res (Z * tracer K OS) :=
  should ← should_log_systrace t fd count;
  if should : bool then
    t ← log_systrace t buf;
    Ret (swrap (addr_width (arch P)) count, t)
  else
    r ← CALL_PREV thread write_chk_hook_address [fd; buf; count; buf_size];
    Ret (r, t).

(** ** Installing *)

(** Neither result is looked at. *)
Definition hookLoadedLibs (w : world K OS) : res (world K OS) :=
  '(_, w) ← hook_plt_method P w (literal "libc.so") (literal "write") write_hook_address;
  '(_, w) ← hook_plt_method P w (literal "libc.so") (literal "__write_chk") write_chk_hook_address;
  Ret w.

(** Called where a std::runtime_error is caught: whether it returned. *)
Definition try_hookLoadedLibs (w : world K OS) : res (bool * world K OS) :=
  match hookLoadedLibs w with
  | Ret w => Ret (true, w)
  | Fault Thrown => Ret (false, thrown w)
  | Fault f => Fault f
  end.

(** The handle, and the names of the two symbols. *)
Definition trace_symbols (sdk : Z) : Z * cstr * cstr :=
  let '(lib_name, enabled_tags_sym, fd_sym) :=
    if sdk <? 18 then
      (literal "libutils.so", literal "_ZN7android6Tracer12sEnabledTagsE", literal "_ZN7android6Tracer8sTraceFDE")
    else (literal "libcutils.so", literal "atrace_enabled_tags", literal "atrace_marker_fd") in
  (if sdk <? 21 then dlopen D (Some lib_name) RTLD_LOCAL else dlopen D None RTLD_GLOBAL,
   enabled_tags_sym, fd_sym).

Definition installSystraceSnooper t (system : loaded_libs) : res (option runtime_error * tracer K OS) :=
  let '(handle, enabled_tags_sym, fd_sym) := trace_symbols (sdk P) in
  let t := set_enabled_tags t (dlsym D handle enabled_tags_sym) in
  if atrace_enabled_tags t =? 0 then Ret (Some (What (literal "Enabled Tags not defined")), t)
  else
    let t := set_marker_fd t (dlsym D handle fd_sym) in
    if atrace_marker_fd t =? 0 then Ret (Some (What (literal "Trace FD not defined")), t)
    else
      fd ← get_or_oob (fds t !! atrace_marker_fd t);
      if fd =? -1 then Ret (Some (What (literal "Trace FD not valid")), t)
      else
        '(r, w) ← linker_initialize P (linker t) system;
        let t := set_linker t w in
        if negb (r =? 0) then Ret (Some (What (literal "Could not initialize linker library")), t)
        else
          '(ok, w) ← try_hookLoadedLibs (linker t);
          let t := set_linker t w in
          if negb ok then Ret (Some system_error, t) else Ret (None, set_installed t true).

Definition installSystraceHook t (system : loaded_libs) : res (bool * tracer K OS) :=
  let t := ALOG t (literal "===============install systrace hoook==================") in
  '(e, t) ← installSystraceSnooper t system;
  Ret (match e with None => true | Some _ => false end, t).

(** The JNI method. *)
Definition Atrace_installSystraceHook t (system : loaded_libs) : res (bool * tracer K OS) :=
  '(_, t) ← installSystraceHook t system;
  Ret (true, t).

(** ** Enabling *)

(** The [exchange] and the [store] of the atomic behind the pointer. *)
Definition exchange t (v : Z) : res (Z * tracer K OS) :=
  prev ← get_or_oob (tags t !! atrace_enabled_tags t);
  Ret (prev, set_tags t (<[atrace_enabled_tags t := v]> (tags t))).

Definition store_tags t (v : Z) : res (tracer K OS) :=
  _ ← get_or_oob (tags t !! atrace_enabled_tags t);
  Ret (set_tags t (<[atrace_enabled_tags t := v]> (tags t))).

Definition enableSystrace t : res (tracer K OS) :=
  if negb (systrace_installed t) then Ret t
  else
    t ← (if negb (first_enable t) then
           '(_, w) ← try_hookLoadedLibs (linker t);
           Ret (set_linker t w)
         else Ret t);
    let t := set_first t false in
    '(prev, t) ← exchange t UINT64_MAX;
    Ret (if negb (prev =? UINT64_MAX) then set_original t prev else t).

Definition restoreSystrace t : res (tracer K OS) :=
  if negb (systrace_installed t) then Ret t
  else
    let saved := original_tags t in
    if negb (saved =? UINT64_MAX) then store_tags t saved else Ret t.

End Systrace.
End Systrace.

(** * The thread hook *)

Module ThreadHook.

Record state {K OS : Type} := mkState { linker : world K OS; thread_hooked : bool; log : list cstr }.
Arguments state : clear implicits.
Arguments mkState {K OS}.

Section ThreadHook.
Context {K OS : Type} (P : platform K OS).
Context (pthread_create_hook_address : Z) (call : Z -> list Z -> Z).
Implicit Type s : state K OS.

Definition ALOG s (line : cstr) : state K OS := mkState (linker s) (thread_hooked s) (line :: log s).

(** [java_stack] is what the Java method returns, [None] for null. *)
Definition printJavaStack s (java_stack : option cstr) : state K OS :=
  match java_stack with
  | None => s
  | Some stack => ALOG s (literal "stack:" ++ stack)
  end.

Definition pthread_create_hook s (thread_stack : HookStack.thread) (java_stack : option cstr)
    (thread attr start_routine arg : Z) : res (Z * state K OS) :=
  let s := printJavaStack s java_stack in
  r ← Systrace.CALL_PREV call thread_stack pthread_create_hook_address [thread; attr; start_routine; arg];
  Ret (r, s).

Definition hookLoadedLibs s : res (state K OS) :=
  let s := ALOG s (literal "hook_plt_method") in
  '(_, w) ← hook_plt_method P (linker s) (literal "libart.so") (literal "pthread_create") pthread_create_hook_address;
  Ret (mkState w (thread_hooked s) (log s)).

(** The exception leaves the function, with [thread_hooked] set. *)
Definition enableThreadHook s (system : loaded_libs) : res (state K OS) :=
  if thread_hooked s then Ret s
  else
    let s := ALOG s (literal "enableThreadHook") in
    let s := mkState (linker s) true (log s) in
    '(r, w) ← linker_initialize P (linker s) system;
    if negb (r =? 0) then Fault Thrown
    else hookLoadedLibs (mkState w (thread_hooked s) (log s)).

End ThreadHook.
End ThreadHook.

(** * Hooking again

    What [hookLoadedLibs] does where the slots are hooked already. *)
Import Systrace.

Section Again.
Context {K OS : Type} (P : platform K OS) (wh chk : Z).
Implicit Type w : world K OS.

(** The slots that a name has in libc.so; none when the library is not known. *)
Definition visits w (name : cstr) (slots : list Z) : Prop :=
  match sharedLib (dladdr P) (libs w) (literal "libc.so") with
  | Fault f => f = Thrown /\ slots = []
  | Ret lib => slots_of P w lib name = Ret (Some slots) \/ slots_of P w lib name = Ret None /\ slots = []
  end.

Record settled w (write_slots chk_slots : list Z) : Prop := {
  se_world : world_ok w;
  se_ids : next_id (table w) < 2 ^ 32 - 1;
  se_hooks : wh <> 0 /\ chk <> 0;
  se_write : visits w (literal "write") write_slots;
  se_chk : visits w (literal "__write_chk") chk_slots;
  se_write_live : Forall (live_slot P w) write_slots;
  se_chk_live : Forall (live_slot P w) chk_slots;
}.

Lemma hook_plt_again w name hook slots : world_ok w -> next_id (table w) < 2 ^ 32 - 1 -> hook <> 0 ->
  visits w name slots -> Forall (live_slot P w) slots ->
  exists r t, hook_plt_method P w (literal "libc.so") name hook = Ret (r, set_table w t) /\
    Hooks.wf t /\ next_id t = next_id (table w) /\ abs t = appended hook slots (abs (table w)).
Proof.
  intros Hw Hn Hh Hv Hl. unfold hook_plt_method, hook_single_lib. unfold visits in Hv.
  assert (w = set_table w (table w)) as Hsame by (by destruct w).
  destruct (sharedLib _ _ _) as [lib|f]; cycle 1.
  { destruct Hv as [-> ->]. rewrite bind_Ret. do 2 eexists. rewrite Hsame at 1. split; [done|].
    by split; [apply (wo_table _ Hw)|]. }
  cbn [hook_specs fn_name hook_fn]. apply Z.eqb_neq in Hh as Hz. rewrite Hz.
  destruct Hv as [Hv|[Hv ->]]; rewrite Hv, bind_Ret; cycle 1.
  { rewrite !bind_Ret. do 2 eexists. rewrite Hsame at 1. split; [done|]. by split; [apply (wo_table _ Hw)|]. }
  destruct (hook_slots_again P slots (mkSpec (Some name) hook 0) 0 w Hw Hn Hh Hl) as (t & E & Ht).
  rewrite E, !bind_Ret. by do 2 eexists.
Qed.

Lemma live_appended w t f slots p : abs t = appended f slots (abs (table w)) ->
  live_slot P w p -> live_slot P (set_table w t) p.
Proof.
  intros E [[l Hl] Hv]. split; [|done]. cbn [table set_table]. rewrite E, appended_lookup, Hl. by eexists.
Qed.

Lemma settled_table w t f slots sw sc : settled w sw sc -> Hooks.wf t -> next_id t = next_id (table w) ->
  abs t = appended f slots (abs (table w)) -> settled (set_table w t) sw sc.
Proof.
  intros [Hw Hn Hh Hvw Hvc Hlw Hlc] Hwf Hid E. split; [by apply set_table_ok|cbn; lia|done|exact Hvw|exact Hvc|..];
    (eapply Forall_impl; [eassumption|]; intros p; by apply (live_appended w t f slots)).
Qed.

Lemma hookLoadedLibs_again w sw sc : settled w sw sc ->
  exists t, hookLoadedLibs P wh chk w = Ret (set_table w t) /\ settled (set_table w t) sw sc /\
    abs t = appended chk sc (appended wh sw (abs (table w))).
Proof.
  intros Hs. unfold hookLoadedLibs. destruct (se_hooks _ _ _ Hs) as [Hh Hc].
  destruct (hook_plt_again w _ wh sw (se_world _ _ _ Hs) (se_ids _ _ _ Hs) Hh (se_write _ _ _ Hs) (se_write_live _ _ _ Hs))
    as (r1 & t1 & -> & Hwf1 & Hid1 & E1). rewrite bind_Ret.
  pose proof (settled_table _ _ _ _ _ _ Hs Hwf1 Hid1 E1) as Hs1.
  destruct (hook_plt_again (set_table w t1) _ chk sc (se_world _ _ _ Hs1) (se_ids _ _ _ Hs1) Hc (se_chk _ _ _ Hs1)
    (se_chk_live _ _ _ Hs1)) as (r2 & t2 & -> & Hwf2 & Hid2 & E2). rewrite bind_Ret.
  exists t2. split; [done|]. split; [by apply (settled_table _ _ _ _ _ _ Hs1 Hwf2 Hid2 E2)|]. by rewrite E2, <- E1.
Qed.
End Again.

(** * Enabling and restoring *)

Inductive op := Enable | Restore.

Section Tags.
Context {K OS : Type} (P : platform K OS) (wh chk : Z) (thrown : world K OS -> world K OS).
Implicit Type t : tracer K OS.

Definition exec t (o : op) : res (tracer K OS) :=
  match o with
  | Enable => enableSystrace P wh chk thrown t
  | Restore => restoreSystrace t
  end.

Fixpoint run (ops : list op) t : res (tracer K OS) :=
  match ops with
  | [] => Ret t
  | o :: ops => t ← exec t o; run ops t
  end.

Lemma run_app l1 l2 t : run (l1 ++ l2) t = (t ← run l1 t; run l2 t).
Proof.
  revert t. induction l1 as [|o l1 IH]; intros t; cbn [app run]; [done|].
  rewrite bind_assoc. destruct (exec t o); [|done]. by rewrite !bind_Ret.
Qed.

(** [saved] is what the tags were at first. *)
Record tracing (t0 : tracer K OS) (sw sc : list Z) (saved cell : Z) t : Prop := {
  tr_installed : systrace_installed t = true;
  tr_settled : settled P wh chk (linker t) sw sc;
  tr_pointer : atrace_enabled_tags t = atrace_enabled_tags t0;
  tr_tags : tags t = <[atrace_enabled_tags t0 := cell]> (tags t0);
  tr_original : original_tags t = UINT64_MAX /\ cell = saved \/
    original_tags t = saved /\ (cell = saved \/ cell = UINT64_MAX);
}.

Lemma tracing_lookup t0 sw sc saved cell t : tracing t0 sw sc saved cell t ->
  tags t !! atrace_enabled_tags t = Some cell.
Proof. intros H. by rewrite (tr_tags _ _ _ _ _ _ H), (tr_pointer _ _ _ _ _ _ H), lookup_insert_eq. Qed.

(** What an enable does before it exchanges the tags. *)
Lemma enable_hooks t0 sw sc saved cell t : tracing t0 sw sc saved cell t ->
  exists t1, enableSystrace P wh chk thrown t =
      Ret (let t2 := set_tags t1 (<[atrace_enabled_tags t1 := UINT64_MAX]> (tags t1)) in
           if negb (cell =? UINT64_MAX) then set_original t2 cell else t2) /\
    tracing t0 sw sc saved cell t1 /\ first_enable t1 = false /\ original_tags t1 = original_tags t /\
    abs (table (linker t1)) =
      (if first_enable t then abs (table (linker t))
       else appended chk sc (appended wh sw (abs (table (linker t))))).
Proof.
  intros H. unfold enableSystrace. rewrite (tr_installed _ _ _ _ _ _ H). cbn [negb].
  pose proof (tracing_lookup _ _ _ _ _ _ H) as Hc.
  destruct (first_enable t) eqn:Hf; cbn [negb]; cycle 1.
  - destruct (hookLoadedLibs_again P wh chk _ _ _ (tr_settled _ _ _ _ _ _ H)) as (tb & E & Hs & Ha).
    unfold try_hookLoadedLibs. rewrite E, !bind_Ret. unfold exchange.
    exists (set_first (set_linker t (set_table (linker t) tb)) false).
    cbn [tags atrace_enabled_tags set_first set_linker]. rewrite Hc. cbn [get_or_oob]. rewrite !bind_Ret.
    split; [done|]. split; [|done]. destruct H. by split.
  - rewrite bind_Ret. unfold exchange. exists (set_first t false). cbn [tags atrace_enabled_tags set_first].
    rewrite Hc. cbn [get_or_oob]. rewrite !bind_Ret. split; [done|]. split; [|done]. destruct H. by split.
Qed.

Lemma exec_tracing t0 sw sc saved cell t o : tracing t0 sw sc saved cell t ->
  exists t', exec t o = Ret t' /\
    tracing t0 sw sc saved (match o with Enable => UINT64_MAX | Restore => saved end) t'.
Proof.
  intros H. destruct o; cbn [exec].
  - destruct (enable_hooks _ _ _ _ _ _ H) as (t1 & -> & [H1 H2 H3 H4 H5] & _). eexists. split; [done|].
    cbv zeta. destruct (Z.eqb_spec cell UINT64_MAX) as [->|Hne]; cbn [negb]; split; cbn; try done.
    all: try (by rewrite H3, H4, insert_insert_eq).
    right. split; [|by right]. by destruct H5 as [[_ E]|[_ [E|E]]].
  - unfold restoreSystrace. rewrite (tr_installed _ _ _ _ _ _ H). cbn [negb].
    pose proof (tracing_lookup _ _ _ _ _ _ H) as Hc. destruct H as [H1 H2 H3 H4 H5].
    destruct (Z.eqb_spec (original_tags t) UINT64_MAX) as [Hm|Hne]; cbn [negb].
    + exists t. split; [done|]. destruct H5 as [[_ ->]|[Ho H5]]; [split; try done; by left|].
      assert (saved = UINT64_MAX) as -> by congruence. destruct H5 as [-> | ->]; split; try done; by left.
    + unfold store_tags. rewrite Hc. cbn [get_or_oob]. rewrite bind_Ret. eexists. split; [done|].
      destruct H5 as [[? _]|[Ho _]]; [done|]. split; cbn; try done; [by rewrite H3, H4, Ho, insert_insert_eq|].
      right. split; [done|by left].
Qed.

(** C33: However enabling and restoring follow each other, the tags are all set
    after an enable and what they were at first after a restore, and nothing
    else in the trace library changes. *)
Theorem enable_restore_keeps_tags ops t sw sc saved :
  systrace_installed t = true -> settled P wh chk (linker t) sw sc ->
  tags t !! atrace_enabled_tags t = Some saved -> original_tags t = UINT64_MAX ->
  exists t', run ops t = Ret t' /\
    tags t' = <[atrace_enabled_tags t := match last ops with Some Enable => UINT64_MAX | _ => saved end]> (tags t).
Proof.
  intros Hi Hs Ht Ho.
  enough (exists t', run ops t = Ret t' /\
    tracing t sw sc saved (match last ops with Some Enable => UINT64_MAX | _ => saved end) t') as (t' & E & H).
  { exists t'. split; [done|]. apply H. }
  induction ops as [|o ops IH] using rev_ind.
  { exists t. split; [done|]. split; [done..| |by left]. cbn. by rewrite insert_id. }
  destruct IH as (t1 & E & H). rewrite run_app, E, bind_Ret, last_snoc. cbn [run].
  destruct (exec_tracing _ _ _ _ _ _ o H) as (t2 & -> & H2). exists t2. split; [done|]. by destruct o.
Qed.

(** Each enable after the first puts the hook into the run list of a hooked
    slot once more. *)
Theorem enable_accumulates n t sw sc saved p l :
  systrace_installed t = true -> settled P wh chk (linker t) sw sc ->
  tags t !! atrace_enabled_tags t = Some saved -> original_tags t = UINT64_MAX -> first_enable t = true ->
  NoDup sw -> p ∈ sw -> p ∉ sc -> Hooks.run_list (table (linker t)) p = Some l ->
  exists t', run (replicate (S n) Enable) t = Ret t' /\
    Hooks.run_list (table (linker t')) p = Some (l ++ replicate n wh).
Proof.
  intros Hi Hs Ht Ho Hf Hnd Hin Hni Hl. rewrite <- lookup_abs in Hl.
  assert (tracing t sw sc saved saved t) as H0 by (split; try done; [by rewrite insert_id|by left]).
  enough (exists t' cell, run (replicate (S n) Enable) t = Ret t' /\ tracing t sw sc saved cell t' /\
    first_enable t' = false /\ abs (table (linker t')) !! p = Some (l ++ replicate n wh)) as (t' & _ & E & _ & _ & H).
  { exists t'. split; [done|]. by rewrite <- lookup_abs. }
  assert (forall t1 cell, tracing t sw sc saved cell t1 -> exists t2, enableSystrace P wh chk thrown t1 = Ret t2 /\
    tracing t sw sc saved UINT64_MAX t2 /\ first_enable t2 = false /\ abs (table (linker t2)) =
      (if first_enable t1 then abs (table (linker t1)) else appended chk sc (appended wh sw (abs (table (linker t1))))))
    as Hstep.
  { intros t1 cell H. destruct (exec_tracing _ _ _ _ _ _ Enable H) as (t2 & E & H2). cbn [exec] in E.
    destruct (enable_hooks _ _ _ _ _ _ H) as (t3 & E3 & _ & Hf3 & _ & Ha). exists t2.
    split; [done|]. split; [done|]. rewrite E3 in E. injection E as <-. by destruct (negb _). }
  induction n as [|n IH].
  - destruct (Hstep t saved H0) as (t2 & E & H2 & Hf2 & Ha). exists t2, UINT64_MAX. cbn [replicate run exec].
    rewrite E, bind_Ret. rewrite Hf in Ha. rewrite Ha, app_nil_r. done.
  - destruct IH as (t1 & cell & E & H1 & Hf1 & Hl1). destruct (Hstep t1 cell H1) as (t2 & E2 & H2 & Hf2 & Ha).
    exists t2, UINT64_MAX. rewrite replicate_S_end, run_app, E, bind_Ret. cbn [run exec]. rewrite E2, bind_Ret.
    split; [done|]. split; [done|]. split; [done|]. rewrite Ha, Hf1, !appended_lookup, Hl1.
    rewrite (proj1 (NoDup_count_occ' Z.eq_dec sw)); [|by apply NoDup_ListNoDup|by apply list_elem_of_In].
    rewrite (proj1 (count_occ_not_In Z.eq_dec sc p)) by (by rewrite <- list_elem_of_In). cbn.
    by rewrite app_nil_r, <- app_assoc, <- replicate_S_end.
Qed.
End Tags.

(** * The hooks *)

Section Hooked.
Context {K OS : Type} (P : platform K OS) (D : dynamic) (wh chk : Z) (call : Z -> list Z -> Z)
  (thrown : world K OS -> world K OS).
Implicit Type t : tracer K OS.

(** The C string [s] at [p]. *)
Fixpoint cstring_at (m : Z -> option Z) (p : Z) (s : list Z) : Prop :=
  match s with
  | [] => m p = Some 0
  | c :: s => m p = Some c /\ c <> 0 /\ cstring_at m (p + 1) s
  end.

Lemma print_s_ok m s : forall p n, cstring_at m p s -> (length s < n)%nat -> print_s m n p = Ret s.
Proof.
  induction s as [|c s IH]; intros p [|n] Hs Hn; cbn [length] in Hn; try lia; cbn [print_s cstring_at] in *.
  - by rewrite Hs.
  - destruct Hs as (Hc & Hz & Hs). rewrite Hc. cbn [get_or_oob]. rewrite bind_Ret.
    apply Z.eqb_neq in Hz. rewrite Hz, (IH _ n Hs); [done|lia].
Qed.

(** A write to the trace marker is never done: the hook answers that all of
    it was written. For an event that begins, the line in the log is the buffer
    and whatever follows it in memory up to a zero, [rest]. *)
Theorem write_hook_swallows t thread fd buf (data rest : list Z) :
  systrace_installed t = true -> fds t !! atrace_marker_fd t = Some fd ->
  data !! 0%nat = Some 66 -> cstring_at (byte_at (mem (linker t))) buf (data ++ rest) ->
  (length (data ++ rest) < fuel P)%nat -> Z.of_nat (length data) < 2 ^ (addr_width (arch P) - 1) ->
  write_hook P wh call t thread fd buf (Z.of_nat (length data)) =
    Ret (Z.of_nat (length data), ALOG t (literal "========= " ++ data ++ rest)).
Proof.
  intros Hi Hfd Hh Hs Hn Hl. destruct data as [|c data]; [done|]. injection Hh as ->.
  unfold write_hook, should_log_systrace. rewrite Hi, Hfd. cbn [negb get_or_oob]. rewrite !bind_Ret, Z.eqb_refl.
  replace (0 <? Z.of_nat (length (66 :: data))) with true by (symmetry; apply Z.ltb_lt; cbn [length]; lia).
  cbn [andb]. unfold log_systrace. rewrite (proj1 Hs). cbn [get_or_oob]. rewrite bind_Ret. cbn [Z.eqb Pos.eqb].
  rewrite (print_s_ok _ _ _ _ Hs Hn), !bind_Ret. do 2 f_equal. apply swrap_small; [|lia].
  unfold addr_width. by destruct (lp64 (arch P)).
Qed.

(** The function before [hook] in the run list of the innermost active call. *)
Definition before_hook (thread : HookStack.thread) (hook prev : Z) : Prop :=
  exists r o l l', HookStack.specific thread = Some r /\ HookStack.heap thread !! r = Some o /\
    HookStack.run_list o = l ++ prev :: hook :: l' /\ hook ∉ l ++ [prev].

Lemma find_index_first l x l' : x ∉ l -> find_index (l ++ x :: l') x = Some (length l).
Proof.
  induction l as [|y l IH]; intros Hn; cbn [app find_index length]; [by rewrite Z.eqb_refl|].
  apply not_elem_of_cons in Hn as [Hne Hn]. destruct (Z.eqb_spec y x); [done|]. by rewrite IH.
Qed.

Lemma CALL_PREV_ok thread hook prev args : before_hook thread hook prev ->
  CALL_PREV call thread hook args = Ret (call prev args).
Proof.
  intros (r & o & l & l' & Hr & Ho & Hl & Hn). unfold CALL_PREV, HookStack.get_previous_from_hook, HookStack.get_hook_info.
  rewrite Hr, Ho. cbn [get_or_oob]. rewrite !bind_Ret, Hl.
  replace (l ++ prev :: hook :: l') with ((l ++ [prev]) ++ hook :: l') by (by rewrite <- app_assoc).
  rewrite find_index_first, length_app, Nat.add_1_r, <- app_assoc by done. cbn [app].
  by rewrite list_lookup_middle.
Qed.

(** Any other write goes to the next function with its arguments, and its
    answer is the caller's; the logger is not touched. *)
Theorem write_hook_passes t thread fd marker buf count prev :
  before_hook thread wh prev ->
  systrace_installed t = false \/ fds t !! atrace_marker_fd t = Some marker /\ (fd <> marker \/ count = 0) ->
  write_hook P wh call t thread fd buf count = Ret (call prev [fd; buf; count], t).
Proof.
  intros Hb Hc. unfold write_hook.
  assert (should_log_systrace t fd count = Ret false) as ->.
  { unfold should_log_systrace. destruct (systrace_installed t); [|done]. destruct Hc as [?|[Hm Hc]]; [done|].
    cbn [negb]. rewrite Hm. cbn [get_or_oob]. rewrite bind_Ret. destruct Hc as [Hne| ->].
    - apply Z.eqb_neq in Hne. by rewrite Hne.
    - by rewrite andb_false_r. }
  rewrite bind_Ret. by rewrite (CALL_PREV_ok _ _ _ _ Hb).
Qed.

(** When the trace library has no mask of tags, nothing is installed, and
    neither enabling nor restoring does anything; the Java method returns true
    all the same. *)
Theorem install_reports_success t system handle tags_sym fd_sym :
  trace_symbols D (sdk P) = (handle, tags_sym, fd_sym) -> dlsym D handle tags_sym = 0 ->
  systrace_installed t = false ->
  exists t', installSystraceHook P D wh chk thrown t system = Ret (false, t') /\
    Atrace_installSystraceHook P D wh chk thrown t system = Ret (true, t') /\
    enableSystrace P wh chk thrown t' = Ret t' /\ restoreSystrace t' = Ret t' /\ linker t' = linker t.
Proof.
  intros Hs Hd Hi. unfold Atrace_installSystraceHook, installSystraceHook, installSystraceSnooper.
  rewrite Hs, Hd. cbn [atrace_enabled_tags set_enabled_tags Z.eqb]. rewrite !bind_Ret. eexists.
  do 2 (split; [done|]). unfold enableSystrace, restoreSystrace. cbn. by rewrite Hi.
Qed.

(** The hook of pthread_create changes neither the arguments nor the result. *)
Theorem pthread_create_hook_passes (s : ThreadHook.state K OS) thread java_stack hook prev a b c d :
  before_hook thread hook prev ->
  ThreadHook.pthread_create_hook hook call s thread java_stack a b c d =
    Ret (call prev [a; b; c; d], ThreadHook.printJavaStack s java_stack).
Proof. intros Hb. unfold ThreadHook.pthread_create_hook. by rewrite (CALL_PREV_ok _ _ _ _ Hb). Qed.
End Hooked.

(** ** Witnesses

    The library of ElfLib.v under the name libc.so, with strings in which its
    second symbol is [write]. Its slot is hooked, as an installation leaves it;
    the mask of tags is at 0x6000 and the descriptor, 9, at 0x6008. *)
Definition libc : elfSharedLibData :=
  mkLib 0 0x1060 1 0 0 0x1010 0x2ffd [] (elfHash_ sample_lib) (mkGnuHash 0 0 0 0 0 0 0).

Definition libc_strings : list Z := [0; 0] ++ literal "write" ++ [0].

Definition libc_memory : memory :=
  mkMemory (fun a => if (0x2ffe <=? a) && (a <? 0x3006) then libc_strings !! Z.to_nat (a - 0x2ffe)
                     else byte_at (slot_memory None) a)
           (write_fault (slot_memory None)).

Definition libc_world : world sample_kernel unit :=
  mkWorld true getGlobals ([], []) libc_memory seized_global {[ literal "libc.so" := libc ]} 0 tt.

Lemma libc_world_ok : world_ok libc_world.
Proof.
  destruct (sample_world_ok None (or_introl eq_refl)) as [H1 H2 H3 H4 H5 H6].
  split; try done. intros a b. cbn [mem libc_world byte_at libc_memory].
  destruct (_ && _); [|apply H6]. intros Hl.
  assert (Forall (fun b => 0 <= b < 256) libc_strings) as Hf by (apply (bool_decide_unpack _); vm_compute; exact I).
  rewrite Forall_lookup in Hf. by eapply Hf.
Qed.

Abbreviation sample_P := (sample_platform None).
Definition write_spec : plt_hook_spec := mkSpec (Some (literal "write")) 0x51 0.

Definition snooped_world : world sample_kernel unit :=
  match patch_relocation_address_for_hook sample_P libc_world 0x2000 write_spec with
  | Ret (_, w) => w
  | Fault _ => libc_world
  end.

Lemma snooped_world_eq :
  patch_relocation_address_for_hook sample_P libc_world 0x2000 write_spec = Ret (0, snooped_world).
Proof.
  destruct (fmap_fst_inv (patch_relocation_address_for_hook sample_P libc_world 0x2000 write_spec) 0)
    as [w E]; [vm_compute; reflexivity|]. unfold snooped_world. by rewrite E.
Qed.

Lemma snooped_world_settled : settled sample_P 0x51 0x52 snooped_world [0x2000] [].
Proof.
  destruct (patch_step sample_P (sample_platform_ok None) _ _ _ _ _ libc_world_ok ltac:(vm_compute; reflexivity)
    snooped_world_eq) as (Hw & _ & _ & _).
  split; [exact Hw|vm_compute; reflexivity|done| | | |constructor].
  - unfold visits. assert (sharedLib (dladdr sample_P) (libs snooped_world) (literal "libc.so") = Ret libc) as ->
      by (vm_compute; reflexivity). left. vm_compute. reflexivity.
  - unfold visits. assert (sharedLib (dladdr sample_P) (libs snooped_world) (literal "libc.so") = Ret libc) as ->
      by (vm_compute; reflexivity). right. split; [vm_compute; reflexivity|done].
  - repeat constructor.
    + rewrite lookup_abs. exists [0x7000; 0x51]. vm_compute. reflexivity.
    + exists 0x40000. split; [vm_compute; reflexivity|done].
Qed.

Definition installed_tracer : tracer sample_kernel unit :=
  mkTracer snooped_world {[0x6008 := 9]} {[0x6000 := 5]} 0x6008 0x6000 UINT64_MAX true true [].

Lemma enable_restore_keeps_tags_witness : exists t',
  run sample_P 0x51 0x52 id [Restore; Enable; Enable; Restore] installed_tracer = Ret t' /\
  tags t' !! 0x6000 = Some 5.
Proof.
  destruct (enable_restore_keeps_tags sample_P 0x51 0x52 id [Restore; Enable; Enable; Restore] installed_tracer
    [0x2000] [] 5 eq_refl snooped_world_settled eq_refl eq_refl) as (t' & E & Ht).
  exists t'. split; [exact E|]. rewrite Ht. reflexivity.
Defined.

Lemma enable_accumulates_witness : exists t',
  run sample_P 0x51 0x52 id [Enable; Enable; Enable] installed_tracer = Ret t' /\
  Hooks.run_list (table (Systrace.linker t')) 0x2000 = Some [0x7000; 0x51; 0x51; 0x51].
Proof.
  destruct (enable_accumulates sample_P 0x51 0x52 id 2 installed_tracer [0x2000] [] 5 0x2000 [0x7000; 0x51]
    eq_refl snooped_world_settled eq_refl eq_refl eq_refl) as (t' & E & Ht).
  - repeat constructor. apply not_elem_of_nil.
  - left.
  - apply not_elem_of_nil.
  - vm_compute. reflexivity.
  - exists t'. split; [exact E|exact Ht].
Defined.

(** A buffer of five bytes at address 0, with two more bytes before a zero. *)
Definition event_world : world sample_kernel unit :=
  set_mem libc_world (mkMemory (fun a => (literal "B|1|xyz" ++ [0]) !! Z.to_nat a) (fun _ => None)).

Definition event_tracer : tracer sample_kernel unit := set_linker installed_tracer event_world.

Definition big_platform : platform sample_kernel unit :=
  mkPlatform I386 4096 (dladdr sample_P) (calloc sample_P) (map_page sample_P) (mprotect sample_P) [] 0 0
    (other_handlers sample_P) 0 0 0 true table_sigaction 0 16 15.

Lemma write_hook_swallows_witness :
  write_hook big_platform 0x51 (fun _ _ => 0) event_tracer HookStack.new_thread 9 0 5 =
    Ret (5, ALOG event_tracer (literal "========= B|1|xyz")).
Proof.
  refine (write_hook_swallows big_platform 0x51 (fun _ _ => 0) event_tracer HookStack.new_thread 9 0
    (literal "B|1|x") (literal "yz") eq_refl _ eq_refl _ _ _);
    vm_compute; repeat split; first [discriminate|repeat constructor].
Defined.

Definition sample_thread : HookStack.thread :=
  HookStack.mkThread {[0%nat := HookStack.mkHook 0 0x111 None [0x7000; 0x51]]} 1 (Some 0%nat).

Lemma sample_before : before_hook sample_thread 0x51 0x7000.
Proof.
  exists 0%nat. eexists. exists [], []. split; [reflexivity|]. split; [reflexivity|]. split; [reflexivity|].
  apply (bool_decide_unpack _). vm_compute. exact I.
Qed.

Lemma write_hook_passes_witness :
  write_hook big_platform 0x51 (fun f l => f + Z.of_nat (length l)) event_tracer sample_thread 4 0 5 =
    Ret (0x7003, event_tracer).
Proof.
  refine (write_hook_passes big_platform 0x51 (fun f l => f + Z.of_nat (length l)) event_tracer sample_thread
    4 9 0 5 0x7000 sample_before (or_intror _)).
  split; [reflexivity|left; discriminate].
Defined.

Definition no_symbols : dynamic := mkDynamic (fun _ _ => 1) (fun _ _ => 0).

Lemma install_reports_success_witness : exists t',
  Atrace_installSystraceHook sample_P no_symbols 0x51 0x52 id (new_tracer libc_world ∅ ∅) (mkLoaded None None) =
    Ret (true, t') /\ enableSystrace sample_P 0x51 0x52 id t' = Ret t'.
Proof.
  destruct (install_reports_success sample_P no_symbols 0x51 0x52 id (new_tracer libc_world ∅ ∅) (mkLoaded None None)
    1 (literal "atrace_enabled_tags") (literal "atrace_marker_fd") eq_refl eq_refl eq_refl)
    as (t' & _ & E & He & _).
  exists t'. split; [exact E|exact He].
Defined.

Lemma pthread_create_hook_passes_witness :
  ThreadHook.pthread_create_hook 0x51 (fun f l => f + Z.of_nat (length l))
    (ThreadHook.mkState libc_world true []) sample_thread None 1 2 3 4 =
    Ret (0x7004, ThreadHook.mkState libc_world true []).
Proof.
  exact (pthread_create_hook_passes (fun f l => f + Z.of_nat (length l)) (ThreadHook.mkState libc_world true [])
    sample_thread None 0x51 0x7000 1 2 3 4 sample_before).
Defined.
