(* ===== verification/AllocTracker.v ===== *)
(** The allocation tracker: alloctrack/src/main/cpp/allocTracker.cpp and
    alloctracker.h, with the lock of lock.h and lock.cpp.

    The static variables are a record; the pointers to functions and integers
    of libart and libdvm are addresses, 0 for null, and the integers are
    objects by address. What the code does to its surroundings is recorded in
    [trace], newest first, and what the surroundings answer is an argument:
    dlopen and dlsym, and per recorded allocation the answers of [rand], the
    virtual machine, the clock and open. A call through a null pointer and JNI
    on a null array are faults, as is [free] of what is not allocated. Recording
    is first sequential; section Threads has the steps of several threads. *)
From stdpp Require Import pretty.
From S2P Require Import Prelude.

Abbreviation text := (list Z).

Definition ALLOC_TRACKER_ART : Z := 1.
Definition ALLOC_TRACKER_DVM : Z := 2.
Definition LUCKY : Z := 50.
Definition RAND_MAX : Z := 2 ^ 31 - 1.

(** The static pointers to functions of libart, and the API level. *)
Record art_functions := mkArt {
  GetDescriptor : Z;
  artDbgDumpRecentAllocations : Z;
  artSetAllocTrackingEnable : Z;
  artGetRecentAllocations : Z;
  artAllocMapClear : Z;
  artAPILevel : Z;
}.

Record art_records := mkRecords {
  mallocRecordHead : Z;
  mallocRecordCount : Z;
  mallocRecordMax : Z;
}.

Record dvm_functions := mkDvm {
  dvmEnableAllocTracker : Z;
  dvmDisableAllocTracker : Z;
  dvmGenerateTrackedAllocationReport : Z;
  dvmDumpTrackedAllocations : Z;
}.

Inductive event :=
| TrackingEnabled (enable : bool)
| Described (type : Z)
| OpenedFile (name : text)
| WrittenFile (fd : Z) (data : list Z)
| ClearedMap (this : Z)
| ClosedLibrary (handle : Z)
| DumpedInLog
| DvmEnabled
| DvmDisabled
| DvmDumpedInLog
| Hooked (symbol replacement : Z)
| Recorded (arguments : list Z).

Record tracker := mkTracker {
  allocTrackerType : Z;
  libHandle : Z;
  allocObjectCount : Z;
  setAllocRecordMax : Z;
  needStopRecord : bool;
  storeDataDirectory : option text;
  art : art_functions;
  records : art_records;
  ints : gmap Z Z;
  dvm : dvm_functions;
  dvmAllocationData : Z;
  dvmAllocationDataLen : Z;
  blocks : gmap Z (list Z);           (* the malloc'ed reports *)
  trace : list event;
}.

Definition no_art : art_functions := mkArt 0 0 0 0 0 0.
Definition no_dvm : dvm_functions := mkDvm 0 0 0 0.

Definition new_tracker (ints : gmap Z Z) : tracker :=
  mkTracker 0 0 0 8000 false None no_art (mkRecords 0 0 0) ints no_dvm 0 0 ∅ [].

Definition set_type (t : tracker) type handle : tracker :=
  mkTracker type handle (allocObjectCount t) (setAllocRecordMax t) (needStopRecord t) (storeDataDirectory t)
    (art t) (records t) (ints t) (dvm t) (dvmAllocationData t) (dvmAllocationDataLen t) (blocks t) (trace t).
Definition set_count (t : tracker) count : tracker :=
  mkTracker (allocTrackerType t) (libHandle t) count (setAllocRecordMax t) (needStopRecord t) (storeDataDirectory t)
    (art t) (records t) (ints t) (dvm t) (dvmAllocationData t) (dvmAllocationDataLen t) (blocks t) (trace t).
Definition set_max (t : tracker) max : tracker :=
  mkTracker (allocTrackerType t) (libHandle t) (allocObjectCount t) max (needStopRecord t) (storeDataDirectory t)
    (art t) (records t) (ints t) (dvm t) (dvmAllocationData t) (dvmAllocationDataLen t) (blocks t) (trace t).
Definition set_stop (t : tracker) stop : tracker :=
  mkTracker (allocTrackerType t) (libHandle t) (allocObjectCount t) (setAllocRecordMax t) stop (storeDataDirectory t)
    (art t) (records t) (ints t) (dvm t) (dvmAllocationData t) (dvmAllocationDataLen t) (blocks t) (trace t).
Definition set_directory (t : tracker) d : tracker :=
  mkTracker (allocTrackerType t) (libHandle t) (allocObjectCount t) (setAllocRecordMax t) (needStopRecord t) d
    (art t) (records t) (ints t) (dvm t) (dvmAllocationData t) (dvmAllocationDataLen t) (blocks t) (trace t).
Definition set_art (t : tracker) a : tracker :=
  mkTracker (allocTrackerType t) (libHandle t) (allocObjectCount t) (setAllocRecordMax t) (needStopRecord t)
    (storeDataDirectory t) a (records t) (ints t) (dvm t) (dvmAllocationData t) (dvmAllocationDataLen t) (blocks t) (trace t).
Definition set_records (t : tracker) r m : tracker :=
  mkTracker (allocTrackerType t) (libHandle t) (allocObjectCount t) (setAllocRecordMax t) (needStopRecord t)
    (storeDataDirectory t) (art t) r m (dvm t) (dvmAllocationData t) (dvmAllocationDataLen t) (blocks t) (trace t).
Definition set_dvm (t : tracker) d : tracker :=
  mkTracker (allocTrackerType t) (libHandle t) (allocObjectCount t) (setAllocRecordMax t) (needStopRecord t)
    (storeDataDirectory t) (art t) (records t) (ints t) d (dvmAllocationData t) (dvmAllocationDataLen t) (blocks t) (trace t).
Definition set_data (t : tracker) data len heap : tracker :=
  mkTracker (allocTrackerType t) (libHandle t) (allocObjectCount t) (setAllocRecordMax t) (needStopRecord t)
    (storeDataDirectory t) (art t) (records t) (ints t) (dvm t) data len heap (trace t).
Definition emit (e : event) (t : tracker) : tracker :=
  mkTracker (allocTrackerType t) (libHandle t) (allocObjectCount t) (setAllocRecordMax t) (needStopRecord t)
    (storeDataDirectory t) (art t) (records t) (ints t) (dvm t) (dvmAllocationData t) (dvmAllocationDataLen t) (blocks t)
    (e :: trace t).

(** A call through a pointer. *)
Definition callable (p : Z) : res unit := if p =? 0 then Fault OutOfBounds else Ret tt.

Definition free (heap : gmap Z (list Z)) (p : Z) : res (gmap Z (list Z)) :=
  if p =? 0 then Ret heap
  else match heap !! p with Some _ => Ret (delete p heap) | None => Fault OutOfBounds end.

(** The loader: [ndk_dlopen], [ndk_dlsym] and [dlsym]; the width of size_t. *)
Record loader := mkLoader {
  size_width : Z;
  ndk_dlopen : text -> Z;
  ndk_dlsym : Z -> text -> Z;
  dlsym : Z -> text -> Z;
}.

(** What surrounds one recorded allocation: rand(), the array that the virtual
    machine returns with its bytes ([None] for null), time(0), and the file
    descriptor of open. *)
Record answers := mkAnswers { rand : Z; recent : option (list Z); time : Z; fd : Z }.

(** [randomInt] calls [randomDouble]; the arithmetic in double is exact while
    [end_ - start] is below 2^21. *)
Definition randomInt (start end_ rand : Z) : Z :=
  Z.quot (start * (RAND_MAX + 1) + (end_ - start) * rand) (RAND_MAX + 1).

Section Tracker.
Context (L : loader).
Implicit Type t : tracker.

(** ** ART *)

(** The five lookups, in the order of the code; [GetDescriptor] is kept when it
    is known. *)
Definition initForArt t (apiLevel allocRecordMax : Z) : Z * tracker :=
  let handle := ndk_dlopen L (literal "libart.so") in
  let t := set_type t ALLOC_TRACKER_ART handle in
  if handle =? 0 then (-2, t)
  else
    let t := set_max t (wrap (size_width L) allocRecordMax) in
    let sym name := ndk_dlsym L handle (literal name) in
    let descriptor :=
      if GetDescriptor (art t) =? 0 then
        sym "_ZN3art6mirror5Class13GetDescriptorEPNSt3__112basic_stringIcNS2_11char_traitsIcEENS2_9allocatorIcEEEE"%string
      else GetDescriptor (art t) in
    (0, set_art t (mkArt descriptor
           (sym "_ZN3art3Dbg21DumpRecentAllocationsEv"%string)
           (sym "_ZN3art3Dbg23SetAllocTrackingEnabledEb"%string)
           (sym "_ZN3art3Dbg20GetRecentAllocationsEv"%string)
           (sym "_ZN3art2gc20AllocRecordObjectMap5ClearEv"%string)
           apiLevel)).

Definition unInitForArt t : tracker :=
  let t := if negb (libHandle t =? 0) then emit (ClosedLibrary (libHandle t)) t else t in
  let a := art t in
  set_art (set_type t 0 0)
    (mkArt (GetDescriptor a) (artDbgDumpRecentAllocations a) 0 0 (artAllocMapClear a) 0).

Definition setSaveDataDirectory t (directory : text) : tracker := set_directory t (Some directory).

Definition enable_tracking t (enable : bool) : tracker :=
  let t := if negb (artSetAllocTrackingEnable (art t) =? 0) then emit (TrackingEnabled enable) t else t in
  set_count t 0.

Definition startARTAllocationTracker t : tracker := enable_tracking t true.
Definition stopARTAllocationTracker t : tracker := enable_tracking t false.

Definition art_active t : bool := negb ((libHandle t =? 0) || negb (allocTrackerType t =? ALLOC_TRACKER_ART)).

(** [*p], of an int of libart. *)
Definition int_at t (p : Z) : res Z := get_or_oob (ints t !! p).

Definition getARTAllocRecordCount t : res (Z * tracker) :=
  if negb (art_active t) then Ret (0, t)
  else
    let r := records t in
    let p := if mallocRecordCount r =? 0 then dlsym L (libHandle t) (literal "_ZN3art3Dbg19alloc_record_count_E")
             else mallocRecordCount r in
    let t := set_records t (mkRecords (mallocRecordHead r) p (mallocRecordMax r)) (ints t) in
    if negb (p =? 0) then v ← int_at t p; Ret (v, t) else Ret (0, t).

Definition getARTAllocRecordMax t : res (Z * tracker) :=
  if negb (art_active t) then Ret (0, t)
  else
    let r := records t in
    let p := if mallocRecordMax r =? 0 then ndk_dlsym L (libHandle t) (literal "_ZN3art3Dbg17alloc_record_max_E")
             else mallocRecordMax r in
    let t := set_records t (mkRecords (mallocRecordHead r) (mallocRecordCount r) p) (ints t) in
    if negb (p =? 0) then v ← int_at t p; Ret (v, t) else Ret (10 * 1024, t).

Definition getARTAllocRecordHead t : res (Z * tracker) :=
  if negb (art_active t) then Ret (0, t)
  else
    let r := records t in
    let p := if mallocRecordHead r =? 0 then ndk_dlsym L (libHandle t) (literal "_ZN3art3Dbg18alloc_record_head_E")
             else mallocRecordHead r in
    let t := set_records t (mkRecords p (mallocRecordCount r) (mallocRecordMax r)) (ints t) in
    if negb (p =? 0) then v ← int_at t p; Ret (v, t) else Ret (0, t).

Definition resetARTAllocRecord t : res tracker :=
  if negb (art_active t) then Ret t
  else
    '(_, t) ← getARTAllocRecordHead t;
    '(_, t) ← getARTAllocRecordCount t;
    '(_, t) ← getARTAllocRecordMax t;
    let r := records t in
    if negb (mallocRecordHead r =? 0) && negb (mallocRecordCount r =? 0) then
      Ret (set_records t r (<[mallocRecordCount r := 0]> (<[mallocRecordHead r := 0]> (ints t))))
    else Ret t.

Definition getARTAllocationData t (a : answers) : option (list Z) :=
  if negb (artGetRecentAllocations (art t) =? 0) then recent a else None.

Definition setEnableARTRecordAllocation t (enable : bool) : tracker := set_stop t (negb enable).

Definition file_name t (a : answers) : text :=
  from_option id (literal "(null)") (storeDataDirectory t) ++ literal "/" ++ literal (pretty (i32 (time a))).

(** [dataFileName] has 128 bytes, whatever snprintf is told. *)
Definition saveARTAllocationData t (data : option (list Z)) (a : answers) : res tracker :=
  let name := file_name t a in
  if 128 <=? Z.min 1023 (Z.of_nat (length name)) then Fault OutOfBounds
  else
    let t := emit (OpenedFile name) t in
    data ← get_or_oob data;
    Ret (emit (WrittenFile (fd a) data) t).

(** ** Recording an allocation *)

(** [allocObjectCount++], and [allocObjectCount > setAllocRecordMax], in size_t. *)
Definition count_one t : tracker := set_count t (i32 (allocObjectCount t + 1)).
Definition full t : bool := setAllocRecordMax t <? wrap (size_width L) (allocObjectCount t).

Definition newArtRecordAllocationDoing t (type byte_count : Z) (a : answers) : res (bool * tracker) :=
  let t := count_one t in
  _ ← callable (GetDescriptor (art t));
  let t := emit (Described type) t in
  if randomInt 0 100 (rand a) =? LUCKY then Ret (false, t)
  else if full t then
    let t := set_count t 0 in
    t ← saveARTAllocationData t (getARTAllocationData t a) a;
    t ← resetARTAllocRecord t;
    Ret (true, t)
  else Ret (true, t).

Definition newArtRecordAllocationDoing24 t (this type byte_count : Z) (a : answers) : res (bool * tracker) :=
  if artAllocMapClear (art t) =? 0 then Ret (false, t)
  else
    let t := count_one t in
    _ ← callable (GetDescriptor (art t));
    let t := emit (Described type) t in
    if randomInt 0 100 (rand a) =? LUCKY then Ret (false, t)
    else if full t then
      let t := set_count t 0 in
      t ← saveARTAllocationData t (getARTAllocationData t a) a;
      Ret (true, if negb (artAllocMapClear (art t) =? 0) then emit (ClearedMap this) t else t)
    else Ret (true, t).

(** [read4] is [Read4]; the pointers go through an int. *)
Definition newArtRecordAllocation26 (read4 : Z -> option Z) t (this self obj byte_count : Z) (a : answers) : res tracker :=
  if needStopRecord t then Ret t
  else
    objptr ← get_or_oob (read4 obj);
    classRef ← get_or_oob (read4 (wrap (size_width L) (i32 objptr)));
    '(_, t) ← newArtRecordAllocationDoing24 t this (wrap (size_width L) (i32 classRef)) byte_count a;
    Ret (emit (Recorded [this; self; obj; byte_count]) t).

Definition newArtRecordAllocation23 t (self type byte_count : Z) (a : answers) : res tracker :=
  if needStopRecord t then Ret t
  else
    '(go_on, t) ← newArtRecordAllocationDoing t type byte_count a;
    Ret (if go_on : bool then emit (Recorded [self; type; byte_count]) t else t).

Definition newArtRecordAllocation22 t (type byte_count : Z) (a : answers) : res tracker :=
  if needStopRecord t then Ret t
  else
    '(go_on, t) ← newArtRecordAllocationDoing t type byte_count a;
    Ret (if go_on : bool then emit (Recorded [type; byte_count]) t else t).

(** [new22], [new23] and [new26] are the addresses of the replacements. *)
Definition hookFunc t (new22 new23 new26 : Z) : tracker :=
  let handle := ndk_dlopen L (literal "libart.so") in
  if handle =? 0 then t
  else
    let sym name := ndk_dlsym L handle (literal name) in
    let s26 := sym "_ZN3art2gc20AllocRecordObjectMap16RecordAllocationEPNS_6ThreadEPNS_6ObjPtrINS_6mirror6ObjectEEEj"%string in
    let s24 := sym "_ZN3art2gc20AllocRecordObjectMap16RecordAllocationEPNS_6ThreadEPPNS_6mirror6ObjectEj"%string in
    let s23 := sym "_ZN3art3Dbg16RecordAllocationEPNS_6ThreadEPNS_6mirror5ClassEj"%string in
    let s22 := sym "_ZN3art3Dbg16RecordAllocationEPNS_6mirror5ClassEj"%string in
    if negb (s26 =? 0) then emit (ClosedLibrary handle) (emit (Hooked s26 new26) t)
    else if negb (s24 =? 0) then emit (ClosedLibrary handle) (emit (Hooked s26 new26) t)
    else if negb (s23 =? 0) then emit (ClosedLibrary handle) (emit (Hooked s23 new23) t)
    else if s22 =? 0 then t
    else emit (ClosedLibrary handle) (emit (Hooked s22 new22) t).

(** ** Dalvik *)

Definition initForDvm t : Z * tracker :=
  let handle := ndk_dlopen L (literal "libdvm.so") in
  let t := set_type t ALLOC_TRACKER_DVM handle in
  if handle =? 0 then (-2, t)
  else
    let sym name := dlsym L handle (literal name) in
    let d := mkDvm (sym "_Z21dvmEnableAllocTrackerv"%string) (sym "_Z22dvmDisableAllocTrackerv"%string)
               (sym "_Z34dvmGenerateTrackedAllocationReportPPhPj"%string) (sym "_Z25dvmDumpTrackedAllocationsb"%string) in
    (if negb (dvmEnableAllocTracker d =? 0) && negb (dvmDisableAllocTracker d =? 0) &&
        negb (dvmGenerateTrackedAllocationReport d =? 0) && negb (dvmDumpTrackedAllocations d =? 0)
     then 0 else -2, set_dvm t d).

Definition unInitForDvm t : res tracker :=
  let t := if negb (libHandle t =? 0) then emit (ClosedLibrary (libHandle t)) t else t in
  heap ← free (blocks t) (dvmAllocationData t);
  Ret (set_dvm (set_type (set_data t 0 0 heap) 0 (libHandle t)) no_dvm).

Definition startDvmAllocationTracker t : tracker :=
  if negb (dvmEnableAllocTracker (dvm t) =? 0) then emit DvmEnabled t else t.

Definition stopDvmAllocationTracker t : tracker :=
  if negb (dvmDisableAllocTracker (dvm t) =? 0) then emit DvmDisabled t else t.

(** [report] is the block that the virtual machine allocates, with its bytes;
    [None] when it fails. *)
Definition dumpDvmAllocationData t (report : option (Z * list Z)) : tracker :=
  if negb (dvmGenerateTrackedAllocationReport (dvm t) =? 0) then
    match report with
    | Some (p, data) => set_data t p (Z.of_nat (length data)) (<[p := data]> (blocks t))
    | None => t
    end
  else t.

(** [room] says whether NewByteArray succeeds. The result is the array. *)
Definition getDvmAllocationDataForJava t (room : bool) : res (option (list Z) * tracker) :=
  if negb (dvmAllocationData t =? 0) && (0 <? dvmAllocationDataLen t) then
    data ← get_or_oob (blocks t !! dvmAllocationData t);
    heap ← free (blocks t) (dvmAllocationData t);
    Ret (if room then Some (take (Z.to_nat (dvmAllocationDataLen t)) data) else None,
         set_data t (dvmAllocationData t) 0 heap)
  else Ret (None, t).

(** ** Both machines *)

Definition startAllocationTracker t : tracker :=
  if allocTrackerType t =? ALLOC_TRACKER_ART then startARTAllocationTracker t
  else if allocTrackerType t =? ALLOC_TRACKER_DVM then startDvmAllocationTracker t
  else t.

Definition stopAllocationTracker t : tracker :=
  if allocTrackerType t =? ALLOC_TRACKER_ART then stopARTAllocationTracker t
  else if allocTrackerType t =? ALLOC_TRACKER_DVM then stopDvmAllocationTracker t
  else t.

Definition dumpAllocationDataInLog t : tracker :=
  if allocTrackerType t =? ALLOC_TRACKER_ART then
    if negb (artDbgDumpRecentAllocations (art t) =? 0) then emit DumpedInLog t else t
  else if allocTrackerType t =? ALLOC_TRACKER_DVM then
    if negb (dvmDumpTrackedAllocations (dvm t) =? 0) then emit DvmDumpedInLog t else t
  else t.
End Tracker.

(** * Threads

    The steps of [newArtRecordAllocationDoing] that several threads share: the
    counter, the test of it, and the section under [g_Lock]. A thread is a
    program counter. The mutex is one of the default kind, whose unlock does not
    look at the owner; [CMyLock]'s destructor unlocks what [Unlock] has
    unlocked. *)
Module Threads.

Inductive pc :=
| Idle
| Counted            (* after allocObjectCount++ *)
| Waiting            (* after the test, before the constructor of CMyLock *)
| Locked
| Cleared            (* after allocObjectCount = 0 *)
| Dumped             (* after the file and the reset *)
| Unlocked.          (* after lock.Unlock(), before the destructor *)

#[export] Instance pc_eq_dec : EqDecision pc.
Proof. solve_decision. Defined.

Record state := mkState { count : Z; locked : bool; dumps : Z; threads : list pc }.

Definition inside (p : pc) : bool :=
  match p with Locked | Cleared | Dumped => true | _ => false end.

Section Threads.
Context (max : Z).

(** A step of thread [i]; [lucky] is whether its random number is [LUCKY]. *)
Definition exec (s : state) (i : nat) (lucky : bool) : option state :=
  match threads s !! i with
  | None => None
  | Some p =>
      let at_ p := <[i := p]> (threads s) in
      match p with
      | Idle => Some (mkState (count s + 1) (locked s) (dumps s) (at_ Counted))
      | Counted => Some (mkState (count s) (locked s) (dumps s)
                          (at_ (if lucky then Idle else if max <? count s then Waiting else Idle)))
      | Waiting => if locked s then None else Some (mkState (count s) true (dumps s) (at_ Locked))
      | Locked => Some (mkState 0 (locked s) (dumps s) (at_ Cleared))
      | Cleared => Some (mkState (count s) (locked s) (dumps s + 1) (at_ Dumped))
      | Dumped => Some (mkState (count s) false (dumps s) (at_ Unlocked))
      | Unlocked => Some (mkState (count s) false (dumps s) (at_ Idle))
      end
  end.

Fixpoint run (s : state) (schedule : list (nat * bool)) : option state :=
  match schedule with
  | [] => Some s
  | (i, lucky) :: schedule => s ← exec s i lucky; run s schedule
  end.

Definition start (n : nat) : state := mkState 0 false 0 (replicate n Idle).
End Threads.
End Threads.

(** * Theorems *)

Lemma randomInt_floor start end_ r : 0 <= start <= end_ -> 0 <= r <= RAND_MAX ->
  randomInt start end_ r = start + (end_ - start) * r / (RAND_MAX + 1).
Proof.
  intros Hs Hr. unfold randomInt, RAND_MAX in *. rewrite Z.quot_div_nonneg by nia.
  rewrite Z.div_add_l by lia. done.
Qed.

(** [randomInt] stays in its range, and is [LUCKY] for about one in a
    hundred of the values of rand(). *)
Theorem randomInt_range start end_ r : 0 <= start < end_ -> 0 <= r <= RAND_MAX ->
  start <= randomInt start end_ r < end_ /\
  (randomInt 0 100 r = LUCKY <-> 1073741824 <= r <= 1095216660).
Proof.
  intros Hs Hr. rewrite !randomInt_floor by lia. unfold RAND_MAX, LUCKY in *. split.
  - assert (0 <= (end_ - start) * r / (2 ^ 31 - 1 + 1) < end_ - start); [|lia].
    split; [apply Z.div_pos; nia|apply Z.div_lt_upper_bound; nia].
  - Z.to_euclidean_division_equations. lia.
Qed.

(** A null pointer, or one to an int of libart. *)
Definition int_ok (m : gmap Z Z) (p : Z) : Prop := p <> 0 -> is_Some (m !! p).

(** What recording relies on: [GetDescriptor] was found, and the counters of
    libart are where the symbols say. *)
Record recording (L : loader) (t : tracker) : Prop := {
  rc_descriptor : GetDescriptor (art t) <> 0;
  rc_head : int_ok (ints t) (mallocRecordHead (records t));
  rc_count : int_ok (ints t) (mallocRecordCount (records t));
  rc_max : int_ok (ints t) (mallocRecordMax (records t));
  rc_symbols : int_ok (ints t) (ndk_dlsym L (libHandle t) (literal "_ZN3art3Dbg18alloc_record_head_E")) /\
               int_ok (ints t) (dlsym L (libHandle t) (literal "_ZN3art3Dbg19alloc_record_count_E")) /\
               int_ok (ints t) (ndk_dlsym L (libHandle t) (literal "_ZN3art3Dbg17alloc_record_max_E"));
}.

Section Reset.
Context (L : loader).
Implicit Type t : tracker.

Lemma recording_records t r : recording L t -> int_ok (ints t) (mallocRecordHead r) ->
  int_ok (ints t) (mallocRecordCount r) -> int_ok (ints t) (mallocRecordMax r) ->
  recording L (set_records t r (ints t)).
Proof. intros [H1 H2 H3 H4 H5] ???. by split. Qed.

(** What reading a counter does: the pointer is looked up once. *)
Definition looked_up (m : res (Z * tracker)) t : Prop :=
  exists v r, m = Ret (v, set_records t r (ints t)) /\ recording L (set_records t r (ints t)).

Lemma same_records t : set_records t (records t) (ints t) = t.
Proof. by destruct t. Qed.

Ltac read_counter :=
  intros H; pose proof H as [Hd Hh Hc Hm Hs]; destruct (art_active _); cbn [negb];
    [|by exists 0; eexists; rewrite same_records]; cbv zeta;
  match goal with
  | |- looked_up (if negb (?p =? 0) then _ else Ret (?v0, _)) ?t =>
      assert (int_ok (ints t) p) as Hp by (by destruct (_ =? 0); [apply Hs|]);
      destruct (Z.eqb_spec p 0) as [E|Hne]; cbn [negb];
      [exists v0; eexists; split; [done|by apply recording_records]
      |destruct (Hp Hne) as [x Hx]; unfold int_at; cbn [ints set_records]; rewrite Hx;
       exists x; eexists; split; [done|by apply recording_records]]
  end.

Lemma getARTAllocRecordHead_ok t : recording L t -> looked_up (getARTAllocRecordHead L t) t.
Proof. unfold getARTAllocRecordHead. read_counter. Qed.

Lemma getARTAllocRecordCount_ok t : recording L t -> looked_up (getARTAllocRecordCount L t) t.
Proof. unfold getARTAllocRecordCount. read_counter. Qed.

Lemma getARTAllocRecordMax_ok t : recording L t -> looked_up (getARTAllocRecordMax L t) t.
Proof. unfold getARTAllocRecordMax. read_counter. Qed.

Lemma int_ok_insert m a v p : int_ok m p -> int_ok (<[a := v]> m) p.
Proof.
  intros H Hp. destruct (decide (a = p)) as [<-|]; [rewrite lookup_insert_eq|rewrite lookup_insert_ne by done]; eauto.
Qed.

Lemma resetARTAllocRecord_ok t : recording L t ->
  exists r m, resetARTAllocRecord L t = Ret (set_records t r m) /\ recording L (set_records t r m).
Proof.
  intros H. unfold resetARTAllocRecord. destruct (art_active t); cbn [negb];
    [|exists (records t), (ints t); by rewrite same_records].
  destruct (getARTAllocRecordHead_ok t H) as (v1 & r1 & -> & H1). rewrite bind_Ret.
  destruct (getARTAllocRecordCount_ok _ H1) as (v2 & r2 & -> & H2). rewrite bind_Ret.
  destruct (getARTAllocRecordMax_ok _ H2) as (v3 & r3 & -> & H3). rewrite bind_Ret.
  cbv zeta. destruct (_ && _); eexists _, _; (split; [reflexivity|]); [|exact H3].
  destruct H3 as [Hd Hh Hc Hm (Hs1 & Hs2 & Hs3)]. split; cbn in *; [done|by do 2 apply int_ok_insert..|].
  split; [|split]; by do 2 apply int_ok_insert.
Qed.
End Reset.

(** ** Recording *)

Definition is_file (e : event) : bool := match e with WrittenFile _ _ => true | _ => false end.
Definition is_recorded (e : event) : bool := match e with Recorded _ => true | _ => false end.

(** How many events of a kind there have been. *)
Definition events (f : event -> bool) (t : tracker) : Z := Z.of_nat (length (List.filter f (trace t))).

Lemma events_emit f e t : events f (emit e t) = events f t + (if f e then 1 else 0).
Proof. unfold events. cbn [trace emit List.filter]. destruct (f e); cbn [length]; lia. Qed.

Record call := mkCall { thread : Z; class : Z; bytes : Z; answer : answers }.

Fixpoint record_all (L : loader) (calls : list call) (t : tracker) : res tracker :=
  match calls with
  | [] => Ret t
  | c :: calls => t ← newArtRecordAllocation23 L t (thread c) (class c) (bytes c) (answer c); record_all L calls t
  end.

Section Recording.
Context (L : loader) (width_ok : size_width L = 32 \/ size_width L = 64).
Implicit Type t : tracker.

(** The random number of this call is [LUCKY]. *)
Definition lucky (c : call) : bool := randomInt 0 100 (rand (answer c)) =? LUCKY.

(** Nothing goes wrong with the file of this call. *)
Definition plain t (c : call) : Prop :=
  is_Some (recent (answer c)) /\ Z.of_nat (length (file_name t (answer c))) < 128.

Record counting t : Prop := {
  ct_recording : recording L t;
  ct_running : needStopRecord t = false;
  ct_data : artGetRecentAllocations (art t) <> 0;
  ct_count : 0 <= allocObjectCount t;
  ct_max : setAllocRecordMax t < 2 ^ 31 - 1;
}.

Lemma full_ok t : 0 <= allocObjectCount t < 2 ^ 31 -> full L t = (setAllocRecordMax t <? allocObjectCount t).
Proof. intros H. unfold full. rewrite wrap_small; [done|]. destruct width_ok as [-> | ->]; split; lia. Qed.

Lemma record_one c t : counting t -> plain t c -> allocObjectCount t < 2 ^ 31 - 1 ->
  exists t', newArtRecordAllocation23 L t (thread c) (class c) (bytes c) (answer c) = Ret t' /\ counting t' /\
    setAllocRecordMax t' = setAllocRecordMax t /\ storeDataDirectory t' = storeDataDirectory t /\
    events is_recorded t' = events is_recorded t + (if lucky c then 0 else 1) /\
    if negb (lucky c) && (setAllocRecordMax t <=? allocObjectCount t)
    then allocObjectCount t' = 0 /\ events is_file t' = events is_file t + 1
    else allocObjectCount t' = allocObjectCount t + 1 /\ events is_file t' = events is_file t.
Proof.
  intros [Hr Hn Hd Hc Hm] ([data Hdata] & Hf) Hmax. unfold newArtRecordAllocation23, newArtRecordAllocationDoing, lucky.
  rewrite Hn. cbv zeta. unfold callable. cbn [art count_one set_count emit].
  pose proof (rc_descriptor _ _ Hr) as Hg. apply Z.eqb_neq in Hg. rewrite Hg, bind_Ret.
  assert (i32 (allocObjectCount t + 1) = allocObjectCount t + 1) as Hi by (apply swrap_small; lia).
  destruct (randomInt 0 100 (rand (answer c)) =? LUCKY) eqn:Hl; cbn [negb andb].
  { rewrite bind_Ret. unfold count_one. rewrite Hi. eexists. split; [reflexivity|].
    split; [destruct Hr; split; [by split|done|done|cbn; lia|done]|]. do 2 (split; [done|]). rewrite !events_emit, !Z.add_0_r. by split. }
  rewrite full_ok by (cbn; lia). cbn [allocObjectCount setAllocRecordMax count_one set_count emit]. rewrite Hi.
  destruct (Z.leb_spec (setAllocRecordMax t) (allocObjectCount t)) as [He|Hne].
  - replace (setAllocRecordMax t <? allocObjectCount t + 1) with true by (symmetry; apply Z.ltb_lt; lia).
    set (t1 := set_count _ 0). unfold saveARTAllocationData, getARTAllocationData.
    change (file_name t1 (answer c)) with (file_name t (answer c)).
    replace (128 <=? Z.min 1023 (Z.of_nat (length (file_name t (answer c))))) with false
      by (symmetry; apply Z.leb_gt; lia).
    change (art t1) with (art t). apply Z.eqb_neq in Hd as Hd'. rewrite Hd', Hdata. cbn [negb get_or_oob].
    rewrite !bind_Ret. set (t2 := emit _ _).
    destruct (resetARTAllocRecord_ok L t2) as (r & m & E & H2); [by destruct Hr; split|].
    rewrite E, !bind_Ret. eexists. split; [reflexivity|].
    split; [destruct H2; split; [by split|done|done|cbn; lia|done]|].
    do 2 (split; [done|]). rewrite !events_emit. split; [|split; [done|]].
    + change (events is_recorded (set_records t2 r m)) with (events is_recorded t2). unfold t2.
      by rewrite !events_emit, !Z.add_0_r.
    + change (events is_file (set_records t2 r m)) with (events is_file t2). unfold t2.
      by rewrite !events_emit, !Z.add_0_r.
  - replace (setAllocRecordMax t <? allocObjectCount t + 1) with false by (symmetry; apply Z.ltb_ge; lia).
    rewrite bind_Ret. eexists. split; [reflexivity|]. split; [destruct Hr; split; [by split|done|done|cbn; lia|done]|].
    do 2 (split; [done|]). rewrite !events_emit, !Z.add_0_r. split; [done|]. by split.
Qed.

(** The calls whose number is [LUCKY]. *)
Definition luckies (calls : list call) : Z := Z.of_nat (length (List.filter lucky calls)).

Lemma luckies_cons c calls : luckies (c :: calls) = (if lucky c then 1 else 0) + luckies calls.
Proof. unfold luckies. cbn [List.filter]. destruct (lucky c); cbn [length]; lia. Qed.

Lemma record_counts calls : forall t, counting t -> Forall (plain t) calls ->
  allocObjectCount t + luckies calls < 2 ^ 31 - 1 -> 0 <= setAllocRecordMax t -> setAllocRecordMax t + luckies calls < 2 ^ 31 - 1 ->
  exists t', record_all L calls t = Ret t' /\
    let n := Z.of_nat (length calls) in
    let files := events is_file t' - events is_file t in
    events is_recorded t' = events is_recorded t + (n - luckies calls)
    /\ files * (setAllocRecordMax t + 1) + allocObjectCount t' <= allocObjectCount t + n
    /\ Z.min (allocObjectCount t) (setAllocRecordMax t) + n
         <= files * (setAllocRecordMax t + 1) + Z.min (allocObjectCount t') (setAllocRecordMax t) + luckies calls
    /\ 0 <= allocObjectCount t' <= Z.max (allocObjectCount t) (setAllocRecordMax t) + luckies calls.
Proof.
  induction calls as [|c calls IH]; intros t Hc Hp Hn Hm0 Hm.
  { exists t. split; [done|]. cbv zeta. rewrite !Z.sub_diag. change (luckies []) with 0. cbn [length]. pose proof (ct_count t Hc). repeat split; lia. }
  apply Forall_cons in Hp as [Hp Hps]. rewrite luckies_cons in *. pose proof (ct_count t Hc) as H0.
  assert (0 <= luckies calls) as Hl by (unfold luckies; lia).
  destruct (record_one c t Hc Hp) as (t1 & E & Hc1 & Hmax & Hdir & Hr & Hcase); [destruct (lucky c); lia|].
  cbn [record_all]. rewrite E, bind_Ret.
  assert (allocObjectCount t1 + luckies calls < 2 ^ 31 - 1) as Hn1.
  { destruct (lucky c), (Z.leb_spec (setAllocRecordMax t) (allocObjectCount t)); cbn [negb andb] in Hcase; lia. }
  destruct (IH t1 Hc1) as (t' & -> & H); [|lia|lia|destruct (lucky c); lia|].
  { eapply Forall_impl; [exact Hps|]. intros c' (H1 & H2). split; [done|]. unfold file_name in *. by rewrite Hdir. }
  exists t'. split; [done|]. cbv zeta in *. rewrite Hmax in H. cbn [length]. rewrite Nat2Z.inj_succ.
  destruct H as (HA & HB & HC & HD). rewrite HA, Hr. clear HA Hr.
  destruct (lucky c), (Z.leb_spec (setAllocRecordMax t) (allocObjectCount t)); cbn [negb andb] in Hcase;
    destruct Hcase as [E1 E2]; rewrite E1, E2 in HB; rewrite E1, E2 in HC; rewrite E1 in HD; clear E1 E2;
    (split; [lia|]; split; [lia|]; split; lia).
Qed.

(** C34: Every allocation whose random number is not [LUCKY] is passed on to the
    original function, and no other. Each file stands for at least
    [setAllocRecordMax + 1] allocations, and more only because of lucky ones,
    which are counted but open no file: the allocations since the start are
    those of the files, of the count that is left, and at most one more for each
    lucky one. Without lucky ones there is one file for each
    [setAllocRecordMax + 1] allocations exactly. *)
Theorem file_each_max_plus_one calls t : counting t -> Forall (plain t) calls ->
  allocObjectCount t <= setAllocRecordMax t -> setAllocRecordMax t + luckies calls < 2 ^ 31 - 1 ->
  exists t', record_all L calls t = Ret t' /\
    let n := Z.of_nat (length calls) in
    let period := setAllocRecordMax t + 1 in
    let files := events is_file t' - events is_file t in
    events is_recorded t' = events is_recorded t + (n - luckies calls)
    /\ files * period + allocObjectCount t' <= allocObjectCount t + n <= files * period + allocObjectCount t' + luckies calls
    /\ 0 <= allocObjectCount t' <= setAllocRecordMax t + luckies calls
    /\ (luckies calls = 0 -> allocObjectCount t' = (allocObjectCount t + n) mod period /\ files = (allocObjectCount t + n) / period).
Proof.
  intros Hc Hp Hle Hm. destruct (record_counts calls t Hc Hp) as (t' & E & Hrec & Hlo & Hhi & Hcnt); [lia|pose proof (ct_count t Hc); lia|done|].
  exists t'. split; [done|]. cbv zeta. split; [done|]. split; [lia|]. split; [lia|]. intros H0. rewrite H0 in *.
  set (files := events is_file t' - events is_file t) in *. set (n := Z.of_nat (length calls)) in *.
  assert (allocObjectCount t + n = (setAllocRecordMax t + 1) * files + allocObjectCount t') as E' by lia.
  split; [apply (Z.mod_unique _ _ files)|apply (Z.div_unique _ _ _ (allocObjectCount t'))]; lia.
Qed.

(** An allocation whose random number is [LUCKY] is counted and then lost:
    on the versions before 24 the original function is not called for it. *)
Theorem lucky_allocation_lost t self type bytes a : GetDescriptor (art t) <> 0 -> needStopRecord t = false ->
  randomInt 0 100 (rand a) = LUCKY ->
  newArtRecordAllocation23 L t self type bytes a = Ret (emit (Described type) (count_one t)) /\
  newArtRecordAllocation22 L t type bytes a = Ret (emit (Described type) (count_one t)).
Proof.
  intros Hg Hn Hl. unfold newArtRecordAllocation23, newArtRecordAllocation22, newArtRecordAllocationDoing.
  rewrite Hn. unfold callable. cbn [art count_one set_count]. apply Z.eqb_neq in Hg. rewrite Hg, !bind_Ret, Hl.
  by rewrite Z.eqb_refl, !bind_Ret.
Qed.

(** The name of the file has 127 bytes at most: with a longer one, the
    allocation that fills the records writes past the array. *)
Theorem long_directory_overflows t type bytes a :
  counting t -> allocObjectCount t = setAllocRecordMax t -> randomInt 0 100 (rand a) <> LUCKY ->
  128 <= Z.of_nat (length (file_name t a)) ->
  newArtRecordAllocationDoing L t type bytes a = Fault OutOfBounds.
Proof.
  intros [Hr Hn Hd Hc1 Hm] He Hl Hf. unfold newArtRecordAllocationDoing.
  unfold callable. cbn [art count_one set_count emit].
  pose proof (rc_descriptor _ _ Hr) as Hg. apply Z.eqb_neq in Hg, Hl. rewrite Hg, bind_Ret, Hl.
  assert (i32 (allocObjectCount t + 1) = allocObjectCount t + 1) as Hi by (apply swrap_small; lia).
  rewrite full_ok by (cbn; lia). cbn [allocObjectCount setAllocRecordMax count_one set_count emit]. rewrite Hi.
  replace (setAllocRecordMax t <? allocObjectCount t + 1) with true by (symmetry; apply Z.ltb_lt; lia).
  unfold saveARTAllocationData.
  match goal with |- context [file_name ?t1 a] => change (file_name t1 a) with (file_name t a) end.
  replace (128 <=? Z.min 1023 (Z.of_nat (length (file_name t a)))) with true by (symmetry; apply Z.leb_le; lia). done.
Qed.
End Recording.

(** ** Dalvik *)

(** The data that getDvmAllocationDataForJava has given away is freed, but
    the pointer to it is kept, so that unInitForDvm frees it again; without
    that call it is freed once. *)
Theorem dvm_data_freed_twice t p data room :
  dvmGenerateTrackedAllocationReport (dvm t) <> 0 -> p <> 0 -> data <> [] -> blocks t !! p = None ->
  let t1 := dumpDvmAllocationData t (Some (p, data)) in
  (exists t2, getDvmAllocationDataForJava t1 room = Ret (if room then Some data else None, t2) /\
    unInitForDvm t2 = Fault OutOfBounds) /\
  (exists t3, unInitForDvm t1 = Ret t3 /\ blocks t3 = blocks t /\ dvmAllocationData t3 = 0).
Proof.
  intros Hg Hp Hd Hb. unfold dumpDvmAllocationData. apply Z.eqb_neq in Hg, Hp. rewrite Hg. cbn [negb]. cbv zeta.
  unfold getDvmAllocationDataForJava, unInitForDvm, free. cbn [dvmAllocationData dvmAllocationDataLen blocks set_data].
  rewrite Hp. cbn [negb andb].
  replace (0 <? Z.of_nat (length data)) with true by (symmetry; apply Z.ltb_lt; destruct data; cbn [length]; [done|lia]).
  rewrite lookup_insert_eq. cbn [get_or_oob]. rewrite !bind_Ret. split.
  - eexists. rewrite Nat2Z.id, firstn_all. split; [reflexivity|].
    cbn [libHandle set_data]. destruct (negb _); cbn [dvmAllocationData blocks set_data emit];
      by rewrite Hp, lookup_delete_eq.
  - cbn [libHandle set_data]. destruct (negb _); cbn [dvmAllocationData blocks set_data emit];
      rewrite Hp, lookup_insert_eq, bind_Ret; eexists; (split; [reflexivity|]); cbn; by rewrite delete_insert_id.
Qed.

(** ** The hook *)

(** On the versions where only the symbol of API 24 exists, [hookFunc] asks
    for a hook of the null pointer, the symbol of API 26 that it has not found;
    on the others it hooks the symbol that it has found. *)
Theorem hookFunc_symbols L t new22 new23 new26 handle :
  ndk_dlopen L (literal "libart.so") = handle -> handle <> 0 ->
  let sym name := ndk_dlsym L handle (literal name) in
  let s26 := sym "_ZN3art2gc20AllocRecordObjectMap16RecordAllocationEPNS_6ThreadEPNS_6ObjPtrINS_6mirror6ObjectEEEj"%string in
  let s24 := sym "_ZN3art2gc20AllocRecordObjectMap16RecordAllocationEPNS_6ThreadEPPNS_6mirror6ObjectEj"%string in
  let s23 := sym "_ZN3art3Dbg16RecordAllocationEPNS_6ThreadEPNS_6mirror5ClassEj"%string in
  let s22 := sym "_ZN3art3Dbg16RecordAllocationEPNS_6mirror5ClassEj"%string in
  let hooked s new := emit (ClosedLibrary handle) (emit (Hooked s new) t) in
  (s26 <> 0 -> hookFunc L t new22 new23 new26 = hooked s26 new26) /\
  (s26 = 0 -> s24 <> 0 -> hookFunc L t new22 new23 new26 = hooked 0 new26) /\
  (s26 = 0 -> s24 = 0 -> s23 <> 0 -> hookFunc L t new22 new23 new26 = hooked s23 new23) /\
  (s26 = 0 -> s24 = 0 -> s23 = 0 -> s22 <> 0 -> hookFunc L t new22 new23 new26 = hooked s22 new22).
Proof.
  intros E Hh sym s26 s24 s23 s22 hooked. unfold hookFunc. cbv zeta. rewrite E. apply Z.eqb_neq in Hh. rewrite Hh.
  fold (sym "_ZN3art2gc20AllocRecordObjectMap16RecordAllocationEPNS_6ThreadEPNS_6ObjPtrINS_6mirror6ObjectEEEj"%string).
  fold (sym "_ZN3art2gc20AllocRecordObjectMap16RecordAllocationEPNS_6ThreadEPPNS_6mirror6ObjectEj"%string).
  fold (sym "_ZN3art3Dbg16RecordAllocationEPNS_6ThreadEPNS_6mirror5ClassEj"%string).
  fold (sym "_ZN3art3Dbg16RecordAllocationEPNS_6mirror5ClassEj"%string).
  fold s26 s24 s23 s22.
  repeat split; intros; repeat match goal with
    | H : ?x = 0 |- context [?x] => rewrite H
    | H : ?x <> 0 |- context [?x =? 0] => rewrite (proj2 (Z.eqb_neq x 0) H)
    end; done.
Qed.

(** ** Threads *)

Module ThreadsProofs.
Import Threads.

Section Runs.
Context (max : Z) (max_ok : 0 <= max).

Lemma run_schedule_app l1 l2 s : run max s (l1 ++ l2) = (s ← run max s l1; run max s l2).
Proof.
  revert s. induction l1 as [|[i b] l1 IH]; intros s; cbn [app run]; [done|].
  destruct (exec max s i b); cbn; [apply IH|done].
Qed.

(** [k] allocations of the first thread, one after the other. *)
Definition count_up (k : nat) : list (nat * bool) := concat (replicate k [(0%nat, false); (0%nat, false)]).

Lemma count_up_ok k n : Z.of_nat k <= max -> (0 < n)%nat ->
  run max (start n) (count_up k) = Some (mkState (Z.of_nat k) false 0 (replicate n Idle)).
Proof.
  intros Hk Hn. destruct n as [|n]; [lia|]. induction k as [|k IH]; [done|].
  unfold count_up. rewrite replicate_S_end, concat_app, run_schedule_app. fold (count_up k). rewrite IH by lia.
  cbn. replace (max <? Z.of_nat k + 1) with false by (symmetry; apply Z.ltb_ge; lia).
  by replace (Z.of_nat k + 1) with (Z.of_nat (S k)) by lia.
Qed.

(** Three threads find the count above the maximum; the first one locks, dumps
    and unlocks; the second locks; the destructor of the first unlocks that;
    the third locks. *)
Definition overlap : list (nat * bool) :=
  map (fun i => (i, false)) [0; 0; 1; 1; 2; 2; 0; 0; 0; 0; 1; 0; 2]%nat.

(** The lock of the tracker does not do what it is for: some schedule of
    three threads has two of them inside the locked section at once, and goes
    on to write a file for each of the three allocations from the one that
    exceeds the maximum on, where one file is due. *)
Theorem lock_excludes_nobody : exists before after s s',
  run max (start 3) before = Some s /\
  threads s !! 1%nat = Some Locked /\ threads s !! 2%nat = Some Locked /\ dumps s = 1 /\
  run max s after = Some s' /\ dumps s' = 3.
Proof.
  exists (count_up (Z.to_nat max) ++ overlap), (map (fun i => (i, false)) [1; 1; 2; 2]%nat).
  eexists _, _. rewrite run_schedule_app, count_up_ok, Z2Nat.id by lia. cbn.
  replace (max <? max + 1) with true by (symmetry; apply Z.ltb_lt; lia). cbn.
  replace (max <? max + 1 + 1) with true by (symmetry; apply Z.ltb_lt; lia). cbn.
  replace (max <? max + 1 + 1 + 1) with true by (symmetry; apply Z.ltb_lt; lia). cbn.
  by split.
Qed.
End Runs.
End ThreadsProofs.

(** ** Witnesses *)

Lemma randomInt_range_witness : 5 <= randomInt 5 8 2000000000 < 8 /\
  (randomInt 0 100 2000000000 = LUCKY <-> 1073741824 <= 2000000000 <= 1095216660).
Proof. apply (randomInt_range 5 8 2000000000); unfold RAND_MAX; lia. Defined.

(** Every symbol of libart is at 0x100; three allocations fill the records. *)
Definition sample_loader : loader := mkLoader 64 (fun _ => 1) (fun _ _ => 0x100) (fun _ _ => 0x100).

Definition sample_tracker : tracker :=
  setSaveDataDirectory (snd (initForArt sample_loader (new_tracker {[0x100 := 7]}) 23 2)) (literal "/sdcard").

Definition sample_answers : answers := mkAnswers 77 (Some [1; 2; 3]) 1600000000 4.

Lemma sample_counting : counting sample_loader sample_tracker.
Proof.
  split; [|done|done|cbn; discriminate|done].
  split; [done|..]; cbn; intros; repeat split; unfold int_ok; cbn; intros; try done; by eexists.
Qed.

Lemma sample_plain : plain sample_tracker (mkCall 1 2 3 sample_answers).
Proof. split; [by eexists|vm_compute; reflexivity]. Qed.

(** A call whose number is lucky, and seven that are not. *)
Definition lucky_call : call := mkCall 1 2 3 (mkAnswers 1080000000 (Some [1; 2; 3]) 1600000000 4).

Lemma lucky_plain : plain sample_tracker lucky_call.
Proof. split; [by eexists|vm_compute; reflexivity]. Qed.

Lemma file_each_max_plus_one_witness : exists t',
  record_all sample_loader (lucky_call :: replicate 7 (mkCall 1 2 3 sample_answers)) sample_tracker = Ret t' /\
  events is_recorded t' = 7 /\
  (events is_file t' * 3 + allocObjectCount t' <= 8 <= events is_file t' * 3 + allocObjectCount t' + 1).
Proof.
  destruct (file_each_max_plus_one sample_loader (or_intror eq_refl)
    (lucky_call :: replicate 7 (mkCall 1 2 3 sample_answers)) sample_tracker sample_counting) as (t' & E & H1 & H2 & _).
  - constructor; [exact lucky_plain|]. repeat (constructor; [exact sample_plain|]). constructor.
  - vm_compute. discriminate.
  - vm_compute. reflexivity.
  - exists t'. split; [exact E|]. split; [exact H1|].
    change (events is_file sample_tracker) with 0 in H2. rewrite Z.sub_0_r in H2. exact H2.
Defined.

Lemma lucky_allocation_lost_witness :
  newArtRecordAllocation23 sample_loader sample_tracker 1 2 3 (mkAnswers 1080000000 None 0 0) =
    Ret (emit (Described 2) (count_one sample_tracker)).
Proof.
  refine (proj1 (lucky_allocation_lost sample_loader sample_tracker 1 2 3 (mkAnswers 1080000000 None 0 0) _ _ _));
    [discriminate|reflexivity|vm_compute; reflexivity].
Defined.

Definition deep_tracker : tracker :=
  set_count (setSaveDataDirectory sample_tracker (replicate 120 47)) 2.

Lemma long_directory_overflows_witness :
  newArtRecordAllocationDoing sample_loader deep_tracker 2 3 sample_answers = Fault OutOfBounds.
Proof.
  apply (long_directory_overflows sample_loader (or_intror eq_refl) deep_tracker 2 3 sample_answers).
  - destruct sample_counting as [[]]. split; [by split|done|done|cbn; discriminate|done].
  - reflexivity.
  - vm_compute. discriminate.
  - vm_compute. discriminate.
Defined.

Lemma dvm_data_freed_twice_witness : exists t2,
  getDvmAllocationDataForJava (dumpDvmAllocationData (snd (initForDvm sample_loader (new_tracker ∅))) (Some (0x900, [1; 2]))) true
    = Ret (Some [1; 2], t2) /\ unInitForDvm t2 = Fault OutOfBounds.
Proof.
  refine (proj1 (dvm_data_freed_twice (snd (initForDvm sample_loader (new_tracker ∅))) 0x900 [1; 2] true _ _ _ _));
    [discriminate|discriminate|discriminate|reflexivity].
Defined.

(** A loader that knows only the symbol of API 24. *)
Definition api24_name : text :=
  literal "_ZN3art2gc20AllocRecordObjectMap16RecordAllocationEPNS_6ThreadEPPNS_6mirror6ObjectEj".
Definition api24_loader : loader :=
  mkLoader 64 (fun _ => 1) (fun _ name => if bool_decide (name = api24_name) then 0x2400 else 0) (fun _ _ => 0).

Lemma hookFunc_symbols_witness :
  hookFunc api24_loader (new_tracker ∅) 22 23 26 = emit (ClosedLibrary 1) (emit (Hooked 0 26) (new_tracker ∅)).
Proof.
  refine (proj1 (proj2 (hookFunc_symbols api24_loader (new_tracker ∅) 22 23 26 1 eq_refl _)) _ _);
    [discriminate|vm_compute; reflexivity|vm_compute; discriminate].
Defined.

Lemma lock_excludes_nobody_witness : exists before after s s',
  Threads.run 2 (Threads.start 3) before = Some s /\
  Threads.threads s !! 1%nat = Some Threads.Locked /\ Threads.threads s !! 2%nat = Some Threads.Locked /\
  Threads.dumps s = 1 /\ Threads.run 2 s after = Some s' /\ Threads.dumps s' = 3.
Proof. apply (ThreadsProofs.lock_excludes_nobody 2). lia. Defined.
