(* ===== verification/JniEnv.v ===== *)
(** The JNI environment of a thread: fb/fbjni/detail/Environment.h and
    Environment.cpp of alloctrack.

    The state is that of one thread: whether the virtual machine knows it, the
    thread-specific pointer, the [TLData] members of the scopes on its stack,
    by their addresses, and the calls of the virtual machine to attach and
    detach it, newest first. A member that has not been assigned, or whose scope
    has ended, is absent. FBJNI_ASSERT and FBJNI_LOGF end the process.
    GetEnv, AttachCurrentThread and DetachCurrentThread are those of the JNI
    specification; whether attaching succeeds is an argument. *)
From S2P Require Import Prelude.

Definition JNI_OK : Z := 0.
Definition JNI_EDETACHED : Z := -2.

Record TLData := mkTLData { env : Z; attached : bool }.

Inductive vm_call := AttachCurrentThread | DetachCurrentThread.

Record thread := mkThread {
  g_vm : bool;                       (* [g_vm] is set; the same for all threads *)
  vm_attached : bool;
  specific : option nat;
  objects : gmap nat TLData;
  calls : list vm_call;
}.

Definition set_vm (t : thread) b := mkThread b (vm_attached t) (specific t) (objects t) (calls t).
Definition set_specific (t : thread) p := mkThread (g_vm t) (vm_attached t) p (objects t) (calls t).
Definition set_objects (t : thread) m := mkThread (g_vm t) (vm_attached t) (specific t) m (calls t).
Definition vm_does (t : thread) c b := mkThread (g_vm t) b (specific t) (objects t) (c :: calls t).

Definition FBJNI_ASSERT (b : bool) : res unit := if b then Ret tt else Fault Aborted.

Section Environment.

(** The environment of the thread, whether AttachCurrentThread succeeds, and
    whether pthread_key_create and pthread_setspecific do. *)
Context (vm_env : Z) (attach_ok specific_ok : bool).
Implicit Type t : thread.

(** [initialize], once per process: the static is initialised by the first
    call. *)
Definition initialize t (initialised vm : bool) : res thread :=
  if initialised then Ret t
  else
    _ ← FBJNI_ASSERT (negb (g_vm t));
    _ ← FBJNI_ASSERT vm;
    Ret (set_vm t true).

Definition getEnv t : res (Z * Z) :=
  _ ← FBJNI_ASSERT (g_vm t);
  Ret (if vm_attached t then (JNI_OK, vm_env) else (JNI_EDETACHED, 0)).

Definition attachCurrentThread t : res (Z * thread) :=
  _ ← FBJNI_ASSERT attach_ok;
  Ret (vm_env, vm_does t AttachCurrentThread true).

Definition getTLData t : res (option TLData) :=
  match specific t with
  | None => Ret None
  | Some p => d ← get_or_oob (objects t !! p); Ret (Some d)
  end.

Definition setTLData t (p : option nat) : res thread :=
  _ ← FBJNI_ASSERT specific_ok; Ret (set_specific t p).

Definition cachedOrNull t : res Z :=
  pdata ← getTLData t; Ret (match pdata with Some d => env d | None => 0 end).

Definition currentOrNull t : res Z :=
  if negb (g_vm t) then Ret 0
  else
    pdata ← getTLData t;
    if match pdata with Some d => negb (env d =? 0) | None => false end
    then cachedOrNull t
    else
      '(ret, env) ← getEnv t;
      if negb (ret =? JNI_OK) then
        _ ← FBJNI_ASSERT (match pdata with Some d => negb (attached d) | None => true end);
        Ret env
      else Ret env.

(** ** The scopes

    [this] is the address of the object; the results of the constructors are
    its flag [thisCached_] or [thisAttached_]. *)

Definition JniEnvCacher t (this : nat) (e : Z) : res (bool * thread) :=
  _ ← FBJNI_ASSERT (negb (e =? 0));
  pdata ← getTLData t;
  if match pdata with Some d => negb (env d =? 0) | None => false end then Ret (false, t)
  else
    match pdata with
    | None =>
        t ← setTLData t (Some this);
        Ret (true, set_objects t (<[this := mkTLData e false]> (objects t)))
    | Some d =>
        p ← get_or_oob (specific t);
        Ret (true, set_objects t (<[p := mkTLData e (attached d)]> (objects t)))
    end.

Definition JniEnvCacher_destructor t (thisCached : bool) : res thread :=
  if negb thisCached then Ret t
  else
    pdata ← getTLData t;
    match pdata with
    | None => Fault Aborted
    | Some d =>
        _ ← FBJNI_ASSERT (negb (env d =? 0));
        p ← get_or_oob (specific t);
        let t := set_objects t (<[p := mkTLData 0 (attached d)]> (objects t)) in
        if negb (attached d) then setTLData t None else Ret t
    end.

Definition ThreadScope t (this : nat) : res (bool * thread) :=
  if negb (g_vm t) then Fault Thrown
  else
    '(result, _) ← getEnv t;
    if result =? JNI_OK then Ret (false, t)
    else
      pdata ← getTLData t;
      _ ← FBJNI_ASSERT (match pdata with None => true | Some _ => false end);
      t ← setTLData t (Some this);
      '(_, t) ← attachCurrentThread t;
      Ret (true, set_objects t (<[this := mkTLData 0 true]> (objects t))).

Definition ThreadScope_destructor t (thisAttached : bool) : res thread :=
  if negb thisAttached then Ret t
  else
    pdata ← getTLData t;
    match pdata with
    | None => Fault Aborted
    | Some d =>
        _ ← FBJNI_ASSERT (env d =? 0);
        _ ← FBJNI_ASSERT (attached d);
        _ ← FBJNI_ASSERT (g_vm t);
        setTLData (vm_does t DetachCurrentThread false) None
    end.

(** ** Asking for the environment *)

Definition current t : res Z :=
  _ ← FBJNI_ASSERT (g_vm t);
  env ← currentOrNull t;
  if env =? 0 then Fault Thrown else Ret env.

Definition ensureCurrentThreadIsAttached t : res (Z * thread) :=
  _ ← FBJNI_ASSERT (g_vm t);
  env ← currentOrNull t;
  if env =? 0 then
    '(env, t) ← attachCurrentThread t;
    _ ← FBJNI_ASSERT (negb (env =? 0));
    Ret (env, t)
  else Ret (env, t).

(** ** A thread and its scopes

    The scopes on the stack of the thread, the last one first; the address of a
    scope is the number of those below it. *)
Inductive scope := Cacher (this : nat) (flag : bool) | Scope (this : nat) (flag : bool).

Inductive op :=
| CallIn              (* Java calls a registered function: a JniEnvCacher *)
| NewScope            (* a ThreadScope *)
| Leave               (* the last scope ends *)
| Current
| EnsureAttached.

(** The end of a scope's lifetime. *)
Definition forget t (this : nat) : thread := set_objects t (delete this (objects t)).

Definition leave t (s : scope) : res thread :=
  match s with
  | Cacher this flag => t ← JniEnvCacher_destructor t flag; Ret (forget t this)
  | Scope this flag => t ← ThreadScope_destructor t flag; Ret (forget t this)
  end.

(** Java calls only from a thread that is attached. [current] is asked where
    its exception is caught. *)
Definition exec (s : list scope * thread) (o : op) : res (list scope * thread) :=
  let '(stack, t) := s in
  let this := length stack in
  match o with
  | CallIn =>
      if vm_attached t then
        '(flag, t) ← JniEnvCacher t this vm_env; Ret (Cacher this flag :: stack, t)
      else Ret (stack, t)
  | NewScope => '(flag, t) ← ThreadScope t this; Ret (Scope this flag :: stack, t)
  | Leave =>
      match stack with
      | [] => Ret (stack, t)
      | s :: stack => t ← leave t s; Ret (stack, t)
      end
  | Current =>
      match current t with
      | Fault Thrown => Ret (stack, t)
      | Fault f => Fault f
      | Ret _ => Ret (stack, t)
      end
  | EnsureAttached => '(_, t) ← ensureCurrentThreadIsAttached t; Ret (stack, t)
  end.

Fixpoint run (ops : list op) (s : list scope * thread) : res (list scope * thread) :=
  match ops with
  | [] => Ret s
  | o :: ops => s ← exec s o; run ops s
  end.

(** [WithClassLoader]: [runStdFunction] goes through Java, which calls a
    registered function that calls the closure. [top] is the number of scopes on
    the stack. *)
Definition runStdFunction t (top : nat) (func : thread -> res thread) : res thread :=
  '(flag, t) ← JniEnvCacher t top vm_env;
  t ← func t;
  leave t (Cacher top flag).

Definition WithClassLoader t (top : nat) (runnable : thread -> res thread) : res thread :=
  cached ← cachedOrNull t;
  if cached =? 0 then
    '(flag, t) ← ThreadScope t top;
    t ← runStdFunction t (S top) runnable;
    leave t (Scope top flag)
  else runnable t.

End Environment.

(** * The invariant

    What a thread sees: whether it is attached, and where its thread-specific
    pointer leads. [layered] says how each scope of the stack has changed it:
    the comment of the code, that a flagged ThreadScope cannot come after a
    flagged JniEnvCacher, is its last rule, for a thread that is not attached. *)
Definition view : Type := bool * option (nat * TLData).

Definition sees (t : thread) (v : view) : Prop :=
  vm_attached t = v.1 /\
  match v.2 with
  | None => specific t = None
  | Some (p, d) => specific t = Some p /\ objects t !! p = Some d
  end.

Section Layers.
Context (vm_env : Z).

Inductive layered (base : bool) : list scope -> view -> Prop :=
| layered_none : layered base [] (base, None)
| layered_cached i stack p a : i = length stack ->
    layered base stack (true, Some (p, mkTLData vm_env a)) ->
    layered base (Cacher i false :: stack) (true, Some (p, mkTLData vm_env a))
| layered_cacher i stack : i = length stack ->
    layered base stack (true, None) ->
    layered base (Cacher i true :: stack) (true, Some (i, mkTLData vm_env false))
| layered_cacher_scope i stack p : i = length stack ->
    layered base stack (true, Some (p, mkTLData 0 true)) ->
    layered base (Cacher i true :: stack) (true, Some (p, mkTLData vm_env true))
| layered_inside i stack d : i = length stack ->
    layered base stack (true, d) -> layered base (Scope i false :: stack) (true, d)
| layered_scope i stack : i = length stack ->
    layered base stack (false, None) ->
    layered base (Scope i true :: stack) (true, Some (i, mkTLData 0 true)).

(** The pointer leads to a scope of the stack, and each scope is at its own
    address. *)
Lemma layered_below base stack v p d : layered base stack v -> v.2 = Some (p, d) -> (p < length stack)%nat.
Proof.
  intros H. revert p d. induction H as [|? ? ? ? ? ? IH| |? ? ? ? ? IH|? ? ? ? ? IH|]; cbn [snd length] in *;
    intros q e E; inversion E; subst; try lia; by specialize (IH _ _ E) || specialize (IH _ _ eq_refl); lia.
Qed.

(** A thread that is not attached has no scope on its stack. *)
Lemma layered_detached base stack d : layered base stack (false, d) -> stack = [] /\ base = false /\ d = None.
Proof. intros H. by inversion H. Qed.

(** Attaching the thread by other means changes the base. *)
Lemma layered_attach stack : layered false stack (false, None) -> layered true stack (true, None).
Proof. intros H. destruct (layered_detached _ _ _ H) as (-> & _ & _). constructor. Qed.

(** What the pointer leads to is a member of a scope that caches, or attached. *)
Lemma layered_data base stack b p d : layered base stack (b, Some (p, d)) ->
  b = true /\ (env d = vm_env \/ env d = 0 /\ attached d = true).
Proof.
  intros H. remember (b, Some (p, d)) as v eqn:E. revert b p d E.
  induction H; intros b' p' d' E; inversion E; subst; cbn; eauto.
Qed.
End Layers.

(** * Scopes *)

Definition net (calls : list vm_call) : Z :=
  foldr (fun c n => match c with AttachCurrentThread => n + 1 | DetachCurrentThread => n - 1 end) 0 calls.

Section Scopes.
Context (vm_env : Z) (env_ok : vm_env <> 0).
Implicit Type t : thread.

(** [k] is the balance of the calls to attach and detach. *)
Record tracked (base : bool) (k : Z) (s : list scope * thread) (v : view) : Prop := {
  tk_vm : g_vm s.2 = true;
  tk_sees : sees s.2 v;
  tk_layers : layered vm_env base s.1 v;
  tk_balance : Z.b2z (vm_attached s.2) - net (calls s.2) = k;
}.

Lemma getTLData_ok t v : sees t v -> getTLData t = Ret (snd <$> v.2).
Proof.
  intros [_ H]. unfold getTLData. destruct (v.2) as [[p d]|]; [|by rewrite H].
  destruct H as [-> ->]. done.
Qed.

Lemma current_or_null base stack t v : g_vm t = true -> sees t v -> layered vm_env base stack v ->
  currentOrNull vm_env t = Ret (if vm_attached t then vm_env else 0).
Proof.
  intros Hg Hs Hl. unfold currentOrNull, cachedOrNull, getEnv. rewrite Hg, (getTLData_ok t v Hs), !bind_Ret.
  destruct Hs as [Ha _]. destruct v as [a [[p d]|]]; cbn [fst snd fmap option_fmap option_map negb] in *; rewrite Ha.
  - destruct (layered_data _ _ _ _ _ _ Hl) as [-> [-> | [-> _]]].
    + apply Z.eqb_neq in env_ok. by rewrite env_ok.
    + done.
  - destruct a; done.
Qed.

(** A new scope, and its end. *)
Lemma cacher_ok base k stack t v : tracked base k (stack, t) v -> vm_attached t = true ->
  exists flag t' v', JniEnvCacher true t (length stack) vm_env = Ret (flag, t') /\
    tracked base k (Cacher (length stack) flag :: stack, t') v' /\ calls t' = calls t.
Proof.
  intros [Hg Hs Hl Hk] Ha. cbn [fst snd] in *. unfold JniEnvCacher. apply Z.eqb_neq in env_ok as He.
  rewrite He. cbn [negb FBJNI_ASSERT]. rewrite (getTLData_ok t v Hs), !bind_Ret.
  destruct Hs as [Hva Hs]. rewrite Ha in Hva. destruct v as [a [[p d]|]]; cbn [fst snd fmap option_fmap option_map] in *;
    subst a.
  - destruct Hs as [Hp Ho], d as [e b].
    destruct (layered_data _ _ _ _ _ _ Hl) as [_ [Hd|[Hd Hat]]]; cbn in Hd; subst e; cbn [env attached].
    + rewrite He. cbn [negb]. do 3 eexists. split; [reflexivity|]. split; [|done].
      split; [done| |by eapply layered_cached|done]. split; [done|]. cbn. by split.
    + cbn [Z.eqb negb]. rewrite Hp. cbn [get_or_oob]. rewrite bind_Ret. do 3 eexists. split; [reflexivity|].
      split; [|done]. cbn in Hat. subst b. split; [done| |by eapply layered_cacher_scope|done]. split; [done|]. cbn. by rewrite lookup_insert_eq.
  - unfold setTLData. cbn [FBJNI_ASSERT]. rewrite !bind_Ret. do 3 eexists. split; [reflexivity|].
    split; [|done]. split; [done| |by eapply layered_cacher|done]. split; [done|]. cbn. by rewrite lookup_insert_eq.
Qed.

Lemma scope_ok base k stack t v : tracked base k (stack, t) v ->
  exists flag t' v', ThreadScope vm_env true true t (length stack) = Ret (flag, t') /\
    tracked base k (Scope (length stack) flag :: stack, t') v' /\ (base = true -> calls t' = calls t).
Proof.
  intros [Hg Hs Hl Hk]. cbn [fst snd] in *. unfold ThreadScope, getEnv. rewrite Hg. cbn [negb FBJNI_ASSERT].
  rewrite !bind_Ret. pose proof Hs as [Hva Hs']. destruct (vm_attached t) eqn:Ha; cbn [Z.eqb JNI_OK JNI_EDETACHED].
  - do 3 eexists. split; [reflexivity|]. split; [|done]. destruct v as [a d]. cbn in Hva. subst a.
    split; [done|exact Hs|by apply layered_inside|cbn; by rewrite Ha].
  - destruct v as [a d]. cbn [fst snd] in *. subst a. destruct (layered_detached _ _ _ _ Hl) as (-> & -> & ->).
    rewrite (getTLData_ok t _ Hs). cbn [snd fmap option_fmap option_map FBJNI_ASSERT].
    unfold setTLData, attachCurrentThread. cbn [FBJNI_ASSERT]. rewrite !bind_Ret. do 3 eexists.
    split; [reflexivity|]. split; [|done]. split; [done| |by apply layered_scope|change (1 - (net (calls t) + 1) = k); change (0 - net (calls t) = k) in Hk; lia].
    split; [done|]. cbn. by rewrite lookup_insert_eq.
Qed.

Lemma sees_forget t v i : sees t v -> (forall p d, v.2 = Some (p, d) -> p <> i) -> sees (forget t i) v.
Proof.
  intros [H1 H2] Hi. split; [done|]. destruct (v.2) as [[p d]|]; [|done]. destruct H2 as [H2 H3].
  split; [done|]. cbn. rewrite lookup_delete_ne; [done|]. intros ->. by apply (Hi p d).
Qed.

(** The end of the last scope gives the view from before it. *)
Lemma leave_ok base k s stack t v : tracked base k (s :: stack, t) v ->
  exists t' v', leave true t s = Ret t' /\ tracked base k (stack, t') v' /\ (base = true -> calls t' = calls t).
Proof.
  intros [Hg Hs Hl Hk]. cbn [fst snd] in *. pose proof env_ok as He. apply Z.eqb_neq in He.
  inversion Hl as [|i st p a Hi Hb|i st Hi Hb|i st p Hi Hb|i st d Hi Hb|i st Hi Hb]; subst; unfold leave;
    unfold JniEnvCacher_destructor, ThreadScope_destructor; cbn [negb]; rewrite ?bind_Ret.
  - do 2 eexists. split; [reflexivity|]. split; [|done]. split; [done| |exact Hb|done].
    apply sees_forget; [exact Hs|]. intros q d [= <- <-]. pose proof (layered_below _ _ _ _ _ _ Hb eq_refl). lia.
  - rewrite (getTLData_ok t _ Hs), bind_Ret. cbn [snd fmap option_fmap option_map env attached]. rewrite He.
    destruct Hs as [Ha [Hp Ho]]. cbn [fst snd] in *. rewrite Hp. cbn [negb FBJNI_ASSERT get_or_oob].
    rewrite !bind_Ret. unfold setTLData. cbn [FBJNI_ASSERT]. rewrite !bind_Ret. do 2 eexists.
    split; [reflexivity|]. split; [|done]. split; [done| |exact Hb|done]. by split.
  - rewrite (getTLData_ok t _ Hs), bind_Ret. cbn [snd fmap option_fmap option_map env attached]. rewrite He.
    destruct Hs as [Ha [Hp Ho]]. cbn [fst snd] in *. rewrite Hp. cbn [negb FBJNI_ASSERT get_or_oob].
    rewrite !bind_Ret. do 2 eexists. split; [reflexivity|]. split; [|done]. split; [done| |exact Hb|done].
    apply sees_forget; [split; [done|]; cbn; by rewrite lookup_insert_eq|].
    intros q d [= <- <-]. pose proof (layered_below _ _ _ _ _ _ Hb eq_refl). lia.
  - do 2 eexists. split; [reflexivity|]. split; [|done]. split; [done| |exact Hb|done].
    apply sees_forget; [exact Hs|]. intros q e E. pose proof (layered_below _ _ _ _ _ _ Hb E). lia.
  - rewrite (getTLData_ok t _ Hs), bind_Ret. cbn [snd fmap option_fmap option_map env attached]. rewrite Hg.
    destruct Hs as [Ha [Hp Ho]]. cbn [Z.eqb negb FBJNI_ASSERT]. rewrite !bind_Ret.
    unfold setTLData. cbn [FBJNI_ASSERT]. rewrite !bind_Ret. destruct (layered_detached _ _ _ _ Hb) as (-> & -> & _).
    do 2 eexists. split; [reflexivity|]. split; [|done]. split; [done| |exact Hb|].
    + by split.
    + cbn [snd fst] in *. rewrite Ha. change (0 - (net (calls t) - 1) = 1 - net (calls t)). lia.
Qed.
End Scopes.

Section Runs.
Context (vm_env : Z) (env_ok : vm_env <> 0).
Implicit Type t : thread.

Lemma current_ok base k stack t v : tracked vm_env base k (stack, t) v ->
  current vm_env t = if vm_attached t then Ret vm_env else Fault Thrown.
Proof.
  intros [Hg Hs Hl _]. cbn [fst snd] in *. unfold current. rewrite Hg. cbn [FBJNI_ASSERT].
  rewrite (current_or_null vm_env env_ok base stack t v Hg Hs Hl), !bind_Ret.
  apply Z.eqb_neq in env_ok. destruct (vm_attached t); [by rewrite env_ok|done].
Qed.

Lemma ensure_ok base k stack t v : tracked vm_env base k (stack, t) v ->
  exists t' base' v', ensureCurrentThreadIsAttached vm_env true t = Ret (vm_env, t') /\
    tracked vm_env base' k (stack, t') v' /\ (base = true -> base' = true /\ calls t' = calls t).
Proof.
  intros H. pose proof H as [Hg Hs Hl Hk]. cbn [fst snd] in *. unfold ensureCurrentThreadIsAttached. rewrite Hg.
  cbn [FBJNI_ASSERT]. rewrite (current_or_null vm_env env_ok base stack t v Hg Hs Hl), !bind_Ret.
  pose proof env_ok as He. apply Z.eqb_neq in He. destruct (vm_attached t) eqn:Ha.
  - rewrite He. by exists t, base, v.
  - cbn [Z.eqb]. unfold attachCurrentThread. cbn [FBJNI_ASSERT]. rewrite !bind_Ret, He. cbn [negb FBJNI_ASSERT].
    rewrite bind_Ret. destruct v as [a d]. pose proof Hs as [Hva Hd]. cbn [fst snd] in *. rewrite Ha in Hva. subst a.
    destruct (layered_detached _ _ _ _ Hl) as (-> & -> & ->).
    exists (vm_does t AttachCurrentThread true), true, (true, None). split; [done|]. split; [|done].
    split; [done|by split|constructor|]. change (1 - (net (calls t) + 1) = k). change (0 - net (calls t) = k) in Hk. lia.
Qed.

Lemma exec_tracked base k s v o : tracked vm_env base k s v ->
  exists s' base' v', exec vm_env true true s o = Ret s' /\ tracked vm_env base' k s' v' /\
    (o <> EnsureAttached -> base' = base) /\ (base = true -> base' = true /\ calls s'.2 = calls s.2).
Proof.
  destruct s as [stack t]. intros H. destruct o; cbn [exec].
  - destruct (vm_attached t) eqn:Ha; [|by exists (stack, t), base, v].
    destruct (cacher_ok vm_env env_ok base k stack t v H Ha) as (flag & t' & v' & -> & H' & Hc).
    rewrite bind_Ret. by eexists _, base, v'.
  - destruct (scope_ok vm_env base k stack t v H) as (flag & t' & v' & -> & H' & Hc).
    rewrite bind_Ret. eexists _, base, v'. split; [done|]. split; [done|]. split; [done|]. intros E. by split; [|apply Hc].
  - destruct stack as [|s stack]; [by exists ([], t), base, v|].
    destruct (leave_ok vm_env env_ok base k s stack t v H) as (t' & v' & -> & H' & Hc).
    rewrite bind_Ret. eexists _, base, v'. split; [done|]. split; [done|]. split; [done|]. intros E. by split; [|apply Hc].
  - rewrite (current_ok base k stack t v H). destruct (vm_attached t); by eexists _, base, v.
  - destruct (ensure_ok base k stack t v H) as (t' & base' & v' & -> & H' & Hc). rewrite bind_Ret.
    eexists _, base', v'. split; [done|]. split; [done|]. split; [done|]. exact Hc.
Qed.

Lemma run_tracked ops : forall base k s v, tracked vm_env base k s v ->
  exists s' base' v', run vm_env true true ops s = Ret s' /\ tracked vm_env base' k s' v' /\
    (EnsureAttached ∉ ops -> base' = base) /\ (base = true -> base' = true /\ calls s'.2 = calls s.2).
Proof.
  induction ops as [|o ops IH]; intros base k s v H; [by exists s, base, v|]. cbn [run].
  destruct (exec_tracked base k s v o H) as (s1 & b1 & v1 & -> & H1 & Hb1 & Hc1). rewrite bind_Ret.
  destruct (IH b1 k s1 v1 H1) as (s2 & b2 & v2 & -> & H2 & Hb2 & Hc2). exists s2, b2, v2.
  split; [done|]. split; [done|]. split.
  - intros [Hne Hni]%not_elem_of_cons. rewrite Hb2 by done. apply Hb1. congruence.
  - intros E. destruct (Hc1 E) as [E1 Hc]. destruct (Hc2 E1) as [-> ->]. done.
Qed.

(** A thread between scopes. *)
Definition outside t : Prop := g_vm t = true /\ specific t = None.

Lemma outside_tracked t : outside t ->
  tracked vm_env (vm_attached t) (Z.b2z (vm_attached t) - net (calls t)) ([], t) (vm_attached t, None).
Proof. intros [H1 H2]. by split; [|split|constructor|]. Qed.

(** C35: However calls from Java, ThreadScopes and requests for the environment
    nest, no assertion fails, and [current] gives the environment exactly while
    the thread is attached. When all scopes have ended the thread is as it was,
    unless [ensureCurrentThreadIsAttached] has left it attached; it has been
    detached as often as attached, but for that; and a thread that was attached
    at first has been neither attached nor detached. *)
Theorem scopes_balance ops t : outside t ->
  exists stack t', run vm_env true true ops ([], t) = Ret (stack, t') /\
    current vm_env t' = (if vm_attached t' then Ret vm_env else Fault Thrown) /\
    net (calls t') - net (calls t) = Z.b2z (vm_attached t') - Z.b2z (vm_attached t) /\
    (vm_attached t = true -> vm_attached t' = true /\ calls t' = calls t) /\
    (stack = [] -> specific t' = None /\ (EnsureAttached ∉ ops -> vm_attached t' = vm_attached t)).
Proof.
  intros Ho. destruct (run_tracked ops _ _ _ _ (outside_tracked t Ho)) as ([stack t'] & b & v & E & H & Hb & Hc).
  exists stack, t'. split; [done|]. split; [exact (current_ok b _ stack t' v H)|].
  destruct H as [Hg Hs Hl Hk]. cbn [fst snd] in *. split; [lia|]. split.
  - intros Ha. destruct (Hc Ha) as [-> Hcalls]. split; [|done]. destruct Hs as [-> _]. destruct v as [[] d]; [done|].
    by destruct (layered_detached _ _ _ _ Hl) as (_ & ? & _).
  - intros ->. inversion Hl; subst. destruct Hs as [Ha Hp]. cbn [fst snd] in *. split; [done|].
    intros Hn. by rewrite Ha, Hb.
Qed.

(** What a closure may do to its thread: calls of the virtual machine, and
    scopes that have ended. *)
Definition kept_by (f : thread -> res thread) : Prop := forall t,
  g_vm t = true -> vm_attached t = true -> cachedOrNull t = Ret vm_env -> exists t', f t = Ret t' /\
    g_vm t' = true /\ vm_attached t' = true /\ specific t' = specific t /\ objects t' = objects t /\
    net (calls t') = net (calls t).

Lemma tracked_cached base k i flag stack t v : tracked vm_env base k (Cacher i flag :: stack, t) v ->
  vm_attached t = true /\ cachedOrNull t = Ret vm_env.
Proof.
  intros [_ Hs Hl _]. cbn [fst snd] in *. unfold cachedOrNull. rewrite (getTLData_ok t v Hs), bind_Ret.
  destruct Hs as [Ha _]. inversion Hl; subst; by split.
Qed.

Lemma kept_tracked f base k i flag stack t v : kept_by f ->
  tracked vm_env base k (Cacher i flag :: stack, t) v ->
  exists t', f t = Ret t' /\ tracked vm_env base k (Cacher i flag :: stack, t') v.
Proof.
  intros Hf H. destruct (tracked_cached _ _ _ _ _ _ _ H) as [Ha Hc]. destruct H as [Hg Hs Hl Hk]. cbn [fst snd] in *.
  destruct (Hf t Hg Ha Hc) as (t' & E & Hg' & Ha' & Hp & Ho & Hn). exists t'. split; [done|].
  split; [done| |done|cbn [snd]; by rewrite Hn, Ha', <- Ha].
  destruct Hs as [H1 H2]. cbn [snd]. split; [congruence|]. by rewrite Hp, Ho.
Qed.

(** [WithClassLoader] runs its closure on an attached thread with a cached
    environment, whatever the thread is, and leaves the thread as it was. *)
Theorem with_class_loader_restores t f : outside t -> kept_by f ->
  exists t', WithClassLoader vm_env true true t 0 f = Ret t' /\ outside t' /\
    vm_attached t' = vm_attached t /\ net (calls t') = net (calls t).
Proof.
  intros Ho Hf. pose proof (outside_tracked t Ho) as H. destruct Ho as [Hg Hp].
  unfold WithClassLoader, cachedOrNull. rewrite (getTLData_ok t _ (tk_sees _ _ _ _ _ H)), !bind_Ret. cbn [Z.eqb].
  destruct (scope_ok vm_env _ _ [] t _ H) as (fs & t1 & v1 & E1 & H1 & _). cbn [length] in E1, H1. rewrite E1, bind_Ret.
  unfold runStdFunction. assert (vm_attached t1 = true) as Ha1.
  { destruct H1 as [_ [Ha _] Hl _]. cbn [fst snd] in *. rewrite Ha. by inversion Hl. }
  destruct (cacher_ok vm_env env_ok _ _ _ t1 v1 H1 Ha1) as (fc & t2 & v2 & E2 & H2 & _). cbn [length] in E2, H2.
  rewrite E2, bind_Ret. destruct (kept_tracked f _ _ _ _ _ _ _ Hf H2) as (t3 & -> & H3). rewrite bind_Ret.
  destruct (leave_ok vm_env env_ok _ _ _ _ _ _ H3) as (t4 & v4 & -> & H4 & _). rewrite bind_Ret.
  destruct (leave_ok vm_env env_ok _ _ _ _ _ _ H4) as (t5 & v5 & -> & [Hg5 Hs5 Hl5 Hk5] & _). cbn [fst snd] in *.
  exists t5. split; [done|]. inversion Hl5; subst. destruct Hs5 as [Ha5 Hp5]. cbn [fst snd] in *.
  rewrite Ha5 in *. split; [by split|]. split; [done|lia].
Qed.
End Runs.

(** ** Witnesses *)

Definition native_thread : thread := mkThread true false None ∅ [].

Lemma scopes_balance_witness : exists t',
  run 0x100 true true [NewScope; NewScope; CallIn; Current; Leave; EnsureAttached; Leave; Leave] ([], native_thread) =
    Ret ([], t') /\ vm_attached t' = false /\ calls t' = [DetachCurrentThread; AttachCurrentThread].
Proof.
  destruct (scopes_balance 0x100 ltac:(discriminate)
    [NewScope; NewScope; CallIn; Current; Leave; EnsureAttached; Leave; Leave] native_thread (conj eq_refl eq_refl))
    as (stack & t' & E & _).
  assert (fst <$> run 0x100 true true [NewScope; NewScope; CallIn; Current; Leave; EnsureAttached; Leave; Leave]
    ([], native_thread) = Ret []) as E1 by reflexivity.
  rewrite E in E1. injection E1 as ->. exists t'. split; [exact E|]. vm_compute in E. injection E as <-. done.
Defined.

Lemma with_class_loader_restores_witness : exists t',
  WithClassLoader 0x100 true true native_thread 0 (fun t => Ret t) = Ret t' /\ vm_attached t' = false.
Proof.
  destruct (with_class_loader_restores 0x100 ltac:(discriminate) native_thread (fun t => Ret t) (conj eq_refl eq_refl))
    as (t' & E & _ & Ha & _); [intros t Hg Ha _; by exists t|]. exists t'. split; [exact E|exact Ha].
Defined.
