(* ===== verification/ConvertUtf.v ===== *)
(** Conversions between UTF-8, UTF-16 and UTF-32, and their use on strings:
    common/convert_UTF.c and common/string_conversion.cc of libbreakpad.

    A converter takes what is left of the source and the room left in the
    target, and gives its result, the source from [*sourceStart] on, and what
    it wrote. A code is a [UTF32], an unsigned long of [w] bits, 32 or 64. *)
From S2P Require Import Prelude Utf8.

Inductive ConversionResult := conversionOK | sourceExhausted | targetExhausted | sourceIllegal.

Inductive ConversionFlags := strictConversion | lenientConversion.

#[export] Instance ConversionResult_eq_dec : EqDecision ConversionResult.
Proof. solve_decision. Defined.

Definition strict (flags : ConversionFlags) : bool :=
  match flags with strictConversion => true | lenientConversion => false end.

Record conversion := Conversion { result : ConversionResult; source : list Z; target : list Z }.

#[export] Instance conversion_eq_dec : EqDecision conversion.
Proof. solve_decision. Defined.

Definition stop (r : ConversionResult) (s : list Z) : conversion := Conversion r s [].

Definition emit (l : list Z) (c : conversion) : conversion := Conversion (result c) (source c) (l ++ target c).

Definition UNI_REPLACEMENT_CHAR : Z := 0xFFFD.
Definition UNI_MAX_BMP : Z := 0xFFFF.
Definition UNI_MAX_UTF16 : Z := 0x10FFFF.
Definition UNI_MAX_LEGAL_UTF32 : Z := 0x10FFFF.

Definition halfShift : Z := 10.
Definition halfBase : Z := 0x10000.
Definition halfMask : Z := 0x3FF.

Definition is_high (ch : Z) : bool := (0xD800 <=? ch) && (ch <=? 0xDBFF).
Definition is_low (ch : Z) : bool := (0xDC00 <=? ch) && (ch <=? 0xDFFF).
Definition is_surrogate (ch : Z) : bool := (0xD800 <=? ch) && (ch <=? 0xDFFF).

(** The code of a pair, and the pair of a code. *)
Definition join_pair (ch ch2 : Z) : Z := Z.shiftl (ch - 0xD800) halfShift + (ch2 - 0xDC00) + halfBase.

Definition split (ch : Z) : list Z :=
  let ch := ch - halfBase in
  [u16 (Z.shiftr ch halfShift + 0xD800); u16 (Z.land ch halfMask + 0xDC00)].

(** * From UTF-32 to UTF-16 *)

Fixpoint utf32_to_utf16 (flags : ConversionFlags) (result : ConversionResult) (s : list Z) (room : nat) : conversion :=
  match s with
  | [] => stop result []
  | ch :: t =>
      match room with
      | O => stop targetExhausted s
      | S room1 =>
          if ch <=? UNI_MAX_BMP then
            if is_surrogate ch then
              if strict flags then stop sourceIllegal s
              else emit [UNI_REPLACEMENT_CHAR] (utf32_to_utf16 flags result t room1)
            else emit [u16 ch] (utf32_to_utf16 flags result t room1)
          else if UNI_MAX_LEGAL_UTF32 <? ch then
            if strict flags then utf32_to_utf16 flags sourceIllegal t room
            else emit [UNI_REPLACEMENT_CHAR] (utf32_to_utf16 flags result t room1)
          else
            match room1 with
            | O => stop targetExhausted s
            | S room2 => emit (split ch) (utf32_to_utf16 flags result t room2)
            end
      end
  end.

Definition ConvertUTF32toUTF16 (flags : ConversionFlags) (s : list Z) (room : nat) : conversion :=
  utf32_to_utf16 flags conversionOK s room.

(** * From UTF-16 to UTF-32 *)

Fixpoint ConvertUTF16toUTF32 (flags : ConversionFlags) (s : list Z) (room : nat) : conversion :=
  match s with
  | [] => stop conversionOK []
  | ch :: t =>
      let put (ch : Z) (go : nat -> conversion) :=
        match room with
        | O => stop targetExhausted s
        | S room1 => emit [ch] (go room1)
        end in
      if is_high ch then
        match t with
        | ch2 :: t2 =>
            if is_low ch2 then put (join_pair ch ch2) (ConvertUTF16toUTF32 flags t2)
            else if strict flags then stop sourceIllegal s
            else put ch (ConvertUTF16toUTF32 flags t)
        | [] => stop sourceExhausted s
        end
      else if strict flags && is_low ch then stop sourceIllegal s
      else put ch (ConvertUTF16toUTF32 flags t)
  end.

(** * Tables of UTF-8 *)

Definition trailing_table : list nat :=
  replicate 192 0%nat ++ replicate 32 1%nat ++ replicate 16 2%nat ++ replicate 8 3%nat
  ++ replicate 4 4%nat ++ replicate 4 5%nat.

(** Indexed by a byte, so never out of the table. *)
Definition trailingBytesForUTF8 (b : Z) : nat := default 0%nat (trailing_table !! Z.to_nat b).

Definition offsetsFromUTF8 (extra : nat) : Z :=
  default 0 ([0x00000000; 0x00003080; 0x000E2080; 0x03C82080; 0xFA082080; 0x82082080] !! extra).

Definition firstByteMark (bytes : nat) : Z := default 0 ([0x00; 0x00; 0xC0; 0xE0; 0xF0; 0xF8; 0xFC] !! bytes).

(** * Writing UTF-8 *)

Definition byteMask : Z := 0xBF.
Definition byteMark : Z := 0x80.

(** The switch on [bytesToWrite], from the last byte back to the first. *)
Fixpoint put_back (n : nat) (mark ch : Z) (acc : list Z) : list Z :=
  match n with
  | O => acc
  | S O => u8 (Z.lor ch mark) :: acc
  | S n1 => put_back n1 mark (Z.shiftr ch 6) (u8 (Z.land (Z.lor ch byteMark) byteMask) :: acc)
  end.

(** The number of bytes, and the code they are for. *)
Definition bytesToWrite (ch : Z) : nat * Z :=
  if ch <? 0x80 then (1%nat, ch)
  else if ch <? 0x800 then (2%nat, ch)
  else if ch <? 0x10000 then (3%nat, ch)
  else if ch <=? UNI_MAX_LEGAL_UTF32 then (4%nat, ch)
  else (3%nat, UNI_REPLACEMENT_CHAR).

(** The end of an iteration: the bytes of [ch] when there is room for them. *)
Definition put_utf8 (ch : Z) (s : list Z) (room : nat) (go : nat -> conversion) : conversion :=
  let '(n, ch) := bytesToWrite ch in
  if (room <? n)%nat then stop targetExhausted s
  else emit (put_back n (firstByteMark n) ch []) (go (room - n)%nat).

Fixpoint ConvertUTF16toUTF8 (flags : ConversionFlags) (s : list Z) (room : nat) : conversion :=
  match s with
  | [] => stop conversionOK []
  | ch :: t =>
      if is_high ch then
        match t with
        | ch2 :: t2 =>
            if is_low ch2 then put_utf8 (join_pair ch ch2) s room (ConvertUTF16toUTF8 flags t2)
            else if strict flags then stop sourceIllegal s
            else put_utf8 ch s room (ConvertUTF16toUTF8 flags t)
        | [] => stop sourceExhausted s
        end
      else if strict flags && is_low ch then stop sourceIllegal s
      else put_utf8 ch s room (ConvertUTF16toUTF8 flags t)
  end.

Fixpoint utf32_to_utf8 (flags : ConversionFlags) (result : ConversionResult) (s : list Z) (room : nat) : conversion :=
  match s with
  | [] => stop result []
  | ch :: t =>
      if strict flags && is_surrogate ch then stop sourceIllegal s
      else
        let result := if UNI_MAX_LEGAL_UTF32 <? ch then sourceIllegal else result in
        put_utf8 ch s room (utf32_to_utf8 flags result t)
  end.

Definition ConvertUTF32toUTF8 (flags : ConversionFlags) (s : list Z) (room : nat) : conversion :=
  utf32_to_utf8 flags conversionOK s room.

(** * Reading UTF-8 *)

Definition legal_lead (s0 : Z) : bool := negb ((0x80 <=? s0) && (s0 <? 0xC2)) && negb (0xF4 <? s0).

Definition legal_second (s0 a : Z) : bool :=
  negb (0xBF <? a) &&
  (if s0 =? 0xE0 then negb (a <? 0xA0)
   else if s0 =? 0xED then negb (0x9F <? a)
   else if s0 =? 0xF0 then negb (a <? 0x90)
   else if s0 =? 0xF4 then negb (0x8F <? a)
   else negb (a <? 0x80)).

Definition legal_tail (a : Z) : bool := negb ((a <? 0x80) || (0xBF <? a)).

(** On the [length] bytes of the sequence, from the last one back. *)
Definition isLegalUTF8 (s : list Z) : bool :=
  match s with
  | [s0; s1; s2; s3] => legal_tail s3 && (legal_tail s2 && (legal_second s0 s1 && legal_lead s0))
  | [s0; s1; s2] => legal_tail s2 && (legal_second s0 s1 && legal_lead s0)
  | [s0; s1] => legal_second s0 s1 && legal_lead s0
  | [s0] => legal_lead s0
  | _ => false
  end.

Definition isLegalUTF8Sequence (s : list Z) : res bool :=
  b ← get_or_oob (s !! 0%nat);
  let length := (trailingBytesForUTF8 b + 1)%nat in
  Ret (if (List.length s <? length)%nat then false else isLegalUTF8 (take length s)).

(** The switch on [extraBytesToRead], from 0. *)
Fixpoint accumulate (w ch : Z) (l : list Z) : Z :=
  match l with
  | [] => ch
  | [b] => wrap w (ch + b)
  | b :: t => accumulate w (wrap w (Z.shiftl (wrap w (ch + b)) 6)) t
  end.

(** What the two converters from UTF-8 share: the check of the sequence in
    front of [s], and its code. *)
Definition read_utf8 (w b : Z) (s : list Z) (go : Z -> list Z -> conversion) : conversion :=
  let extraBytesToRead := trailingBytesForUTF8 b in
  if (List.length s <=? extraBytesToRead)%nat then stop sourceExhausted s
  else if negb (isLegalUTF8 (take (S extraBytesToRead) s)) then stop sourceIllegal s
  else
    go (wrap w (accumulate w 0 (take (S extraBytesToRead) s) - offsetsFromUTF8 extraBytesToRead))
       (drop (S extraBytesToRead) s).

Fixpoint utf8_to_utf16 (fuel : nat) (w : Z) (flags : ConversionFlags) (s : list Z) (room : nat) : conversion :=
  match fuel, s with
  | S fuel, b :: _ =>
      read_utf8 w b s (fun ch t =>
        match room with
        | O => stop targetExhausted s
        | S room1 =>
            if ch <=? UNI_MAX_BMP then
              if is_surrogate ch then
                if strict flags then stop sourceIllegal s
                else emit [UNI_REPLACEMENT_CHAR] (utf8_to_utf16 fuel w flags t room1)
              else emit [u16 ch] (utf8_to_utf16 fuel w flags t room1)
            else if UNI_MAX_UTF16 <? ch then
              if strict flags then stop sourceIllegal s
              else emit [UNI_REPLACEMENT_CHAR] (utf8_to_utf16 fuel w flags t room1)
            else
              match room1 with
              | O => stop targetExhausted s
              | S room2 => emit (split ch) (utf8_to_utf16 fuel w flags t room2)
              end
        end)
  | _, _ => stop conversionOK s
  end.

(** Every iteration reads at least one byte. *)
Definition ConvertUTF8toUTF16 (w : Z) (flags : ConversionFlags) (s : list Z) (room : nat) : conversion :=
  utf8_to_utf16 (List.length s) w flags s room.

Fixpoint utf8_to_utf32 (fuel : nat) (w : Z) (flags : ConversionFlags) (result : ConversionResult)
    (s : list Z) (room : nat) : conversion :=
  match fuel, s with
  | S fuel, b :: _ =>
      read_utf8 w b s (fun ch t =>
        match room with
        | O => stop targetExhausted s
        | S room1 =>
            if ch <=? UNI_MAX_LEGAL_UTF32 then
              if is_surrogate ch then
                if strict flags then stop sourceIllegal s
                else emit [UNI_REPLACEMENT_CHAR] (utf8_to_utf32 fuel w flags result t room1)
              else emit [ch] (utf8_to_utf32 fuel w flags result t room1)
            else emit [UNI_REPLACEMENT_CHAR] (utf8_to_utf32 fuel w flags sourceIllegal t room1)
        end)
  | _, _ => stop result s
  end.

Definition ConvertUTF8toUTF32 (w : Z) (flags : ConversionFlags) (s : list Z) (room : nat) : conversion :=
  utf8_to_utf32 (List.length s) w flags conversionOK s room.

(** * Conversion of strings *)

(** The bytes of a C string, before the zero that ends it. *)
Fixpoint zstring (mem : list Z) : res (list Z) :=
  match mem with
  | [] => Fault OutOfBounds
  | b :: t => if b =? 0 then Ret [] else s ← zstring t; Ret (b :: s)
  end.

(** [vector::resize] on the first [size] cells of the storage: it drops
    elements, or adds zeros. *)
Definition resize (contents : list Z) (size : nat) : list Z :=
  take size contents ++ replicate (size - length contents) 0.

(** Into the storage of a vector that holds [source_length] zeros and has the
    cells [spare] left: the end of the target is computed in units, and with
    twice the capacity. *)
Definition fill_vector (source_length : nat) (spare : list Z) (convert : nat -> conversion) : res (list Z) :=
  let storage := replicate source_length 0 ++ spare in
  let c := convert (2 * length storage)%nat in
  storage ← store storage 0 (target c);
  Ret (resize (take source_length storage)
         (if decide (result c = conversionOK) then length (target c) + 1 else 0)).

Definition UTF8ToUTF16 (w : Z) (mem spare : list Z) : res (list Z) :=
  s ← zstring mem;
  fill_vector (length s) spare (ConvertUTF8toUTF16 w strictConversion s).

(** The loop, with [source_end_ptr] at [in + k], [written] before [target_ptr]. *)
Fixpoint utf16_char_loop (fuel : nat) (w : Z) (s : list Z) (in_length k : nat) (written : list Z) : res (nat * list Z) :=
  match fuel with
  | O => Fault OutOfFuel
  | S fuel =>
      if (length s <? k)%nat then Fault OutOfBounds
      else
        let c := ConvertUTF8toUTF16 w strictConversion (take k s) (2 - length written) in
        let written := written ++ target c in
        if decide (result c = conversionOK) then Ret ((k - length (source c))%nat, resize written 2)
        else if (in_length <? S k)%nat then Ret (0%nat, resize written 2)
        else utf16_char_loop fuel w s in_length (S k) written
  end.

(** The bytes read, 0 for an error, and the two units of [out]. *)
Definition UTF8ToUTF16Char (w : Z) (s : list Z) (in_length : nat) : res (nat * list Z) :=
  utf16_char_loop (S in_length) w s in_length 1 [].

(** The array of [wchar_t], 32 bits each, read as [n] codes of [w] bits. *)
Fixpoint reinterpret_wchar (w : Z) (mem : list Z) (n : nat) : res (list Z) :=
  match n with
  | O => Ret []
  | S n =>
      if w =? 32 then
        match mem with
        | c :: t => s ← reinterpret_wchar w t n; Ret (c :: s)
        | [] => Fault OutOfBounds
        end
      else
        match mem with
        | lo :: hi :: t => s ← reinterpret_wchar w t n; Ret (lo + 2 ^ 32 * hi :: s)
        | _ => Fault OutOfBounds
        end
  end.

Definition UTF32ToUTF16 (w : Z) (mem spare : list Z) : res (list Z) :=
  s ← zstring mem;
  codes ← reinterpret_wchar w mem (length s);
  fill_vector (length s) spare (ConvertUTF32toUTF16 strictConversion codes).

Definition UTF32ToUTF16Char (w ch : Z) : res (list Z) :=
  codes ← reinterpret_wchar w [ch] 1;
  let c := ConvertUTF32toUTF16 strictConversion codes 2 in
  Ret (if decide (result c = conversionOK) then resize (target c) 2 else [0; 0]).

Definition Swap (value : Z) : Z := Z.lor (Z.shiftr value 8) (u16 (Z.shiftl value 8)).

(** [buffer] is what the new array of [4 * in.size()] bytes holds. *)
Definition UTF16ToUTF8 (s : list Z) (swap : bool) (buffer : list Z) : res (list Z) :=
  let s := if swap then map Swap s else s in
  let c := ConvertUTF16toUTF8 strictConversion s (length buffer) in
  buffer ← store buffer 0 (target c);
  if decide (result c = conversionOK) then zstring buffer else Ret [].

(** * The characters *)

(** The tests of the converters, as inequalities. *)
Lemma trailing_cases b : 0 <= b < 256 ->
  trailingBytesForUTF8 b =
    if b <? 0xC0 then 0%nat else if b <? 0xE0 then 1%nat else if b <? 0xF0 then 2%nat
    else if b <? 0xF8 then 3%nat else if b <? 0xFC then 4%nat else 5%nat.
Proof.
  intros Hb. rewrite <- (Z2Nat.id b) by lia. assert (Z.to_nat b < 256)%nat as Hn by lia.
  generalize (Z.to_nat b) Hn. clear b Hb Hn. intros n Hn.
  assert (forallb (fun n => bool_decide (trailingBytesForUTF8 (Z.of_nat n) =
    let b := Z.of_nat n in if b <? 0xC0 then 0%nat else if b <? 0xE0 then 1%nat else if b <? 0xF0 then 2%nat
    else if b <? 0xF8 then 3%nat else if b <? 0xFC then 4%nat else 5%nat)) (seq 0 256) = true) as H by (vm_compute; done).
  rewrite forallb_forall in H. specialize (H n). rewrite bool_decide_eq_true in H. apply H, in_seq. lia.
Qed.

Ltac tests :=
  unfold is_high, is_low, is_surrogate, UNI_MAX_BMP, UNI_MAX_UTF16, UNI_MAX_LEGAL_UTF32, legal_lead, legal_second,
    legal_tail in *;
  rewrite ?negb_true_iff, ?negb_false_iff, ?andb_true_iff, ?andb_false_iff, ?orb_true_iff, ?orb_false_iff,
    ?Z.leb_le, ?Z.leb_gt, ?Z.ltb_lt, ?Z.ltb_ge, ?Z.eqb_eq, ?Z.eqb_neq.

Lemma is_high_spec ch : is_high ch = true <-> 0xD800 <= ch < 0xDC00.
Proof. tests. lia. Qed.
Lemma is_low_spec ch : is_low ch = true <-> 0xDC00 <= ch < 0xE000.
Proof. tests. lia. Qed.
Lemma is_surrogate_spec ch : is_surrogate ch = true <-> 0xD800 <= ch < 0xE000.
Proof. tests. lia. Qed.

Lemma legal_lead_spec s0 : legal_lead s0 = true <-> s0 < 0x80 \/ 0xC2 <= s0 < 0xF5.
Proof. tests. lia. Qed.
Lemma legal_tail_spec a : legal_tail a = true <-> 0x80 <= a < 0xC0.
Proof. tests. lia. Qed.
Lemma legal_second_spec s0 a : 0 <= a -> legal_second s0 a = true <->
  (if s0 =? 0xE0 then 0xA0 else if s0 =? 0xF0 then 0x90 else if (s0 =? 0xED) || (s0 =? 0xF4) then 0 else 0x80) <= a
  /\ a < (if s0 =? 0xED then 0xA0 else if s0 =? 0xF4 then 0x90 else 0xC0).
Proof.
  intros Ha. unfold legal_second. destruct (Z.eqb_spec s0 0xE0) as [->|]; [tests; cbn; lia|].
  destruct (Z.eqb_spec s0 0xED) as [->|]; [tests; cbn; lia|].
  destruct (Z.eqb_spec s0 0xF0) as [->|]; [tests; cbn; lia|].
  destruct (Z.eqb_spec s0 0xF4); cbn [orb]; tests; lia.
Qed.

(** Sequences that are not UTF-8 and that [isLegalUTF8] lets through: after
    0xED and 0xF4 the second byte has no lower bound. *)
Inductive irregular : Z -> list Z -> Prop :=
| irregular_ED a b : 0 <= a < 0x80 -> 0x80 <= b < 0xC0 ->
    irregular (0xD000 + (a - 0x80) * 64 + (b - 0x80)) [0xED; a; b]
| irregular_F4 a b d : 0 <= a < 0x80 -> 0x80 <= b < 0xC0 -> 0x80 <= d < 0xC0 ->
    irregular (0x100000 + (a - 0x80) * 4096 + (b - 0x80) * 64 + (d - 0x80)) [0xF4; a; b; d].

(** The bytes read as one character, and its code. *)
Definition reads_utf8 (c : Z) (l : list Z) : Prop := (scalar c /\ l = utf8_encode c) \/ irregular c l.

Lemma reads_scalar c l : reads_utf8 c l -> scalar c.
Proof. unfold scalar. intros [[H _]|[a b|a b d]]; [done|left; lia|lia]. Qed.

Ltac ltbs := repeat match goal with |- context [?a <? ?b] => destruct (Z.ltb_spec a b); try lia end.

Lemma encode_two b a : 0xC2 <= b < 0xE0 -> 0x80 <= a < 0xC0 -> utf8_encode ((b - 0xC0) * 64 + (a - 0x80)) = [b; a].
Proof. intros Hb Ha. unfold utf8_encode. ltbs. repeat f_equal; divs. Qed.

Lemma encode_three b a x : 0xE0 <= b < 0xF0 -> 0x80 <= a < 0xC0 -> 0x80 <= x < 0xC0 -> (b = 0xE0 -> 0xA0 <= a) ->
  utf8_encode ((b - 0xE0) * 4096 + (a - 0x80) * 64 + (x - 0x80)) = [b; a; x].
Proof. intros Hb Ha Hx H. unfold utf8_encode. ltbs. repeat f_equal; divs. Qed.

Lemma encode_four b a x y : 0xF0 <= b < 0xF8 -> 0x80 <= a < 0xC0 -> 0x80 <= x < 0xC0 -> 0x80 <= y < 0xC0 ->
  (b = 0xF0 -> 0x90 <= a) ->
  utf8_encode ((b - 0xF0) * 262144 + (a - 0x80) * 4096 + (x - 0x80) * 64 + (y - 0x80)) = [b; a; x; y].
Proof. intros Hb Ha Hx Hy H. unfold utf8_encode. ltbs. repeat f_equal; divs. Qed.

(** The length that a first byte announces. *)
Lemma trailing_length b n : 0 <= b < 256 -> trailingBytesForUTF8 b = n ->
  match n with
  | 0%nat => b < 0xC0 | 1%nat => 0xC0 <= b < 0xE0 | 2%nat => 0xE0 <= b < 0xF0 | 3%nat => 0xF0 <= b < 0xF8
  | _ => 0xF8 <= b
  end.
Proof. intros Hb <-. rewrite trailing_cases by done. ltbs; lia. Qed.

(** The sequences with the length their first byte announces that pass the
    check are those. *)
Lemma legal_reads b l : bytes_ok (b :: l) -> length l = trailingBytesForUTF8 b -> isLegalUTF8 (b :: l) = true ->
  exists c, reads_utf8 c (b :: l).
Proof.
  intros Hok Hl Hlegal. apply Forall_cons in Hok as [Hb Hok]. change (0 <= b < 256) in Hb.
  pose proof (trailing_length b (length l) Hb (eq_sym Hl)) as Hlead. clear Hl.
  destruct l as [|a [|x [|y [|]]]]; [| | | |done]; cbn [length isLegalUTF8] in *; unfold reads_utf8;
    repeat (apply Forall_cons in Hok as [? Hok]); unfold in_range in *;
    rewrite ?andb_true_iff, ?legal_lead_spec, ?legal_tail_spec, ?legal_second_spec in Hlegal by lia.
  - exists b. left. split; [left; lia|]. unfold utf8_encode. ltbs. done.
  - exists ((b - 0xC0) * 64 + (a - 0x80)).
    destruct (Z.eqb_spec b 0xE0), (Z.eqb_spec b 0xF0), (Z.eqb_spec b 0xED), (Z.eqb_spec b 0xF4); cbn [orb] in *; try lia.
    left. rewrite encode_two by lia. split; [left; lia|done].
  - destruct (decide (b = 0xED /\ a < 0x80)) as [[-> Ha]|Hn].
    + eexists. right. apply irregular_ED; lia.
    + exists ((b - 0xE0) * 4096 + (a - 0x80) * 64 + (x - 0x80)). left.
      destruct (Z.eqb_spec b 0xE0), (Z.eqb_spec b 0xF0), (Z.eqb_spec b 0xED), (Z.eqb_spec b 0xF4); cbn [orb] in *; try lia;
        (rewrite encode_three by lia; split; [unfold scalar; lia|done]).
  - destruct (decide (b = 0xF4 /\ a < 0x80)) as [[-> Ha]|Hn].
    + eexists. right. apply irregular_F4; lia.
    + exists ((b - 0xF0) * 262144 + (a - 0x80) * 4096 + (x - 0x80) * 64 + (y - 0x80)). left.
      destruct (Z.eqb_spec b 0xE0), (Z.eqb_spec b 0xF0), (Z.eqb_spec b 0xED), (Z.eqb_spec b 0xF4); cbn [orb] in *; try lia;
        (rewrite encode_four by lia; split; [unfold scalar; lia|done]).
Qed.

(** The bytes of one code, by their number. *)
Lemma utf8_encode_cases c : 0 <= c < 0x110000 ->
  (c < 0x80 /\ utf8_encode c = [c])
  \/ (exists b a, 0xC2 <= b < 0xE0 /\ 0x80 <= a < 0xC0 /\ utf8_encode c = [b; a] /\ c = (b - 0xC0) * 64 + (a - 0x80))
  \/ (exists b a x, 0xE0 <= b < 0xF0 /\ 0x80 <= a < 0xC0 /\ 0x80 <= x < 0xC0 /\ (b = 0xE0 -> 0xA0 <= a) /\
       utf8_encode c = [b; a; x] /\ c = (b - 0xE0) * 4096 + (a - 0x80) * 64 + (x - 0x80))
  \/ (exists b a x y, 0xF0 <= b < 0xF5 /\ 0x80 <= a < 0xC0 /\ 0x80 <= x < 0xC0 /\ 0x80 <= y < 0xC0 /\
       (b = 0xF0 -> 0x90 <= a) /\ utf8_encode c = [b; a; x; y] /\
       c = (b - 0xF0) * 262144 + (a - 0x80) * 4096 + (x - 0x80) * 64 + (y - 0x80)).
Proof.
  intros Hc. unfold utf8_encode. ltbs; [by left|right; left|do 2 right; left|do 3 right].
  - exists (0xC0 + c / 64), (0x80 + c mod 64). repeat split; divs.
  - exists (0xE0 + c / 4096), (0x80 + c / 64 mod 64), (0x80 + c mod 64). repeat split; divs.
  - exists (0xF0 + c / 262144), (0x80 + c / 4096 mod 64), (0x80 + c / 64 mod 64), (0x80 + c mod 64). repeat split; divs.
Qed.

Lemma wrap_fits w x : 32 <= w -> 0 <= x < 4294967296 -> wrap w x = x.
Proof. intros Hw Hx. apply wrap_small. apply (in_range_weaken 32); done. Qed.

Lemma accumulate_step w ch b b2 t : 32 <= w -> 0 <= b < 256 -> 0 <= ch < 33554432 ->
  accumulate w ch (b :: b2 :: t) = accumulate w ((ch + b) * 64) (b2 :: t).
Proof.
  intros Hw Hb Hch.
  change (accumulate w ch (b :: b2 :: t)) with (accumulate w (wrap w (Z.shiftl (wrap w (ch + b)) 6)) (b2 :: t)).
  rewrite Z.shiftl_mul_pow2 by lia. change (2 ^ 6) with 64. rewrite (wrap_fits w (ch + b)) by lia.
  by rewrite wrap_fits by lia.
Qed.

Lemma accumulate_last w ch b : 32 <= w -> 0 <= b < 256 -> 0 <= ch < 2147483648 -> accumulate w ch [b] = ch + b.
Proof. intros Hw Hb Hch. cbn [accumulate]. by rewrite wrap_fits by lia. Qed.

Ltac accumulated :=
  repeat (rewrite accumulate_step; [|lia|lia|lia]); rewrite accumulate_last by lia;
  match goal with |- context [offsetsFromUTF8 ?n] =>
    let v := eval vm_compute in (offsetsFromUTF8 n) in change (offsetsFromUTF8 n) with v
  end; rewrite wrap_fits by lia; lia.

Ltac legal_now :=
  cbn [isLegalUTF8 length];
  rewrite ?andb_true_iff, ?legal_lead_spec, ?legal_tail_spec, ?legal_second_spec by lia;
  repeat match goal with |- context [?a =? ?b] => destruct (Z.eqb_spec a b) end; cbn [orb]; lia.

(** What a sequence that is read as [c] gives to the loops. *)
Lemma reads_legal w c l : 32 <= w -> reads_utf8 c l -> exists b t,
  l = b :: t /\ 0 <= b < 256 /\ trailingBytesForUTF8 b = length t /\ isLegalUTF8 l = true
  /\ wrap w (accumulate w 0 l - offsetsFromUTF8 (length t)) = c.
Proof.
  intros Hw [[Hs ->]|Hi].
  - destruct (utf8_encode_cases c) as [[H ->]|[(b & a & Hb & Ha & -> & Hc)|[(b & a & x & Hb & Ha & Hx & H & -> & Hc)|
      (b & a & x & y & Hb & Ha & Hx & Hy & H & -> & Hc)]]]; [unfold scalar in Hs; lia| | | |];
      unfold scalar in Hs; do 2 eexists; (split; [reflexivity|]); (split; [lia|]); rewrite trailing_cases by lia;
      (split; [ltbs; done|]); (split; [legal_now|accumulated]).
  - destruct Hi; do 2 eexists; (split; [reflexivity|]); (split; [lia|]);
      (split; [done|]); (split; [legal_now|accumulated]).
Qed.

(** * What a converter promises

    [reads c l]: the units [l] of the source are read as the code [c];
    [enc c] is what it becomes. A converter stops in front of a sequence that
    is cut off ([exhausted]) or that it does not accept ([illegal]). *)
Class Converter (reads : Z -> list Z -> Prop) (enc : Z -> list Z) (conv : list Z -> nat -> conversion)
    (valid exhausted illegal : list Z -> Prop) : Prop := {
  conv_nil room : conv [] room = stop conversionOK [];
  conv_char c l t room : reads c l ->
    conv (l ++ t) room =
      if (room <? length (enc c))%nat then stop targetExhausted (l ++ t)
      else emit (enc c) (conv t (room - length (enc c))%nat);
  conv_front s room : valid s -> s <> [] ->
    (exists c l t, reads c l /\ s = l ++ t)
    \/ (conv s room = stop sourceExhausted s /\ exhausted s)
    \/ (conv s room = stop sourceIllegal s /\ illegal s)
    \/ (room = 0%nat /\ conv s room = stop targetExhausted s /\ illegal s);
  conv_tail c l t : reads c l -> valid (l ++ t) -> l <> [] /\ valid t
}.

(** A run over [s] with [room] units: a whole number of characters is read and
    written, the target is not overrun, and the result tells why it stopped. *)
Definition converts (reads : Z -> list Z -> Prop) (enc : Z -> list Z) (exhausted illegal : list Z -> Prop)
    (s : list Z) (room : nat) (r : conversion) : Prop :=
  exists cs ls, Forall2 reads cs ls /\ s = concat ls ++ source r /\ target r = concat (map enc cs)
    /\ (length (target r) <= room)%nat
    /\ match result r with
       | conversionOK => source r = []
       | sourceExhausted => exhausted (source r)
       | sourceIllegal => illegal (source r)
       | targetExhausted =>
           (exists c l t, reads c l /\ source r = l ++ t /\ (room < length (target r) + length (enc c))%nat)
           \/ (length (target r) = room /\ illegal (source r))
       end.

Section Converter.
Context `{Hconv : Converter reads enc conv valid exhausted illegal}.

Lemma converter_converts s : forall room, valid s -> converts reads enc exhausted illegal s room (conv s room).
Proof.
  induction s as [s IH] using list_strong_ind. intros room Hv.
  destruct (decide (s = [])) as [->|Hne].
  { rewrite conv_nil. exists [], []. cbn. repeat split; (done || lia || constructor). }
  destruct (conv_front s room Hv Hne) as [(c & l & t & Hr & ->)|[[E Hx]|[[E Hx]|(-> & E & Hx)]]];
    [|rewrite E; exists [], []; cbn; repeat split; (done || lia || by constructor || by right) ..].
  destruct (conv_tail c l t Hr Hv) as [Hl Hvt].
  rewrite (conv_char c l t room Hr). destruct (Nat.ltb_spec room (length (enc c))) as [Hroom|Hroom].
  - exists [], []. cbn. repeat split; [constructor|lia|]. left. by exists c, l, t.
  - destruct (IH t) with (room := (room - length (enc c))%nat) as (cs & ls & Hcs & Hs & Ht & Hlen & Hres); [|done|].
    { destruct l; [done|]. rewrite length_app. cbn. lia. }
    exists (c :: cs), (l :: ls). cbn [emit result source target concat map]. rewrite length_app.
    split; [by constructor|]. split; [rewrite <- app_assoc; by f_equal|]. split; [by f_equal|].
    split; [lia|]. destruct (result _); [done|done| |done].
    destruct Hres as [(c' & l' & t' & ? & ? & ?)|[? ?]]; [left; exists c', l', t'; repeat split; (done || lia)|right; split; (done || lia)].
Qed.

(** A text is converted whole when there is room for it. *)
Lemma converter_text cs ls : forall room, Forall2 reads cs ls -> (length (concat (map enc cs)) <= room)%nat ->
  conv (concat ls) room = Conversion conversionOK [] (concat (map enc cs)).
Proof.
  revert ls. induction cs as [|c cs IH]; intros ls room Hf Hlen; inversion Hf as [|? l ? ls' Hr Hf']; subst; cbn [concat map].
  - by rewrite conv_nil.
  - cbn [concat map] in Hlen. rewrite length_app in Hlen. rewrite (conv_char c l _ room Hr).
    destruct (Nat.ltb_spec room (length (enc c))); [lia|]. by rewrite IH by (done || lia).
Qed.

End Converter.

(** * The six converters *)

Lemma split_surrogates c : 0x10000 <= c < 0x110000 -> split c = [high_surrogate c; low_surrogate c].
Proof.
  intros Hc. unfold split, high_surrogate, low_surrogate, halfBase, halfShift, halfMask.
  rewrite Z.shiftr_div_pow2, land_0x3FF by lia. change (2 ^ 10) with 1024.
  rewrite (wrap_small 16) by (split; [divs|change (2 ^ 16) with 65536; divs]).
  rewrite (wrap_small 16) by (split; [divs|change (2 ^ 16) with 65536; divs]). f_equal; [lia|f_equal; lia].
Qed.

Lemma join_pair_surrogates c : 0x10000 <= c < 0x110000 -> join_pair (high_surrogate c) (low_surrogate c) = c.
Proof.
  intros Hc. unfold join_pair, high_surrogate, low_surrogate, halfBase, halfShift. rewrite Z.shiftl_mul_pow2 by lia.
  change (2 ^ 10) with 1024. divs.
Qed.

Lemma marked_byte x : u8 (Z.land (Z.lor x byteMark) byteMask) = 0x80 + x mod 64.
Proof.
  unfold byteMask, byteMark. change 0xBF with (Z.lor 0x3F 0x80).
  rewrite <- Z.lor_land_distr_l, Z.lor_comm, continuation. apply u8_small. divs.
Qed.

(** The backwards switch writes UTF-8. *)
Lemma put_back_encode c : 0 <= c < 0x110000 ->
  bytesToWrite c = (length (utf8_encode c), c)
  /\ put_back (length (utf8_encode c)) (firstByteMark (length (utf8_encode c))) c [] = utf8_encode c.
Proof.
  intros Hc. unfold bytesToWrite, UNI_MAX_LEGAL_UTF32, utf8_encode.
  destruct (Z.leb_spec c 0x10FFFF); [|lia].
  ltbs; cbn [length put_back]; rewrite ?marked_byte, ?Z.shiftr_shiftr, ?Z.shiftr_div_pow2 by lia; (split; [done|]).
  - f_equal. cbn. rewrite Z.lor_0_r. apply u8_small. lia.
  - f_equal. change (firstByteMark 2) with 0xC0. rewrite Z.lor_comm, lor_0xC0 by divs. apply u8_small. divs.
  - f_equal. change (firstByteMark 3) with 0xE0. change (2 ^ (6 + 6)) with 4096. rewrite Z.lor_comm, lor_0xE0 by divs.
    apply u8_small. divs.
  - f_equal. change (firstByteMark 4) with 0xF0. change (2 ^ (6 + 6 + 6)) with 262144.
    rewrite Z.lor_comm, lor_0xF0 by divs. apply u8_small. divs.
Qed.

Lemma put_utf8_code c s room go : 0 <= c < 0x110000 ->
  put_utf8 c s room go =
    if (room <? length (utf8_encode c))%nat then stop targetExhausted s
    else emit (utf8_encode c) (go (room - length (utf8_encode c))%nat).
Proof. intros Hc. unfold put_utf8. destruct (put_back_encode c Hc) as [-> ->]. done. Qed.

(** ** From UTF-16 *)

Definition reads_utf16 (c : Z) (l : list Z) : Prop := scalar c /\ l = utf16_encode c.

Definition cut_utf16 (s : list Z) : Prop := exists h, s = [h] /\ 0xD800 <= h < 0xDC00.

Definition lone_surrogate (s : list Z) : Prop :=
  (exists l t, s = l :: t /\ 0xDC00 <= l < 0xE000)
  \/ (exists h u t, s = h :: u :: t /\ 0xD800 <= h < 0xDC00 /\ ~ 0xDC00 <= u < 0xE000).

Lemma units_cons u t : units (u :: t) <-> 0 <= u < 0x10000 /\ units t.
Proof. unfold units. by rewrite Forall_cons. Qed.

(** What is in front of a text in UTF-16. *)
Lemma utf16_cases u t : units (u :: t) ->
  (is_high u = false /\ is_low u = false /\ reads_utf16 u [u])
  \/ (is_high u = false /\ is_low u = true)
  \/ (is_high u = true /\ t = [])
  \/ (exists v t', is_high u = true /\ t = v :: t' /\ is_low v = false)
  \/ (exists v t', is_high u = true /\ t = v :: t' /\ is_low v = true /\ reads_utf16 (join_pair u v) [u; v]).
Proof.
  intros [Hu Ht]%units_cons. destruct (is_high u) eqn:Eh.
  - do 2 right. apply is_high_spec in Eh. destruct t as [|v t']; [by left|right].
    destruct (is_low v) eqn:El; [right|left; by eauto]. exists v, t'. repeat split; try done;
      apply is_low_spec in El; unfold join_pair, halfShift, halfBase; rewrite Z.shiftl_mul_pow2 by lia; change (2 ^ 10) with 1024.
    + right. lia.
    + unfold utf16_encode. ltbs. unfold high_surrogate, low_surrogate. f_equal; [divs|f_equal; divs].
  - destruct (is_low u) eqn:El; [by right; left|left]. repeat split.
    + apply not_true_iff_false in Eh. apply not_true_iff_false in El. rewrite is_high_spec in Eh. rewrite is_low_spec in El.
      unfold scalar. lia.
    + unfold utf16_encode. ltbs. done.
Qed.

(** The units of a code, as the converters test them. *)
Lemma utf16_char c l : reads_utf16 c l -> 0 <= c < 0x110000 /\
  ((l = [c] /\ is_high c = false /\ is_low c = false)
   \/ (exists u v, l = [u; v] /\ is_high u = true /\ is_low v = true /\ join_pair u v = c)).
Proof.
  intros [Hs ->]. split; [unfold scalar in Hs; lia|]. unfold utf16_encode. destruct (Z.ltb_spec c 0x10000).
  - left. repeat split; apply not_true_iff_false; rewrite ?is_high_spec, ?is_low_spec; unfold scalar in Hs; lia.
  - right. unfold scalar in Hs. exists (high_surrogate c), (low_surrogate c). rewrite is_high_spec, is_low_spec.
    repeat split; try apply join_pair_surrogates; unfold high_surrogate, low_surrogate; divs.
Qed.

Lemma utf16_tail c l t : reads_utf16 c l -> units (l ++ t) -> l <> [] /\ units t.
Proof.
  intros [_ [(-> & _)|(u & v & -> & _)]]%utf16_char; cbn [app]; rewrite !units_cons; (split; [done|tauto]).
Qed.

(** A converter from UTF-16 in strict mode. *)
Ltac utf16_converter :=
  constructor;
  [done
  |intros c l t room Hr; destruct (utf16_char c l Hr) as [Hc [(-> & Eh & El)|(u & v & -> & Eh & El & E)]]
  |intros s room Hu Hne; destruct s as [|u t]; [done|];
   destruct (utf16_cases u t Hu) as [(Eh & El & Hr)|[(Eh & El)|[(Eh & ->)|[(v & t' & Eh & -> & El)|(v & t' & Eh & -> & El & Hr)]]]];
   [left; by exists u, [u], t|right; right; left|right; left|right; right; left|left; by exists (join_pair u v), [u; v], t']
  |exact utf16_tail].

#[export] Instance utf16_to_utf8_converter :
  Converter reads_utf16 utf8_encode (ConvertUTF16toUTF8 strictConversion) units cut_utf16 lone_surrogate.
Proof.
  utf16_converter; cbn [app ConvertUTF16toUTF8 strict andb]; rewrite ?Eh, ?El; cbn [andb]; try (split; [done|]).
  - by rewrite put_utf8_code.
  - rewrite E. by rewrite put_utf8_code.
  - left. exists u, t. by apply is_low_spec in El.
  - exists u. by apply is_high_spec in Eh.
  - right. exists u, v, t'. apply not_true_iff_false in El. rewrite is_low_spec in El. by apply is_high_spec in Eh.
Qed.

#[export] Instance utf16_to_utf32_converter :
  Converter reads_utf16 (fun c => [c]) (ConvertUTF16toUTF32 strictConversion) units cut_utf16 lone_surrogate.
Proof.
  utf16_converter; cbn [app ConvertUTF16toUTF32 strict andb]; rewrite ?Eh, ?El; cbn [andb]; try (split; [done|]).
  - destruct room as [|room]; [done|]. cbn. by rewrite Nat.sub_0_r.
  - rewrite E. destruct room as [|room]; [done|]. cbn. by rewrite Nat.sub_0_r.
  - left. exists u, t. by apply is_low_spec in El.
  - exists u. by apply is_high_spec in Eh.
  - right. exists u, v, t'. apply not_true_iff_false in El. rewrite is_low_spec in El. by apply is_high_spec in Eh.
Qed.

(** ** From UTF-32 *)

Definition reads_utf32 (c : Z) (l : list Z) : Prop := scalar c /\ l = [c].

Definition codes (s : list Z) : Prop := Forall (fun c => 0 <= c < 0x110000) s.

Definition surrogate_code (s : list Z) : Prop := exists c t, s = c :: t /\ 0xD800 <= c < 0xE000.

Lemma codes_cons c t : codes (c :: t) <-> 0 <= c < 0x110000 /\ codes t.
Proof. unfold codes. by rewrite Forall_cons. Qed.

Lemma utf32_char c l : reads_utf32 c l -> l = [c] /\ 0 <= c < 0x110000 /\ is_surrogate c = false /\ (UNI_MAX_LEGAL_UTF32 <? c) = false.
Proof.
  intros [Hs ->]. unfold scalar, UNI_MAX_LEGAL_UTF32 in *. rewrite Z.ltb_ge. repeat split; try lia.
  apply not_true_iff_false. rewrite is_surrogate_spec. lia.
Qed.

Lemma utf32_cases c t : codes (c :: t) ->
  (is_surrogate c = false /\ reads_utf32 c [c]) \/ (is_surrogate c = true /\ surrogate_code (c :: t) /\ c <= UNI_MAX_BMP).
Proof.
  intros [Hc _]%codes_cons. destruct (is_surrogate c) eqn:E; [right|left].
  - apply is_surrogate_spec in E. repeat split; [|unfold UNI_MAX_BMP; lia]. by exists c, t.
  - apply not_true_iff_false in E. rewrite is_surrogate_spec in E. repeat split. unfold scalar. lia.
Qed.

Lemma utf32_tail c l t : reads_utf32 c l -> codes (l ++ t) -> l <> [] /\ codes t.
Proof. intros (-> & _)%utf32_char. cbn [app]. rewrite codes_cons. split; [done|tauto]. Qed.

(** A scalar in UTF-16, as the converters write it. *)
Lemma put_utf16 c s room (go : nat -> conversion) : scalar c ->
  match room with
  | O => stop targetExhausted s
  | S room1 =>
      if c <=? UNI_MAX_BMP then emit [u16 c] (go room1)
      else match room1 with O => stop targetExhausted s | S room2 => emit (split c) (go room2) end
  end =
    if (room <? length (utf16_encode c))%nat then stop targetExhausted s
    else emit (utf16_encode c) (go (room - length (utf16_encode c))%nat).
Proof.
  intros Hs. unfold UNI_MAX_BMP, utf16_encode. unfold scalar in Hs.
  destruct (Z.leb_spec c 0xFFFF), (Z.ltb_spec c 0x10000); try lia; cbn [length].
  - destruct room as [|room1]; [done|]. cbn. rewrite Nat.sub_0_r, wrap_small; [done|]. split; [lia|].
    change (2 ^ 16) with 65536. lia.
  - rewrite split_surrogates by lia. destruct room as [|[|room2]]; [done|done|]. cbn. by rewrite Nat.sub_0_r.
Qed.

#[export] Instance utf32_to_utf16_converter :
  Converter reads_utf32 utf16_encode (ConvertUTF32toUTF16 strictConversion) codes (fun _ => False) surrogate_code.
Proof.
  unfold ConvertUTF32toUTF16. constructor.
  - done.
  - intros c l t room Hr. pose proof (proj1 Hr) as Hs. apply utf32_char in Hr as (-> & Hc & Es & El).
    cbn [app utf32_to_utf16]. rewrite Es, El. by apply put_utf16.
  - intros [|c t] room Hv Hne; [done|]. destruct (utf32_cases c t Hv) as [[Es Hr]|(Es & Hs & Hle)]; [left; by exists c, [c], t|right; right].
    apply Z.leb_le in Hle. cbn [utf32_to_utf16 strict]. rewrite Hle, Es. destruct room; [by right|by left].
  - exact utf32_tail.
Qed.

#[export] Instance utf32_to_utf8_converter :
  Converter reads_utf32 utf8_encode (ConvertUTF32toUTF8 strictConversion) codes (fun _ => False) surrogate_code.
Proof.
  unfold ConvertUTF32toUTF8. constructor.
  - done.
  - intros c l t room (-> & Hc & Es & El)%utf32_char.
    cbn [app utf32_to_utf8 strict andb]. rewrite Es, El. by apply put_utf8_code.
  - intros [|c t] room Hv Hne; [done|]. destruct (utf32_cases c t Hv) as [[Es Hr]|(Es & Hs & Hle)]; [left; by exists c, [c], t|right; right; left].
    cbn [utf32_to_utf8 strict andb]. by rewrite Es.
  - exact utf32_tail.
Qed.

(** ** From UTF-8 *)

Definition cut_utf8 (s : list Z) : Prop := exists b t, s = b :: t /\ (length t < trailingBytesForUTF8 b)%nat.

Definition illegal_utf8 (s : list Z) : Prop := ~ exists c l t, reads_utf8 c l /\ s = l ++ t.

Lemma read_utf8_char w c l t go b : 32 <= w -> reads_utf8 c l -> head l = Some b -> read_utf8 w b (l ++ t) go = go c t.
Proof.
  intros Hw Hr Hb. destruct (reads_legal w c l Hw Hr) as (b' & t' & -> & Hrange & Htr & Hlegal & Hval).
  injection Hb as ->. unfold read_utf8. rewrite Htr. destruct (Nat.leb_spec (length ((b :: t') ++ t)) (length t')) as [Hle|_].
  { rewrite length_app in Hle. cbn in Hle. lia. }
  change (S (length t')) with (length (b :: t')). rewrite take_app_length, drop_app_length, Hlegal. cbn [negb]. by rewrite Hval.
Qed.

Lemma read_utf8_front w b t go : bytes_ok (b :: t) ->
  (exists c l t', reads_utf8 c l /\ b :: t = l ++ t')
  \/ (read_utf8 w b (b :: t) go = stop sourceExhausted (b :: t) /\ cut_utf8 (b :: t))
  \/ (read_utf8 w b (b :: t) go = stop sourceIllegal (b :: t) /\ illegal_utf8 (b :: t)).
Proof.
  intros Hok. unfold read_utf8. destruct (Nat.leb_spec (length (b :: t)) (trailingBytesForUTF8 b)) as [Hle|Hgt].
  { right; left. split; [done|]. exists b, t. split; [done|]. cbn in Hle. lia. }
  destruct (isLegalUTF8 (take (S (trailingBytesForUTF8 b)) (b :: t))) eqn:E; [left|right; right]; cbn [firstn] in E.
  - cbn in Hgt. destruct (legal_reads b (take (trailingBytesForUTF8 b) t)) as [c Hc].
    + apply Forall_cons in Hok as [Hb Hok]. apply Forall_cons. split; [done|by apply Forall_take].
    + rewrite length_take. lia.
    + exact E.
    + exists c, (b :: take (trailingBytesForUTF8 b) t), (drop (trailingBytesForUTF8 b) t). split; [done|].
      cbn [app]. by rewrite take_drop.
  - split; [done|]. intros (c & l & t' & Hr & Hs). destruct (reads_legal 32 c l) as (b' & t2 & -> & Hb & Htr & Hlegal & _); [done|done|].
    injection Hs as -> ->. rewrite Htr, take_app_length in E. congruence.
Qed.

Lemma read_utf8_ext w b s go1 go2 : (forall ch t, (length t < length s)%nat -> go1 ch t = go2 ch t) ->
  read_utf8 w b s go1 = read_utf8 w b s go2.
Proof.
  intros H. unfold read_utf8. destruct (Nat.leb_spec (length s) (trailingBytesForUTF8 b)); [done|].
  destruct (negb _); [done|]. apply H. rewrite length_drop. lia.
Qed.

Lemma utf8_tail c l t : reads_utf8 c l -> bytes_ok (l ++ t) -> l <> [] /\ bytes_ok t.
Proof.
  intros Hr [_ Ht]%Forall_app. destruct (reads_legal 32 c l) as (b & t' & -> & _); [done|done|]. done.
Qed.

Lemma scalar_tests c : scalar c -> is_surrogate c = false /\ (UNI_MAX_UTF16 <? c) = false /\ (c <=? UNI_MAX_LEGAL_UTF32) = true.
Proof.
  intros Hs. unfold scalar, UNI_MAX_UTF16, UNI_MAX_LEGAL_UTF32 in *. rewrite Z.ltb_ge, Z.leb_le. repeat split; try lia.
  apply not_true_iff_false. rewrite is_surrogate_spec. lia.
Qed.

(** The fuel, the length of the source, is enough. *)
Lemma utf8_to_utf16_fuel fuel : forall w flags s room, (length s <= fuel)%nat ->
  utf8_to_utf16 fuel w flags s room = ConvertUTF8toUTF16 w flags s room.
Proof.
  unfold ConvertUTF8toUTF16. induction fuel as [fuel IH] using lt_wf_ind. intros w flags s room Hlen.
  destruct s as [|b s]; [by destruct fuel|]. destruct fuel as [|fuel]; [cbn in Hlen; lia|]. cbn [utf8_to_utf16 length].
  cbn in Hlen. apply read_utf8_ext. intros ch t Ht. cbn in Ht.
  assert (forall room, utf8_to_utf16 fuel w flags t room = utf8_to_utf16 (length s) w flags t room) as E.
  { intros room'. rewrite (IH fuel) by lia. destruct (decide (length s = fuel)) as [->|]; [by rewrite (IH fuel) by lia|].
    by rewrite (IH (length s)) by lia. }
  destruct room as [|[|room]]; rewrite ?E; done.
Qed.

Lemma utf8_to_utf32_fuel fuel : forall w flags r s room, (length s <= fuel)%nat ->
  utf8_to_utf32 fuel w flags r s room = utf8_to_utf32 (length s) w flags r s room.
Proof.
  induction fuel as [fuel IH] using lt_wf_ind. intros w flags r s room Hlen.
  destruct s as [|b s]; [by destruct fuel|]. destruct fuel as [|fuel]; [cbn in Hlen; lia|]. cbn [utf8_to_utf32 length].
  cbn in Hlen. apply read_utf8_ext. intros ch t Ht. cbn in Ht.
  assert (forall r room, utf8_to_utf32 fuel w flags r t room = utf8_to_utf32 (length s) w flags r t room) as E.
  { intros r' room'. rewrite (IH fuel) by lia. destruct (decide (length s = fuel)) as [->|]; [by rewrite (IH fuel) by lia|].
    by rewrite (IH (length s)) by lia. }
  destruct room; rewrite ?E; done.
Qed.

(** The branches on illegal codes are never taken: the flags do not matter. *)
Lemma utf8_to_utf16_converter w flags : 32 <= w ->
  Converter reads_utf8 utf16_encode (ConvertUTF8toUTF16 w flags) bytes_ok cut_utf8 illegal_utf8.
Proof.
  intros Hw. constructor.
  - done.
  - intros c l t room Hr. destruct (reads_legal w c l Hw Hr) as (b & t' & -> & Hb & _).
    cbn [app]. unfold ConvertUTF8toUTF16 at 1. cbn [utf8_to_utf16 length].
    rewrite (read_utf8_char w c (b :: t') t) by done.
    destruct (scalar_tests c) as (-> & -> & _); [by eapply reads_scalar|].
    rewrite (put_utf16 c (b :: t' ++ t) room (utf8_to_utf16 (length (t' ++ t)) w flags t)) by (by eapply reads_scalar).
    by rewrite utf8_to_utf16_fuel by (rewrite length_app; lia).
  - intros [|b t] room Hok Hne; [done|]. unfold ConvertUTF8toUTF16. cbn [utf8_to_utf16 length].
    match goal with |- context [read_utf8 w b (b :: t) ?go] => destruct (read_utf8_front w b t go Hok) as [H|[H|H]] end; tauto.
  - exact utf8_tail.
Qed.

Lemma utf8_to_utf32_converter w flags : 32 <= w ->
  Converter reads_utf8 (fun c => [c]) (ConvertUTF8toUTF32 w flags) bytes_ok cut_utf8 illegal_utf8.
Proof.
  intros Hw. unfold ConvertUTF8toUTF32. constructor.
  - done.
  - intros c l t room Hr. destruct (reads_legal w c l Hw Hr) as (b & t' & -> & Hb & _).
    cbn [app]. cbn [utf8_to_utf32 length].
    rewrite (read_utf8_char w c (b :: t') t) by done.
    destruct (scalar_tests c) as (-> & _ & ->); [by eapply reads_scalar|].
    destruct room as [|room]; [done|]. cbn. rewrite Nat.sub_0_r.
    by rewrite utf8_to_utf32_fuel by (rewrite length_app; lia).
  - intros [|b t] room Hok Hne; [done|]. cbn [utf8_to_utf32 length].
    match goal with |- context [read_utf8 w b (b :: t) ?go] => destruct (read_utf8_front w b t go Hok) as [H|[H|H]] end; tauto.
  - exact utf8_tail.
Qed.

(** * What the converters do *)

(** The bytes of one character of UTF-8, and what does not begin with any. *)
Definition well_formed (c : Z) (l : list Z) : Prop := scalar c /\ l = utf8_encode c.

Definition malformed (s : list Z) : Prop := ~ exists c l t, well_formed c l /\ s = l ++ t.

(** No byte 0xED or 0xF4 with an ASCII character after it. *)
Definition regular (s : list Z) : Prop := forall i b a, s !! i = Some b -> s !! S i = Some a -> b = 0xED \/ b = 0xF4 -> 0x80 <= a.

Lemma regular_tail l t : regular (l ++ t) -> regular t.
Proof.
  intros H i b a Hb Ha. apply (H (length l + i)%nat); rewrite lookup_app_r by lia.
  - by replace (length l + i - length l)%nat with i by lia.
  - by replace (S (length l + i) - length l)%nat with (S i) by lia.
Qed.

Lemma regular_reads c l t : reads_utf8 c l -> regular (l ++ t) -> well_formed c l.
Proof.
  intros [H|Hi] Hr; [done|]. exfalso.
  destruct Hi as [a b Ha _|a b d Ha _ _]; [assert (128 <= a); [apply (Hr 0%nat 0xED a); auto|lia]|].
  assert (128 <= a); [apply (Hr 0%nat 0xF4 a); auto|lia].
Qed.

Lemma regular_text cs ls t : Forall2 reads_utf8 cs ls -> regular (concat ls ++ t) -> Forall2 well_formed cs ls /\ regular t.
Proof.
  induction 1 as [|c l cs ls Hr _ IH]; cbn [concat]; [done|]. rewrite <- app_assoc. intros H.
  destruct IH as [IH Ht]; [by eapply regular_tail|]. split; [|done]. constructor; [by eapply regular_reads|done].
Qed.



(** A run of ConvertUTF16toUTF8 in strict mode: whole codes are read, their
    UTF-8 is written within the target, and it stops at the end, at a high
    surrogate that ends the source, at a surrogate without its partner, or
    for want of room. *)
Theorem ConvertUTF16toUTF8_converts s room : units s ->
  converts reads_utf16 utf8_encode cut_utf16 lone_surrogate s room (ConvertUTF16toUTF8 strictConversion s room).
Proof. apply converter_converts. Qed.

Lemma ConvertUTF16toUTF8_converts_witness :
  units [0xD83D; 0xDE00; 0xD83D] /\
  converts reads_utf16 utf8_encode cut_utf16 lone_surrogate [0xD83D; 0xDE00; 0xD83D] 8
    (ConvertUTF16toUTF8 strictConversion [0xD83D; 0xDE00; 0xD83D] 8).
Proof.
  assert (units [0xD83D; 0xDE00; 0xD83D]) by (unfold units; apply (bool_decide_unpack _); vm_compute; exact I). split; [done|].
  by apply ConvertUTF16toUTF8_converts.
Defined.

Theorem ConvertUTF16toUTF32_converts s room : units s ->
  converts reads_utf16 (fun c => [c]) cut_utf16 lone_surrogate s room (ConvertUTF16toUTF32 strictConversion s room).
Proof. apply converter_converts. Qed.

Theorem ConvertUTF8toUTF32_converts w flags s room : 32 <= w -> bytes_ok s ->
  converts reads_utf8 (fun c => [c]) cut_utf8 illegal_utf8 s room (ConvertUTF8toUTF32 w flags s room).
Proof.
  intros Hw. exact (converter_converts (Hconv := utf8_to_utf32_converter w flags Hw) s room).
Qed.

Theorem ConvertUTF32toUTF16_converts s room : codes s ->
  converts reads_utf32 utf16_encode (fun _ => False) surrogate_code s room (ConvertUTF32toUTF16 strictConversion s room).
Proof. apply converter_converts. Qed.

Theorem ConvertUTF32toUTF8_converts s room : codes s ->
  converts reads_utf32 utf8_encode (fun _ => False) surrogate_code s room (ConvertUTF32toUTF8 strictConversion s room).
Proof. apply converter_converts. Qed.

Lemma Forall2_encoded (reads : Z -> list Z -> Prop) (enc : Z -> list Z) cs :
  (forall c, scalar c -> reads c (enc c)) -> Forall scalar cs -> Forall2 reads cs (map enc cs).
Proof. intros H. induction 1; constructor; auto. Qed.

Lemma reads_encoded (reads : Z -> list Z -> Prop) (enc : Z -> list Z) cs ls :
  (forall c l, reads c l -> scalar c /\ l = enc c) -> Forall2 reads cs ls -> Forall scalar cs /\ ls = map enc cs.
Proof. intros H. induction 1 as [|c l cs ls [Hc ->]%H _ [IH ->]]; split; (done || by constructor). Qed.

(** A text without lone surrogates. *)
Definition paired (s : list Z) : Prop := exists cs, Forall scalar cs /\ s = concat (map utf16_encode cs).

(** On such a text the modes agree. *)
Lemma paired_modes mode cs : forall room, Forall scalar cs ->
  ConvertUTF16toUTF8 mode (concat (map utf16_encode cs)) room = ConvertUTF16toUTF8 strictConversion (concat (map utf16_encode cs)) room.
Proof.
  induction cs as [|c cs IH]; intros room Hcs; [done|]. apply Forall_cons in Hcs as [Hc Hcs]. cbn [concat map].
  destruct (utf16_char c (utf16_encode c)) as [Hr [(-> & Eh & El)|(u & v & -> & Eh & El & E)]]; [done| |];
    cbn [app ConvertUTF16toUTF8]; rewrite Eh, El, ?andb_false_r, ?E; rewrite !put_utf8_code by done; by rewrite IH.
Qed.

(** C13: A text in UTF-16 that ConvertUTF16toUTF8 converts, in strict mode, or in
    lenient mode when the text has no lone surrogate, comes back from
    ConvertUTF8toUTF16 in either mode with the same units, in the room it took.
    A lone surrogate that lenient mode lets through does not come back
    ([lone_surrogate_refused]). *)
Theorem utf16_utf8_round_trip w mode flags s room : 32 <= w -> units s -> mode = strictConversion \/ paired s ->
  result (ConvertUTF16toUTF8 mode s room) = conversionOK ->
  ConvertUTF8toUTF16 w flags (target (ConvertUTF16toUTF8 mode s room)) (length s) = Conversion conversionOK [] s.
Proof.
  intros Hw Hs Hmode. assert (ConvertUTF16toUTF8 mode s room = ConvertUTF16toUTF8 strictConversion s room) as ->
    by (destruct Hmode as [->|(cs & Hcs & ->)]; [done|by apply paired_modes]). intros Hok.
  destruct (converter_converts (conv := ConvertUTF16toUTF8 strictConversion) s room Hs)
    as (cs & ls & Hcs & E & Ht & _ & Hres).
  rewrite Hok in Hres. rewrite Ht. rewrite Hres, app_nil_r in E.
  destruct (reads_encoded reads_utf16 utf16_encode cs ls) as [Hsc ->]; [done|done|]. subst s.
  apply (converter_text (Hconv := utf8_to_utf16_converter w flags Hw)); [|done].
  apply Forall2_encoded; [|done]. intros c Hc. by left.
Qed.

Lemma utf16_utf8_round_trip_witness :
  let s := [0x41; 0x20AC; 0xD83D; 0xDE00] in
  (32 <= 64 /\ units s /\ (lenientConversion = strictConversion \/ paired s) /\ result (ConvertUTF16toUTF8 lenientConversion s 16) = conversionOK) /\
  ConvertUTF8toUTF16 64 strictConversion (target (ConvertUTF16toUTF8 lenientConversion s 16)) 4 = Conversion conversionOK [] s.
Proof.
  intros s. assert (units s) by (unfold units; apply (bool_decide_unpack _); vm_compute; exact I).
  assert (lenientConversion = strictConversion \/ paired s).
  { right. exists [0x41; 0x20AC; 0x1F600]. split; [|done]. repeat constructor; unfold scalar; lia. }
  assert (result (ConvertUTF16toUTF8 lenientConversion s 16) = conversionOK) by (vm_compute; reflexivity).
  split; [by split; [lia|]|]. apply (utf16_utf8_round_trip 64 lenientConversion strictConversion s 16); [lia|done|done|done].
Defined.

(** In lenient mode a lone surrogate becomes three bytes that are not UTF-8, and
    neither mode takes them back. *)
Example lone_surrogate_refused : ConvertUTF16toUTF8 lenientConversion [0xDE00] 8 = Conversion conversionOK [] [0xED; 0xB8; 0x80]
  /\ ConvertUTF8toUTF16 64 lenientConversion [0xED; 0xB8; 0x80] 8 = stop sourceIllegal [0xED; 0xB8; 0x80].
Proof. split; vm_compute; reflexivity. Qed.

(** ** Every mode *)

(** Units in range, within the room, and a suffix of the source left. *)
Definition sane (P : Z -> Prop) (s : list Z) (room : nat) (r : conversion) : Prop :=
  Forall P (target r) /\ (length (target r) <= room)%nat /\ exists read, s = read ++ source r.

Abbreviation unit_ok := (fun u => 0 <= u < 0x10000).

Lemma sane_stop P s room r t : sane P (s ++ t) room (stop r t).
Proof. split; [constructor|]. split; [cbn; lia|]. by exists s. Qed.

Lemma sane_stop_here P s room r : sane P s room (stop r s).
Proof. apply (sane_stop P [] room r s). Qed.

Lemma sane_emit P l pre s room n r : Forall P l -> (length l + n <= room)%nat -> sane P s n r -> sane P (pre ++ s) room (emit l r).
Proof.
  intros Hl Hlen (Ht & Hn & read & ->). split; [by apply Forall_app|]. split; [cbn; rewrite length_app; lia|].
  exists (pre ++ read). by rewrite <- app_assoc.
Qed.

Lemma sane_skip P pre s room r : sane P s room r -> sane P (pre ++ s) room r.
Proof. intros (Ht & Hn & read & ->). split; [done|]. split; [done|]. exists (pre ++ read). by rewrite app_assoc. Qed.

Lemma u16_ok x : unit_ok (u16 x).
Proof. apply (wrap_range 16). lia. Qed.

Lemma split_ok ch : Forall unit_ok (split ch).
Proof. unfold split. repeat constructor; apply u16_ok. Qed.

Lemma put_back_ok n mark : forall ch acc, bytes_ok acc -> bytes_ok (put_back n mark ch acc) /\ length (put_back n mark ch acc) = (n + length acc)%nat.
Proof.
  induction n as [|n IH]; intros ch acc Hacc; [done|]. destruct n as [|n].
  - cbn. split; [|done]. constructor; [by apply wrap_range|done].
  - change (put_back (S (S n)) mark ch acc) with (put_back (S n) mark (Z.shiftr ch 6) (u8 (Z.land (Z.lor ch byteMark) byteMask) :: acc)).
    destruct (IH (Z.shiftr ch 6) (u8 (Z.land (Z.lor ch byteMark) byteMask) :: acc)) as [H1 H2]; [constructor; [by apply wrap_range|done]|].
    split; [done|]. rewrite H2. cbn. lia.
Qed.

Lemma sane_put_utf8 pre t ch room go : (forall n, sane (in_range 8) t n (go n)) ->
  sane (in_range 8) (pre ++ t) room (put_utf8 ch (pre ++ t) room go).
Proof.
  intros Hgo. unfold put_utf8. destruct (bytesToWrite ch) as [n ch']. destruct (Nat.ltb_spec room n); [apply sane_stop_here|].
  destruct (put_back_ok n (firstByteMark n) ch' []) as [Hb Hl]; [constructor|].
  eapply sane_emit; [done| |apply Hgo]. rewrite Hl. cbn. lia.
Qed.

Lemma sane_utf16_to_utf8 flags s : forall room, sane (in_range 8) s room (ConvertUTF16toUTF8 flags s room).
Proof.
  induction s as [s IH] using list_strong_ind. intros room. destruct s as [|u t]; [apply sane_stop_here|]. cbn [ConvertUTF16toUTF8].
  destruct (is_high u); [destruct t as [|v t']; [apply sane_stop_here|destruct (is_low v)]|].
  - apply (sane_put_utf8 [u; v]). intros n. apply IH. cbn; lia.
  - destruct (strict flags); [apply sane_stop_here|]. apply (sane_put_utf8 [u]). intros n. apply IH. cbn; lia.
  - destruct (strict flags && is_low u); [apply sane_stop_here|]. apply (sane_put_utf8 [u]). intros n. apply IH. cbn; lia.
Qed.

Lemma sane_utf32_to_utf8 flags s : forall r room, sane (in_range 8) s room (utf32_to_utf8 flags r s room).
Proof.
  induction s as [|u t IH]; intros r room; cbn [utf32_to_utf8]; [apply sane_stop_here|].
  destruct (strict flags && is_surrogate u); [apply sane_stop_here|]. apply (sane_put_utf8 [u]). intros n. apply IH.
Qed.

Lemma sane_utf32_to_utf16 flags s : forall r room, sane unit_ok s room (utf32_to_utf16 flags r s room).
Proof.
  induction s as [|u t IH]; intros r room; cbn [utf32_to_utf16]; [apply sane_stop_here|].
  destruct room as [|room1]; [apply sane_stop_here|].
  destruct (u <=? UNI_MAX_BMP); [destruct (is_surrogate u); [destruct (strict flags)|]|
    destruct (UNI_MAX_LEGAL_UTF32 <? u); [destruct (strict flags)|destruct room1 as [|room2]]];
    try apply sane_stop_here; try (by apply (sane_skip _ [u]));
    (eapply (sane_emit _ _ [u]); [| |apply IH]);
    solve [cbn; lia | apply split_ok | repeat constructor; apply u16_ok | by repeat constructor].
Qed.

Lemma sane_utf8_to_utf16 w flags fuel : forall s room, sane unit_ok s room (utf8_to_utf16 fuel w flags s room).
Proof.
  induction fuel as [|fuel IH]; intros [|b s] room; cbn [utf8_to_utf16]; try apply sane_stop_here.
  unfold read_utf8. destruct (_ <=? _)%nat; [apply sane_stop_here|]. destruct (negb _); [apply sane_stop_here|].
  destruct room as [|room1]; [apply sane_stop_here|]. rewrite <- (take_drop (S (trailingBytesForUTF8 b)) (b :: s)) at 1.
  set (ch := wrap w _).
  destruct (ch <=? UNI_MAX_BMP); [destruct (is_surrogate ch); [destruct (strict flags)|]|
    destruct (UNI_MAX_UTF16 <? ch); [destruct (strict flags)|destruct room1 as [|room2]]];
    try (rewrite take_drop; apply sane_stop_here);
    (eapply sane_emit; [| |apply IH]);
    solve [cbn; lia | apply split_ok | repeat constructor; apply u16_ok | by repeat constructor].
Qed.


(** ** The lenient mode from UTF-16, and the other converter of the program *)

Lemma is_pair_tests u v : is_pair u v = is_high u && is_low v.
Proof. apply eq_iff_eq_true. by rewrite is_pair_spec, andb_true_iff, is_high_spec, is_low_spec. Qed.

Lemma decode_codes s : units s -> codes (decode_utf16 s).
Proof.
  induction s as [s IH] using list_strong_ind. intros Hu. destruct s as [|u [|v t]]; cbn [decode_utf16]; [constructor| |].
  - apply units_cons in Hu as [Hu _]. repeat constructor; lia.
  - apply units_cons in Hu as [Hu Hvt]. destruct (is_pair u v) eqn:E.
    + apply is_pair_spec in E. apply units_cons in Hvt as [_ Ht].
      apply codes_cons. split; [lia|]. apply IH; [cbn; lia|done].
    + apply codes_cons. split; [lia|]. apply (IH (v :: t)); [cbn; lia|done].
Qed.

Lemma put_utf8_emit c s room go t r : 0 <= c < 0x110000 -> (length (utf8_encode c ++ t) <= room)%nat ->
  (forall n, (length t <= n)%nat -> go n = Conversion r [] t) ->
  put_utf8 c s room go = Conversion r [] (utf8_encode c ++ t).
Proof.
  rewrite length_app. intros Hc Hlen Hgo. rewrite put_utf8_code by done. destruct (Nat.ltb_spec room (length (utf8_encode c))); [lia|].
  by rewrite Hgo by lia.
Qed.

Lemma utf8_of_cons c cs : utf8_of (c :: cs) = utf8_encode c ++ utf8_of cs.
Proof. done. Qed.

Lemma lenient_utf8 s : forall room, units s -> (forall h, last s = Some h -> is_high h = false) ->
  (length (utf8_of (decode_utf16 s)) <= room)%nat ->
  ConvertUTF16toUTF8 lenientConversion s room = Conversion conversionOK [] (utf8_of (decode_utf16 s)).
Proof.
  induction s as [s IH] using list_strong_ind. intros room Hu Hlast Hroom.
  destruct s as [|u t]; [done|]. pose proof (decode_codes _ Hu) as Hc. apply units_cons in Hu as [Hu Ht].
  cbn [ConvertUTF16toUTF8 strict andb]. destruct t as [|v t'].
  - rewrite (Hlast u eq_refl). apply (put_utf8_emit u [u] room _ []); [lia|exact Hroom|]. done.
  - assert (Hlast' : forall h, last (v :: t') = Some h -> is_high h = false) by (intros h; apply Hlast).
    assert (decode_utf16 (u :: v :: t') = if is_high u && is_low v then join_pair u v :: decode_utf16 t' else u :: decode_utf16 (v :: t')) as E.
    { rewrite <- is_pair_tests. cbn [decode_utf16]. destruct (is_pair u v); [|done]. f_equal.
      unfold join_pair, halfShift, halfBase. rewrite Z.shiftl_mul_pow2 by lia. lia. }
    rewrite E in *. destruct (is_high u); [destruct (is_low v)|]; cbn [andb] in *; rewrite utf8_of_cons in *; apply codes_cons in Hc as [Hc _].
    + apply put_utf8_emit; [done|done|]. intros n Hn. apply IH; [cbn; lia|by apply units_cons in Ht as [_ Ht]| |done].
      intros h Hh. apply Hlast. destruct t'; [done|exact Hh].
    + apply put_utf8_emit; [done|done|]. intros n Hn. apply (IH (v :: t')); [cbn; lia|done|done|done].
    + apply put_utf8_emit; [done|done|]. intros n Hn. apply (IH (v :: t')); [cbn; lia|done|done|done].
Qed.

(** In lenient mode ConvertUTF16toUTF8 and utf16toUTF8 of fbjni are one
    function: for a source that does not end in a high surrogate, they give
    the same bytes, surrogates without a partner encoded in three. *)
Theorem lenient_agrees_with_fbjni s room : units s -> (forall h, last s = Some h -> is_high h = false) ->
  3 * Z.of_nat (length s) < 2 ^ 32 -> (3 * length s <= room)%nat ->
  exists out, utf16toUTF8 (Some s) = Ret out /\ ConvertUTF16toUTF8 lenientConversion s room = Conversion conversionOK [] out.
Proof.
  intros Hu Hlast Hlen Hroom. exists (utf8_of (decode_utf16 s)).
  pose proof (decoded_bound s Hu). split; [|apply lenient_utf8; (done || lia)].
  rewrite utf16_loop_all by done. by destruct (Z.ltb_spec (Z.of_nat (length (utf8_of (decode_utf16 s)))) (2 ^ 32)); [|lia].
Qed.

Lemma lenient_agrees_with_fbjni_witness :
  let s := [0x41; 0xDE00; 0xD83D; 0xDE00] in
  (units s /\ is_high 0xDE00 = false /\ (3 * length s <= 12)%nat) /\
  exists out, utf16toUTF8 (Some s) = Ret out /\ ConvertUTF16toUTF8 lenientConversion s 12 = Conversion conversionOK [] out.
Proof.
  intros s. assert (units s) by (unfold units; apply (bool_decide_unpack _); vm_compute; exact I).
  split; [repeat split; (done || cbn; lia)|].
  apply lenient_agrees_with_fbjni; [done|by intros h [= <-]|cbn; lia|cbn; lia].
Defined.

(** ** Legal sequences, and codes that are too large *)

(** IsLegalUTF8Sequence answers true when the bytes start with the UTF-8 of a
    scalar value, or with one of the sequences after 0xED and 0xF4 whose
    second byte is ASCII, and false otherwise. *)
Theorem isLegalUTF8Sequence_reads b t : bytes_ok (b :: t) ->
  exists answer, isLegalUTF8Sequence (b :: t) = Ret answer
    /\ (answer = true <-> exists c l t', reads_utf8 c l /\ b :: t = l ++ t').
Proof.
  intros Hok. unfold isLegalUTF8Sequence. cbn [lookup list_lookup get_or_oob]. rewrite bind_Ret, Nat.add_1_r. eexists. split; [done|].
  pose proof (read_utf8_front 32 b t (fun _ _ => stop conversionOK []) Hok) as Hf. unfold read_utf8 in Hf.
  destruct (Nat.ltb_spec (length (b :: t)) (S (trailingBytesForUTF8 b))), (Nat.leb_spec (length (b :: t)) (trailingBytesForUTF8 b)); try lia.
  - split; [done|]. intros (c & l & t' & Hr & E). destruct (reads_legal 32 c l) as (b' & t2 & -> & _ & Htr & _); [done|done|].
    injection E as -> ->. rewrite Htr in *. cbn in *. rewrite length_app in *. lia.
  - split.
    + intros E. rewrite E in Hf. destruct Hf as [Hf|[[[=] _]|[[=] _]]]. exact Hf.
    + intros (c & l & t' & Hr & E). destruct (reads_legal 32 c l) as (b' & t2 & -> & _ & Htr & Hlegal & _); [done|done|].
      rewrite E. injection E as -> ->. rewrite Htr.
      change (S (length t2)) with (length (b' :: t2)). rewrite take_app_length. exact Hlegal.
Qed.

Lemma isLegalUTF8Sequence_reads_witness :
  bytes_ok [0xED; 0x41; 0x80] /\
  exists answer, isLegalUTF8Sequence [0xED; 0x41; 0x80] = Ret answer
    /\ (answer = true <-> exists c l t', reads_utf8 c l /\ [0xED; 0x41; 0x80] = l ++ t').
Proof.
  assert (bytes_ok [0xED; 0x41; 0x80]) by (unfold bytes_ok; apply (bool_decide_unpack _); vm_compute; exact I).
  split; [done|by apply isLegalUTF8Sequence_reads].
Defined.

(** The letter A is swallowed by the byte in front of it, in strict mode. *)
Lemma ascii_swallowed :
  ConvertUTF8toUTF16 64 strictConversion [0xED; 0x41; 0x80] 3 = Conversion conversionOK [] [0xC040].
Proof. reflexivity. Qed.

(** Results only get worse. *)
Definition worse (r : ConversionResult) (c : conversion) : conversion :=
  Conversion (if decide (result c = conversionOK) then r else result c) (source c) (target c).

Lemma worse_emit r l c : worse r (emit l c) = emit l (worse r c).
Proof. done. Qed.

Lemma utf32_to_utf16_result flags s : forall room,
  utf32_to_utf16 flags sourceIllegal s room = worse sourceIllegal (ConvertUTF32toUTF16 flags s room).
Proof.
  unfold ConvertUTF32toUTF16.
  assert (forall r room, utf32_to_utf16 flags sourceIllegal s room = worse sourceIllegal (utf32_to_utf16 flags r s room) \/ r = targetExhausted \/ r = sourceExhausted) as H.
  { induction s as [|u t IH]; intros r room; [destruct r; cbn; auto|].
    destruct r; [left|by do 2 right|by right; left|left]; cbn [utf32_to_utf16];
      (destruct room as [|room1]; [done|]);
      (destruct (u <=? UNI_MAX_BMP); [destruct (is_surrogate u); [destruct (strict flags)|]|
        destruct (UNI_MAX_LEGAL_UTF32 <? u); [destruct (strict flags)|destruct room1 as [|room2]]]); try done; rewrite ?worse_emit; try f_equal;
      match goal with |- _ = worse _ (utf32_to_utf16 _ ?r _ ?n) => destruct (IH r n) as [E|[E|E]]; [exact E|discriminate|discriminate] end. }
  intros room. destruct (H conversionOK room) as [E|[E|E]]; [exact E|discriminate|discriminate].
Qed.

(** In strict mode a code above 0x10FFFF does not stop ConvertUTF32toUTF16: it is
    dropped, the rest is converted, and the result is sourceIllegal with the
    source pointer past it. *)
Theorem utf32_illegal_is_skipped c t room : 0x10FFFF < c ->
  ConvertUTF32toUTF16 strictConversion (c :: t) (S room)
    = worse sourceIllegal (ConvertUTF32toUTF16 strictConversion t (S room)).
Proof.
  intros Hc. rewrite <- utf32_to_utf16_result. unfold ConvertUTF32toUTF16. cbn [utf32_to_utf16 strict].
  unfold UNI_MAX_BMP, UNI_MAX_LEGAL_UTF32. destruct (Z.leb_spec c 0xFFFF), (Z.ltb_spec 0x10FFFF c); (done || lia).
Qed.

Lemma utf32_illegal_is_skipped_witness :
  0x10FFFF < 0x110000 /\
  ConvertUTF32toUTF16 strictConversion [0x110000; 0x41] 4 = worse sourceIllegal (ConvertUTF32toUTF16 strictConversion [0x41] 4).
Proof. split; [lia|]. apply (utf32_illegal_is_skipped 0x110000 [0x41] 3). lia. Defined.

(** ** Strings *)

Lemma zstring_app s t : Forall (fun b => b <> 0) s -> zstring (s ++ t) = (after ← zstring t; Ret (s ++ after)).
Proof.
  induction 1 as [|b s Hb _ IH]; [cbn [app]; by destruct (zstring t)|]. cbn [app zstring]. destruct (Z.eqb_spec b 0); [done|].
  rewrite IH. by destruct (zstring t).
Qed.

Lemma zstring_spec s rest : Forall (fun b => b <> 0) s -> zstring (s ++ 0 :: rest) = Ret s.
Proof. intros H. rewrite zstring_app by done. cbn. by rewrite app_nil_r. Qed.

(** What the vector is left with, when as many units fit as it has zeros. *)
Lemma fill_vector_ok n spare convert : let c := convert (2 * (n + length spare))%nat in
  (length (target c) <= n)%nat ->
  fill_vector n spare convert = Ret (if decide (result c = conversionOK) then target c ++ [0] else []).
Proof.
  intros c Hlen. unfold fill_vector. rewrite length_app, length_replicate. fold c.
  rewrite store_in_bounds by (rewrite length_app, length_replicate; lia). rewrite bind_Ret. f_equal.
  rewrite take_0, app_nil_l, Nat.add_0_l, drop_app_le, drop_replicate by (rewrite length_replicate; lia).
  rewrite app_assoc, take_app_length' by (rewrite length_app, length_replicate; lia).
  destruct (decide _); [|done]. unfold resize. rewrite length_app, length_replicate.
  destruct (decide (length (target c) = n)) as [Hn|Hn].
  - rewrite Hn, Nat.sub_diag. cbn [replicate]. rewrite app_nil_r, take_ge by lia.
    by replace (n + 1 - (n + 0))%nat with 1%nat by lia.
  - replace (n - length (target c))%nat with (S (n - length (target c) - 1)) by lia. cbn [replicate].
    replace (length (target c) + 1 - _)%nat with 0%nat by lia. cbn [replicate]. rewrite app_nil_r.
    rewrite take_app_add. done.
Qed.

Lemma utf16_of_bound c l : reads_utf8 c l -> (length (utf16_encode c) <= length l)%nat.
Proof.
  intros [[Hs ->]|Hi]; unfold utf16_encode; [unfold utf8_encode; ltbs; cbn; lia|].
  destruct Hi; ltbs; cbn; lia.
Qed.

Lemma utf16_text_bound cs ls : Forall2 reads_utf8 cs ls -> (length (concat (map utf16_encode cs)) <= length (concat ls))%nat.
Proof.
  induction 1 as [|c l cs ls Hc _ IH]; [done|]. cbn [map concat]. rewrite !length_app. apply utf16_of_bound in Hc. lia.
Qed.


(** UTF8ToUTF16 never writes outside the storage of the vector, whatever it
    has in reserve, and leaves in it the UTF-16 of the string and a zero when
    the whole string is legal, and nothing otherwise. *)
Theorem UTF8ToUTF16_spec w s rest spare : 32 <= w -> bytes_ok s -> Forall (fun b => b <> 0) s ->
  (exists cs ls, Forall2 reads_utf8 cs ls /\ s = concat ls /\
     UTF8ToUTF16 w (s ++ 0 :: rest) spare = Ret (concat (map utf16_encode cs) ++ [0]))
  \/ ((~ exists cs ls, Forall2 reads_utf8 cs ls /\ s = concat ls) /\ UTF8ToUTF16 w (s ++ 0 :: rest) spare = Ret []).
Proof.
  intros Hw Hok Hnz. unfold UTF8ToUTF16. rewrite zstring_spec, bind_Ret by done.
  pose proof (fill_vector_ok (length s) spare (ConvertUTF8toUTF16 w strictConversion s)) as Hf. cbn zeta in Hf.
  set (room := (2 * (length s + length spare))%nat) in *.
  destruct (converter_converts (Hconv := utf8_to_utf16_converter w strictConversion Hw) s room Hok)
    as (cs & ls & Hcs & E & Ht & _ & Hres). pose proof (utf16_text_bound cs ls Hcs) as Hb.
  assert (length (concat ls) <= length s)%nat by (apply (f_equal length) in E; rewrite length_app in E; lia).
  rewrite Hf by (rewrite Ht; lia). clear Hf.
  destruct (decide (result _ = conversionOK)) as [Er|Er]; [left|right].
  - rewrite Er in Hres. rewrite Hres, app_nil_r in E. exists cs, ls. by rewrite Ht.
  - split; [|done]. intros (cs' & ls' & Hcs' & ->). apply Er. pose proof (utf16_text_bound cs' ls' Hcs').
    rewrite (converter_text (Hconv := utf8_to_utf16_converter w strictConversion Hw) cs' ls' room Hcs'); [done|].
    unfold room. lia.
Qed.

Lemma UTF8ToUTF16_spec_witness :
  let s := [0x41; 0xC3; 0xA9] in
  (32 <= 64 /\ bytes_ok s /\ Forall (fun b => b <> 0) s) /\
  ((exists cs ls, Forall2 reads_utf8 cs ls /\ s = concat ls /\
     UTF8ToUTF16 64 (s ++ 0 :: []) [7; 7] = Ret (concat (map utf16_encode cs) ++ [0]))
  \/ ((~ exists cs ls, Forall2 reads_utf8 cs ls /\ s = concat ls) /\ UTF8ToUTF16 64 (s ++ 0 :: []) [7; 7] = Ret [])).
Proof.
  intros s. assert (bytes_ok s) by (unfold bytes_ok; apply (bool_decide_unpack _); vm_compute; exact I).
  assert (Forall (fun b => b <> 0) s) by (repeat constructor; done).
  split; [split; [lia|done]|]. apply UTF8ToUTF16_spec; [lia|done|done].
Defined.

Lemma utf8_encode_nonzero c : scalar c -> c <> 0 -> Forall (fun b => b <> 0) (utf8_encode c).
Proof.
  intros Hs Hz. destruct (utf8_encode_cases c) as [[H ->]|[(b & a & Hb & Ha & -> & Hc)|[(b & a & x & Hb & Ha & Hx & H & -> & Hc)|
      (b & a & x & y & Hb & Ha & Hx & Hy & H & -> & Hc)]]]; [unfold scalar in Hs; lia|repeat constructor; lia..].
Qed.

Lemma utf8_of_nonzero cs : Forall scalar cs -> Forall (fun c => c <> 0) cs -> Forall (fun b => b <> 0) (utf8_of cs).
Proof.
  induction 1 as [|c cs Hc _ IH]; intros Hz; [constructor|]. inversion_clear Hz. apply Forall_app.
  split; [by apply utf8_encode_nonzero|by apply IH].
Qed.

Definition utf16_of (cs : list Z) : list Z := concat (map utf16_encode cs).

Lemma utf8_utf16_bound cs : Forall scalar cs -> (length (utf8_of cs) <= 4 * length (utf16_of cs))%nat.
Proof.
  induction 1 as [|c cs Hc _ IH]; [done|]. unfold utf16_of in *. rewrite utf8_of_cons. cbn [map concat].
  rewrite !length_app. assert (length (utf8_encode c) <= 4 * length (utf16_encode c))%nat; [|lia].
  unfold utf8_encode, utf16_encode. ltbs; cbn; lia.
Qed.

(** What is in the buffer after the text is read as text too. *)
Lemma UTF16ToUTF8_text cs buffer : Forall scalar cs -> length buffer = (4 * length (utf16_of cs))%nat ->
  UTF16ToUTF8 (utf16_of cs) false buffer = zstring (utf8_of cs ++ drop (length (utf8_of cs)) buffer).
Proof.
  intros Hs Hlen. unfold UTF16ToUTF8. pose proof (utf8_utf16_bound cs Hs).
  assert (Hcs : Forall2 reads_utf16 cs (map utf16_encode cs)) by (by apply Forall2_encoded).
  pose proof (converter_text (conv := ConvertUTF16toUTF8 strictConversion) cs _ (length buffer) Hcs) as E.
  fold (utf8_of cs) (utf16_of cs) in E. rewrite E by lia. cbn [target result source].
  by rewrite store_in_bounds, bind_Ret by (cbn; lia).
Qed.

Lemma utf16_of_snoc cs : utf16_of cs ++ [0] = utf16_of (cs ++ [0]).
Proof. unfold utf16_of. by rewrite map_app, concat_app. Qed.
Lemma utf8_of_snoc cs : utf8_of (cs ++ [0]) = utf8_of cs ++ [0].
Proof. unfold utf8_of. by rewrite map_app, concat_app. Qed.

(** A UTF-8 string goes through UTF8ToUTF16 and UTF16ToUTF8 unchanged, whatever
    the storage of the vector and the new buffer contain. *)
Theorem string_round_trip w cs rest spare buffer : 32 <= w -> Forall scalar cs -> Forall (fun c => c <> 0) cs ->
  length buffer = (4 * (length (utf16_of cs) + 1))%nat ->
  (u ← UTF8ToUTF16 w (utf8_of cs ++ 0 :: rest) spare; UTF16ToUTF8 u false buffer) = Ret (utf8_of cs).
Proof.
  intros Hw Hs Hz Hlen. unfold UTF8ToUTF16. rewrite zstring_spec, bind_Ret by (by apply utf8_of_nonzero).
  assert (Hcs : Forall2 reads_utf8 cs (map utf8_encode cs)) by (apply Forall2_encoded; [by left|done]).
  pose proof (utf16_text_bound cs _ Hcs) as Hb. fold (utf8_of cs) in Hb. fold (utf16_of cs) in Hb.
  pose proof (converter_text (Hconv := utf8_to_utf16_converter w strictConversion Hw) cs (map utf8_encode cs)
    (2 * (length (utf8_of cs) + length spare))%nat Hcs) as E.
  fold (utf8_of cs) in E. fold (utf16_of cs) in E. specialize (E ltac:(lia)).
  rewrite fill_vector_ok, E by (rewrite E; exact Hb). cbn [result target]. rewrite decide_True, bind_Ret by done.
  rewrite utf16_of_snoc, UTF16ToUTF8_text.
  - rewrite utf8_of_snoc, <- app_assoc. apply zstring_spec. by apply utf8_of_nonzero.
  - apply Forall_app. split; [done|]. repeat constructor.  lia.
  - rewrite Hlen, <- utf16_of_snoc, length_app. done.
Qed.

Lemma string_round_trip_witness :
  let cs := [0x41; 0xE9; 0x1F600] in
  (32 <= 32 /\ Forall scalar cs /\ Forall (fun c => c <> 0) cs) /\
  (u ← UTF8ToUTF16 32 (utf8_of cs ++ 0 :: []) []; UTF16ToUTF8 u false (replicate 20 0xAA)) = Ret (utf8_of cs).
Proof.
  intros cs. assert (Forall scalar cs) by (repeat constructor; unfold scalar; lia).
  assert (Forall (fun c => c <> 0) cs) by (repeat constructor; done).
  split; [done|]. by apply string_round_trip.
Defined.

(** Of a text with no zero at its end the string runs on into what the buffer
    held. *)
Theorem unterminated_text cs buffer : Forall scalar cs -> Forall (fun c => c <> 0) cs ->
  length buffer = (4 * length (utf16_of cs))%nat ->
  UTF16ToUTF8 (utf16_of cs) false buffer = (after ← zstring (drop (length (utf8_of cs)) buffer); Ret (utf8_of cs ++ after)).
Proof.
  intros Hs Hz Hlen. rewrite UTF16ToUTF8_text by done. apply zstring_app. by apply utf8_of_nonzero.
Qed.

Lemma unterminated_text_witness :
  let cs := [0x41; 0x42] in
  (Forall scalar cs /\ Forall (fun c => c <> 0) cs) /\
  UTF16ToUTF8 (utf16_of cs) false [1; 2; 3; 4; 0; 6; 7; 8]
    = (after ← zstring [3; 4; 0; 6; 7; 8]; Ret (utf8_of cs ++ after)).
Proof.
  intros cs. assert (Forall scalar cs) by (repeat constructor; unfold scalar; lia).
  assert (Forall (fun c => c <> 0) cs) by (repeat constructor; done).
  split; [done|]. by apply (unterminated_text cs).
Defined.

(** ** UTF-32 strings and single characters *)

Lemma utf16_of_basic cs : Forall scalar cs ->
  (length cs <= length (utf16_of cs) <= 2 * length cs)%nat /\
  (if forallb (fun c => c <? 0x10000) cs then utf16_of cs = cs else (length cs < length (utf16_of cs))%nat).
Proof.
  induction 1 as [|c cs Hc _ [H1 H2]]; [done|]. unfold utf16_of in *. cbn [map concat forallb].
  rewrite length_app. pose proof (eq_refl : utf16_encode c = if c <? 0x10000 then [c] else _) as E. rewrite E. clear E.
  destruct (Z.ltb_spec c 0x10000); cbn [length app andb]; (split; [lia|]); [|lia].
  destruct (forallb _ cs); [by rewrite H2|lia].
Qed.

Lemma concat_single (cs : list Z) : concat (map (fun c => [c]) cs) = cs.
Proof. induction cs as [|c cs IH]; [done|]. cbn. by rewrite IH. Qed.

(** UTF32ToUTF16 into a vector with nothing in reserve: codes of the basic plane are
    converted; with a code above them it writes past the storage. *)
Theorem UTF32ToUTF16_overflows cs rest : Forall scalar cs -> Forall (fun c => c <> 0) cs ->
  UTF32ToUTF16 32 (cs ++ 0 :: rest) [] =
    if forallb (fun c => c <? 0x10000) cs then Ret (cs ++ [0]) else Fault OutOfBounds.
Proof.
  intros Hs Hz. unfold UTF32ToUTF16. rewrite zstring_spec, bind_Ret by done.
  assert (reinterpret_wchar 32 (cs ++ 0 :: rest) (length cs) = Ret cs) as ->.
  { clear Hs Hz. induction cs as [|c cs IH]; [done|]. cbn [length app reinterpret_wchar].
    change (32 =? 32) with true. cbn match. by rewrite IH. }
  rewrite bind_Ret.
  destruct (utf16_of_basic cs Hs) as [[_ Hle] Hbasic].
  assert (Hcs : Forall2 reads_utf32 cs (map (fun c => [c]) cs)) by (by apply Forall2_encoded).
  pose proof (converter_text (conv := ConvertUTF32toUTF16 strictConversion) cs _ (2 * length cs) Hcs Hle) as Ec.
  rewrite concat_single in Ec. fold (utf16_of cs) in Ec.
  destruct (forallb _ cs).
  - rewrite Hbasic in Ec. rewrite fill_vector_ok; rewrite ?Nat.add_0_r, ?Ec; done.
  - unfold fill_vector. rewrite app_nil_r, length_replicate, Ec. cbn [target].
    unfold store. rewrite (decide_False (P := (_ <= _)%nat)); [done|]. rewrite length_replicate. lia.
Qed.

Lemma UTF32ToUTF16_overflows_witness :
  (Forall scalar [0x41; 0x1F600] /\ Forall (fun c => c <> 0) [0x41; 0x1F600]) /\
  UTF32ToUTF16 32 ([0x41; 0x1F600] ++ 0 :: []) [] = Fault OutOfBounds.
Proof.
  assert (Forall scalar [0x41; 0x1F600]) by (repeat constructor; unfold scalar; lia).
  assert (Forall (fun c => c <> 0) [0x41; 0x1F600]) by (repeat constructor; done).
  split; [done|]. by rewrite UTF32ToUTF16_overflows.
Defined.

(** With UTF32 an unsigned long of 64 bits the object in is too small. *)
Theorem UTF32ToUTF16Char_reads_past w ch : w <> 32 -> UTF32ToUTF16Char w ch = Fault OutOfBounds.
Proof. intros Hw. unfold UTF32ToUTF16Char. cbn [reinterpret_wchar]. by destruct (Z.eqb_spec w 32). Qed.

(** With 32 bits: the units of a code, zeros for one that has none. *)
Theorem UTF32ToUTF16Char_spec ch : 0 <= ch ->
  UTF32ToUTF16Char 32 ch = Ret
    (if is_surrogate ch || (0x10FFFF <? ch) then [0; 0] else if ch <? 0x10000 then [ch; 0] else [high_surrogate ch; low_surrogate ch]).
Proof.
  intros Hch. unfold UTF32ToUTF16Char. cbn [reinterpret_wchar]. change (32 =? 32) with true. cbn match. rewrite bind_Ret, bind_Ret.
  f_equal. unfold ConvertUTF32toUTF16. cbn [utf32_to_utf16 strict]. unfold UNI_MAX_BMP, UNI_MAX_LEGAL_UTF32.
  destruct (Z.leb_spec ch 0xFFFF), (is_surrogate ch) eqn:Es, (Z.ltb_spec 0x10FFFF ch), (Z.ltb_spec ch 0x10000); try lia; try done;
    try (apply is_surrogate_spec in Es; lia); cbn [orb].
  - cbn. by rewrite wrap_small by (split; [lia|change (2 ^ 16) with 65536; lia]).
  - rewrite split_surrogates by lia. done.
Qed.

(** A character that is not all there stops the converter in front of it. *)
Lemma cut_character w c l k room : 32 <= w -> reads_utf8 c l -> (0 < k < length l)%nat ->
  ConvertUTF8toUTF16 w strictConversion (take k l) room = stop sourceExhausted (take k l).
Proof.
  intros Hw Hr Hk. destruct (reads_legal w c l Hw Hr) as (b & t & -> & _ & Htr & _). destruct k as [|k]; [lia|].
  cbn [firstn]. unfold ConvertUTF8toUTF16. cbn [utf8_to_utf16 length]. unfold read_utf8. cbn [length] in *.
  rewrite Htr, length_take. by destruct (Nat.leb_spec (S (min k (length t))) (length t)); [|lia].
Qed.

Lemma whole_character w c l : 32 <= w -> reads_utf8 c l ->
  ConvertUTF8toUTF16 w strictConversion l 2 = Conversion conversionOK [] (utf16_encode c).
Proof.
  intros Hw Hr.
  pose proof (converter_text (Hconv := utf8_to_utf16_converter w strictConversion Hw) [c] [l] 2
    ltac:(constructor; [exact Hr|constructor])) as E.
  cbn [map concat] in E. rewrite !app_nil_r in E. apply E. unfold utf16_encode. ltbs; cbn; lia.
Qed.

Lemma utf16_char_loop_S fuel w s in_length k written :
  utf16_char_loop (S fuel) w s in_length k written =
    if (length s <? k)%nat then Fault OutOfBounds
    else
      let c := ConvertUTF8toUTF16 w strictConversion (take k s) (2 - length written) in
      if decide (result c = conversionOK) then Ret ((k - length (source c))%nat, resize (written ++ target c) 2)
      else if (in_length <? S k)%nat then Ret (0%nat, resize (written ++ target c) 2)
      else utf16_char_loop fuel w s in_length (S k) (written ++ target c).
Proof. done. Qed.

Lemma char_loop_found w c l t in_length : 32 <= w -> reads_utf8 c l -> (length l <= in_length)%nat ->
  forall fuel k, (length l <= k + fuel)%nat -> (0 < k <= length l)%nat ->
  utf16_char_loop (S fuel) w (l ++ t) in_length k [] = Ret (length l, resize (utf16_encode c) 2).
Proof.
  intros Hw Hr Hlen. induction fuel as [|fuel IH]; intros k Hf Hk.
  all: rewrite utf16_char_loop_S, length_app; (destruct (Nat.ltb_spec (length l + length t) k); [lia|]);
    rewrite take_app_le by lia; cbn [length]; rewrite Nat.sub_0_r.
  all: destruct (decide (k = length l)) as [->|Hne];
    [rewrite take_ge, (whole_character w c) by (done || lia); cbn [result source target length app];
     by rewrite decide_True, Nat.sub_0_r by done|].
  - lia.
  - rewrite (cut_character w c) by (done || lia). cbn [stop result source target app]. rewrite decide_False by done.
    destruct (Nat.ltb_spec in_length (S k)); [lia|]. apply (IH (S k)); lia.
Qed.

(** UTF8ToUTF16Char on bytes that begin with a character it is given enough
    of: the number of its bytes, and its one or two units in out. *)
Theorem UTF8ToUTF16Char_spec w c l t in_length : 32 <= w -> reads_utf8 c l -> (length l <= in_length)%nat ->
  UTF8ToUTF16Char w (l ++ t) in_length = Ret (length l, resize (utf16_encode c) 2).
Proof.
  intros Hw Hr Hlen. destruct (reads_legal w c l Hw Hr) as (b & t' & -> & _).
  apply char_loop_found; [done|done|done|lia|cbn; lia].
Qed.

Lemma UTF8ToUTF16Char_spec_witness :
  (32 <= 64 /\ reads_utf8 0x1F600 [0xF0; 0x9F; 0x98; 0x80]) /\
  UTF8ToUTF16Char 64 ([0xF0; 0x9F; 0x98; 0x80] ++ [0x41]) 5 = Ret (4%nat, resize (utf16_encode 0x1F600) 2).
Proof.
  assert (reads_utf8 0x1F600 [0xF0; 0x9F; 0x98; 0x80]) by (left; split; [right; lia|reflexivity]).
  split; [split; [lia|done]|]. apply UTF8ToUTF16Char_spec; [lia|done|cbn; lia].
Defined.

Theorem Swap_swaps a b : 0 <= a < 256 -> 0 <= b < 256 -> Swap (256 * a + b) = 256 * b + a.
Proof.
  intros Ha Hb. unfold Swap. rewrite Z.shiftr_div_pow2, Z.shiftl_mul_pow2 by lia. change (2 ^ 8) with 256.
  replace ((256 * a + b) / 256) with a by divs.
  assert (u16 ((256 * a + b) * 256) = b * 2 ^ 8) as -> by (unfold wrap; change (2 ^ 16) with 65536; change (2 ^ 8) with 256; divs).
  rewrite Z.lor_comm, lor_low by (change (2 ^ 8) with 256; lia). change (2 ^ 8) with 256. lia.
Qed.
