(* ===== verification/LibcSupport.v ===== *)
(** The C library for a crashed process: common/linux/linux_libc_support.cc of
    libbreakpad, the replacements that the dump writers use.

    A string argument is the memory from the pointer on, a list of [char]s;
    whether a char is signed is up to the platform, so a char is any value. A
    pointer result is the index from the argument. Reading past the list is
    [OutOfBounds]. *)
From S2P Require Import Prelude.

(** * Strings *)

Fixpoint my_strlen (s : list Z) : res nat :=
  match s with
  | [] => Fault OutOfBounds
  | c :: t => if c =? 0 then Ret 0%nat else len ← my_strlen t; Ret (S len)
  end.

Fixpoint my_strcmp (a b : list Z) : res Z :=
  match a, b with
  | x :: a1, y :: b1 =>
      if x <? y then Ret (-1)
      else if y <? x then Ret 1
      else if x =? 0 then Ret 0
      else my_strcmp a1 b1
  | _, _ => Fault OutOfBounds
  end.

Fixpoint my_strncmp (a b : list Z) (len : nat) : res Z :=
  match len with
  | O => Ret 0
  | S len =>
      match a, b with
      | x :: a1, y :: b1 =>
          if x <? y then Ret (-1)
          else if y <? x then Ret 1
          else if x =? 0 then Ret 0
          else my_strncmp a1 b1 len
      | _, _ => Fault OutOfBounds
      end
  end.

Fixpoint my_strchr (haystack : list Z) (needle : Z) : res (option nat) :=
  match haystack with
  | [] => Fault OutOfBounds
  | c :: t =>
      if (c =? 0) || (c =? needle) then Ret (if c =? needle then Some 0%nat else None)
      else i ← my_strchr t needle; Ret (option_map S i)
  end.

(** From position [i] on, with the [ret] found so far. *)
Fixpoint strrchr_loop (haystack : list Z) (needle : Z) (i : nat) (ret : option nat) : res (option nat) :=
  match haystack with
  | [] => Fault OutOfBounds
  | c :: t =>
      if c =? 0 then Ret ret
      else strrchr_loop t needle (S i) (if c =? needle then Some i else ret)
  end.

Definition my_strrchr (haystack : list Z) (needle : Z) : res (option nat) := strrchr_loop haystack needle 0 None.

(** Over bytes, and an [int] needle. *)
Fixpoint my_memchr (src : list Z) (needle : Z) (src_len : nat) : res (option nat) :=
  match src_len with
  | O => Ret None
  | S n =>
      match src with
      | [] => Fault OutOfBounds
      | b :: t => if b =? needle then Ret (Some 0%nat) else i ← my_memchr t needle n; Ret (option_map S i)
      end
  end.

Definition my_memset (ip : list Z) (c : Z) (len : nat) : res (list Z) := store ip 0 (replicate len c).

(** The loop at [s2[pos2]]: the characters are written one after the other. *)
Fixpoint strlcpy_loop (s1 s2 : list Z) (len pos1 pos2 : nat) : res (list Z * nat) :=
  match s2 with
  | [] => Fault OutOfBounds
  | c :: t =>
      if c =? 0 then
        s1 ← (if (0 <? len)%nat then store s1 pos1 [0] else Ret s1);
        Ret (s1, pos2)
      else if (pos1 + 1 <? len)%nat then
        s1 ← store s1 pos1 [c];
        strlcpy_loop s1 t len (S pos1) (S pos2)
      else strlcpy_loop s1 t len pos1 (S pos2)
  end.

Definition my_strlcpy (s1 s2 : list Z) (len : nat) : res (list Z * nat) := strlcpy_loop s1 s2 len 0 0.

(** Where the string in [s1] ends, or [len]. *)
Fixpoint strlcat_end (s1 : list Z) (len : nat) : res nat :=
  match len with
  | O => Ret 0%nat
  | S n =>
      match s1 with
      | [] => Fault OutOfBounds
      | c :: t => if c =? 0 then Ret 0%nat else pos ← strlcat_end t n; Ret (S pos)
      end
  end.

Definition my_strlcat (s1 s2 : list Z) (len : nat) : res (list Z * nat) :=
  pos1 ← strlcat_end s1 len;
  if (pos1 =? len)%nat then Ret (s1, pos1)
  else
    '(rest, n) ← my_strlcpy (drop pos1 s1) s2 (len - pos1);
    Ret (take pos1 s1 ++ rest, (pos1 + n)%nat).

(** [sizeof(spaces)] counts the zero at the end of the array. *)
Definition spaces : list Z := [0x20; 0x09; 0x0C; 0x0A; 0x0D; 0x09; 0x0B; 0].

Definition my_isspace (ch : Z) : bool := existsb (fun c => ch =? c) spaces.

(** * Numbers *)

Definition is_digit (c : Z) : bool := (0x30 <=? c) && (c <=? 0x39).

(** The loop of my_strtoui; an [int] that overflows is taken to wrap, as its
    test for overflow takes it. *)
Fixpoint strtoui_loop (r : Z) (s : list Z) : res (option Z) :=
  match s with
  | [] => Fault OutOfBounds
  | c :: t =>
      if c =? 0 then Ret (Some r)
      else if negb (is_digit c) then Ret None
      else
        let old_r := r in
        let r := i32 (i32 (r * 10) + (c - 0x30)) in
        if r <? old_r then Ret None else strtoui_loop r t
  end.

Definition my_strtoui (s : list Z) : res (option Z) :=
  c ← get_or_oob (s !! 0%nat);
  if c =? 0 then Ret None else strtoui_loop 0 s.

(** The loop divides a [uintmax_t], so it ends after at most 64 steps. *)
Fixpoint uint_len_loop (fuel : nat) (i : Z) (len : nat) : nat :=
  match fuel with
  | O => len
  | S fuel => if i =? 0 then len else uint_len_loop fuel (i / 10) (S len)
  end.

Definition my_uint_len (i : Z) : nat := if i =? 0 then 1%nat else uint_len_loop 64 i 0.

(** From [output[index - 1]] down to [output[0]]. *)
Fixpoint my_uitos (output : list Z) (i : Z) (index : nat) : res (list Z) :=
  match index with
  | O => Ret output
  | S n => output ← store output n [0x30 + i mod 10]; my_uitos output (i / 10) n
  end.

(** The value, and what is left of the string; [uintptr_t] has [w] bits. *)
Definition hex_digit (c : Z) : option Z :=
  if is_digit c then Some (c - 0x30)
  else if (0x61 <=? c) && (c <=? 0x66) then Some (c - 0x61 + 10)
  else if (0x41 <=? c) && (c <=? 0x46) then Some (c - 0x41 + 10)
  else None.

Fixpoint read_hex_loop (w r : Z) (s : list Z) : res (Z * list Z) :=
  match s with
  | [] => Fault OutOfBounds
  | c :: t =>
      match hex_digit c with
      | Some d => read_hex_loop w (wrap w (wrap w (Z.shiftl r 4) + d)) t
      | None => Ret (r, s)
      end
  end.

Definition my_read_hex_ptr (w : Z) (s : list Z) : res (Z * list Z) := read_hex_loop w 0 s.

Fixpoint read_decimal_loop (w r : Z) (s : list Z) : res (Z * list Z) :=
  match s with
  | [] => Fault OutOfBounds
  | c :: t =>
      if is_digit c then read_decimal_loop w (wrap w (wrap w (r * 10) + (c - 0x30))) t
      else Ret (r, s)
  end.

Definition my_read_decimal_ptr (w : Z) (s : list Z) : res (Z * list Z) := read_decimal_loop w 0 s.

(** * The strings *)

(** Characters before the zero of a C string. *)
Definition nonzero (s : list Z) : Prop := Forall (fun c => c <> 0) s.

Lemma nonzero_cons c s : nonzero (c :: s) <-> c <> 0 /\ nonzero s.
Proof. unfold nonzero. by rewrite Forall_cons. Qed.

Theorem my_strlen_spec s rest : nonzero s -> my_strlen (s ++ 0 :: rest) = Ret (length s).
Proof.
  induction 1 as [|c s Hc _ IH]; [done|]. cbn [app my_strlen]. destruct (Z.eqb_spec c 0); [done|]. by rewrite IH.
Qed.

(** The order of strings: a zero ends each, and chars compare as numbers. *)
Fixpoint string_order (a b : list Z) : comparison :=
  match a, b with
  | [], [] => Eq
  | [], y :: _ => 0 ?= y
  | x :: _, [] => x ?= 0
  | x :: a1, y :: b1 => match x ?= y with Eq => string_order a1 b1 | c => c end
  end.

Definition sign_of (c : comparison) : Z := match c with Lt => -1 | Eq => 0 | Gt => 1 end.

Lemma string_order_eq a : forall b, nonzero a -> nonzero b -> string_order a b = Eq <-> a = b.
Proof.
  induction a as [|x a IH]; intros [|y b] Ha Hb; cbn [string_order]; rewrite ?nonzero_cons in *; try done.
  - rewrite Z.compare_eq_iff. split; [lia|done].
  - rewrite Z.compare_eq_iff. split; [lia|done].
  - destruct (Z.compare_spec x y) as [->|H|H]; [|split; [done|intros [= -> ->]; lia]..].
    rewrite IH by tauto. split; [by intros ->|by intros [= ->]].
Qed.

Lemma string_order_antisym a : forall b, string_order b a = CompOpp (string_order a b).
Proof.
  induction a as [|x a IH]; intros [|y b]; cbn [string_order]; try done; try apply Z.compare_antisym.
  rewrite (Z.compare_antisym x y). destruct (x ?= y); cbn; auto.
Qed.

(** my_strncmp orders the first len characters, my_strcmp whole strings; both
    stop at the zeros and read nothing after them. *)
Theorem my_strncmp_spec a b len rest_a rest_b : nonzero a -> nonzero b ->
  my_strncmp (a ++ 0 :: rest_a) (b ++ 0 :: rest_b) len = Ret (sign_of (string_order (take len a) (take len b)))
  /\ my_strcmp (a ++ 0 :: rest_a) (b ++ 0 :: rest_b) = Ret (sign_of (string_order a b)).
Proof.
  revert b len. induction a as [|x a IH]; intros [|y b] len Ha Hb; rewrite ?nonzero_cons in *.
  - by destruct len.
  - split; [destruct len as [|len]; [done|]|]; cbn [app my_strncmp my_strcmp firstn string_order sign_of];
      destruct (Z.ltb_spec 0 y), (Z.ltb_spec y 0), (Z.compare_spec 0 y); (done || lia).
  - split; [destruct len as [|len]; [done|]|]; cbn [app my_strncmp my_strcmp firstn string_order sign_of];
      destruct (Z.ltb_spec 0 x), (Z.ltb_spec x 0), (Z.compare_spec x 0); (done || lia).
  - destruct Ha as [Hx Ha], Hb as [Hy Hb]. destruct (IH b (length a) Ha Hb) as [_ E].
    split; [destruct len as [|len]; [done|destruct (IH b len Ha Hb) as [E' _]]|];
      cbn [app my_strncmp my_strcmp firstn string_order sign_of];
      destruct (Z.ltb_spec x y), (Z.ltb_spec y x), (Z.compare_spec x y), (Z.eqb_spec x 0); (done || lia).
Qed.

Lemma my_strncmp_spec_witness :
  (nonzero [0x61; 0x62] /\ nonzero [0x61; 0x63]) /\
  (my_strncmp ([0x61; 0x62] ++ 0 :: []) ([0x61; 0x63] ++ 0 :: []) 1 = Ret (sign_of (string_order [0x61] [0x61]))
   /\ my_strcmp ([0x61; 0x62] ++ 0 :: []) ([0x61; 0x63] ++ 0 :: []) = Ret (sign_of (string_order [0x61; 0x62] [0x61; 0x63]))).
Proof.
  assert (nonzero [0x61; 0x62]) by (repeat constructor; done). assert (nonzero [0x61; 0x63]) by (repeat constructor; done).
  split; [done|]. by apply (my_strncmp_spec [0x61; 0x62] [0x61; 0x63] 1 [] []).
Defined.

(** The first and the last occurrence. *)
Theorem my_strchr_spec h rest needle : nonzero h ->
  exists r, my_strchr (h ++ 0 :: rest) needle = Ret r /\
    match r with
    | Some i => (h ++ [0]) !! i = Some needle /\ forall j, (j < i)%nat -> (h ++ [0]) !! j <> Some needle
    | None => forall j, (h ++ [0]) !! j <> Some needle
    end.
Proof.
  induction 1 as [|c h Hc _ IH]; cbn [app my_strchr].
  - eexists. split; [done|]. destruct (Z.eqb_spec 0 needle) as [<-|Hn].
    + split; [done|]. intros j Hj. lia.
    + intros j Hj. destruct j as [|j]; [by injection Hj|by destruct j].
  - destruct IH as (r & E & Hr). destruct (Z.eqb_spec c 0); [done|]. cbn [orb].
    destruct (Z.eqb_spec c needle) as [->|Hn].
    + eexists. split; [done|]. split; [done|]. intros j Hj. lia.
    + rewrite E, bind_Ret. eexists. split; [done|]. destruct r as [i|]; cbn.
      * destruct Hr as [H1 H2]. split; [done|]. intros [|j] Hj; [by intros [= ->]|]. apply H2. lia.
      * intros [|j]; [by intros [= ->]|apply Hr].
Qed.

(** The zero at the end is never found, unlike by strrchr. *)
Theorem my_strrchr_zero h rest : nonzero h -> my_strrchr (h ++ 0 :: rest) 0 = Ret None.
Proof.
  unfold my_strrchr. generalize 0%nat as i. intros i Hh. revert i.
  induction Hh as [|c h Hc _ IH]; intros i; [done|]. cbn [app strrchr_loop]. destruct (Z.eqb_spec c 0); [done|]. apply IH.
Qed.

Lemma strlcpy_loop_spec s2 rest len : nonzero s2 -> forall pre buf pos2, (length pre < len <= length pre + length buf)%nat ->
  strlcpy_loop (pre ++ buf) (s2 ++ 0 :: rest) len (length pre) pos2 =
    Ret (pre ++ take (len - 1 - length pre) s2 ++ 0 :: drop (S (length (take (len - 1 - length pre) s2))) buf,
         (pos2 + length s2)%nat).
Proof.
  induction 1 as [|c s2 Hc _ IH]; intros pre buf pos2 Hlen; cbn [app strlcpy_loop].
  - change (0 =? 0) with true. cbn match. rewrite take_nil. destruct (Nat.ltb_spec 0 len); [|lia].
    rewrite store_in_bounds, bind_Ret by (rewrite length_app; cbn; lia). cbn [length app].
    rewrite take_app_length, drop_app_add, Nat.add_0_r. done.
  - destruct (Z.eqb_spec c 0); [done|]. destruct (Nat.ltb_spec (length pre + 1) len).
    + destruct buf as [|x buf]; [cbn in Hlen; lia|]. rewrite store_in_bounds, bind_Ret by (rewrite length_app; cbn; lia).
      cbn [length]. rewrite take_app_length, drop_app_add. cbn [drop].
      specialize (IH (pre ++ [c]) buf (S pos2)). rewrite length_app in IH. cbn [length] in IH, Hlen.
      replace (S (length pre)) with (length pre + 1)%nat by lia.
      rewrite app_assoc, drop_0, IH by lia.
      replace (len - 1 - length pre)%nat with (S (len - 1 - (length pre + 1))) by lia. cbn [firstn length drop app].
      rewrite <- !app_assoc. cbn [app]. do 2 f_equal. lia.
    + rewrite IH by lia. replace (len - 1 - length pre)%nat with 0%nat by lia. cbn [firstn length]. do 2 f_equal. lia.
Qed.

(** my_strlcpy stores what fits of the string in the first len characters, with
    a zero after it, leaves the rest of the array alone, and returns the
    length of the whole string. *)
Theorem my_strlcpy_spec s1 s2 rest len : nonzero s2 -> (0 < len <= length s1)%nat ->
  my_strlcpy s1 (s2 ++ 0 :: rest) len =
    Ret (take (len - 1) s2 ++ 0 :: drop (S (length (take (len - 1) s2))) s1, length s2).
Proof.
  intros H2 Hlen. pose proof (strlcpy_loop_spec s2 rest len H2 [] s1 0 Hlen) as E.
  cbn [length app] in E. by rewrite Nat.sub_0_r in E.
Qed.

Lemma my_strlcpy_spec_witness :
  (nonzero [1; 2; 3] /\ (0 < 3 <= length [9; 9; 9; 9])%nat) /\
  my_strlcpy [9; 9; 9; 9] ([1; 2; 3] ++ 0 :: []) 3 =
    Ret (take (3 - 1) [1; 2; 3] ++ 0 :: drop (S (length (take (3 - 1) [1; 2; 3]))) [9; 9; 9; 9], 3%nat).
Proof.
  assert (nonzero [1; 2; 3]) by (repeat constructor; done). split; [split; [done|cbn; lia]|].
  apply (my_strlcpy_spec [9; 9; 9; 9] [1; 2; 3] [] 3); [done|cbn; lia].
Defined.

Lemma strlcpy_loop_nothing s2 rest s1 pos2 : nonzero s2 -> strlcpy_loop s1 (s2 ++ 0 :: rest) 0 0 pos2 = Ret (s1, (pos2 + length s2)%nat).
Proof.
  intros H. revert pos2. induction H as [|c s2 Hc _ IH]; intros pos2; cbn [app strlcpy_loop length].
  - change (0 =? 0) with true. cbn match. change (0 <? 0)%nat with false. cbn match. rewrite bind_Ret. by rewrite Nat.add_0_r.
  - destruct (Z.eqb_spec c 0); [done|]. change (0 + 1 <? 0)%nat with false. cbn match. rewrite IH. do 2 f_equal. lia.
Qed.

Lemma strlcat_end_spec d rest len : nonzero d -> strlcat_end (d ++ 0 :: rest) len = Ret (min (length d) len).
Proof.
  intros H. revert len. induction H as [|c d Hc _ IH]; intros len; [by destruct len|].
  destruct len as [|len]; [done|]. cbn [app strlcat_end length]. destruct (Z.eqb_spec c 0); [done|].
  by rewrite IH.
Qed.

(** my_strlcat appends what fits to the string that is there. *)
Theorem my_strlcat_spec d r s2 rest len : nonzero d -> nonzero s2 -> (length d < len <= length d + S (length r))%nat ->
  my_strlcat (d ++ 0 :: r) (s2 ++ 0 :: rest) len =
    Ret (d ++ take (len - length d - 1) s2 ++ 0 :: drop (length (take (len - length d - 1) s2)) r, (length d + length s2)%nat).
Proof.
  intros Hd H2 Hlen. unfold my_strlcat. rewrite strlcat_end_spec, bind_Ret by done.
  replace (min (length d) len) with (length d) by lia. destruct (Nat.eqb_spec (length d) len); [lia|].
  rewrite drop_app_length, take_app_length. unfold my_strlcpy.
  pose proof (strlcpy_loop_spec s2 rest (len - length d) H2 [] (0 :: r) 0 ltac:(cbn; lia)) as E. cbn [length app] in E.
  rewrite E, bind_Ret, Nat.sub_0_r. done.
Qed.

(** White space, and the zero after the string of spaces. *)
Theorem my_isspace_spec ch : my_isspace ch = true <-> ch = 0x20 \/ 0x09 <= ch <= 0x0D \/ ch = 0.
Proof.
  unfold my_isspace, spaces. cbn [existsb]. rewrite !orb_true_iff, !Z.eqb_eq. split; [|lia].
  intros H. lia.
Qed.

(** * The numbers *)

Lemma uint_len_loop_spec fuel : forall i len, 0 < i < 10 ^ Z.of_nat fuel ->
  exists n, uint_len_loop fuel i len = (len + S n)%nat /\ 10 ^ Z.of_nat n <= i < 10 ^ Z.of_nat (S n).
Proof.
  induction fuel as [|fuel IH]; intros i len Hi; [cbn in Hi; lia|]. cbn [uint_len_loop].
  destruct (Z.eqb_spec i 0) as [?|_]; [lia|]. rewrite Nat2Z.inj_succ, Z.pow_succ_r in Hi by lia.
  destruct (decide (i < 10)) as [Hs|Hs].
  - exists 0%nat. rewrite (Z.div_small i 10) by lia. split; [destruct fuel; cbn; lia|cbn; lia].
  - destruct (IH (i / 10) (S len)) as (n & -> & H1 & H2); [Z.to_euclidean_division_equations; nia|].
    exists (S n). split; [lia|]. rewrite !Nat2Z.inj_succ, !Z.pow_succ_r in * by lia.
    Z.to_euclidean_division_equations; nia.
Qed.

(** The number of decimal digits, one for zero; 64 steps are enough. *)
Theorem my_uint_len_spec i : 0 <= i < 2 ^ 64 ->
  (0 < my_uint_len i)%nat /\ i < 10 ^ Z.of_nat (my_uint_len i) /\ (0 < i -> 10 ^ (Z.of_nat (my_uint_len i) - 1) <= i).
Proof.
  intros Hi. unfold my_uint_len. destruct (Z.eqb_spec i 0) as [->|Hz]; [by cbn; repeat split; lia|].
  destruct (uint_len_loop_spec 64 i 0) as (n & -> & H1 & H2).
  - change (10 ^ Z.of_nat 64) with (10 ^ 64). change (2 ^ 64) with 18446744073709551616 in Hi. lia.
  - split; [lia|]. split; [done|]. intros _. replace (Z.of_nat (0 + S n) - 1) with (Z.of_nat n) by lia. done.
Qed.

(** [n] decimal digits. *)
Fixpoint digits (n : nat) (i : Z) : list Z :=
  match n with O => [] | S n => digits n (i / 10) ++ [0x30 + i mod 10] end.

Lemma length_digits n i : length (digits n i) = n.
Proof. revert i. induction n as [|n IH]; intros i; [done|]. cbn. rewrite length_app, IH. cbn. lia. Qed.

Lemma my_uitos_spec n : forall output i, (n <= length output)%nat ->
  my_uitos output i n = Ret (digits n i ++ drop n output).
Proof.
  induction n as [|n IH]; intros output i Hn; [by rewrite drop_0|]. cbn [my_uitos digits].
  rewrite store_in_bounds, bind_Ret by (cbn; lia). rewrite IH by (rewrite length_app, length_take; cbn; lia).
  rewrite <- app_assoc. do 2 f_equal. rewrite drop_app_le, drop_ge by (rewrite length_take; lia). cbn [app length].
  by rewrite Nat.add_1_r.
Qed.

Lemma digit_ok i : is_digit (0x30 + i mod 10) = true.
Proof. unfold is_digit. rewrite andb_true_iff, !Z.leb_le. pose proof (Z.mod_pos_bound i 10). lia. Qed.

Lemma wrap_digit w b x m : wrap w (wrap w (wrap w x * b) + m) = wrap w (x * b + m).
Proof. rewrite wrap_add_l. unfold wrap. by rewrite <- Zplus_mod_idemp_l, Zmult_mod_idemp_l, Zplus_mod_idemp_l. Qed.

Lemma read_decimal_digits w n : forall r i t,
  read_decimal_loop w (wrap w r) (digits n i ++ t) = read_decimal_loop w (wrap w (r * 10 ^ Z.of_nat n + i mod 10 ^ Z.of_nat n)) t.
Proof.
  induction n as [|n IH]; intros r i t; cbn [digits app].
  - change (10 ^ Z.of_nat 0) with 1. rewrite Z.mod_1_r. by rewrite Z.mul_1_r, Z.add_0_r.
  - rewrite <- app_assoc, IH. cbn [app read_decimal_loop]. rewrite digit_ok, wrap_digit. do 2 f_equal.
    rewrite Nat2Z.inj_succ, Z.pow_succ_r by lia. set (p := 10 ^ Z.of_nat n).
    assert (0 < p) by (apply Z.pow_pos_nonneg; lia).
    rewrite (Z.rem_mul_r i 10 p) by lia. ring.
Qed.

Definition starts_no_digit (t : list Z) : Prop := exists c t', t = c :: t' /\ is_digit c = false.

Lemma read_decimal_stop w r t : starts_no_digit t -> read_decimal_loop w r t = Ret (r, t).
Proof. intros (c & t' & -> & Hc). cbn. by rewrite Hc. Qed.

(** C38: A number printed by my_uitos, with the length my_uint_len gives, is read
    back by my_read_decimal_ptr, which stops at the character after it. *)
Theorem decimal_round_trip i output t : 0 <= i < 2 ^ 64 -> (my_uint_len i <= length output)%nat -> starts_no_digit t ->
  exists s, my_uitos output i (my_uint_len i) = Ret (s ++ drop (my_uint_len i) output)
    /\ length s = my_uint_len i
    /\ my_read_decimal_ptr 64 (s ++ t) = Ret (i, t).
Proof.
  intros Hi Hlen Ht. destruct (my_uint_len_spec i Hi) as (_ & Hlt & _). exists (digits (my_uint_len i) i).
  split; [by apply my_uitos_spec|]. split; [apply length_digits|]. unfold my_read_decimal_ptr.
  change 0 with (wrap 64 0) at 1. rewrite read_decimal_digits. rewrite read_decimal_stop by done.
  rewrite Z.mul_0_l, Z.add_0_l, Z.mod_small by lia. by rewrite wrap_small.
Qed.

Lemma decimal_round_trip_witness :
  (0 <= 1905 < 2 ^ 64 /\ (my_uint_len 1905 <= length [0; 0; 0; 0; 7])%nat /\ starts_no_digit [0x20]) /\
  exists s, my_uitos [0; 0; 0; 0; 7] 1905 (my_uint_len 1905) = Ret (s ++ drop (my_uint_len 1905) [0; 0; 0; 0; 7])
    /\ length s = my_uint_len 1905
    /\ my_read_decimal_ptr 64 (s ++ [0x20]) = Ret (1905, [0x20]).
Proof.
  assert (0 <= 1905 < 2 ^ 64) by lia. assert (my_uint_len 1905 <= length [0; 0; 0; 0; 7])%nat by (vm_compute; lia).
  assert (starts_no_digit [0x20]) by (by exists 0x20, []). split; [done|]. by apply decimal_round_trip.
Defined.

(** The same loop with the overflow test, on a value that fits an int. *)
Lemma strtoui_digits n : forall r i t, 0 <= r -> 0 <= i < 10 ^ Z.of_nat n -> r * 10 ^ Z.of_nat n + i < 2 ^ 31 ->
  strtoui_loop r (digits n i ++ t) = strtoui_loop (r * 10 ^ Z.of_nat n + i) t.
Proof.
  induction n as [|n IH]; intros r i t Hr Hi Hlt; cbn [digits app].
  - change (10 ^ Z.of_nat 0) with 1 in *. f_equal. lia.
  - rewrite Nat2Z.inj_succ, Z.pow_succ_r in * by lia. set (p := 10 ^ Z.of_nat n) in *.
    assert (0 < p) by (apply Z.pow_pos_nonneg; lia). change (2 ^ 31) with 2147483648 in *.
    rewrite <- app_assoc, IH; [|done|Z.to_euclidean_division_equations; nia|Z.to_euclidean_division_equations; nia].
    cbn [app strtoui_loop]. rewrite digit_ok. pose proof (Z.mod_pos_bound i 10 ltac:(lia)).
    pose proof (Z.div_mod i 10 ltac:(lia)). set (q := i / 10) in *. set (m := i mod 10) in *.
    assert (0 <= r * p) by nia.
    destruct (Z.eqb_spec (0x30 + m) 0); [lia|]. cbn [negb].
    rewrite (swrap_small 32 (_ * 10)) by (done || (change (2 ^ (32 - 1)) with 2147483648; lia)).
    rewrite swrap_small by (done || (change (2 ^ (32 - 1)) with 2147483648; lia)).
    destruct (Z.ltb_spec ((r * p + q) * 10 + (0x30 + m - 0x30)) (r * p + q)); [lia|].
    f_equal. lia.
Qed.

(** My_strtoui reads the decimal digits of any int; on a number that is too
    large its test sees only some of the overflows. *)
Theorem my_strtoui_spec i rest : 0 <= i < 2 ^ 31 ->
  my_strtoui (digits (my_uint_len i) i ++ 0 :: rest) = Ret (Some i)
  /\ my_strtoui (literal "5000000000" ++ [0]) = Ret (Some 705032704)
  /\ my_strtoui (literal "4294967299" ++ [0]) = Ret None.
Proof.
  intros Hi. change (2 ^ 31) with 2147483648 in Hi. split; [|split; reflexivity].
  destruct (my_uint_len_spec i) as (Hpos & Hlt & _); [lia|].
  unfold my_strtoui. pose proof (strtoui_digits (my_uint_len i) 0 i (0 :: rest) ltac:(lia) ltac:(lia)) as E.
  rewrite Z.mul_0_l, Z.add_0_l in E. rewrite E by (change (2 ^ 31) with 2147483648; lia). clear E.
  assert (exists c, (digits (my_uint_len i) i ++ 0 :: rest) !! 0%nat = Some c /\ c <> 0) as (c & -> & Hc).
  { destruct (my_uint_len i) as [|n]; [lia|]. clear. revert i. induction n as [|n IH]; intros i.
    - exists (0x30 + i mod 10). split; [done|]. pose proof (Z.mod_pos_bound i 10). lia.
    - destruct (IH (i / 10)) as (c & H & Hc). exists c. split; [|done].
      change (digits (S (S n)) i) with (digits (S n) (i / 10) ++ [0x30 + i mod 10]).
      rewrite <- app_assoc, lookup_app_l by (rewrite length_digits; lia).
      rewrite lookup_app_l in H by (rewrite length_digits; lia). done. }
  cbn [get_or_oob]. rewrite bind_Ret. destruct (Z.eqb_spec c 0); [done|]. done.
Qed.

Lemma my_strtoui_spec_witness :
  0 <= 42 < 2 ^ 31 /\
  (my_strtoui (digits (my_uint_len 42) 42 ++ 0 :: []) = Ret (Some 42)
  /\ my_strtoui (literal "5000000000" ++ [0]) = Ret (Some 705032704)
  /\ my_strtoui (literal "4294967299" ++ [0]) = Ret None).
Proof. split; [lia|]. apply my_strtoui_spec. lia. Defined.

(** Hexadecimal digits in either case, the value modulo the width of a pointer. *)
Lemma read_hex_spec w s : forall r t ds, map hex_digit s = map Some ds ->
  read_hex_loop w (wrap w r) (s ++ t) = read_hex_loop w (wrap w (fold_left (fun r d => 16 * r + d) ds r)) t.
Proof.
  induction s as [|c s IH]; intros r t [|d ds] E; try done. injection E as Ed E. cbn [app read_hex_loop fold_left].
  rewrite Ed, <- (IH (16 * r + d)) by done. rewrite Z.shiftl_mul_pow2 by lia.
  change (2 ^ 4) with 16. rewrite wrap_digit. do 2 f_equal. ring.
Qed.
