(* ===== verification/LineReader.v ===== *)
(** Reading a file line by line in a fixed buffer:
    client/linux/minidump_writer/line_reader.h of libbreakpad.

    The file is the bytes that are left of it. A read may give fewer bytes than
    it is asked for: [reads] holds what the next calls do, [Some k] for at most
    [k] bytes (but one at least), [None] for an error; when it runs out, a read
    gives all that fits. *)
From S2P Require Import Prelude.

Definition kMaxLineLen : nat := 512.

Record line_reader := LineReader {
  hit_eof_ : bool;
  buf_used_ : nat;
  buf_ : list Z;
  file : list Z;
  reads : list (option nat)
}.

Definition new_line_reader (buf file : list Z) (reads : list (option nat)) : line_reader :=
  LineReader false 0 buf file reads.

(** [sys_read] into the [room] bytes of the buffer that are left. *)
Definition sys_read (r : line_reader) (room : nat) : option (list Z) * list (option nat) :=
  match reads r with
  | [] => (Some (take room (file r)), [])
  | Some k :: rs => (Some (take (min room (max 1 k)) (file r)), rs)
  | None :: rs => (None, rs)
  end.

Definition is_eol (c : Z) : bool := (c =? 10) || (c =? 0).

(** The loop over the buffer: the first end of line. *)
Fixpoint find_eol (i : nat) (l : list Z) : option nat :=
  match l with
  | [] => None
  | c :: t => if is_eol c then Some i else find_eol (S i) t
  end.

(** The length of the line at the start of the buffer, or nothing. *)
Fixpoint get_next_line (fuel : nat) (r : line_reader) : res (option nat * line_reader) :=
  match fuel with
  | O => Fault OutOfFuel
  | S fuel =>
      if (buf_used_ r =? 0)%nat && hit_eof_ r then Ret (None, r)
      else
        match find_eol 0 (take (buf_used_ r) (buf_ r)) with
        | Some i =>
            Ret (Some i, LineReader (hit_eof_ r) (buf_used_ r) (<[i := 0]> (buf_ r)) (file r) (reads r))
        | None =>
            if (buf_used_ r =? kMaxLineLen)%nat then Ret (None, r)
            else if hit_eof_ r then
              Ret (Some (buf_used_ r),
                   LineReader true (buf_used_ r + 1) (<[buf_used_ r := 0]> (buf_ r)) (file r) (reads r))
            else
              let '(n, rs) := sys_read r (kMaxLineLen - buf_used_ r) in
              match n with
              | None => Ret (None, LineReader (hit_eof_ r) (buf_used_ r) (buf_ r) (file r) rs)
              | Some [] => get_next_line fuel (LineReader true (buf_used_ r) (buf_ r) (file r) rs)
              | Some data =>
                  buf ← store (buf_ r) (buf_used_ r) data;
                  get_next_line fuel
                    (LineReader (hit_eof_ r) (buf_used_ r + length data) buf (drop (length data) (file r)) rs)
              end
        end
  end.

(** A read that is not the last adds a byte to the buffer. *)
Definition GetNextLine (r : line_reader) : res (option nat * line_reader) := get_next_line (kMaxLineLen + 2) r.

Definition PopLine (len : nat) (r : line_reader) : res line_reader :=
  if (buf_used_ r <? len + 1)%nat then Fault Aborted
  else
    let used := (buf_used_ r - (len + 1))%nat in
    data ← load (buf_ r) (len + 1) used;
    buf ← store (buf_ r) 0 data;
    Ret (LineReader (hit_eof_ r) used buf (file r) (reads r)).

(** * What is left to read *)

(** The lines of a text: each ends at a newline or a zero, the last one may end
    with the text. *)
Fixpoint lines_from (line text : list Z) : list (list Z) :=
  match text with
  | [] => match line with [] => [] | _ => [line] end
  | c :: t => if is_eol c then line :: lines_from [] t else lines_from (line ++ [c]) t
  end.

Definition lines (text : list Z) : list (list Z) := lines_from [] text.

(** The text that a reader has not given out: the buffer, then the file. *)
Definition pending (r : line_reader) : list Z := take (buf_used_ r) (buf_ r) ++ file r.

Definition wf (r : line_reader) : Prop :=
  length (buf_ r) = kMaxLineLen /\ (buf_used_ r <= kMaxLineLen)%nat /\ (hit_eof_ r = true -> file r = [])
  /\ Forall (fun k => k <> None) (reads r).

Lemma find_eol_spec l : forall i,
  match find_eol i l with
  | Some j => exists line c t, l = line ++ c :: t /\ is_eol c = true /\ Forall (fun c => is_eol c = false) line /\ j = (i + length line)%nat
  | None => Forall (fun c => is_eol c = false) l
  end.
Proof.
  induction l as [|c l IH]; intros i; cbn [find_eol]; [constructor|]. destruct (is_eol c) eqn:E.
  - exists [], c, l. cbn. repeat split; (done || lia || constructor).
  - specialize (IH (S i)). destruct (find_eol (S i) l) as [j|]; [|by constructor].
    destruct IH as (line & c' & t & -> & Hc & Hl & ->). exists (c :: line), c', t. cbn.
    repeat split; (done || lia || by constructor).
Qed.

Lemma lines_from_app line more t : Forall (fun c => is_eol c = false) more -> lines_from line (more ++ t) = lines_from (line ++ more) t.
Proof.
  intros H. revert line. induction H as [|c more Hc _ IH]; intros line; [by rewrite app_nil_r|].
  cbn [app lines_from]. rewrite Hc, IH, <- app_assoc. done.
Qed.

Lemma lines_eol line c t : Forall (fun c => is_eol c = false) line -> is_eol c = true -> lines (line ++ c :: t) = line :: lines t.
Proof. intros Hl Hc. unfold lines. rewrite lines_from_app by done. cbn. by rewrite Hc. Qed.

Lemma lines_last line : Forall (fun c => is_eol c = false) line -> line <> [] -> lines line = [line].
Proof. intros Hl Hn. unfold lines. rewrite <- (app_nil_r line) at 1. rewrite lines_from_app by done. by destruct line. Qed.

Lemma lines_longer text : forall line, line <> [] ->
  exists l rest, lines_from line text = l :: rest /\ (length line <= length l)%nat.
Proof.
  induction text as [|c t IH]; intros line Hl; cbn [lines_from].
  - exists line, []. split; [by destruct line|done].
  - destruct (is_eol c); [by eexists _, _|]. destruct (IH (line ++ [c])) as (l & rest & E & H); [by destruct line|].
    exists l, rest. split; [done|]. rewrite length_app in H. lia.
Qed.

Definition fits (text : list Z) : Prop := Forall (fun line => length line < kMaxLineLen)%nat (lines text).

(** What GetNextLine does for a text, and PopLine after it. *)
Definition gives (text : list Z) (o : option nat) (r : line_reader) : Prop :=
  match lines text with
  | [] => o = None
  | line :: rest =>
      o = Some (length line) /\ length (buf_ r) = kMaxLineLen /\ take (length line) (buf_ r) = line
      /\ buf_ r !! length line = Some 0
      /\ exists r', PopLine (length line) r = Ret r' /\ wf r' /\ lines (pending r') = rest
  end.

Lemma pop_line r n : length (buf_ r) = kMaxLineLen -> (n < buf_used_ r <= kMaxLineLen)%nat ->
  exists buf, PopLine n r = Ret (LineReader (hit_eof_ r) (buf_used_ r - (n + 1)) buf (file r) (reads r))
    /\ length buf = kMaxLineLen /\ take (buf_used_ r - (n + 1)) buf = drop (n + 1) (take (buf_used_ r) (buf_ r)).
Proof.
  intros Hlen Hn. unfold PopLine. destruct (Nat.ltb_spec (buf_used_ r) (n + 1)); [lia|].
  rewrite load_in_bounds, bind_Ret by lia.
  assert (length (take (buf_used_ r - (n + 1)) (drop (n + 1) (buf_ r))) = buf_used_ r - (n + 1))%nat as Hd by (rewrite length_take, length_drop; lia).
  rewrite store_in_bounds, bind_Ret by (rewrite Hd; lia). eexists. split; [done|]. cbn [Nat.add].
  rewrite take_0, app_nil_l, Hd. split; [rewrite length_app, length_drop, Hd; lia|].
  rewrite take_app_length' by done. by rewrite <- skipn_firstn_comm.
Qed.

Lemma gives_from_buffer line c t used buf file rs eof : length buf = kMaxLineLen ->
  take used buf = line ++ c :: t -> (used <= kMaxLineLen)%nat ->
  (eof = true -> file = []) -> Forall (fun k => k <> None) rs ->
  let r' := LineReader eof used (<[length line := 0]> buf) file rs in
  length (buf_ r') = kMaxLineLen /\ take (length line) (buf_ r') = line /\ buf_ r' !! length line = Some 0
  /\ exists r'', PopLine (length line) r' = Ret r'' /\ wf r'' /\ pending r'' = t ++ file.
Proof.
  intros Hlen Ht Hu He Hrs r'. pose proof (f_equal length Ht) as Hl. rewrite length_take, length_app in Hl. cbn in Hl.
  assert (length (buf_ r') = kMaxLineLen) as Hlen' by (cbn; by rewrite length_insert).
  split; [done|split; [|split]].
  - cbn. rewrite take_insert_ge by lia. apply (f_equal (take (length line))) in Ht.
    rewrite take_take, take_app_length in Ht. by replace (min (length line) used) with (length line) in Ht by lia.
  - cbn. apply list_lookup_insert_eq. lia.
  - destruct (pop_line r' (length line) Hlen') as (buf' & E & Hb & Hp); [cbn; lia|].
    eexists. split; [exact E|]. cbn in *. split; [split; [done|]; split; [cbn; lia|]; done|].
    unfold pending. cbn. rewrite Hp. f_equal. rewrite take_insert_lt, Ht by lia.
    rewrite insert_app_r_alt, Nat.sub_diag by lia. cbn. by rewrite drop_app_add.
Qed.

Lemma sys_read_data r room data rs : sys_read r room = (Some data, rs) -> (0 < room)%nat ->
  Forall (fun k => k <> None) (reads r) ->
  Forall (fun k => k <> None) rs /\ (length data <= room)%nat /\ file r = data ++ drop (length data) (file r) /\ (data = [] -> file r = []).
Proof.
  unfold sys_read. intros E Hroom Hrs.
  assert (forall n, (0 < n <= room)%nat -> (length (take n (file r)) <= room)%nat
    /\ file r = take n (file r) ++ drop (length (take n (file r))) (file r) /\ (take n (file r) = [] -> file r = [])) as H.
  { intros n Hn. rewrite length_take. split; [lia|]. split.
    - destruct (decide (n <= length (file r))%nat); [by rewrite Nat.min_l, take_drop by lia|].
      rewrite Nat.min_r, drop_ge, take_ge, app_nil_r by lia. done.
    - destruct n; [lia|]. by destruct (file r). }
  destruct (reads r) as [|[k|] rs'].
  - injection E as <- <-. split; [done|]. apply H. lia.
  - injection E as <- <-. split; [by inversion Hrs|]. apply H. lia.
  - discriminate.
Qed.

(** The size of the buffer as a number. *)
Ltac lens := unfold kMaxLineLen in *; lia.

Lemma get_next_line_gives fuel : forall r, wf r -> fits (pending r) ->
  (kMaxLineLen - buf_used_ r + (if hit_eof_ r then 0 else 1) < fuel)%nat ->
  exists o r', get_next_line fuel r = Ret (o, r') /\ gives (pending r) o r'.
Proof.
  induction fuel as [|fuel IH]; intros [eof used buf file rs] (Hlen & Hu & He & Hrs) Hfit Hfuel; [lens|]. cbn in *.
  unfold pending in *. cbn [buf_used_ buf_ LineReader.file hit_eof_] in *.
  pose proof (find_eol_spec (take used buf) 0) as Hfind. cbn [get_next_line buf_used_ hit_eof_ buf_].
  destruct ((used =? 0)%nat && eof) eqn:E0.
  { apply andb_true_iff in E0 as [->%Nat.eqb_eq ->]. rewrite He by done. do 2 eexists. split; [done|]. done. }
  destruct (find_eol 0 (take used buf)) as [j|] eqn:Ef.
  { destruct Hfind as (line & c & t & Ht & Hc & Hl & ->). do 2 eexists. split; [reflexivity|].
    unfold gives. rewrite Ht, <- app_assoc. cbn [app]. rewrite lines_eol by done. split; [done|].
    destruct (gives_from_buffer line c t used buf file rs _ Hlen Ht Hu He Hrs) as (H1 & H2 & H3 & r'' & H4 & H5 & H6).
    repeat (split; [done|]). exists r''. by rewrite H6. }
  assert (length (take used buf) = used) as Hused by (rewrite length_take; lens).
  destruct (Nat.eqb_spec used kMaxLineLen) as [Hfull|Hroom].
  { exfalso. unfold fits, lines in Hfit. rewrite lines_from_app in Hfit by done. cbn [app] in Hfit.
    destruct (lines_longer file (take used buf)) as (l & rest & E & Hl); [by intros E; rewrite E in Hused; cbn in Hused; subst|].
    rewrite E in Hfit. inversion Hfit. lens. }
  destruct eof.
  - rewrite He, app_nil_r in * by done. do 2 eexists. split; [reflexivity|].
    assert (take used buf <> []) as Hne by (intros E; rewrite E in Hused; cbn in Hused; by subst).
    unfold gives. rewrite lines_last by done. rewrite Hused. split; [done|].
    destruct (gives_from_buffer (take used buf) 0 [] (used + 1) (<[used := 0]> buf) [] rs true) as (H1 & H2 & H3 & r'' & H4 & H5 & H6);
      [by rewrite length_insert| |lens|done|done|].
    { rewrite Nat.add_1_r, (take_S_r _ _ 0) by (apply list_lookup_insert_eq; lens). by rewrite take_insert_ge by lens. }
    rewrite Hused, list_insert_insert_eq in *. repeat (split; [done|]). exists r''. by rewrite H6.
  - destruct (sys_read _ _) as [[data|] rs'] eqn:Er; [|exfalso].
    + destruct (sys_read_data _ _ _ _ Er) as (Hrs' & Hd & Hf & Hnil); [cbn; lens|done|]. cbn in Hd, Hf, Hnil.
      destruct data as [|d data].
      * rewrite Hnil in * by done. destruct (IH (LineReader true used buf [] rs')) as (o & r' & E & Hg); [by repeat split|done|cbn; lens|].
        exists o, r'. by split.
      * assert (length (d :: data) <> 0%nat) as Hpos by done.
        remember (d :: data) as dd eqn:Edd. rewrite store_in_bounds, bind_Ret by lens.
        set (buf' := take used buf ++ dd ++ drop (used + length dd) buf).
        assert (take (used + length dd) buf' = take used buf ++ dd) as Ht.
        { unfold buf'. rewrite app_assoc. apply take_app_length'. rewrite length_app. lens. }
        assert (take (used + length dd) buf' ++ drop (length dd) file = take used buf ++ file) as Hp.
        { rewrite Ht, <- app_assoc. by f_equal. }
        destruct (IH (LineReader false (used + length dd) buf' (drop (length dd) file) rs')) as (o & r' & E & Hg).
        -- repeat split; try done; cbn; [|lens]. unfold buf'. rewrite !length_app, Hused, length_drop. lens.
        -- unfold pending. cbn. by rewrite Hp.
        -- cbn. lens.
        -- exists o, r'. split; [exact E|]. unfold pending in Hg. cbn in Hg. by rewrite Hp in Hg.
    + unfold sys_read in Er. cbn in Er. destruct rs as [|[k|] rs]; try discriminate. by inversion Hrs.
Qed.

(** * The loop of a client *)

(** [while (GetNextLine(&line, &len)) { ...; PopLine(len); }]: the body sees the
    length and the buffer. *)
Fixpoint each_line {S} (fuel : nat) (body : S -> nat -> list Z -> res S) (s : S) (r : line_reader) : res S :=
  match fuel with
  | O => Fault OutOfFuel
  | Datatypes.S fuel =>
      '(o, r) ← GetNextLine r;
      match o with
      | None => Ret s
      | Some len =>
          s ← body s len (buf_ r);
          r ← PopLine len r;
          each_line fuel body s r
      end
  end.

Lemma each_line_spec {S X} (body : S -> nat -> list Z -> res S) (step : S -> X -> S) (reads_as : list Z -> X -> Prop)
    (inv : S -> Prop) :
  (forall s line x rest, inv s -> reads_as line x -> length (line ++ 0 :: rest) = kMaxLineLen ->
     body s (length line) (line ++ 0 :: rest) = Ret (step s x) /\ inv (step s x)) ->
  forall fuel r xs s, inv s -> wf r -> fits (pending r) -> Forall2 reads_as (lines (pending r)) xs -> (length (lines (pending r)) < fuel)%nat ->
  each_line fuel body s r = Ret (fold_left step xs s).
Proof.
  intros Hbody. induction fuel as [|fuel IH]; intros r xs s Hinv Hwf Hfit Hgood Hfuel; [lia|]. cbn [each_line].
  destruct (get_next_line_gives (kMaxLineLen + 2) r Hwf Hfit) as (o & r' & E & Hg).
  { destruct (hit_eof_ r); lens. }
  unfold GetNextLine. rewrite E, bind_Ret. unfold gives in Hg. unfold fits in *. cbn beta iota.
  destruct (lines (pending r)) as [|line rest]; [rewrite Hg; by inversion Hgood|].
  destruct Hg as (-> & Hlen & Hline & Hz & r'' & Hpop & Hwf'' & Hrest).
  assert (buf_ r' = line ++ 0 :: drop (Datatypes.S (length line)) (buf_ r')) as Eb.
  { rewrite <- Hline at 1. rewrite <- (take_drop (length line) (buf_ r')) at 1. f_equal. by apply drop_S. }
  inversion Hgood as [|? x ? xs' Hx Hxs]; subst xs. inversion_clear Hfit.
  pose proof (Hbody s line x (drop (Datatypes.S (length line)) (buf_ r'))) as Ebody. rewrite <- Eb in Ebody.
  destruct Ebody as [Ebody Hinv']; [done|done|done|]. rewrite Ebody, bind_Ret, Hpop, bind_Ret.
  cbn [fold_left]. apply IH; rewrite ?Hrest; try done. cbn in Hfuel. lia.
Qed.

(** C39: However the reads cut a file into pieces, the loop hands over its lines in
    order, each whole and with a zero after it, when every line is shorter
    than the buffer; GetNextLine and PopLine stay inside the buffer. *)
Theorem all_lines_in_order text reads buf fuel : length buf = kMaxLineLen -> Forall (fun k => k <> None) reads -> fits text ->
  (length (lines text) < fuel)%nat ->
  each_line fuel (fun out len mem => line ← load mem 0 len; z ← get_or_oob (mem !! len); Ret (out ++ [(line, z)])) []
    (new_line_reader buf text reads)
  = Ret (map (fun line => (line, 0)) (lines text)).
Proof.
  intros Hbuf Hr Hfit Hfuel.
  rewrite (each_line_spec _ (fun out line => out ++ [(line, 0)]) (fun line x => x = line) (fun _ => True)) with (xs := lines text).
  - f_equal. change (pending (new_line_reader buf text reads)) with text.
    assert (forall l out, fold_left (fun out line => out ++ [(line, 0)]) l out = out ++ map (fun line : list Z => (line, 0)) l) as H.
    { clear. induction l as [|line l IH]; intros out; cbn; [by rewrite app_nil_r|]. by rewrite IH, <- app_assoc. }
    apply H.
  - intros s line _ rest _ -> Hlen. split; [|done]. rewrite load_in_bounds, bind_Ret by (rewrite length_app; lia).
    rewrite drop_0, take_app_length, lookup_app_r, Nat.sub_diag by lia. done.
  - done.
  - split; [done|]. split; [cbn; lens|]. done.
  - done.
  - change (pending (new_line_reader buf text reads)) with text. clear. induction (lines text); by constructor.
  - done.
Qed.

Lemma all_lines_in_order_witness :
  let text := [0x61; 0x62; 10; 10; 0x63] in
  (length (replicate 512 7) = kMaxLineLen /\ fits text) /\
  each_line 4 (fun out len mem => line ← load mem 0 len; z ← get_or_oob (mem !! len); Ret (out ++ [(line, z)])) []
    (new_line_reader (replicate 512 7) text [Some 1; Some 2]%nat)
  = Ret (map (fun line => (line, 0)) (lines text)).
Proof.
  intros text. assert (length (replicate 512 7) = kMaxLineLen) by reflexivity.
  assert (fits text) by (unfold fits; repeat constructor; vm_compute; lia).
  split; [done|]. apply all_lines_in_order; [done|by repeat constructor|done|vm_compute; lia].
Defined.

Lemma find_eol_none l : Forall (fun c => is_eol c = false) l -> forall i, find_eol i l = None.
Proof. induction 1 as [|c l Hc _ IH]; intros i; [done|]. cbn. by rewrite Hc. Qed.

Lemma get_next_line_S fuel r : get_next_line (S fuel) r =
  if (buf_used_ r =? 0)%nat && hit_eof_ r then Ret (None, r)
  else
    match find_eol 0 (take (buf_used_ r) (buf_ r)) with
    | Some i => Ret (Some i, LineReader (hit_eof_ r) (buf_used_ r) (<[i := 0]> (buf_ r)) (file r) (reads r))
    | None =>
        if (buf_used_ r =? kMaxLineLen)%nat then Ret (None, r)
        else if hit_eof_ r then
          Ret (Some (buf_used_ r), LineReader true (buf_used_ r + 1) (<[buf_used_ r := 0]> (buf_ r)) (file r) (reads r))
        else
          let '(n, rs) := sys_read r (kMaxLineLen - buf_used_ r) in
          match n with
          | None => Ret (None, LineReader (hit_eof_ r) (buf_used_ r) (buf_ r) (file r) rs)
          | Some [] => get_next_line fuel (LineReader true (buf_used_ r) (buf_ r) (file r) rs)
          | Some data =>
              buf ← store (buf_ r) (buf_used_ r) data;
              get_next_line fuel (LineReader (hit_eof_ r) (buf_used_ r + length data) buf (drop (length data) (file r)) rs)
          end
    end.
Proof. done. Qed.

(** A line of the size of the buffer ends the loop: nothing after it is seen. *)
Theorem long_line_ends long rest buf : Forall (fun c => is_eol c = false) long -> length long = kMaxLineLen -> length buf = kMaxLineLen ->
  exists r, GetNextLine (new_line_reader buf (long ++ rest) []) = Ret (None, r) /\ file r = rest.
Proof.
  intros Hl Hlen Hbuf. unfold GetNextLine. replace (kMaxLineLen + 2)%nat with (S (S kMaxLineLen)) by lia.
  rewrite get_next_line_S. unfold new_line_reader, sys_read. cbn [buf_used_ hit_eof_ buf_ file reads Nat.eqb andb].
  rewrite take_0. cbn [find_eol]. destruct (Nat.eqb_spec 0 kMaxLineLen); [lens|]. rewrite Nat.sub_0_r, take_app_length' by done.
  assert (exists c l, long = c :: l) as (c & l & El) by (destruct long as [|c l]; [cbn in Hlen; lens|by exists c, l]).
  rewrite El. rewrite <- El. rewrite store_in_bounds, bind_Ret by (rewrite Hlen, Hbuf; lia).
  rewrite get_next_line_S. cbn [buf_used_ hit_eof_ buf_ file reads]. rewrite Hlen. cbn [Nat.add].
  rewrite andb_false_r, take_0, app_nil_l, take_app_length' by done. rewrite find_eol_none, Nat.eqb_refl by done.
  eexists. split; [done|]. cbn [file]. by rewrite drop_app_length'.
Qed.

Lemma long_line_ends_witness :
  (Forall (fun c => is_eol c = false) (replicate 512 0x61) /\ length (replicate 512 0x61) = kMaxLineLen /\ length (replicate 512 0) = kMaxLineLen) /\
  exists r, GetNextLine (new_line_reader (replicate 512 0) (replicate 512 0x61 ++ [10; 0x62; 10]) []) = Ret (None, r) /\ file r = [10; 0x62; 10].
Proof.
  assert (Forall (fun c => is_eol c = false) (replicate 512 0x61)) by (by apply Forall_replicate).
  split; [done|]. by apply long_line_ends.
Defined.
