(* ===== verification/LinuxDumper.v ===== *)
(** What a crash dump records of a process: client/linux/minidump_writer/
    linux_dumper.cc of libbreakpad.

    An address is a word of [w] bits, 32 or 64. The text of /proc/<pid>/maps is
    read line by line (LineReader); a char pointer is the memory from it on. *)
From S2P Require Import Prelude LibcSupport LineReader.

Definition NAME_MAX : nat := 255.
Definition PATH_MAX : nat := 4096.

(** [name] is the text before the first zero of the array. *)
Record MappingInfo := Mapping {
  start_addr : Z;
  size : Z;
  sys_start_addr : Z;
  sys_end_addr : Z;
  offset : Z;
  exec : bool;
  name : list Z
}.

#[export] Instance MappingInfo_eq_dec : EqDecision MappingInfo.
Proof. solve_decision. Defined.

Definition kMappedFileUnsafePrefix : list Z := literal "/dev/".
Definition kDeletedSuffix : list Z := literal " (deleted)".
Definition kLinuxGateLibraryName : list Z := literal "linux-gate.so".

Definition IsMappedFileOpenUnsafe (mapping : MappingInfo) : res bool :=
  c ← my_strncmp (name mapping ++ [0]) (kMappedFileUnsafePrefix ++ [0]) (length kMappedFileUnsafePrefix);
  Ret (c =? 0).

Definition MappingContainsAddress (mapping : MappingInfo) (address : Z) : bool :=
  (sys_start_addr mapping <=? address) && (address <? sys_end_addr mapping).

(** * The auxiliary vector *)

Definition AT_SYSINFO_EHDR : Z := 33.
Definition AT_MAX : Z := AT_SYSINFO_EHDR.
Definition AT_ENTRY : Z := 9.

(** The loop over the entries that can be read whole. *)
Fixpoint read_auxv (entries : list (Z * Z)) (auxv : list Z) (res : bool) : list Z * bool :=
  match entries with
  | [] => (auxv, res)
  | (a_type, a_val) :: t =>
      if a_type =? 0 then (auxv, res)
      else if a_type <=? AT_MAX then read_auxv t (<[Z.to_nat a_type := a_val]> auxv) true
      else read_auxv t auxv res
  end.

(** [auxv_] is AT_MAX + 1 zeros at first; [None] when the file does not open. *)
Definition ReadAuxv (entries : option (list (Z * Z))) : list Z * bool :=
  let auxv := replicate (Z.to_nat AT_MAX + 1) 0 in
  match entries with None => (auxv, false) | Some es => read_auxv es auxv false end.

(** * The mappings *)

Record maps_entry := MapsEntry {
  e_start : Z;
  e_end : Z;
  e_exec : bool;
  e_offset : Z;
  e_name : option (list Z)
}.

(** One line; the name is the memory from its first character on. *)
Definition parse_line (w linux_gate_loc : Z) (line : list Z) : res (option maps_entry) :=
  '(start, i1) ← my_read_hex_ptr w line;
  c ← get_or_oob (i1 !! 0%nat);
  if negb (c =? 0x2D) then Ret None
  else
    '(end_addr, i2) ← my_read_hex_ptr w (drop 1 i1);
    c ← get_or_oob (i2 !! 0%nat);
    if negb (c =? 0x20) then Ret None
    else
      x ← get_or_oob (i2 !! 3%nat);
      '(off, i3) ← my_read_hex_ptr w (drop 6 i2);
      c ← get_or_oob (i3 !! 0%nat);
      if negb (c =? 0x20) then Ret None
      else
        slash ← my_strchr line 0x2F;
        Ret (Some
          match slash with
          | Some i => MapsEntry start end_addr (x =? 0x78) off (Some (drop i line))
          | None =>
              if negb (linux_gate_loc =? 0) && (start =? linux_gate_loc)
              then MapsEntry start end_addr (x =? 0x78) 0 (Some (kLinuxGateLibraryName ++ [0]))
              else MapsEntry start end_addr (x =? 0x78) off None
          end).

(** Whether a line goes on with the module before it. *)
Definition continues (w : Z) (module : MappingInfo) (e : maps_entry) (nm : list Z) : res bool :=
  if negb (e_start e =? wrap w (start_addr module + size module)) then Ret false
  else
    l ← my_strlen nm;
    l' ← my_strlen (name module ++ [0]);
    if negb (l =? l')%nat then Ret false
    else
      c ← my_strncmp nm (name module ++ [0]) l;
      Ret ((c =? 0) && (eqb (e_exec e) (exec module) || (negb (exec module) && e_exec e))).

Definition extend (w : Z) (module : MappingInfo) (e : maps_entry) : MappingInfo :=
  Mapping (start_addr module) (wrap w (e_end e - start_addr module)) (sys_start_addr module) (e_end e)
    (offset module) (exec module || e_exec e) (name module).

Definition new_module (w : Z) (e : maps_entry) : res MappingInfo :=
  nm ← match e_name e with
       | None => Ret []
       | Some nm => l ← my_strlen nm; Ret (if (l <? NAME_MAX)%nat then take l nm else [])
       end;
  Ret (Mapping (e_start e) (wrap w (e_end e - e_start e)) (e_start e) (e_end e) (e_offset e) (e_exec e) nm).

(** The effect of one line on [mappings_]. *)
Definition add_entry (w : Z) (mappings : list MappingInfo) (e : maps_entry) : res (list MappingInfo) :=
  merge ← match e_name e, last mappings with
          | Some nm, Some module => continues w module e nm
          | _, _ => Ret false
          end;
  match merge, last mappings with
  | true, Some module => Ret (removelast mappings ++ [extend w module e])
  | _, _ => module ← new_module w e; Ret (mappings ++ [module])
  end.

Definition maps_line (w linux_gate_loc : Z) (mappings : list MappingInfo) (len : nat) (line : list Z) : res (list MappingInfo) :=
  e ← parse_line w linux_gate_loc line;
  match e with None => Ret mappings | Some e => add_entry w mappings e end.

(** The first module that contains the entry point becomes the first one. *)
Fixpoint move_first (w entry : Z) (before mappings : list MappingInfo) : list MappingInfo :=
  match mappings with
  | [] => before
  | m :: t =>
      if (start_addr m <=? entry) && (entry <? wrap w (start_addr m + size m)) then m :: before ++ t
      else move_first w entry (before ++ [m]) t
  end.

(** A line takes at least one byte of the file. *)
Definition EnumerateMappings (w : Z) (auxv : list Z) (maps : option line_reader) : res (list MappingInfo * bool) :=
  linux_gate_loc ← get_or_oob (auxv !! Z.to_nat AT_SYSINFO_EHDR);
  entry_point_loc ← get_or_oob (auxv !! Z.to_nat AT_ENTRY);
  match maps with
  | None => Ret ([], false)
  | Some r =>
      mappings ← each_line (length (pending r) + 2) (maps_line w linux_gate_loc) [] r;
      let mappings := if entry_point_loc =? 0 then mappings else move_first w entry_point_loc [] mappings in
      Ret (mappings, match mappings with [] => false | _ => true end)
  end.

(** * Finding a mapping *)

Definition FindMapping (mappings : list MappingInfo) (addr : Z) : option MappingInfo :=
  List.find (fun m => (start_addr m <=? addr) && (addr - start_addr m <? size m)) mappings.

Definition FindMappingNoBias (mappings : list MappingInfo) (addr : Z) : option MappingInfo :=
  List.find (fun m => (sys_start_addr m <=? addr) && (addr <? sys_end_addr m)) mappings.

Definition kStackToCapture : Z := 32 * 1024.

(** The address and the length, or nothing. *)
Definition GetStackInfo (w page_size : Z) (mappings : list MappingInfo) (int_stack_pointer : Z) : option (Z * Z) :=
  let stack_pointer := Z.ldiff int_stack_pointer (page_size - 1) in
  match FindMapping mappings stack_pointer with
  | None => None
  | Some mapping =>
      let off := swrap w (stack_pointer - start_addr mapping) in
      let distance_to_end := swrap w (swrap w (size mapping) - off) in
      Some (stack_pointer, if kStackToCapture <? distance_to_end then kStackToCapture else distance_to_end)
  end.

(** * The copy of the stack *)

Definition test_bits : Z := 11.
Definition array_size : nat := 256.
Definition array_mask : Z := 255.
Definition shift : Z := 32 - 11.
Definition small_int_magnitude : Z := 4096.

Definition defaced (w : Z) : Z := if w =? 64 then 0x0defaced0defaced else 0x0defaced.

(** [bit] in the table, modulo its size. *)
Definition table_index (bit : Z) : nat := Z.to_nat (Z.land (Z.shiftr bit 3) array_mask).
Definition table_mask (bit : Z) : Z := Z.shiftl 1 (Z.land bit 7).

Definition set_bit (table : list Z) (bit : Z) : list Z :=
  alter (fun b => u8 (Z.lor b (table_mask bit))) (table_index bit) table.

Fixpoint set_bits (n : nat) (bit : Z) (table : list Z) : list Z :=
  match n with O => table | S n => set_bits n (bit + 1) (set_bit table bit) end.

(** The table for the mappings, the bits of each from its first to its last. *)
Definition could_hit_mapping (w : Z) (mappings : list MappingInfo) : list Z :=
  fold_left (fun table m =>
    if negb (exec m) then table
    else
      let start := Z.shiftr (start_addr m) shift in
      let end_ := Z.shiftr (wrap w (start_addr m + size m)) shift in
      set_bits (Z.to_nat (end_ + 1 - start)) start table)
    mappings (replicate array_size 0).

Definition could_hit (table : list Z) (test : Z) : res bool :=
  b ← get_or_oob (table !! table_index test);
  Ret (negb (Z.land b (table_mask test) =? 0)).

(** Whether the word [addr] stays, and the mapping that was hit last. *)
Definition keep_word (w : Z) (mappings : list MappingInfo) (table : list Z) (stack_mapping last_hit_mapping : option MappingInfo)
    (addr : Z) : res (bool * option MappingInfo) :=
  let contains o := match o with Some m => MappingContainsAddress m addr | None => false end in
  if (swrap w addr <=? small_int_magnitude) && (- small_int_magnitude <=? swrap w addr) then Ret (true, last_hit_mapping)
  else if contains stack_mapping then Ret (true, last_hit_mapping)
  else if contains last_hit_mapping then Ret (true, last_hit_mapping)
  else
    hit ← could_hit table (Z.shiftr addr shift);
    match hit, FindMappingNoBias mappings addr with
    | true, Some m => if exec m then Ret (true, Some m) else Ret (false, last_hit_mapping)
    | _, _ => Ret (false, last_hit_mapping)
    end.

(** The loop over the words of [word] bytes, and what is left at the top. *)
Fixpoint sanitize_words (w : Z) (word : nat) (n : nat) (mappings : list MappingInfo) (table : list Z)
    (stack_mapping last_hit_mapping : option MappingInfo) (sp : list Z) : res (list Z) :=
  match n with
  | O => Ret (replicate (length sp) 0)
  | S n =>
      addr ← load sp 0 word;
      '(keep, last_hit_mapping) ← keep_word w mappings table stack_mapping last_hit_mapping (le_val addr);
      rest ← sanitize_words w word n mappings table stack_mapping last_hit_mapping (drop word sp);
      Ret ((if (keep : bool) then addr else le_bytes word (defaced w)) ++ rest)
  end.

(** The stack pointer rounded up to a word. *)
Definition sp_aligned (word sp_offset : Z) : Z := Z.ldiff (sp_offset + word - 1) (word - 1).

Definition SanitizeStackCopy (w : Z) (mappings : list MappingInfo) (stack_copy : list Z) (stack_pointer sp_offset : Z) : res (list Z) :=
  let word := Z.to_nat (w / 8) in
  let stack_mapping := FindMappingNoBias mappings stack_pointer in
  let table := could_hit_mapping w mappings in
  let off := Z.to_nat (sp_aligned (w / 8) sp_offset) in
  stack_copy ← my_memset stack_copy 0 off;
  rest ← sanitize_words w word ((length stack_copy - off) / word) mappings table stack_mapping None (drop off stack_copy);
  Ret (take off stack_copy ++ rest).

Fixpoint pointer_to (word : nat) (n : nat) (low_addr high_addr : Z) (sp : list Z) : bool :=
  match n with
  | O => false
  | S n =>
      let addr := le_val (take word sp) in
      ((low_addr <=? addr) && (addr <=? high_addr)) || pointer_to word n low_addr high_addr (drop word sp)
  end.

Definition StackHasPointerToMapping (w : Z) (stack_copy : list Z) (sp_offset : Z) (mapping : MappingInfo) : bool :=
  let word := Z.to_nat (w / 8) in
  let off := Z.to_nat (sp_aligned (w / 8) sp_offset) in
  pointer_to word ((length stack_copy - off) / word) (sys_start_addr mapping) (sys_end_addr mapping) (drop off stack_copy).

(** * Packed relocations (Android) *)

Record phdr := Phdr { p_type : Z; p_vaddr : Z; p_memsz : Z }.
Record ehdr := Ehdr { e_magic : bool; e_type : Z; e_phoff : Z; e_phnum : nat }.

Definition PT_LOAD : Z := 1.
Definition PT_DYNAMIC : Z := 2.
Definition ET_DYN : Z := 3.
Definition DT_ANDROID_REL : Z := 0x6000000d + 2.
Definition DT_ANDROID_RELA : Z := 0x6000000d + 4.

Section Process.

(** The ELF structures at an address of the process, as CopyFromProcess gives
    them, and the size of each. *)
Variable w : Z.
Variable ehdr_at : Z -> ehdr.
Variable phdr_at : Z -> phdr.
Variable d_tag_at : Z -> Z.
Variables sizeof_phdr sizeof_dyn : Z.

Definition GetLoadedElfHeader (start_addr : Z) : bool * ehdr := (e_magic (ehdr_at start_addr), ehdr_at start_addr).

Fixpoint program_headers (n : nat) (phdr_addr min_vaddr dyn_vaddr dyn_count : Z) : Z * Z * Z :=
  match n with
  | O => (min_vaddr, dyn_vaddr, dyn_count)
  | S n =>
      let p := phdr_at phdr_addr in
      let min_vaddr := if (p_type p =? PT_LOAD) && (p_vaddr p <? min_vaddr) then p_vaddr p else min_vaddr in
      let '(dyn_vaddr, dyn_count) :=
        if p_type p =? PT_DYNAMIC then (p_vaddr p, p_memsz p / sizeof_dyn) else (dyn_vaddr, dyn_count) in
      program_headers n (wrap w (phdr_addr + sizeof_phdr)) min_vaddr dyn_vaddr dyn_count
  end.

Definition ParseLoadedElfProgramHeaders (e : ehdr) (start_addr : Z) : Z * Z * Z :=
  program_headers (e_phnum e) (wrap w (start_addr + e_phoff e)) (2 ^ w - 1) 0 0.

Fixpoint packed_tags (n : nat) (dyn_addr : Z) : bool :=
  match n with
  | O => false
  | S n =>
      (d_tag_at dyn_addr =? DT_ANDROID_REL) || (d_tag_at dyn_addr =? DT_ANDROID_RELA)
      || packed_tags n (wrap w (dyn_addr + sizeof_dyn))
  end.

Definition HasAndroidPackedRelocations (load_bias dyn_vaddr dyn_count : Z) : bool :=
  packed_tags (Z.to_nat dyn_count) (wrap w (load_bias + dyn_vaddr)).

Definition GetEffectiveLoadBias (e : ehdr) (start_addr : Z) : Z :=
  let '(min_vaddr, dyn_vaddr, dyn_count) := ParseLoadedElfProgramHeaders e start_addr in
  if negb (min_vaddr =? 0) then
    let load_bias := wrap w (start_addr - min_vaddr) in
    if HasAndroidPackedRelocations load_bias dyn_vaddr dyn_count then load_bias else start_addr
  else start_addr.

Definition postprocess (m : MappingInfo) : MappingInfo :=
  if negb (exec m && (match name m with c :: _ => c =? 0x2F | [] => false end)) then m
  else
    let '(ok, e) := GetLoadedElfHeader (start_addr m) in
    if negb ok then m
    else if e_type e =? ET_DYN then
      let load_bias := GetEffectiveLoadBias e (start_addr m) in
      Mapping load_bias (wrap w (size m + (start_addr m - load_bias))) (sys_start_addr m) (sys_end_addr m) (offset m) (exec m) (name m)
    else m.

Definition LatePostprocessMappings (mappings : list MappingInfo) : list MappingInfo := map postprocess mappings.

End Process.

(** * Paths *)

(** [root_prefix_] and the name of the mapping, in an array of PATH_MAX. *)
Definition GetMappingAbsolutePath (root_prefix : list Z) (mapping : MappingInfo) (path : list Z) : res (bool * list Z) :=
  '(path, n) ← my_strlcpy path (root_prefix ++ [0]) PATH_MAX;
  if (n <? PATH_MAX)%nat then
    '(path, n) ← my_strlcat path (name mapping ++ [0]) PATH_MAX;
    Ret ((n <? PATH_MAX)%nat, path)
  else Ret (false, path).

(** [soname] is what ElfFileSoName finds, [None] when it fails. *)
Definition GetMappingEffectiveNameAndPath (soname : option (list Z)) (mapping : MappingInfo)
    (file_path : list Z) (file_path_size : nat) (file_name : list Z) (file_name_size : nat) : res (list Z * list Z) :=
  '(file_path, _) ← my_strlcpy file_path (name mapping ++ [0]) file_path_size;
  let from_archive := exec mapping && negb (offset mapping =? 0) in
  match from_archive, soname with
  | true, Some so =>
      '(file_name, _) ← my_strlcpy file_name (so ++ [0]) file_name_size;
      l1 ← my_strlen file_path;
      l2 ← my_strlen file_name;
      if (l1 + 1 + l2 <? file_path_size)%nat then
        '(file_path, _) ← my_strlcat file_path [0x2F; 0] file_path_size;
        '(file_path, _) ← my_strlcat file_path file_name file_path_size;
        Ret (file_path, file_name)
      else Ret (file_path, file_name)
  | _, _ =>
      slash ← my_strrchr file_path 0x2F;
      let basename := match slash with None => file_path | Some i => drop (i + 1) file_path end in
      '(file_name, _) ← my_strlcpy file_name basename file_name_size;
      Ret (file_path, file_name)
  end.

(** [exe_link] is the array with /proc/<pid>/exe, [exe_target] what the link is
    read as ([None] when that fails), and [same_file] whether both stats
    succeed and name one file. *)
Definition HandleDeletedFileInMapping (root_prefix : list Z) (path : list Z) (exe_link : option (list Z)) (exe_target : option (list Z))
    (new_path : list Z) (same_file : list Z -> bool) : res (bool * list Z) :=
  path_len ← my_strlen path;
  let kDeletedSuffixLen := length kDeletedSuffix in
  if (path_len <? kDeletedSuffixLen + 2)%nat then Ret (false, path)
  else
    c ← my_strncmp (drop (path_len - kDeletedSuffixLen) path) (kDeletedSuffix ++ [0]) kDeletedSuffixLen;
    if negb (c =? 0) then Ret (false, path)
    else
      match exe_link, exe_target with
      | Some exe_link, Some exe_target =>
          '(ok, new_path) ← GetMappingAbsolutePath root_prefix (Mapping 0 0 0 0 0 false exe_target) new_path;
          if negb (ok : bool) then Ret (false, path)
          else
            c ← my_strcmp path new_path;
            if negb (c =? 0) then Ret (false, path)
            else if same_file new_path then Ret (false, path)
            else
              link ← load exe_link 0 NAME_MAX;
              path ← store path 0 link;
              Ret (true, path)
      | _, _ => Ret (false, path)
      end.

(** * Reading the lines *)

Definition hex_value (ds : list Z) : Z := fold_left (fun r d => 16 * r + d) ds 0.

(** The text from the first slash on. *)
Fixpoint path_of (line : list Z) : option (list Z) :=
  match line with
  | [] => None
  | c :: t => if c =? 0x2F then Some line else path_of t
  end.

(** A line of the kernel: [start-end rwxp offset ...], and its entry. *)
Definition line_is (w : Z) (line : list Z) (e : maps_entry) : Prop :=
  exists hs ds he de p1 p2 x p4 ho dof tail,
    line = hs ++ 0x2D :: he ++ 0x20 :: p1 :: p2 :: x :: p4 :: 0x20 :: ho ++ 0x20 :: tail
    /\ map hex_digit hs = map Some ds /\ map hex_digit he = map Some de /\ map hex_digit ho = map Some dof
    /\ nonzero line
    /\ e = MapsEntry (wrap w (hex_value ds)) (wrap w (hex_value de)) (x =? 0x78) (wrap w (hex_value dof)) (path_of line).

(** The library that the kernel maps by itself gets its name. *)
Definition named (linux_gate_loc : Z) (e : maps_entry) : maps_entry :=
  match e_name e with
  | Some _ => e
  | None =>
      if negb (linux_gate_loc =? 0) && (e_start e =? linux_gate_loc)
      then MapsEntry (e_start e) (e_end e) (e_exec e) 0 (Some kLinuxGateLibraryName) else e
  end.

(** The entry with its name in memory. *)
Definition in_memory (rest : list Z) (e : maps_entry) : maps_entry :=
  MapsEntry (e_start e) (e_end e) (e_exec e) (e_offset e) (option_map (fun nm => nm ++ 0 :: rest) (e_name e)).

Lemma read_hex_until w h ds c t : map hex_digit h = map Some ds -> hex_digit c = None ->
  my_read_hex_ptr w (h ++ c :: t) = Ret (wrap w (hex_value ds), c :: t).
Proof.
  intros Hh Hc. unfold my_read_hex_ptr. change 0 with (wrap w 0) at 1. rewrite (read_hex_spec w h 0 (c :: t) ds Hh).
  cbn. by rewrite Hc.
Qed.

Lemma strchr_path line rest : nonzero line ->
  exists o, my_strchr (line ++ 0 :: rest) 0x2F = Ret o
    /\ match o with
       | Some i => exists p, path_of line = Some p /\ drop i (line ++ 0 :: rest) = p ++ 0 :: rest
       | None => path_of line = None
       end.
Proof.
  induction 1 as [|c line Hc _ IH]; [by exists None|]. cbn [app my_strchr path_of]. destruct (Z.eqb_spec c 0); [done|]. cbn [orb].
  destruct (Z.eqb_spec c 0x2F) as [->|Hs]; [eexists; split; [done|]; by eexists|].
  destruct IH as (o & -> & Ho). rewrite bind_Ret. eexists. split; [done|]. by destruct o.
Qed.

Lemma parse_line_is w gate line e rest : line_is w line e ->
  exists rest', parse_line w gate (line ++ 0 :: rest) = Ret (Some (in_memory rest' (named gate e))).
Proof.
  intros (hs & ds & he & de & p1 & p2 & x & p4 & ho & dof & tail & Hline & Hs & He & Ho & Hnz & ->).
  destruct (strchr_path line rest Hnz) as (o & Estr & Hpath).
  assert (exists t, my_read_hex_ptr w (line ++ 0 :: rest) = Ret (wrap w (hex_value ds), 0x2D :: t)
    /\ t = he ++ 0x20 :: p1 :: p2 :: x :: p4 :: 0x20 :: ho ++ 0x20 :: tail ++ 0 :: rest) as (t & E1 & Et).
  { eexists. split; [|reflexivity]. rewrite Hline, <- app_assoc. cbn [app]. rewrite (read_hex_until w hs ds) by done.
    by rewrite <- app_assoc; cbn [app]; rewrite <- app_assoc. }
  unfold parse_line. rewrite E1. subst t. clear E1 Hline.
  rewrite bind_Ret. cbn [lookup list_lookup get_or_oob]. rewrite bind_Ret. cbn [Z.eqb Pos.eqb negb drop].
  rewrite drop_0, (read_hex_until w he de) by done.
  rewrite bind_Ret. cbn [lookup list_lookup get_or_oob]. rewrite bind_Ret. cbn [Z.eqb Pos.eqb negb].
  rewrite bind_Ret. cbn [drop]. rewrite drop_0, (read_hex_until w ho dof) by done.
  rewrite bind_Ret. cbn [lookup list_lookup get_or_oob]. rewrite bind_Ret. cbn [Z.eqb Pos.eqb negb].
  rewrite Estr, bind_Ret. unfold named, in_memory. cbn [e_name e_start e_end e_exec e_offset].
  destruct o as [i|].
  - destruct Hpath as (p & -> & ->). exists rest. done.
  - rewrite Hpath. destruct (negb (gate =? 0) && (_ =? gate)); [exists []|exists rest]; done.
Qed.

(** * The modules *)

(** What one entry does to the mappings. *)
Definition module_of (w : Z) (e : maps_entry) : MappingInfo :=
  Mapping (e_start e) (wrap w (e_end e - e_start e)) (e_start e) (e_end e) (e_offset e) (e_exec e)
    (match e_name e with Some nm => if (length nm <? NAME_MAX)%nat then nm else [] | None => [] end).

Definition same_module (w : Z) (m : MappingInfo) (e : maps_entry) : bool :=
  match e_name e with
  | None => false
  | Some nm =>
      (e_start e =? wrap w (start_addr m + size m)) && bool_decide (nm = name m)
      && (eqb (e_exec e) (exec m) || (negb (exec m) && e_exec e))
  end.

Definition step_entry (w : Z) (ms : list MappingInfo) (e : maps_entry) : list MappingInfo :=
  match last ms with
  | Some m => if same_module w m e then removelast ms ++ [extend w m e] else ms ++ [module_of w e]
  | None => ms ++ [module_of w e]
  end.

Definition name_ok (e : maps_entry) : Prop := match e_name e with Some nm => nonzero nm | None => True end.

Lemma string_order_same a b : length a = length b -> nonzero a -> nonzero b ->
  (sign_of (string_order a b) =? 0) = bool_decide (a = b).
Proof.
  intros Hl Ha Hb. destruct (Z.eqb_spec (sign_of (string_order a b)) 0) as [E|E]; symmetry; [apply bool_decide_eq_true|apply bool_decide_eq_false].
  - apply string_order_eq; [done|done|]. by destruct (string_order a b).
  - intros <-. apply E. by rewrite (proj2 (string_order_eq a a Ha Ha)).
Qed.

Lemma continues_spec w m e nm rest : nonzero nm -> nonzero (name m) -> e_name e = Some nm ->
  continues w m (in_memory rest e) (nm ++ 0 :: rest) = Ret (same_module w m e).
Proof.
  intros Hn Hm E. unfold continues, same_module. rewrite E. cbn [in_memory e_start e_exec].
  destruct (e_start e =? _); [|done]. cbn [negb andb].
  rewrite (my_strlen_spec nm), bind_Ret, (my_strlen_spec (name m)), bind_Ret by done.
  destruct (Nat.eqb_spec (length nm) (length (name m))) as [El|El]; cbn [negb].
  - destruct (my_strncmp_spec nm (name m) (length nm) rest [] Hn Hm) as [-> _]. rewrite bind_Ret.
    rewrite take_ge, take_ge by lia. by rewrite string_order_same.
  - rewrite bool_decide_eq_false_2; [done|]. by intros ->.
Qed.

Lemma add_entry_spec w ms e rest : name_ok e -> Forall (fun m => nonzero (name m)) ms ->
  add_entry w ms (in_memory rest e) = Ret (step_entry w ms e).
Proof.
  intros He Hms. unfold add_entry, step_entry, name_ok in *. cbn [in_memory e_name].
  assert (new_module w (in_memory rest e) = Ret (module_of w e)) as Enew.
  { unfold new_module, module_of. cbn [in_memory e_name e_start e_end e_offset e_exec].
    destruct (e_name e) as [nm|]; cbn [option_map]; [|done]. rewrite my_strlen_spec, !bind_Ret by done.
    destruct (length nm <? NAME_MAX)%nat; [|done]. by rewrite take_app_length. }
  destruct (last ms) as [m|] eqn:El.
  - destruct (e_name e) as [nm|] eqn:Enm; cbn [option_map].
    + rewrite continues_spec by (done || (rewrite Forall_forall in Hms; apply Hms; by apply last_Some_elem_of)).
      rewrite bind_Ret. destruct (same_module w m e); [done|]. by rewrite Enew.
    + rewrite bind_Ret, Enew, bind_Ret. unfold same_module. by rewrite Enm.
  - destruct (e_name e); cbn [option_map]; by rewrite bind_Ret, Enew.
Qed.

Lemma step_names w ms e : name_ok e -> Forall (fun m => nonzero (name m)) ms -> Forall (fun m => nonzero (name m)) (step_entry w ms e).
Proof.
  intros He Hms. unfold step_entry. assert (nonzero (name (module_of w e))) as Hnew.
  { unfold module_of, name_ok in *. cbn [name]. destruct (e_name e) as [nm|]; [destruct (length nm <? NAME_MAX)%nat|]; (done || constructor). }
  destruct (last ms) as [m|] eqn:El; [destruct (same_module w m e)|]; [|apply Forall_app; by repeat constructor..].
  apply last_Some in El as (ms' & ->). rewrite removelast_last. apply Forall_app in Hms as [H1 H2]. apply Forall_app.
  split; [done|]. inversion H2. by repeat constructor.
Qed.

Lemma maps_line_spec w gate ms line e rest len : line_is w line e -> Forall (fun m => nonzero (name m)) ms ->
  maps_line w gate ms len (line ++ 0 :: rest) = Ret (step_entry w ms (named gate e)) /\ name_ok (named gate e).
Proof.
  intros He Hms. unfold maps_line. destruct (parse_line_is w gate line e rest He) as (rest' & ->). rewrite bind_Ret.
  assert (name_ok (named gate e)) as Hok.
  { destruct He as (hs & ds & he & de & p1 & p2 & x & p4 & ho & dof & tail & _ & _ & _ & _ & Hnz & ->).
    unfold named, name_ok. cbn [e_name e_start]. destruct (path_of line) as [p|] eqn:Ep.
    - clear -Hnz Ep. induction Hnz as [|c line Hc Hl IH]; [done|]. cbn in Ep. destruct (c =? 0x2F); [|by apply IH].
      injection Ep as <-. by constructor.
    - destruct (negb (gate =? 0) && _); [|done]. cbn. repeat constructor; done. }
  split; [by apply add_entry_spec|done].
Qed.

(** * The invariant of the mappings *)

Section Mappings.
Variable w : Z.

(** A module covers the range that the kernel reported, and nothing else. *)
Definition module_ok (m : MappingInfo) : Prop :=
  start_addr m = sys_start_addr m /\ size m = sys_end_addr m - sys_start_addr m
  /\ 0 <= sys_start_addr m < sys_end_addr m /\ sys_end_addr m < 2 ^ w.

Definition entry_ok (e : maps_entry) : Prop := 0 <= e_start e < e_end e /\ e_end e < 2 ^ w.

Definition below (m m' : MappingInfo) : Prop := sys_end_addr m <= sys_start_addr m'.
Definition entry_below (e e' : maps_entry) : Prop := e_end e <= e_start e'.

Definition in_module (a : Z) (m : MappingInfo) : Prop := sys_start_addr m <= a < sys_end_addr m.
Definition in_entry (a : Z) (e : maps_entry) : Prop := e_start e <= a < e_end e.

(** Modules in the order of their addresses, without overlap. *)
Definition mappings_ok (ms : list MappingInfo) : Prop := Forall module_ok ms /\ StronglySorted below ms.

Lemma sorted_snoc {A} (R : A -> A -> Prop) l x : StronglySorted R l -> Forall (fun y => R y x) l -> StronglySorted R (l ++ [x]).
Proof.
  induction 1 as [|y l Hl IH Hy]; intros Hx; cbn; [by repeat constructor|]. inversion_clear Hx.
  constructor; [by apply IH|]. apply Forall_app. by repeat constructor.
Qed.

Lemma sorted_app_l {A} (R : A -> A -> Prop) l l' : StronglySorted R (l ++ l') -> StronglySorted R l.
Proof.
  induction l as [|x l IH]; cbn; [constructor|]. inversion_clear 1 as [|? ? H1 H2]. apply Forall_app in H2 as [H2 _].
  constructor; auto.
Qed.

Lemma sorted_last {A} (R : A -> A -> Prop) l x : StronglySorted R (l ++ [x]) -> Forall (fun y => R y x) l.
Proof.
  induction l as [|y l IH]; cbn; [constructor|]. inversion_clear 1 as [|? ? H1 H2]. apply Forall_app in H2 as [_ H2].
  inversion_clear H2. constructor; auto.
Qed.

Lemma step_entry_ok ms e : mappings_ok ms -> entry_ok e -> Forall (fun m => sys_end_addr m <= e_start e) ms ->
  mappings_ok (step_entry w ms e)
  /\ Forall (fun m => sys_end_addr m <= e_end e) (step_entry w ms e)
  /\ forall a, Exists (in_module a) (step_entry w ms e) <-> Exists (in_module a) ms \/ in_entry a e.
Proof.
  intros [Hms Hs] [He He'] Hb. unfold step_entry.
  assert (Hnew : mappings_ok (ms ++ [module_of w e]) /\ Forall (fun m => sys_end_addr m <= e_end e) (ms ++ [module_of w e])
    /\ forall a, Exists (in_module a) (ms ++ [module_of w e]) <-> Exists (in_module a) ms \/ in_entry a e).
  { split; [split|split].
    - apply Forall_app. split; [done|]. repeat constructor; cbn; try lia. apply wrap_small. split; lia.
    - apply sorted_snoc; [done|]. exact Hb.
    - apply Forall_app. split; [|by repeat constructor]. eapply Forall_impl; [exact Hb|]. cbn. lia.
    - intros a. rewrite Exists_app. unfold in_entry. rewrite Exists_cons, Exists_nil. unfold in_module at 2. cbn. tauto. }
  destruct (last ms) as [m|] eqn:El; [|exact Hnew]. destruct (same_module w m e) eqn:Em; [|exact Hnew]. clear Hnew.
  apply last_Some in El as (ms' & ->). rewrite removelast_last.
  apply Forall_app in Hms as [Hms' Hm]. inversion_clear Hm as [|? ? (Hm1 & Hm2 & Hm3 & Hm4) _].
  unfold same_module in Em. destruct (e_name e); [|done]. apply andb_true_iff in Em as [[Em _]%andb_true_iff _].
  apply Z.eqb_eq in Em. rewrite wrap_small in Em by (split; lia).
  split; [split|split].
  - apply Forall_app. split; [done|]. repeat constructor; cbn; try lia. rewrite wrap_small by (split; lia). lia.
  - apply sorted_snoc; [by eapply sorted_app_l|]. exact (sorted_last _ _ _ Hs).
  - apply Forall_app in Hb as [Hb _]. apply Forall_app. split; [|by repeat constructor].
    eapply Forall_impl; [exact Hb|]. cbn. lia.
  - intros a. rewrite !Exists_app, !Exists_cons, !Exists_nil. unfold in_module, in_entry. cbn.
    assert (sys_start_addr m <= a < e_end e <-> sys_start_addr m <= a < sys_end_addr m \/ e_start e <= a < e_end e) by lia. tauto.
Qed.

Lemma fold_entries_ok es : forall ms, mappings_ok ms -> Forall entry_ok es -> StronglySorted entry_below es ->
  Forall (fun m => Forall (fun e => sys_end_addr m <= e_start e) es) ms ->
  mappings_ok (fold_left (step_entry w) es ms)
  /\ forall a, Exists (in_module a) (fold_left (step_entry w) es ms) <-> Exists (in_module a) ms \/ Exists (in_entry a) es.
Proof.
  induction es as [|e es IH]; intros ms Hms He Hs Hb; cbn [fold_left].
  - split; [done|]. intros a. rewrite Exists_nil. tauto.
  - inversion_clear He as [|? ? He1 He2]. inversion_clear Hs as [|? ? Hs1 Hs2].
    destruct (step_entry_ok ms e Hms He1) as (H1 & H2 & H3).
    { eapply Forall_impl; [exact Hb|]. intros m Hm. by inversion Hm. }
    destruct (IH (step_entry w ms e) H1 He2 Hs1) as [H4 H5].
    { eapply Forall_impl; [exact H2|]. intros m Hm. eapply Forall_impl; [exact Hs2|]. unfold entry_below. cbn in *. lia. }
    split; [done|]. intros a. rewrite H5, H3, Exists_cons. tauto.
Qed.

Lemma named_ok gate e : entry_ok e -> entry_ok (named gate e).
Proof. unfold named, entry_ok. destruct (e_name e); [done|]. by destruct (negb (gate =? 0) && _). Qed.

Lemma named_range gate e : e_start (named gate e) = e_start e /\ e_end (named gate e) = e_end e.
Proof. unfold named. destruct (e_name e); [done|]. by destruct (negb (gate =? 0) && _). Qed.

End Mappings.

Lemma move_first_perm w entry ms : forall before, move_first w entry before ms ≡ₚ before ++ ms.
Proof.
  induction ms as [|m ms IH]; intros before; cbn [move_first]; [by rewrite app_nil_r|].
  destruct (_ && _); [by rewrite <- Permutation_middle|]. rewrite IH, <- app_assoc. done.
Qed.

Definition contains_entry (w entry : Z) (m : MappingInfo) : bool := (start_addr m <=? entry) && (entry <? wrap w (start_addr m + size m)).

Lemma move_first_first w entry ms : forall before, Exists (fun m => contains_entry w entry m = true) ms ->
  exists m t, move_first w entry before ms = m :: t /\ contains_entry w entry m = true.
Proof.
  induction ms as [|m ms IH]; intros before; [by rewrite Exists_nil|]. cbn [move_first]. fold (contains_entry w entry m).
  destruct (contains_entry w entry m) eqn:E; [by eexists _, _|]. rewrite Exists_cons. intros [H|H]; [congruence|]. by apply IH.
Qed.


Lemma lines_bound text : (length (lines text) <= length text + 1)%nat.
Proof.
  unfold lines. assert (forall line, (length (lines_from line text) <= length text + 1)%nat) as H; [|apply H].
  induction text as [|c t IH]; intros line; cbn [lines_from length]; [destruct line; cbn; lia|].
  destruct (is_eol c); cbn [length]; [specialize (IH []); lia|specialize (IH (line ++ [c])); lia].
Qed.

(** The loop is the fold of the entries of the lines. *)
Lemma fold_maps_lines w gate r es : wf r -> fits (pending r) -> Forall2 (line_is w) (lines (pending r)) es ->
  each_line (length (pending r) + 2) (maps_line w gate) [] r = Ret (fold_left (step_entry w) (map (named gate) es) []).
Proof.
  intros Hwf Hfit Hes.
  rewrite (each_line_spec (maps_line w gate) (step_entry w) (fun line e => exists e0, line_is w line e0 /\ e = named gate e0)
    (Forall (fun m => nonzero (name m)))) with (xs := map (named gate) es).
  - done.
  - intros ms line e rest Hms (e0 & He & ->) _. destruct (maps_line_spec w gate ms line e0 rest (length line) He Hms) as [H1 H2].
    split; [done|by apply step_names].
  - constructor.
  - done.
  - done.
  - clear -Hes. induction Hes; constructor; eauto.
  - pose proof (lines_bound (pending r)). lia.
Qed.

Lemma exists_named gate a es : Exists (in_entry a) (map (named gate) es) <-> Exists (in_entry a) es.
Proof.
  induction es as [|e es IH]; cbn [map]; [done|]. rewrite !Exists_cons, IH. unfold in_entry at 1 3.
  by destruct (named_range gate e) as [-> ->].
Qed.

(** C14: On the text of /proc/<pid>/maps, lines in the order of their addresses and
    shorter than the buffer of the reader, EnumerateMappings gives modules
    that do not overlap and cover the ranges of the lines and nothing else,
    and the one with the entry point is the first. *)
Theorem EnumerateMappings_covers w auxv gate entry r es : wf r -> fits (pending r) ->
  Forall2 (line_is w) (lines (pending r)) es -> Forall (entry_ok w) es -> StronglySorted entry_below es ->
  auxv !! Z.to_nat AT_SYSINFO_EHDR = Some gate -> auxv !! Z.to_nat AT_ENTRY = Some entry ->
  exists ms sorted, EnumerateMappings w auxv (Some r) = Ret (ms, match ms with [] => false | _ => true end)
    /\ ms ≡ₚ sorted /\ mappings_ok w sorted
    /\ (forall a, Exists (in_module a) ms <-> Exists (in_entry a) es)
    /\ (entry <> 0 -> Exists (fun m => contains_entry w entry m = true) ms ->
        exists m t, ms = m :: t /\ contains_entry w entry m = true).
Proof.
  intros Hwf Hfit Hlines Hok Hs Hgate Hentry. unfold EnumerateMappings. rewrite Hgate, Hentry. cbn [get_or_oob].
  rewrite !bind_Ret, (fold_maps_lines w gate r es), bind_Ret by done.
  destruct (fold_entries_ok w (map (named gate) es) []) as [Hms Hcov].
  - by repeat constructor.
  - apply Forall_map. eapply Forall_impl; [exact Hok|]. intros e. apply named_ok.
  - clear -Hs. induction Hs as [|e es Hs IH He]; cbn; constructor; [done|]. apply Forall_map. eapply Forall_impl; [exact He|].
    intros e'. unfold entry_below. cbn. destruct (named_range gate e) as [_ ->], (named_range gate e') as [-> _]. done.
  - constructor.
  - set (sorted := fold_left (step_entry w) (map (named gate) es) []) in *.
    set (ms := if entry =? 0 then sorted else move_first w entry [] sorted).
    assert (ms ≡ₚ sorted) as Hp by (unfold ms; destruct (entry =? 0); [done|apply (move_first_perm w entry sorted [])]).
    exists ms, sorted. split; [done|]. split; [done|]. split; [done|]. split.
    + intros a. rewrite Hp, Hcov, Exists_nil, exists_named. tauto.
    + intros Hne Hex. unfold ms in *. destruct (Z.eqb_spec entry 0); [done|]. apply move_first_first. by rewrite Hp in Hex.
Qed.

Lemma line_is_intro w s e p1 p2 x p4 hs ds he de ho dof tail :
  hs ++ 0x2D :: he ++ 0x20 :: p1 :: p2 :: x :: p4 :: 0x20 :: ho ++ 0x20 :: tail = s ->
  map hex_digit hs = map Some ds -> map hex_digit he = map Some de -> map hex_digit ho = map Some dof ->
  forallb (fun c => negb (c =? 0)) s = true ->
  MapsEntry (wrap w (hex_value ds)) (wrap w (hex_value de)) (x =? 0x78) (wrap w (hex_value dof)) (path_of s) = e ->
  line_is w s e.
Proof.
  intros Hs H1 H2 H3 H4 <-. exists hs, ds, he, de, p1, p2, x, p4, ho, dof, tail. repeat split; try done.
  unfold nonzero. rewrite Forall_forall. rewrite forallb_forall in H4. intros c Hc.
  apply list_elem_of_In, H4 in Hc. by destruct (Z.eqb_spec c 0).
Qed.

Lemma EnumerateMappings_covers_witness :
  let text := literal "1000-2000 r--p 0 08:01 7 /lib/a.so" ++ [10] ++ literal "2000-3000 r-xp 1000 08:01 7 /lib/a.so" ++ [10] in
  let p := Some (literal "/lib/a.so") in
  let es := [MapsEntry 0x1000 0x2000 false 0 p; MapsEntry 0x2000 0x3000 true 0x1000 p] in
  let r := new_line_reader (replicate 512 0) text [] in
  let auxv := <[9%nat := 0x2004]> (replicate 34 0) in
  (wf r /\ fits (pending r) /\ Forall2 (line_is 64) (lines (pending r)) es /\ Forall (entry_ok 64) es) /\
  exists ms sorted, EnumerateMappings 64 auxv (Some r) = Ret (ms, match ms with [] => false | _ => true end)
    /\ ms ≡ₚ sorted /\ mappings_ok 64 sorted
    /\ (forall a, Exists (in_module a) ms <-> Exists (in_entry a) es)
    /\ (0x2004 <> 0 -> Exists (fun m => contains_entry 64 0x2004 m = true) ms ->
        exists m t, ms = m :: t /\ contains_entry 64 0x2004 m = true).
Proof.
  intros text p es r auxv.
  assert (wf r) by (repeat split; cbn; (done || lia || by constructor)).
  assert (fits (pending r)) as Hf by (unfold fits; apply (bool_decide_unpack _); vm_compute; exact I).
  assert (Forall (entry_ok 64) es) by (repeat constructor; cbn; lia).
  assert (Forall2 (line_is 64) (lines (pending r)) es).
  { assert (lines (pending r) = [literal "1000-2000 r--p 0 08:01 7 /lib/a.so"; literal "2000-3000 r-xp 1000 08:01 7 /lib/a.so"]) as ->
      by (vm_compute; reflexivity).
    constructor; [|constructor; [|constructor]].
    - apply (line_is_intro 64 _ _ 0x72 0x2D 0x2D 0x70 (literal "1000") [1; 0; 0; 0] (literal "2000") [2; 0; 0; 0] (literal "0") [0] (literal "08:01 7 /lib/a.so")); vm_compute; reflexivity.
    - apply (line_is_intro 64 _ _ 0x72 0x2D 0x78 0x70 (literal "2000") [2; 0; 0; 0] (literal "3000") [3; 0; 0; 0] (literal "1000") [1; 0; 0; 0] (literal "08:01 7 /lib/a.so")); vm_compute; reflexivity. }
  split; [done|]. apply (EnumerateMappings_covers 64 auxv 0 0x2004 r es); try done.
  repeat constructor; unfold entry_below; cbn; lia.
Defined.

(** * Sanitizing the stack *)

Definition bit_in (table : list Z) (bit : Z) : bool :=
  match table !! table_index bit with Some b => Z.testbit b (Z.land bit 7) | None => false end.

Lemma low_bits bit : 0 <= Z.land bit 7 < 8.
Proof. change 7 with (Z.ones 3). rewrite Z.land_ones by lia. apply Z.mod_pos_bound. lia. Qed.

Lemma table_index_bound bit : (table_index bit < array_size)%nat.
Proof.
  unfold table_index, array_mask, array_size. change 255 with (Z.ones 8). rewrite Z.land_ones by lia.
  pose proof (Z.mod_pos_bound (Z.shiftr bit 3) (2 ^ 8)). change (2 ^ 8) with 256 in *. lia.
Qed.

Lemma could_hit_bit table bit : length table = array_size -> could_hit table bit = Ret (bit_in table bit).
Proof.
  intros Hlen. unfold could_hit, bit_in. destruct (lookup_lt_is_Some_2 table (table_index bit)) as [b ->].
  { rewrite Hlen. apply table_index_bound. }
  cbn [get_or_oob]. rewrite bind_Ret. unfold table_mask. rewrite land_bit by apply low_bits. by rewrite negb_involutive.
Qed.

Lemma length_set_bit table bit : length (set_bit table bit) = length table.
Proof. apply length_alter. Qed.

Lemma bit_in_set_bit table bit bit' : length table = array_size ->
  (bit = bit' \/ bit_in table bit' = true) -> bit_in (set_bit table bit) bit' = true.
Proof.
  intros Hlen H. unfold bit_in, set_bit in *.
  destruct (lookup_lt_is_Some_2 table (table_index bit')) as [b Eb]; [rewrite Hlen; apply table_index_bound|]. rewrite Eb in H.
  pose proof (low_bits bit) as Hb. pose proof (low_bits bit') as Hb'.
  destruct (decide (table_index bit = table_index bit')) as [Ei|Ei].
  - rewrite Ei, list_lookup_alter_eq, Eb. cbn [fmap option_fmap option_map]. rewrite wrap_testbit by lia.
    apply andb_true_iff. split; [apply Z.ltb_lt; lia|]. rewrite Z.lor_spec. apply orb_true_iff.
    destruct H as [->|H]; [right|by left]. unfold table_mask. rewrite Z.shiftl_spec, Z.sub_diag by lia. done.
  - rewrite list_lookup_alter_ne, Eb by done. destruct H as [->|H]; done.
Qed.

Lemma set_bits_spec n : forall bit table, length table = array_size ->
  length (set_bits n bit table) = array_size
  /\ forall bit', bit <= bit' < bit + Z.of_nat n \/ bit_in table bit' = true -> bit_in (set_bits n bit table) bit' = true.
Proof.
  induction n as [|n IH]; intros bit table Hlen; cbn [set_bits].
  - split; [done|]. intros bit' [H|H]; [lia|done].
  - destruct (IH (bit + 1) (set_bit table bit)) as [H1 H2]; [by rewrite length_set_bit|]. split; [done|].
    intros bit' H. apply H2. destruct (decide (bit = bit')) as [->|Hne]; [right; apply bit_in_set_bit; auto|].
    destruct H as [H|H]; [left; lia|right; apply bit_in_set_bit; auto].
Qed.

(** The range that a mapping has after the load bias holds the one the kernel
    reported. *)
Definition biased_ok (w : Z) (m : MappingInfo) : Prop :=
  0 <= start_addr m <= sys_start_addr m /\ sys_start_addr m <= sys_end_addr m <= start_addr m + size m
  /\ start_addr m + size m < 2 ^ w.

Lemma table_spec w ms : Forall (biased_ok w) ms ->
  length (could_hit_mapping w ms) = array_size
  /\ forall m a, m ∈ ms -> exec m = true -> in_module a m -> bit_in (could_hit_mapping w ms) (Z.shiftr a shift) = true.
Proof.
  intros Hms. unfold could_hit_mapping.
  assert (H : forall table, length table = array_size -> let t := fold_left (fun table m =>
    if negb (exec m) then table
    else
      let start := Z.shiftr (start_addr m) shift in
      let end_ := Z.shiftr (wrap w (start_addr m + size m)) shift in
      set_bits (Z.to_nat (end_ + 1 - start)) start table) ms table in
    length t = array_size /\ (forall bit, bit_in table bit = true -> bit_in t bit = true)
    /\ forall m a, m ∈ ms -> exec m = true -> in_module a m -> bit_in t (Z.shiftr a shift) = true).
  { induction Hms as [|m ms (Hm1 & Hm2 & Hm3) _ IH]; intros table Hlen; cbn [fold_left].
    - repeat split; (done || intros m a Hm; by apply elem_of_nil in Hm).
    - destruct (exec m) eqn:Ex; cbn [negb].
      + rewrite wrap_small by (split; unfold in_module in *; lia).
        set (start := Z.shiftr (start_addr m) shift). set (end_ := Z.shiftr (start_addr m + size m) shift).
        destruct (set_bits_spec (Z.to_nat (end_ + 1 - start)) start table Hlen) as [H1 H2].
        destruct (IH _ H1) as (H3 & H4 & H5). split; [done|]. split; [intros bit Hb; apply H4, H2; auto|].
        intros m' a [->|Hm']%elem_of_cons Ex' Ha; [|by apply (H5 m')]. apply H4, H2. left.
        unfold in_module in Ha. unfold start, end_. rewrite !Z.shiftr_div_pow2 by (unfold shift; lia).
        assert (0 < 2 ^ shift) by (apply Z.pow_pos_nonneg; unfold shift; lia).
        pose proof (Z.div_le_mono (start_addr m) a (2 ^ shift) ltac:(done) ltac:(lia)).
        pose proof (Z.div_le_mono a (start_addr m + size m) (2 ^ shift) ltac:(done) ltac:(lia)). lia.
      + destruct (IH _ Hlen) as (H3 & H4 & H5). split; [done|]. split; [done|].
        intros m' a [->|Hm']%elem_of_cons Ex' Ha; [congruence|by apply (H5 m')]. }
  destruct (H (replicate array_size 0)) as (H1 & _ & H2); [done|]. done.
Qed.

(** No address is in two mappings. *)
Definition disjoint (ms : list MappingInfo) : Prop :=
  forall a m m', m ∈ ms -> m' ∈ ms -> in_module a m -> in_module a m' -> m = m'.

Lemma find_no_bias ms a m : disjoint ms -> m ∈ ms -> in_module a m -> FindMappingNoBias ms a = Some m.
Proof.
  intros Hd Hm Ha. unfold FindMappingNoBias. destruct (List.find _ ms) as [m'|] eqn:E.
  - apply List.find_some in E as [Hin E]. apply andb_true_iff in E as [E1%Z.leb_le E2%Z.ltb_lt]. f_equal.
    apply (Hd a); [by apply list_elem_of_In|done|by split|done].
  - apply list_elem_of_In in Hm. pose proof (List.find_none _ _ E m Hm) as Hn. cbn in Hn. unfold in_module in Ha.
    apply andb_false_iff in Hn as [Hn%Z.leb_gt|Hn%Z.ltb_ge]; lia.
Qed.

Lemma find_no_bias_in ms a m : FindMappingNoBias ms a = Some m -> m ∈ ms /\ in_module a m.
Proof.
  intros E. apply List.find_some in E as [Hin E]. apply andb_true_iff in E as [E1%Z.leb_le E2%Z.ltb_lt].
  split; [by apply list_elem_of_In|by split].
Qed.

Lemma sorted_disjoint w ms : mappings_ok w ms -> disjoint ms.
Proof.
  intros [Hok Hs] a m m' Hm Hm' Ha Ha'. unfold in_module in *. induction Hs as [|x ms Hs IH Hx]; [by apply elem_of_nil in Hm|].
  inversion_clear Hok. rewrite Forall_forall in Hx. unfold below in Hx.
  apply elem_of_cons in Hm as [->|Hm], Hm' as [->|Hm']; [done| | |by apply IH].
  - specialize (Hx m' Hm'). lia.
  - specialize (Hx m Hm). lia.
Qed.

(** The words that stay: small integers, addresses in the stack, and addresses
    in an executable mapping. *)
Definition keeps (w : Z) (ms : list MappingInfo) (stack_mapping : option MappingInfo) (a : Z) : bool :=
  (- small_int_magnitude <=? swrap w a) && (swrap w a <=? small_int_magnitude)
  || match stack_mapping with Some m => MappingContainsAddress m a | None => false end
  || match FindMappingNoBias ms a with Some m => exec m | None => false end.

Fixpoint clean_words (w : Z) (word n : nat) (ms : list MappingInfo) (stack_mapping : option MappingInfo) (sp : list Z) : list Z :=
  match n with
  | O => replicate (length sp) 0
  | S n =>
      (if keeps w ms stack_mapping (le_val (take word sp)) then take word sp else le_bytes word (defaced w))
      ++ clean_words w word n ms stack_mapping (drop word sp)
  end.

Lemma keep_word_spec w ms stack_mapping last a : Forall (biased_ok w) ms -> disjoint ms ->
  (forall m, last = Some m -> m ∈ ms /\ exec m = true) ->
  exists last', keep_word w ms (could_hit_mapping w ms) stack_mapping last a = Ret (keeps w ms stack_mapping a, last')
    /\ forall m, last' = Some m -> m ∈ ms /\ exec m = true.
Proof.
  intros Hb Hd Hl. destruct (table_spec w ms Hb) as [Hlen Htable]. unfold keep_word, keeps. rewrite (andb_comm (- _ <=? _)).
  destruct (_ && _); cbn [orb]; [by exists last|].
  destruct (match stack_mapping with Some m => MappingContainsAddress m a | None => false end); cbn [orb]; [by exists last|].
  destruct (match last with Some m => MappingContainsAddress m a | None => false end) eqn:El.
  { destruct last as [m|]; [|done]. destruct (Hl m eq_refl) as [Hm Hx]. exists (Some m). split; [|done].
    unfold MappingContainsAddress in El. apply andb_true_iff in El as [E1%Z.leb_le E2%Z.ltb_lt].
    by rewrite (find_no_bias ms a m), Hx by done. }
  rewrite could_hit_bit, bind_Ret by done.
  destruct (FindMappingNoBias ms a) as [m|] eqn:Ef; [|by destruct (bit_in _ _); exists last].
  destruct (find_no_bias_in ms a m Ef) as [Hm Ha]. destruct (exec m) eqn:Ex.
  - rewrite (Htable m a) by done. exists (Some m). split; [done|]. by intros m' [= <-].
  - destruct (bit_in _ _); by exists last.
Qed.

Lemma sanitize_words_spec w word ms stack_mapping : Forall (biased_ok w) ms -> disjoint ms -> forall n last sp,
  (n * word <= length sp)%nat -> (forall m, last = Some m -> m ∈ ms /\ exec m = true) ->
  sanitize_words w word n ms (could_hit_mapping w ms) stack_mapping last sp = Ret (clean_words w word n ms stack_mapping sp).
Proof.
  intros Hb Hd. induction n as [|n IH]; intros last sp Hlen Hl; cbn [sanitize_words clean_words]; [done|].
  rewrite load_in_bounds, bind_Ret by lia. rewrite drop_0.
  destruct (keep_word_spec w ms stack_mapping last (le_val (take word sp)) Hb Hd Hl) as (last' & -> & Hl'). rewrite bind_Ret.
  rewrite IH by (rewrite ?length_drop; (done || lia)). done.
Qed.

(** C24: The three optimisations of SanitizeStackCopy, the caches of the stack and of
    the last hit and the table of address bits, do not change what it does:
    zeros below the stack pointer, then every word that is small, points into
    the stack or into an executable mapping stays and any other is defaced,
    and zeros in the part of a word at the top. *)
Theorem SanitizeStackCopy_spec w ms stack_copy stack_pointer sp_offset :
  let word := Z.to_nat (w / 8) in
  let off := Z.to_nat (sp_aligned (w / 8) sp_offset) in
  Forall (biased_ok w) ms -> disjoint ms -> (off <= length stack_copy)%nat -> (0 < word)%nat ->
  SanitizeStackCopy w ms stack_copy stack_pointer sp_offset =
    Ret (replicate off 0 ++ clean_words w word ((length stack_copy - off) / word) ms (FindMappingNoBias ms stack_pointer) (drop off stack_copy)).
Proof.
  intros word off Hb Hd Hoff Hword. unfold SanitizeStackCopy, my_memset. fold word off.
  rewrite store_in_bounds, bind_Ret by (rewrite length_replicate; lia). rewrite take_0, app_nil_l, length_replicate, Nat.add_0_l.
  rewrite drop_app_length' by (by rewrite length_replicate). rewrite length_app, length_replicate, length_drop.
  replace (off + (length stack_copy - off) - off)%nat with (length stack_copy - off)%nat by lia.
  rewrite sanitize_words_spec; [|done|done| |done].
  - rewrite bind_Ret. by rewrite take_app_length' by (by rewrite length_replicate).
  - rewrite length_drop. pose proof (Nat.div_mod (length stack_copy - off) word). lia.
Qed.

Definition sample_mappings : list MappingInfo :=
  [Mapping 0x7000 0x2000 0x7000 0x9000 0 false []; Mapping 0x1000 0x1000 0x1000 0x2000 0 true (literal "/a")].

Lemma SanitizeStackCopy_spec_witness :
  let copy := replicate 8 7 ++ le_bytes 8 0x123456 ++ le_bytes 8 0x1800 ++ [1; 2; 3] in
  let word := Z.to_nat (64 / 8) in
  let off := Z.to_nat (sp_aligned (64 / 8) 5) in
  (Forall (biased_ok 64) sample_mappings /\ disjoint sample_mappings /\ (off <= length copy)%nat /\ (0 < word)%nat) /\
  SanitizeStackCopy 64 sample_mappings copy 0x7005 5 =
    Ret (replicate off 0 ++ clean_words 64 word ((length copy - off) / word) sample_mappings (FindMappingNoBias sample_mappings 0x7005) (drop off copy)).
Proof.
  intros copy word off. assert (Forall (biased_ok 64) sample_mappings) by (repeat constructor; cbn; lia).
  assert (disjoint sample_mappings).
  { intros a m m' Hm Hm' Ha Ha'. unfold in_module in *.
    apply elem_of_cons in Hm as [->|Hm]; apply elem_of_cons in Hm' as [->|Hm']; try done;
      try (apply list_elem_of_singleton in Hm as ->); try (apply list_elem_of_singleton in Hm' as ->); cbn in *; (done || lia). }
  assert (off <= length copy)%nat by (vm_compute; lia). assert (0 < word)%nat by (vm_compute; lia).
  split; [done|]. by apply SanitizeStackCopy_spec.
Defined.

Example sanitized :
  SanitizeStackCopy 64 sample_mappings (replicate 8 7 ++ le_bytes 8 0x123456 ++ le_bytes 8 0x1800 ++ [1; 2; 3]) 0x7005 5
    = Ret (replicate 8 0 ++ le_bytes 8 0x0defaced0defaced ++ le_bytes 8 0x1800 ++ [0; 0; 0]).
Proof. vm_compute. reflexivity. Qed.

(** The words of the copy from the stack pointer on. *)
Fixpoint words_of (word n : nat) (sp : list Z) : list Z :=
  match n with O => [] | S n => le_val (take word sp) :: words_of word n (drop word sp) end.

(** A word counts as a pointer into the mapping also when it is the address of
    its end. *)
Theorem StackHasPointerToMapping_spec w stack_copy sp_offset mapping :
  let word := Z.to_nat (w / 8) in
  let off := Z.to_nat (sp_aligned (w / 8) sp_offset) in
  StackHasPointerToMapping w stack_copy sp_offset mapping = true <->
  Exists (fun a => sys_start_addr mapping <= a <= sys_end_addr mapping)
    (words_of word ((length stack_copy - off) / word) (drop off stack_copy)).
Proof.
  intros word off. unfold StackHasPointerToMapping. fold word off. generalize ((length stack_copy - off) / word)%nat as n.
  generalize (drop off stack_copy) as sp. intros sp n. revert sp. induction n as [|n IH]; intros sp; cbn [pointer_to words_of].
  - by rewrite Exists_nil.
  - rewrite orb_true_iff, IH, Exists_cons, andb_true_iff, !Z.leb_le. done.
Qed.

(** ** The stack *)

(** GetStackInfo gives a range that starts at the page of the stack pointer, is
    not empty, has at most 32k and lies in the mapping of that page. *)
Theorem GetStackInfo_inside w k ms sp m : 0 <= k -> 0 < w ->
  FindMapping ms (Z.ldiff sp (2 ^ k - 1)) = Some m -> 0 <= start_addr m -> start_addr m + size m < 2 ^ (w - 1) ->
  exists len, GetStackInfo w (2 ^ k) ms sp = Some (Z.ldiff sp (2 ^ k - 1), len)
    /\ 0 < len <= kStackToCapture
    /\ start_addr m <= Z.ldiff sp (2 ^ k - 1) /\ Z.ldiff sp (2 ^ k - 1) + len <= start_addr m + size m.
Proof.
  intros Hk Hw Hf Hs Hlt. unfold GetStackInfo. rewrite Hf. eexists. split; [reflexivity|].
  apply List.find_some in Hf as [_ Hf]. apply andb_true_iff in Hf as [H1%Z.leb_le H2%Z.ltb_lt].
  rewrite (swrap_small w (size m)) by lia. rewrite (swrap_small w (_ - start_addr m)) by lia. rewrite swrap_small by lia.
  unfold kStackToCapture. destruct (Z.ltb_spec (32 * 1024) (size m - (Z.ldiff sp (2 ^ k - 1) - start_addr m))); lia.
Qed.

Lemma GetStackInfo_inside_witness :
  (0 <= 12 /\ 0 < 64 /\ FindMapping sample_mappings (Z.ldiff 0x7005 (2 ^ 12 - 1)) = Some (Mapping 0x7000 0x2000 0x7000 0x9000 0 false [])) /\
  exists len, GetStackInfo 64 (2 ^ 12) sample_mappings 0x7005 = Some (Z.ldiff 0x7005 (2 ^ 12 - 1), len)
    /\ 0 < len <= kStackToCapture
    /\ 0x7000 <= Z.ldiff 0x7005 (2 ^ 12 - 1) /\ Z.ldiff 0x7005 (2 ^ 12 - 1) + len <= 0x7000 + 0x2000.
Proof.
  assert (FindMapping sample_mappings (Z.ldiff 0x7005 (2 ^ 12 - 1)) = Some (Mapping 0x7000 0x2000 0x7000 0x9000 0 false [])) as Hf
    by (vm_compute; reflexivity).
  split; [split; [lia|split; [lia|done]]|].
  apply (GetStackInfo_inside 64 12 sample_mappings 0x7005 _ ltac:(lia) ltac:(lia) Hf); cbn; lia.
Defined.

(** ** The load bias *)

Section Bias.
Context (w : Z) (ehdr_at : Z -> ehdr) (phdr_at : Z -> phdr) (d_tag_at : Z -> Z) (sizeof_phdr sizeof_dyn : Z).

Lemma program_headers_min n : forall addr min_vaddr dv dc,
  let '(mv, _, _) := program_headers w phdr_at sizeof_phdr sizeof_dyn n addr min_vaddr dv dc in mv <= min_vaddr.
Proof.
  induction n as [|n IH]; intros addr min_vaddr dv dc; cbn [program_headers]; [lia|].
  set (p := phdr_at addr). destruct (if p_type p =? PT_DYNAMIC then _ else _) as [dv' dc'].
  specialize (IH (wrap w (addr + sizeof_phdr)) (if (p_type p =? PT_LOAD) && (p_vaddr p <? min_vaddr) then p_vaddr p else min_vaddr) dv' dc').
  destruct (program_headers _ _ _ _ _ _ _ _ _) as [[mv ?] ?].
  destruct (_ && (p_vaddr p <? min_vaddr)) eqn:E; [|done]. apply andb_true_iff in E as [_ E%Z.ltb_lt]. lia.
Qed.

(** The post-processing moves the start of a module by its bias and keeps its
    end, and it leaves the range of the kernel alone. *)
Theorem postprocess_keeps_end m : 0 <= w ->
  let m' := postprocess w ehdr_at phdr_at d_tag_at sizeof_phdr sizeof_dyn m in
  wrap w (start_addr m' + size m') = wrap w (start_addr m + size m)
  /\ sys_start_addr m' = sys_start_addr m /\ sys_end_addr m' = sys_end_addr m
  /\ offset m' = offset m /\ exec m' = exec m /\ name m' = name m.
Proof.
  intros Hw m'. unfold m', postprocess. destruct (negb _); [done|]. cbn [GetLoadedElfHeader]. unfold GetLoadedElfHeader.
  destruct (negb _); [done|]. destruct (_ =? ET_DYN); [|done]. cbn. split; [|done].
  rewrite wrap_add_r. f_equal. lia.
Qed.

(** Without packed relocations, or with the first segment at 0, nothing moves. *)
Theorem no_bias m : (forall a, d_tag_at a <> DT_ANDROID_REL /\ d_tag_at a <> DT_ANDROID_RELA) -> in_range w (size m) ->
  postprocess w ehdr_at phdr_at d_tag_at sizeof_phdr sizeof_dyn m = m.
Proof.
  intros Htags Hsize. unfold postprocess. destruct (negb _); [done|]. unfold GetLoadedElfHeader. destruct (negb _); [done|].
  destruct (_ =? ET_DYN); [|done].
  assert (forall n a, packed_tags w d_tag_at sizeof_dyn n a = false) as Hp.
  { induction n as [|n IH]; intros a; [done|]. cbn [packed_tags]. destruct (Htags a) as [H1 H2].
    apply Z.eqb_neq in H1, H2. by rewrite H1, H2, IH. }
  unfold GetEffectiveLoadBias. destruct (ParseLoadedElfProgramHeaders _ _ _ _ _ _) as [[mv dv] dc].
  assert ((if negb (mv =? 0) then
    if HasAndroidPackedRelocations w d_tag_at sizeof_dyn (wrap w (start_addr m - mv)) dv dc then wrap w (start_addr m - mv) else start_addr m
    else start_addr m) = start_addr m) as ->.
  { unfold HasAndroidPackedRelocations. rewrite Hp. by destruct (negb _). }
  rewrite Z.sub_diag, Z.add_0_r, wrap_small by done. by destruct m.
Qed.

End Bias.

(** ** Paths *)

Theorem IsMappedFileOpenUnsafe_spec m : nonzero (name m) ->
  IsMappedFileOpenUnsafe m = Ret (bool_decide (take 5 (name m) = kMappedFileUnsafePrefix)).
Proof.
  intros Hn. unfold IsMappedFileOpenUnsafe.
  assert (nonzero kMappedFileUnsafePrefix) as Hp by (repeat constructor; done).
  destruct (my_strncmp_spec (name m) kMappedFileUnsafePrefix (length kMappedFileUnsafePrefix) [] [] Hn Hp) as [-> _].
  rewrite bind_Ret. f_equal. rewrite (take_ge kMappedFileUnsafePrefix) by done. change (length kMappedFileUnsafePrefix) with 5%nat.
  destruct (Z.eqb_spec (sign_of (string_order (take 5 (name m)) kMappedFileUnsafePrefix)) 0) as [E|E]; symmetry;
    [apply bool_decide_eq_true|apply bool_decide_eq_false].
  - apply string_order_eq; [by apply Forall_take|done|]. by destruct (string_order _ _).
  - intros Eq. apply E. rewrite Eq. done.
Qed.

(** The path of a mapping under the root prefix, or a failure when it does not
    fit the array. *)
Theorem GetMappingAbsolutePath_spec root_prefix m path : nonzero root_prefix -> nonzero (name m) -> length path = PATH_MAX ->
  exists path', length path' = PATH_MAX /\
  GetMappingAbsolutePath root_prefix m path = Ret (bool_decide (length root_prefix + length (name m) < PATH_MAX)%nat, path')
  /\ ((length root_prefix + length (name m) < PATH_MAX)%nat -> exists rest, path' = root_prefix ++ name m ++ 0 :: rest).
Proof.
  intros Hr Hn Hlen. unfold GetMappingAbsolutePath.
  assert (0 < PATH_MAX)%nat by (unfold PATH_MAX; lia).
  rewrite my_strlcpy_spec, bind_Ret by (done || lia).
  set (t := take (PATH_MAX - 1) root_prefix). set (rest := drop (S (length t)) path).
  assert (length t = min (PATH_MAX - 1) (length root_prefix)) as Ht by (unfold t; by rewrite length_take).
  assert (length (t ++ 0 :: rest) = PATH_MAX) as Hl by (rewrite length_app; unfold rest; cbn [length]; rewrite length_drop; lia).
  destruct (Nat.ltb_spec (length root_prefix) PATH_MAX).
  - assert (t = root_prefix) as Et by (unfold t; apply take_ge; lia). rewrite Et in *.
    rewrite length_app in Hl. cbn [length] in Hl. rewrite my_strlcat_spec, bind_Ret by (done || lia).
    eexists. split; [|split].
    2: { f_equal. f_equal. symmetry. destruct (Nat.ltb_spec (length root_prefix + length (name m)) PATH_MAX);
      [by apply bool_decide_eq_true|apply bool_decide_eq_false; lia]. }
    + rewrite !length_app, length_cons, length_drop, length_take. lia.
    + intros Hfit. eexists. rewrite take_ge by lia. reflexivity.
  - eexists. split; [exact Hl|]. split; [|lia]. f_equal. f_equal. symmetry. apply bool_decide_eq_false. lia.
Qed.

(** The text after the last slash. *)
Fixpoint basename_of (s : list Z) : list Z :=
  match s with
  | [] => []
  | c :: t => if bool_decide (0x2F ∈ t) then basename_of t else if c =? 0x2F then t else s
  end.

Lemma strrchr_basename s rest : nonzero s -> forall i ret, exists o, strrchr_loop (s ++ 0 :: rest) 0x2F i ret = Ret o /\
  match o with
  | Some j => if bool_decide (0x2F ∈ s) then (i <= j)%nat /\ drop (j - i + 1) (s ++ 0 :: rest) = basename_of s ++ 0 :: rest else ret = Some j
  | None => ret = None
  end /\ (0x2F ∉ s -> basename_of s = s /\ o = ret).
Proof.
  induction 1 as [|c s Hc _ IH]; intros i ret; cbn [app strrchr_loop].
  - exists ret. split; [done|]. split; [|done]. destruct ret; [|done]. rewrite bool_decide_eq_false_2; [done|apply not_elem_of_nil].
  - destruct (Z.eqb_spec c 0); [done|]. destruct (IH (S i) (if c =? 0x2F then Some i else ret)) as (o & -> & Ho & Hno).
    exists o. split; [done|]. cbn [basename_of].
    destruct (decide (0x2F ∈ s)) as [Hin|Hin].
    + rewrite (bool_decide_eq_true_2 (0x2F ∈ s)) in * by done. rewrite bool_decide_eq_true_2 by (by right).
      split; [|intros Hc'; exfalso; apply Hc'; by right]. destruct o as [j|]; [|by destruct (c =? 0x2F)].
      destruct Ho as [Hle Hd]. split; [lia|]. replace (j - i + 1)%nat with (S (j - S i + 1)) by lia. exact Hd.
    + rewrite (bool_decide_eq_false_2 (0x2F ∈ s)) in * by done. destruct (Hno Hin) as [Hb ->]. destruct (Z.eqb_spec c 0x2F) as [->|Hs].
      * rewrite bool_decide_eq_true_2 by (by left). split; [|intros Hc'; exfalso; apply Hc'; by left].
        split; [done|]. rewrite Nat.sub_diag. done.
      * assert (0x2F ∉ c :: s) as Hnot by (rewrite not_elem_of_cons; split; [done|done]).
        rewrite bool_decide_eq_false_2 by done. split; [by destruct ret|done].
Qed.

(** The usual case: the path of the mapping and its last component, cut to the
    arrays. *)
Theorem effective_name_common soname m file_path file_path_size file_name file_name_size :
  exec m && negb (offset m =? 0) = false -> nonzero (name m) ->
  (0 < file_path_size <= length file_path)%nat -> (0 < file_name_size <= length file_name)%nat ->
  exists rest rest',
  GetMappingEffectiveNameAndPath soname m file_path file_path_size file_name file_name_size =
    Ret (take (file_path_size - 1) (name m) ++ 0 :: rest,
         take (file_name_size - 1) (basename_of (take (file_path_size - 1) (name m))) ++ 0 :: rest').
Proof.
  intros Hx Hn Hp Hf. unfold GetMappingEffectiveNameAndPath. rewrite my_strlcpy_spec, bind_Ret by done. rewrite Hx.
  set (p := take (file_path_size - 1) (name m)). set (rest := drop (S (length p)) file_path).
  assert (nonzero p) as Hnp by (by apply Forall_take).
  destruct (strrchr_basename p rest Hnp 0 None) as (o & E & Ho & Hno). unfold my_strrchr. rewrite E, bind_Ret.
  assert (match o with None => p ++ 0 :: rest | Some i => drop (i + 1) (p ++ 0 :: rest) end = basename_of p ++ 0 :: rest) as ->.
  { destruct o as [j|].
    - destruct (bool_decide _); [|done]. destruct Ho as [_ <-]. by rewrite Nat.sub_0_r.
    - destruct (decide (0x2F ∈ p)) as [Hin|Hin]; [|by rewrite (proj1 (Hno Hin))]. exfalso.
      clear -E Hin Hnp. assert (forall s i ret, nonzero s -> (0x2F ∈ s \/ ret <> None) -> strrchr_loop (s ++ 0 :: rest) 0x2F i ret <> Ret None) as H.
      { clear. induction s as [|c s IH]; intros i ret Hn [H|H]; cbn [app strrchr_loop].
        - by apply elem_of_nil in H.
        - cbn. by destruct ret.
        - apply nonzero_cons in Hn as [Hc Hn]. destruct (Z.eqb_spec c 0); [done|]. apply IH; [done|].
          apply elem_of_cons in H as [<-|H]; [by right|by left].
        - apply nonzero_cons in Hn as [Hc Hn]. destruct (Z.eqb_spec c 0); [done|]. apply IH; [done|]. right. by destruct (c =? 0x2F). }
      by apply (H p 0%nat None Hnp); [left|]. }
  assert (nonzero (basename_of p)) as Hnb.
  { clear -Hnp. induction Hnp as [|c s Hc Hs IH]; [constructor|]. cbn. destruct (bool_decide _); [exact IH|].
    destruct (c =? 0x2F); [exact Hs|by constructor]. }
  rewrite my_strlcpy_spec, bind_Ret by done. do 2 eexists. reflexivity.
Qed.
