(* ===== verification/PageAlloc.v ===== *)
(** The page allocator of the dump writers: common/memory_allocator.h of
    libbreakpad.

    An address is a number, and [mmap] gives the area it maps or fails. The
    list of PageHeaders, each at the start of its pages, is a list of the areas,
    the last one first. *)
From S2P Require Import Prelude.

(** [sizeof(PageHeader)], a pointer and a size. *)
Definition header_size (w : Z) : Z := 2 * (w / 8).

Record page_allocator := PageAllocator {
  page_size_ : Z;
  last_ : list (Z * Z);
  current_page_ : option Z;
  page_offset_ : Z;
  pages_allocated_ : Z
}.

Definition new_allocator (page_size : Z) : page_allocator := PageAllocator page_size [] None 0 0.

Section Allocator.

(** The width of [size_t]. *)
Variable w : Z.

(** [a] is the result of the call of mmap. *)
Definition GetNPages (p : page_allocator) (num_pages : Z) (a : option Z) : option Z * page_allocator :=
  match a with
  | None => (None, p)
  | Some a =>
      (Some a, PageAllocator (page_size_ p) ((a, num_pages) :: last_ p) (current_page_ p) (page_offset_ p)
                 (wrap w (pages_allocated_ p + num_pages)))
  end.

(** The length that mmap is asked for, or nothing when it is not called. *)
Definition pages_for (p : page_allocator) (bytes : Z) : Z :=
  wrap w (bytes + header_size w + page_size_ p - 1) / page_size_ p.

Definition in_current (p : page_allocator) (bytes : Z) : option Z :=
  match current_page_ p with
  | Some c => if bytes <=? page_size_ p - page_offset_ p then Some c else None
  | None => None
  end.

Definition Alloc (p : page_allocator) (bytes : Z) (mmap : option Z) : option Z * page_allocator :=
  if bytes =? 0 then (None, p)
  else
    match in_current p bytes with
    | Some c =>
        let off := page_offset_ p + bytes in
        (Some (c + page_offset_ p),
         if off =? page_size_ p then PageAllocator (page_size_ p) (last_ p) None 0 (pages_allocated_ p)
         else PageAllocator (page_size_ p) (last_ p) (Some c) off (pages_allocated_ p))
    | None =>
        let pages := pages_for p bytes in
        match GetNPages p pages mmap with
        | (None, p) => (None, p)
        | (Some ret, p) =>
            let off := wrap w (page_size_ p - wrap w (page_size_ p * pages - wrap w (bytes + header_size w))) mod page_size_ p in
            (Some (ret + header_size w),
             PageAllocator (page_size_ p) (last_ p) (if off =? 0 then None else Some (ret + page_size_ p * (pages - 1))) off
               (pages_allocated_ p))
        end
    end.

Definition OwnsPointer (p : page_allocator) (addr : Z) : bool :=
  existsb (fun '(a, n) => (a <=? addr) && (addr <? a + n * page_size_ p)) (last_ p).

(** The areas that are unmapped, in order. *)
Definition FreeAll (p : page_allocator) : list (Z * Z) := map (fun '(a, n) => (a, n * page_size_ p)) (last_ p).

(** PageStdAllocator: [stackdata] and its size, and the allocator behind. *)
Definition allocate (p : page_allocator) (stackdata : option Z) (stackdata_size sizeof_T n : Z) (mmap : option Z)
    : option Z * page_allocator :=
  let size := wrap w (sizeof_T * n) in
  if size <=? stackdata_size then (stackdata, p) else Alloc p size mmap.

(** * The blocks that are handed out *)

(** A range of memory: an address and a length. *)
Definition range : Type := Z * Z.
Definition within (r s : range) : Prop := s.1 <= r.1 /\ r.1 + r.2 <= s.1 + s.2.
Definition apart (r s : range) : Prop := r.1 + r.2 <= s.1 \/ s.1 + s.2 <= r.1.

(** The areas of the pages, the headers in them, and what is free in the last
    page. *)
Definition area (p : page_allocator) (h : Z * Z) : range := (h.1, h.2 * page_size_ p).
Definition header (h : Z * Z) : range := (h.1, header_size w).
Definition free_part (p : page_allocator) : list range :=
  match current_page_ p with Some c => [(c + page_offset_ p, page_size_ p - page_offset_ p)] | None => [] end.

Fixpoint pairwise (l : list range) : Prop :=
  match l with [] => True | r :: t => Forall (apart r) t /\ pairwise t end.

(** The state of the allocator after it has handed out [blocks]. *)
Definition allocator_ok (p : page_allocator) (blocks : list range) : Prop :=
  0 < page_size_ p
  /\ pairwise (free_part p ++ blocks ++ map header (last_ p))
  /\ pairwise (map (area p) (last_ p))
  /\ Forall (fun r => 0 < r.2 /\ Exists (fun h => within r (area p h)) (last_ p)) (free_part p ++ blocks ++ map header (last_ p)).

(** What mmap promises: an area apart from those it has given. *)
Definition fresh (p : page_allocator) (bytes : Z) (mmap : option Z) : Prop :=
  match mmap with
  | Some a => in_current p bytes = None -> Forall (apart (a, pages_for p bytes * page_size_ p)) (map (area p) (last_ p))
  | None => True
  end.

(** The size of the pages for a request can be computed without overflow. *)
Definition fits (p : page_allocator) (bytes : Z) : Prop := 0 <= bytes /\ bytes + header_size w + page_size_ p - 1 < 2 ^ w.

Lemma apart_sym r s : apart r s -> apart s r.
Proof. unfold apart. tauto. Qed.

Lemma apart_within r r' s s' : within r r' -> within s s' -> apart r' s' -> apart r s.
Proof. unfold within, apart. lia. Qed.

Lemma pairwise_app l l' : pairwise (l ++ l') <-> pairwise l /\ pairwise l' /\ Forall (fun r => Forall (apart r) l') l.
Proof.
  induction l as [|r l IH]; cbn [app pairwise].
  - split; [intros H; repeat split; (done || constructor)|tauto].
  - rewrite Forall_app, Forall_cons, IH. tauto.
Qed.

Hypothesis Hw : 16 <= w.

Lemma header_size_pos : 0 < header_size w.
Proof. unfold header_size. pose proof (Z.div_le_mono 16 w 8 ltac:(lia) Hw). change (16 / 8) with 2 in *. lia. Qed.

(** The pages for a request, and the offset after it. *)
Lemma pages_for_spec p bytes : 0 < page_size_ p -> 0 < bytes -> fits p bytes ->
  let pages := pages_for p bytes in
  let off := wrap w (page_size_ p - wrap w (page_size_ p * pages - wrap w (bytes + header_size w))) mod page_size_ p in
  0 < pages /\ bytes + header_size w <= pages * page_size_ p
  /\ (off = 0 \/ (0 < off < page_size_ p /\ page_size_ p * (pages - 1) + off = bytes + header_size w)).
Proof.
  intros Hp Hb [_ Hs] pages off. pose proof header_size_pos.
  assert (pages = (bytes + header_size w + page_size_ p - 1) / page_size_ p) as Epages.
  { unfold pages, pages_for. by rewrite wrap_small by (split; lia). }
  clearbody pages.
  assert (bytes + header_size w <= pages * page_size_ p < bytes + header_size w + page_size_ p) as HN.
  { rewrite Epages. pose proof (Z.div_mod (bytes + header_size w + page_size_ p - 1) (page_size_ p) ltac:(lia)).
    pose proof (Z.mod_pos_bound (bytes + header_size w + page_size_ p - 1) (page_size_ p) Hp). lia. }
  split; [nia|]. split; [lia|]. unfold off. rewrite (Z.mul_comm (page_size_ p) pages).
  rewrite (wrap_small w (bytes + header_size w)) by (split; lia). rewrite (wrap_small w (pages * _ - _)) by (split; lia).
  rewrite wrap_small by (split; lia).
  destruct (decide (pages * page_size_ p = bytes + header_size w)) as [E|E].
  - left. rewrite E, Z.sub_diag, Z.sub_0_r. apply Z.mod_same. lia.
  - right. rewrite Z.mod_small by lia. split; lia.
Qed.

(** Alloc hands out blocks that overlap neither each other nor the headers of
    the pages, each inside pages that were mapped, whether it carves them from
    the current page or maps new ones; it fails only when mmap does. *)
Lemma Alloc_ok p blocks bytes mmap : allocator_ok p blocks -> 0 < bytes -> fits p bytes -> fresh p bytes mmap ->
  match Alloc p bytes mmap with
  | (Some r, p') => allocator_ok p' ((r, bytes) :: blocks) /\ page_size_ p' = page_size_ p
  | (None, p') => p' = p /\ mmap = None
  end.
Proof.
  intros (Hp & Hpair & Hareas & Hin) Hb Hs Hfresh. unfold Alloc. destruct (Z.eqb_spec bytes 0); [lia|].
  unfold fresh in Hfresh. destruct (in_current p bytes) as [c|] eqn:Ec.
  - unfold in_current in Ec. destruct (current_page_ p) as [c'|] eqn:Ecur; [|done].
    destruct (Z.leb_spec bytes (page_size_ p - page_offset_ p)); [|done]. injection Ec as ->.
    unfold free_part in Hpair, Hin. rewrite Ecur in Hpair, Hin. cbn [app pairwise] in Hpair. destruct Hpair as [Hfree Hpair].
    inversion Hin as [|? ? [Hf1 Hf2] Hin']; subst. cbn [fst snd] in *.
    assert (forall a l, c + page_offset_ p <= a -> a + l <= c + page_size_ p -> 0 < l ->
      Forall (apart (a, l)) (blocks ++ map header (last_ p))
      /\ (0 < (a, l).2 /\ Exists (fun h => within (a, l) (area p h)) (last_ p))) as Hsub.
    { intros a l H1 H2 H3. split; [|split; [done|]].
      - eapply Forall_impl; [exact Hfree|]. intros r Hr. eapply apart_within; [| |exact Hr]; unfold within; cbn; lia.
      - eapply Exists_impl; [exact Hf2|]. intros h. unfold within. cbn. lia. }
    destruct (Hsub (c + page_offset_ p) bytes) as [Hb1 Hb2]; [lia|lia|lia|].
    destruct (Z.eqb_spec (page_offset_ p + bytes) (page_size_ p)) as [Efull|Efull]; (split; [|done]); unfold allocator_ok, free_part; cbn.
    + split; [done|]. split; [done|]. split; [done|]. by constructor.
    + destruct (Hsub (c + (page_offset_ p + bytes)) (page_size_ p - (page_offset_ p + bytes))) as [Hr1 Hr2]; [lia|lia|lia|].
      split; [done|]. split; [|split; [done|constructor; [exact Hr2|constructor; [exact Hb2|exact Hin']]]]. split; [|done]. constructor; [|done]. unfold apart. cbn. lia.
  - destruct mmap as [a|]; [|done]. specialize (Hfresh eq_refl). cbn [GetNPages]. cbn beta iota. cbn [page_size_ last_ pages_allocated_].
    destruct (pages_for_spec p bytes Hp Hb Hs) as (Hn & Hsize & Hoff). pose proof header_size_pos as Hh.
    set (pages := pages_for p bytes) in *. set (off := wrap w _ mod page_size_ p) in *.
    assert (forall r, within r (a, pages * page_size_ p) -> Forall (apart r) (blocks ++ map header (last_ p))) as Hnew.
    { intros r Hr. apply Forall_app in Hin as [_ Hin]. eapply Forall_impl; [exact Hin|]. intros r' [_ Hr'].
      apply Exists_exists in Hr' as (h & Hh1 & Hh2). rewrite Forall_forall in Hfresh.
      eapply apart_within; [exact Hr|exact Hh2|]. apply Hfresh. by apply list_elem_of_fmap_2. }
    apply pairwise_app in Hpair as (_ & Hpair & _). apply Forall_app in Hin as [_ Hin].
    set (A := (a, pages * page_size_ p)) in *.
    assert (forall r, within r A -> 0 < r.2 -> 0 < r.2 /\ Exists (fun h => within r (area p h)) ((a, pages) :: last_ p)) as Hpages by
      (intros r Hr Hr'; split; [done|by left]).
    assert (within (a, header_size w) A /\ within (a + header_size w, bytes) A) as [Hwh Hwb] by (unfold within, A; cbn; lia).
    assert (Forall (fun r => 0 < r.2 /\ Exists (fun h => within r (area p h)) ((a, pages) :: last_ p))
      ((a + header_size w, bytes) :: blocks ++ map header ((a, pages) :: last_ p))) as Hall.
    { constructor; [by apply Hpages|]. apply Forall_app in Hin as [Hin1 Hin2]. apply Forall_app. split; [|constructor; [by apply Hpages|]];
        (eapply Forall_impl; [done|]); intros r [? ?]; (split; [done|by right]). }
    assert (pairwise ((a + header_size w, bytes) :: blocks ++ map header ((a, pages) :: last_ p))) as Hpw.
    { pose proof (Hnew _ Hwh) as [Hh1 Hh2]%Forall_app. pose proof (Hnew _ Hwb) as [Hb1 Hb2]%Forall_app.
      apply pairwise_app in Hpair as (Hp1 & Hp2 & Hp3). cbn [pairwise map]. split.
      - apply Forall_app. split; [done|]. constructor; [|done]. unfold apart, header. cbn. lia.
      - apply pairwise_app. split; [done|]. split; [by split|]. rewrite Forall_forall in Hp3, Hh1 |- *. intros r Hr.
        constructor; [apply apart_sym; by apply Hh1|by apply Hp3]. }
    assert (pairwise (map (area p) ((a, pages) :: last_ p))) as Hareas' by (by split).
    split; [|done]. unfold allocator_ok, free_part. destruct Hoff as [E|[E1 E2]].
    + rewrite E. cbn. done.
    + destruct (Z.eqb_spec off 0); [lia|]. cbn [current_page_ page_offset_ page_size_ last_].
      assert (within (a + page_size_ p * (pages - 1) + off, page_size_ p - off) A) as Hwf by (unfold within, A; cbn; lia).
      pose proof (Hnew _ Hwf) as [Hf1 Hf2]%Forall_app.
      split; [done|]. split; [|split; [done|constructor; [apply Hpages; [done|cbn; lia]|exact Hall]]].
      cbn [app pairwise]. split; [|exact Hpw]. constructor; [unfold apart; cbn; lia|]. apply Forall_app. split; [done|].
      constructor; [|done]. unfold apart, header. cbn. lia.
Qed.

(** OwnsPointer answers for the mapped pages, and FreeAll unmaps each area that
    was mapped, once and whole. *)
Theorem OwnsPointer_spec p addr : OwnsPointer p addr = true <-> Exists (fun r : range => r.1 <= addr < r.1 + r.2) (map (area p) (last_ p)).
Proof.
  unfold OwnsPointer. rewrite existsb_exists, Exists_exists. split.
  - intros ([a n] & Hin & H). apply andb_true_iff in H as [H1%Z.leb_le H2%Z.ltb_lt]. exists (area p (a, n)).
    split; [apply list_elem_of_fmap_2; by apply list_elem_of_In|done].
  - intros (r & Hr & H). apply list_elem_of_fmap in Hr as ([a n] & -> & Hin). exists (a, n). split; [by apply list_elem_of_In|].
    apply andb_true_iff. rewrite Z.leb_le, Z.ltb_lt. exact H.
Qed.

Theorem FreeAll_areas p : FreeAll p = map (area p) (last_ p).
Proof. unfold FreeAll. apply map_ext. by intros [a n]. Qed.

Lemma block_is_owned p blocks r len a : allocator_ok p blocks -> (r, len) ∈ blocks -> r <= a < r + len ->
  OwnsPointer p a = true /\ Exists (fun s : range => s.1 <= a < s.1 + s.2) (FreeAll p).
Proof.
  intros (_ & _ & _ & Hin) Hr Ha. rewrite OwnsPointer_spec, FreeAll_areas.
  assert (Exists (fun r : range => r.1 <= a < r.1 + r.2) (map (area p) (last_ p))) as H; [|done].
  rewrite !Forall_app, !Forall_forall in Hin. destruct Hin as (_ & Hin & _). destruct (Hin _ Hr) as [_ Hex].
  apply Exists_exists in Hex as (h & Hh & Hw'). apply Exists_exists. exists (area p h). split; [by apply list_elem_of_fmap_2|].
  unfold within in Hw'. cbn in *. lia.
Qed.

(** The life of an allocator: requests whose pages can be counted without
    overflow, each with what mmap would give. *)
Inductive runs : page_allocator -> list range -> Prop :=
| runs_new ps : 0 < ps -> runs (new_allocator ps) []
| runs_alloc p blocks bytes mmap r p' : runs p blocks -> 0 < bytes -> fits p bytes -> fresh p bytes mmap ->
    Alloc p bytes mmap = (Some r, p') -> runs p' ((r, bytes) :: blocks)
| runs_fail p blocks bytes : runs p blocks -> 0 < bytes -> fits p bytes -> (Alloc p bytes None).1 = None ->
    runs (Alloc p bytes None).2 blocks
| runs_zero p blocks mmap : runs p blocks -> runs (Alloc p 0 mmap).2 blocks.

Lemma runs_ok p blocks : runs p blocks -> allocator_ok p blocks.
Proof.
  induction 1 as [ps Hps|p blocks bytes mmap r p' _ IH Hb Hs Hf E|p blocks bytes _ IH Hb Hs E|p blocks mmap _ IH].
  - by split; [|repeat split; constructor].
  - pose proof (Alloc_ok p blocks bytes mmap IH Hb Hs Hf) as H. rewrite E in H. tauto.
  - pose proof (Alloc_ok p blocks bytes None IH Hb Hs I) as H. destruct (Alloc p bytes None) as [[r|] p']; [discriminate|].
    by destruct H as [-> _].
  - exact IH.
Qed.

(** C15: However requests follow each other, each small enough that its size with
    the header and the rounding up to pages does not overflow size_t, no two
    blocks that Alloc has handed out overlap, and every byte of each is outside the page headers, is owned by
    the allocator and is in an area that FreeAll unmaps. For a request beyond
    that bound it is not so ([Alloc_overflow]). *)
Theorem blocks_never_overlap p blocks : runs p blocks ->
  pairwise blocks
  /\ Forall (fun r => Forall (apart r) (map header (last_ p))) blocks
  /\ forall r len a, (r, len) ∈ blocks -> r <= a < r + len ->
     OwnsPointer p a = true /\ Exists (fun s : range => s.1 <= a < s.1 + s.2) (FreeAll p).
Proof.
  intros Hr%runs_ok. pose proof Hr as (_ & Hp & _ & _). apply pairwise_app in Hp as (_ & Hp & _).
  apply pairwise_app in Hp as (H1 & _ & H2). split; [done|]. split; [done|]. intros r len a. by apply block_is_owned.
Qed.

(** A request near the end of the address space wraps: one page is mapped, and
    its block is announced as the whole request. *)
Theorem Alloc_overflow p a : page_size_ p = 4096 -> current_page_ p = None -> w = 64 ->
  pages_for p (2 ^ 64 - 15) = 1 /\ (Alloc p (2 ^ 64 - 15) (Some a)).1 = Some (a + header_size w).
Proof.
  intros Hp Hc Hw64. unfold pages_for, Alloc, in_current, header_size. rewrite Hp, Hc, Hw64. split; reflexivity.
Qed.

End Allocator.

Lemma blocks_never_overlap_witness :
  let p := Alloc 64 (Alloc 64 (new_allocator 4096) 100 (Some 0x10000)).2 50 None in
  (16 <= 64 /\ runs 64 p.2 [(0x10074, 50); (0x10010, 100)]) /\
  (pairwise [(0x10074, 50); (0x10010, 100)]
   /\ Forall (fun r => Forall (apart r) (map (header 64) (last_ p.2))) [(0x10074, 50); (0x10010, 100)]
   /\ forall r len a, (r, len) ∈ [(0x10074, 50); (0x10010, 100)] -> r <= a < r + len ->
     OwnsPointer p.2 a = true /\ Exists (fun s : range => s.1 <= a < s.1 + s.2) (FreeAll p.2)).
Proof.
  intros p. assert (runs 64 p.2 [(0x10074, 50); (0x10010, 100)]).
  { eapply (runs_alloc 64 _ _ 50 None); [eapply (runs_alloc 64 (new_allocator 4096) [] 100 (Some 0x10000)); [by apply runs_new|lia| | |reflexivity]|lia| | |reflexivity];
      try (split; [lia|vm_compute; reflexivity]); [intros _; constructor|done]. }
  split; [split; [lia|done]|]. apply (blocks_never_overlap 64 ltac:(lia) p.2). done.
Defined.
