(* ===== verification/FileWriter.v ===== *)
(** The file of a minidump: client/minidump_file_writer.cc and its headers of
    libbreakpad.

    [position_] is an MDRVA of 32 bits, [size_] a size_t of [w] bits. A system
    call that may fail takes its outcome from [io]: [false] is a failure, and
    when the list runs out everything succeeds. An assertion that fails ends
    the process. *)
From S2P Require Import Prelude Utf8 ConvertUtf LibcSupport.

Record writer := Writer {
  file_ : Z;
  close_file_when_destroyed_ : bool;
  position_ : Z;
  size_ : Z;
  contents : list Z;
  closed : list Z;
  io : list bool
}.

Definition kInvalidMDRVA : Z := 2 ^ 32 - 1.

Definition MinidumpFileWriter (io : list bool) : writer := Writer (-1) true 0 0 [] [] io.

(** The outcome of the next system call. *)
Definition call (wr : writer) : bool * writer :=
  match io wr with
  | [] => (true, wr)
  | b :: t => (b, Writer (file_ wr) (close_file_when_destroyed_ wr) (position_ wr) (size_ wr) (contents wr) (closed wr) t)
  end.

Definition set_contents (wr : writer) (c : list Z) : writer :=
  Writer (file_ wr) (close_file_when_destroyed_ wr) (position_ wr) (size_ wr) c (closed wr) (io wr).

(** [ftruncate] cuts the file, or fills it up with zeros. *)
Definition ftruncate (wr : writer) (n : Z) : bool * writer :=
  let '(ok, wr) := call wr in
  if ok then (true, set_contents wr (resize (contents wr) (Z.to_nat n))) else (false, wr).

(** The workaround for kernels where ftruncate is refused: whether it is
    needed, and whether that has been tried. *)
Record workaround := Workaround { g_need_ftruncate_workaround : bool; g_checked_need_ftruncate_workaround : bool }.

Inductive truncate_result := truncate_ok | truncate_eacces | truncate_error.

(** [seek_end] is the offset of the end of the file, -1 for an error. *)
Definition CheckNeedsFTruncateWorkAround (g : workaround) (seek_end : Z) (result : truncate_result) : workaround :=
  if g_checked_need_ftruncate_workaround g then g
  else if seek_end =? -1 then Workaround (g_need_ftruncate_workaround g) true
  else
    match result with
    | truncate_eacces => Workaround true true
    | _ => Workaround (g_need_ftruncate_workaround g) true
    end.

(** [fd] is the result of open. *)
Definition Open (wr : writer) (fd : Z) : res (bool * writer) :=
  if negb (file_ wr =? -1) then Fault Aborted
  else
    Ret (negb (fd =? -1),
         Writer fd (close_file_when_destroyed_ wr) (position_ wr) (size_ wr) (contents wr) (closed wr) (io wr)).

Definition SetFile (wr : writer) (g : workaround) (file : Z) (seek_end : Z) (result : truncate_result) : res (writer * workaround) :=
  if negb (file_ wr =? -1) then Fault Aborted
  else
    Ret (Writer file false (position_ wr) (size_ wr) (contents wr) (closed wr) (io wr),
         CheckNeedsFTruncateWorkAround g seek_end result).

Definition Close (wr : writer) (g : workaround) : bool * writer :=
  if file_ wr =? -1 then (true, wr)
  else
    let '(ok, wr) := if g_need_ftruncate_workaround g then (true, wr) else ftruncate wr (position_ wr) in
    if negb ok then (false, wr)
    else
      let '(result, wr) := call wr in
      (result, Writer (-1) (close_file_when_destroyed_ wr) (position_ wr) (size_ wr) (contents wr) (file_ wr :: closed wr) (io wr)).

Definition MinidumpFileWriter_destructor (wr : writer) (g : workaround) : writer :=
  if close_file_when_destroyed_ wr then (Close wr g).2 else wr.

Section Width.

Variable w : Z.
Variable page_size : Z.

Definition moved (wr : writer) (position size : Z) : writer :=
  Writer (file_ wr) (close_file_when_destroyed_ wr) position size (contents wr) (closed wr) (io wr).

Definition Allocate (wr : writer) (g : workaround) (size : Z) : res (Z * writer) :=
  if size =? 0 then Fault Aborted
  else if file_ wr =? -1 then Fault Aborted
  else if g_need_ftruncate_workaround g then
    Ret (position_ wr, moved wr (u32 (position_ wr + u32 size)) (wrap w (size_ wr + size)))
  else
    let aligned_size := Z.ldiff (wrap w (size + 7)) 7 in
    let '(ok, wr) :=
      if size_ wr <? wrap w (position_ wr + aligned_size) then
        let growth := if aligned_size <? page_size then page_size else aligned_size in
        let new_size := wrap w (size_ wr + growth) in
        let '(ok, wr) := ftruncate wr new_size in
        (ok, if ok : bool then moved wr (position_ wr) new_size else wr)
      else (true, wr) in
    if ok : bool then Ret (position_ wr, moved wr (u32 (position_ wr + u32 aligned_size)) (size_ wr))
    else Ret (kInvalidMDRVA, wr).

(** A write past the end of the file fills the gap with zeros. *)
Definition write_at (c : list Z) (position : nat) (src : list Z) : list Z :=
  take position (resize c (max (length c) position)) ++ src ++ drop (position + length src) c.

Definition Copy (wr : writer) (position : Z) (src : list Z) : res (bool * writer) :=
  if (length src =? 0)%nat then Fault Aborted
  else if file_ wr =? -1 then Fault Aborted
  else if size_ wr <? wrap w (Z.of_nat (length src) + position) then Ret (false, wr)
  else
    let '(ok, wr) := call wr in
    if negb ok then Ret (false, wr)
    else
      let '(ok, wr) := call wr in
      if ok then Ret (true, set_contents wr (write_at (contents wr) (Z.to_nat position) src)) else Ret (false, wr).

(** * Chunks *)

Record untyped := UntypedMDRVA { u_position : Z; u_size : Z }.

Definition new_chunk (wr : writer) : untyped := UntypedMDRVA (position_ wr) 0.

Definition Untyped_Allocate (wr : writer) (g : workaround) (u : untyped) (size : Z) : res (bool * untyped * writer) :=
  if negb (u_size u =? 0) then Fault Aborted
  else
    '(position, wr) ← Allocate wr g size;
    Ret (negb (position =? kInvalidMDRVA), UntypedMDRVA position size, wr).

Definition Untyped_Copy (wr : writer) (u : untyped) (pos : Z) (src : list Z) : res (bool * writer) :=
  if (length src =? 0)%nat then Fault Aborted
  else if wrap w (u_position u + u_size u) <? wrap w (pos + Z.of_nat (length src)) then Fault Aborted
  else Copy wr pos src.

(** The size and the position, an MDLocationDescriptor. *)
Definition location (u : untyped) : Z * Z := (u32 (u_size u), u_position u).

Inductive AllocationState := UNALLOCATED | SINGLE_OBJECT | ARRAY | SINGLE_OBJECT_WITH_ARRAY.

#[local] Instance AllocationState_eq_dec : EqDecision AllocationState.
Proof. solve_decision. Defined.

(** A chunk for an object, [data_] its bytes. *)
Record typed := TypedMDRVA { chunk : untyped; data_ : list Z; allocation_state_ : AllocationState }.

Definition Typed_Allocate (wr : writer) (g : workaround) (t : typed) : res (bool * typed * writer) :=
  '(ok, u, wr) ← Untyped_Allocate wr g (chunk t) (Z.of_nat (length (data_ t)));
  Ret (ok, TypedMDRVA u (data_ t) SINGLE_OBJECT, wr).

Definition Typed_Allocate_additional (wr : writer) (g : workaround) (t : typed) (additional : Z) : res (bool * typed * writer) :=
  '(ok, u, wr) ← Untyped_Allocate wr g (chunk t) (wrap w (Z.of_nat (length (data_ t)) + additional));
  Ret (ok, TypedMDRVA u (data_ t) SINGLE_OBJECT, wr).

Definition AllocateArray (wr : writer) (g : workaround) (t : typed) (count : Z) : res (bool * typed * writer) :=
  if count =? 0 then Fault Aborted
  else
    '(ok, u, wr) ← Untyped_Allocate wr g (chunk t) (wrap w (Z.of_nat (length (data_ t)) * count));
    Ret (ok, TypedMDRVA u (data_ t) ARRAY, wr).

Definition AllocateObjectAndArray (wr : writer) (g : workaround) (t : typed) (count length : Z) : res (bool * typed * writer) :=
  if (count =? 0) || (length =? 0) then Fault Aborted
  else
    '(ok, u, wr) ← Untyped_Allocate wr g (chunk t) (wrap w (Z.of_nat (List.length (data_ t)) + wrap w (count * length)));
    Ret (ok, TypedMDRVA u (data_ t) SINGLE_OBJECT_WITH_ARRAY, wr).

Definition CopyIndex (wr : writer) (t : typed) (index : Z) (item : list Z) : res (bool * writer) :=
  if decide (allocation_state_ t = ARRAY)
  then Copy wr (u32 (u_position (chunk t) + index * Z.of_nat (length (data_ t)))) item
  else Fault Aborted.

Definition CopyIndexAfterObject (wr : writer) (t : typed) (index : Z) (src : list Z) : res (bool * writer) :=
  if decide (allocation_state_ t = SINGLE_OBJECT_WITH_ARRAY)
  then Copy wr (u32 (u_position (chunk t) + Z.of_nat (length (data_ t)) + index * Z.of_nat (length src))) src
  else Fault Aborted.

Definition Flush (wr : writer) (t : typed) : res (bool * writer) := Copy wr (u_position (chunk t)) (data_ t).

Definition TypedMDRVA_destructor (wr : writer) (t : typed) : res writer :=
  if decide (allocation_state_ t = ARRAY) then Ret wr else '(_, wr) ← Flush wr t; Ret wr.

(** * Strings *)

Definition units_bytes (us : list Z) : list Z := concat (map (le_bytes 2) us).

(** The units that are appended: the second only when it is not zero. *)
Definition out_units (out : list Z) : list Z :=
  match out with [a; b] => if b =? 0 then [a] else [a; b] | _ => out end.

(** The loop over a UTF-8 string; [str] is the memory from the pointer on. *)
Fixpoint copy_string (fuel : nat) (wr : writer) (t : typed) (str : list Z) (length : nat) (out_idx : Z) : res (bool * writer) :=
  match fuel with
  | O => Fault OutOfFuel
  | S fuel =>
      match length with
      | O => Ret (true, wr)
      | _ =>
          '(conversion_count, out) ← UTF8ToUTF16Char w str length;
          if (conversion_count =? 0)%nat then Ret (false, wr)
          else
            let out := out_units out in
            '(result, wr) ← CopyIndexAfterObject wr t out_idx (units_bytes out);
            if result : bool
            then copy_string fuel wr t (drop conversion_count str) (length - conversion_count) (out_idx + Z.of_nat (List.length out))
            else Ret (false, wr)
      end
  end.

(** Every iteration converts at least one byte. *)
Definition CopyStringToMDString (wr : writer) (t : typed) (str : list Z) (length : nat) : res (bool * writer) :=
  copy_string (S length) wr t str length 0.

(** The loop over a string of wchar_t, of 32 bits on Linux. *)
Fixpoint copy_wide (wr : writer) (t : typed) (str : list Z) (length : nat) (out_idx : Z) : res (bool * writer) :=
  match length with
  | O => Ret (true, wr)
  | S length =>
      match str with
      | [] => Fault OutOfBounds
      | ch :: str =>
          out ← UTF32ToUTF16Char w ch;
          if hd 0 out =? 0 then Ret (false, wr)
          else
            let out := out_units out in
            '(result, wr) ← CopyIndexAfterObject wr t out_idx (units_bytes out);
            if result : bool then copy_wide wr t str length (out_idx + Z.of_nat (List.length out)) else Ret (false, wr)
      end
  end.

Definition CopyWideStringToMDString (wr : writer) (t : typed) (str : list Z) (length : nat) : res (bool * writer) :=
  copy_wide wr t str length 0.

(** The length up to a zero, at most [limit]. *)
Fixpoint bounded_length (str : list Z) (limit : nat) : res nat :=
  match limit with
  | O => Ret O
  | S n =>
      match str with
      | [] => Fault OutOfBounds
      | c :: t => if c =? 0 then Ret O else l ← bounded_length t n; Ret (S l)
      end
  end.

(** [length] is 0 for the whole string, up to its zero; [copy] is the
    CopyStringToMDString of the type of the characters. *)
Definition WriteStringCore (copy : writer -> typed -> list Z -> nat -> res (bool * writer)) (wr : writer) (g : workaround) (str : list Z) (length : nat) : res (option (Z * Z) * writer) :=
  mdstring_length ← bounded_length str (if (length =? 0)%nat then S (List.length str) else length);
  let t := TypedMDRVA (new_chunk wr) (le_bytes 4 0) UNALLOCATED in
  '(ok, t, wr) ← AllocateObjectAndArray wr g t (Z.of_nat mdstring_length + 1) 2;
  if negb (ok : bool) then wr ← TypedMDRVA_destructor wr t; Ret (None, wr)
  else
    let t := TypedMDRVA (chunk t) (le_bytes 4 (u32 (Z.of_nat mdstring_length * 2))) (allocation_state_ t) in
    '(result, wr) ← copy wr t str mdstring_length;
    '(result, wr) ← (if result : bool then CopyIndexAfterObject wr t (Z.of_nat mdstring_length) (le_bytes 2 0) else Ret (false, wr));
    wr ← TypedMDRVA_destructor wr t;
    Ret (if result : bool then Some (location (chunk t)) else None, wr).

Definition WriteString := WriteStringCore CopyStringToMDString.

Definition WriteWideString := WriteStringCore CopyWideStringToMDString.

(** [start] is the address of [src]. *)
Definition WriteMemory (wr : writer) (g : workaround) (start : Z) (src : list Z) : res (option (Z * (Z * Z)) * writer) :=
  '(ok, u, wr) ← Untyped_Allocate wr g (new_chunk wr) (Z.of_nat (length src));
  if negb (ok : bool) then Ret (None, wr)
  else
    '(ok, wr) ← Untyped_Copy wr u (u_position u) src;
    Ret (if ok : bool then Some (start, location u) else None, wr).

End Width.

(** * The invariant of a writer *)

(** The file is as long as [size_], what is not allocated is zero, and every
    system call succeeds. *)
Definition writer_ok (wr : writer) : Prop :=
  file_ wr <> -1 /\ io wr = [] /\ 0 <= position_ wr <= size_ wr /\ Z.of_nat (length (contents wr)) = size_ wr
  /\ position_ wr mod 8 = 0
  /\ drop (Z.to_nat (position_ wr)) (contents wr) = replicate (Z.to_nat (size_ wr - position_ wr)) 0.

Definition no_workaround : workaround := Workaround false true.

(** [src] in the place of as many bytes at [q]. *)
Definition patch (c : list Z) (q : nat) (src : list Z) : list Z := take q c ++ src ++ drop (q + length src) c.

Lemma write_at_patch c q src : (q + length src <= length c)%nat -> write_at c q src = patch c q src.
Proof.
  intros H. unfold write_at, patch, resize. rewrite Nat.max_l by lia. rewrite (take_ge c) by lia. by rewrite Nat.sub_diag, app_nil_r.
Qed.

Lemma length_patch c q src : (q + length src <= length c)%nat -> length (patch c q src) = length c.
Proof. intros H. unfold patch. rewrite !length_app, length_take, length_drop. lia. Qed.

Lemma patch_app a x b src q : q = length a -> length x = length src -> patch (a ++ x ++ b) q src = a ++ src ++ b.
Proof.
  intros -> Hx. unfold patch. rewrite take_app_length, drop_app_add. f_equal. f_equal. by rewrite <- Hx, drop_app_length.
Qed.

Definition blank (n : nat) : list Z := replicate n 0.

Lemma blank_add a b : blank (a + b) = blank a ++ blank b.
Proof. apply replicate_add. Qed.

Lemma length_units_bytes us : length (units_bytes us) = (2 * length us)%nat.
Proof. unfold units_bytes. induction us as [|u us IH]; [done|]. cbn [map concat]. rewrite length_app, length_le_bytes, IH. cbn. lia. Qed.

(** Where something is written: lengths and the order of the pieces. *)
Ltac place L :=
  cbn [set_contents contents size_ chunk u_position u_size data_ allocation_state_ position_]; unfold L, blank in *;
  repeat match goal with H : contents _ = _ |- context [contents _] => rewrite H end;
  rewrite ?length_app, ?length_replicate, ?length_units_bytes, ?length_le_bytes, <- ?app_assoc; (done || lia).

Section Writer.

Context (w page_size : Z).
Hypothesis Hw : 32 <= w.
Hypothesis Hpage : 0 < page_size < 2 ^ 16.

Lemma width_pow : 2 ^ 32 <= 2 ^ w.
Proof. apply Z.pow_le_mono_r; lia. Qed.

(** Rounding up to a multiple of 8. *)
Lemma align8 n : 0 <= n < 2 ^ 31 -> let a := Z.ldiff (wrap w (n + 7)) 7 in n <= a < n + 8 /\ a mod 8 = 0.
Proof.
  intros Hn a. pose proof width_pow. change (2 ^ 31) with 2147483648 in Hn. change (2 ^ 32) with 4294967296 in *.
  assert (a = (n + 7) / 8 * 8) as ->.
  { unfold a. rewrite wrap_small by (split; lia). change 7 with (Z.ones 3) at 2. rewrite Z.ldiff_ones_r by lia.
    by rewrite Z.shiftl_mul_pow2, Z.shiftr_div_pow2 by lia. }
  split; [pose proof (Z.div_mod (n + 7) 8 ltac:(lia)); pose proof (Z.mod_pos_bound (n + 7) 8 ltac:(lia)); lia|by apply Z_mod_mult].
Qed.

(** Allocate moves the position by the size, rounded up, keeps what the file
    holds and makes it long enough. *)
Lemma Allocate_ok wr n : writer_ok wr -> 0 < n < 2 ^ 30 -> size_ wr < 2 ^ 31 ->
  exists wr', Allocate w page_size wr no_workaround n = Ret (position_ wr, wr')
    /\ writer_ok wr' /\ position_ wr + n <= position_ wr' < position_ wr + n + 8
    /\ size_ wr <= size_ wr' <= size_ wr + n + 8 + 2 ^ 16
    /\ exists k, contents wr' = contents wr ++ replicate k 0.
Proof.
  intros (Hf & Hio & Hp & Hlen & Hmod & Hz) Hn Hs. unfold Allocate. destruct (Z.eqb_spec n 0); [lia|].
  destruct (Z.eqb_spec (file_ wr) (-1)); [done|]. cbn [g_need_ftruncate_workaround no_workaround].
  destruct (align8 n) as [Ha Ha8]; [change (2 ^ 30) with 1073741824 in *; change (2 ^ 31) with 2147483648; lia|]. set (a := Z.ldiff _ 7) in *.
  pose proof width_pow. change (2 ^ 30) with 1073741824 in *. change (2 ^ 31) with 2147483648 in *. change (2 ^ 32) with 4294967296 in *.
  change (2 ^ 16) with 65536 in *.
  rewrite (wrap_small w (position_ wr + a)) by (split; lia). rewrite (wrap_small 32 a) by (split; [lia|change (2 ^ 32) with 4294967296; lia]).
  assert (u32 (position_ wr + a) = position_ wr + a) as Epos by (apply wrap_small; split; [lia|change (2 ^ 32) with 4294967296; lia]).
  assert ((position_ wr + a) mod 8 = 0) as Hmod' by divs.
  destruct (Z.ltb_spec (size_ wr) (position_ wr + a)) as [Hg|Hg].
  - set (growth := if a <? page_size then page_size else a).
    assert (a <= growth <= a + 65536) as Hgr by (unfold growth; destruct (Z.ltb_spec a page_size); lia).
    rewrite (wrap_small w (size_ wr + growth)) by (split; lia). unfold ftruncate, call. rewrite Hio. cbn beta iota.
    eexists. split; [reflexivity|]. unfold writer_ok. cbn [moved set_contents file_ io position_ size_ contents]. rewrite Epos.
    assert (resize (contents wr) (Z.to_nat (size_ wr + growth)) = contents wr ++ replicate (Z.to_nat growth) 0) as Er.
    { unfold resize. rewrite take_ge by lia. do 2 f_equal. lia. }
    rewrite Er, length_app, length_replicate. split; [|split; [lia|split; [lia|by eexists]]].
    repeat (split; [done || lia|]). replace (Z.to_nat (position_ wr + a)) with (Z.to_nat (position_ wr) + Z.to_nat a)%nat by lia.
    rewrite <- drop_drop, drop_app_le, Hz, <- replicate_add, drop_replicate by lia. f_equal. lia.
  - eexists. split; [reflexivity|]. unfold writer_ok. cbn [moved file_ io position_ size_ contents]. rewrite Epos.
    split; [|split; [lia|split; [lia|exists 0%nat; by rewrite app_nil_r]]].
    repeat (split; [done || lia|]). replace (Z.to_nat (position_ wr + a)) with (Z.to_nat (position_ wr) + Z.to_nat a)%nat by lia.
    rewrite <- drop_drop, Hz, drop_replicate. f_equal. lia.
Qed.

(** Copy writes in its place, inside the file. *)
Lemma Copy_ok wr q src : file_ wr <> -1 -> io wr = [] -> Z.of_nat (length (contents wr)) = size_ wr -> size_ wr < 2 ^ 32 ->
  (0 < length src)%nat -> (q + length src <= length (contents wr))%nat ->
  Copy w wr (Z.of_nat q) src = Ret (true, set_contents wr (patch (contents wr) q src)).
Proof.
  intros Hf Hio Hlen Hs Hsrc Hq. unfold Copy. destruct (Nat.eqb_spec (length src) 0); [lia|].
  destruct (Z.eqb_spec (file_ wr) (-1)); [done|]. pose proof width_pow. rewrite wrap_small by (split; lia).
  destruct (Z.ltb_spec (size_ wr) (Z.of_nat (length src) + Z.of_nat q)); [lia|].
  unfold call. rewrite Hio. cbn [negb]. rewrite Hio. rewrite Nat2Z.id. by rewrite write_at_patch.
Qed.

(** Codes of the basic plane, each one unit. *)
Definition basic (cs : list Z) : Prop := Forall (fun c => scalar c /\ 0 < c < 0x10000) cs.

Lemma basic_char c in_length t : scalar c -> 0 < c < 0x10000 -> (length (utf8_encode c) <= in_length)%nat ->
  UTF8ToUTF16Char w (utf8_encode c ++ t) in_length = Ret (length (utf8_encode c), [c; 0]).
Proof.
  intros Hs Hc Hl. rewrite (UTF8ToUTF16Char_spec w c) by (done || by left). unfold utf16_encode.
  destruct (Z.ltb_spec c 0x10000); [done|lia].
Qed.

Lemma copy_string_basic cs : forall fuel wr t rest k A x B, basic cs ->
  file_ wr <> -1 -> io wr = [] -> Z.of_nat (length (contents wr)) = size_ wr -> size_ wr < 2 ^ 32 ->
  allocation_state_ t = SINGLE_OBJECT_WITH_ARRAY -> length (data_ t) = 4%nat -> 0 <= k -> 0 <= u_position (chunk t) ->
  contents wr = A ++ x ++ B -> Z.of_nat (length A) = u_position (chunk t) + 4 + 2 * k -> length x = (2 * length cs)%nat ->
  (length (utf8_of cs) < fuel)%nat ->
  copy_string w fuel wr t (utf8_of cs ++ rest) (length (utf8_of cs)) k = Ret (true, set_contents wr (A ++ units_bytes cs ++ B)).
Proof.
  induction cs as [|c cs IH]; intros fuel wr t rest k A x B Hb Hf Hio Hlen Hs Hst Hd Hk Hp Hc HA Hx Hfuel.
  - destruct fuel; [cbn in Hfuel; lia|]. destruct x; [|done]. cbn. do 2 f_equal. destruct wr; cbn in *. by rewrite Hc.
  - inversion_clear Hb as [|? ? [Hsc Hcr] Hb']. rewrite utf8_of_cons, length_app, <- app_assoc in *.
    assert (0 < length (utf8_encode c))%nat as Hpos by (unfold utf8_encode; ltbs; cbn; lia).
    destruct fuel as [|fuel]; [lia|]. cbn [copy_string].
    destruct (length (utf8_encode c) + length (utf8_of cs))%nat as [|n] eqn:En; [lia|]. rewrite <- En in Hfuel |- *. clear En n.
    rewrite basic_char, bind_Ret by (done || lia). destruct (Nat.eqb_spec (length (utf8_encode c)) 0); [lia|].
    change (out_units [c; 0]) with [c]. cbn beta iota zeta. change (units_bytes [c]) with (le_bytes 2 c ++ []). rewrite app_nil_r.
    destruct x as [|y0 [|y1 x]]; [cbn in Hx; lia|cbn in Hx; lia|].
    unfold CopyIndexAfterObject. rewrite decide_True by done. rewrite Hd, length_le_bytes.
    assert (length (contents wr) = length A + (S (S (length x)) + length B))%nat as El by (rewrite Hc, !length_app; done).
    rewrite wrap_small by (split; cbn in Hx; lia).
    replace (u_position (chunk t) + Z.of_nat 4 + k * Z.of_nat 2) with (Z.of_nat (length A)) by lia.
    rewrite Copy_ok by (rewrite ?length_le_bytes; (done || lia)). rewrite bind_Ret. cbn beta iota.
    rewrite Hc. change ((y0 :: y1 :: x) ++ B) with ([y0; y1] ++ x ++ B). rewrite patch_app by (by rewrite ?length_le_bytes).
    rewrite drop_app_length. replace (length (utf8_encode c) + length (utf8_of cs) - length (utf8_encode c))%nat with (length (utf8_of cs)) by lia.
    change (Z.of_nat (length [c])) with 1. rewrite app_assoc.
    rewrite (IH fuel (set_contents wr ((A ++ le_bytes 2 c) ++ x ++ B)) t rest (k + 1) (A ++ le_bytes 2 c) x B); try done.
    + do 2 f_equal. unfold set_contents. cbn. f_equal. rewrite <- app_assoc. done.
    + cbn [set_contents contents size_]. rewrite <- Hlen, El, !length_app, length_le_bytes. lia.
    + lia.
    + rewrite length_app, length_le_bytes. lia.
    + cbn in Hx. lia.
    + lia.
Qed.

Lemma bounded_length_spec s rest : nonzero s -> forall limit, (length s < limit)%nat ->
  bounded_length (s ++ 0 :: rest) limit = Ret (length s).
Proof.
  induction 1 as [|c s Hc _ IH]; intros [|limit] Hl; cbn in Hl; try lia; [done|].
  cbn [app bounded_length]. destruct (Z.eqb_spec c 0); [done|]. by rewrite IH by lia.
Qed.

Lemma basic_scalar cs : basic cs -> Forall scalar cs /\ Forall (fun c => c <> 0) cs.
Proof. intros H. split; (eapply Forall_impl; [exact H|]); intros c [? ?]; [done|lia]. Qed.

Lemma length_utf8_of cs : (length cs <= length (utf8_of cs))%nat.
Proof.
  induction cs as [|c cs IH]; [done|]. rewrite utf8_of_cons, length_app. unfold utf8_encode. ltbs; cbn; lia.
Qed.

(** The object in front of an array is written by Flush. *)
Lemma Flush_ok wr t A x B : file_ wr <> -1 -> io wr = [] -> Z.of_nat (length (contents wr)) = size_ wr -> size_ wr < 2 ^ 32 ->
  allocation_state_ t <> ARRAY -> (0 < length (data_ t))%nat -> contents wr = A ++ x ++ B ->
  Z.of_nat (length A) = u_position (chunk t) -> length x = length (data_ t) ->
  TypedMDRVA_destructor w wr t = Ret (set_contents wr (A ++ data_ t ++ B)).
Proof.
  intros Hf Hio Hlen Hs Hst Hd Hc HA Hx. unfold TypedMDRVA_destructor. rewrite decide_False by done. unfold Flush. rewrite <- HA.
  assert (length (contents wr) = length A + (length x + length B))%nat as El by (by rewrite Hc, !length_app).
  rewrite Copy_ok, bind_Ret by (done || lia). by rewrite Hc, patch_app.
Qed.

Lemma CopyIndexAfterObject_ok wr t k A x B src : file_ wr <> -1 -> io wr = [] -> Z.of_nat (length (contents wr)) = size_ wr -> size_ wr < 2 ^ 32 ->
  allocation_state_ t = SINGLE_OBJECT_WITH_ARRAY -> 0 <= k -> 0 <= u_position (chunk t) -> (0 < length src)%nat -> contents wr = A ++ x ++ B ->
  Z.of_nat (length A) = u_position (chunk t) + Z.of_nat (length (data_ t)) + k * Z.of_nat (length src) -> length x = length src ->
  CopyIndexAfterObject w wr t k src = Ret (true, set_contents wr (A ++ src ++ B)).
Proof.
  intros Hf Hio Hlen Hs Hst Hk Hp Hsrc Hc HA Hx. unfold CopyIndexAfterObject. rewrite decide_True by done.
  assert (length (contents wr) = length A + (length x + length B))%nat as El by (by rewrite Hc, !length_app).
  rewrite <- HA, wrap_small by (split; lia). rewrite Copy_ok by (done || lia). by rewrite Hc, patch_app.
Qed.

(** What the MDString of a text is: its length in bytes, as many units as the
    UTF-8 form has bytes, and a zero. *)
Definition md_string (cs : list Z) : list Z :=
  let n := length (utf8_of cs) in
  le_bytes 4 (2 * Z.of_nat n) ++ units_bytes cs ++ blank (2 * (n - length cs)) ++ le_bytes 2 0.

(** A text of the basic plane is written in place: the location returned
    has the length of the MDString and the position where it starts, what was
    in the file before it stays, and the MDString holds the UTF-16 units of
    the text. It is exact for ASCII; for other text the length counts the
    bytes of the UTF-8 form, and zeros fill the rest. *)
Theorem WriteString_basic wr cs rest : writer_ok wr -> basic cs -> Z.of_nat (length (utf8_of cs)) < 2 ^ 24 -> size_ wr < 2 ^ 30 ->
  let n := Z.of_nat (length (utf8_of cs)) in
  exists wr' tail, WriteString w page_size wr no_workaround (utf8_of cs ++ 0 :: rest) 0 = Ret (Some (2 * n + 6, position_ wr), wr')
    /\ writer_ok wr' /\ position_ wr + 2 * n + 6 <= position_ wr'
    /\ size_ wr <= size_ wr' <= size_ wr + (2 * n + 6 + 65544)
    /\ contents wr' = take (Z.to_nat (position_ wr)) (contents wr) ++ md_string cs ++ tail.
Proof.
  intros Hwr Hb Hn Hs n. destruct (basic_scalar cs Hb) as [Hsc Hnz]. change (2 ^ 24) with 16777216 in Hn. change (2 ^ 30) with 1073741824 in Hs.
  assert (n = Z.of_nat (length (utf8_of cs))) as En by done.
  unfold WriteString, WriteStringCore. cbn [Nat.eqb].
  rewrite bounded_length_spec by (rewrite ?length_app; (by apply utf8_of_nonzero) || lia). rewrite bind_Ret. fold n.
  unfold AllocateObjectAndArray, Untyped_Allocate, new_chunk. cbn [chunk data_ allocation_state_ u_size u_position].
  destruct (Z.eqb_spec (n + 1) 0); [lia|]. rewrite length_le_bytes. change (0 =? 0) with true. change (2 =? 0) with false. cbn [negb orb].
  pose proof width_pow as Hpw. change (2 ^ 32) with 4294967296 in Hpw.
  rewrite (wrap_small w ((n + 1) * 2)), (wrap_small w (Z.of_nat 4 + (n + 1) * 2)) by (split; lia).
  assert (u32 (n * 2) = 2 * n) as -> by (rewrite wrap_small by (split; [lia|change (2 ^ 32) with 4294967296; lia]); lia).
  destruct (Allocate_ok wr (Z.of_nat 4 + (n + 1) * 2) Hwr) as (wr1 & -> & Hwr1 & Hp1 & Hs1 & k & Hc1);
    [change (2 ^ 30) with 1073741824; lia|change (2 ^ 31) with 2147483648; lia|]. change (2 ^ 16) with 65536 in Hs1.
  destruct Hwr as (Hf & Hio & Hp & Hlen & Hm & Hz). pose proof Hwr1 as (Hf1 & Hio1 & Hpos1 & Hlen1 & Hm1 & Hz1). rewrite !bind_Ret.
  assert ((position_ wr =? kInvalidMDRVA) = false) as ->.
  { unfold kInvalidMDRVA. change (2 ^ 32) with 4294967296. destruct (Z.eqb_spec (position_ wr) (4294967296 - 1)); [lia|done]. }
  cbn [negb chunk allocation_state_].
  set (p := position_ wr) in *. set (A := take (Z.to_nat p) (contents wr)).
  assert (Z.of_nat (length A) = p) as HA by (unfold A; rewrite length_take; lia).
  pose proof (length_utf8_of cs) as Hl. set (m := (2 * (length (utf8_of cs) - length cs))%nat).
  assert (exists r, contents wr1 = A ++ blank 4 ++ blank (2 * length cs) ++ blank m ++ blank 2 ++ blank r
    /\ (Z.to_nat (position_ wr1) <= length A + 4 + 2 * length cs + m + 2 + r)%nat) as (r & Hc & Hr).
  { exists (length (contents wr1) - (length A + 4 + 2 * length cs + m + 2))%nat. rewrite <- !blank_add. split; [|lia].
    assert (contents wr1 = A ++ blank (Z.to_nat (size_ wr - p) + k)) as E.
    { rewrite Hc1, blank_add, app_assoc. f_equal. unfold A, blank. rewrite <- Hz. by rewrite take_drop. }
    pose proof (f_equal length E) as El. unfold blank in El. rewrite length_app, length_replicate in El. rewrite E at 1. do 2 f_equal. lia. }
  cbn [u_position u_size chunk data_ allocation_state_]. set (L := le_bytes 4 (2 * n)).
  assert (m = 2 * (length (utf8_of cs) - length cs))%nat as Em by done.
  assert (length (contents wr1) = length A + 4 + 2 * length cs + m + 2 + r)%nat as El.
  { rewrite Hc. unfold blank. rewrite !length_app, !length_replicate. lia. }
  unfold CopyStringToMDString.
  rewrite (copy_string_basic cs _ wr1 _ (0 :: rest) 0 (A ++ blank 4) (blank (2 * length cs)) (blank m ++ blank 2 ++ blank r)) by (done || place L).
  rewrite bind_Ret. cbn beta iota.
  rewrite (CopyIndexAfterObject_ok _ _ n ((A ++ blank 4) ++ units_bytes cs ++ blank m) (blank 2) (blank r) (le_bytes 2 0)) by (done || place L).
  rewrite bind_Ret. cbn beta iota.
  rewrite (Flush_ok _ _ A (blank 4) ((units_bytes cs ++ blank m) ++ le_bytes 2 0 ++ blank r)) by (done || place L).
  rewrite bind_Ret. unfold location. cbn [chunk u_size u_position].
  rewrite wrap_small by (split; [lia|change (2 ^ 32) with 4294967296; lia]).
  eexists _, (blank r). split; [do 4 f_equal; lia|]. split; [|split; [place L|split; [cbn [set_contents size_]; lia|unfold md_string; place L]]].
  unfold writer_ok. cbn [set_contents contents size_ file_ io position_].
  repeat (split; [done || lia || place L|]). cbn [data_].
  assert (forall a b c d e : list Z, a ++ b ++ (c ++ d) ++ e ++ blank r = (a ++ b ++ c ++ d ++ e) ++ blank r) as -> by (intros; by rewrite <- !app_assoc).
  rewrite drop_app_ge by place L. unfold blank at 2. rewrite drop_replicate. f_equal. place L.
Qed.
(** A block of memory is written where the next allocation starts. *)
Lemma WriteMemory_ok wr start src : writer_ok wr -> 0 < Z.of_nat (length src) < 2 ^ 24 -> size_ wr < 2 ^ 30 ->
  exists wr' tail, WriteMemory w page_size wr no_workaround start src = Ret (Some (start, (Z.of_nat (length src), position_ wr)), wr')
    /\ writer_ok wr' /\ position_ wr + Z.of_nat (length src) <= position_ wr'
    /\ size_ wr' <= size_ wr + (Z.of_nat (length src) + 65544)
    /\ contents wr' = take (Z.to_nat (position_ wr)) (contents wr) ++ src ++ tail.
Proof.
  intros Hwr Hn Hs. change (2 ^ 24) with 16777216 in Hn. change (2 ^ 30) with 1073741824 in Hs.
  unfold WriteMemory, Untyped_Allocate, new_chunk. cbn [u_size]. change (0 =? 0) with true. cbn [negb].
  destruct (Allocate_ok wr (Z.of_nat (length src)) Hwr) as (wr1 & -> & Hwr1 & Hp1 & Hs1 & k & Hc1);
    [change (2 ^ 30) with 1073741824; lia|change (2 ^ 31) with 2147483648; lia|]. change (2 ^ 16) with 65536 in Hs1.
  destruct Hwr as (Hf & Hio & Hp & Hlen & Hm & Hz). destruct Hwr1 as (Hf1 & Hio1 & Hpos1 & Hlen1 & Hm1 & Hz1). rewrite !bind_Ret.
  assert ((position_ wr =? kInvalidMDRVA) = false) as ->.
  { unfold kInvalidMDRVA. change (2 ^ 32) with 4294967296. destruct (Z.eqb_spec (position_ wr) (4294967296 - 1)); [lia|done]. }
  unfold Untyped_Copy. cbn [negb u_position u_size]. destruct (Nat.eqb_spec (length src) 0); [lia|]. rewrite Z.ltb_irrefl.
  assert (Copy w wr1 (position_ wr) src = Ret (true, set_contents wr1 (patch (contents wr1) (Z.to_nat (position_ wr)) src))) as ->.
  { rewrite <- (Z2Nat.id (position_ wr) (proj1 Hp)) at 1. rewrite Copy_ok by (done || (change (2 ^ 32) with 4294967296; lia)). done. }
  rewrite bind_Ret. unfold location. cbn [u_position u_size].
  rewrite wrap_small by (split; [lia|change (2 ^ 32) with 4294967296; lia]).
  set (q := Z.to_nat (position_ wr)). eexists _, (drop (q + length src) (contents wr1)). split; [done|].
  cbn [set_contents position_ size_ contents]. split; [|split; [lia|split; [lia|]]].
  - unfold writer_ok. cbn [set_contents contents size_ file_ io position_]. rewrite length_patch by (unfold q; lia).
    repeat (split; [done || lia|]). rewrite <- Hz1. unfold patch.
    rewrite app_assoc, drop_app_ge by (rewrite length_app, length_take; unfold q; lia).
    rewrite drop_drop. f_equal. rewrite length_app, length_take. unfold q. lia.
  - unfold patch. f_equal. rewrite Hc1, take_app_le by (unfold q; lia). done.
Qed.

(** Blocks written one after the other, and the descriptors of each. *)
Fixpoint write_blocks (wr : writer) (blocks : list (Z * list Z)) : res (list (option (Z * (Z * Z))) * writer) :=
  match blocks with
  | [] => Ret ([], wr)
  | (start, src) :: blocks =>
      '(d, wr) ← WriteMemory w page_size wr no_workaround start src;
      '(ds, wr) ← write_blocks wr blocks;
      Ret (d :: ds, wr)
  end.

(** The memory a descriptor describes, read back from the file. *)
Definition block_at (c : list Z) (block : Z * list Z) (d : option (Z * (Z * Z))) : Prop :=
  exists q, d = Some (block.1, (Z.of_nat (length block.2), Z.of_nat q)) /\ take (length block.2) (drop q c) = block.2.

Fixpoint room (blocks : list (Z * list Z)) : Z :=
  match blocks with
  | [] => 0
  | (_, src) :: blocks => Z.of_nat (length src) + 65544 + room blocks
  end.

Lemma room_nonneg blocks : 0 <= room blocks.
Proof. induction blocks as [|[? src] ? ?]; cbn [room]; lia. Qed.

Lemma write_blocks_ok blocks : forall wr, writer_ok wr -> Forall (fun b => 0 < Z.of_nat (length b.2) < 2 ^ 24) blocks ->
  size_ wr + room blocks < 2 ^ 30 ->
  exists ds wr', write_blocks wr blocks = Ret (ds, wr') /\ writer_ok wr'
    /\ take (Z.to_nat (position_ wr)) (contents wr') = take (Z.to_nat (position_ wr)) (contents wr)
    /\ position_ wr <= position_ wr' /\ Forall2 (block_at (contents wr')) blocks ds.
Proof.
  induction blocks as [|[start src] blocks IH]; intros wr Hwr Hb Hs; [by exists [], wr|].
  inversion_clear Hb as [|? ? Hsrc Hb']. cbn [room snd] in *. pose proof (room_nonneg blocks).
  destruct (WriteMemory_ok wr start src Hwr Hsrc ltac:(lia)) as (wr1 & tail & E & Hwr1 & Hp1 & Hs1 & Hc1).
  destruct (IH wr1 Hwr1 Hb' ltac:(lia)) as (ds & wr2 & E2 & Hwr2 & Ht & Hp2 & Hds).
  exists (Some (start, (Z.of_nat (length src), position_ wr)) :: ds), wr2.
  assert (Z.to_nat (position_ wr) <= length (contents wr))%nat as Hq by (destruct Hwr as (_ & _ & ? & ? & _); lia).
  assert (0 <= position_ wr) by (destruct Hwr as (_ & _ & ? & _); lia). set (q := Z.to_nat (position_ wr)) in *.
  assert (take (q + length src) (contents wr2) = take (q + length src) (contents wr1)) as Hpre.
  { rewrite <- (Nat.min_l (q + length src) (Z.to_nat (position_ wr1))), <- !take_take by (unfold q; lia). by rewrite Ht. }
  split; [cbn [write_blocks]; by rewrite E, bind_Ret, E2|]. split; [done|].
  assert (take q (contents wr2) = take q (contents wr)) as Hq2.
  { rewrite <- (Nat.min_l q (q + length src)), <- take_take, Hpre, take_take, Nat.min_l by lia.
    rewrite Hc1. by rewrite take_app_le, take_take, Nat.min_id by (rewrite length_take; lia). }
  split; [done|split; [lia|]]. constructor; [|done]. exists q. split; [cbn [fst snd]; do 4 f_equal; unfold q; lia|].
  cbn [snd]. rewrite take_drop_commute, Hpre, <- take_drop_commute, Hc1.
  rewrite drop_app_ge by (rewrite length_take; lia). rewrite length_take, Nat.min_l, Nat.sub_diag, drop_0 by lia. apply take_app_length.
Qed.

(** C12: whatever blocks of memory are written, one after the other, each
    descriptor returned has the address and the size of its block and the
    place of the file where the block still is at the end: no later block
    overwrites it. *)
Theorem blocks_read_back blocks wr : writer_ok wr -> Forall (fun b => 0 < Z.of_nat (length b.2) < 2 ^ 24) blocks ->
  size_ wr + room blocks < 2 ^ 30 ->
  exists ds wr', write_blocks wr blocks = Ret (ds, wr') /\ Forall2 (block_at (contents wr')) blocks ds.
Proof.
  intros H1 H2 H3. destruct (write_blocks_ok blocks wr H1 H2 H3) as (ds & wr' & ? & _ & _ & _ & ?). eauto.
Qed.

End Writer.

(** A new file. *)
Definition opened : writer := Writer 3 false 0 0 [] [] [].

Lemma opened_ok : writer_ok opened.
Proof. done. Qed.

Lemma WriteString_basic_witness :
  (writer_ok opened /\ basic [0x41; 0xE9]) /\
  let n := Z.of_nat (length (utf8_of [0x41; 0xE9])) in
  exists wr' tail, WriteString 64 4096 opened no_workaround (utf8_of [0x41; 0xE9] ++ [0]) 0 = Ret (Some (2 * n + 6, 0), wr')
    /\ writer_ok wr' /\ 0 + 2 * n + 6 <= position_ wr'
    /\ 0 <= size_ wr' <= 0 + (2 * n + 6 + 65544)
    /\ contents wr' = take (Z.to_nat 0) (contents opened) ++ md_string [0x41; 0xE9] ++ tail.
Proof.
  assert (basic [0x41; 0xE9]) as Hb by (repeat constructor; unfold scalar; lia).
  split; [split; [apply opened_ok|exact Hb]|].
  apply (WriteString_basic 64 4096 ltac:(lia) ltac:(change (2 ^ 16) with 65536; lia) opened [0x41; 0xE9] [] opened_ok Hb);
    [vm_compute; reflexivity|vm_compute; reflexivity].
Defined.

Lemma blocks_read_back_witness :
  (writer_ok opened /\ opened = opened) /\
  exists ds wr', write_blocks 64 4096 opened [(0x1000, [1; 2; 3]); (0x2000, [4])] = Ret (ds, wr')
    /\ Forall2 (block_at (contents wr')) [(0x1000, [1; 2; 3]); (0x2000, [4])] ds.
Proof.
  split; [split; [apply opened_ok|done]|].
  apply (blocks_read_back 64 4096 ltac:(lia) ltac:(change (2 ^ 16) with 65536; lia) [(0x1000, [1; 2; 3]); (0x2000, [4])] opened opened_ok);
    [repeat constructor; cbn [length snd]; lia|vm_compute; reflexivity].
Defined.

(** The text A, U+1F600: the pair goes to the second place of an array of
    pairs, not of units, and the unit at index 1 stays zero. *)
Example WriteString_supplementary :
  ((fun r => take 18 (contents r.2)) <$> (WriteString 64 4096 opened no_workaround ([0x41; 0xF0; 0x9F; 0x98; 0x80] ++ [0]) 0))
  = Ret [10; 0; 0; 0; 0x41; 0; 0; 0; 0x3D; 0xD8; 0; 0xDE; 0; 0; 0; 0; 0; 0].
Proof. vm_compute. reflexivity. Qed.

(** With 64 bits a wide string cannot be written at all: the converter of its
    characters reads past each one, see [UTF32ToUTF16Char_reads_past]. With 32
    bits it can. *)
Example WriteWideString_widths :
  WriteWideString 64 4096 opened no_workaround [0x41; 0] 0 = Fault OutOfBounds
  /\ (fun r => take 8 (contents r.2)) <$> WriteWideString 32 4096 opened no_workaround [0x41; 0] 0 = Ret [2; 0; 0; 0; 0x41; 0; 0; 0].
Proof. split; vm_compute; reflexivity. Qed.
