(* ===== verification/Descriptor.v ===== *)
(** Where a dump goes: client/linux/handler/minidump_descriptor.cc and
    common/linux/guid_creator.cc of libbreakpad.

    A string is the list of its characters; the pointer [c_path_] is null, or
    the buffer of [path_], or not initialised; a read of it then is
    [OutOfBounds]. What /dev/urandom gives and the
    numbers of rand() are arguments. *)
From S2P Require Import Prelude Utf8 LibcSupport.

(** * Identifiers *)

Record GUID := Guid { data1 : Z; data2 : Z; data3 : Z; data4 : list Z }.

#[export] Instance GUID_eq_dec : EqDecision GUID.
Proof. solve_decision. Defined.

Definition sizeof_GUID : nat := 16.

Definition BytesToUInt32 (bytes : list Z) : Z :=
  Z.lor (Z.lor (Z.lor (nth 0 bytes 0) (u32 (Z.shiftl (nth 1 bytes 0) 8))) (u32 (Z.shiftl (nth 2 bytes 0) 16)))
    (u32 (Z.shiftl (nth 3 bytes 0) 24)).

Definition UInt32ToBytes (n : Z) : list Z :=
  [Z.land n 0xff; Z.land (Z.shiftr n 8) 0xff; Z.land (Z.shiftr n 16) 0xff; Z.land (Z.shiftr n 24) 0xff].

(** The structure in a buffer of its 16 bytes. *)
Definition guid_of_bytes (buf : list Z) : GUID :=
  Guid (le_val (take 4 buf)) (le_val (take 2 (drop 4 buf))) (le_val (take 2 (drop 6 buf))) (take 8 (drop 8 buf)).

(** [read] is what the read from /dev/urandom gives, nothing when it cannot be
    opened: true when the whole structure was filled. *)
Definition CreateGUIDFromDevUrandom (guid : GUID) (read : option (list Z)) : bool * GUID :=
  match read with
  | None => (false, guid)
  | Some bytes => if (length bytes =? sizeof_GUID)%nat then (true, guid_of_bytes bytes) else (false, guid)
  end.

(** [rands] are the results of rand(). *)
Definition CreateGUIDFromRand (rands : list Z) : GUID := guid_of_bytes (map u8 (take sizeof_GUID rands)).

Definition set_version (guid : GUID) : GUID :=
  Guid (data1 guid) (data2 guid) (Z.lor (Z.land (data3 guid) 0x0fff) 0x4000)
    (match data4 guid with b :: t => Z.lor (Z.land b 0x3f) 0x80 :: t | [] => [] end).

Definition CreateGUID (guid : GUID) (read : option (list Z)) (rands : list Z) : bool * GUID :=
  let '(success, guid) := CreateGUIDFromDevUrandom guid read in
  (true, set_version (if success then guid else CreateGUIDFromRand rands)).

Definition kGUIDStringLength : nat := 36.

(** The conversion [%0nx] of printf, for a value of 32 bits at most. *)
Definition hex_char (d : Z) : Z := if d <? 10 then 0x30 + d else 0x61 + d - 10.

Fixpoint hex_chars (fuel : nat) (n : Z) (acc : list Z) : list Z :=
  match fuel with
  | O => acc
  | S fuel => if n =? 0 then acc else hex_chars fuel (n / 16) (hex_char (n mod 16) :: acc)
  end.

Definition format_0x (width : nat) (n : Z) : list Z :=
  let s := hex_chars 8 n [] in replicate (width - length s) 0x30 ++ s.

Definition guid_string (guid : GUID) : list Z :=
  format_0x 8 (data1 guid) ++ [0x2d] ++ format_0x 4 (data2 guid) ++ [0x2d] ++ format_0x 4 (data3 guid) ++ [0x2d]
    ++ format_0x 8 (BytesToUInt32 (take 4 (data4 guid))) ++ [0x2d] ++ format_0x 8 (BytesToUInt32 (drop 4 (data4 guid))).

(** The string, or nothing when its length is not the one expected. *)
Definition GUIDToString (guid : GUID) (buf_len : nat) : res (option (list Z)) :=
  if negb (kGUIDStringLength <? buf_len)%nat then Fault Aborted
  else
    let s := guid_string guid in
    Ret (if (length s =? kGUIDStringLength)%nat then Some s else None).

(** * Descriptors *)

Inductive DumpMode := kUninitialized | kWriteMinidumpToFile | kWriteMinidumpToFd | kWriteMicrodumpToConsole.

#[export] Instance DumpMode_eq_dec : EqDecision DumpMode.
Proof. solve_decision. Defined.

(** The pointer [c_path_]. *)
Inductive c_path := CNull | CPath | CUninitialized.

Record MicrodumpExtraInfo := ExtraInfo {
  build_fingerprint : option (list Z);
  product_info : option (list Z);
  gpu_fingerprint : option (list Z);
  process_type : option (list Z)
}.

Definition no_extra_info : MicrodumpExtraInfo := ExtraInfo None None None None.

Record descriptor := Descriptor {
  mode_ : DumpMode;
  fd_ : Z;
  directory_ : list Z;
  path_ : list Z;
  c_path_ : c_path;
  size_limit_ : Z;
  address_within_principal_mapping_ : Z;
  skip_dump_if_principal_mapping_not_referenced_ : bool;
  sanitize_stacks_ : bool;
  microdump_extra_info_ : MicrodumpExtraInfo
}.

Definition MinidumpDescriptor : descriptor :=
  Descriptor kUninitialized (-1) [] [] CUninitialized (-1) 0 false false no_extra_info.

(** The other constructors, of a directory, of a descriptor and for the console. *)
Definition MinidumpDescriptor_directory (directory : list Z) : res descriptor :=
  if (length directory =? 0)%nat then Fault Aborted
  else Ret (Descriptor kWriteMinidumpToFile (-1) directory [] CNull (-1) 0 false false no_extra_info).

Definition MinidumpDescriptor_fd (fd : Z) : res descriptor :=
  if fd =? -1 then Fault Aborted
  else Ret (Descriptor kWriteMinidumpToFd fd [] [] CNull (-1) 0 false false no_extra_info).

Definition MinidumpDescriptor_console : descriptor :=
  Descriptor kWriteMicrodumpToConsole (-1) [] [] CUninitialized (-1) 0 false false no_extra_info.

Definition IsFD (d : descriptor) : bool := bool_decide (mode_ d = kWriteMinidumpToFd).
Definition IsMicrodumpOnConsole (d : descriptor) : bool := bool_decide (mode_ d = kWriteMicrodumpToConsole).

(** The string that [path()] points to. *)
Definition path (d : descriptor) : res (option (list Z)) :=
  match c_path_ d with
  | CNull => Ret None
  | CPath => Ret (Some (path_ d))
  | CUninitialized => Fault OutOfBounds
  end.

Definition set_path (d : descriptor) (p : list Z) (c : c_path) : descriptor :=
  Descriptor (mode_ d) (fd_ d) (directory_ d) p c (size_limit_ d) (address_within_principal_mapping_ d)
    (skip_dump_if_principal_mapping_not_referenced_ d) (sanitize_stacks_ d) (microdump_extra_info_ d).

Definition MinidumpDescriptor_copy (d : descriptor) : res descriptor :=
  if negb (length (path_ d) =? 0)%nat then Fault Aborted else Ret (set_path d [] CNull).

(** [guid] is the identifier created for the path. *)
Definition UpdatePath (d : descriptor) (guid : GUID) : res descriptor :=
  if negb (bool_decide (mode_ d = kWriteMinidumpToFile) && negb (length (directory_ d) =? 0)%nat) then Fault Aborted
  else
    s ← GUIDToString guid (S kGUIDStringLength);
    match s with
    | None => Fault Aborted
    | Some s => Ret (set_path d (directory_ d ++ [0x2f] ++ s ++ literal ".dmp") CPath)
    end.

Definition set_mode (this d : descriptor) : descriptor :=
  Descriptor (mode_ d) (fd_ d) (directory_ d) [] (c_path_ this) (size_limit_ this) (address_within_principal_mapping_ this)
    (skip_dump_if_principal_mapping_not_referenced_ this) (sanitize_stacks_ this) (microdump_extra_info_ this).

Definition assign (this d : descriptor) (guid : GUID) : res descriptor :=
  if negb (length (path_ d) =? 0)%nat then Fault Aborted
  else
    let this := set_mode this d in
    this ← (match c_path_ this with
            | CNull => Ret this
            | CPath => UpdatePath (set_path this (path_ this) CNull) guid
            | CUninitialized => Fault OutOfBounds
            end);
    Ret (Descriptor (mode_ this) (fd_ this) (directory_ this) (path_ this) (c_path_ this) (size_limit_ d)
           (address_within_principal_mapping_ d) (skip_dump_if_principal_mapping_not_referenced_ d) (sanitize_stacks_ d)
           (microdump_extra_info_ d)).

(** * The string of an identifier *)

Fixpoint hex_digits (k : nat) (n : Z) : list Z :=
  match k with O => [] | S k => hex_digits k (n / 16) ++ [hex_char (n mod 16)] end.

Lemma length_hex_digits k : forall n, length (hex_digits k n) = k.
Proof. induction k as [|k IH]; intros n; [done|]. cbn [hex_digits]. rewrite length_app, IH. cbn. lia. Qed.

Lemma hex_digits_0 k : hex_digits k 0 = replicate k 0x30.
Proof.
  induction k as [|k IH]; [done|]. cbn [hex_digits]. change (0 / 16) with 0. rewrite IH. by rewrite <- replicate_S_end.
Qed.

Lemma pow16_S k : 16 ^ Z.of_nat (S k) = 16 * 16 ^ Z.of_nat k.
Proof. rewrite Nat2Z.inj_succ, Z.pow_succ_r by lia. done. Qed.

(** printf drops the zeros in front and puts as many back. *)
Lemma hex_chars_pad width : forall fuel n acc, (width <= fuel)%nat -> 0 <= n < 16 ^ Z.of_nat width ->
  exists s, hex_chars fuel n acc = s ++ acc /\ (length s <= width)%nat
    /\ replicate (width - length s) 0x30 ++ s = hex_digits width n.
Proof.
  induction width as [|width IH]; intros fuel n acc Hf Hn.
  - assert (n = 0) as -> by (cbn in Hn; lia). exists []. by destruct fuel.
  - destruct fuel as [|fuel]; [lia|]. cbn [hex_chars]. destruct (Z.eqb_spec n 0) as [->|Hn0].
    + exists []. rewrite hex_digits_0. cbn [length]. rewrite Nat.sub_0_r, app_nil_r. split; [done|]. split; [lia|done].
    + rewrite pow16_S in Hn. destruct (IH fuel (n / 16) (hex_char (n mod 16) :: acc)) as (s & E & Hl & Hs);
        [lia|split; [by apply Z.div_pos; lia|by apply Z.div_lt_upper_bound; lia]|].
      exists (s ++ [hex_char (n mod 16)]). rewrite E, <- app_assoc. split; [done|]. rewrite length_app. cbn [length].
      split; [lia|]. cbn [hex_digits]. rewrite <- Hs, <- app_assoc. do 2 f_equal. lia.
Qed.

Lemma format_0x_spec width n : (width <= 8)%nat -> 0 <= n < 16 ^ Z.of_nat width -> format_0x width n = hex_digits width n.
Proof.
  intros Hw Hn. unfold format_0x. destruct (hex_chars_pad width 8 n [] Hw Hn) as (s & -> & _ & Hs). by rewrite app_nil_r.
Qed.

Lemma hex_digit_char d : 0 <= d < 16 -> hex_digit (hex_char d) = Some d.
Proof.
  intros Hd. unfold hex_char. destruct (Z.ltb_spec d 10); unfold hex_digit, is_digit.
  - destruct (Z.leb_spec 48 (0x30 + d)), (Z.leb_spec (0x30 + d) 57); try lia. cbn [andb]. f_equal. lia.
  - destruct (Z.leb_spec 48 (0x61 + d - 10)), (Z.leb_spec (0x61 + d - 10) 57), (Z.leb_spec 0x61 (0x61 + d - 10)), (Z.leb_spec (0x61 + d - 10) 0x66); try lia.
    cbn [andb]. f_equal. lia.
Qed.

(** What is printed is read back by my_read_hex_ptr. *)
Lemma read_hex_digits w k : 0 <= w -> forall r n t, 0 <= n < 16 ^ Z.of_nat k ->
  read_hex_loop w (wrap w r) (hex_digits k n ++ t) = read_hex_loop w (wrap w (r * 16 ^ Z.of_nat k + n)) t.
Proof.
  intros Hw. induction k as [|k IH]; intros r n t Hn.
  - cbn in *. do 2 f_equal. lia.
  - rewrite pow16_S in *. cbn [hex_digits]. rewrite <- app_assoc.
    rewrite IH by (split; [apply Z.div_pos; lia|apply Z.div_lt_upper_bound; lia]).
    pose proof (Z.mod_pos_bound n 16 ltac:(lia)). cbn [app read_hex_loop]. rewrite hex_digit_char by lia. f_equal.
    rewrite Z.shiftl_mul_pow2 by lia. change (2 ^ 4) with 16. rewrite wrap_digit. f_equal.
    pose proof (Z.div_mod n 16 ltac:(lia)). lia.
Qed.

(** A structure whose fields have their widths. *)
Definition guid_ok (g : GUID) : Prop :=
  in_range 32 (data1 g) /\ in_range 16 (data2 g) /\ in_range 16 (data3 g) /\ bytes_ok (data4 g) /\ length (data4 g) = 8%nat.

Lemma BytesToUInt32_spec l : bytes_ok l -> length l = 4%nat -> BytesToUInt32 l = le_val l.
Proof.
  intros Hb Hl. destruct l as [|a [|b [|c [|d [|? ?]]]]]; try done.
  do 4 (apply Forall_cons in Hb as [[? ?] Hb]). change (2 ^ 8) with 256 in *. unfold BytesToUInt32. cbn [nth le_val].
  rewrite !Z.shiftl_mul_pow2 by lia. change (2 ^ 8) with 256. change (2 ^ 16) with 65536. change (2 ^ 24) with 16777216.
  rewrite (wrap_small 32 (b * 256)), (wrap_small 32 (c * 65536)), (wrap_small 32 (d * 16777216)) by (unfold in_range; change (2 ^ 32) with 4294967296; lia).
  rewrite (Z.lor_comm a). change 256 with (2 ^ 8) at 1. rewrite lor_low by (change (2 ^ 8) with 256; lia).
  rewrite (Z.lor_comm (_ + a)). change 65536 with (2 ^ 16) at 1. rewrite lor_low by (change (2 ^ 16) with 65536; change (2 ^ 8) with 256; lia).
  rewrite (Z.lor_comm (_ + _)). change 16777216 with (2 ^ 24) at 1.
  rewrite lor_low by (change (2 ^ 16) with 65536; change (2 ^ 8) with 256; change (2 ^ 24) with 16777216; lia).
  change (2 ^ 16) with 65536. change (2 ^ 8) with 256. change (2 ^ 24) with 16777216. lia.
Qed.

Lemma UInt32ToBytes_spec n : UInt32ToBytes n = le_bytes 4 n.
Proof.
  unfold UInt32ToBytes. cbn [le_bytes]. rewrite !Z.shiftr_shiftr by lia.
  change 0xff with (Z.ones 8). by rewrite !wrap_land_ones by lia.
Qed.

(** The string, read with the function that reads numbers. *)
Definition read_guid (s : list Z) : res GUID :=
  '(a, s) ← my_read_hex_ptr 32 s;
  '(b, s) ← my_read_hex_ptr 32 (drop 1 s);
  '(c, s) ← my_read_hex_ptr 32 (drop 1 s);
  '(d, s) ← my_read_hex_ptr 32 (drop 1 s);
  '(e, _) ← my_read_hex_ptr 32 (drop 1 s);
  Ret (Guid a b c (UInt32ToBytes d ++ UInt32ToBytes e)).

Lemma read_field width n c t : (width <= 8)%nat -> 0 <= n < 16 ^ Z.of_nat width -> hex_digit c = None ->
  my_read_hex_ptr 32 (format_0x width n ++ c :: t) = Ret (n, c :: t).
Proof.
  intros Hw Hn Hc. unfold my_read_hex_ptr. rewrite format_0x_spec by done. change 0 with (wrap 32 0) at 1.
  rewrite read_hex_digits by (done || lia). cbn [read_hex_loop]. rewrite Hc, Z.mul_0_l, Z.add_0_l. rewrite wrap_small; [done|].
  assert (16 ^ Z.of_nat width <= 16 ^ 8) by (apply Z.pow_le_mono_r; lia). change (16 ^ 8) with (2 ^ 32) in *. unfold in_range. lia.
Qed.

Lemma guid_words g : guid_ok g ->
  in_range 32 (BytesToUInt32 (take 4 (data4 g))) /\ in_range 32 (BytesToUInt32 (drop 4 (data4 g)))
  /\ UInt32ToBytes (BytesToUInt32 (take 4 (data4 g))) ++ UInt32ToBytes (BytesToUInt32 (drop 4 (data4 g))) = data4 g.
Proof.
  intros (_ & _ & _ & Hb & Hl).
  assert (bytes_ok (take 4 (data4 g)) /\ bytes_ok (drop 4 (data4 g))) as [Ht Hd] by (split; [by apply Forall_take|by apply Forall_drop]).
  assert (length (take 4 (data4 g)) = 4%nat /\ length (drop 4 (data4 g)) = 4%nat) as [Lt Ld] by (rewrite length_take, length_drop; lia).
  rewrite !BytesToUInt32_spec, !UInt32ToBytes_spec by done.
  pose proof (le_val_range _ Ht) as Rt. pose proof (le_val_range _ Hd) as Rd. rewrite Lt in Rt. rewrite Ld in Rd.
  split; [done|split; [done|]]. rewrite <- Lt at 1. rewrite <- Ld at 3. rewrite !le_bytes_val by done. apply take_drop.
Qed.

Lemma guid_string_spec g : guid_ok g -> length (guid_string g) = 36%nat /\ read_guid (guid_string g ++ [0]) = Ret g.
Proof.
  intros Hg. destruct (guid_words g Hg) as (Rd & Re & Ew). destruct Hg as (Ra & Rb & Rc & _).
  unfold in_range in *. change (2 ^ 32) with (16 ^ Z.of_nat 8) in *. change (2 ^ 16) with (16 ^ Z.of_nat 4) in *. unfold guid_string. split.
  - rewrite !format_0x_spec by (done || lia). rewrite !length_app, !length_hex_digits. done.
  - unfold read_guid. rewrite <- !app_assoc. cbn [app].
    do 5 (rewrite read_field, bind_Ret by (done || lia); cbn [skipn]; rewrite ?drop_0). rewrite Ew. by destruct g.
Qed.

(** The string of an identifier has the 36 characters that GUIDToString
    tests for, and the identifier is read back from it. *)
Theorem GUIDToString_round_trip g buf_len : guid_ok g -> (36 < buf_len)%nat ->
  exists s, GUIDToString g buf_len = Ret (Some s) /\ length s = 36%nat /\ read_guid (s ++ [0]) = Ret g.
Proof.
  intros Hg Hb. destruct (guid_string_spec g Hg) as [Hl Hr]. exists (guid_string g). split; [|done].
  unfold GUIDToString, kGUIDStringLength. rewrite Hl. destruct (Nat.ltb_spec 36 buf_len); [done|lia].
Qed.

Lemma GUIDToString_round_trip_witness :
  (guid_ok (Guid 0x1234 0xab 0x4001 [0x80; 1; 2; 3; 4; 5; 6; 0xff]) /\ (36 < 37)%nat) /\
  exists s, GUIDToString (Guid 0x1234 0xab 0x4001 [0x80; 1; 2; 3; 4; 5; 6; 0xff]) 37 = Ret (Some s) /\ length s = 36%nat
    /\ read_guid (s ++ [0]) = Ret (Guid 0x1234 0xab 0x4001 [0x80; 1; 2; 3; 4; 5; 6; 0xff]).
Proof.
  assert (guid_ok (Guid 0x1234 0xab 0x4001 [0x80; 1; 2; 3; 4; 5; 6; 0xff])) as H.
  { split; [done|]. split; [done|]. split; [done|]. split; [|done]. apply (bool_decide_unpack _). vm_compute. exact I. }
  split; [split; [exact H|lia]|]. apply GUIDToString_round_trip; [exact H|lia].
Defined.

(** Whatever the random bytes, an identifier of version 4 comes out. *)
Lemma guid_of_bytes_ok buf : bytes_ok buf -> length buf = 16%nat -> guid_ok (guid_of_bytes buf).
Proof.
  intros Hb Hl. unfold guid_of_bytes, guid_ok. cbn [data1 data2 data3 data4].
  assert (forall a n, (a + n <= 16)%nat -> in_range (8 * Z.of_nat n) (le_val (take n (drop a buf)))) as R.
  { intros a n Han. assert (length (take n (drop a buf)) = n) as E by (rewrite length_take, length_drop; lia).
    rewrite <- E at 1. apply le_val_range. by apply Forall_take, Forall_drop. }
  split; [apply (R 0%nat 4%nat); lia|]. split; [apply (R 4%nat 2%nat); lia|]. split; [apply (R 6%nat 2%nat); lia|].
  split; [by apply Forall_take, Forall_drop|rewrite length_take, length_drop; lia].
Qed.

Lemma version_bits d : in_range 16 d ->
  in_range 16 (Z.lor (Z.land d 0x0fff) 0x4000) /\ Z.shiftr (Z.lor (Z.land d 0x0fff) 0x4000) 12 = 4.
Proof.
  intros Hd. split; [apply in_range_lor; [lia| |done]|].
  - apply in_range_land; done.
  - rewrite Z.shiftr_lor, Z.shiftr_land. change (Z.shiftr 0x0fff 12) with 0. by rewrite Z.land_0_r.
Qed.

Lemma variant_bits b : in_range 8 b ->
  in_range 8 (Z.lor (Z.land b 0x3f) 0x80) /\ Z.shiftr (Z.lor (Z.land b 0x3f) 0x80) 6 = 2.
Proof.
  intros Hd. split; [apply in_range_lor; [lia| |done]|].
  - apply in_range_land; done.
  - rewrite Z.shiftr_lor, Z.shiftr_land. change (Z.shiftr 0x3f 6) with 0. by rewrite Z.land_0_r.
Qed.

Lemma set_version_ok g : guid_ok g ->
  guid_ok (set_version g) /\ Z.shiftr (data3 (set_version g)) 12 = 4 /\ Z.shiftr (hd 0 (data4 (set_version g))) 6 = 2
  /\ data1 (set_version g) = data1 g /\ data2 (set_version g) = data2 g /\ tl (data4 (set_version g)) = tl (data4 g).
Proof.
  intros (H1 & H2 & H3 & Hb & Hl). destruct g as [a b c d]. cbn [data1 data2 data3 data4] in *.
  destruct d as [|x d]; [done|]. apply Forall_cons in Hb as [Hx Hb].
  unfold set_version, guid_ok. cbn [data1 data2 data3 data4 hd tl length].
  destruct (version_bits c H3) as [Hc Hc']. destruct (variant_bits x Hx) as [Hv Hv'].
  split; [|done]. do 3 (split; [done|]). split; [by constructor|done].
Qed.

(** CreateGUID always succeeds and gives an identifier of version 4 and
    of the variant of RFC 4122; with 16 bytes from /dev/urandom all the other
    fields are made of them, with less the numbers of rand() are used. *)
Theorem CreateGUID_spec g read rands :
  match read with Some bytes => bytes_ok bytes | None => True end -> (16 <= length rands)%nat ->
  exists g0 g', CreateGUID g read rands = (true, g')
    /\ guid_ok g' /\ Z.shiftr (data3 g') 12 = 4 /\ Z.shiftr (hd 0 (data4 g')) 6 = 2
    /\ data1 g' = data1 g0 /\ data2 g' = data2 g0 /\ tl (data4 g') = tl (data4 g0)
    /\ g0 = guid_of_bytes (match read with
                           | Some bytes => if decide (length bytes = 16%nat) then bytes else map u8 (take 16 rands)
                           | None => map u8 (take 16 rands)
                           end).
Proof.
  intros Hr Hl.
  assert (bytes_ok (map u8 (take 16 rands)) /\ length (map u8 (take 16 rands)) = 16%nat) as Hrand.
  { split; [apply Forall_map, Forall_true; intros x; by apply wrap_range|rewrite length_map, length_take; lia]. }
  set (bytes := match read with Some _ => _ | None => _ end).
  assert (CreateGUID g read rands = (true, set_version (guid_of_bytes bytes)) /\ bytes_ok bytes /\ length bytes = 16%nat) as (-> & Hb & Hb').
  { unfold CreateGUID, CreateGUIDFromDevUrandom, CreateGUIDFromRand, bytes, sizeof_GUID. destruct read as [l|]; [|done].
    destruct (Nat.eqb_spec (length l) 16); [by rewrite decide_True|by rewrite decide_False]. }
  destruct (set_version_ok _ (guid_of_bytes_ok _ Hb Hb')) as (? & ? & ? & ? & ? & ?).
  by exists (guid_of_bytes bytes), (set_version (guid_of_bytes bytes)).
Qed.

Lemma CreateGUID_spec_witness :
  (bytes_ok [1; 2; 3] /\ (16 <= length (seqZ 0 16))%nat) /\
  exists g0 g', CreateGUID (Guid 0 0 0 []) (Some [1; 2; 3]) (seqZ 0 16) = (true, g')
    /\ guid_ok g' /\ Z.shiftr (data3 g') 12 = 4 /\ Z.shiftr (hd 0 (data4 g')) 6 = 2
    /\ data1 g' = data1 g0 /\ data2 g' = data2 g0 /\ tl (data4 g') = tl (data4 g0)
    /\ g0 = guid_of_bytes (if decide (length [1; 2; 3] = 16%nat) then [1; 2; 3] else map u8 (take 16 (seqZ 0 16))).
Proof.
  assert (bytes_ok [1; 2; 3]) as H by (apply (bool_decide_unpack _); vm_compute; exact I).
  assert (16 <= length (seqZ 0 16))%nat as Hl by (rewrite length_seqZ; lia).
  split; [split; [exact H|exact Hl]|]. apply (CreateGUID_spec (Guid 0 0 0 []) (Some [1; 2; 3]) (seqZ 0 16) H Hl).
Defined.

(** * Paths *)

(** A path has the identifier it was made with, so no two identifiers give the
    same file. *)
Lemma UpdatePath_spec d g : mode_ d = kWriteMinidumpToFile -> directory_ d <> [] -> guid_ok g ->
  exists d' s, UpdatePath d g = Ret d' /\ path d' = Ret (Some (directory_ d ++ [0x2f] ++ s ++ literal ".dmp"))
    /\ length s = 36%nat /\ read_guid (s ++ [0]) = Ret g.
Proof.
  intros Hm Hd Hg. destruct (guid_string_spec g Hg) as [Hl Hr]. unfold UpdatePath. rewrite bool_decide_true by done.
  assert ((length (directory_ d) =? 0)%nat = false) as -> by (by destruct (directory_ d)). cbn [negb andb].
  unfold GUIDToString, kGUIDStringLength. rewrite Hl. change (36 <? 37)%nat with true. cbn [negb]. rewrite bind_Ret.
  change (36 =? 36)%nat with true. cbn match. eexists _, (guid_string g). done.
Qed.

(** Two dumps of a descriptor, with different identifiers, are written to
    different files of its directory. *)
Theorem dumps_in_different_files d g1 g2 : mode_ d = kWriteMinidumpToFile -> directory_ d <> [] -> guid_ok g1 -> guid_ok g2 -> g1 <> g2 ->
  exists d1 d2 s1 s2, UpdatePath d g1 = Ret d1 /\ UpdatePath d1 g2 = Ret d2
    /\ path d1 = Ret (Some (directory_ d ++ [0x2f] ++ s1)) /\ path d2 = Ret (Some (directory_ d ++ [0x2f] ++ s2)) /\ s1 <> s2.
Proof.
  intros Hm Hd Hg1 Hg2 Hne. destruct (UpdatePath_spec d g1 Hm Hd Hg1) as (d1 & s1 & E1 & P1 & L1 & R1).
  assert (mode_ d1 = mode_ d /\ directory_ d1 = directory_ d) as [Em Ed].
  { unfold UpdatePath in E1. destruct (negb _); [done|]. apply bind_Ret_inv in E1 as ([s|] & _ & E1); [|done].
    apply Ret_inj in E1 as <-. done. }
  destruct (UpdatePath_spec d1 g2) as (d2 & s2 & E2 & P2 & L2 & R2); [congruence|congruence|done|].
  rewrite Ed in P2. exists d1, d2, (s1 ++ literal ".dmp"), (s2 ++ literal ".dmp"). do 4 (split; [done|]).
  intros [= E]. assert (s1 = s2) as <- by (apply (app_inj_1 s1 s2 (literal ".dmp") (literal ".dmp")); [congruence|done]). congruence.
Qed.

Lemma dumps_in_different_files_witness :
  let d := Descriptor kWriteMinidumpToFile (-1) [0x2f] [] CNull (-1) 0 false false no_extra_info in
  let g1 := Guid 1 2 0x4003 [0x80; 0; 0; 0; 0; 0; 0; 0] in
  let g2 := Guid 1 2 0x4004 [0x80; 0; 0; 0; 0; 0; 0; 0] in
  (guid_ok g1 /\ guid_ok g2) /\
  exists d1 d2 s1 s2, UpdatePath d g1 = Ret d1 /\ UpdatePath d1 g2 = Ret d2
    /\ path d1 = Ret (Some ([0x2f] ++ [0x2f] ++ s1)) /\ path d2 = Ret (Some ([0x2f] ++ [0x2f] ++ s2)) /\ s1 <> s2.
Proof.
  intros d g1 g2.
  assert (guid_ok g1) as H1. { do 3 (split; [done|]). split; [|done]. apply (bool_decide_unpack _). vm_compute. exact I. }
  assert (guid_ok g2) as H2. { do 3 (split; [done|]). split; [|done]. apply (bool_decide_unpack _). vm_compute. exact I. }
  split; [done|]. apply (dumps_in_different_files d g1 g2); done.
Defined.

(** A descriptor of a file that has its path, and one of an open file. *)
Lemma assign_fd_aborts this d guid : c_path_ this = CPath -> mode_ d = kWriteMinidumpToFd -> assign this d guid = Fault Aborted.
Proof.
  intros Hc Hm. unfold assign. destruct (negb _); [done|]. unfold set_mode. cbn [c_path_]. rewrite Hc.
  unfold UpdatePath. cbn [set_path mode_ directory_]. by rewrite Hm.
Qed.

(** The other way round the descriptor of a file is left without a path. *)
Lemma assign_directory_no_path this d guid : c_path_ this = CNull -> mode_ d = kWriteMinidumpToFile -> path_ d = [] ->
  exists d', assign this d guid = Ret d' /\ mode_ d' = kWriteMinidumpToFile /\ path d' = Ret None.
Proof.
  intros Hc Hm Hp. unfold assign. rewrite Hp. cbn [length Nat.eqb negb]. unfold set_mode. cbn [c_path_]. rewrite Hc, bind_Ret.
  eexists. split; [done|]. done.
Qed.
