(* ===== verification/CrashHandler.v ===== *)
(** The crash handler: client/linux/handler/exception_handler.cc of
    libbreakpad, as this repository has it.

    [os] is what the kernel keeps: the action of each signal, the alternate
    stack of each thread, and the blocks of the heap in use. A system call that
    may fail takes its outcome from [results]: [false] is a failure, and when
    the list runs out everything succeeds. A section under
    [g_handler_stack_mutex_] is one step. *)
From S2P Require Import Prelude Sigmux Descriptor.

(** * What the kernel keeps *)

Record stack_t := Stack { ss_sp : Z; ss_flags : Z; ss_size : Z }.

Definition SS_DISABLE : Z := 2.

Definition zero_stack : stack_t := Stack 0 0 0.

(** What sigaltstack reports for a thread without an alternate stack. *)
Definition no_stack : stack_t := Stack 0 SS_DISABLE 0.

Record os := Os {
  actions : gmap Z sigaction;
  altstacks : gmap Z stack_t;
  heap : gset Z;
  results : list bool
}.

Definition next_result (o : os) : bool * os :=
  match results o with
  | [] => (true, o)
  | b :: t => (b, Os (actions o) (altstacks o) (heap o) t)
  end.

Definition action_of (o : os) (sig : Z) : sigaction := default zero_sigaction (actions o !! sig).
Definition altstack_of (o : os) (tid : Z) : stack_t := default no_stack (altstacks o !! tid).

Definition sys_sigaction_get (o : os) (sig : Z) : option sigaction * os :=
  let '(ok, o) := next_result o in (if ok : bool then Some (action_of o sig) else None, o).

Definition sys_sigaction_set (o : os) (sig : Z) (sa : sigaction) : bool * os :=
  let '(ok, o) := next_result o in
  (ok, if ok : bool then Os (<[sig := sa]> (actions o)) (altstacks o) (heap o) (results o) else o).

Definition sys_sigaltstack_get (o : os) (tid : Z) : option stack_t * os :=
  let '(ok, o) := next_result o in (if ok : bool then Some (altstack_of o tid) else None, o).

Definition sys_sigaltstack_set (o : os) (tid : Z) (s : stack_t) : bool * os :=
  let '(ok, o) := next_result o in
  let s := if has_flag (ss_flags s) SS_DISABLE then no_stack else s in
  (ok, if ok : bool then Os (actions o) (<[tid := s]> (altstacks o)) (heap o) (results o) else o).

(** [mem] is the address that calloc gives, 0 when there is no memory. *)
Definition calloc (o : os) (mem : Z) : os :=
  if mem =? 0 then o else Os (actions o) (altstacks o) ({[mem]} ∪ heap o) (results o).

Definition free (o : os) (mem : Z) : os := Os (actions o) (altstacks o) (heap o ∖ {[mem]}) (results o).

(** * The alternate stack *)

Record stack_state := StackState { old_stack : stack_t; new_stack : stack_t; stack_installed : bool }.

Definition InstallAlternateStackLocked (kSigStackSize tid mem : Z) (o : os) (s : stack_state) : os * stack_state :=
  if stack_installed s then (o, s)
  else
    let '(current, o) := sys_sigaltstack_get o tid in
    let old := default zero_stack current in
    if bool_decide (current = None) || (ss_sp old =? 0) || (ss_size old <? kSigStackSize) then
      let new := Stack mem 0 kSigStackSize in
      let o := calloc o mem in
      let '(ok, o) := sys_sigaltstack_set o tid new in
      if ok : bool then (o, StackState old new true) else (free o mem, StackState old new false)
    else (o, StackState old zero_stack false).

Definition RestoreAlternateStackLocked (tid : Z) (o : os) (s : stack_state) : os * stack_state :=
  if negb (stack_installed s) then (o, s)
  else
    match sys_sigaltstack_get o tid with
    | (None, o) => (o, s)
    | (Some current, o) =>
        let '(ok, o) :=
          if ss_sp current =? ss_sp (new_stack s)
          then sys_sigaltstack_set o tid (if negb (ss_sp (old_stack s) =? 0) then old_stack s else no_stack)
          else (true, o) in
        if ok : bool then (free o (ss_sp (new_stack s)), StackState (old_stack s) (new_stack s) false) else (o, s)
    end.

(** * The actions of the signals *)

Definition SIGTRAP : Z := 5.
Definition SIGFPE : Z := 8.

Definition kExceptionSignals : list Z := [SIGSEGV; SIGABRT; SIGFPE; SIGILL; SIGBUS; SIGTRAP].

Definition InstallDefaultHandler (o : os) (sig : Z) : os :=
  (sys_sigaction_set o sig (mkSigaction SIG_DFL ∅ SA_RESTART)).2.

Record signal_state := SignalState { old_handlers : list sigaction; handlers_installed : bool }.

(** The loop over the signals, storing into [old_handlers] until a call fails. *)
Fixpoint save_handlers (sigs : list Z) (old : list sigaction) (o : os) : bool * list sigaction * os :=
  match sigs, old with
  | sig :: sigs, before :: old =>
      match sys_sigaction_get o sig with
      | (None, o) => (false, before :: old, o)
      | (Some sa, o) => let '(ok, old, o) := save_handlers sigs old o in (ok, sa :: old, o)
      end
  | _, _ => (true, old, o)
  end.

Fixpoint install_each (sigs : list Z) (sa : sigaction) (o : os) : os :=
  match sigs with
  | [] => o
  | sig :: sigs => install_each sigs sa (sys_sigaction_set o sig sa).2
  end.

Fixpoint restore_each (sigs : list Z) (old : list sigaction) (o : os) : os :=
  match sigs, old with
  | sig :: sigs, sa :: old =>
      let '(ok, o) := sys_sigaction_set o sig sa in
      restore_each sigs old (if ok : bool then o else InstallDefaultHandler o sig)
  | _, _ => o
  end.

(** The result of an access through the null pointer. *)
Definition null_deref {A} : res A := Fault OutOfBounds.

Section Handler.

(** The address of ExceptionHandler::SignalHandler. *)
Variable SignalHandler : Z.

Definition handler_action : sigaction :=
  mkSigaction SignalHandler (list_to_set kExceptionSignals) (Z.lor SA_ONSTACK SA_SIGINFO).

Definition InstallHandlersLocked (o : os) (s : signal_state) : bool * os * signal_state :=
  if handlers_installed s then (false, o, s)
  else
    let '(ok, old, o) := save_handlers kExceptionSignals (old_handlers s) o in
    if negb (ok : bool) then (false, o, SignalState old false)
    else (true, install_each kExceptionSignals handler_action o, SignalState old true).

Definition RestoreHandlersLocked (o : os) (s : signal_state) : os * signal_state :=
  if negb (handlers_installed s) then (o, s)
  else (restore_each kExceptionSignals (old_handlers s) o, SignalState (old_handlers s) false).

(** * One handler *)

(** What a signal handler is told of its signal. *)
Record siginfo := SigInfo { si_code : Z; si_pid : Z }.

Definition SI_USER : Z := 0.
Definition SI_TKILL : Z := -6.

Record CrashContext := Crash { crash_siginfo : siginfo; crash_tid : Z; crash_uc : Z }.

(** The callbacks are those of the client, with the argument they are given;
    [crash_generation_client_] tells whether dumps are out of process. *)
Record ExceptionHandler := Handler {
  filter_ : option (Z -> bool);
  callback_ : option (descriptor -> Z -> bool -> bool);
  callback_context_ : Z;
  crash_generation_client_ : bool;
  minidump_descriptor_ : descriptor;
  crash_handler_ : option (CrashContext -> Z -> bool)
}.

(** The outcomes of what GenerateDump calls: sendmsg to the server, the memory
    of the child's stack, pipe, clone, and the status that waitpid gives. *)
Record dump_env := DumpEnv {
  sendmsg_ok : bool;
  stack_allocated : bool;
  pipe_ok : bool;
  child : option Z;
  wait_status : option Z
}.

Definition WIFEXITED (status : Z) : bool := Z.land status 0x7f =? 0.
Definition WEXITSTATUS (status : Z) : Z := Z.shiftr (Z.land status 0xff00) 8.

Inductive action :=
| SetDumpable
| TruncateFile (fd : Z)
| RequestDump (context : CrashContext)
| Clone (context : CrashContext) (pipe : bool)
| SetPtracer (child : Z)
| SendContinue
| WaitChild (child : Z)
| CloseFds.

(** CrashGenerationClient: it is there when the descriptor is valid, and the
    answer of the server is not looked at. *)
Definition TryCreate (server_fd : Z) : bool := negb (server_fd <? 0).

Definition RequestDump_run (env : dump_env) : bool := if negb (pipe_ok env) then false else sendmsg_ok env.

(** What GenerateDump does, and its result. *)
Definition GenerateDump (h : ExceptionHandler) (env : dump_env) (c : CrashContext) : bool * list action :=
  if crash_generation_client_ h then (RequestDump_run env, [RequestDump c])
  else if negb (stack_allocated env) then (false, [])
  else
    match child env with
    | None => (false, [Clone c (pipe_ok env); CloseFds])
    | Some pid =>
        let success := match wait_status env with Some status => WIFEXITED status && (WEXITSTATUS status =? 0) | None => false end in
        let success := match callback_ h with Some f => f (minidump_descriptor_ h) (callback_context_ h) success | None => success end in
        (success, [Clone c (pipe_ok env); SetPtracer pid; SendContinue; WaitChild pid; CloseFds])
    end.

(** HandleSignal after the filter, on the thread [tid] of the process [pid]. *)
Definition handle_signal (pid tid : Z) (h : ExceptionHandler) (env : dump_env) (info : siginfo) (uc : Z) : bool * list action :=
  let signal_trusted := 0 <? si_code info in
  let signal_pid_trusted := (si_code info =? SI_USER) || (si_code info =? SI_TKILL) in
  let dumpable := if signal_trusted || (signal_pid_trusted && (si_pid info =? pid)) then [SetDumpable] else [] in
  let c := Crash info tid uc in
  if match crash_handler_ h with Some f => f c (callback_context_ h) | None => false end then (true, dumpable)
  else let '(success, acts) := GenerateDump h env c in (success, dumpable ++ acts).

Definition HandleSignal (pid tid : Z) (h : ExceptionHandler) (env : dump_env) (info : siginfo) (uc : Z) : bool * list action :=
  if match filter_ h with Some f => negb (f (callback_context_ h)) | None => false end then (false, [])
  else handle_signal pid tid h env info uc.

(** [uc] is what getcontext gives. *)
Definition SimulateSignalDelivery (pid tid : Z) (h : ExceptionHandler) (env : dump_env) (uc : Z) : bool * list action :=
  HandleSignal pid tid h env (SigInfo SI_USER pid) uc.

(** The file of a descriptor that has one is emptied first; [getcontext_ok] is
    whether getcontext gives [uc]. *)
Definition WriteMinidump (tid : Z) (h : ExceptionHandler) (guid : GUID) (getcontext_ok : bool) (uc : Z) (env : dump_env)
    : res (bool * ExceptionHandler * list action) :=
  let d := minidump_descriptor_ h in
  '(d, acts) ←
    (if negb (crash_generation_client_ h) && negb (IsFD d) && negb (IsMicrodumpOnConsole d) then d ← UpdatePath d guid; Ret (d, [])
     else Ret (d, if IsFD d then [TruncateFile (fd_ d)] else []));
  let h := Handler (filter_ h) (callback_ h) (callback_context_ h) (crash_generation_client_ h) d (crash_handler_ h) in
  if negb getcontext_ok then Ret (false, h, acts ++ [SetDumpable])
  else
    let '(success, more) := GenerateDump h env (Crash (SigInfo 0 0) tid uc) in
    Ret (success, h, acts ++ SetDumpable :: more).

(** * The handlers of the process *)

Record process := Process {
  kernel : os;
  stacks : stack_state;
  signals : signal_state;
  g_handler_stack_ : option (list Z);
  objects : gmap Z ExceptionHandler;
  g_first_chance_handler_ : option (Z -> siginfo -> Z -> bool)
}.

Definition set_kernel (p : process) (o : os) : process :=
  Process o (stacks p) (signals p) (g_handler_stack_ p) (objects p) (g_first_chance_handler_ p).

Definition SetFirstChanceExceptionHandler (p : process) (f : option (Z -> siginfo -> Z -> bool)) : process :=
  Process (kernel p) (stacks p) (signals p) (g_handler_stack_ p) (objects p) f.

(** [mem] is what calloc gives for a stack, [guid] the identifier of the first
    path. *)
Definition ExceptionHandler_constructor (kSigStackSize tid mem : Z) (guid : GUID) (p : process) (this : Z)
    (d : descriptor) (filter : option (Z -> bool)) (callback : option (descriptor -> Z -> bool -> bool)) (callback_context : Z)
    (install_handler : bool) (server_fd : Z) : res process :=
  d ← MinidumpDescriptor_copy d;
  let client := (0 <=? server_fd) && TryCreate server_fd in
  d ← (if negb client && negb (IsFD d) && negb (IsMicrodumpOnConsole d) then UpdatePath d guid else Ret d);
  let stack := default [] (g_handler_stack_ p) in
  let '(o, ss, sg) :=
    if install_handler then
      let '(o, ss) := InstallAlternateStackLocked kSigStackSize tid mem (kernel p) (stacks p) in
      let '(_, o, sg) := InstallHandlersLocked o (signals p) in (o, ss, sg)
    else (kernel p, stacks p, signals p) in
  Ret (Process o ss sg (Some (stack ++ [this])) (<[this := Handler filter callback callback_context client d None]> (objects p))
         (g_first_chance_handler_ p)).

(** std::find and erase: the first occurrence. *)
Fixpoint erase_first (this : Z) (l : list Z) : option (list Z) :=
  match l with
  | [] => None
  | h :: l => if h =? this then Some l else (fun l => h :: l) <$> erase_first this l
  end.

Definition ExceptionHandler_destructor (tid : Z) (p : process) (this : Z) : res process :=
  match g_handler_stack_ p with
  | None => null_deref
  | Some l =>
      l ← get_or_oob (erase_first this l);
      let objects' := delete this (objects p) in
      match l with
      | [] =>
          let '(o, ss) := RestoreAlternateStackLocked tid (kernel p) (stacks p) in
          let '(o, sg) := RestoreHandlersLocked o (signals p) in
          Ret (Process o ss sg None objects' (g_first_chance_handler_ p))
      | _ => Ret (Process (kernel p) (stacks p) (signals p) (Some l) objects' (g_first_chance_handler_ p))
      end
  end.

Definition set_crash_handler (h : ExceptionHandler) (callback : option (CrashContext -> Z -> bool)) : ExceptionHandler :=
  Handler (filter_ h) (callback_ h) (callback_context_ h) (crash_generation_client_ h) (minidump_descriptor_ h) callback.

Definition set_minidump_descriptor (h : ExceptionHandler) (d : descriptor) (guid : GUID) : res ExceptionHandler :=
  d ← assign (minidump_descriptor_ h) d guid;
  Ret (Handler (filter_ h) (callback_ h) (callback_context_ h) (crash_generation_client_ h) d (crash_handler_ h)).

(** The static one: a handler [this] that is made for one dump, without
    taking the signals. *)
Definition WriteMinidump_static (kSigStackSize tid : Z) (guid guid2 : GUID) (p : process) (this : Z) (dump_path : list Z)
    (callback : option (descriptor -> Z -> bool -> bool)) (callback_context : Z) (getcontext_ok : bool) (uc : Z) (env : dump_env)
    : res (bool * list action * process) :=
  d ← MinidumpDescriptor_directory dump_path;
  p ← ExceptionHandler_constructor kSigStackSize tid 0 guid p this d None callback callback_context false (-1);
  h ← get_or_oob (objects p !! this);
  '(success, _, acts) ← WriteMinidump tid h guid2 getcontext_ok uc env;
  p ← ExceptionHandler_destructor tid p this;
  Ret (success, acts, p).

(** [written] is the result of the writer of minidumps for the path. *)
Definition WriteMinidumpForChild (guid : GUID) (dump_path : list Z) (callback : option (descriptor -> Z -> bool -> bool))
    (callback_context : Z) (written : list Z -> bool) : res bool :=
  d ← MinidumpDescriptor_directory dump_path;
  d ← UpdatePath d guid;
  file ← path d;
  if negb (match file with Some f => written f | None => false end) then Ret false
  else Ret (match callback with Some f => f d callback_context true | None => true end).

(** * A signal *)

(** The loop over the stack of handlers, the newest first. *)
Fixpoint ask (pid tid : Z) (objs : gmap Z ExceptionHandler) (env : Z -> dump_env) (info : siginfo) (uc : Z) (hs : list Z)
    : res (bool * list (Z * list action)) :=
  match hs with
  | [] => Ret (false, [])
  | this :: hs =>
      h ← get_or_oob (objs !! this);
      let '(handled, acts) := HandleSignal pid tid h (env this) info uc in
      if handled : bool then Ret (true, [(this, acts)])
      else '(handled, more) ← ask pid tid objs env info uc hs; Ret (handled, (this, acts) :: more)
  end.

Inductive handler_end := RecoveredFirst | HandlerReset | Returned | Tgkill | Exited.

Definition lost_siginfo (sa : sigaction) : bool := (sa_handler sa =? SignalHandler) && negb (has_flag (sa_flags sa) SA_SIGINFO).

(** The rest of SignalHandler once the handlers have been asked. *)
Definition reraise (sig : Z) (info : siginfo) (p : process) : process * handler_end :=
  if (si_code info <=? 0) || (sig =? SIGABRT) then
    let '(ok, o) := next_result (kernel p) in (set_kernel p o, if ok : bool then Tgkill else Exited)
  else (p, Returned).

Definition SignalHandler_run (pid tid sig : Z) (info : siginfo) (uc : Z) (env : Z -> dump_env) (p : process)
    : res (process * handler_end * list (Z * list action)) :=
  if match g_first_chance_handler_ p with Some f => f sig info uc | None => false end then Ret (p, RecoveredFirst, [])
  else
    let '(cur_handler, o) := sys_sigaction_get (kernel p) sig in
    let p := set_kernel p o in
    if match cur_handler with Some sa => lost_siginfo sa | None => false end then
      let '(ok, o) := sys_sigaction_set (kernel p) sig (mkSigaction SignalHandler {[sig]} (Z.lor SA_ONSTACK SA_SIGINFO)) in
      Ret (set_kernel p (if ok : bool then o else InstallDefaultHandler o sig), HandlerReset, [])
    else
      match g_handler_stack_ p with
      | None => null_deref
      | Some l =>
          '(handled, acts) ← ask pid tid (objects p) env info uc (rev l);
          let '(o, sg) :=
            if handled : bool then (InstallDefaultHandler (kernel p) sig, signals p)
            else RestoreHandlersLocked (kernel p) (signals p) in
          let '(p, e) := reraise sig info (Process o (stacks p) sg (g_handler_stack_ p) (objects p) (g_first_chance_handler_ p)) in
          Ret (p, e, acts)
      end.

(** What becomes of a signal in the end. *)
Inductive fate := DefaultAction | Ignored | PassedTo (handler : Z) | Recovered | Exit1 | Lost.

(** The kernel delivers [sig] to its action; when SignalHandler returns, the
    signal comes again when it was sent again, or when it is a fault of the
    instruction, whose code is positive. *)
Fixpoint crash (fuel : nat) (pid tid sig : Z) (info : siginfo) (uc : Z) (env : Z -> dump_env) (p : process)
    : res (process * fate * list (Z * list action)) :=
  match fuel with
  | O => Fault OutOfFuel
  | S fuel =>
      let h := sa_handler (action_of (kernel p) sig) in
      if h =? SIG_DFL then Ret (p, DefaultAction, [])
      else if h =? SIG_IGN then Ret (p, Ignored, [])
      else if negb (h =? SignalHandler) then Ret (p, PassedTo h, [])
      else
        '(p, e, acts) ← SignalHandler_run pid tid sig info uc env p;
        match e with
        | RecoveredFirst => Ret (p, Recovered, acts)
        | Exited => Ret (p, Exit1, acts)
        | Tgkill => '(p, f, more) ← crash fuel pid tid sig (SigInfo SI_TKILL pid) uc env p; Ret (p, f, acts ++ more)
        | HandlerReset | Returned =>
            if 0 <? si_code info then '(p, f, more) ← crash fuel pid tid sig info uc env p; Ret (p, f, acts ++ more)
            else Ret (p, Lost, acts)
        end
  end.

End Handler.

(** * Calls that succeed *)

Section Quiet.

Variable SignalHandler : Z.
Hypothesis HSH : SignalHandler <> SIG_DFL /\ SignalHandler <> SIG_IGN.

#[local] Abbreviation ours := (handler_action SignalHandler).

Definition quiet (o : os) : Prop := results o = [].

Lemma get_quiet o sig : quiet o -> sys_sigaction_get o sig = (Some (action_of o sig), o).
Proof. intros H. unfold sys_sigaction_get, next_result. by rewrite H. Qed.

Definition with_action (o : os) (sig : Z) (sa : sigaction) : os := Os (<[sig := sa]> (actions o)) (altstacks o) (heap o) (results o).

Lemma set_quiet o sig sa : quiet o -> sys_sigaction_set o sig sa = (true, with_action o sig sa).
Proof. intros H. unfold sys_sigaction_set, next_result. by rewrite H. Qed.

Lemma action_of_with o sig sa sig' : action_of (with_action o sig sa) sig' = if decide (sig' = sig) then sa else action_of o sig'.
Proof.
  unfold action_of, with_action. cbn [actions]. case_decide; [subst; by rewrite lookup_insert_eq|by rewrite lookup_insert_ne].
Qed.

Lemma save_quiet sigs : forall old o, quiet o -> length old = length sigs -> save_handlers sigs old o = (true, map (action_of o) sigs, o).
Proof.
  induction sigs as [|sig sigs IH]; intros [|before old] o Ho Hl; try done. cbn [save_handlers map].
  rewrite get_quiet by done. rewrite IH by (done || (cbn in Hl; lia)). done.
Qed.

(** Setting the actions of a list of signals, in order. *)
Fixpoint with_actions (o : os) (l : list (Z * sigaction)) : os :=
  match l with [] => o | (sig, sa) :: l => with_actions (with_action o sig sa) l end.

Lemma with_actions_quiet l : forall o, quiet o -> quiet (with_actions o l).
Proof. induction l as [|[sig sa] l IH]; intros o Ho; [done|]. cbn [with_actions]. by apply IH. Qed.

Lemma with_actions_rest l : forall o, altstacks (with_actions o l) = altstacks o /\ heap (with_actions o l) = heap o.
Proof. induction l as [|[sig sa] l IH]; intros o; [done|]. cbn [with_actions]. by rewrite !(proj1 (IH _)), !(proj2 (IH _)). Qed.

Lemma install_quiet sigs sa : forall o, quiet o -> install_each sigs sa o = with_actions o (map (fun sig => (sig, sa)) sigs).
Proof.
  induction sigs as [|sig sigs IH]; intros o Ho; [done|]. cbn [install_each map with_actions]. rewrite set_quiet by done. by apply IH.
Qed.

Lemma restore_quiet sigs : forall old o, quiet o -> length old = length sigs -> restore_each sigs old o = with_actions o (zip sigs old).
Proof.
  induction sigs as [|sig sigs IH]; intros [|sa old] o Ho Hl; try done. cbn [restore_each zip zip_with with_actions].
  rewrite set_quiet by done. apply IH; [done|]. cbn in Hl. lia.
Qed.

(** What [f] says for the signals of the list, the old actions for the rest. *)
Lemma action_of_with_actions sigs f : NoDup sigs -> forall o sig,
  action_of (with_actions o (map (fun s => (s, f s)) sigs)) sig = if decide (sig ∈ sigs) then f sig else action_of o sig.
Proof.
  induction 1 as [|s sigs Hs _ IH]; intros o sig; [done|]. cbn [map with_actions]. rewrite IH, action_of_with.
  destruct (decide (sig ∈ sigs)) as [H|H].
  - rewrite decide_True; [done|set_solver].
  - destruct (decide (sig = s)) as [->|Hne]; [by rewrite decide_True by set_solver|by rewrite decide_False by set_solver].
Qed.

Lemma kExceptionSignals_nodup : NoDup kExceptionSignals.
Proof. apply (bool_decide_unpack _). vm_compute. exact I. Qed.

Lemma zip_map {A B} (f : A -> B) (l : list A) : zip l (map f l) = map (fun x => (x, f x)) l.
Proof. induction l as [|x l IH]; [done|]. cbn. by rewrite IH. Qed.

(** * The life of the handlers *)

(** What changes the handlers of a process, on the thread [tid]: a handler is
    made or destroyed, or a signal comes that no handler takes care of. *)
Inductive step (kSigStackSize tid : Z) (p p' : process) : Prop :=
| step_construct this d filter callback cc install server_fd mem guid :
    ExceptionHandler_constructor SignalHandler kSigStackSize tid mem guid p this d filter callback cc install server_fd = Ret p' ->
    mem <> 0 -> mem ∉ heap (kernel p) ->
    step kSigStackSize tid p p'
| step_destruct this :
    ExceptionHandler_destructor tid p this = Ret p' ->
    step kSigStackSize tid p p'
| step_signal pid sig info uc env l acts e all :
    g_handler_stack_ p = Some l -> ask pid tid (objects p) env info uc (rev l) = Ret (false, acts) ->
    SignalHandler_run SignalHandler pid tid sig info uc env p = Ret (p', e, all) ->
    step kSigStackSize tid p p'.

(** The state of a process before the first handler is made. *)
Definition fresh_process (o : os) (f : option (Z -> siginfo -> Z -> bool)) : process :=
  Process o (StackState zero_stack zero_stack false) (SignalState (replicate 6 zero_sigaction) false) None ∅ f.

Section Life.

Context (o0 : os) (f0 : option (Z -> siginfo -> Z -> bool)) (k : Z).
Hypothesis Hquiet : quiet o0.
Hypothesis Hforeign : forall sig, sa_handler (action_of o0 sig) <> SignalHandler.

(** The actions are the original ones, or ours for the signals of a crash,
    with the original ones kept. *)
Definition actions_inv (o : os) (s : signal_state) : Prop :=
  quiet o /\ length (old_handlers s) = 6%nat /\
  if handlers_installed s
  then old_handlers s = map (action_of o0) kExceptionSignals
    /\ forall sig, action_of o sig = if decide (sig ∈ kExceptionSignals) then ours else action_of o0 sig
  else forall sig, action_of o sig = action_of o0 sig.

Lemma install_inv o s : actions_inv o s ->
  let '(_, o', s') := InstallHandlersLocked SignalHandler o s in
  actions_inv o' s' /\ altstacks o' = altstacks o /\ heap o' = heap o.
Proof.
  intros H. unfold InstallHandlersLocked. destruct (handlers_installed s) eqn:Ei; [done|].
  destruct H as (Hq & Hl & H). rewrite Ei in H. rewrite save_quiet by done. cbn [negb]. rewrite install_quiet by done.
  split; [|apply with_actions_rest]. split; [by apply with_actions_quiet|]. split; [done|]. cbn [handlers_installed old_handlers].
  split; [by apply map_ext|]. intros sig. rewrite (action_of_with_actions kExceptionSignals (fun _ => ours)) by apply kExceptionSignals_nodup. by rewrite H.
Qed.

Lemma restore_inv o s : actions_inv o s ->
  let '(o', s') := RestoreHandlersLocked o s in
  actions_inv o' s' /\ handlers_installed s' = false /\ altstacks o' = altstacks o /\ heap o' = heap o.
Proof.
  intros H. unfold RestoreHandlersLocked. destruct (handlers_installed s) eqn:Ei; cbn [negb]; [|by rewrite Ei].
  destruct H as (Hq & Hl & H). rewrite Ei in H. destruct H as [Ho H]. rewrite restore_quiet by done. rewrite Ho, zip_map.
  split; [|split; [done|apply with_actions_rest]]. split; [by apply with_actions_quiet|]. split; [by rewrite <- Ho|]. cbn [handlers_installed].
  intros sig. rewrite action_of_with_actions by apply kExceptionSignals_nodup. rewrite H. by repeat case_decide.
Qed.

(** Nothing of this looks at the alternate stacks. *)
Lemma altstack_inv_actions o o' s : actions o' = actions o -> results o' = results o -> actions_inv o s -> actions_inv o' s.
Proof.
  intros Ha Hr (Hq & Hl & H). assert (forall sig, action_of o' sig = action_of o sig) as E by (intros sig; unfold action_of; by rewrite Ha).
  split; [unfold quiet; by rewrite Hr|]. split; [done|]. destruct (handlers_installed s).
  - split; [apply H|]. intros sig. rewrite E. apply H.
  - intros sig. by rewrite E.
Qed.

Lemma install_stack_actions tid mem o s : quiet o ->
  let '(o', _) := InstallAlternateStackLocked k tid mem o s in actions o' = actions o /\ results o' = results o.
Proof.
  intros Hq. unfold InstallAlternateStackLocked. destruct (stack_installed s); [done|].
  unfold sys_sigaltstack_get, next_result. rewrite Hq. destruct (_ || _); [|done].
  unfold calloc, sys_sigaltstack_set, next_result. destruct (mem =? 0); cbn [results]; by rewrite Hq.
Qed.

Lemma restore_stack_actions tid o s : quiet o ->
  let '(o', _) := RestoreAlternateStackLocked tid o s in actions o' = actions o /\ results o' = results o.
Proof.
  intros Hq. unfold RestoreAlternateStackLocked. destruct (stack_installed s); [|done].
  unfold sys_sigaltstack_get, sys_sigaltstack_set, next_result. rewrite Hq. cbn [negb]. destruct (_ =? _); [|done]. by rewrite Hq.
Qed.

(** The invariant of a process. *)
Definition process_inv (p : process) : Prop :=
  actions_inv (kernel p) (signals p) /\ (g_handler_stack_ p = None -> handlers_installed (signals p) = false).

Lemma get_no_siginfo p : process_inv p -> forall sig, lost_siginfo SignalHandler (action_of (kernel p) sig) = false.
Proof.
  intros [(Hq & _ & H) _] sig. unfold lost_siginfo. assert (action_of (kernel p) sig = ours \/ action_of (kernel p) sig = action_of o0 sig) as [->| ->].
  { destruct (handlers_installed (signals p)); [destruct H as [_ H]; rewrite H; case_decide; auto|right; apply H]. }
  - by rewrite andb_false_r.
  - destruct (Z.eqb_spec (sa_handler (action_of o0 sig)) SignalHandler) as [E|]; [by destruct (Hforeign sig)|done].
Qed.

Lemma step_inv tid p p' : process_inv p -> step k tid p p' -> process_inv p'.
Proof.
  intros Hp. destruct 1 as [this d filter callback cc install server_fd mem guid E _ _|this E|pid sig info uc env l acts e all El Ea E].
  - unfold ExceptionHandler_constructor in E. apply bind_Ret_inv in E as (d' & _ & E). apply bind_Ret_inv in E as (d2 & _ & E).
    destruct install.
    + pose proof (install_stack_actions tid mem (kernel p) (stacks p) (proj1 (proj1 Hp))) as Hs.
      destruct (InstallAlternateStackLocked _ _ _ _ _) as [o ss]. destruct Hs as [Hs1 Hs2].
      pose proof (install_inv o (signals p) (altstack_inv_actions _ _ _ Hs1 Hs2 (proj1 Hp))) as Hi.
      destruct (InstallHandlersLocked _ _ _) as [[? o'] sg]. apply Ret_inj in E as <-. split; [apply Hi|done].
    + apply Ret_inj in E as <-. split; [apply Hp|done].
  - unfold ExceptionHandler_destructor in E. destruct (g_handler_stack_ p) eqn:Eg; [|done].
    apply bind_Ret_inv in E as (l' & _ & E). destruct l' as [|h l'].
    + pose proof (restore_stack_actions tid (kernel p) (stacks p) (proj1 (proj1 Hp))) as Hs.
      destruct (RestoreAlternateStackLocked _ _ _) as [o ss]. destruct Hs as [Hs1 Hs2].
      pose proof (restore_inv o (signals p) (altstack_inv_actions _ _ _ Hs1 Hs2 (proj1 Hp))) as Hi.
      destruct (RestoreHandlersLocked o _) as [o' sg]. apply Ret_inj in E as <-. split; [apply Hi|]. intros _. apply Hi.
    + apply Ret_inj in E as <-. split; [apply Hp|done].
  - unfold SignalHandler_run in E. destruct (match g_first_chance_handler_ p with Some _ => _ | None => _ end); [by injection E as <- <- <-|].
    destruct Hp as [Hp Hn]. rewrite get_quiet in E by apply Hp. rewrite (get_no_siginfo p (conj Hp Hn)) in E.
    cbn [set_kernel g_handler_stack_ kernel objects stacks signals g_first_chance_handler_] in E. rewrite El, Ea, bind_Ret in E.
    pose proof (restore_inv (kernel p) (signals p) Hp) as Hi. destruct (RestoreHandlersLocked _ _) as [o sg].
    unfold reraise in E. cbn [kernel g_handler_stack_ objects stacks signals g_first_chance_handler_] in E.
    destruct Hi as (Hi & Hi2 & _). unfold next_result in E. rewrite (proj1 Hi) in E.
    destruct (_ || _); injection E as <- _ _; (split; [exact Hi|done]).
Qed.

Lemma fresh_inv : process_inv (fresh_process o0 f0).
Proof. split; [|done]. by split. Qed.

Lemma steps_inv p : rtc (fun p p' => exists tid, step k tid p p') (fresh_process o0 f0) p -> process_inv p.
Proof.
  intros H. pose proof fresh_inv as Hi. revert Hi. induction H as [|p1 p2 p3 [tid Hs] _ IH]; intros Hi; [done|].
  apply IH. by eapply step_inv.
Qed.

(** However handlers are made and destroyed, on whatever threads, and
    whatever signals come that no handler takes care of, the action of a
    signal is the original one or, for the signals of a crash, ours, which has
    all its flags; and when no handler is left, every signal has its original
    action again. *)
Theorem handlers_restored p : rtc (fun p p' => exists tid, step k tid p p') (fresh_process o0 f0) p ->
  (forall sig, action_of (kernel p) sig = action_of o0 sig \/ sig ∈ kExceptionSignals /\ action_of (kernel p) sig = ours)
  /\ (g_handler_stack_ p = None -> forall sig, action_of (kernel p) sig = action_of o0 sig).
Proof.
  intros Hp. destruct (steps_inv p Hp) as [(_ & _ & H) Hn]. destruct (handlers_installed (signals p)) eqn:E.
  - destruct H as [_ H]. split; [|intros Hs; by specialize (Hn Hs)]. intros sig. rewrite H. case_decide; [by right|by left].
  - split; [intros sig; by left|by intros _].
Qed.

(** The alternate stack of a thread where every handler is made and destroyed. *)
Context (tid : Z).
Hypothesis Hstack : altstack_of o0 tid = no_stack \/ ss_sp (altstack_of o0 tid) <> 0 /\ ss_flags (altstack_of o0 tid) = 0.

Definition stack_inv (o : os) (s : stack_state) : Prop :=
  quiet o /\
  if stack_installed s
  then exists mem, mem <> 0 /\ (mem ∉ heap o0) /\ (heap o = {[mem]} ∪ heap o0) /\ new_stack s = Stack mem 0 k
    /\ altstack_of o tid = new_stack s /\ old_stack s = altstack_of o0 tid
  else altstack_of o tid = altstack_of o0 tid /\ heap o = heap o0.

Lemma altstack_of_with o s t : altstack_of (Os (actions o) (<[t := s]> (altstacks o)) (heap o) (results o)) t = s.
Proof. unfold altstack_of. cbn [altstacks]. by rewrite lookup_insert_eq. Qed.

Lemma install_stack_inv mem o s : mem <> 0 -> mem ∉ heap o -> stack_inv o s ->
  let '(o', s') := InstallAlternateStackLocked k tid mem o s in stack_inv o' s'.
Proof.
  intros Hm Hf [Hq H]. unfold InstallAlternateStackLocked. destruct (stack_installed s) eqn:Ei; [split; [done|by rewrite Ei]|].
  destruct H as [Ha Hh]. unfold sys_sigaltstack_get, next_result. rewrite Hq. cbn [default]. destruct (_ || _).
  - unfold calloc, sys_sigaltstack_set, next_result. destruct (Z.eqb_spec mem 0); [done|]. cbn [results ss_flags]. rewrite Hq.
    change (has_flag 0 SS_DISABLE) with false. cbn match. split; [done|]. cbn [stack_installed new_stack old_stack heap altstacks actions].
    exists mem. split; [done|]. split; [by rewrite <- Hh|]. split; [by rewrite Hh|]. split; [done|]. split; [|done].
    unfold altstack_of. cbn [altstacks]. by rewrite lookup_insert_eq.
  - split; [done|]. by cbn [stack_installed].
Qed.

Lemma restore_stack_inv o s : stack_inv o s ->
  let '(o', s') := RestoreAlternateStackLocked tid o s in stack_inv o' s' /\ stack_installed s' = false.
Proof.
  intros [Hq H]. unfold RestoreAlternateStackLocked. destruct (stack_installed s) eqn:Ei; cbn [negb]; [|split; [split; [done|by rewrite Ei]|done]].
  destruct H as (mem & Hm & Hf & Hh & Hn & Ha & Ho). unfold sys_sigaltstack_get, next_result. rewrite Hq, Ha, Z.eqb_refl.
  unfold sys_sigaltstack_set, next_result. rewrite Hq.
  set (target := if negb (ss_sp (old_stack s) =? 0) then old_stack s else no_stack).
  assert ((if has_flag (ss_flags target) SS_DISABLE then no_stack else target) = altstack_of o0 tid) as Et.
  { unfold target. rewrite Ho. destruct Hstack as [Hs|[Hs Hs']]; [by rewrite Hs|].
    destruct (Z.eqb_spec (ss_sp (altstack_of o0 tid)) 0); [done|]. cbn [negb]. by rewrite Hs'. }
  rewrite Et. split; [|done]. split; [done|]. cbn [stack_installed]. unfold free. cbn [heap altstacks actions results].
  split; [unfold altstack_of at 1; cbn [altstacks]; by rewrite lookup_insert_eq|].
  rewrite Hh, Hn. cbn [ss_sp]. set_solver.
Qed.

Lemma stack_inv_actions o o' s : altstacks o' = altstacks o -> heap o' = heap o -> results o' = results o -> stack_inv o s -> stack_inv o' s.
Proof.
  intros Ha Hh Hr [Hq H]. split; [unfold quiet; by rewrite Hr|]. unfold altstack_of in *. rewrite Ha, Hh. done.
Qed.

Definition stacks_inv (p : process) : Prop :=
  process_inv p /\ stack_inv (kernel p) (stacks p) /\ (g_handler_stack_ p = None -> stack_installed (stacks p) = false).

Lemma step_stacks_inv p p' : stacks_inv p -> step k tid p p' -> stacks_inv p'.
Proof.
  intros (Hp & Hs & Hn) Hstep. split; [by eapply step_inv|].
  destruct Hstep as [this d filter callback cc install server_fd mem guid E Hm Hf|this E|pid sig info uc env l acts e all El Ea E].
  - unfold ExceptionHandler_constructor in E. apply bind_Ret_inv in E as (d' & _ & E). apply bind_Ret_inv in E as (d2 & _ & E).
    destruct install; [|by apply Ret_inj in E as <-].
    pose proof (install_stack_actions tid mem (kernel p) (stacks p) (proj1 (proj1 Hp))) as Hi.
    pose proof (install_stack_inv mem (kernel p) (stacks p) Hm Hf Hs) as Hj.
    destruct (InstallAlternateStackLocked _ _ _ _ _) as [o ss]. destruct Hi as [Hi1 Hi2].
    pose proof (install_inv o (signals p) (altstack_inv_actions _ _ _ Hi1 Hi2 (proj1 Hp))) as Hk.
    destruct (InstallHandlersLocked _ _ _) as [[? o'] sg]. apply Ret_inj in E as <-. split; [|done].
    cbn [kernel stacks]. destruct Hk as ((Hq & _) & Ha & Hh). eapply stack_inv_actions; [exact Ha|exact Hh| |exact Hj].
    rewrite Hq. by destruct Hj as [-> _].
  - unfold ExceptionHandler_destructor in E. destruct (g_handler_stack_ p) eqn:Eg; [|done].
    apply bind_Ret_inv in E as (l' & _ & E). destruct l' as [|h l']; [|by apply Ret_inj in E as <-].
    pose proof (restore_stack_actions tid (kernel p) (stacks p) (proj1 (proj1 Hp))) as Hi.
    pose proof (restore_stack_inv (kernel p) (stacks p) Hs) as Hj.
    destruct (RestoreAlternateStackLocked _ _ _) as [o ss]. destruct Hi as [Hi1 Hi2]. destruct Hj as [Hj Hj'].
    pose proof (restore_inv o (signals p) (altstack_inv_actions _ _ _ Hi1 Hi2 (proj1 Hp))) as Hk.
    destruct (RestoreHandlersLocked o _) as [o' sg]. apply Ret_inj in E as <-. split; [|done].
    cbn [kernel stacks]. destruct Hk as ((Hq & _) & _ & Ha & Hh). eapply stack_inv_actions; [exact Ha|exact Hh| |exact Hj].
    rewrite Hq. by destruct Hj as [-> _].
  - unfold SignalHandler_run in E. destruct (match g_first_chance_handler_ p with Some _ => _ | None => _ end); [by injection E as <- <- <-|].
    rewrite get_quiet in E by apply Hp. rewrite (get_no_siginfo p Hp) in E.
    cbn [set_kernel g_handler_stack_ kernel objects stacks signals g_first_chance_handler_] in E. rewrite El, Ea, bind_Ret in E.
    pose proof (restore_inv (kernel p) (signals p) (proj1 Hp)) as Hi. destruct (RestoreHandlersLocked _ _) as [o sg].
    unfold reraise in E. cbn [kernel g_handler_stack_ objects stacks signals g_first_chance_handler_] in E.
    destruct Hi as ((Hq & _) & _ & Ha & Hh). unfold next_result in E. rewrite Hq in E.
    assert (stack_inv o (stacks p)) by (eapply stack_inv_actions; [exact Ha|exact Hh| |exact Hs]; rewrite Hq; by destruct Hs as [-> _]).
    destruct (_ || _); injection E as <- _ _; (split; [done|by rewrite El in Hn]).
Qed.

(** When every handler is made and destroyed on one thread, then with no
    handler left the thread has its own alternate stack again, or none, and
    the memory of ours is freed; and as long as ours is installed it is in
    use. *)
Theorem altstack_restored p : rtc (step k tid) (fresh_process o0 f0) p ->
  (stack_installed (stacks p) = true -> altstack_of (kernel p) tid = new_stack (stacks p) /\ ss_sp (new_stack (stacks p)) ∈ heap (kernel p))
  /\ (g_handler_stack_ p = None -> altstack_of (kernel p) tid = altstack_of o0 tid /\ heap (kernel p) = heap o0).
Proof.
  intros H. assert (stacks_inv p) as (_ & [_ Hs] & Hn).
  { assert (stacks_inv (fresh_process o0 f0)) as Hi by (split; [apply fresh_inv|]; split; [by split|done]).
    revert Hi. induction H as [|p1 p2 p3 Hs _ IH]; intros Hi; [done|]. apply IH. by eapply step_stacks_inv. }
  split.
  - intros E. rewrite E in Hs. destruct Hs as (mem & _ & _ & Hh & Hnew & Ha & _). split; [done|]. rewrite Hh, Hnew. set_solver.
  - intros E. rewrite (Hn E) in Hs. done.
Qed.

(** * A crash *)

(** Whether a handler takes care of the signal. *)
Definition handles (pid t : Z) (objs : gmap Z ExceptionHandler) (env : Z -> dump_env) (info : siginfo) (uc this : Z) : bool :=
  match objs !! this with Some h => (HandleSignal pid t h (env this) info uc).1 | None => false end.

(** The elements up to the first that satisfies [P]. *)
Fixpoint until (P : Z -> bool) (l : list Z) : list Z :=
  match l with [] => [] | x :: l => x :: if P x then [] else until P l end.

Lemma ask_spec pid t objs env info uc hs : Forall (fun this => is_Some (objs !! this)) hs ->
  exists acts, ask pid t objs env info uc hs = Ret (existsb (handles pid t objs env info uc) hs, acts)
    /\ map fst acts = until (handles pid t objs env info uc) hs.
Proof.
  induction 1 as [|this hs [h Hh] _ (acts & IH & IH')]; [by exists []|]. cbn [ask existsb until]. rewrite Hh. cbn [get_or_oob]. rewrite bind_Ret.
  unfold handles at 1 3. rewrite Hh. destruct (HandleSignal pid t h (env this) info uc) as [[] a]; cbn [fst orb].
  - by exists [(this, a)].
  - rewrite IH, bind_Ret. exists ((this, a) :: acts). split; [done|]. cbn [map]. by rewrite IH'.
Qed.

Definition fate_of (h : Z) : fate := if h =? SIG_DFL then DefaultAction else if h =? SIG_IGN then Ignored else PassedTo h.

Lemma crash_foreign fuel pid t sig info uc env p : sa_handler (action_of (kernel p) sig) <> SignalHandler ->
  crash SignalHandler (S fuel) pid t sig info uc env p = Ret (p, fate_of (sa_handler (action_of (kernel p) sig)), []).
Proof.
  intros H. cbn [crash]. unfold fate_of. destruct (_ =? SIG_DFL); [done|]. destruct (_ =? SIG_IGN); [done|].
  by destruct (Z.eqb_spec (sa_handler (action_of (kernel p) sig)) SignalHandler).
Qed.

Lemma crash_ours fuel pid t sig info uc env p : sa_handler (action_of (kernel p) sig) = SignalHandler ->
  crash SignalHandler (S fuel) pid t sig info uc env p =
    '(p, e, acts) ← SignalHandler_run SignalHandler pid t sig info uc env p;
    match e with
    | RecoveredFirst => Ret (p, Recovered, acts)
    | Exited => Ret (p, Exit1, acts)
    | Tgkill => '(p, f, more) ← crash SignalHandler fuel pid t sig (SigInfo SI_TKILL pid) uc env p; Ret (p, f, acts ++ more)
    | HandlerReset | Returned =>
        if 0 <? si_code info then '(p, f, more) ← crash SignalHandler fuel pid t sig info uc env p; Ret (p, f, acts ++ more)
        else Ret (p, Lost, acts)
    end.
Proof.
  intros H. cbn [crash]. rewrite H. destruct (Z.eqb_spec SignalHandler SIG_DFL); [by destruct HSH|].
  destruct (Z.eqb_spec SignalHandler SIG_IGN); [by destruct HSH|]. by rewrite Z.eqb_refl.
Qed.

(** One run of SignalHandler, in a process that has handlers. *)
Lemma SignalHandler_run_spec pid t sig info uc env p l : process_inv p -> handlers_installed (signals p) = true ->
  g_handler_stack_ p = Some l -> g_first_chance_handler_ p = None -> Forall (fun this => is_Some (objects p !! this)) l ->
  sig ∈ kExceptionSignals ->
  let P := handles pid t (objects p) env info uc in
  exists p' e acts, SignalHandler_run SignalHandler pid t sig info uc env p = Ret (p', e, acts)
    /\ map fst acts = until P (rev l)
    /\ e = (if (si_code info <=? 0) || (sig =? SIGABRT) then Tgkill else Returned)
    /\ sa_handler (action_of (kernel p') sig) = (if existsb P l then SIG_DFL else sa_handler (action_of o0 sig)).
Proof.
  intros Hp Hi Hl Hf Ho Hsig P. unfold SignalHandler_run. rewrite Hf, get_quiet by apply Hp. rewrite (get_no_siginfo p Hp).
  cbn [set_kernel g_handler_stack_ kernel objects stacks signals g_first_chance_handler_]. rewrite Hl.
  destruct (ask_spec pid t (objects p) env info uc (rev l)) as (acts & -> & Hacts); [by apply Forall_rev|]. rewrite bind_Ret. fold P.
  assert (existsb P (rev l) = existsb P l) as ->.
  { apply eq_true_iff_eq. rewrite !existsb_exists. split; intros (x & Hx & Hx'); exists x; (split; [by apply in_rev; rewrite ?rev_involutive|done]). }
  destruct (existsb P l) eqn:Ep.
  - unfold InstallDefaultHandler. rewrite set_quiet by apply Hp. cbn [snd]. unfold reraise, next_result. cbn [kernel].
    cbn [with_action results]. rewrite (proj1 (proj1 Hp)).
    destruct (_ || _); (eexists _, _, acts; split; [done|]; split; [done|]; split; [done|]); cbn [kernel set_kernel];
      rewrite action_of_with, decide_True by done; done.
  - pose proof (restore_inv (kernel p) (signals p) (proj1 Hp)) as Hr. destruct (RestoreHandlersLocked _ _) as [o sg].
    destruct Hr as ((Hq & _ & Hr) & Hr' & _). rewrite Hr' in Hr. unfold reraise, next_result. cbn [kernel]. rewrite Hq.
    destruct (_ || _); (eexists _, _, acts; split; [done|]; split; [done|]; split; [done|]); cbn [kernel set_kernel]; by rewrite Hr.
Qed.

(** C11: a signal of a crash, sent by the kernel or by somebody, in a process
    that has installed its handlers: the handlers are asked once each, the
    newest first, up to the one that takes care of it; then the signal comes
    again and goes to the default action, or to the original one when none
    did. It never comes back to SignalHandler. *)
Theorem crash_is_handled_once fuel pid t sig info uc env p l : rtc (fun p p' => exists tid, step k tid p p') (fresh_process o0 f0) p ->
  handlers_installed (signals p) = true -> g_handler_stack_ p = Some l -> g_first_chance_handler_ p = None ->
  Forall (fun this => is_Some (objects p !! this)) l -> sig ∈ kExceptionSignals ->
  let P := handles pid t (objects p) env info uc in
  exists p' acts, crash SignalHandler (S (S fuel)) pid t sig info uc env p
      = Ret (p', if existsb P l then DefaultAction else fate_of (sa_handler (action_of o0 sig)), acts)
    /\ map fst acts = until P (rev l).
Proof.
  intros Hp Hi Hl Hf Ho Hsig P. pose proof (steps_inv p Hp) as Hinv.
  destruct (SignalHandler_run_spec pid t sig info uc env p l Hinv Hi Hl Hf Ho Hsig) as (p' & e & acts & E & Hacts & He & Hh). fold P in Hacts, Hh.
  destruct Hinv as [(_ & _ & Hc) _]. rewrite Hi in Hc. destruct Hc as [_ Hc].
  rewrite crash_ours by (by rewrite Hc, decide_True). rewrite E, bind_Ret.
  assert (sa_handler (action_of (kernel p') sig) <> SignalHandler) as Hne by (rewrite Hh; destruct (existsb P l); [by destruct HSH|apply Hforeign]).
  assert (fate_of (sa_handler (action_of (kernel p') sig)) = if existsb P l then DefaultAction else fate_of (sa_handler (action_of o0 sig))) as Hfate
    by (rewrite Hh; by destruct (existsb P l)).
  destruct (Z.leb_spec (si_code info) 0) as [Hs|Hs], (sig =? SIGABRT); cbn [orb] in He; subst e; cbn match;
    try (rewrite crash_foreign, bind_Ret by done; exists p', acts; split; [by rewrite Hfate, app_nil_r|done]).
  destruct (Z.ltb_spec 0 (si_code info)); [|lia]. rewrite crash_foreign, bind_Ret by done. exists p', acts. split; [by rewrite Hfate, app_nil_r|done].
Qed.

End Life.

(** The action has lost SA_SIGINFO, as signal() does: a signal that somebody
    sent is gone after the actions are set again. *)
Lemma sent_signal_lost fuel pid t sig info uc env p : quiet (kernel p) -> g_first_chance_handler_ p = None ->
  sa_handler (action_of (kernel p) sig) = SignalHandler -> has_flag (sa_flags (action_of (kernel p) sig)) SA_SIGINFO = false ->
  si_code info <= 0 ->
  exists p', crash SignalHandler (S fuel) pid t sig info uc env p = Ret (p', Lost, []).
Proof.
  intros Hq Hf Hh Hs Hc. rewrite crash_ours by done. unfold SignalHandler_run. rewrite Hf, get_quiet by done.
  unfold lost_siginfo. rewrite Hh, Hs, Z.eqb_refl. cbn [negb andb set_kernel kernel]. rewrite set_quiet, bind_Ret by done.
  destruct (Z.ltb_spec 0 (si_code info)); [lia|]. by eexists.
Qed.

(** A thread that waited for the mutex while the last handler was destroyed. *)
Lemma late_signal_faults pid t sig info uc env p : quiet (kernel p) -> g_first_chance_handler_ p = None -> g_handler_stack_ p = None ->
  lost_siginfo SignalHandler (action_of (kernel p) sig) = false ->
  SignalHandler_run SignalHandler pid t sig info uc env p = Fault OutOfBounds.
Proof.
  intros Hq Hf Hg Hl. unfold SignalHandler_run. rewrite Hf, get_quiet, Hl by done. cbn [set_kernel g_handler_stack_]. by rewrite Hg.
Qed.

End Quiet.

(** * A process *)

Module Ex.

Definition kernel0 : os := Os {[SIGSEGV := mkSigaction 0x7000 ∅ SA_SIGINFO]} ∅ ∅ [].

Definition SignalHandler : Z := 0x5000.

Definition descriptor_of (fd : Z) : descriptor := Descriptor kWriteMinidumpToFd fd [] [] CNull (-1) 0 false false no_extra_info.

Definition process_of (r : res process) : process := match r with Ret p => p | Fault _ => fresh_process kernel0 None end.

(** One handler for every signal, and then one whose filter refuses. *)
Definition one : process :=
  process_of (ExceptionHandler_constructor SignalHandler 16384 1 0x9000 (Guid 0 0 0 []) (fresh_process kernel0 None) 0x100
                (descriptor_of 5) None None 0 true (-1)).

Definition running : process :=
  process_of (ExceptionHandler_constructor SignalHandler 16384 1 0xA000 (Guid 0 0 0 []) one 0x200
                (descriptor_of 6) (Some (fun _ => false)) None 0 true (-1)).

Definition one_left : process := process_of (ExceptionHandler_destructor 1 running 0x200).

Definition emptied : process := process_of (ExceptionHandler_destructor 1 one_left 0x100).

Lemma SignalHandler_distinct : SignalHandler <> SIG_DFL /\ SignalHandler <> SIG_IGN.
Proof. by split. Qed.

Lemma kernel0_foreign sig : sa_handler (action_of kernel0 sig) <> SignalHandler.
Proof.
  unfold action_of, kernel0. cbn [actions]. destruct (decide (sig = SIGSEGV)) as [->|H]; [by rewrite lookup_singleton_eq|by rewrite lookup_singleton_ne by congruence].
Qed.

Lemma step_one : step SignalHandler 16384 1 (fresh_process kernel0 None) one.
Proof.
  apply (step_construct _ _ _ _ _ 0x100 (descriptor_of 5) None None 0 true (-1) 0x9000 (Guid 0 0 0 [])); [vm_compute; reflexivity|done|set_solver].
Qed.

Lemma step_running : step SignalHandler 16384 1 one running.
Proof.
  apply (step_construct _ _ _ _ _ 0x200 (descriptor_of 6) (Some (fun _ => false)) None 0 true (-1) 0xA000 (Guid 0 0 0 [])); [vm_compute; reflexivity|done|].
  apply (bool_decide_unpack _). vm_compute. exact I.
Qed.

Lemma steps_emptied : rtc (step SignalHandler 16384 1) (fresh_process kernel0 None) emptied.
Proof.
  eapply rtc_l; [apply step_one|]. eapply rtc_l; [apply step_running|].
  eapply rtc_l; [apply (step_destruct _ _ _ _ one_left 0x200); vm_compute; reflexivity|].
  apply rtc_once, (step_destruct _ _ _ _ emptied 0x100). vm_compute. reflexivity.
Qed.

(** A handler made on one thread and destroyed on another: the memory is freed
    while it is the alternate stack of the first. *)
Example freed_stack_in_use :
  let p := process_of (ExceptionHandler_destructor 2 one 0x100) in
  altstack_of (kernel p) 1 = Stack 0x9000 0 16384 /\ heap (kernel p) = ∅.
Proof. vm_compute. done. Qed.

End Ex.

Lemma handlers_restored_witness :
  rtc (fun p p' => exists tid, step Ex.SignalHandler 16384 tid p p') (fresh_process Ex.kernel0 None) Ex.emptied /\
  (forall sig, action_of (kernel Ex.emptied) sig = action_of Ex.kernel0 sig
     \/ sig ∈ kExceptionSignals /\ action_of (kernel Ex.emptied) sig = handler_action Ex.SignalHandler)
  /\ (g_handler_stack_ Ex.emptied = None -> forall sig, action_of (kernel Ex.emptied) sig = action_of Ex.kernel0 sig).
Proof.
  assert (rtc (fun p p' => exists tid, step Ex.SignalHandler 16384 tid p p') (fresh_process Ex.kernel0 None) Ex.emptied) as H.
  { eapply rtc_subrel; [|apply Ex.steps_emptied]. intros p p' Hs. by exists 1. }
  split; [exact H|]. apply (handlers_restored Ex.SignalHandler Ex.SignalHandler_distinct Ex.kernel0 None 16384 eq_refl Ex.kernel0_foreign Ex.emptied H).
Defined.

Lemma altstack_restored_witness :
  (altstack_of Ex.kernel0 1 = no_stack /\ rtc (step Ex.SignalHandler 16384 1) (fresh_process Ex.kernel0 None) Ex.emptied) /\
  (stack_installed (stacks Ex.emptied) = true ->
     altstack_of (kernel Ex.emptied) 1 = new_stack (stacks Ex.emptied) /\ ss_sp (new_stack (stacks Ex.emptied)) ∈ heap (kernel Ex.emptied))
  /\ (g_handler_stack_ Ex.emptied = None -> altstack_of (kernel Ex.emptied) 1 = altstack_of Ex.kernel0 1 /\ heap (kernel Ex.emptied) = heap Ex.kernel0).
Proof.
  split; [split; [reflexivity|apply Ex.steps_emptied]|].
  apply (altstack_restored Ex.SignalHandler Ex.SignalHandler_distinct Ex.kernel0 None 16384 eq_refl Ex.kernel0_foreign 1 (or_introl eq_refl) Ex.emptied Ex.steps_emptied).
Defined.

Definition child_succeeds : dump_env := DumpEnv true true true (Some 7) (Some 0).

Lemma crash_is_handled_once_witness :
  (handlers_installed (signals Ex.running) = true /\ g_handler_stack_ Ex.running = Some [0x100; 0x200] /\ SIGSEGV ∈ kExceptionSignals) /\
  let P := handles 42 1 (objects Ex.running) (fun _ => child_succeeds) (SigInfo 1 0) 0x77 in
  exists p' acts, crash Ex.SignalHandler 2 42 1 SIGSEGV (SigInfo 1 0) 0x77 (fun _ => child_succeeds) Ex.running
      = Ret (p', if existsb P [0x100; 0x200] then DefaultAction else fate_of (sa_handler (action_of Ex.kernel0 SIGSEGV)), acts)
    /\ map fst acts = until P (rev [0x100; 0x200]).
Proof.
  assert (SIGSEGV ∈ kExceptionSignals) as Hs by (apply (bool_decide_unpack _); vm_compute; exact I).
  assert (rtc (fun p p' => exists tid, step Ex.SignalHandler 16384 tid p p') (fresh_process Ex.kernel0 None) Ex.running) as H.
  { eapply rtc_l; [exists 1; apply Ex.step_one|]. apply rtc_once. exists 1. apply Ex.step_running. }
  split; [split; [reflexivity|split; [reflexivity|exact Hs]]|].
  apply (crash_is_handled_once Ex.SignalHandler Ex.SignalHandler_distinct Ex.kernel0 None 16384 eq_refl Ex.kernel0_foreign 0 42 1 SIGSEGV (SigInfo 1 0) 0x77
    (fun _ => child_succeeds) Ex.running [0x100; 0x200] H); [reflexivity|reflexivity|reflexivity| |exact Hs].
  repeat constructor; eexists; vm_compute; reflexivity.
Defined.

(** There the second handler is asked first and refuses; the first one dumps,
    and the signal comes again to the default action. *)
Example crash_running :
  match crash Ex.SignalHandler 2 42 1 SIGSEGV (SigInfo 1 0) 0x77 (fun _ => child_succeeds) Ex.running with
  | Ret (_, f, acts) => f = DefaultAction /\ map fst acts = [0x200; 0x100]
  | Fault _ => False
  end.
Proof. vm_compute. done. Qed.
