(* ===== verification/DumpChild.v ===== *)
(** The process that writes a dump: GenerateDump, ThreadEntry and DoDump of
    client/linux/handler/exception_handler.cc in libbreakpad, step by step, and
    the lists a client registers for it.

    The crashing process makes a pipe and clones a child, which must not trace
    its parent before the parent has allowed it: it waits for a byte on the
    pipe. Either process may be killed at any time. *)
From S2P Require Import Prelude LinuxDumper Descriptor.

(** * The pipe protocol *)

(** What a process does next. *)
Inductive parent_pc := ParentClose0 | ParentPrctl | ParentWrite | ParentWait | ParentDone (success : bool) | ParentDead.

Inductive child_pc := ChildClose1 | ChildRead | ChildClose0 | ChildDump | ChildExited (success : bool).

(** Whether each process has the read end and the write end open, and the
    bytes in the pipe. *)
Record dump := Dump {
  parent : parent_pc;
  child : child_pc;
  bytes : nat;
  ptracer : bool;
  parent_r : bool;
  parent_w : bool;
  child_r : bool;
  child_w : bool
}.

(** After clone; without a pipe no end is open. *)
Definition cloned (pipe_ok : bool) : dump := Dump ParentClose0 ChildClose1 0 false pipe_ok pipe_ok pipe_ok pipe_ok.

(** The steps of the two processes. A write to a pipe that nobody reads raises
    SIGPIPE, or fails when the process ignores that; waitpid returns when the
    child is over, and fails then when the process ignores SIGCHLD. *)
Inductive protocol_step : dump -> dump -> Prop :=
| parent_close0 c n t r w cr cw :
    protocol_step (Dump ParentClose0 c n t r w cr cw) (Dump ParentPrctl c n t false w cr cw)
| parent_prctl c n t r w cr cw :
    protocol_step (Dump ParentPrctl c n t r w cr cw) (Dump ParentWrite c n true r w cr cw)
| parent_write c n t r cr cw : r || cr = true ->
    protocol_step (Dump ParentWrite c n t r true cr cw) (Dump ParentWait c (S n) t r true cr cw)
| parent_write_sigpipe c n t r cr cw : r || cr = false ->
    protocol_step (Dump ParentWrite c n t r true cr cw) (Dump ParentDead c n t false false cr cw)
| parent_write_epipe c n t r cr cw : r || cr = false ->
    protocol_step (Dump ParentWrite c n t r true cr cw) (Dump ParentWait c n t r true cr cw)
| parent_write_ebadf c n t r cr cw :
    protocol_step (Dump ParentWrite c n t r false cr cw) (Dump ParentWait c n t r false cr cw)
| parent_wait ok n t r w cr cw :
    protocol_step (Dump ParentWait (ChildExited ok) n t r w cr cw) (Dump (ParentDone ok) (ChildExited ok) n t r false cr cw)
| parent_wait_fails ok n t r w cr cw :
    protocol_step (Dump ParentWait (ChildExited ok) n t r w cr cw) (Dump (ParentDone false) (ChildExited ok) n t r false cr cw)
| child_close1 p n t r w cr cw :
    protocol_step (Dump p ChildClose1 n t r w cr cw) (Dump p ChildRead n t r w cr false)
| child_read p n t r w cw :
    protocol_step (Dump p ChildRead (S n) t r w true cw) (Dump p ChildClose0 n t r w true cw)
| child_read_eof p t r w cw : w || cw = false ->
    protocol_step (Dump p ChildRead 0 t r w true cw) (Dump p ChildClose0 0 t r w true cw)
| child_read_ebadf p n t r w cw :
    protocol_step (Dump p ChildRead n t r w false cw) (Dump p ChildClose0 n t r w false cw)
| child_close0 p n t r w cr cw :
    protocol_step (Dump p ChildClose0 n t r w cr cw) (Dump p ChildDump n t r w false cw)
| child_dump ok p n t r w cr cw :
    protocol_step (Dump p ChildDump n t r w cr cw) (Dump p (ChildExited ok) n t r w false false).

(** A process is killed. *)
Inductive kill_step : dump -> dump -> Prop :=
| parent_dies p c n t r w cr cw : p <> ParentDead -> (forall ok, p <> ParentDone ok) ->
    kill_step (Dump p c n t r w cr cw) (Dump ParentDead c n t false false cr cw)
| child_dies p c n t r w cr cw : (forall ok, c <> ChildExited ok) ->
    kill_step (Dump p c n t r w cr cw) (Dump p (ChildExited false) n t r w false false).

Definition dump_step (d d' : dump) : Prop := protocol_step d d' \/ kill_step d d'.

(** The invariant of a dump with a pipe. *)
Definition dump_inv (d : dump) : Prop :=
  (match parent d with ParentClose0 | ParentPrctl => bytes d = 0%nat | ParentDead => True | _ => ptracer d = true end)
  /\ (bytes d <> 0%nat -> ptracer d = true)
  /\ (match parent d with ParentDone _ | ParentDead => True | _ => parent_w d = true end)
  /\ (match parent d with ParentDone success => exists ok, child d = ChildExited ok /\ (success = true -> ok = true) | _ => True end)
  /\ (match child d with ChildClose1 => child_r d = true | ChildRead => child_r d = true | _ => True end)
  /\ (match parent d, child d with ParentWait, (ChildClose1 | ChildRead) => bytes d <> 0%nat | _, _ => True end)
  /\ (match child d with ChildClose0 | ChildDump => ptracer d = true \/ parent d = ParentDead | _ => True end).

Lemma cloned_inv : dump_inv (cloned true).
Proof. unfold dump_inv, cloned. cbn. naive_solver. Qed.

Lemma dump_step_inv d d' : dump_inv d -> dump_step d d' -> dump_inv d'.
Proof.
  unfold dump_inv. intros H [Hs|Hs]; destruct Hs; cbn in *; rewrite ?orb_false_iff in *; try destruct p; destruct_and?; split_and?; intros; simplify_eq;
    try done; try naive_solver; destruct c; naive_solver.
Qed.

Lemma dump_steps_inv d : rtc dump_step (cloned true) d -> dump_inv d.
Proof.
  intros H. pose proof cloned_inv as Hi. revert Hi. induction H as [|d1 d2 d3 Hs _ IH]; intros Hi; [done|]. apply IH. by eapply dump_step_inv.
Qed.

(** C16: when the pipe could be made, the child never writes its dump, which
    traces the parent, before the parent has allowed that, unless the parent
    has died. *)
Theorem child_waits_for_ptracer d : rtc dump_step (cloned true) d -> child d = ChildDump -> parent d <> ParentDead -> ptracer d = true.
Proof.
  intros H Hc Hp. destruct (dump_steps_inv d H) as (_ & _ & _ & _ & _ & _ & Hd). rewrite Hc in Hd. naive_solver.
Qed.

(** What is left to do; every step does some of it. *)
Definition work (d : dump) : nat :=
  (match parent d with ParentClose0 => 4 | ParentPrctl => 3 | ParentWrite => 2 | ParentWait => 1 | _ => 0 end)
  + (match child d with ChildClose1 => 4 | ChildRead => 3 | ChildClose0 => 2 | ChildDump => 1 | ChildExited _ => 0 end).

Lemma work_decreases d d' : dump_step d d' -> (work d' < work d)%nat.
Proof.
  intros [H|H].
  - destruct H; unfold work; cbn [parent child]; lia.
  - destruct H as [p c n t r w cr cw Hp Hd|p c n t r w cr cw Hc]; unfold work; cbn [parent child].
    + destruct p; try lia; naive_solver.
    + destruct c; try lia; naive_solver.
Qed.

(** The crashing process has its answer, which is that of the child or that
    there is none; or it is dead. *)
Definition settled (d : dump) : Prop :=
  parent d = ParentDead \/ exists success ok, parent d = ParentDone success /\ child d = ChildExited ok /\ (success = true -> ok = true).

Lemma dump_progress d : dump_inv d -> settled d \/ exists d', protocol_step d d'.
Proof.
  intros Hi. destruct d as [p c n t r w cr cw]. destruct Hi as (_ & _ & Hw & Hd & Hr & Hn & _). cbn in *.
  destruct p as [| | | |success|]; [| | | |left; right|by left; left]; [right..|].
  - eexists. constructor.
  - eexists. constructor.
  - subst w. destruct (r || cr) eqn:E; eexists; [by apply parent_write|by apply parent_write_sigpipe].
  - subst w. destruct c as [| | | |ok]; [eexists; apply child_close1| |eexists; apply child_close0|eexists; apply (child_dump true)|eexists; apply parent_wait].
    destruct n; [done|]. subst cr. eexists. apply child_read.
  - destruct Hd as (ok & -> & Hok). by exists success, ok.
Qed.

Lemma work_bounds_run n d d' : nsteps dump_step n d d' -> (n <= work d)%nat.
Proof.
  induction 1 as [|n d1 d2 d3 Hs _ IH]; [lia|]. pose proof (work_decreases _ _ Hs). lia.
Qed.

(** A run of the steps of the processes, nobody killed any more, to the end. *)
Lemma dump_completes k : forall d, (work d <= k)%nat -> dump_inv d ->
  exists m d', (m <= k)%nat /\ nsteps protocol_step m d d' /\ settled d'.
Proof.
  induction k as [|k IH]; intros d Hk Hi.
  - destruct (dump_progress d Hi) as [Hr|[d1 H1]].
    + exists 0%nat, d. split; [lia|]. split; [constructor|done].
    + pose proof (work_decreases d d1 (or_introl H1)). lia.
  - destruct (dump_progress d Hi) as [Hr|[d1 H1]].
    + exists 0%nat, d. split; [lia|]. split; [constructor|done].
    + pose proof (work_decreases d d1 (or_introl H1)) as Hw. destruct (IH d1) as (m & d2 & Hm & H2 & Hr); [lia|by eapply dump_step_inv; [|left]|].
      exists (S m), d2. split; [lia|]. split; [by eapply nsteps_l|done].
Qed.

(** C40: GenerateDump always returns. No run of the two processes has more than
    8 steps. Whatever the order of the steps so far and whoever was killed, the
    processes get to the end by steps of their own, without anybody being
    killed; and they are stuck nowhere before: a state in which neither has a
    step is one where the crashing process has its answer, true only if the
    child wrote the dump, or is dead. *)
Theorem GenerateDump_returns n d : nsteps dump_step n (cloned true) d ->
  (n <= 8)%nat
  /\ (exists m d', (m <= 8)%nat /\ nsteps protocol_step m d d' /\ settled d')
  /\ (settled d \/ exists d', protocol_step d d').
Proof.
  intros H. assert (dump_inv d) as Hi by (apply dump_steps_inv, rtc_nsteps; by exists n).
  split; [exact (work_bounds_run _ _ _ H)|]. split; [|by apply dump_progress].
  destruct (dump_completes (work d) d) as (m & d' & Hm & Hs & Hr); [done|done|].
  exists m, d'. split; [|done]. etrans; [exact Hm|]. unfold work. destruct (parent d), (child d); lia.
Qed.

(** A run with nobody killed, and one in which the parent dies: the child
    reads the end of the file and goes on. *)
Definition allowed : dump := Dump ParentWait ChildDump 0 true false true false false.

Definition orphan : dump := Dump ParentDead ChildDump 0 false false false false false.

Lemma allowed_reachable : nsteps dump_step 6 (cloned true) allowed.
Proof.
  eapply nsteps_l; [left; apply parent_close0|]. eapply nsteps_l; [left; apply parent_prctl|].
  eapply nsteps_l; [left; apply parent_write; done|]. eapply nsteps_l; [left; apply child_close1|].
  eapply nsteps_l; [left; apply child_read|]. eapply nsteps_l; [left; apply child_close0|]. apply nsteps_O.
Qed.

Lemma child_waits_for_ptracer_witness :
  (rtc dump_step (cloned true) allowed /\ child allowed = ChildDump /\ parent allowed <> ParentDead) /\ ptracer allowed = true.
Proof.
  assert (rtc dump_step (cloned true) allowed) as H by (apply rtc_nsteps; exists 6%nat; apply allowed_reachable).
  split; [split; [exact H|done]|]. apply (child_waits_for_ptracer allowed H); done.
Defined.

Lemma GenerateDump_returns_witness :
  nsteps dump_step 6 (cloned true) allowed /\
  (6 <= 8)%nat
  /\ (exists m d', (m <= 8)%nat /\ nsteps protocol_step m allowed d' /\ settled d')
  /\ (settled allowed \/ exists d', protocol_step allowed d').
Proof. split; [apply allowed_reachable|]. apply (GenerateDump_returns 6 allowed allowed_reachable). Defined.

Example orphan_dumps : rtc dump_step (cloned true) orphan.
Proof.
  eapply rtc_l; [right; apply parent_dies; done|]. eapply rtc_l; [left; apply child_close1|].
  eapply rtc_l; [left; apply child_read_eof; done|]. apply rtc_once. left. apply child_close0.
Qed.

(** Without a pipe the child does not wait. *)
Example no_pipe_no_wait : rtc dump_step (cloned false) (Dump ParentClose0 ChildDump 0 false false false false false).
Proof.
  eapply rtc_l; [left; apply child_close1|]. eapply rtc_l; [left; apply child_read_ebadf|]. apply rtc_once. left. apply child_close0.
Qed.

(** * What the child is asked to write *)

(** The lists of a client: mappings with their identifiers, and blocks of
    memory. *)
Record client_lists := Lists { mapping_list_ : list (MappingInfo * list Z); app_memory_list_ : list (Z * Z) }.

(** strncpy into the name, whose last byte is then zero: what the name is up
    to that. The fields of the system's mapping and [exec] are not set: they
    are what the stack held, [junk]. *)
Definition AddMappingInfo (l : client_lists) (name identifier : list Z) (start_address mapping_size file_offset : Z) (junk : MappingInfo)
    : client_lists :=
  let info := Mapping start_address mapping_size (sys_start_addr junk) (sys_end_addr junk) file_offset (exec junk) (take (NAME_MAX - 1) name) in
  Lists (mapping_list_ l ++ [(info, identifier)]) (app_memory_list_ l).

Definition find_memory (ptr : Z) (l : list (Z * Z)) : bool := existsb (fun '(p, _) => p =? ptr) l.

Definition RegisterAppMemory (l : client_lists) (ptr length : Z) : client_lists :=
  if find_memory ptr (app_memory_list_ l) then l else Lists (mapping_list_ l) (app_memory_list_ l ++ [(ptr, length)]).

(** Erasing the first element with the pointer. *)
Fixpoint erase_memory (ptr : Z) (l : list (Z * Z)) : list (Z * Z) :=
  match l with [] => [] | (p, n) :: l => if p =? ptr then l else (p, n) :: erase_memory ptr l end.

Definition UnregisterAppMemory (l : client_lists) (ptr : Z) : client_lists :=
  if find_memory ptr (app_memory_list_ l) then Lists (mapping_list_ l) (erase_memory ptr (app_memory_list_ l)) else l.

(** The writers of dumps and the arguments they are called with. *)
Inductive dump_call :=
| WriteMicrodump (mappings : list (MappingInfo * list Z)) (skip : bool) (principal : Z) (sanitize : bool) (extra : MicrodumpExtraInfo)
| WriteMinidumpFd (fd size_limit : Z) (l : client_lists) (skip : bool) (principal : Z) (sanitize : bool)
| WriteMinidumpPath (file : option (list Z)) (size_limit : Z) (l : client_lists) (skip : bool) (principal : Z) (sanitize : bool).

Definition DoDump (d : descriptor) (l : client_lists) : res dump_call :=
  let may_skip_dump := skip_dump_if_principal_mapping_not_referenced_ d in
  let principal_mapping_address := address_within_principal_mapping_ d in
  let sanitize_stacks := sanitize_stacks_ d in
  if IsMicrodumpOnConsole d then
    Ret (WriteMicrodump (mapping_list_ l) may_skip_dump principal_mapping_address sanitize_stacks (microdump_extra_info_ d))
  else if IsFD d then Ret (WriteMinidumpFd (fd_ d) (size_limit_ d) l may_skip_dump principal_mapping_address sanitize_stacks)
  else
    file ← path d;
    Ret (WriteMinidumpPath file (size_limit_ d) l may_skip_dump principal_mapping_address sanitize_stacks).

(** The exit code of the child. *)
Definition ThreadEntry (written : bool) : Z := if written then 0 else 1.

(** A pointer is registered once. *)
Definition memory_ok (l : client_lists) : Prop := NoDup (map fst (app_memory_list_ l)).

Lemma find_memory_spec ptr l : find_memory ptr l = true <-> ptr ∈ map fst l.
Proof.
  induction l as [|[p n] l IH]; [by split; [|intros ?%not_elem_of_nil]|]. cbn [find_memory existsb map fst].
  rewrite orb_true_iff, Z.eqb_eq, elem_of_cons. unfold find_memory in IH. rewrite IH. naive_solver.
Qed.

Lemma RegisterAppMemory_ok l ptr n : memory_ok l -> memory_ok (RegisterAppMemory l ptr n).
Proof.
  unfold RegisterAppMemory, memory_ok. destruct (find_memory ptr (app_memory_list_ l)) eqn:E; [done|]. intros H. cbn [app_memory_list_].
  rewrite map_app. apply NoDup_app. split; [done|]. split; [|apply NoDup_singleton]. intros x Hx ->%list_elem_of_singleton.
  cbn [fst] in Hx. by rewrite <- find_memory_spec, E in Hx.
Qed.

Lemma erase_memory_spec ptr l : NoDup (map fst l) -> forall x n, (x, n) ∈ erase_memory ptr l <-> (x, n) ∈ l /\ x <> ptr.
Proof.
  induction l as [|[p m] l IH]; intros H x n; [split; [intros ?%not_elem_of_nil|intros [?%not_elem_of_nil _]]; done|].
  cbn [map fst] in H. apply NoDup_cons in H as [Hp H]. cbn [erase_memory]. destruct (Z.eqb_spec p ptr) as [->|Hne].
  - rewrite elem_of_cons. split; [intros Hx; split; [by right|]|intros [[[= ->]|] ?]; done].
    intros ->. apply Hp, list_elem_of_fmap. by exists (ptr, n).
  - rewrite !elem_of_cons, IH by done. naive_solver.
Qed.

(** Registering adds a block whose pointer is new and changes no other,
    unregistering removes that pointer's and no other. *)
Theorem app_memory_spec l ptr n : memory_ok l ->
  memory_ok (RegisterAppMemory l ptr n)
  /\ (forall x m, (x, m) ∈ app_memory_list_ (RegisterAppMemory l ptr n)
        <-> (x, m) ∈ app_memory_list_ l \/ x = ptr /\ m = n /\ find_memory ptr (app_memory_list_ l) = false)
  /\ (forall x m, (x, m) ∈ app_memory_list_ (UnregisterAppMemory l ptr) <-> (x, m) ∈ app_memory_list_ l /\ x <> ptr).
Proof.
  intros H. split; [by apply RegisterAppMemory_ok|]. unfold RegisterAppMemory, UnregisterAppMemory.
  destruct (find_memory ptr (app_memory_list_ l)) eqn:E; cbn [app_memory_list_]; split; intros x m.
  - naive_solver.
  - by apply erase_memory_spec.
  - rewrite elem_of_app, list_elem_of_singleton. naive_solver.
  - split; [|naive_solver]. intros Hx. split; [done|]. intros ->.
    assert (find_memory ptr (app_memory_list_ l) = true) as Ht; [|by rewrite E in Ht].
    apply find_memory_spec, list_elem_of_fmap. by exists (ptr, m).
Qed.

(** A handler made for a directory dumps to a file of it; after a descriptor of
    a directory is assigned to one of an open file there is no path to open. *)
Theorem DoDump_paths dir d l guid : dir <> [] -> guid_ok guid ->
  (exists d0 d1 s call, MinidumpDescriptor_directory dir = Ret d0 /\ UpdatePath d0 guid = Ret d1 /\ DoDump d1 l = Ret call
    /\ call = WriteMinidumpPath (Some (dir ++ [0x2f] ++ s)) (-1) l false 0 false)
  /\ (mode_ d = kWriteMinidumpToFd -> c_path_ d = CNull -> exists d0 d1 call, MinidumpDescriptor_directory dir = Ret d0 /\ assign d d0 guid = Ret d1
    /\ DoDump d1 l = Ret call /\ call = WriteMinidumpPath None (-1) l false 0 false).
Proof.
  intros Hd Hg. assert (MinidumpDescriptor_directory dir = Ret (Descriptor kWriteMinidumpToFile (-1) dir [] CNull (-1) 0 false false no_extra_info)) as E.
  { unfold MinidumpDescriptor_directory. by destruct dir. }
  split.
  - destruct (UpdatePath_spec (Descriptor kWriteMinidumpToFile (-1) dir [] CNull (-1) 0 false false no_extra_info) guid) as (d1 & s & E1 & Hp & _); try done.
    eexists _, d1, (s ++ literal ".dmp"), _. split; [exact E|]. split; [exact E1|].
    assert (mode_ d1 = kWriteMinidumpToFile /\ size_limit_ d1 = -1 /\ skip_dump_if_principal_mapping_not_referenced_ d1 = false
      /\ address_within_principal_mapping_ d1 = 0 /\ sanitize_stacks_ d1 = false) as (Em & E2 & E3 & E4 & E5).
    { unfold UpdatePath in E1. destruct (negb _); [done|]. apply bind_Ret_inv in E1 as ([s'|] & _ & E1); [|done]. by apply Ret_inj in E1 as <-. }
    unfold DoDump, IsMicrodumpOnConsole, IsFD. rewrite Em, !bool_decide_false by done. rewrite Hp, bind_Ret, E2, E3, E4, E5. done.
  - intros Hm Hc. rewrite E. eexists _, _, _. split; [done|]. unfold assign. cbn [path_ length Nat.eqb negb set_mode c_path_]. rewrite Hc, bind_Ret.
    split; [done|]. split; [|done]. unfold DoDump, path. cbn [mode_ c_path_ set_mode]. by rewrite Hc.
Qed.
