(* ===== verification/MappedFile.v ===== *)
(** Ranges of memory, mapped files and links: common/memory_range.h,
    common/linux/memory_mapped_file.cc and common/linux/safe_readlink.cc of
    libbreakpad.

    An address is a number and [size_t] has [w] bits; what a system call gives
    is an argument. *)
From S2P Require Import Prelude.

(** * Ranges *)

Record MemoryRange := Range { data_ : option Z; length_ : Z }.

Definition empty_range : MemoryRange := Range None 0.

Definition Range_Set (data : option Z) (length : Z) : MemoryRange :=
  Range data (match data with Some _ => length | None => 0 end).

Definition IsEmpty (r : MemoryRange) : bool := length_ r =? 0.

Section Ranges.

Variable w : Z.

Definition Covers (r : MemoryRange) (sub_offset sub_length : Z) : bool :=
  (sub_offset <? length_ r) && (sub_offset <=? wrap w (sub_offset + sub_length)) && (wrap w (sub_offset + sub_length) <=? length_ r).

Definition GetData (r : MemoryRange) (sub_offset sub_length : Z) : option Z :=
  if Covers r sub_offset sub_length then (fun d => d + sub_offset) <$> data_ r else None.

Definition GetArrayElement (r : MemoryRange) (element_offset element_size element_index : Z) : option Z :=
  let sub_offset := wrap w (element_offset + wrap w (element_index * element_size)) in GetData r sub_offset element_size.

Definition Subrange (r : MemoryRange) (sub_offset sub_length : Z) : MemoryRange :=
  if Covers r sub_offset sub_length then Range_Set ((fun d => d + sub_offset) <$> data_ r) sub_length else empty_range.

(** A range of memory that does not go past the end of the addresses. *)
Definition range_ok (r : MemoryRange) : Prop :=
  in_range w (length_ r) /\ match data_ r with Some d => 0 < d /\ d + length_ r <= 2 ^ w | None => length_ r = 0 end.

Lemma Covers_exact r o n : 0 <= w -> in_range w (length_ r) -> in_range w o -> in_range w n ->
  Covers r o n = true <-> o < length_ r /\ o + n <= length_ r.
Proof.
  intros Hw [_ Hl] [Ho Ho'] [Hn Hn']. unfold Covers. rewrite !andb_true_iff, Z.ltb_lt, !Z.leb_le.
  assert (o + n < 2 ^ w -> wrap w (o + n) = o + n) as Es by (intros ?; apply wrap_small; split; lia).
  assert (2 ^ w <= o + n -> wrap w (o + n) = o + n - 2 ^ w) as El.
  { intros ?. unfold wrap. symmetry. apply Z.mod_unique with 1; lia. }
  destruct (Z.lt_ge_cases (o + n) (2 ^ w)) as [H|H]; [rewrite (Es H); lia|rewrite (El H); lia].
Qed.

(** The overflow tests of Covers are exact: with sizes of any width, a
    subrange is covered if and only if it starts inside the range and ends
    there; then its address and all of its bytes are in the range, and a
    subrange is again a range of memory. *)
Theorem Covers_spec r o n : 0 <= w -> range_ok r -> in_range w o -> in_range w n ->
  (Covers r o n = true <-> o < length_ r /\ o + n <= length_ r)
  /\ GetData r o n = (if decide (o < length_ r /\ o + n <= length_ r) then (fun d => d + o) <$> data_ r else None)
  /\ range_ok (Subrange r o n)
  /\ (forall a d, GetData r o n = Some a -> data_ r = Some d -> d <= a /\ a + n <= d + length_ r).
Proof.
  intros Hw [Hl Hd] Ho Hn. pose proof (Covers_exact r o n Hw Hl Ho Hn) as E. split; [done|].
  assert (GetData r o n = if decide (o < length_ r /\ o + n <= length_ r) then (fun d => d + o) <$> data_ r else None) as Eg.
  { unfold GetData. destruct (Covers r o n); case_decide; naive_solver. }
  split; [done|]. destruct Ho as [Ho _]. split.
  - unfold Subrange. destruct (Covers r o n) eqn:Ec.
    + destruct (proj1 E eq_refl) as [E1 E2]. destruct (data_ r) as [d|]; cbn [fmap option_fmap option_map Range_Set range_ok length_ data_].
      * split; [exact Hn|]. cbn. lia.
      * lia.
    + split; [split; [done|apply Z.pow_pos_nonneg; lia]|done].
  - intros a d Ha Hda. rewrite Eg, Hda in Ha. case_decide; [|done]. cbn in Ha. injection Ha as <-. lia.
Qed.

End Ranges.

Lemma Covers_spec_witness :
  (range_ok 32 (Range (Some 0x1000) 0x200) /\ in_range 32 0x100 /\ in_range 32 0xffffff80) /\
  (Covers 32 (Range (Some 0x1000) 0x200) 0x100 0xffffff80 = true <-> 0x100 < 0x200 /\ 0x100 + 0xffffff80 <= 0x200)
  /\ GetData 32 (Range (Some 0x1000) 0x200) 0x100 0xffffff80
       = (if decide (0x100 < 0x200 /\ 0x100 + 0xffffff80 <= 0x200) then (fun d => d + 0x100) <$> Some 0x1000 else None)
  /\ range_ok 32 (Subrange 32 (Range (Some 0x1000) 0x200) 0x100 0xffffff80)
  /\ (forall a d, GetData 32 (Range (Some 0x1000) 0x200) 0x100 0xffffff80 = Some a -> Some 0x1000 = Some d -> d <= a /\ a + 0xffffff80 <= d + 0x200).
Proof.
  assert (range_ok 32 (Range (Some 0x1000) 0x200)) as H by (split; [by split|cbn; change (2 ^ 32) with 4294967296; lia]).
  assert (in_range 32 0x100) as Ho by (by split). assert (in_range 32 0xffffff80) as Hn by (by split).
  split; [split; [exact H|split; [exact Ho|exact Hn]]|]. apply (Covers_spec 32 (Range (Some 0x1000) 0x200) 0x100 0xffffff80); [lia|exact H|exact Ho|exact Hn].
Defined.

(** The product is not tested: an element far outside wraps back into the
    range. *)
Example GetArrayElement_wraps : GetArrayElement 32 (Range (Some 0x1000) 0x200) 0 0x10 0x10000001 = Some 0x1010.
Proof. reflexivity. Qed.

(** * Mapped files *)

Inductive map_call := Mmap (length offset : Z) | Munmap (address length : Z).

(** The calls made so far are kept, the last one first. *)
Record mapped_file := MappedFile { content_ : MemoryRange; calls : list map_call }.

Definition Unmap (f : mapped_file) : mapped_file :=
  match data_ (content_ f) with
  | Some d => MappedFile (Range_Set None 0) (Munmap d (length_ (content_ f)) :: calls f)
  | None => f
  end.

(** [fd_ok] is whether the file can be opened, [st_size] what fstat says, and
    [mem] where mmap puts it. *)
Definition Map (f : mapped_file) (fd_ok : bool) (st_size : option Z) (offset : Z) (mem : option Z) : bool * mapped_file :=
  let f := Unmap f in
  if negb fd_ok then (false, f)
  else
    match st_size with
    | None => (false, f)
    | Some file_len =>
        if file_len <? 0 then (false, f)
        else if file_len <=? offset then (true, f)
        else
          let f := MappedFile (content_ f) (Mmap file_len offset :: calls f) in
          match mem with
          | None => (false, f)
          | Some data => (true, MappedFile (Range_Set (Some data) (file_len - offset)) (calls f))
          end
    end.

(** What is mapped is unmapped when the whole file was mapped; with an offset
    less is unmapped than was mapped. *)
Theorem Unmap_Map f file_len offset data : 0 <= offset < file_len ->
  let '(ok, f') := Map f true (Some file_len) offset (Some data) in
  ok = true /\ content_ f' = Range (Some data) (file_len - offset)
  /\ calls (Unmap f') = Munmap data (file_len - offset) :: Mmap file_len offset :: calls (Unmap f).
Proof.
  intros H. unfold Map. cbn [negb]. destruct (Z.ltb_spec file_len 0); [lia|]. by destruct (Z.leb_spec file_len offset); [lia|].
Qed.

(** * Links *)

(** [target] is what the link holds, of which readlink gives at most
    [buffer_size] bytes. *)
Definition SafeReadLink (target : option (list Z)) (buffer : list Z) (buffer_size : nat) : res (bool * list Z) :=
  match target with
  | None => Ret (false, buffer)
  | Some t =>
      let got := take buffer_size t in
      buffer ← store buffer 0 got;
      if (length got <? buffer_size)%nat then buffer ← store buffer (length got) [0]; Ret (true, buffer)
      else Ret (false, buffer)
  end.

(** Success leaves a string with its zero, and only a target that fits whole
    succeeds. *)
Theorem SafeReadLink_spec t buffer n : length buffer = n ->
  exists buffer', SafeReadLink (Some t) buffer n = Ret (bool_decide (length t < n)%nat, buffer')
    /\ length buffer' = n /\ ((length t < n)%nat -> exists rest, buffer' = t ++ 0 :: rest).
Proof.
  intros Hn. unfold SafeReadLink. rewrite store_in_bounds, bind_Ret by (rewrite length_take; lia). rewrite take_0, Nat.add_0_l. cbn [app].
  destruct (Nat.ltb_spec (length (take n t)) n) as [H|H]; rewrite length_take in H.
  - assert (take n t = t) as E by (apply take_ge; lia). rewrite E, store_in_bounds, bind_Ret by (rewrite length_app, length_drop; cbn; lia).
    rewrite bool_decide_true by lia. eexists. split; [done|]. rewrite take_app_length. cbn [length].
    split; [rewrite !length_app, !length_drop, ?length_app, ?length_drop; cbn [length]; lia|]. intros _. by eexists.
  - rewrite bool_decide_false by lia. eexists. split; [done|]. split; [rewrite length_app, length_take, length_drop; lia|lia].
Qed.
