(* ===== verification/FileId.v ===== *)
(** The identifier of an ELF file: common/linux/file_id.cc and
    common/linux/elfutils.cc of libbreakpad, and the SONAME that
    linux_dumper.cc looks for with them.

    A file is the memory from its base on, a list of bytes, and a pointer into
    it is an offset; a read outside of the list is [OutOfBounds]. The code
    trusts the offsets and the sizes of the headers. An assertion that fails
    ends the process. *)
From S2P Require Import Prelude LibcSupport Descriptor.

(** * Reading *)

Definition in_memory (mem : list Z) (off n : Z) : bool := (0 <=? off) && (0 <=? n) && (off + n <=? Z.of_nat (length mem)).

Definition read_bytes (mem : list Z) (off n : Z) : res (list Z) :=
  if in_memory mem off n then Ret (take (Z.to_nat n) (drop (Z.to_nat off) mem)) else Fault OutOfBounds.

Definition read_le (mem : list Z) (off n : Z) : res Z := b ← read_bytes mem off n; Ret (le_val b).

(** The memory from a pointer on. *)
Definition from (mem : list Z) (off : Z) : res (list Z) :=
  if in_memory mem off 0 then Ret (drop (Z.to_nat off) mem) else Fault OutOfBounds.

(** * ELF files *)

(** The classes: the offsets and the sizes of the fields that are read. *)
Record elf_class := Class {
  kClass : Z;
  off_size : Z;
  e_phoff_at : Z;
  e_shoff_at : Z;
  e_phnum_at : Z;
  e_shnum_at : Z;
  e_shstrndx_at : Z;
  sizeof_Phdr : Z;
  p_offset_at : Z;
  p_filesz_at : Z;
  sizeof_Shdr : Z;
  sh_offset_at : Z;
  sh_size_at : Z
}.

Definition ElfClass32 : elf_class := Class 1 4 28 32 44 48 50 32 4 16 40 16 20.
Definition ElfClass64 : elf_class := Class 2 8 32 40 56 60 62 56 8 32 64 24 32.

Definition ELFMAG : list Z := [0x7f; 0x45; 0x4c; 0x46; 0].
Definition SELFMAG : nat := 4.
Definition EI_CLASS : Z := 4.
Definition SHT_PROGBITS : Z := 1.
Definition SHT_STRTAB : Z := 3.
Definition SHT_DYNAMIC : Z := 6.
Definition SHT_NOTE : Z := 7.
Definition PT_NOTE : Z := 4.
Definition NT_GNU_BUILD_ID : Z := 3.
Definition DT_SONAME : Z := 14.

Definition IsValidElf (elf_base : list Z) : res bool := c ← my_strncmp elf_base ELFMAG SELFMAG; Ret (c =? 0).

Definition ElfClass (elf_base : list Z) : res Z := read_le elf_base EI_CLASS 1.

(** From the [i]th section on, [n] are left; [section] is its offset. *)
Fixpoint find_section (cls : elf_class) (mem name : list Z) (section_type names names_end : Z) (n : nat) (section : Z) : res (option Z) :=
  match n with
  | O => Ret None
  | S n =>
      sh_name ← read_le mem section 4;
      let section_name := names + sh_name in
      sh_type ← read_le mem (section + 4) 4;
      if (sh_type =? section_type) && (Z.of_nat (length name) + 1 <=? names_end - section_name) then
        s ← from mem section_name;
        c ← my_strcmp (name ++ [0]) s;
        if c =? 0 then Ret (Some section)
        else find_section cls mem name section_type names names_end n (section + sizeof_Shdr cls)
      else find_section cls mem name section_type names names_end n (section + sizeof_Shdr cls)
  end.

Definition FindElfSectionByName (cls : elf_class) (mem name : list Z) (section_type sections section_names names_end nsection : Z)
    : res (option Z) :=
  if negb (0 <? nsection) then Fault Aborted
  else if (length name =? 0)%nat then Ret None
  else find_section cls mem name section_type section_names names_end (Z.to_nat nsection) sections.

(** The start and the size of the section. *)
Definition FindElfClassSection (cls : elf_class) (mem name : list Z) (section_type : Z) : res (option (Z * Z)) :=
  e_shoff ← read_le mem (e_shoff_at cls) (off_size cls);
  e_shstrndx ← read_le mem (e_shstrndx_at cls) 2;
  let section_names := e_shoff + e_shstrndx * sizeof_Shdr cls in
  names ← read_le mem (section_names + sh_offset_at cls) (off_size cls);
  names_size ← read_le mem (section_names + sh_size_at cls) (off_size cls);
  e_shnum ← read_le mem (e_shnum_at cls) 2;
  section ← FindElfSectionByName cls mem name section_type e_shoff names (names + names_size) e_shnum;
  match section with
  | None => Ret None
  | Some section =>
      sh_size ← read_le mem (section + sh_size_at cls) (off_size cls);
      if 0 <? sh_size then sh_offset ← read_le mem (section + sh_offset_at cls) (off_size cls); Ret (Some (sh_offset, sh_size))
      else Ret None
  end.

Fixpoint find_segments (cls : elf_class) (mem : list Z) (segment_type : Z) (n : nat) (phdr : Z) : res (list (Z * Z)) :=
  match n with
  | O => Ret []
  | S n =>
      p_type ← read_le mem phdr 4;
      if p_type =? segment_type then
        p_offset ← read_le mem (phdr + p_offset_at cls) (off_size cls);
        p_filesz ← read_le mem (phdr + p_filesz_at cls) (off_size cls);
        segments ← find_segments cls mem segment_type n (phdr + sizeof_Phdr cls);
        Ret ((p_offset, p_filesz) :: segments)
      else find_segments cls mem segment_type n (phdr + sizeof_Phdr cls)
  end.

Definition FindElfClassSegment (cls : elf_class) (mem : list Z) (segment_type : Z) : res (list (Z * Z)) :=
  e_phoff ← read_le mem (e_phoff_at cls) (off_size cls);
  e_phnum ← read_le mem (e_phnum_at cls) 2;
  find_segments cls mem segment_type (Z.to_nat e_phnum) e_phoff.

(** Dispatch on the class; nothing when the file is not ELF of a known class. *)
Definition with_class {A} (mem : list Z) (otherwise : A) (f : elf_class -> res A) : res A :=
  valid ← IsValidElf mem;
  if negb (valid : bool) then Ret otherwise
  else
    cls ← ElfClass mem;
    if cls =? kClass ElfClass32 then f ElfClass32
    else if cls =? kClass ElfClass64 then f ElfClass64
    else Ret otherwise.

Definition FindElfSection (mem name : list Z) (section_type : Z) : res (option (Z * Z)) :=
  with_class mem None (fun cls => FindElfClassSection cls mem name section_type).

Definition FindElfSegments (mem : list Z) (segment_type : Z) : res (option (list (Z * Z))) :=
  with_class mem None (fun cls => segments ← FindElfClassSegment cls mem segment_type; Ret (Some segments)).

(** * Build identifiers *)

Definition NOTE_PADDING (a : Z) : Z := Z.ldiff (u32 (a + 3)) 3.

Definition sizeof_Nhdr : Z := 12.

(** Where the walk over the notes stops: at one of the type, or at the end. A
    note is at least a header, so there are fewer than bytes in memory. *)
Fixpoint find_note (fuel : nat) (mem : list Z) (note_header section_end : Z) : res Z :=
  match fuel with
  | O => Fault OutOfFuel
  | S fuel =>
      if section_end <=? note_header then Ret note_header
      else
        n_type ← read_le mem (note_header + 8) 4;
        if n_type =? NT_GNU_BUILD_ID then Ret note_header
        else
          n_namesz ← read_le mem note_header 4;
          n_descsz ← read_le mem (note_header + 4) 4;
          find_note fuel mem (note_header + sizeof_Nhdr + NOTE_PADDING n_namesz + NOTE_PADDING n_descsz) section_end
  end.

Definition ElfClassBuildIDNoteIdentifier (mem : list Z) (section length : Z) (identifier : list Z) : res (bool * list Z) :=
  let section_end := section + length in
  note_header ← find_note (S (List.length mem)) mem section section_end;
  if section_end <=? note_header then Ret (false, identifier)
  else
    n_descsz ← read_le mem (note_header + 4) 4;
    if n_descsz =? 0 then Ret (false, identifier)
    else
      n_namesz ← read_le mem note_header 4;
      build_id ← read_bytes mem (note_header + sizeof_Nhdr + NOTE_PADDING n_namesz) n_descsz;
      Ret (true, identifier ++ build_id).

Fixpoint first_note (mem : list Z) (segs : list (Z * Z)) (identifier : list Z) : res (bool * list Z) :=
  match segs with
  | [] => Ret (false, identifier)
  | (start, size) :: segs =>
      '(found, identifier) ← ElfClassBuildIDNoteIdentifier mem start size identifier;
      if found : bool then Ret (true, identifier) else first_note mem segs identifier
  end.

Definition FindElfBuildIDNote (mem identifier : list Z) : res (bool * list Z) :=
  segs ← FindElfSegments mem PT_NOTE;
  '(found, identifier) ← first_note mem (default [] segs) identifier;
  if found : bool then Ret (true, identifier)
  else
    section ← FindElfSection mem (literal ".note.gnu.build-id") SHT_NOTE;
    match section with
    | Some (note_section, note_size) => ElfClassBuildIDNoteIdentifier mem note_section note_size identifier
    | None => Ret (false, identifier)
    end.

Definition kMDGUIDSize : nat := 16.

(** The loop over the blocks of 16 bytes; 4096 bytes have 256 of them. *)
Fixpoint xor_blocks (fuel : nat) (mem : list Z) (ptr ptr_end : Z) (identifier : list Z) : res (list Z) :=
  match fuel with
  | O => Fault OutOfFuel
  | S fuel =>
      if ptr <? ptr_end then
        block ← read_bytes mem ptr (Z.of_nat kMDGUIDSize);
        xor_blocks fuel mem (ptr + Z.of_nat kMDGUIDSize) ptr_end (zip_with Z.lxor identifier block)
      else Ret identifier
  end.

Definition HashElfTextSection (mem identifier : list Z) : res (bool * list Z) :=
  let identifier := resize kMDGUIDSize 0 identifier in
  section ← FindElfSection mem (literal ".text") SHT_PROGBITS;
  match section with
  | None => Ret (false, identifier)
  | Some (text_section, text_size) =>
      if text_size =? 0 then Ret (false, identifier)
      else
        identifier ← xor_blocks 257 mem text_section (text_section + Z.min text_size 4096) (replicate kMDGUIDSize 0);
        Ret (true, identifier)
  end.

Definition ElfFileIdentifierFromMappedFile (base identifier : list Z) : res (bool * list Z) :=
  '(found, identifier) ← FindElfBuildIDNote base identifier;
  if found : bool then Ret (true, identifier) else HashElfTextSection base identifier.

(** [mapped] is the contents of the mapped file, if there are any. *)
Definition ElfFileIdentifier (mapped : option (list Z)) (identifier : list Z) : res (bool * list Z) :=
  match mapped with None => Ret (false, identifier) | Some mem => ElfFileIdentifierFromMappedFile mem identifier end.

(** * Strings *)

Definition HEX_char (d : Z) : Z := if d <? 10 then 0x30 + d else 0x41 + d - 10.

(** The conversion [%02X] of a byte. *)
Definition hex_byte (b : Z) : list Z := [HEX_char (b / 16); HEX_char (b mod 16)].

Definition bytes_to_hex_string (bytes : list Z) : list Z := concat (map hex_byte bytes).

(** htonl and htons reverse the bytes of a word in memory. *)
Definition ConvertIdentifierToUUIDString (identifier : list Z) : list Z :=
  let swapped := resize kMDGUIDSize 0 (take kMDGUIDSize identifier) in
  let swapped := rev (take 4 swapped) ++ rev (take 2 (drop 4 swapped)) ++ rev (take 2 (drop 6 swapped)) ++ drop 8 swapped in
  bytes_to_hex_string swapped.

Definition ConvertIdentifierToString (identifier : list Z) : list Z := bytes_to_hex_string identifier.

(** * The SONAME *)

Section Width.

(** The width of the words of the process: [ElfW]. *)
Variable w : Z.

Fixpoint find_soname (mem : list Z) (dynstr_start dynstr_size : Z) (n : nat) (dyn : Z) (soname : list Z) (soname_size : nat)
    : res (bool * list Z) :=
  match n with
  | O => Ret (false, soname)
  | S n =>
      d_tag ← read_le mem dyn (w / 8);
      if d_tag =? DT_SONAME then
        d_val ← read_le mem (dyn + w / 8) (w / 8);
        if dynstr_size <=? d_val then Ret (false, soname)
        else
          str ← from mem (dynstr_start + d_val);
          let maxsize := dynstr_size - d_val in
          '(soname, _) ← my_strlcpy soname str (if maxsize <? Z.of_nat soname_size then Z.to_nat maxsize else soname_size);
          Ret (true, soname)
      else find_soname mem dynstr_start dynstr_size n (dyn + 2 * (w / 8)) soname soname_size
  end.

Definition ElfFileSoNameFromMappedFile (mem soname : list Z) (soname_size : nat) : res (bool * list Z) :=
  valid ← IsValidElf mem;
  if negb (valid : bool) then Ret (false, soname)
  else
    dynamic ← FindElfSection mem (literal ".dynamic") SHT_DYNAMIC;
    match dynamic with
    | None => Ret (false, soname)
    | Some (segment_start, segment_size) =>
        dynstr ← FindElfSection mem (literal ".dynstr") SHT_STRTAB;
        match dynstr with
        | None => Ret (false, soname)
        | Some (dynstr_start, dynstr_size) =>
            find_soname mem dynstr_start dynstr_size (Z.to_nat (segment_size / (2 * (w / 8)))) segment_start soname soname_size
        end
    end.

End Width.

(** * Notes *)

Lemma read_bytes_app mem a x b off n : mem = a ++ x ++ b -> off = Z.of_nat (length a) -> n = Z.of_nat (length x) -> read_bytes mem off n = Ret x.
Proof.
  intros -> -> ->. unfold read_bytes, in_memory. rewrite !length_app.
  assert ((0 <=? Z.of_nat (length a)) && (0 <=? Z.of_nat (length x)) && (Z.of_nat (length a) + Z.of_nat (length x) <=? Z.of_nat (length a + (length x + length b))) = true) as ->
    by (rewrite !andb_true_iff, !Z.leb_le; lia).
  by rewrite !Nat2Z.id, drop_app_length, take_app_length.
Qed.

Lemma read_le_at mem a b off n z : mem = a ++ le_bytes (Z.to_nat n) z ++ b -> off = Z.of_nat (length a) -> 0 <= n -> in_range (8 * n) z -> read_le mem off n = Ret z.
Proof.
  intros Hm Ho Hn Hz. unfold read_le. rewrite (read_bytes_app mem a (le_bytes (Z.to_nat n) z) b) by (done || (rewrite length_le_bytes; lia)).
  rewrite bind_Ret, le_val_bytes, Z2Nat.id by lia. by rewrite wrap_small.
Qed.

(** A note as it is laid out: its lengths, its type, and the name and the
    description, padded to words. *)
Record note := Note { note_type : Z; note_name : list Z; note_desc : list Z }.

Definition pad4 (l : list Z) : list Z := l ++ replicate (Z.to_nat (NOTE_PADDING (Z.of_nat (length l))) - length l) 0.

Definition note_bytes (n : note) : list Z :=
  le_bytes 4 (Z.of_nat (length (note_name n))) ++ le_bytes 4 (Z.of_nat (length (note_desc n))) ++ le_bytes 4 (note_type n)
    ++ pad4 (note_name n) ++ pad4 (note_desc n).

Definition note_ok (n : note) : Prop :=
  in_range 32 (note_type n) /\ Z.of_nat (length (note_name n)) < 2 ^ 32 - 4 /\ Z.of_nat (length (note_desc n)) < 2 ^ 32 - 4.

Lemma NOTE_PADDING_spec a : 0 <= a < 2 ^ 32 - 4 -> a <= NOTE_PADDING a < a + 4 /\ NOTE_PADDING a mod 4 = 0.
Proof.
  intros Ha. unfold NOTE_PADDING. rewrite wrap_small by (split; lia). change 3 with (Z.ones 2) at 2 4 6. rewrite Z.ldiff_ones_r by lia.
  rewrite Z.shiftl_mul_pow2, Z.shiftr_div_pow2 by lia. change (2 ^ 2) with 4.
  pose proof (Z.div_mod (a + 3) 4 ltac:(lia)). pose proof (Z.mod_pos_bound (a + 3) 4 ltac:(lia)). split; [lia|]. apply Z_mod_mult.
Qed.

Lemma length_pad4 l : Z.of_nat (length l) < 2 ^ 32 - 4 -> Z.of_nat (length (pad4 l)) = NOTE_PADDING (Z.of_nat (length l)).
Proof.
  intros H. destruct (NOTE_PADDING_spec (Z.of_nat (length l)) ltac:(lia)) as [Hp _]. unfold pad4. rewrite length_app, length_replicate. lia.
Qed.

Lemma length_note_bytes n : note_ok n ->
  Z.of_nat (length (note_bytes n)) = sizeof_Nhdr + NOTE_PADDING (Z.of_nat (length (note_name n))) + NOTE_PADDING (Z.of_nat (length (note_desc n))).
Proof.
  intros (_ & H1 & H2). unfold note_bytes, sizeof_Nhdr. rewrite !length_app, !length_le_bytes.
  rewrite <- (length_pad4 _ H1), <- (length_pad4 _ H2). lia.
Qed.

Section Header.

Context (mem a b : list Z) (n : note).
Hypothesis Hmem : mem = a ++ note_bytes n ++ b.
Hypothesis Hn : note_ok n.

Let off := Z.of_nat (length a).

Lemma read_namesz : read_le mem off 4 = Ret (Z.of_nat (length (note_name n))).
Proof.
  destruct Hn as (_ & H & _). eapply (read_le_at mem a); [rewrite Hmem; unfold note_bytes; rewrite <- !app_assoc; reflexivity|done|lia|].
  split; [lia|]. change (8 * 4) with 32. lia.
Qed.

Lemma read_descsz : read_le mem (off + 4) 4 = Ret (Z.of_nat (length (note_desc n))).
Proof.
  destruct Hn as (_ & _ & H). eapply (read_le_at mem (a ++ le_bytes 4 _)); [rewrite Hmem; unfold note_bytes; rewrite <- !app_assoc; reflexivity| |lia|].
  - rewrite length_app, length_le_bytes. unfold off. lia.
  - split; [lia|]. change (8 * 4) with 32. lia.
Qed.

Lemma read_type : read_le mem (off + 8) 4 = Ret (note_type n).
Proof.
  destruct Hn as (H & _). eapply (read_le_at mem (a ++ le_bytes 4 _ ++ le_bytes 4 _)); [rewrite Hmem; unfold note_bytes; rewrite <- !app_assoc; reflexivity| |lia|done].
  rewrite !length_app, !length_le_bytes. unfold off. lia.
Qed.

Lemma read_desc : read_bytes mem (off + sizeof_Nhdr + NOTE_PADDING (Z.of_nat (length (note_name n)))) (Z.of_nat (length (note_desc n))) = Ret (note_desc n).
Proof.
  destruct Hn as (_ & H1 & H2).
  eapply (read_bytes_app mem (a ++ le_bytes 4 _ ++ le_bytes 4 _ ++ le_bytes 4 _ ++ pad4 _)).
  - rewrite Hmem. unfold note_bytes. unfold pad4 at 2. rewrite <- !app_assoc. reflexivity.
  - rewrite !length_app, !length_le_bytes. rewrite <- (length_pad4 _ H1). unfold off, sizeof_Nhdr. lia.
  - done.
Qed.

End Header.

(** The walk stops at the first note of the type. *)
Definition notes_before (ns : list note) : list note := match list_find (fun n => note_type n = NT_GNU_BUILD_ID) ns with Some (i, _) => take i ns | None => ns end.

Lemma find_note_spec ns : forall fuel mem a post, mem = a ++ concat (map note_bytes ns) ++ post -> Forall note_ok ns -> (length ns < fuel)%nat ->
  find_note fuel mem (Z.of_nat (length a)) (Z.of_nat (length a) + Z.of_nat (length (concat (map note_bytes ns))))
    = Ret (Z.of_nat (length a) + Z.of_nat (length (concat (map note_bytes (notes_before ns))))).
Proof.
  induction ns as [|n ns IH]; intros fuel mem a post Hm Hok Hf; (destruct fuel as [|fuel]; [cbn in Hf; lia|]); cbn [find_note].
  - cbn [map concat length]. rewrite Z.add_0_r, Z.leb_refl. cbn. f_equal. lia.
  - inversion_clear Hok as [|? ? Hn Hns]. cbn [map concat] in *. rewrite <- app_assoc in Hm.
    pose proof (length_note_bytes n Hn) as Hl. destruct Hn as (Hn1 & Hn2 & Hn3).
    destruct (NOTE_PADDING_spec (Z.of_nat (length (note_name n))) ltac:(lia)) as [Hp1 _].
    destruct (NOTE_PADDING_spec (Z.of_nat (length (note_desc n))) ltac:(lia)) as [Hp2 _].
    rewrite length_app. unfold sizeof_Nhdr in Hl. destruct (Z.leb_spec (Z.of_nat (length a) + Z.of_nat (length (note_bytes n) + length (concat (map note_bytes ns)))) (Z.of_nat (length a))); [lia|].
    rewrite (read_type mem a _ n Hm), bind_Ret by done. unfold notes_before. cbn [list_find].
    destruct (Z.eqb_spec (note_type n) NT_GNU_BUILD_ID) as [E|E].
    + rewrite decide_True by done. cbn. f_equal. lia.
    + rewrite decide_False by done. rewrite (read_namesz mem a _ n Hm), bind_Ret, (read_descsz mem a _ n Hm), bind_Ret by done.
      rewrite app_assoc in Hm. specialize (IH fuel mem (a ++ note_bytes n) post Hm Hns ltac:(cbn in Hf; lia)).
      rewrite length_app in IH. unfold sizeof_Nhdr.
      replace (Z.of_nat (length a) + 12 + NOTE_PADDING (Z.of_nat (length (note_name n))) + NOTE_PADDING (Z.of_nat (length (note_desc n))))
        with (Z.of_nat (length a + length (note_bytes n))) by lia.
      replace (Z.of_nat (length a) + Z.of_nat (length (note_bytes n) + length (concat (map note_bytes ns))))
        with (Z.of_nat (length a + length (note_bytes n)) + Z.of_nat (length (concat (map note_bytes ns)))) by lia.
      rewrite IH. unfold notes_before. f_equal. destruct (list_find _ ns) as [[i m]|]; cbn [fmap option_fmap option_map prod_map fst snd take map concat];
        rewrite length_app; lia.
Qed.

(** The identifier that a list of notes has: the description of the first note
    of the type, which must not be empty. *)
Definition build_id (ns : list note) : option (list Z) :=
  match list_find (fun n => note_type n = NT_GNU_BUILD_ID) ns with
  | Some (_, n) => if (length (note_desc n) =? 0)%nat then None else Some (note_desc n)
  | None => None
  end.

Lemma length_notes ns : Forall note_ok ns -> (length ns <= length (concat (map note_bytes ns)))%nat.
Proof.
  induction 1 as [|n ns Hn _ IH]; [done|]. cbn [map concat length]. rewrite length_app. pose proof (length_note_bytes n Hn) as Hl. destruct Hn as (_ & H1 & H2).
  destruct (NOTE_PADDING_spec (Z.of_nat (length (note_name n))) ltac:(lia)) as [Hp1 _].
  destruct (NOTE_PADDING_spec (Z.of_nat (length (note_desc n))) ltac:(lia)) as [Hp2 _]. unfold sizeof_Nhdr in Hl. lia.
Qed.

Lemma note_identifier mem a ns post identifier : mem = a ++ concat (map note_bytes ns) ++ post -> Forall note_ok ns ->
  ElfClassBuildIDNoteIdentifier mem (Z.of_nat (length a)) (Z.of_nat (length (concat (map note_bytes ns)))) identifier
    = Ret (match build_id ns with Some d => (true, identifier ++ d) | None => (false, identifier) end).
Proof.
  intros Hm Hok. unfold ElfClassBuildIDNoteIdentifier.
  rewrite (find_note_spec ns _ mem a post Hm Hok), bind_Ret by (rewrite Hm, !length_app; pose proof (length_notes ns Hok); lia).
  unfold notes_before, build_id. destruct (list_find _ ns) as [[i n]|] eqn:Ef.
  - apply list_find_Some in Ef as (Hi & _ & _). pose proof (take_drop_middle ns i n Hi) as Ens.
    assert (note_ok n) as Hn by (eapply Forall_lookup_1; [exact Hok|exact Hi]).
    assert (mem = (a ++ concat (map note_bytes (take i ns))) ++ note_bytes n ++ concat (map note_bytes (drop (S i) ns)) ++ post) as Hm'.
    { rewrite Hm. rewrite <- Ens at 1. rewrite map_app, concat_app. cbn [map concat]. by rewrite <- !app_assoc. }
    assert (length (concat (map note_bytes ns)) = length (concat (map note_bytes (take i ns))) + (length (note_bytes n) + length (concat (map note_bytes (drop (S i) ns)))))%nat as El.
    { rewrite <- Ens at 1. rewrite map_app, concat_app. cbn [map concat]. by rewrite !length_app. }
    pose proof (length_note_bytes n Hn) as Hl. unfold sizeof_Nhdr in Hl.
    assert (0 < length (note_bytes n))%nat as Hpos.
    { destruct Hn as (_ & H1 & H2). destruct (NOTE_PADDING_spec (Z.of_nat (length (note_name n))) ltac:(lia)) as [? _].
      destruct (NOTE_PADDING_spec (Z.of_nat (length (note_desc n))) ltac:(lia)) as [? _]. lia. }
    destruct (Z.leb_spec (Z.of_nat (length a) + Z.of_nat (length (concat (map note_bytes ns)))) (Z.of_nat (length a) + Z.of_nat (length (concat (map note_bytes (take i ns)))))); [lia|].
    replace (Z.of_nat (length a) + Z.of_nat (length (concat (map note_bytes (take i ns))))) with (Z.of_nat (length (a ++ concat (map note_bytes (take i ns)))))
      by (rewrite length_app; lia).
    rewrite (read_descsz mem _ _ n Hm' Hn), bind_Ret. destruct (Nat.eqb_spec (length (note_desc n)) 0) as [->|Hd]; [done|].
    destruct (Z.eqb_spec (Z.of_nat (length (note_desc n))) 0); [lia|].
    by rewrite (read_namesz mem _ _ n Hm' Hn), bind_Ret, (read_desc mem _ _ n Hm' Hn), bind_Ret.
  - by rewrite Z.leb_refl.
Qed.

(** In a section of notes, wherever it is in the file, the identifier found
    is the description of the first note of the type of a build identifier,
    added to what the vector holds; without one, or with an empty one, nothing
    is found. The walk ends within the notes. *)
Theorem build_id_of_notes mem a ns post identifier : mem = a ++ concat (map note_bytes ns) ++ post -> Forall note_ok ns ->
  ElfClassBuildIDNoteIdentifier mem (Z.of_nat (length a)) (Z.of_nat (length (concat (map note_bytes ns)))) identifier
    = Ret (match build_id ns with Some d => (true, identifier ++ d) | None => (false, identifier) end).
Proof. apply note_identifier. Qed.

Definition gnu : list Z := [0x47; 0x4e; 0x55; 0].

Lemma build_id_of_notes_witness :
  let ns := [Note 1 gnu [9; 9; 9; 9]; Note 3 gnu [1; 2; 3; 4; 5]] in
  (([7; 7] ++ concat (map note_bytes ns) ++ [8] = [7; 7] ++ concat (map note_bytes ns) ++ [8]) /\ Forall note_ok ns) /\
  ElfClassBuildIDNoteIdentifier ([7; 7] ++ concat (map note_bytes ns) ++ [8]) (Z.of_nat (length [7; 7])) (Z.of_nat (length (concat (map note_bytes ns)))) []
    = Ret (match build_id ns with Some d => (true, [] ++ d) | None => (false, []) end).
Proof.
  intros ns. assert (Forall note_ok ns) as H.
  { unfold ns. constructor; [|constructor; [|constructor]]; (split; [by split|]; by split). }
  split; [split; [reflexivity|exact H]|]. apply (build_id_of_notes _ [7; 7] ns [8] [] eq_refl H).
Defined.

(** The name of the note is not looked at: a probe of SystemTap has the same
    type, and in front of the identifier it is taken for it. *)
Example other_owner :
  let ns := [Note 3 [0x73; 0x74; 0x61; 0x70; 0x73; 0x64; 0x74; 0] [9; 9; 9; 9]; Note 3 gnu [1; 2; 3; 4]] in
  ElfClassBuildIDNoteIdentifier (concat (map note_bytes ns)) 0 (Z.of_nat (length (concat (map note_bytes ns)))) [] = Ret (true, [9; 9; 9; 9]).
Proof. reflexivity. Qed.

(** The length of the description is not compared with the section. *)
Example description_past_the_section :
  ElfClassBuildIDNoteIdentifier (le_bytes 4 0 ++ le_bytes 4 0x100 ++ le_bytes 4 3 ++ [1; 2; 3; 4]) 0 16 [] = Fault OutOfBounds.
Proof. reflexivity. Qed.

(** * The hash of the code *)

(** The byte [i] of the hash of the first [n] blocks. *)
Definition column (text : list Z) (n i : nat) : Z := fold_left Z.lxor (map (fun k => nth (16 * k + i) text 0) (seq 0 n)) 0.

Definition hash_of (text : list Z) (n : nat) : list Z := map (column text n) (seq 0 16).

Lemma column_S text n i : column text (S n) i = Z.lxor (column text n i) (nth (16 * n + i) text 0).
Proof. unfold column. by rewrite seq_S, map_app, fold_left_app. Qed.

Lemma length_hash_of text n : length (hash_of text n) = 16%nat.
Proof. unfold hash_of. by rewrite length_map, length_seq. Qed.

Lemma hash_of_S text n : (16 * n + 16 <= length text)%nat ->
  zip_with Z.lxor (hash_of text n) (take 16 (drop (16 * n) text)) = hash_of text (S n).
Proof.
  intros Hl. apply nth_ext with 0 0; [rewrite length_zip_with, !length_hash_of, length_take, length_drop; lia|].
  rewrite length_zip_with, length_hash_of, length_take, length_drop. intros i Hi. assert (i < 16)%nat as Hi' by lia.
  assert (forall l n, nth i (hash_of l n) 0 = column l n i) as Hh.
  { intros l k. unfold hash_of. rewrite nth_indep with (d' := column l k 0) by (rewrite length_map, length_seq; lia).
    rewrite map_nth. by rewrite seq_nth by lia. }
  rewrite Hh, column_S. rewrite <- Hh.
  rewrite !nth_lookup. rewrite lookup_zip_with. rewrite lookup_take_lt, lookup_drop by lia.
  destruct (lookup_lt_is_Some_2 (hash_of text n) i) as [x Hx]; [rewrite length_hash_of; lia|].
  destruct (lookup_lt_is_Some_2 text (16 * n + i)) as [y Hy]; [lia|]. by rewrite Hx, Hy.
Qed.

Lemma xor_blocks_spec mem text a b left : mem = a ++ text ++ b -> forall fuel n ptr_end, (left < fuel)%nat ->
  (16 * (n + left) <= length text)%nat ->
  Z.of_nat (length a) + 16 * Z.of_nat (n + left) - 16 < ptr_end <= Z.of_nat (length a) + 16 * Z.of_nat (n + left) \/ left = 0%nat /\ ptr_end <= Z.of_nat (length a) + 16 * Z.of_nat n ->
  xor_blocks fuel mem (Z.of_nat (length a) + 16 * Z.of_nat n) ptr_end (hash_of text n) = Ret (hash_of text (n + left)).
Proof.
  intros Hm. induction left as [|left IH]; intros fuel n ptr_end Hf Hl He; (destruct fuel as [|fuel]; [lia|]); cbn [xor_blocks].
  - destruct (Z.ltb_spec (Z.of_nat (length a) + 16 * Z.of_nat n) ptr_end); [lia|]. do 2 f_equal. lia.
  - destruct (Z.ltb_spec (Z.of_nat (length a) + 16 * Z.of_nat n) ptr_end); [|lia].
    rewrite (read_bytes_app mem (a ++ take (16 * n) text) (take 16 (drop (16 * n) text)) (drop 16 (drop (16 * n) text) ++ b)).
    + rewrite bind_Ret, hash_of_S by lia. specialize (IH fuel (S n) ptr_end).
      replace (Z.of_nat (length a) + 16 * Z.of_nat (S n)) with (Z.of_nat (length a) + 16 * Z.of_nat n + Z.of_nat kMDGUIDSize) in IH by (unfold kMDGUIDSize; lia).
      rewrite IH by lia. do 2 f_equal. lia.
    + rewrite Hm, <- !app_assoc. rewrite (app_assoc (take 16 _)), take_drop, (app_assoc (take (16 * n) _)), take_drop. done.
    + rewrite length_app, length_take. lia.
    + rewrite length_take, length_drop. unfold kMDGUIDSize. lia.
Qed.

(** The number of blocks that are hashed. *)
Definition text_blocks (text_size : Z) : nat := Z.to_nat ((Z.min text_size 4096 + 15) / 16).

(** When a file has a section of code, the fall-back identifier has 16
    bytes, and each is the exclusive or of a column of the blocks of 16 bytes
    from the start of the section, up to 4096 bytes. The last block is read
    whole: when the size is no multiple of 16, bytes after the section, up to
    15, are in the hash, and must be in memory. *)
Theorem HashElfTextSection_spec mem identifier a text b text_size :
  FindElfSection mem (literal ".text") SHT_PROGBITS = Ret (Some (Z.of_nat (length a), text_size)) -> 0 < text_size ->
  mem = a ++ text ++ b -> (16 * text_blocks text_size <= length text)%nat ->
  HashElfTextSection mem identifier = Ret (true, hash_of text (text_blocks text_size)).
Proof.
  intros Hs Hpos Hm Hl. unfold HashElfTextSection. rewrite Hs, bind_Ret. destruct (Z.eqb_spec text_size 0); [lia|].
  change (replicate kMDGUIDSize 0) with (hash_of text 0).
  pose proof (Z.div_mod (Z.min text_size 4096 + 15) 16 ltac:(lia)). pose proof (Z.mod_pos_bound (Z.min text_size 4096 + 15) 16 ltac:(lia)).
  assert (Z.of_nat (text_blocks text_size) = (Z.min text_size 4096 + 15) / 16) as Hn by (unfold text_blocks; rewrite Z2Nat.id; [done|apply Z.div_pos; lia]).
  pose proof (xor_blocks_spec mem text a b (text_blocks text_size) Hm 257 0 (Z.of_nat (length a) + Z.min text_size 4096)) as E.
  rewrite Z.mul_0_r, Z.add_0_r in E. rewrite E, bind_Ret by lia. done.
Qed.

(** A small file of 64 bits: its header, the names of its sections, 20 bytes of
    code, and two sections. *)
Definition ehdr64 (phoff shoff phnum shnum shstrndx : Z) : list Z :=
  [0x7f; 0x45; 0x4c; 0x46; 2; 1; 1] ++ replicate 25 0 ++ le_bytes 8 phoff ++ le_bytes 8 shoff ++ replicate 8 0
    ++ le_bytes 2 phnum ++ le_bytes 2 64 ++ le_bytes 2 shnum ++ le_bytes 2 shstrndx.

Definition shdr64 (name type offset size : Z) : list Z :=
  le_bytes 4 name ++ le_bytes 4 type ++ replicate 16 0 ++ le_bytes 8 offset ++ le_bytes 8 size ++ replicate 24 0.

Definition phdr64 (type offset filesz : Z) : list Z :=
  le_bytes 4 type ++ replicate 4 0 ++ le_bytes 8 offset ++ replicate 16 0 ++ le_bytes 8 filesz ++ replicate 16 0.

Definition small_head : list Z := ehdr64 0 104 0 2 1 ++ [0] ++ literal ".text" ++ [0; 0].

Definition small_text : list Z := seqZ 1 20 ++ replicate 12 0xff ++ shdr64 1 1 72 20 ++ shdr64 0 3 64 8.

Lemma HashElfTextSection_spec_witness :
  (FindElfSection (small_head ++ small_text ++ []) (literal ".text") SHT_PROGBITS = Ret (Some (Z.of_nat (length small_head), 20))
   /\ (16 * text_blocks 20 <= length small_text)%nat) /\
  HashElfTextSection (small_head ++ small_text ++ []) [] = Ret (true, hash_of small_text (text_blocks 20)).
Proof.
  assert (FindElfSection (small_head ++ small_text ++ []) (literal ".text") SHT_PROGBITS = Ret (Some (Z.of_nat (length small_head), 20))) as H by (vm_compute; reflexivity).
  assert (16 * text_blocks 20 <= length small_text)%nat as Hl by (apply (bool_decide_unpack _); vm_compute; exact I).
  split; [split; [exact H|exact Hl]|].
  apply (HashElfTextSection_spec (small_head ++ small_text ++ []) [] small_head small_text [] 20 H); [lia|reflexivity|exact Hl].
Defined.

(** The bytes after the section are hashed with it. *)
Example hash_past_the_section :
  HashElfTextSection (small_head ++ small_text) [] = Ret (true, [16; 16; 16; 16; 0xfa; 0xf9; 0xf8; 0xf7; 0xf6; 0xf5; 0xf4; 0xf3; 0xf2; 0xf1; 0xf0; 0xef]).
Proof. vm_compute. reflexivity. Qed.

(** A file without section headers, as some packers make them: the assertion
    about their number fails. *)
Example no_sections_aborts : HashElfTextSection (ehdr64 0 0 0 0 0 ++ replicate 64 0) [] = Fault Aborted.
Proof. vm_compute. reflexivity. Qed.

(** * Where the identifier comes from *)

(** Notes at a place of the file. *)
Definition notes_at (mem : list Z) (place : Z * Z) (ns : list note) : Prop :=
  exists a post, mem = a ++ concat (map note_bytes ns) ++ post /\ place = (Z.of_nat (length a), Z.of_nat (length (concat (map note_bytes ns))))
    /\ Forall note_ok ns.

Fixpoint first_id (nss : list (list note)) : option (list Z) :=
  match nss with [] => None | ns :: nss => match build_id ns with Some d => Some d | None => first_id nss end end.

Lemma notes_at_identifier mem place ns identifier : notes_at mem place ns ->
  ElfClassBuildIDNoteIdentifier mem place.1 place.2 identifier
    = Ret (match build_id ns with Some d => (true, identifier ++ d) | None => (false, identifier) end).
Proof. intros (a & post & Hm & -> & Hok). by apply note_identifier with post. Qed.

Lemma first_note_spec mem segs nss identifier : Forall2 (notes_at mem) segs nss ->
  first_note mem segs identifier = Ret (match first_id nss with Some d => (true, identifier ++ d) | None => (false, identifier) end).
Proof.
  induction 1 as [|[start size] ns segs nss H _ IH]; [done|]. cbn [first_note first_id].
  pose proof (notes_at_identifier mem (start, size) ns identifier H) as E. cbn [fst snd] in E. rewrite E, bind_Ret.
  by destruct (build_id ns).
Qed.

(** C25: the identifier of a file: the first build identifier in the notes of
    its segments, in order; else the one in its section of that name; and only
    when there is none the hash of its code. *)
Theorem identifier_of_file mem segs nss section sns :
  FindElfSegments mem PT_NOTE = Ret segs -> Forall2 (notes_at mem) (default [] segs) nss ->
  FindElfSection mem (literal ".note.gnu.build-id") SHT_NOTE = Ret section ->
  match section with Some place => notes_at mem place sns | None => sns = [] end ->
  ElfFileIdentifierFromMappedFile mem [] =
    match first_id (nss ++ [sns]) with Some d => Ret (true, d) | None => HashElfTextSection mem [] end.
Proof.
  intros Hg Hn Hs Hp. unfold ElfFileIdentifierFromMappedFile, FindElfBuildIDNote. rewrite Hg, bind_Ret.
  rewrite (first_note_spec mem _ nss [] Hn), bind_Ret.
  assert (first_id (nss ++ [sns]) = match first_id nss with Some d => Some d | None => build_id sns end) as ->.
  { clear. induction nss as [|ns nss IH]; cbn [app first_id]; [by destruct (build_id sns)|by destruct (build_id ns)]. }
  destruct (first_id nss); [done|]. rewrite Hs, bind_Ret. destruct section as [[start size]|].
  - pose proof (notes_at_identifier mem (start, size) sns [] Hp) as E. cbn [fst snd] in E. rewrite E, bind_Ret. by destruct (build_id sns).
  - by subst sns.
Qed.

(** A file with one segment of notes. *)
Definition noted_head : list Z := ehdr64 64 120 1 1 0 ++ phdr64 4 184 36 ++ shdr64 0 3 119 1.

Definition noted_notes : list note := [Note 1 gnu []; Note 3 gnu [0xab; 0xcd]].

Lemma identifier_of_file_witness :
  let mem := noted_head ++ concat (map note_bytes noted_notes) in
  (FindElfSegments mem PT_NOTE = Ret (Some [(184, 36)]) /\ Forall2 (notes_at mem) [(184, 36)] [noted_notes]
   /\ FindElfSection mem (literal ".note.gnu.build-id") SHT_NOTE = Ret None) /\
  ElfFileIdentifierFromMappedFile mem [] =
    match first_id ([noted_notes] ++ [[]]) with Some d => Ret (true, d) | None => HashElfTextSection mem [] end.
Proof.
  intros mem.
  assert (FindElfSegments mem PT_NOTE = Ret (Some [(184, 36)])) as Hg by (vm_compute; reflexivity).
  assert (FindElfSection mem (literal ".note.gnu.build-id") SHT_NOTE = Ret None) as Hs by (vm_compute; reflexivity).
  assert (Forall2 (notes_at mem) [(184, 36)] [noted_notes]) as Hn.
  { constructor; [|constructor]. exists noted_head, []. split; [by rewrite app_nil_r|]. split; [vm_compute; reflexivity|].
    unfold noted_notes. constructor; [|constructor; [|constructor]]; (split; [by split|]; by split). }
  split; [split; [exact Hg|split; [exact Hn|exact Hs]]|].
  apply (identifier_of_file mem (Some [(184, 36)]) [noted_notes] None [] Hg Hn Hs eq_refl).
Defined.

(** * The string of an identifier *)

Fixpoint HEX_digits (k : nat) (n : Z) : list Z :=
  match k with O => [] | S k => HEX_digits k (n / 16) ++ [HEX_char (n mod 16)] end.

Lemma HEX_digits_bytes l : bytes_ok l -> HEX_digits (2 * length l) (le_val l) = bytes_to_hex_string (rev l).
Proof.
  induction 1 as [|b l [Hb Hb'] _ IH]; [done|]. change (2 ^ 8) with 256 in Hb'. unfold bytes_to_hex_string in *.
  cbn [length le_val rev]. rewrite map_app, concat_app, <- IH. replace (2 * S (length l))%nat with (S (S (2 * length l))) by lia. cbn [HEX_digits].
  rewrite Z.shiftl_mul_pow2 by lia. change (2 ^ 8) with 256. rewrite <- app_assoc. f_equal.
  - f_equal. rewrite Z.div_div by lia. change (16 * 16) with 256. rewrite Z.div_add, Z.div_small by lia. done.
  - cbn. unfold hex_byte. f_equal; [|f_equal]; f_equal.
    + replace (b + le_val l * 256) with (b + (le_val l * 16) * 16) by lia. rewrite Z.div_add by lia.
      rewrite Z_mod_plus_full. apply Z.mod_small. split; [apply Z.div_pos; lia|apply Z.div_lt_upper_bound; lia].
    + replace (b + le_val l * 256) with (b + (le_val l * 16) * 16) by lia. by rewrite Z_mod_plus_full.
Qed.

(** The UUID of an identifier is what printing the identifier as a GUID
    gives, the way the reader of a minidump does: its first 16 bytes are
    the fields in memory order, and each field is printed in hexadecimal. *)
Theorem uuid_is_guid identifier : bytes_ok identifier -> (16 <= length identifier)%nat ->
  let g := guid_of_bytes (take 16 identifier) in
  ConvertIdentifierToUUIDString identifier
    = HEX_digits 8 (data1 g) ++ HEX_digits 4 (data2 g) ++ HEX_digits 4 (data3 g) ++ bytes_to_hex_string (data4 g).
Proof.
  intros Hb Hl g. unfold ConvertIdentifierToUUIDString. assert (length (take 16 identifier) = 16%nat) as Ht by (rewrite length_take; lia).
  rewrite resize_all_alt by done. fold (take 16 identifier). set (l := take 16 identifier) in *.
  assert (bytes_ok l) as Hbl by (by apply Forall_take). unfold g, guid_of_bytes. cbn [data1 data2 data3 data4].
  assert (length (take 4 l) = 4%nat /\ length (take 2 (drop 4 l)) = 2%nat /\ length (take 2 (drop 6 l)) = 2%nat) as (L1 & L2 & L3)
    by (rewrite !length_take, !length_drop; lia).
  pose proof (HEX_digits_bytes (take 4 l)) as E1. pose proof (HEX_digits_bytes (take 2 (drop 4 l))) as E2. pose proof (HEX_digits_bytes (take 2 (drop 6 l))) as E3.
  rewrite L1 in E1. rewrite L2 in E2. rewrite L3 in E3. cbn [Nat.mul Nat.add] in E1, E2, E3.
  rewrite E1, E2, E3 by (by repeat first [apply Forall_take|apply Forall_drop]).
  rewrite (take_ge (drop 8 l)) by (rewrite length_drop; lia). unfold bytes_to_hex_string. by rewrite !map_app, !concat_app.
Qed.

Lemma uuid_is_guid_witness :
  (bytes_ok (seqZ 1 20) /\ (16 <= length (seqZ 1 20))%nat) /\
  let g := guid_of_bytes (take 16 (seqZ 1 20)) in
  ConvertIdentifierToUUIDString (seqZ 1 20)
    = HEX_digits 8 (data1 g) ++ HEX_digits 4 (data2 g) ++ HEX_digits 4 (data3 g) ++ bytes_to_hex_string (data4 g).
Proof.
  assert (bytes_ok (seqZ 1 20)) as H by (apply (bool_decide_unpack _); vm_compute; exact I).
  assert (16 <= length (seqZ 1 20))%nat as Hl by (rewrite length_seqZ; lia).
  split; [split; [exact H|exact Hl]|]. apply (uuid_is_guid (seqZ 1 20) H Hl).
Defined.

(** * Sections by name *)

Record section := Section_ { s_name_off : Z; s_type : Z; s_name : list Z }.

(** A section header at [off], whose name lies whole in the table of names. *)
Definition section_at (mem : list Z) (names names_end off : Z) (s : section) : Prop :=
  read_le mem off 4 = Ret (s_name_off s) /\ read_le mem (off + 4) 4 = Ret (s_type s) /\ nonzero (s_name s)
  /\ (exists rest, from mem (names + s_name_off s) = Ret (s_name s ++ 0 :: rest))
  /\ Z.of_nat (length (s_name s)) + 1 <= names_end - (names + s_name_off s).

Definition sections_at (cls : elf_class) (mem : list Z) (names names_end off : Z) (secs : list section) : Prop :=
  forall i s, secs !! i = Some s -> section_at mem names names_end (off + Z.of_nat i * sizeof_Shdr cls) s.

Lemma sections_at_cons cls mem names names_end off s secs : sections_at cls mem names names_end off (s :: secs) ->
  section_at mem names names_end off s /\ sections_at cls mem names names_end (off + sizeof_Shdr cls) secs.
Proof.
  intros H. split; [specialize (H 0%nat s eq_refl); by rewrite Z.mul_0_l, Z.add_0_r in H|].
  intros i x Hx. specialize (H (S i) x Hx). by replace (off + sizeof_Shdr cls + Z.of_nat i * sizeof_Shdr cls) with (off + Z.of_nat (S i) * sizeof_Shdr cls) by lia.
Qed.

(** The section found by name is the first with the type and the name,
    whatever the names of the others, and none when there is no such section;
    the number of sections must not be zero. *)
Theorem FindElfSectionByName_spec cls mem name section_type names names_end : nonzero name -> name <> [] ->
  forall secs off, sections_at cls mem names names_end off secs -> secs <> [] ->
  FindElfSectionByName cls mem name section_type off names names_end (Z.of_nat (length secs))
    = Ret ((fun '(i, _) => off + Z.of_nat i * sizeof_Shdr cls) <$> list_find (fun s => s_type s = section_type /\ s_name s = name) secs).
Proof.
  intros Hnz Hne secs off Hs Hn. unfold FindElfSectionByName. destruct (Z.ltb_spec 0 (Z.of_nat (length secs))); [|destruct secs; [done|cbn in *; lia]].
  cbn [negb]. destruct (Nat.eqb_spec (length name) 0); [by destruct name|]. rewrite Nat2Z.id. clear Hn H.
  revert off Hs. induction secs as [|s secs IH]; intros off Hs; [done|].
  apply sections_at_cons in Hs as [(Ho & Ht & Hsn & (rest & Hf) & Hend) Hs]. cbn [length find_section list_find].
  rewrite Ho, bind_Ret, Ht, bind_Ret. specialize (IH _ Hs). destruct (my_strncmp_spec name (s_name s) 0 [] rest Hnz Hsn) as [_ Ec].
  assert ((if (s_type s =? section_type) && (Z.of_nat (length name) + 1 <=? names_end - (names + s_name_off s)) then bool_decide (name = s_name s) else false)
    = bool_decide (s_type s = section_type /\ s_name s = name)) as Eb.
  { destruct (Z.eqb_spec (s_type s) section_type), (Z.leb_spec (Z.of_nat (length name) + 1) (names_end - (names + s_name_off s))); cbn [andb];
      repeat case_bool_decide; try done; naive_solver (subst; lia). }
  assert ((sign_of (string_order name (s_name s)) =? 0) = bool_decide (name = s_name s)) as Eo.
  { case_bool_decide as Hx; [apply (string_order_eq name (s_name s) Hnz Hsn) in Hx; by rewrite Hx|].
    destruct (string_order name (s_name s)) eqn:E; [by apply (string_order_eq name (s_name s) Hnz Hsn) in E|done|done]. }
  assert (forall i, off + sizeof_Shdr cls + Z.of_nat i * sizeof_Shdr cls = off + Z.of_nat (S i) * sizeof_Shdr cls) as Ei by (intros i; lia).
  assert (Ret ((fun '(i, _) => off + Z.of_nat i * sizeof_Shdr cls) <$> (prod_map S id <$> list_find (fun s => s_type s = section_type /\ s_name s = name) secs))
    = find_section cls mem name section_type names names_end (length secs) (off + sizeof_Shdr cls)) as Erest.
  { rewrite IH. destruct (list_find _ secs) as [[i x]|]; cbn [fmap option_fmap option_map prod_map]; [by rewrite Ei|done]. }
  destruct ((s_type s =? section_type) && (Z.of_nat (length name) + 1 <=? names_end - (names + s_name_off s))).
  - rewrite Hf, bind_Ret, Ec, bind_Ret, Eo. symmetry in Eb. case_bool_decide as Hx; case_bool_decide as Hy; try done.
    + rewrite decide_True by done. cbn. do 2 f_equal. lia.
    + rewrite decide_False by done. by rewrite Erest.
  - symmetry in Eb. apply bool_decide_eq_false in Eb. rewrite decide_False by done. by rewrite Erest.
Qed.

(** The sections of the small file above. *)
Lemma FindElfSectionByName_spec_witness :
  let mem := small_head ++ small_text in
  let secs := [Section_ 1 1 (literal ".text"); Section_ 0 3 []] in
  (nonzero (literal ".text") /\ literal ".text" <> [] /\ sections_at ElfClass64 mem 64 72 104 secs /\ secs <> []) /\
  FindElfSectionByName ElfClass64 mem (literal ".text") 1 104 64 72 (Z.of_nat (length secs))
    = Ret ((fun '(i, _) => 104 + Z.of_nat i * sizeof_Shdr ElfClass64) <$> list_find (fun s => s_type s = 1 /\ s_name s = literal ".text") secs).
Proof.
  intros mem secs. assert (nonzero (literal ".text")) as H1 by (repeat constructor; done). assert (literal ".text" <> []) as H2 by done.
  assert (sections_at ElfClass64 mem 64 72 104 secs) as H3.
  { intros [|[|i]] s Hs; [injection Hs as <-|injection Hs as <-|done].
    - split; [vm_compute; reflexivity|]. split; [vm_compute; reflexivity|]. split; [exact H1|]. split; [eexists; vm_compute; reflexivity|vm_compute; done].
    - split; [vm_compute; reflexivity|]. split; [vm_compute; reflexivity|]. split; [constructor|]. split; [eexists; vm_compute; reflexivity|vm_compute; done]. }
  assert (secs <> []) as H4 by done.
  split; [exact (conj H1 (conj H2 (conj H3 H4)))|]. apply (FindElfSectionByName_spec ElfClass64 mem (literal ".text") 1 64 72 H1 H2 secs 104 H3 H4).
Defined.
