(* ===== verification/DumpMd5.v ===== *)
(** The MD5 of the dump writer: common/md5.cc of libbreakpad.

    The context has the four registers, the number of bits in two words, and a
    buffer of 64 bytes that MD5Init leaves as it is. The words of the buffer are
    little endian, so byteReverse does nothing. The rotation, the words of a
    block and the reference function are those of [Md5]. *)
From S2P Require Import Prelude Md5.

Record MD5Context := Context { buf : regs; bits : Z * Z; in_ : list Z }.

Definition MD5Init (ctx : MD5Context) : MD5Context := Context (0x67452301, 0xefcdab89, 0x98badcfe, 0x10325476) (0, 0) (in_ ctx).

(** * MD5Transform *)

Definition F1 (x y z : Z) : Z := Z.lxor z (Z.land x (Z.lxor y z)).
Definition F2 (x y z : Z) : Z := F1 z x y.
Definition F3 (x y z : Z) : Z := Z.lxor (Z.lxor x y) z.
Definition F4 (x y z : Z) : Z := Z.lxor y (Z.lor x (not32 z)).

Definition MD5STEP (f : Z -> Z -> Z -> Z) (w x y z data s : Z) : Z :=
  let w := u32 (w + u32 (f x y z + u32 data)) in
  let w := Z.lor (u32 (Z.shiftl w s)) (Z.shiftr w (32 - s)) in
  u32 (w + x).

Definition MD5Round1 (x : nat -> Z) (r : regs) : regs :=
  let '(a, b, c, d) := r in
  let a := MD5STEP F1 a b c d (x 0%nat + 0xd76aa478) 7 in
  let d := MD5STEP F1 d a b c (x 1%nat + 0xe8c7b756) 12 in
  let c := MD5STEP F1 c d a b (x 2%nat + 0x242070db) 17 in
  let b := MD5STEP F1 b c d a (x 3%nat + 0xc1bdceee) 22 in
  let a := MD5STEP F1 a b c d (x 4%nat + 0xf57c0faf) 7 in
  let d := MD5STEP F1 d a b c (x 5%nat + 0x4787c62a) 12 in
  let c := MD5STEP F1 c d a b (x 6%nat + 0xa8304613) 17 in
  let b := MD5STEP F1 b c d a (x 7%nat + 0xfd469501) 22 in
  let a := MD5STEP F1 a b c d (x 8%nat + 0x698098d8) 7 in
  let d := MD5STEP F1 d a b c (x 9%nat + 0x8b44f7af) 12 in
  let c := MD5STEP F1 c d a b (x 10%nat + 0xffff5bb1) 17 in
  let b := MD5STEP F1 b c d a (x 11%nat + 0x895cd7be) 22 in
  let a := MD5STEP F1 a b c d (x 12%nat + 0x6b901122) 7 in
  let d := MD5STEP F1 d a b c (x 13%nat + 0xfd987193) 12 in
  let c := MD5STEP F1 c d a b (x 14%nat + 0xa679438e) 17 in
  let b := MD5STEP F1 b c d a (x 15%nat + 0x49b40821) 22 in
  (a, b, c, d).

Definition MD5Round2 (x : nat -> Z) (r : regs) : regs :=
  let '(a, b, c, d) := r in
  let a := MD5STEP F2 a b c d (x 1%nat + 0xf61e2562) 5 in
  let d := MD5STEP F2 d a b c (x 6%nat + 0xc040b340) 9 in
  let c := MD5STEP F2 c d a b (x 11%nat + 0x265e5a51) 14 in
  let b := MD5STEP F2 b c d a (x 0%nat + 0xe9b6c7aa) 20 in
  let a := MD5STEP F2 a b c d (x 5%nat + 0xd62f105d) 5 in
  let d := MD5STEP F2 d a b c (x 10%nat + 0x02441453) 9 in
  let c := MD5STEP F2 c d a b (x 15%nat + 0xd8a1e681) 14 in
  let b := MD5STEP F2 b c d a (x 4%nat + 0xe7d3fbc8) 20 in
  let a := MD5STEP F2 a b c d (x 9%nat + 0x21e1cde6) 5 in
  let d := MD5STEP F2 d a b c (x 14%nat + 0xc33707d6) 9 in
  let c := MD5STEP F2 c d a b (x 3%nat + 0xf4d50d87) 14 in
  let b := MD5STEP F2 b c d a (x 8%nat + 0x455a14ed) 20 in
  let a := MD5STEP F2 a b c d (x 13%nat + 0xa9e3e905) 5 in
  let d := MD5STEP F2 d a b c (x 2%nat + 0xfcefa3f8) 9 in
  let c := MD5STEP F2 c d a b (x 7%nat + 0x676f02d9) 14 in
  let b := MD5STEP F2 b c d a (x 12%nat + 0x8d2a4c8a) 20 in
  (a, b, c, d).

Definition MD5Round3 (x : nat -> Z) (r : regs) : regs :=
  let '(a, b, c, d) := r in
  let a := MD5STEP F3 a b c d (x 5%nat + 0xfffa3942) 4 in
  let d := MD5STEP F3 d a b c (x 8%nat + 0x8771f681) 11 in
  let c := MD5STEP F3 c d a b (x 11%nat + 0x6d9d6122) 16 in
  let b := MD5STEP F3 b c d a (x 14%nat + 0xfde5380c) 23 in
  let a := MD5STEP F3 a b c d (x 1%nat + 0xa4beea44) 4 in
  let d := MD5STEP F3 d a b c (x 4%nat + 0x4bdecfa9) 11 in
  let c := MD5STEP F3 c d a b (x 7%nat + 0xf6bb4b60) 16 in
  let b := MD5STEP F3 b c d a (x 10%nat + 0xbebfbc70) 23 in
  let a := MD5STEP F3 a b c d (x 13%nat + 0x289b7ec6) 4 in
  let d := MD5STEP F3 d a b c (x 0%nat + 0xeaa127fa) 11 in
  let c := MD5STEP F3 c d a b (x 3%nat + 0xd4ef3085) 16 in
  let b := MD5STEP F3 b c d a (x 6%nat + 0x04881d05) 23 in
  let a := MD5STEP F3 a b c d (x 9%nat + 0xd9d4d039) 4 in
  let d := MD5STEP F3 d a b c (x 12%nat + 0xe6db99e5) 11 in
  let c := MD5STEP F3 c d a b (x 15%nat + 0x1fa27cf8) 16 in
  let b := MD5STEP F3 b c d a (x 2%nat + 0xc4ac5665) 23 in
  (a, b, c, d).

Definition MD5Round4 (x : nat -> Z) (r : regs) : regs :=
  let '(a, b, c, d) := r in
  let a := MD5STEP F4 a b c d (x 0%nat + 0xf4292244) 6 in
  let d := MD5STEP F4 d a b c (x 7%nat + 0x432aff97) 10 in
  let c := MD5STEP F4 c d a b (x 14%nat + 0xab9423a7) 15 in
  let b := MD5STEP F4 b c d a (x 5%nat + 0xfc93a039) 21 in
  let a := MD5STEP F4 a b c d (x 12%nat + 0x655b59c3) 6 in
  let d := MD5STEP F4 d a b c (x 3%nat + 0x8f0ccc92) 10 in
  let c := MD5STEP F4 c d a b (x 10%nat + 0xffeff47d) 15 in
  let b := MD5STEP F4 b c d a (x 1%nat + 0x85845dd1) 21 in
  let a := MD5STEP F4 a b c d (x 8%nat + 0x6fa87e4f) 6 in
  let d := MD5STEP F4 d a b c (x 15%nat + 0xfe2ce6e0) 10 in
  let c := MD5STEP F4 c d a b (x 6%nat + 0xa3014314) 15 in
  let b := MD5STEP F4 b c d a (x 13%nat + 0x4e0811a1) 21 in
  let a := MD5STEP F4 a b c d (x 4%nat + 0xf7537e82) 6 in
  let d := MD5STEP F4 d a b c (x 11%nat + 0xbd3af235) 10 in
  let c := MD5STEP F4 c d a b (x 2%nat + 0x2ad7d2bb) 15 in
  let b := MD5STEP F4 b c d a (x 9%nat + 0xeb86d391) 21 in
  (a, b, c, d).

Definition MD5Transform (st : regs) (block : list Z) : regs :=
  let x := fun k => nth k (decode block) 0 in
  let '(a, b, c, d) := MD5Round4 x (MD5Round3 x (MD5Round2 x (MD5Round1 x st))) in
  let '(s0, s1, s2, s3) := st in
  (u32 (s0 + a), u32 (s1 + b), u32 (s2 + c), u32 (s3 + d)).

(** * The operations *)

(** Blocks of 64 bytes while there are 64; the rest of the input. *)
Fixpoint update_blocks (fuel : nat) (st : regs) (buffer input : list Z) : res (regs * list Z * list Z) :=
  match fuel with
  | O => Fault OutOfFuel
  | S fuel =>
      if (64 <=? length input)%nat then
        block ← load input 0 64;
        buffer ← store buffer 0 block;
        update_blocks fuel (MD5Transform st buffer) buffer (drop 64 input)
      else Ret (st, buffer, input)
  end.

Definition add_bits (bits : Z * Z) (len : Z) : Z * Z :=
  let '(t, b1) := bits in
  let b0 := u32 (t + u32 (Z.shiftl (u32 len) 3)) in
  let b1 := if b0 <? t then u32 (b1 + 1) else b1 in
  (b0, u32 (b1 + Z.shiftr len 29)).

Definition MD5Update (ctx : MD5Context) (input : list Z) : res MD5Context :=
  let len := Z.of_nat (length input) in
  let bits' := add_bits (bits ctx) len in
  let t := Z.land (Z.shiftr (bits ctx).1 3) 0x3f in
  if negb (t =? 0) && (len <? 64 - t) then
    buffer ← store (in_ ctx) (Z.to_nat t) input;
    Ret (Context (buf ctx) bits' buffer)
  else
    '(st, buffer, input) ←
      (if negb (t =? 0) then
         src ← load input 0 (Z.to_nat (64 - t));
         buffer ← store (in_ ctx) (Z.to_nat t) src;
         Ret (MD5Transform (buf ctx) buffer, buffer, drop (Z.to_nat (64 - t)) input)
       else Ret (buf ctx, in_ ctx, input));
    '(st, buffer, input) ← update_blocks (S (length input)) st buffer input;
    buffer ← store buffer 0 input;
    Ret (Context st bits' buffer).

(** The digest; the context is zeroed. *)
Definition MD5Final (ctx : MD5Context) : res (list Z * MD5Context) :=
  let count := Z.to_nat (Z.land (Z.shiftr (bits ctx).1 3) 0x3f) in
  buffer ← store (in_ ctx) count [0x80];
  let p := S count in
  let count := (64 - 1 - count)%nat in
  '(st, buffer) ←
    (if (count <? 8)%nat then
       buffer ← store buffer p (replicate count 0);
       let st := MD5Transform (buf ctx) buffer in
       buffer ← store buffer 0 (replicate 56 0);
       Ret (st, buffer)
     else buffer ← store buffer p (replicate (count - 8) 0); Ret (buf ctx, buffer));
  buffer ← store buffer 14 (encode [(bits ctx).1]);
  buffer ← store buffer 15 (encode [(bits ctx).2]);
  let st := MD5Transform st buffer in
  Ret (encode (regs_list st), Context (0, 0, 0, 0) (0, 0) (replicate 64 0)).

(** * MD5Transform is the function of the RFC *)

(** The functions of the source in the reference's step. *)
Definition source_f (i : nat) : Z -> Z -> Z -> Z :=
  if decide (i < 16)%nat then F1
  else if decide (i < 32)%nat then F2
  else if decide (i < 48)%nat then F3
  else F4.

Definition source_step (x : nat -> Z) (r : regs) (i : nat) : regs :=
  let '(a, b, c, d) := r in (d, MD5STEP (source_f i) a b c d (x (Spec.k i) + nth i Spec.T 0) (Spec.s i), b, c).

Lemma source_step_eq x a b c d i :
  source_step x (a, b, c, d) i = (d, MD5STEP (source_f i) a b c d (x (Spec.k i) + nth i Spec.T 0) (Spec.s i), b, c).
Proof. done. Qed.

Lemma MD5Round1_fold x r : MD5Round1 x r = fold_left (source_step x) (seq 0 16) r.
Proof. revert r. round_by MD5Round1 source_step_eq. Qed.

Lemma MD5Round2_fold x r : MD5Round2 x r = fold_left (source_step x) (seq 16 16) r.
Proof. revert r. round_by MD5Round2 source_step_eq. Qed.

Lemma MD5Round3_fold x r : MD5Round3 x r = fold_left (source_step x) (seq 32 16) r.
Proof. revert r. round_by MD5Round3 source_step_eq. Qed.

Lemma MD5Round4_fold x r : MD5Round4 x r = fold_left (source_step x) (seq 48 16) r.
Proof. revert r. round_by MD5Round4 source_step_eq. Qed.

Definition regs_ok (r : regs) : Prop := let '(a, b, c, d) := r in in_range 32 a /\ in_range 32 b /\ in_range 32 c /\ in_range 32 d.

(** The optimised forms of the functions. *)
Lemma F1_F x y z : in_range 32 z -> F1 x y z = F x y z.
Proof.
  intros Hz. unfold F1, F, not32. apply Z.bits_inj'. intros n Hn.
  rewrite Z.lxor_spec, Z.land_spec, Z.lxor_spec, Z.lor_spec, !Z.land_spec, wrap_testbit, Z.lnot_spec by lia.
  destruct (Z.ltb_spec n 32); [by destruct (Z.testbit x n), (Z.testbit y n), (Z.testbit z n)|].
  assert (Z.testbit z n = false) as ->; [|by destruct (Z.testbit x n), (Z.testbit y n)].
  rewrite <- (wrap_small 32 z Hz), wrap_testbit by lia. by destruct (Z.ltb_spec n 32); [lia|].
Qed.

Lemma F2_G x y z : in_range 32 y -> F2 x y z = G x y z.
Proof.
  intros Hy. unfold F2. rewrite F1_F by done. unfold F, G. by rewrite (Z.land_comm z x), (Z.land_comm (not32 z) y).
Qed.

Lemma source_f_spec i x y z : in_range 32 y -> in_range 32 z -> source_f i x y z = Spec.f i x y z.
Proof. intros Hy Hz. unfold source_f, Spec.f. repeat case_decide; [by apply F1_F|by apply F2_G|done|done]. Qed.

Lemma source_step_spec x r i : regs_ok r -> source_step x r i = Spec.step x r i /\ regs_ok (Spec.step x r i).
Proof.
  destruct r as [[[a b] c] d]. intros (Ha & Hb & Hc & Hd). unfold source_step, Spec.step, MD5STEP. split.
  - rewrite source_f_spec, (wrap_add_r 32 (Spec.f i b c d)) by done. by rewrite (Z.add_assoc (Spec.f i b c d)).
  - split; [done|]. split; [by apply wrap_range|]. done.
Qed.

Lemma source_fold_spec x l : forall r, regs_ok r -> fold_left (source_step x) l r = fold_left (Spec.step x) l r.
Proof.
  induction l as [|i l IH]; intros r Hr; [done|]. cbn [fold_left]. destruct (source_step_spec x r i Hr) as [-> H]. by apply IH.
Qed.

Lemma MD5Transform_compress st block : regs_ok st -> MD5Transform st block = Spec.compress st block.
Proof.
  intros Hst. unfold MD5Transform, Spec.compress. generalize (decode block). intros l.
  rewrite MD5Round1_fold, MD5Round2_fold, MD5Round3_fold, MD5Round4_fold, <- !fold_left_app.
  change (seq 0 16 ++ seq 16 16 ++ seq 32 16 ++ seq 48 16) with (seq 0 64).
  rewrite source_fold_spec by done. done.
Qed.

(** * What the context stands for *)

Lemma compress_ok h block : regs_ok (Spec.compress h block).
Proof.
  unfold Spec.compress. destruct (fold_left _ _ _) as [[[a b] c] d]. destruct h as [[[h0 h1] h2] h3].
  split; [by apply wrap_range|]. split; [by apply wrap_range|]. split; by apply wrap_range.
Qed.

Lemma blocks_ok n : forall h m, regs_ok h -> regs_ok (Spec.blocks n h m).
Proof. induction n as [|n IH]; intros h m Hh; [done|]. cbn [Spec.blocks]. apply IH, compress_ok. Qed.

Lemma init_ok : regs_ok init_regs.
Proof. split; [by split|]. split; [by split|]. split; by split. Qed.

(** The context of a text, in the terms of the other implementation. *)
Definition as_object (ctx : MD5Context) : MD5 := mkMD5 (buf ctx) (bits ctx) (in_ ctx) [] false.

Definition ctx_absorbed (ctx : MD5Context) (m : list Z) : Prop := absorbed (as_object ctx) m.

Lemma ctx_regs_ok ctx m : ctx_absorbed ctx m -> regs_ok (buf ctx).
Proof. intros (H & _). cbn in H. rewrite H. apply blocks_ok, init_ok. Qed.

Lemma add_bits_of n k : 0 <= n -> 0 <= k -> add_bits (count_of n) k = count_of (n + k).
Proof.
  intros Hn Hk. unfold add_bits, count_of. rewrite Z.shiftl_mul_pow2, Z.shiftr_div_pow2 by lia.
  assert (u32 (u32 k * 2 ^ 3) = u32 (8 * k)) as ->.
  { unfold wrap. rewrite Zmult_mod_idemp_l. f_equal. lia. }
  rewrite (Z.add_comm (u32 (8 * n))), carry_test by (apply wrap_range; lia). f_equal.
  - autorewrite with words. f_equal. lia.
  - unfold wrap. change (2 ^ 32) with 4294967296. change (2 ^ 29) with 536870912.
    destruct (Z.leb_spec 4294967296 ((8 * k) mod 4294967296 + (8 * n) mod 4294967296));
      [rewrite Zplus_mod_idemp_l, <- Z.add_assoc|]; rewrite Zplus_mod_idemp_l; f_equal.
    + Z.div_mod_to_equations; lia.
    + Z.div_mod_to_equations; lia.
Qed.

Lemma update_blocks_spec n : forall fuel st buffer input, (n < fuel)%nat -> length buffer = 64%nat -> regs_ok st ->
  (64 * n <= length input < 64 * n + 64)%nat ->
  exists buffer', update_blocks fuel st buffer input = Ret (Spec.blocks n st input, buffer', drop (64 * n) input) /\ length buffer' = 64%nat
    /\ buffer' = (if (n =? 0)%nat then buffer else take 64 (drop (64 * (n - 1)) input)).
Proof.
  induction n as [|n IH]; intros [|fuel] st buffer input Hf Hb Hst Hl; try lia; cbn [update_blocks].
  - destruct (Nat.leb_spec 64 (length input)); [lia|]. exists buffer. by rewrite Nat.mul_0_r, drop_0.
  - destruct (Nat.leb_spec 64 (length input)); [|lia]. rewrite load_in_bounds, bind_Ret, drop_0 by lia.
    rewrite store_in_bounds, bind_Ret, take_0 by (rewrite length_take; lia). cbn [app]. rewrite Nat.add_0_l.
    rewrite (drop_ge buffer), app_nil_r by (rewrite length_take; lia). rewrite MD5Transform_compress by done.
    destruct (IH fuel (Spec.compress st (take 64 input)) (take 64 input) (drop 64 input)) as (b' & -> & Hb' & Eb'); try lia.
    + rewrite length_take. lia.
    + apply compress_ok.
    + rewrite length_drop. lia.
    + exists b'. split; [cbn [Spec.blocks]; rewrite drop_drop; do 3 f_equal; lia|]. split; [done|]. rewrite Eb'. cbn [Nat.eqb].
      destruct n as [|n]; [by rewrite drop_0|]. cbn [Nat.eqb]. rewrite drop_drop. do 2 f_equal. lia.
Qed.

(** Only the start of the buffer counts. *)
Lemma absorbed_buffer s m b' : absorbed s m -> length b' = 64%nat -> take (length m mod 64) b' = take (length m mod 64) (_buffer s) ->
  absorbed (mkMD5 (_state s) (_count s) b' [] false) m.
Proof. intros (H1 & H2 & H3 & H4) Hb Ht. split; [done|]. split; [done|]. split; [done|]. by rewrite <- H4, <- Ht. Qed.

Lemma index_Z ctx : Z.land (Z.shiftr (bits ctx).1 3) 0x3f = Z.of_nat (index_of (as_object ctx)).
Proof. apply (index_of_Z (as_object ctx)). Qed.

Lemma update_aligned ctx m input : ctx_absorbed ctx m -> index_of (as_object ctx) = 0%nat ->
  exists ctx', MD5Update ctx input = Ret ctx' /\ ctx_absorbed ctx' (m ++ input).
Proof.
  intros H Hi. pose proof (ctx_regs_ok ctx m H) as Hok. destruct (absorbed_elim _ _ H) as (q & Hm & _ & Hst & Hc & Hb & _).
  rewrite Hi, Nat.add_0_r in Hm. cbn [as_object _state _count _buffer] in Hst, Hc, Hb.
  unfold MD5Update. rewrite index_Z, Hi. change (Z.of_nat 0 =? 0) with true. cbn [negb andb]. rewrite bind_Ret.
  pose proof (div_mod_split (length input)) as Hd. pose proof (Nat.mod_upper_bound (length input) 64 ltac:(done)).
  destruct (update_blocks_spec (length input / 64) (S (length input)) (buf ctx) (in_ ctx) input) as (b' & -> & Hb' & _); try done; try lia.
  rewrite bind_Ret. assert (length (drop (64 * (length input / 64)) input) = length input mod 64)%nat as Hr by (rewrite length_drop; lia).
  rewrite store_in_bounds, bind_Ret, take_0 by lia. eexists. split; [done|]. unfold ctx_absorbed, as_object. cbn [buf bits in_ app].
  apply absorbed_intro with (q + length input / 64)%nat (length input mod 64)%nat; try done.
  - rewrite length_app. lia.
  - rewrite blocks_app, blocks_prefix, <- Hst by lia. f_equal. rewrite drop_app_ge, Hm, Nat.sub_diag, drop_0 by lia. done.
  - rewrite Hc, add_bits_of, length_app by lia. f_equal. lia.
  - rewrite length_app, Nat.add_0_l, Hr, length_drop. lia.
  - rewrite take_app_le, take_ge by lia. rewrite drop_app_ge by lia. f_equal. lia.
Qed.

Lemma update_partial ctx m input : ctx_absorbed ctx m -> index_of (as_object ctx) <> 0%nat ->
  exists ctx', MD5Update ctx input = Ret ctx' /\ ctx_absorbed ctx' (m ++ input).
Proof.
  intros H Hi. pose proof (ctx_regs_ok ctx m H) as Hok. pose proof (absorbed_elim _ _ H) as (q & Hm & Hlt & Hst & Hc & Hb & _).
  set (t := index_of (as_object ctx)) in *. cbn [as_object _state _count _buffer] in Hst, Hc, Hb.
  assert (add_bits (bits ctx) (Z.of_nat (length input)) = count_of (Z.of_nat (length (m ++ input)))) as Ec.
  { rewrite Hc, add_bits_of, length_app by lia. f_equal. lia. }
  unfold MD5Update. rewrite index_Z, Ec. fold t. destruct (Z.eqb_spec (Z.of_nat t) 0) as [|_]; [lia|]. cbn [negb andb].
  destruct (Z.ltb_spec (Z.of_nat (length input)) (64 - Z.of_nat t)) as [Hs|Hs].
  - rewrite Nat2Z.id, store_in_bounds, bind_Ret by lia. eexists. split; [done|].
    exact (absorb_short (as_object ctx) m input H ltac:(fold t; lia)).
  - replace (Z.to_nat (64 - Z.of_nat t)) with (64 - t)%nat by lia. rewrite Nat2Z.id, load_in_bounds, bind_Ret, drop_0 by lia.
    assert (length (take (64 - t) input) = 64 - t)%nat as Ht by (rewrite length_take; lia).
    rewrite store_in_bounds, bind_Ret by lia. rewrite (drop_ge (in_ ctx)), app_nil_r by lia. rewrite bind_Ret.
    set (first := take t (in_ ctx) ++ take (64 - t) input). set (rest := drop (64 - t) input).
    assert (length first = 64%nat) as Hfirst by (unfold first; rewrite length_app, length_take; lia).
    assert (length rest = length input - (64 - t))%nat as Hrest by (unfold rest; by rewrite length_drop).
    pose proof (div_mod_split (length rest)) as Hd. pose proof (Nat.mod_upper_bound (length rest) 64 ltac:(done)) as Hr.
    set (n := (length rest / 64)%nat) in *. set (r := (length rest mod 64)%nat) in *. rewrite MD5Transform_compress by done.
    destruct (update_blocks_spec n (S (length rest)) (Spec.compress (buf ctx) first) first rest) as (b' & E & Hb' & _); try lia; [apply compress_ok|].
    rewrite E, bind_Ret.
    assert (length (drop (64 * n) rest) = r) as Hdr by (rewrite length_drop; lia).
    rewrite store_in_bounds, bind_Ret, take_0 by lia. eexists. split; [done|].
    pose proof (absorb_long (as_object ctx) m input n r H ltac:(fold t; lia) Hr) as Ha. cbv zeta in Ha. fold t in Ha.
    cbn [as_object _state _buffer] in Ha. fold first rest in Ha. rewrite transform_compress in Ha.
    apply (absorbed_buffer _ _ (drop (64 * n) rest ++ drop (length (drop (64 * n) rest)) b') Ha).
    + rewrite length_app, Hdr, length_drop. lia.
    + cbn [_buffer]. assert (length (m ++ input) mod 64 = r)%nat as ->.
      { rewrite length_app. symmetry. apply Nat.mod_unique with (q + 1 + n)%nat; lia. }
      by rewrite !take_app_le, !take_ge by lia.
Qed.

(** The context of a text [m], after MD5Update with any input, of any
    length, is the context of [m] and the input: the registers are the fold of
    the RFC's function over the whole blocks, the count of bits is right with its
    carry, and the buffer starts with the rest. *)
Theorem MD5Update_absorbs ctx m input : ctx_absorbed ctx m ->
  exists ctx', MD5Update ctx input = Ret ctx' /\ ctx_absorbed ctx' (m ++ input).
Proof.
  intros H. destruct (decide (index_of (as_object ctx) = 0%nat)); [by apply update_aligned|by apply update_partial].
Qed.

Lemma ctx_absorbed_init ctx : length (in_ ctx) = 64%nat -> ctx_absorbed (MD5Init ctx) [].
Proof. intros H. unfold ctx_absorbed, as_object, absorbed. cbn. by rewrite take_0. Qed.

(** * MD5Final *)

(** The digest of a text, in a context that held [garbage]. *)
Definition digest_of (garbage text : list Z) : res (list Z) :=
  ctx ← MD5Update (MD5Init (Context (0, 0, 0, 0) (0, 0) garbage)) text;
  '(digest, _) ← MD5Final ctx;
  Ret digest.

(** The context after one MD5Update, with all of its buffer. *)
Lemma update_fresh garbage text : length garbage = 64%nat ->
  let n := (length text / 64)%nat in
  exists rest, MD5Update (MD5Init (Context (0, 0, 0, 0) (0, 0) garbage)) text
      = Ret (Context (Spec.blocks n init_regs text) (count_of (Z.of_nat (length text))) (drop (64 * n) text ++ rest))
    /\ rest = drop (length text mod 64) (if (n =? 0)%nat then garbage else take 64 (drop (64 * (n - 1)) text)).
Proof.
  intros Hg n. unfold MD5Update, MD5Init. cbn [buf bits in_ fst]. change (Z.land (Z.shiftr 0 3) 63) with 0. cbn [Z.eqb negb andb]. rewrite bind_Ret.
  pose proof (div_mod_split (length text)) as Hd. pose proof (Nat.mod_upper_bound (length text) 64 ltac:(done)).
  destruct (update_blocks_spec n (S (length text)) init_regs garbage text) as (b' & E & Hb' & Eb'); try apply init_ok; try done; try lia.
  change (0x67452301, 0xefcdab89, 0x98badcfe, 0x10325476) with init_regs. rewrite E, bind_Ret.
  assert (length (drop (64 * n) text) = length text mod 64)%nat as Hr by (rewrite length_drop; lia).
  rewrite store_in_bounds, bind_Ret, take_0 by lia. cbn [app]. rewrite Nat.add_0_l, Hr.
  exists (drop (length text mod 64) b'). split; [|by rewrite Eb']. change (0, 0) with (count_of 0). rewrite add_bits_of by lia. done.
Qed.

Lemma store_at {A} (l a y src rest : list A) n : l = a ++ y ++ rest -> n = length a -> length y = length src ->
  store l n src = Ret (a ++ src ++ rest).
Proof.
  intros -> -> Hy. rewrite store_in_bounds by (rewrite !length_app; lia). rewrite take_app_length, drop_app_add, <- Hy. by rewrite drop_app_length.
Qed.

(** The last block: the length is written at the bytes 14 to 18. *)
Lemma final_block p tail st c : (19 <= length p < 56)%nat -> (length p + length tail = 64)%nat ->
  Z.to_nat (Z.land (Z.shiftr c.1 3) 0x3f) = length p ->
  exists digest rest, MD5Final (Context st c (p ++ tail)) = Ret (digest, rest)
    /\ digest = encode (regs_list (MD5Transform st
         (take 14 p ++ take 1 (encode [c.1]) ++ encode [c.2] ++ drop 19 p ++ 0x80 :: replicate (55 - length p) 0 ++ drop (56 - length p) tail))).
Proof.
  intros Hp Hl Hc. unfold MD5Final. cbn [bits in_ buf]. rewrite Hc.
  rewrite store_in_bounds, bind_Ret by (rewrite length_app; cbn; lia). rewrite take_app_length, drop_app_add. cbn [length].
  destruct (Nat.ltb_spec (64 - 1 - length p) 8); [lia|].
  rewrite store_in_bounds, bind_Ret by (rewrite !length_app, length_replicate, length_drop; cbn [length]; lia). rewrite bind_Ret.
  assert (take (S (length p)) (p ++ [0x80] ++ drop 1 tail) = p ++ [0x80]) as -> by (rewrite app_assoc, take_app_le, take_ge by (rewrite length_app; cbn; lia); done).
  rewrite length_replicate. assert (drop (S (length p) + (64 - 1 - length p - 8)) (p ++ [0x80] ++ drop 1 tail) = drop (56 - length p) tail) as ->.
  { rewrite app_assoc, drop_app_ge by (rewrite length_app; cbn; lia). rewrite length_app, drop_drop. f_equal. cbn [length]. lia. }
  set (z := replicate (64 - 1 - length p - 8) 0). set (t' := drop (56 - length p) tail).
  assert (p = take 14 p ++ take 5 (drop 14 p) ++ drop 19 p) as Ep.
  { rewrite <- (take_drop 14 p) at 1. f_equal. rewrite <- (take_drop 5 (drop 14 p)) at 1. f_equal. rewrite drop_drop. done. }
  set (a := take 14 p) in *. set (x := take 5 (drop 14 p)) in *. set (b := drop 19 p) in *.
  assert (length a = 14%nat /\ length x = 5%nat) as [La Lx] by (unfold a, x; rewrite !length_take, length_drop; lia).
  set (rest := b ++ 0x80 :: z ++ t').
  assert ((p ++ [0x80]) ++ z ++ t' = a ++ x ++ rest) as -> by (unfold rest; rewrite Ep; by rewrite <- !app_assoc).
  destruct x as [|x0 [|x1 [|x2 [|x3 [|x4 [|? ?]]]]]]; try done. cbn [encode]. set (e0 := Z.land c.1 255).
  rewrite (store_at _ a [x0; x1; x2; x3] _ (x4 :: rest)), bind_Ret by done.
  rewrite (store_at _ (a ++ [e0]) [Z.land (Z.shiftr c.1 8) 255; Z.land (Z.shiftr c.1 16) 255; Z.land (Z.shiftr c.1 24) 255; x4] _ rest), bind_Ret
    by (rewrite ?length_app, ?La, <- ?app_assoc; done).
  do 2 eexists. split; [reflexivity|]. unfold rest. rewrite <- !app_assoc. cbn [take app]. do 9 f_equal. unfold z. do 4 f_equal. lia.
Qed.

Lemma index_count (n : nat) : Z.to_nat (Z.land (Z.shiftr (count_of (Z.of_nat n)).1 3) 0x3f) = (n mod 64)%nat.
Proof.
  unfold count_of. cbn [fst]. change 0x3f with (Z.ones 6). rewrite Z.land_ones, Z.shiftr_div_pow2 by lia.
  unfold wrap. change (2 ^ 32) with 4294967296. change (2 ^ 3) with 8. change (2 ^ 6) with 64.
  rewrite <- (Nat2Z.id (n mod 64)), Nat2Z.inj_mod. f_equal. Z.div_mod_to_equations. lia.
Qed.

(** What the digest of a text is when its last block has room for the length:
    neither the bytes 14 to 18 of that block count, nor is the end of the
    buffer set. *)
Lemma digest_of_short garbage a x b q : length garbage = 64%nat ->
  (length a = 64 * q + 14)%nat -> length x = 5%nat -> (length b < 37)%nat ->
  let n := length (a ++ x ++ b) in
  digest_of garbage (a ++ x ++ b) = Ret (encode (regs_list (MD5Transform (Spec.blocks q init_regs a)
    (drop (64 * q) a ++ take 1 (encode [(count_of (Z.of_nat n)).1]) ++ encode [(count_of (Z.of_nat n)).2] ++ b
     ++ 0x80 :: replicate (36 - length b) 0
     ++ drop 56 (if (q =? 0)%nat then garbage else take 64 (drop (64 * (q - 1)) a)))))).
Proof.
  intros Hg Ha Hx Hb n. unfold digest_of. destruct (update_fresh garbage (a ++ x ++ b) Hg) as (rest & -> & Hrest). rewrite bind_Ret. fold n.
  assert (n = 64 * q + (19 + length b))%nat as Hn by (unfold n; rewrite !length_app; lia).
  destruct (div_mod_of q (19 + length b)) as [Eq Er]; [lia|]. fold n in Hrest. rewrite <- Hn in Eq, Er. rewrite Eq, Er in Hrest. rewrite Eq.
  rewrite drop_app_le by lia. set (a' := drop (64 * q) a). assert (length a' = 14%nat) as La by (unfold a'; rewrite length_drop; lia).
  assert (length rest = 64 - (19 + length b))%nat as Lr.
  { rewrite Hrest, length_drop. destruct (Nat.eqb_spec q 0); [lia|]. rewrite length_take, length_drop, !length_app. lia. }
  assert (length (a' ++ x ++ b) = 19 + length b)%nat as Lp by (rewrite !length_app; lia).
  destruct (final_block (a' ++ x ++ b) rest (Spec.blocks q init_regs (a ++ x ++ b)) (count_of (Z.of_nat n))) as (d & r & -> & ->);
    [lia|lia|rewrite index_count, Er; lia|]. rewrite bind_Ret. do 3 f_equal. rewrite blocks_prefix by lia. f_equal.
  rewrite take_app_le, take_ge by lia. do 3 f_equal.
  assert (drop 19 (a' ++ x ++ b) = b) as ->.
  { rewrite app_assoc, drop_app_ge by (rewrite length_app; lia). rewrite length_app, La, Hx. by rewrite drop_0. }
  do 2 f_equal. rewrite Lp. replace (55 - (19 + length b))%nat with (36 - length b)%nat by lia. f_equal.
  rewrite Hrest, drop_drop. replace (19 + length b + (56 - (19 + length b)))%nat with 56%nat by lia. f_equal.
  destruct (Nat.eqb_spec q 0); [done|]. rewrite drop_app_le, take_app_le; [done|rewrite length_drop; lia|lia].
Qed.

(** The digest is no MD5: the length overwrites the bytes 14 to 18 of the
    last block instead of following it. Two texts that differ only in those
    bytes, before the last 36, have the same digest. *)
Theorem digest_collides garbage a x y b q : length garbage = 64%nat ->
  (length a = 64 * q + 14)%nat -> length x = 5%nat -> length y = 5%nat -> (length b < 37)%nat ->
  exists d, digest_of garbage (a ++ x ++ b) = Ret d /\ digest_of garbage (a ++ y ++ b) = Ret d.
Proof.
  intros Hg Ha Hx Hy Hb. rewrite (digest_of_short garbage a x b q), (digest_of_short garbage a y b q) by done.
  rewrite !length_app, Hx, Hy. by eexists.
Qed.

Lemma digest_collides_witness :
  (length (replicate 64 0) = 64%nat /\ (length (seqZ 0 14) = 64 * 0 + 14)%nat /\ length [1; 2; 3; 4; 5] = 5%nat) /\
  exists d, digest_of (replicate 64 0) (seqZ 0 14 ++ [1; 2; 3; 4; 5] ++ [9; 9]) = Ret d
    /\ digest_of (replicate 64 0) (seqZ 0 14 ++ [5; 4; 3; 2; 1] ++ [9; 9]) = Ret d.
Proof.
  split; [split; [reflexivity|split; [reflexivity|reflexivity]]|].
  apply (digest_collides (replicate 64 0) (seqZ 0 14) [1; 2; 3; 4; 5] [5; 4; 3; 2; 1] [9; 9] 0); cbn; (reflexivity || lia).
Defined.

(** And it depends on what the context held before. *)
Example digest_of_garbage :
  digest_of (replicate 64 0) [0x61] <> digest_of (replicate 64 1) [0x61] /\ digest_of (replicate 64 0) [0x61] <> Ret (Spec.md5 [0x61]).
Proof. split; intros E; vm_compute in E; discriminate. Qed.

(** MD5Transform is the function of RFC 1321: its sixty-four unrolled
    operations, with the optimised forms of two of the functions, are the
    sixty-four steps of the standard. *)
Theorem MD5Transform_is_rfc st block : regs_ok st -> MD5Transform st block = Spec.compress st block.
Proof. apply MD5Transform_compress. Qed.

Lemma MD5Transform_is_rfc_witness : regs_ok init_regs /\ MD5Transform init_regs (seqZ 0 64) = Spec.compress init_regs (seqZ 0 64).
Proof. split; [apply init_ok|]. apply (MD5Transform_is_rfc init_regs (seqZ 0 64) init_ok). Defined.

Lemma MD5Update_absorbs_witness :
  let ctx := MD5Init (Context (0, 0, 0, 0) (0, 0) (replicate 64 7)) in
  ctx_absorbed ctx [] /\ exists ctx', MD5Update ctx [1; 2; 3] = Ret ctx' /\ ctx_absorbed ctx' ([] ++ [1; 2; 3]).
Proof.
  intros ctx. assert (ctx_absorbed ctx []) as H by (by apply ctx_absorbed_init). split; [exact H|]. apply (MD5Update_absorbs ctx [] [1; 2; 3] H).
Defined.
