(* ===== verification/CpuInfo.v ===== *)
(** The processors of the crashed process's machine:
    client/linux/minidump_writer/cpu_set.h and proc_cpuinfo_reader.h of
    libbreakpad.

    [CpuSet] reads a list of processors from sysfs into a mask of 1024 bits;
    [ProcCpuInfoReader] cuts the lines of /proc/cpuinfo into fields. A pointer
    into a buffer is its index. *)
From S2P Require Import Prelude LibcSupport LineReader.

(** * Sets of processors *)

Definition kMaxCpus : Z := 1024.
Definition kMaskWordBits : Z := 32.
Definition kMaskWordCount : nat := 32.

(** [mask_], 32 words of 32 bits. *)
Definition new_cpu_set : list Z := replicate kMaskWordCount 0.

Definition SetBit (mask : list Z) (index : Z) : list Z :=
  if index <? kMaxCpus
  then alter (fun m => u32 (Z.lor m (Z.shiftl 1 (index mod kMaskWordBits)))) (Z.to_nat (index / kMaskWordBits)) mask
  else mask.

(** [while (start <= end) SetBit(start++)], on words of [w] bits. *)
Fixpoint set_range (fuel : nat) (w : Z) (mask : list Z) (start end_ : Z) : res (list Z) :=
  match fuel with
  | O => Fault OutOfFuel
  | S fuel =>
      if start <=? end_ then set_range fuel w (SetBit mask start) (wrap w (start + 1)) end_ else Ret mask
  end.

(** [p] after the spaces in the [n] bytes from it. *)
Fixpoint skip_spaces (buffer : list Z) (n p : nat) : res nat :=
  match n with
  | O => Ret p
  | S n => c ← get_or_oob (buffer !! p); if my_isspace c then skip_spaces buffer n (S p) else Ret p
  end.

(** The end of the [n] bytes from [item], without the spaces before it. *)
Fixpoint trim_spaces (buffer : list Z) (item n : nat) : res nat :=
  match n with
  | O => Ret item
  | S n => c ← get_or_oob (buffer !! (item + n)%nat); if my_isspace c then trim_spaces buffer item n else Ret (item + S n)%nat
  end.

(** The loop over the items. *)
Fixpoint parse_items (fuel range_fuel : nat) (w : Z) (buffer : list Z) (p p_end : nat) (mask : list Z) : res (list Z) :=
  match fuel with
  | O => Fault OutOfFuel
  | S fuel =>
      if negb (p <? p_end)%nat then Ret mask
      else
        item ← skip_spaces buffer (p_end - p) p;
        comma ← my_memchr (drop item buffer) 0x2C (p_end - item);
        let '(p, item_next) :=
          match comma with Some i => ((item + i + 1)%nat, (item + i)%nat) | None => (p_end, p_end) end in
        item_next ← trim_spaces buffer item (item_next - item);
        if (item_next =? item)%nat then parse_items fuel range_fuel w buffer p p_end mask
        else
          '(start, next) ← my_read_decimal_ptr w (drop item buffer);
          c ← get_or_oob (next !! 0%nat);
          end_ ← (if c =? 0x2D then '(e, _) ← my_read_decimal_ptr w (drop 1 next); Ret e else Ret start);
          mask ← set_range range_fuel w mask start end_;
          parse_items fuel range_fuel w buffer p p_end mask
  end.

(** [data] is what sys_read gives of the file, at most 511 bytes, [None] when it
    fails; [buffer] the 512 bytes of the array before that. An iteration over
    the items moves on by a byte at least. *)
Definition ParseSysFile (range_fuel : nat) (w : Z) (buffer : list Z) (data : option (list Z)) (mask : list Z) : res (bool * list Z) :=
  match data with
  | None => Ret (false, mask)
  | Some d =>
      buffer ← store buffer 0 d;
      buffer ← store buffer (length d) [0];
      mask ← parse_items (S (length d)) range_fuel w buffer 0 (length d) mask;
      Ret (true, mask)
  end.

Definition IntersectWith (mask other : list Z) : list Z := zip_with Z.land mask other.

(** How many of the [n] numbers from [a] on satisfy [f]. *)
Definition cpu_count (f : Z -> bool) (a n : Z) : Z := foldr (fun i s => Z.b2z (f i) + s) 0 (seqZ a n).

(** [__builtin_popcount] of a word of 32 bits. *)
Definition popcount (x : Z) : Z := cpu_count (Z.testbit x) 0 32.

Definition GetCount (mask : list Z) : Z := fold_left (fun result m => result + popcount m) mask 0.

(** * Fields of /proc/cpuinfo *)

(** [pop_count_] is [None] for -1, [value_] an index into the line. *)
Record cpuinfo_reader := ProcCpuInfoReader {
  line_reader_ : line_reader;
  pop_count_ : option nat;
  value_ : nat;
  value_len_ : nat
}.

Definition new_cpuinfo_reader (r : line_reader) : cpuinfo_reader := ProcCpuInfoReader r None 0 0.

(** The line in the buffer of [p]: whether it has a field, whose name then ends
    in a zero. *)
Definition split_field (p : cpuinfo_reader) (line_len : nat) : res (bool * cpuinfo_reader) :=
  let r := line_reader_ p in
  sep ← my_memchr (buf_ r) 0x3A line_len;
  match sep with
  | None => Ret (false, ProcCpuInfoReader r (Some line_len) (value_ p) (value_len_ p))
  | Some sep =>
      val ← skip_spaces (buf_ r) (line_len - (sep + 1)) (sep + 1);
      name_end ← trim_spaces (buf_ r) 0 sep;
      if (name_end =? 0)%nat then Ret (false, ProcCpuInfoReader r (Some line_len) val (line_len - val))
      else
        Ret (true, ProcCpuInfoReader
                     (LineReader (hit_eof_ r) (buf_used_ r) (<[name_end := 0]> (buf_ r)) (file r) (reads r))
                     (Some line_len) val (line_len - val))
  end.

(** The name of the field is the buffer from its start. *)
Fixpoint GetNextField (fuel : nat) (p : cpuinfo_reader) : res (bool * cpuinfo_reader) :=
  match fuel with
  | O => Fault OutOfFuel
  | S fuel =>
      r ← match pop_count_ p with Some n => PopLine n (line_reader_ p) | None => Ret (line_reader_ p) end;
      '(o, r) ← GetNextLine r;
      match o with
      | None => Ret (false, ProcCpuInfoReader r None (value_ p) (value_len_ p))
      | Some line_len =>
          '(found, p) ← split_field (ProcCpuInfoReader r None (value_ p) (value_len_ p)) line_len;
          if found : bool then Ret (true, p) else GetNextField fuel p
      end
  end.

(** The memory from the start of the field, and from the start of the value. *)
Definition GetField (p : cpuinfo_reader) : list Z := buf_ (line_reader_ p).
Definition GetValue (p : cpuinfo_reader) : list Z := drop (value_ p) (buf_ (line_reader_ p)).
Definition GetValueAndLen (p : cpuinfo_reader) : list Z * nat := (GetValue p, value_len_ p).

(** [while (reader->GetNextField(&field)) body]. *)
Fixpoint each_field {S} (fuel : nat) (body : S -> cpuinfo_reader -> res S) (s : S) (p : cpuinfo_reader) : res S :=
  match fuel with
  | O => Fault OutOfFuel
  | Datatypes.S rest =>
      '(ok, p) ← GetNextField fuel p;
      if negb (ok : bool) then Ret s else s ← body s p; each_field rest body s p
  end.

(** * The bits of a mask *)

Definition mask_ok (mask : list Z) : Prop := length mask = kMaskWordCount /\ Forall (in_range 32) mask.

(** Whether processor [i] is in the set. *)
Definition has_cpu (mask : list Z) (i : Z) : bool :=
  match mask !! Z.to_nat (i / kMaskWordBits) with
  | Some m => (0 <=? i) && Z.testbit m (i mod kMaskWordBits)
  | None => false
  end.

Lemma new_cpu_set_ok : mask_ok new_cpu_set.
Proof. by apply (bool_decide_unpack _); vm_compute. Qed.

Lemma cpu_word i : 0 <= i < kMaxCpus -> (Z.to_nat (i / kMaskWordBits) < kMaskWordCount)%nat /\ 0 <= i mod kMaskWordBits < 32.
Proof.
  unfold kMaxCpus, kMaskWordBits, kMaskWordCount. intros Hi. pose proof (Z.mod_pos_bound i 32 ltac:(lia)).
  pose proof (Z.div_lt_upper_bound i 32 32 ltac:(lia) ltac:(lia)). pose proof (Z.div_pos i 32 ltac:(lia) ltac:(lia)). lia.
Qed.

Lemma has_new_cpu_set i : has_cpu new_cpu_set i = false.
Proof.
  unfold has_cpu, new_cpu_set. destruct (replicate _ 0 !! _) as [m|] eqn:E; [|done].
  apply lookup_replicate in E as [-> _]. by rewrite Z.testbit_0_l, andb_false_r.
Qed.

Lemma has_cpu_range mask i : mask_ok mask -> has_cpu mask i = true -> 0 <= i < kMaxCpus.
Proof.
  intros [Hl _]. unfold has_cpu. destruct (mask !! _) as [m|] eqn:E; [|done]. rewrite andb_true_iff, Z.leb_le. intros [Hi _].
  split; [done|]. apply lookup_lt_Some in E. rewrite Hl in E. unfold kMaskWordCount, kMaxCpus, kMaskWordBits in *.
  pose proof (Z.div_mod i 32 ltac:(lia)). pose proof (Z.mod_pos_bound i 32 ltac:(lia)). lia.
Qed.

Lemma SetBit_ok mask i : mask_ok mask -> 0 <= i -> mask_ok (SetBit mask i).
Proof.
  intros [Hl Hr] Hi. unfold SetBit. destruct (Z.ltb_spec i kMaxCpus) as [Hlt|]; [|done].
  split; [by rewrite length_alter|]. apply Forall_alter; [done|]. intros m _ _. apply wrap_range. lia.
Qed.

Lemma has_cpu_SetBit mask i j : mask_ok mask -> 0 <= i -> has_cpu (SetBit mask i) j = has_cpu mask j || ((i =? j) && (j <? kMaxCpus)).
Proof.
  intros [Hl Hr] Hi. unfold SetBit. destruct (Z.ltb_spec i kMaxCpus) as [Hlt|Hge].
  2:{ destruct (Z.eqb_spec i j) as [<-|]; [|by rewrite orb_false_r]. destruct (Z.ltb_spec i kMaxCpus); [lia|by rewrite orb_false_r]. }
  destruct (cpu_word i) as [Hw Hb]; [lia|]. unfold has_cpu.
  destruct (decide (Z.to_nat (i / kMaskWordBits) = Z.to_nat (j / kMaskWordBits))) as [Ew|Nw].
  - rewrite <- Ew. rewrite list_lookup_alter_eq. destruct (lookup_lt_is_Some_2 mask (Z.to_nat (i / kMaskWordBits))) as [m Em]; [lia|].
    rewrite Em. cbn [fmap option_fmap option_map]. assert (in_range 32 m) as Hm by (by eapply Forall_lookup_1).
    rewrite wrap_small by (apply in_range_lor; [lia|done|by apply in_range_bit]).
    destruct (Z.leb_spec 0 j) as [Hj|Hj]; [|destruct (Z.eqb_spec i j); [lia|done]].
    cbn [andb]. unfold kMaskWordBits in *. pose proof (Z.mod_pos_bound j 32 ltac:(lia)).
    rewrite Z.lor_spec, Z.shiftl_1_l, Z.pow2_bits_eqb by lia. f_equal.
    pose proof (Z.div_pos i 32 ltac:(lia) ltac:(lia)). pose proof (Z.div_pos j 32 ltac:(lia) ltac:(lia)).
    pose proof (Z.div_mod i 32 ltac:(lia)). pose proof (Z.div_mod j 32 ltac:(lia)).
    destruct (Z.eqb_spec (i mod 32) (j mod 32)), (Z.eqb_spec i j), (Z.ltb_spec j kMaxCpus); cbn; lia || done.
  - rewrite list_lookup_alter_ne by done. destruct (Z.eqb_spec i j) as [->|]; [done|]. by rewrite orb_false_r.
Qed.

(** Processors from [start] to [end_]. *)
Definition between (a b i : Z) : bool := (a <=? i) && (i <=? b).

Lemma set_range_spec w end_ : end_ + 1 < 2 ^ w -> forall fuel mask start, mask_ok mask -> 0 <= start -> Z.max 0 (end_ - start + 1) < Z.of_nat fuel ->
  exists mask', set_range fuel w mask start end_ = Ret mask' /\ mask_ok mask'
    /\ forall i, has_cpu mask' i = has_cpu mask i || (between start end_ i && (i <? kMaxCpus)).
Proof.
  intros Hw. induction fuel as [|fuel IH]; intros mask start Hm Hs Hf; cbn [set_range].
  - lia.
  - destruct (Z.leb_spec start end_) as [Hle|Hgt].
    + rewrite wrap_small by (split; lia). destruct (IH (SetBit mask start) (start + 1)) as (mask' & -> & Hm' & H); [by apply SetBit_ok|lia..|].
      exists mask'. split; [done|]. split; [done|]. intros i. rewrite H, has_cpu_SetBit by done. rewrite <- orb_assoc. f_equal.
      unfold between. destruct (Z.eqb_spec start i), (Z.leb_spec (start + 1) i), (Z.leb_spec i end_), (Z.leb_spec start i), (i <? kMaxCpus); cbn; lia || done.
    + exists mask. split; [done|]. split; [done|]. intros i. unfold between.
      destruct (Z.leb_spec start i), (Z.leb_spec i end_); cbn; rewrite ?orb_false_r; lia || done.
Qed.

(** A range that ends with the last word is never done. *)
Theorem set_range_endless w mask start : 0 < w -> forall fuel, in_range w start -> set_range fuel w mask start (2 ^ w - 1) = Fault OutOfFuel.
Proof.
  intros Hw fuel. revert mask start. induction fuel as [|fuel IH]; intros mask start [Hs1 Hs2]; [done|]. cbn [set_range].
  destruct (Z.leb_spec start (2 ^ w - 1)); [|lia]. apply IH, wrap_range. lia.
Qed.

(** * The text of a list of processors *)

Definition decimal (i : Z) : list Z := digits (my_uint_len i) i.

(** A processor, or the first and the last of a range. *)
Definition item_text (it : Z * Z) : list Z := decimal it.1 ++ (if it.1 =? it.2 then [] else 0x2D :: decimal it.2).

(** The items, with commas between them and a newline at the end. *)
Fixpoint cpu_text (items : list (Z * Z)) : list Z :=
  match items with
  | [] => [0x0A]
  | [it] => item_text it ++ [0x0A]
  | it :: items => item_text it ++ 0x2C :: cpu_text items
  end.

Definition item_ok (w : Z) (range_fuel : nat) (it : Z * Z) : Prop :=
  0 <= it.1 <= it.2 /\ it.2 + 1 < 2 ^ w /\ it.2 < 2 ^ 64 /\ it.2 - it.1 + 1 < Z.of_nat range_fuel.

Definition in_items (items : list (Z * Z)) (i : Z) : bool := existsb (fun it => between it.1 it.2 i) items.

Lemma read_decimal w i t : 0 <= i < 2 ^ w -> i < 2 ^ 64 -> starts_no_digit t -> my_read_decimal_ptr w (decimal i ++ t) = Ret (i, t).
Proof.
  intros Hi H64 Ht. destruct (my_uint_len_spec i) as (_ & Hlt & _); [lia|]. unfold my_read_decimal_ptr, decimal.
  rewrite <- (wrap_small w 0) at 1 by (split; lia). rewrite read_decimal_digits, read_decimal_stop by done.
  rewrite Z.mul_0_l, Z.add_0_l, Z.mod_small by lia. by rewrite wrap_small.
Qed.

(** A character of an item. *)
Definition item_char (c : Z) : Prop := is_digit c = true \/ c = 0x2D.

Lemma digits_chars n : forall i, Forall item_char (digits n i).
Proof. induction n as [|n IH]; intros i; cbn; [constructor|]. apply Forall_app; split; [done|]. constructor; [|done]. left. apply digit_ok. Qed.

Lemma item_chars it : Forall item_char (item_text it).
Proof.
  unfold item_text, decimal. apply Forall_app; split; [apply digits_chars|]. destruct (it.1 =? it.2); [done|].
  constructor; [by right|apply digits_chars].
Qed.

Lemma item_char_spec c : item_char c -> my_isspace c = false /\ c <> 0x2C.
Proof.
  intros Hc. assert (0x2D <= c <= 0x39).
  { destruct Hc as [Hd| ->]; [|lia]. unfold is_digit in Hd. rewrite andb_true_iff, !Z.leb_le in Hd. lia. }
  split; [|lia]. unfold my_isspace, spaces. cbn [existsb].
  repeat match goal with |- context [c =? ?x] => destruct (Z.eqb_spec c x); [lia|] end. done.
Qed.

Lemma item_nonempty it : 0 <= it.1 < 2 ^ 64 -> exists c t c', item_text it = c :: t /\ last (item_text it) = Some c'.
Proof.
  intros Hi. destruct (my_uint_len_spec it.1 Hi) as (Hp & _). assert (0 < length (item_text it))%nat.
  { unfold item_text, decimal. rewrite length_app, length_digits. lia. }
  destruct (item_text it) as [|c t] eqn:E; [cbn in *; lia|]. destruct (last (c :: t)) as [c'|] eqn:E'; [by eauto|].
  by apply last_None in E'.
Qed.

Lemma memchr_found s c t n : Forall (fun x => x <> c) s -> (length s < n)%nat -> my_memchr (s ++ c :: t) c n = Ret (Some (length s)).
Proof.
  intros Hs. revert n. induction Hs as [|x s Hx _ IH]; intros [|n] Hn; cbn in Hn; try lia; cbn [app my_memchr].
  - by rewrite Z.eqb_refl.
  - destruct (Z.eqb_spec x c); [done|]. by rewrite IH by lia.
Qed.

Lemma memchr_none s c t : Forall (fun x => x <> c) s -> my_memchr (s ++ t) c (length s) = Ret None.
Proof.
  intros Hs. induction Hs as [|x s Hx _ IH]; [by destruct t|]. cbn [app my_memchr length]. destruct (Z.eqb_spec x c); [done|]. by rewrite IH.
Qed.

Lemma skip_spaces_none buffer n p c : buffer !! p = Some c -> my_isspace c = false -> skip_spaces buffer n p = Ret p.
Proof. intros Hp Hc. destruct n as [|n]; [done|]. cbn [skip_spaces]. rewrite Hp. cbn [get_or_oob]. by rewrite bind_Ret, Hc. Qed.

Lemma trim_spaces_stop buffer item n c : buffer !! (item + n)%nat = Some c ->
  trim_spaces buffer item (S n) = if my_isspace c then trim_spaces buffer item n else Ret (item + S n)%nat.
Proof. intros H. cbn [trim_spaces]. rewrite H. cbn [get_or_oob]. by rewrite bind_Ret. Qed.

Lemma trim_item buffer pre s c t : buffer = pre ++ s ++ t -> last s = Some c -> my_isspace c = false ->
  trim_spaces buffer (length pre) (length s) = Ret (length pre + length s)%nat.
Proof.
  intros -> Hl Hc. apply last_Some in Hl as [s' ->]. rewrite length_app. cbn [length]. rewrite Nat.add_1_r.
  rewrite (trim_spaces_stop _ _ _ c); [by rewrite Hc|]. rewrite <- app_assoc, app_assoc. apply list_lookup_middle. by rewrite length_app.
Qed.

(** The first and the last processor of an item. *)
Lemma read_item w range_fuel it sep t : item_ok w range_fuel it -> sep = 0x2C \/ sep = 0x0A ->
  exists next, my_read_decimal_ptr w (item_text it ++ sep :: t) = Ret (it.1, next) /\ exists c, next !! 0%nat = Some c
    /\ (if c =? 0x2D then '(e, _) ← my_read_decimal_ptr w (drop 1 next); Ret e else Ret it.1) = Ret it.2.
Proof.
  intros (H1 & H2 & H3 & _) Hsep. assert (starts_no_digit (sep :: t)) as Hstop by (by exists sep, t; destruct Hsep as [-> | ->]).
  unfold item_text. rewrite <- app_assoc. destruct (Z.eqb_spec it.1 it.2) as [E|_].
  - exists (sep :: t). rewrite read_decimal by (done || lia). split; [done|]. exists sep. split; [done|].
    destruct Hsep as [-> | ->]; cbn; by rewrite E.
  - exists (0x2D :: decimal it.2 ++ sep :: t). rewrite read_decimal; [|lia|lia|by eexists _, _]. split; [done|]. exists 0x2D. split; [done|].
    cbn [Z.eqb Pos.eqb drop]. rewrite drop_0, read_decimal by (done || lia). done.
Qed.

(** One step over an item, at the place of the item. *)
Lemma parse_item w range_fuel buffer pre it sep t fuel p_end mask : item_ok w range_fuel it -> mask_ok mask ->
  buffer = pre ++ item_text it ++ sep :: t ->
  sep = 0x2C /\ (length pre + length (item_text it) < p_end)%nat \/ sep = 0x0A /\ p_end = (length pre + length (item_text it) + 1)%nat ->
  exists mask', parse_items (S fuel) range_fuel w buffer (length pre) p_end mask
    = parse_items fuel range_fuel w buffer (length pre + length (item_text it) + 1) p_end mask'
    /\ mask_ok mask' /\ forall i, has_cpu mask' i = has_cpu mask i || (between it.1 it.2 i && (i <? kMaxCpus)).
Proof.
  intros Hok Hm Hb Hsep. pose proof Hok as (H1 & H2 & H3 & H4). destruct (item_nonempty it) as (c & s & c' & Es & El); [lia|].
  pose proof (item_chars it) as Hch. assert (item_char c /\ item_char c') as [Hc Hc'].
  { split; [rewrite Es in Hch; by inversion Hch|]. rewrite Forall_forall in Hch. apply Hch. by apply last_Some_elem_of. }
  destruct (item_char_spec c Hc) as [Hcs _]. destruct (item_char_spec c' Hc') as [Hcs' _].
  assert (Forall (fun x => x <> 0x2C) (item_text it)) as Hnc by (eapply Forall_impl; [exact Hch|]; intros x Hx; by apply item_char_spec).
  assert (0 < length (item_text it))%nat as Hpos by (rewrite Es; cbn; lia).
  destruct (set_range_spec w it.2 ltac:(lia) range_fuel mask it.1 Hm) as (mask' & Er & Hm' & Hbits); [lia|lia|].
  destruct (read_item w range_fuel it sep t Hok ltac:(tauto)) as (next & Ed & c0 & Hn & Ee).
  exists mask'. split; [|done]. cbn [parse_items]. destruct (Nat.ltb_spec (length pre) p_end); [|lia]. cbn [negb].
  rewrite (skip_spaces_none _ _ _ c), bind_Ret by (done || (rewrite Hb, Es; by apply list_lookup_middle)).
  assert (drop (length pre) buffer = item_text it ++ sep :: t) as -> by (rewrite Hb; apply drop_app_length).
  assert (exists comma, my_memchr (item_text it ++ sep :: t) 0x2C (p_end - length pre) = Ret comma
    /\ (let '(p, item_next) := match comma with Some i => ((length pre + i + 1)%nat, (length pre + i)%nat) | None => (p_end, p_end) end in
        p = (length pre + length (item_text it) + 1)%nat
        /\ trim_spaces buffer (length pre) (item_next - length pre) = Ret (length pre + length (item_text it))%nat)) as (comma & -> & Hnext).
  { destruct Hsep as [[-> Hp] | [-> Hp]].
    - rewrite memchr_found by (done || lia). eexists. split; [done|]. split; [done|]. rewrite Nat.add_comm, Nat.add_sub.
      rewrite (trim_item buffer pre (item_text it) c' (0x2C :: t)) by done. f_equal. lia.
    - exists None. assert (p_end - length pre = length (item_text it ++ [0x0A%Z]))%nat as E by (rewrite length_app; cbn; lia).
      split; [|split; [done|]].
      + rewrite E. change (0x0A :: t) with ([0x0A] ++ t). rewrite app_assoc. apply memchr_none. apply Forall_app; split; [done|by repeat constructor].
      + rewrite E, length_app. cbn [length]. rewrite Nat.add_1_r. rewrite (trim_spaces_stop _ _ _ 0x0A).
        * by rewrite (trim_item buffer pre (item_text it) c' (0x0A :: t)).
        * rewrite Hb, app_assoc. apply list_lookup_middle. by rewrite length_app. }
  rewrite bind_Ret. destruct (match comma with Some _ => _ | None => _ end) as [p item_next]. destruct Hnext as [-> Ht].
  rewrite Ht, bind_Ret. destruct (Nat.eqb_spec (length pre + length (item_text it)) (length pre)); [lia|].
  rewrite Ed, bind_Ret. cbn beta iota. rewrite Hn. cbn [get_or_oob]. by rewrite bind_Ret, Ee, bind_Ret, Er, bind_Ret.
Qed.

Lemma parse_items_spec w range_fuel items : items <> [] -> forall fuel pre mask junk, Forall (item_ok w range_fuel) items -> mask_ok mask ->
  (length items < fuel)%nat ->
  exists mask', parse_items fuel range_fuel w (pre ++ cpu_text items ++ junk) (length pre) (length pre + length (cpu_text items)) mask = Ret mask'
    /\ mask_ok mask' /\ forall i, has_cpu mask' i = has_cpu mask i || (in_items items i && (i <? kMaxCpus)).
Proof.
  induction items as [|it items IH]; [done|]. intros _ fuel pre mask junk Hok Hm Hf. inversion_clear Hok as [|? ? Hit Hits].
  destruct fuel as [|fuel]; [cbn in Hf; lia|]. destruct items as [|it' items].
  - cbn [cpu_text]. rewrite <- app_assoc. cbn [app].
    destruct (parse_item w range_fuel (pre ++ item_text it ++ 0x0A :: junk) pre it 0x0A junk fuel
      (length pre + length (item_text it ++ [0x0A])) mask Hit Hm) as (mask' & -> & Hm' & H); [done|right; split; [done|rewrite length_app; cbn [length]; lia]|].
    exists mask'. split; [|split; [done|intros i; rewrite H; cbn; by rewrite orb_false_r]].
    destruct fuel as [|fuel]; [cbn in Hf; lia|]. cbn [parse_items]. rewrite length_app. cbn [length].
    by rewrite Nat.add_assoc, Nat.ltb_irrefl.
  - change (cpu_text (it :: it' :: items)) with (item_text it ++ 0x2C :: cpu_text (it' :: items)). rewrite <- app_assoc. cbn [app].
    destruct (parse_item w range_fuel (pre ++ item_text it ++ 0x2C :: cpu_text (it' :: items) ++ junk) pre it 0x2C (cpu_text (it' :: items) ++ junk) fuel
      (length pre + length (item_text it ++ 0x2C :: cpu_text (it' :: items))) mask Hit Hm) as (mask' & -> & Hm' & H);
      [done|left; split; [done|rewrite length_app; cbn [length]; lia]|].
    destruct (IH ltac:(done) fuel (pre ++ item_text it ++ [0x2C]) mask' junk Hits Hm') as (mask2 & E2 & Hm2 & H2); [cbn in *; lia|].
    exists mask2. split; [|split; [done|]].
    + rewrite <- E2, <- !app_assoc. rewrite !length_app. cbn [app length]. f_equal; lia.
    + intros i. rewrite H2, H. change (in_items (it :: it' :: items) i) with (between it.1 it.2 i || in_items (it' :: items) i).
      destruct (has_cpu mask i), (between it.1 it.2 i), (in_items (it' :: items) i), (i <? kMaxCpus); done.
Qed.

Lemma cpu_text_length items : items <> [] -> (length items <= length (cpu_text items))%nat.
Proof.
  induction items as [|it [|it' items] IH]; [done|intros _; cbn [cpu_text]; rewrite length_app; cbn; lia|intros _].
  change (cpu_text (it :: it' :: items)) with (item_text it ++ 0x2C :: cpu_text (it' :: items)). rewrite length_app.
  specialize (IH ltac:(done)). cbn [length] in *. lia.
Qed.

(** The list of processors that the kernel prints is read back: the mask gets
    the processors of the list below 1024, and keeps those it had. *)
Theorem ParseSysFile_spec w range_fuel buffer items mask : items <> [] -> Forall (item_ok w range_fuel) items -> mask_ok mask ->
  length buffer = 512%nat -> (length (cpu_text items) <= 511)%nat ->
  exists mask', ParseSysFile range_fuel w buffer (Some (cpu_text items)) mask = Ret (true, mask')
    /\ mask_ok mask' /\ forall i, has_cpu mask' i = has_cpu mask i || (in_items items i && (i <? kMaxCpus)).
Proof.
  intros Hne Hok Hm Hb Hl. unfold ParseSysFile. rewrite store_in_bounds, bind_Ret by lia. cbn [Nat.add]. rewrite take_0, app_nil_l.
  rewrite store_in_bounds, bind_Ret by (rewrite length_app, length_drop; cbn [length]; lia). rewrite take_app_length.
  pose proof (cpu_text_length items Hne).
  destruct (parse_items_spec w range_fuel items Hne (S (length (cpu_text items))) []
    mask ([0] ++ drop (length (cpu_text items) + length [0]) (cpu_text items ++ drop (length (cpu_text items)) buffer)) Hok Hm)
    as (mask' & E & Hm' & H'); [lia|].
  cbn [app length Nat.add] in E |- *. rewrite E, bind_Ret. eauto.
Qed.

Lemma IntersectWith_ok a b : mask_ok a -> mask_ok b -> mask_ok (IntersectWith a b) /\ forall i, has_cpu (IntersectWith a b) i = has_cpu a i && has_cpu b i.
Proof.
  intros [Ha Ra] [Hb Rb]. split; [split|].
  - unfold IntersectWith. rewrite length_zip_with. lia.
  - apply Forall_lookup_2. intros i x Hx. apply lookup_zip_with_Some in Hx as (y & z & -> & Hy & Hz).
    apply in_range_land; [lia|exact (Forall_lookup_1 _ _ _ _ Ra Hy)|apply (Forall_lookup_1 _ _ _ _ Rb Hz)].
  - intros i. unfold has_cpu, IntersectWith. destruct (zip_with Z.land a b !! _) as [x|] eqn:E.
    + apply lookup_zip_with_Some in E as (y & z & -> & -> & ->). rewrite Z.land_spec.
      by destruct (0 <=? i), (Z.testbit y _), (Z.testbit z _).
    + destruct (a !! _) as [x|] eqn:Ea; [|done]. destruct (b !! _) as [y|] eqn:Eb; [|by rewrite andb_false_r].
      exfalso. assert (zip_with Z.land a b !! Z.to_nat (i / kMaskWordBits) = Some (Z.land x y)) by (apply lookup_zip_with_Some; eauto). congruence.
Qed.

Lemma cpu_count_add f a n m : 0 <= n -> 0 <= m -> cpu_count f a (n + m) = cpu_count f a n + cpu_count f (a + n) m.
Proof.
  intros Hn Hm. unfold cpu_count. rewrite seqZ_app by done. induction (seqZ a n) as [|i l IH]; cbn [app foldr]; [done|]. rewrite IH. lia.
Qed.

Lemma cpu_count_ext f g a n : (forall i, a <= i < a + n -> f i = g i) -> cpu_count f a n = cpu_count g a n.
Proof.
  intros H. unfold cpu_count. assert (Forall (fun i => f i = g i) (seqZ a n)) as HF.
  { apply Forall_forall. intros i Hi%elem_of_seqZ. apply H. lia. }
  induction HF as [|i l Hi _ IH]; [done|]. cbn [foldr]. by rewrite Hi, IH.
Qed.

Lemma cpu_count_shift f a b n : cpu_count f (a + b) n = cpu_count (fun i => f (i + b)) a n.
Proof.
  unfold cpu_count. rewrite (Z.add_comm a b), <- fmap_add_seqZ.
  induction (seqZ a n) as [|x l IH]; [done|]. cbn [fmap list_fmap foldr]. by rewrite IH, (Z.add_comm b x).
Qed.

Lemma fold_sum {A} (f : A -> Z) l : forall r, fold_left (fun r x => r + f x) l r = r + fold_left (fun r x => r + f x) l 0.
Proof. induction l as [|x l IH]; intros r; cbn [fold_left]; [lia|]. rewrite IH, (IH (0 + f x)). lia. Qed.

Lemma GetCount_cons m mask : GetCount (m :: mask) = popcount m + GetCount mask.
Proof. unfold GetCount. cbn [fold_left]. by rewrite (fold_sum popcount mask (0 + popcount m)), Z.add_0_l. Qed.

(** GetCount counts the processors of the set. *)
Theorem GetCount_spec mask : length mask = kMaskWordCount -> GetCount mask = cpu_count (has_cpu mask) 0 kMaxCpus.
Proof.
  intros Hl. assert (forall m (mask : list Z), cpu_count (has_cpu (m :: mask)) 0 (32 * Z.of_nat (S (length mask)))
    = popcount m + cpu_count (has_cpu mask) 0 (32 * Z.of_nat (length mask))) as Hcons.
  { intros m ms. replace (32 * Z.of_nat (S (length ms))) with (32 + 32 * Z.of_nat (length ms)) by lia.
    rewrite cpu_count_add by lia. apply (f_equal2 Z.add).
    - apply cpu_count_ext. intros i Hi. unfold has_cpu, kMaskWordBits. rewrite Z.div_small, Z.mod_small by lia. cbn. destruct (Z.leb_spec 0 i); [done|lia].
    - rewrite cpu_count_shift. apply cpu_count_ext. intros i Hi. unfold has_cpu, kMaskWordBits.
      replace (i + 32) with (i + 1 * 32) by lia. rewrite Z.div_add, Z_mod_plus_full by lia.
      rewrite Z2Nat.inj_add, Nat.add_comm by (lia || apply Z.div_pos; lia). cbn [lookup Z.to_nat Pos.to_nat Pos.iter_op Nat.add].
      destruct (Z.leb_spec 0 i), (Z.leb_spec 0 (i + 1 * 32)); lia || done. }
  assert (forall ms : list Z, GetCount ms = cpu_count (has_cpu ms) 0 (32 * Z.of_nat (length ms))) as H.
  { induction ms as [|m ms IH]; [done|]. cbn [length]. by rewrite Hcons, <- IH, GetCount_cons. }
  by rewrite H, Hl.
Qed.

(** * The fields of a text *)

Fixpoint drop_spaces (l : list Z) : list Z :=
  match l with
  | [] => []
  | c :: t => if my_isspace c then drop_spaces t else l
  end.

(** What stands before the first colon, and after it. *)
Fixpoint at_colon (line : list Z) : option (list Z * list Z) :=
  match line with
  | [] => None
  | c :: t => if c =? 0x3A then Some ([], t) else option_map (fun '(a, b) => (c :: a, b)) (at_colon t)
  end.

(** The name and the value of the field in a line. *)
Definition field_of (line : list Z) : option (list Z * list Z) :=
  match at_colon line with
  | None => None
  | Some (name, value) =>
      match rev (drop_spaces (rev name)) with
      | [] => None
      | name => Some (name, drop_spaces value)
      end
  end.

(** The first of the lines with a field, and the lines after it. *)
Fixpoint first_field (ls : list (list Z)) : option (list Z * list Z * list (list Z)) :=
  match ls with
  | [] => None
  | l :: ls => match field_of l with Some f => Some (f, ls) | None => first_field ls end
  end.

Lemma at_colon_app line : match at_colon line with Some (a, b) => line = a ++ 0x3A :: b /\ Forall (fun x => x <> 0x3A) a | None => Forall (fun x => x <> 0x3A) line end.
Proof.
  induction line as [|c t IH]; [constructor|]. cbn [at_colon]. destruct (Z.eqb_spec c 0x3A) as [->|Hc]; [by split|].
  destruct (at_colon t) as [[a b]|]; cbn [option_map]; [|by constructor]. destruct IH as [-> H]. split; [done|by constructor].
Qed.

Lemma drop_spaces_app l : exists k, l = k ++ drop_spaces l /\ Forall (fun c => my_isspace c = true) k.
Proof.
  induction l as [|c t (k & E & H)]; [by exists []|]. cbn [drop_spaces]. destruct (my_isspace c) eqn:Hc; [|by exists []].
  exists (c :: k). split; [cbn; by rewrite <- E|by constructor].
Qed.

Lemma drop_spaces_head l : match drop_spaces l with [] => True | c :: _ => my_isspace c = false end.
Proof. induction l as [|c t IH]; [done|]. cbn [drop_spaces]. by destruct (my_isspace c) eqn:Hc. Qed.

Lemma skip_spaces_spec v : forall pre rest, skip_spaces (pre ++ v ++ rest) (length v) (length pre)
  = Ret (length pre + (length v - length (drop_spaces v)))%nat.
Proof.
  induction v as [|c v IH]; intros pre rest; [cbn; f_equal; lia|]. cbn [length skip_spaces app]. rewrite list_lookup_middle by done.
  cbn [get_or_oob drop_spaces]. rewrite bind_Ret. destruct (drop_spaces_app v) as (k & E & _). apply (f_equal length) in E. rewrite length_app in E.
  destruct (my_isspace c); [|cbn; f_equal; lia]. specialize (IH (pre ++ [c]) rest). rewrite <- app_assoc in IH. cbn [app] in IH.
  rewrite length_app in IH. cbn [length] in IH. rewrite Nat.add_1_r in IH. rewrite IH. f_equal. lia.
Qed.

Lemma trim_spaces_spec v : forall pre rest, trim_spaces (pre ++ rev v ++ rest) (length pre) (length v)
  = Ret (length pre + length (drop_spaces v))%nat.
Proof.
  induction v as [|c v IH]; intros pre rest; [cbn; f_equal; lia|]. cbn [length rev drop_spaces]. rewrite <- app_assoc. cbn [app].
  rewrite (trim_spaces_stop _ _ _ c) by (rewrite app_assoc; apply list_lookup_middle; by rewrite length_app, length_rev).
  destruct (my_isspace c); [apply IH|done].
Qed.

(** Changing what is popped changes nothing that is left. *)
Lemma PopLine_insert r r' n k x : PopLine n r = Ret r' -> wf r' -> (k <= n)%nat ->
  exists r2, PopLine n (LineReader (hit_eof_ r) (buf_used_ r) (<[k := x]> (buf_ r)) (file r) (reads r)) = Ret r2
    /\ wf r2 /\ pending r2 = pending r'.
Proof.
  unfold PopLine. cbn [hit_eof_ buf_used_ buf_ file reads]. intros E Hwf Hk. destruct (buf_used_ r <? n + 1)%nat; [done|].
  apply bind_Ret_inv in E as (data & Hd & E). apply bind_Ret_inv in E as (buf & Hb & [= <-]).
  set (used := (buf_used_ r - (n + 1))%nat) in *.
  assert (load (<[k := x]> (buf_ r)) (n + 1) used = Ret data) as Hd'.
  { unfold load in *. rewrite length_insert. case_decide; [|done]. by rewrite drop_insert_lt by lia. }
  rewrite Hd', bind_Ret. assert (length data = used) as Hl.
  { unfold load in Hd. case_decide; [|done]. injection Hd as <-. rewrite length_take, length_drop. lia. }
  unfold store in *. rewrite length_insert. case_decide; [|done]. injection Hb as <-. rewrite bind_Ret. eexists. split; [done|].
  destruct Hwf as (H1 & H2 & H3 & H4). cbn [hit_eof_ buf_used_ buf_ file reads] in *. unfold wf, pending. cbn [hit_eof_ buf_used_ buf_ file reads].
  cbn [take app Nat.add] in *. split; [split; [|done]|].
  - rewrite <- H1. rewrite !length_app, !length_drop, length_insert. done.
  - by rewrite <- Hl, take_0, app_nil_l, !take_app_length.
Qed.

(** The reader stands before the lines [ls]. *)
Definition ready (p : cpuinfo_reader) (ls : list (list Z)) : Prop :=
  exists r, match pop_count_ p with Some n => PopLine n (line_reader_ p) | None => Ret (line_reader_ p) end = Ret r
    /\ wf r /\ lines (pending r) = ls.

(** The reader holds a field: its name and its value in memory, each with a
    zero after it. *)
Definition holds (p : cpuinfo_reader) (f : list Z * list Z) : Prop :=
  (exists rest, GetField p = f.1 ++ 0 :: rest) /\ (exists rest, GetValue p = f.2 ++ 0 :: rest) /\ value_len_ p = length f.2.

Lemma rev_drop_spaces name : exists k, name = rev (drop_spaces (rev name)) ++ k.
Proof.
  destruct (drop_spaces_app (rev name)) as (k & E & _). exists (rev k). rewrite <- rev_app_distr, <- E. by rewrite rev_involutive.
Qed.

Lemma split_field_spec r line rest v vl r' :
  buf_ r = line ++ 0 :: rest -> PopLine (length line) r = Ret r' -> wf r' ->
  exists found p, split_field (ProcCpuInfoReader r None v vl) (length line) = Ret (found, p)
    /\ ready p (lines (pending r'))
    /\ match field_of line with Some f => found = true /\ holds p f | None => found = false end.
Proof.
  intros Hb Hpop Hwf. unfold split_field, field_of. cbn [line_reader_ value_ value_len_]. rewrite Hb. pose proof (at_colon_app line) as Hc.
  destruct (at_colon line) as [[name value]|].
  2:{ rewrite memchr_none, bind_Ret by done. eexists _, _. split; [done|]. split; [|done]. exists r'. done. }
  destruct Hc as [-> Hname]. rewrite <- app_assoc. cbn [app]. rewrite memchr_found, bind_Ret by (done || (rewrite length_app; cbn; lia)).
  pose proof (skip_spaces_spec value (name ++ [0x3A]) (0 :: rest)) as Hskip. rewrite length_app in Hskip. cbn [length] in Hskip.
  rewrite <- app_assoc in Hskip. cbn [app] in Hskip.
  pose proof (trim_spaces_spec (rev name) [] (0x3A :: value ++ 0 :: rest)) as Htrim. rewrite rev_involutive, length_rev in Htrim. cbn [app length Nat.add] in Htrim.
  replace (length (name ++ 0x3A%Z :: value) - (length name + 1))%nat with (length value) by (rewrite length_app; cbn; lia).
  rewrite Hskip, bind_Ret, Htrim, bind_Ret. destruct (drop_spaces_app value) as (kv & Ev & _).
  pose proof (f_equal length Ev) as Hvl. rewrite length_app in Hvl. destruct (rev_drop_spaces name) as (kn & En).
  pose proof (f_equal length En) as Hnl. rewrite length_app, length_rev in Hnl.
  destruct (Nat.eqb_spec (length (drop_spaces (rev name))) 0) as [Ez|Nz].
  - destruct (drop_spaces (rev name)); [|done]. cbn [rev]. eexists _, _. split; [done|]. split; [|done]. exists r'. done.
  - set (nm := rev (drop_spaces (rev name))) in *. assert (length nm = length (drop_spaces (rev name))) as El by apply length_rev.
    destruct (PopLine_insert r r' (length (name ++ 0x3A%Z :: value)) (length (drop_spaces (rev name))) 0 Hpop Hwf) as (r2 & E2 & Hwf2 & Hp2);
      [rewrite length_app; lia|].
    eexists _, _. split; [done|]. rewrite Hb, <- app_assoc in E2. cbn [app] in E2.
    split; [exists r2; cbn [pop_count_ line_reader_]; by rewrite Hp2|].
    clearbody nm. destruct nm as [|c0 nm0]; [cbn in El; lia|]. set (nm := c0 :: nm0) in *.
    split; [done|]. unfold holds, GetField, GetValue. cbn [line_reader_ buf_ value_ value_len_ fst snd].
    assert (<[length (drop_spaces (rev name)) := 0]> (name ++ 0x3A :: value ++ 0 :: rest) = nm ++ 0 :: drop 1 (kn ++ 0x3A :: value ++ 0 :: rest)) as Eb.
    { rewrite <- El. rewrite En at 1. rewrite <- app_assoc. rewrite insert_app_r_alt, Nat.sub_diag by lia. by destruct kn. }
    split; [by eexists|]. split; [|rewrite length_app; cbn [length]; lia]. exists rest.
    rewrite drop_insert_lt by lia. replace (length name + 1 + (length value - length (drop_spaces value)))%nat with (length (name ++ 0x3A%Z :: kv)) by (rewrite length_app; cbn; lia).
    rewrite Ev at 1. rewrite <- app_assoc.
    assert (forall t, name ++ 0x3A :: kv ++ t = (name ++ 0x3A :: kv) ++ t) as -> by (intros; by rewrite <- app_assoc). apply drop_app_length.
Qed.

Lemma GetNextField_spec ls : forall fuel p, ready p ls -> Forall (fun line => length line < kMaxLineLen)%nat ls -> (length ls < fuel)%nat ->
  exists ok p', GetNextField fuel p = Ret (ok, p')
    /\ match first_field ls with
       | None => ok = false
       | Some (f, rest) => ok = true /\ holds p' f /\ ready p' rest /\ (length rest < length ls)%nat
       end.
Proof.
  induction ls as [|line ls IH]; intros fuel p (r & Hr & Hwf & Hls) Hfit Hfuel; (destruct fuel as [|fuel]; [cbn in Hfuel; lia|]); cbn [GetNextField];
    rewrite Hr, bind_Ret; destruct (get_next_line_gives (kMaxLineLen + 2) r Hwf) as (o & r1 & E & Hg).
  1, 4: by unfold fits; rewrite Hls.
  1, 3: by destruct (hit_eof_ r); lens.
  all: unfold GetNextLine; rewrite E, bind_Ret; unfold gives in Hg; rewrite Hls in Hg; cbn beta iota.
  - subst o. eexists _, _. split; [done|]. done.
  - destruct Hg as (-> & Hlen & Hline & Hz & r2 & Hpop & Hwf2 & Hrest). inversion_clear Hfit as [|? ? Hl Hfit'].
    assert (buf_ r1 = line ++ 0 :: drop (S (length line)) (buf_ r1)) as Eb.
    { rewrite <- Hline at 1. rewrite <- (take_drop (length line) (buf_ r1)) at 1. f_equal. by apply drop_S. }
    destruct (split_field_spec r1 line _ (value_ p) (value_len_ p) r2 Eb Hpop Hwf2) as (found & p1 & -> & Hready & Hf). rewrite bind_Ret. cbn beta iota.
    rewrite Hrest in Hready. cbn [first_field]. destruct (field_of line) as [f|].
    + destruct Hf as [-> Hh]. eexists _, _. split; [done|]. split; [done|]. split; [done|]. split; [done|cbn; lia].
    + rewrite Hf. destruct (IH fuel p1 Hready Hfit') as (ok & p' & E' & H'); [cbn in Hfuel; lia|]. exists ok, p'. split; [done|].
      destruct (first_field ls) as [[f rest]|]; [|done]. destruct H' as (H1 & H2 & H3 & H4). do 3 (split; [done|]). cbn. lia.
Qed.

(** Characters of a line and of a field are no zeros. *)
Lemma lines_no_eol text : forall line, Forall (fun c => is_eol c = false) line -> Forall (Forall (fun c => is_eol c = false)) (lines_from line text).
Proof.
  induction text as [|c t IH]; intros line Hl; cbn [lines_from].
  { destruct line; [constructor|by constructor]. }
  destruct (is_eol c) eqn:E; [constructor; [done|by apply IH]|]. apply IH, Forall_app. split; [done|by constructor].
Qed.

Lemma field_of_nonzero line f : field_of line = Some f -> Forall (fun c => is_eol c = false) line -> nonzero f.1 /\ nonzero f.2.
Proof.
  unfold field_of. intros E Hl. pose proof (at_colon_app line) as Hc. destruct (at_colon line) as [[name value]|]; [|done]. destruct Hc as [-> _].
  apply Forall_app in Hl as [Hn Hv]. inversion_clear Hv as [|? ? _ Hv'].
  destruct (rev_drop_spaces name) as (kn & En). destruct (drop_spaces_app value) as (kv & Ev & _).
  assert (f = (rev (drop_spaces (rev name)), drop_spaces value)) as -> by (by destruct (rev (drop_spaces (rev name))); [|injection E as <-]).
  rewrite En in Hn. rewrite Ev in Hv'. apply Forall_app in Hn as [Hn _]. apply Forall_app in Hv' as [_ Hv'].
  split; (eapply Forall_impl; [eassumption|]); intros c Hc ->; done.
Qed.

Lemma first_field_omap ls : omap field_of ls = match first_field ls with None => [] | Some (f, rest) => f :: omap field_of rest end.
Proof. induction ls as [|l ls IH]; [done|]. cbn [omap list_omap first_field]. by destruct (field_of l). Qed.

Lemma first_field_suffix ls f rest : first_field ls = Some (f, rest) -> exists pre line, ls = pre ++ line :: rest /\ field_of line = Some f.
Proof.
  induction ls as [|l ls IH]; [done|]. cbn [first_field]. destruct (field_of l) eqn:E; [intros [= <- <-]; by exists [], l|].
  intros H. destruct (IH H) as (pre & line & -> & Hl). by exists (l :: pre), line.
Qed.

(** A loop over the fields folds its step over the fields of the lines. *)
Lemma each_field_spec {S} (body : S -> cpuinfo_reader -> res S) (step : S -> list Z * list Z -> S) (inv : S -> Prop) :
  (forall s p f, inv s -> nonzero f.1 -> nonzero f.2 -> holds p f -> body s p = Ret (step s f) /\ inv (step s f)) ->
  forall fuel p ls s, inv s -> ready p ls -> Forall (fun line => length line < kMaxLineLen)%nat ls ->
  Forall (Forall (fun c => is_eol c = false)) ls -> (length ls < fuel)%nat ->
  each_field fuel body s p = Ret (fold_left step (omap field_of ls) s).
Proof.
  intros Hbody. induction fuel as [|fuel IH]; intros p ls s Hinv Hready Hfit Heol Hfuel; [lia|]. cbn [each_field].
  destruct (GetNextField_spec ls (Datatypes.S fuel) p Hready Hfit Hfuel) as (ok & p' & -> & H). rewrite bind_Ret. cbn beta iota.
  rewrite first_field_omap. destruct (first_field ls) as [[f rest]|] eqn:E; [|by rewrite H].
  destruct H as (-> & Hh & Hready' & Hlt). destruct (first_field_suffix ls f rest E) as (pre & line & -> & Hline). cbn [negb].
  apply Forall_app in Hfit as [_ Hfit]. apply Forall_app in Heol as [_ Heol]. inversion_clear Hfit. inversion_clear Heol.
  destruct (field_of_nonzero line f Hline) as [Hn Hv]; [done|]. destruct (Hbody s p' f Hinv Hn Hv Hh) as [-> Hinv']. rewrite bind_Ret. cbn [fold_left].
  apply IH; try done. lia.
Qed.



Example fields_of_lines :
  omap field_of (lines (literal "model : 6" ++ [10; 10] ++ literal "no" ++ [10] ++ literal " :x" ++ [10] ++ literal "cpu family	:  a b" ++ [10]))
  = [(literal "model", literal "6"); (literal "cpu family", literal "a b")].
Proof. vm_compute. reflexivity. Qed.
