(* ===== verification/Regions.v ===== *)
(** Files that are written in pieces: what a sequence of allocations and copies
    of FileWriter leaves where it was.

    A stream allocates a table, writes other things after it and fills the
    table as it goes; [frame] states that only the table has changed, and
    [bytes_at] is what a reader of the file sees. *)
From S2P Require Import Prelude Utf8 ConvertUtf LibcSupport FileWriter.

(** The bytes [l] in the file [c] from offset [q] on. *)
Definition bytes_at (c : list Z) (q : Z) (l : list Z) : Prop :=
  0 <= q /\ forall i, (i < length l)%nat -> c !! (Z.to_nat q + i)%nat = l !! i.

(** Of what was allocated, only bytes from [lo] up to [hi] have changed. *)
Definition frame (lo hi : Z) (wr wr' : writer) : Prop :=
  writer_ok wr' /\ position_ wr <= position_ wr' /\ size_ wr <= size_ wr'
  /\ forall i, Z.of_nat i < position_ wr -> ~ (lo <= Z.of_nat i < hi) -> contents wr' !! i = contents wr !! i.

Lemma bytes_at_take_drop c q l : bytes_at c q l <-> 0 <= q /\ take (length l) (drop (Z.to_nat q) c) = l.
Proof.
  split; intros [Hq H]; (split; [done|]).
  - apply list_eq. intros i. destruct (decide (i < length l)%nat).
    + by rewrite lookup_take_lt, lookup_drop, H by lia.
    + rewrite lookup_take_ge by lia. symmetry. apply lookup_ge_None_2. lia.
  - intros i Hi. rewrite <- H at 1. by rewrite lookup_take_lt, lookup_drop by lia.
Qed.

Lemma bytes_at_app c q a b : bytes_at c q (a ++ b) <-> bytes_at c q a /\ bytes_at c (q + Z.of_nat (length a)) b.
Proof.
  split.
  - intros [Hq H]. split; (split; [lia|]); intros i Hi.
    + rewrite H by (rewrite length_app; lia). by rewrite lookup_app_l.
    + specialize (H (length a + i)%nat). rewrite length_app in H. rewrite lookup_app_r in H by lia.
      replace (length a + i - length a)%nat with i in H by lia. rewrite <- H by lia. f_equal. lia.
  - intros [[Hq Ha] [_ Hb]]. split; [done|]. intros i Hi. rewrite length_app in Hi.
    destruct (decide (i < length a)%nat) as [Hlt|Hge]; [by rewrite Ha, lookup_app_l|].
    rewrite lookup_app_r by lia. rewrite <- Hb by lia. f_equal. lia.
Qed.

Lemma bytes_at_inside A l B : bytes_at (A ++ l ++ B) (Z.of_nat (length A)) l.
Proof. split; [lia|]. intros i Hi. rewrite Nat2Z.id, lookup_app_r by lia. rewrite lookup_app_l by lia. f_equal. lia. Qed.

Lemma bytes_at_length c q l : bytes_at c q l -> l <> [] -> q + Z.of_nat (length l) <= Z.of_nat (length c).
Proof.
  intros [Hq H] Hl. destruct (length l) as [|n] eqn:E; [by destruct l|]. specialize (H n ltac:(lia)).
  destruct (lookup_lt_is_Some_2 l n ltac:(lia)) as [x Hx]. rewrite Hx in H. apply lookup_lt_Some in H. lia.
Qed.

Lemma frame_refl lo hi wr : writer_ok wr -> frame lo hi wr wr.
Proof. intros H. repeat split; (done || lia || apply H). Qed.

Lemma frame_trans lo hi wr1 wr2 wr3 : frame lo hi wr1 wr2 -> frame lo hi wr2 wr3 -> frame lo hi wr1 wr3.
Proof.
  intros (_ & P1 & S1 & F1) (W & P2 & S2 & F2). split; [done|]. split; [lia|]. split; [lia|].
  intros i Hi Ho. by rewrite F2, F1 by (done || lia).
Qed.

(** A frame holds for more, and what starts after the file is no part of it. *)
Lemma frame_weaken lo hi lo' hi' wr wr' : frame lo hi wr wr' ->
  (forall i, 0 <= i < position_ wr -> lo <= i < hi -> lo' <= i < hi') -> frame lo' hi' wr wr'.
Proof. intros (W & P & S1 & F) H. split; [done|]. split; [done|]. split; [done|]. intros i Hi Ho. apply F; [done|]. intros Hr. apply Ho, H; lia. Qed.

Lemma frame_new lo hi wr wr' : frame lo hi wr wr' -> position_ wr <= lo -> frame 0 0 wr wr'.
Proof. intros H Hlo. eapply frame_weaken; [exact H|]. lia. Qed.

Lemma frame_more lo hi wr wr' : frame 0 0 wr wr' -> frame lo hi wr wr'.
Proof. intros H. eapply frame_weaken; [exact H|]. lia. Qed.

Lemma frame_ok lo hi wr wr' : frame lo hi wr wr' -> writer_ok wr'.
Proof. by intros [? _]. Qed.

Lemma bytes_at_frame lo hi wr wr' q l : frame lo hi wr wr' -> bytes_at (contents wr) q l ->
  q + Z.of_nat (length l) <= position_ wr -> q + Z.of_nat (length l) <= lo \/ hi <= q -> bytes_at (contents wr') q l.
Proof. intros (_ & _ & _ & F) [Hq H] Hp Hd. split; [done|]. intros i Hi. rewrite F by lia. by apply H. Qed.

(** The last of a prefix that has stayed: new bytes behind the old ones. *)
Lemma frame_append wr wr' l tail : writer_ok wr -> writer_ok wr' -> position_ wr <= position_ wr' -> size_ wr <= size_ wr' ->
  contents wr' = take (Z.to_nat (position_ wr)) (contents wr) ++ l ++ tail ->
  frame 0 0 wr wr' /\ bytes_at (contents wr') (position_ wr) l.
Proof.
  intros Hwr Hwr' Hp Hs Hc. destruct Hwr as (_ & _ & Hpos & Hlen & _). split.
  - split; [done|]. split; [done|]. split; [done|]. intros i Hi _. rewrite Hc. rewrite lookup_app_l by (rewrite length_take; lia). apply lookup_take_lt. lia.
  - rewrite Hc. replace (position_ wr) with (Z.of_nat (length (take (Z.to_nat (position_ wr)) (contents wr)))) at 2 by (rewrite length_take; lia).
    apply bytes_at_inside.
Qed.

(** Bytes that the file has and that are allocated. *)
Definition stored (wr : writer) (q : Z) (l : list Z) : Prop := bytes_at (contents wr) q l /\ q + Z.of_nat (length l) <= position_ wr.

(** Nothing of what was there changes, and the file grows by at most [n]. *)
Definition grows (n : Z) (wr wr' : writer) : Prop := frame 0 0 wr wr' /\ size_ wr' <= size_ wr + n.

Lemma stored_frame lo hi wr wr' q l : frame lo hi wr wr' -> stored wr q l -> q + Z.of_nat (length l) <= lo \/ hi <= q -> stored wr' q l.
Proof. intros Hf [Hb Hq] Hd. split; [by apply (bytes_at_frame lo hi wr)|]. destruct Hf as (_ & Hp & _). lia. Qed.

Lemma stored_grows n wr wr' q l : grows n wr wr' -> stored wr q l -> stored wr' q l.
Proof. intros [Hf _] Hs. apply (stored_frame 0 0 wr); [done..|]. right. apply Hs. Qed.

Lemma stored_app wr q x y : stored wr q (x ++ y) <-> stored wr q x /\ stored wr (q + Z.of_nat (length x)) y.
Proof.
  unfold stored. rewrite bytes_at_app, length_app. split.
  - intros [[Hx Hy] H]. split; (split; [done|lia]).
  - intros [[Hx _] [Hy H]]. split; [done|lia].
Qed.

Lemma stored_nil wr q : 0 <= q <= position_ wr -> stored wr q [].
Proof. intros H. split; [split; [lia|intros i Hi; cbn in Hi; lia]|cbn; lia]. Qed.

Lemma grows_trans n m wr1 wr2 wr3 : grows n wr1 wr2 -> grows m wr2 wr3 -> grows (n + m) wr1 wr3.
Proof. intros [F1 S1] [F2 S2]. split; [by apply (frame_trans 0 0 wr1 wr2)|lia]. Qed.

Lemma grows_weaken n m wr wr' : grows n wr wr' -> n <= m -> grows m wr wr'.
Proof. intros [F S1] H. split; [done|lia]. Qed.

Lemma grows_refl wr : writer_ok wr -> grows 0 wr wr.
Proof. intros H. split; [by apply frame_refl|lia]. Qed.

Lemma grows_ok n wr wr' : grows n wr wr' -> writer_ok wr'.
Proof. intros [F _]. by apply frame_ok in F. Qed.

Lemma grows_position n wr wr' : grows n wr wr' -> position_ wr <= position_ wr' /\ size_ wr' <= size_ wr + n.
Proof. intros [(_ & ? & _) ?]. done. Qed.

(** A chunk that was allocated behind the file and filled since. *)
Lemma frame_after n lo hi wr wr1 wr2 : grows n wr wr1 -> frame lo hi wr1 wr2 -> position_ wr <= lo -> size_ wr2 <= size_ wr1 -> grows n wr wr2.
Proof.
  intros [F1 S1] F2 Hlo Hs. split; [|lia]. apply (frame_new lo hi); [|done]. apply (frame_trans lo hi wr wr1); [by apply frame_more|done].
Qed.

(** What is stored from [lo] on stays. *)
Definition keeps (lo : Z) (wr wr' : writer) : Prop := forall q l, lo <= q -> stored wr q l -> stored wr' q l.

Lemma keeps_frame lo hi lo' wr wr' : frame lo hi wr wr' -> hi <= lo' -> keeps lo' wr wr'.
Proof. intros Hf Hhi q l Hq Hs. apply (stored_frame lo hi wr); [done..|]. lia. Qed.

Lemma keeps_grows n lo wr wr' : grows n wr wr' -> keeps lo wr wr'.
Proof. intros Hg q l _ Hs. by apply (stored_grows n wr). Qed.

Lemma keeps_trans lo wr1 wr2 wr3 : keeps lo wr1 wr2 -> keeps lo wr2 wr3 -> keeps lo wr1 wr3.
Proof. intros H1 H2 q l Hq Hs. apply H2, H1; done. Qed.

Create HintDb frames.

#[export] Hint Resolve frame_refl frame_more frame_ok : frames.

Section Regions.

Context (w page_size : Z).
Hypothesis Hw : 32 <= w.
Hypothesis Hpage : 0 < page_size < 2 ^ 16.

(** Writing inside what is allocated. *)
Lemma Copy_frame wr q src : writer_ok wr -> size_ wr < 2 ^ 32 -> (0 < length src)%nat -> 0 <= q -> q + Z.of_nat (length src) <= position_ wr ->
  exists wr', Copy w wr q src = Ret (true, wr') /\ frame q (q + Z.of_nat (length src)) wr wr' /\ bytes_at (contents wr') q src
    /\ position_ wr' = position_ wr /\ size_ wr' = size_ wr.
Proof.
  intros Hwr Hs Hsrc Hq Hp. pose proof Hwr as (Hf & Hio & Hpos & Hlen & Hm & Hz). exists (set_contents wr (patch (contents wr) (Z.to_nat q) src)).
  split; [rewrite <- (Z2Nat.id q Hq) at 1; apply Copy_ok; (done || lia)|].
  assert (forall i, (Z.to_nat q + length src <= i)%nat -> patch (contents wr) (Z.to_nat q) src !! i = contents wr !! i) as Hafter.
  { intros i Hi. unfold patch. rewrite lookup_app_r by (rewrite length_take; lia). rewrite lookup_app_r by (rewrite length_take; lia).
    rewrite lookup_drop. f_equal. rewrite length_take. lia. }
  split; [|split; [|done]].
  - split; [|split; [|split]]; cbn [set_contents position_ size_ contents]; [|lia|lia|].
    + unfold writer_ok. cbn [set_contents contents size_ file_ io position_]. rewrite length_patch by lia. repeat (split; [done || lia|]).
      rewrite <- Hz. apply list_eq. intros i. rewrite !lookup_drop. apply Hafter. lia.
    + intros i Hi Ho. destruct (decide (i < Z.to_nat q)%nat); [|apply Hafter; lia].
      unfold patch. rewrite lookup_app_l by (rewrite length_take; lia). apply lookup_take_lt. lia.
  - cbn [set_contents contents]. unfold patch.
    replace q with (Z.of_nat (length (take (Z.to_nat q) (contents wr)))) at 3 by (rewrite length_take; lia). apply bytes_at_inside.
Qed.

(** Allocating moves the position only. *)
Lemma Allocate_frame wr n : writer_ok wr -> 0 < n < 2 ^ 24 -> size_ wr < 2 ^ 30 ->
  exists wr', Allocate w page_size wr no_workaround n = Ret (position_ wr, wr') /\ frame 0 0 wr wr'
    /\ position_ wr + n <= position_ wr' /\ size_ wr' <= size_ wr + (n + 65544) /\ position_ wr <> kInvalidMDRVA.
Proof.
  intros Hwr Hn Hs. change (2 ^ 24) with 16777216 in Hn. change (2 ^ 30) with 1073741824 in Hs.
  destruct (Allocate_ok w page_size Hw Hpage wr n Hwr) as (wr' & E & Hwr' & Hp & Hs' & k & Hc);
    [change (2 ^ 30) with 1073741824; lia|change (2 ^ 31) with 2147483648; lia|]. change (2 ^ 16) with 65536 in Hs'.
  destruct Hwr as (_ & _ & Hpos & Hlen & _). exists wr'. split; [done|]. split; [|split; [lia|split; [lia|unfold kInvalidMDRVA; change (2 ^ 32) with 4294967296; lia]]].
  split; [done|]. split; [lia|]. split; [lia|]. intros i Hi _. rewrite Hc, lookup_app_l by lia. done.
Qed.

Lemma Untyped_Allocate_frame wr u n : writer_ok wr -> u_size u = 0 -> 0 < n < 2 ^ 24 -> size_ wr < 2 ^ 30 ->
  exists wr', Untyped_Allocate w page_size wr no_workaround u n = Ret (true, UntypedMDRVA (position_ wr) n, wr') /\ frame 0 0 wr wr'
    /\ position_ wr + n <= position_ wr' /\ size_ wr' <= size_ wr + (n + 65544).
Proof.
  intros Hwr Hu Hn Hs. destruct (Allocate_frame wr n Hwr Hn Hs) as (wr' & E & Hfr & Hp & Hsz & Hne). exists wr'.
  unfold Untyped_Allocate. rewrite Hu, Z.eqb_refl. cbn [negb]. rewrite E, bind_Ret. apply Z.eqb_neq in Hne. by rewrite Hne.
Qed.

(** The sizes and positions of a small file fit their types. *)
Lemma writer_bounds wr : writer_ok wr -> size_ wr < 2 ^ 30 -> 0 <= position_ wr <= size_ wr /\ size_ wr < 1073741824 /\ 4294967296 <= 2 ^ w.
Proof. intros (_ & _ & H & _) Hs. split; [done|]. split; [done|]. by apply width_pow. Qed.

Lemma Untyped_Copy_frame wr p n pos src : writer_ok wr -> size_ wr < 2 ^ 30 -> (0 < length src)%nat -> p <= pos -> 0 <= p ->
  pos + Z.of_nat (length src) <= p + n -> p + n <= position_ wr ->
  exists wr', Untyped_Copy w wr (UntypedMDRVA p n) pos src = Ret (true, wr') /\ frame pos (pos + Z.of_nat (length src)) wr wr' /\ bytes_at (contents wr') pos src
    /\ position_ wr' = position_ wr /\ size_ wr' = size_ wr.
Proof.
  intros Hwr Hs Hsrc Hp Hp0 Hpos Hend. destruct (writer_bounds wr Hwr Hs) as (H1 & H2 & H3).
  destruct (Copy_frame wr pos src Hwr) as (wr' & E & H); [change (2 ^ 32) with 4294967296; lia|done|lia|lia|]. exists wr'. split; [|done].
  unfold Untyped_Copy. cbn [u_position u_size]. destruct (Nat.eqb_spec (length src) 0); [lia|].
  rewrite !wrap_small by (split; lia). destruct (Z.ltb_spec (p + n) (pos + Z.of_nat (length src))); [lia|done].
Qed.

(** What a typed chunk writes when it goes out of scope. *)
Lemma destructor_frame wr t : writer_ok wr -> size_ wr < 2 ^ 30 -> allocation_state_ t <> ARRAY -> (0 < length (data_ t))%nat ->
  0 <= u_position (chunk t) -> u_position (chunk t) + Z.of_nat (length (data_ t)) <= position_ wr ->
  exists wr', TypedMDRVA_destructor w wr t = Ret wr' /\ frame (u_position (chunk t)) (u_position (chunk t) + Z.of_nat (length (data_ t))) wr wr'
    /\ bytes_at (contents wr') (u_position (chunk t)) (data_ t) /\ position_ wr' = position_ wr /\ size_ wr' = size_ wr.
Proof.
  intros Hwr Hs Hst Hd Hp Hend. destruct (writer_bounds wr Hwr Hs) as (H1 & H2 & H3).
  destruct (Copy_frame wr (u_position (chunk t)) (data_ t) Hwr) as (wr' & E & H); [change (2 ^ 32) with 4294967296; lia|done|done|done|].
  exists wr'. split; [|done]. unfold TypedMDRVA_destructor, Flush. rewrite decide_False by done. by rewrite E.
Qed.

(** One element of a table behind an object. *)
Lemma CopyIndexAfterObject_frame wr t k src : writer_ok wr -> size_ wr < 2 ^ 30 -> allocation_state_ t = SINGLE_OBJECT_WITH_ARRAY ->
  0 <= k -> 0 <= u_position (chunk t) -> (0 < length src)%nat ->
  let q := u_position (chunk t) + Z.of_nat (length (data_ t)) + k * Z.of_nat (length src) in
  q + Z.of_nat (length src) <= position_ wr ->
  exists wr', CopyIndexAfterObject w wr t k src = Ret (true, wr') /\ frame q (q + Z.of_nat (length src)) wr wr'
    /\ bytes_at (contents wr') q src /\ position_ wr' = position_ wr /\ size_ wr' = size_ wr.
Proof.
  intros Hwr Hs Hst Hk Hp Hsrc q Hq. destruct (writer_bounds wr Hwr Hs) as (H1 & H2 & H3). assert (0 <= q) by nia.
  destruct (Copy_frame wr q src Hwr) as (wr' & E & H'); [change (2 ^ 32) with 4294967296; lia|done|done|done|].
  exists wr'. split; [|done]. unfold CopyIndexAfterObject. rewrite decide_True by done.
  rewrite wrap_small by (split; [done|change (2 ^ 32) with 4294967296; fold q; lia]). done.
Qed.

Lemma CopyIndex_frame wr t k src : writer_ok wr -> size_ wr < 2 ^ 30 -> allocation_state_ t = ARRAY ->
  0 <= k -> 0 <= u_position (chunk t) -> (0 < length src)%nat -> length (data_ t) = length src ->
  let q := u_position (chunk t) + k * Z.of_nat (length src) in
  q + Z.of_nat (length src) <= position_ wr ->
  exists wr', CopyIndex w wr t k src = Ret (true, wr') /\ frame q (q + Z.of_nat (length src)) wr wr'
    /\ bytes_at (contents wr') q src /\ position_ wr' = position_ wr /\ size_ wr' = size_ wr.
Proof.
  intros Hwr Hs Hst Hk Hp Hsrc Hd q Hq. destruct (writer_bounds wr Hwr Hs) as (H1 & H2 & H3). assert (0 <= q) by nia.
  destruct (Copy_frame wr q src Hwr) as (wr' & E & H'); [change (2 ^ 32) with 4294967296; lia|done|done|done|].
  exists wr'. split; [|done]. unfold CopyIndex. rewrite decide_True, Hd by done.
  rewrite wrap_small by (split; [done|change (2 ^ 32) with 4294967296; fold q; lia]). done.
Qed.

Lemma length_md_string cs : Z.of_nat (length (md_string cs)) = 2 * Z.of_nat (length (utf8_of cs)) + 6.
Proof.
  pose proof (length_utf8_of cs). unfold md_string, blank. rewrite !length_app, !length_le_bytes, length_replicate, length_units_bytes. lia.
Qed.

(** A string of the basic plane, its MDString and its location. *)
Lemma WriteString_frame wr cs rest : writer_ok wr -> basic cs -> Z.of_nat (length (utf8_of cs)) < 2 ^ 20 -> size_ wr < 2 ^ 30 ->
  let m := Z.of_nat (length (utf8_of cs)) in
  exists wr', WriteString w page_size wr no_workaround (utf8_of cs ++ 0 :: rest) 0 = Ret (Some (2 * m + 6, position_ wr), wr')
    /\ frame 0 0 wr wr' /\ position_ wr + 2 * m + 6 <= position_ wr' /\ size_ wr' <= size_ wr + (2 * m + 65550)
    /\ bytes_at (contents wr') (position_ wr) (md_string cs).
Proof.
  intros Hwr Hb Hn Hs m. change (2 ^ 20) with 1048576 in Hn. change (2 ^ 30) with 1073741824 in Hs.
  destruct (WriteString_basic w page_size Hw Hpage wr cs rest Hwr Hb) as (wr' & tail & E & Hwr' & Hp & Hsz & Hc);
    [change (2 ^ 24) with 16777216; lia|done|]. assert (0 <= m) by (unfold m; lia). fold m in E, Hp, Hsz. exists wr'. split; [done|].
  destruct (frame_append wr wr' (md_string cs) tail) as [Hfr Hat]; [done|done|lia|lia|done|]. split; [done|]. split; [lia|]. split; [lia|done].
Qed.

(** An object of its own: allocated, filled and written. *)
Lemma object_written wr old data : writer_ok wr -> (0 < length data)%nat -> length old = length data -> Z.of_nat (length data) < 2 ^ 24 -> size_ wr < 2 ^ 30 - 2 ^ 25 ->
  let n := Z.of_nat (length data) in
  exists wr1 wr2, Typed_Allocate w page_size wr no_workaround (TypedMDRVA (new_chunk wr) old UNALLOCATED)
      = Ret (true, TypedMDRVA (UntypedMDRVA (position_ wr) n) old SINGLE_OBJECT, wr1)
    /\ TypedMDRVA_destructor w wr1 (TypedMDRVA (UntypedMDRVA (position_ wr) n) data SINGLE_OBJECT) = Ret wr2
    /\ grows (n + 65544) wr wr2 /\ stored wr2 (position_ wr) data.
Proof.
  intros Hwr Hd Ho Hn Hs n. change (2 ^ 24) with 16777216 in Hn. change (2 ^ 30 - 2 ^ 25) with 1040187392 in Hs.
  destruct (Untyped_Allocate_frame wr (new_chunk wr) n) as (wr1 & E & F1 & P1 & S1); [done|done|change (2 ^ 24) with 16777216; lia|change (2 ^ 30) with 1073741824; lia|].
  pose proof Hwr as (_ & _ & Hpos & _). pose proof (frame_ok _ _ _ _ F1) as Hwr1.
  destruct (destructor_frame wr1 (TypedMDRVA (UntypedMDRVA (position_ wr) n) data SINGLE_OBJECT)) as (wr2 & E2 & F2 & B2 & P2 & S2);
    [done|change (2 ^ 30) with 1073741824; unfold n in *; lia|done|done|cbn [chunk u_position]; lia|cbn [chunk u_position data_]; lia|].
  cbn [chunk u_position data_] in *. exists wr1, wr2. split; [unfold Typed_Allocate; cbn [chunk data_]; rewrite Ho; fold n; by rewrite E|]. split; [done|]. split.
  - apply (frame_after _ (position_ wr) (position_ wr + n) wr wr1); [split; [done|lia]|done|lia|lia].
  - split; [done|]. lia.
Qed.

(** A table behind an object. *)
Lemma list_allocated wr old count len : writer_ok wr -> 0 < count -> 0 < len -> let n := Z.of_nat (length old) + count * len in
  n < 2 ^ 24 -> size_ wr < 2 ^ 30 - 2 ^ 25 ->
  exists wr1, AllocateObjectAndArray w page_size wr no_workaround (TypedMDRVA (new_chunk wr) old UNALLOCATED) count len
      = Ret (true, TypedMDRVA (UntypedMDRVA (position_ wr) n) old SINGLE_OBJECT_WITH_ARRAY, wr1)
    /\ grows (n + 65544) wr wr1 /\ position_ wr + n <= position_ wr1.
Proof.
  intros Hwr Hc Hl n Hn Hs. change (2 ^ 24) with 16777216 in Hn. change (2 ^ 30 - 2 ^ 25) with 1040187392 in Hs.
  assert (0 < count * len) by nia. assert (4294967296 <= 2 ^ w) as Hp by (by apply width_pow).
  destruct (Untyped_Allocate_frame wr (new_chunk wr) n) as (wr1 & E & F1 & P1 & S1); [done|done|change (2 ^ 24) with 16777216; lia|change (2 ^ 30) with 1073741824; lia|].
  exists wr1. split; [|split; [split; [done|lia]|done]]. unfold AllocateObjectAndArray. cbn [chunk data_].
  destruct (Z.eqb_spec count 0); [lia|]. destruct (Z.eqb_spec len 0); [lia|]. cbn [orb].
  rewrite (wrap_small w (count * len)), wrap_small by (split; lia). fold n. by rewrite E.
Qed.

(** The elements of a table, one behind the other. *)
Lemma element_written wr p n object filled i e : writer_ok wr -> size_ wr < 2 ^ 30 -> 0 <= p -> (0 < length e)%nat ->
  let q := p + Z.of_nat (length object) in let t := TypedMDRVA (UntypedMDRVA p n) object SINGLE_OBJECT_WITH_ARRAY in
  stored wr q filled -> length filled = (i * length e)%nat -> q + Z.of_nat (S i * length e) <= position_ wr ->
  exists wr', CopyIndexAfterObject w wr t (Z.of_nat i) e = Ret (true, wr') /\ frame q (q + Z.of_nat (S i * length e)) wr wr'
    /\ stored wr' q (filled ++ e) /\ position_ wr' = position_ wr /\ size_ wr' = size_ wr.
Proof.
  intros Hwr Hs Hp He q t Hf Hl Hq. destruct (CopyIndexAfterObject_frame wr t (Z.of_nat i) e) as (wr' & E & F & B & P' & S');
    [done|done|done|lia|done|done|cbn [t chunk u_position data_]; fold q; lia|].
  cbn [t chunk u_position data_] in F, B. fold q in F, B. exists wr'. split; [done|]. split.
  - eapply frame_weaken; [exact F|]. lia.
  - split; [|done]. apply stored_app. split; [apply (stored_frame _ _ _ _ _ _ F Hf); lia|]. rewrite Hl.
    replace (q + Z.of_nat (i * length e)) with (q + Z.of_nat i * Z.of_nat (length e)) by lia. split; [done|lia].
Qed.

(** The same after something else was written behind the table, which goes up to
    [hi]. *)
Lemma table_step wr wr1 c p n object filled i m hi e : grows c wr wr1 -> size_ wr + c < 2 ^ 30 -> 0 <= p -> (0 < m)%nat -> length e = m ->
  let q := p + Z.of_nat (length object) in stored wr q filled -> length filled = (i * m)%nat -> q + Z.of_nat (S i * m) <= hi -> hi <= position_ wr ->
  exists wr2, CopyIndexAfterObject w wr1 (TypedMDRVA (UntypedMDRVA p n) object SINGLE_OBJECT_WITH_ARRAY) (Z.of_nat i) e = Ret (true, wr2)
    /\ frame q hi wr wr2 /\ size_ wr2 <= size_ wr + c /\ stored wr2 q (filled ++ e) /\ keeps hi wr1 wr2 /\ hi <= position_ wr2.
Proof.
  intros G1 Hs Hp Hm He q Hf Hl Hq Hhi. pose proof (grows_position _ _ _ G1) as [P1 Z1].
  destruct (element_written wr1 p n object filled i e) as (wr2 & E & F2 & S2 & P2 & Z2); [by apply grows_ok in G1|lia|done|lia|by apply (stored_grows _ _ _ _ _ G1)|by rewrite He|rewrite He; fold q; lia|].
  rewrite He in F2. fold q in F2. exists wr2. split; [done|]. split; [apply (frame_trans _ _ _ wr1); [apply frame_more, G1|eapply frame_weaken; [exact F2|]; lia]|].
  split; [lia|]. split; [done|]. split; [apply (keeps_frame _ _ _ _ _ F2); lia|lia].
Qed.

(** The same in an array. *)
Lemma array_allocated wr old count : writer_ok wr -> 0 < count -> (0 < length old)%nat -> let n := Z.of_nat (length old) * count in
  n < 2 ^ 24 -> size_ wr < 2 ^ 30 - 2 ^ 25 ->
  exists wr1, AllocateArray w page_size wr no_workaround (TypedMDRVA (new_chunk wr) old UNALLOCATED) count
      = Ret (true, TypedMDRVA (UntypedMDRVA (position_ wr) n) old ARRAY, wr1)
    /\ grows (n + 65544) wr wr1 /\ position_ wr + n <= position_ wr1.
Proof.
  intros Hwr Hc Hl n Hn Hs. change (2 ^ 24) with 16777216 in Hn. change (2 ^ 30 - 2 ^ 25) with 1040187392 in Hs.
  assert (0 < n) by (unfold n; nia). assert (4294967296 <= 2 ^ w) as Hp by (by apply width_pow).
  destruct (Untyped_Allocate_frame wr (new_chunk wr) n) as (wr1 & E & F1 & P1 & S1); [done|done|change (2 ^ 24) with 16777216; lia|change (2 ^ 30) with 1073741824; lia|].
  exists wr1. split; [|split; [split; [done|lia]|done]]. unfold AllocateArray. cbn [chunk data_].
  destruct (Z.eqb_spec count 0); [lia|]. rewrite wrap_small by (fold n; split; lia). fold n. by rewrite E.
Qed.

Lemma array_step wr wr1 c p n object filled i m hi e : grows c wr wr1 -> size_ wr + c < 2 ^ 30 -> 0 <= p -> (0 < m)%nat -> length e = m -> length object = m ->
  stored wr p filled -> length filled = (i * m)%nat -> p + Z.of_nat (S i * m) <= hi -> hi <= position_ wr ->
  exists wr2, CopyIndex w wr1 (TypedMDRVA (UntypedMDRVA p n) object ARRAY) (Z.of_nat i) e = Ret (true, wr2)
    /\ frame p hi wr wr2 /\ size_ wr2 <= size_ wr + c /\ stored wr2 p (filled ++ e) /\ keeps hi wr1 wr2 /\ hi <= position_ wr2.
Proof.
  intros G1 Hs Hp Hm He Ho Hf Hl Hq Hhi. pose proof (grows_position _ _ _ G1) as [P1 Z1].
  destruct (CopyIndex_frame wr1 (TypedMDRVA (UntypedMDRVA p n) object ARRAY) (Z.of_nat i) e) as (wr2 & E & F2 & B2 & P2 & Z2);
    [by apply grows_ok in G1|lia|done|lia|done|lia|by rewrite He|cbn [chunk u_position]; rewrite He; lia|].
  cbn [chunk u_position] in F2, B2. rewrite He in F2, B2. exists wr2. split; [done|].
  split; [apply (frame_trans _ _ _ wr1); [apply frame_more, G1|eapply frame_weaken; [exact F2|]; lia]|]. split; [lia|]. split.
  - apply stored_app. split; [apply (stored_frame _ _ _ _ _ _ F2 (stored_grows _ _ _ _ _ G1 Hf)); lia|]. rewrite Hl.
    replace (p + Z.of_nat (i * m)) with (p + Z.of_nat i * Z.of_nat m) by lia. split; [done|rewrite He; lia].
  - split; [apply (keeps_frame _ _ _ _ _ F2); lia|lia].
Qed.

(** The object in front of a table, when the chunk goes out of scope. *)
Lemma table_written wr p n object table : writer_ok wr -> size_ wr < 2 ^ 30 -> 0 <= p -> (0 < length object)%nat ->
  stored wr (p + Z.of_nat (length object)) table -> p + Z.of_nat (length object) <= position_ wr ->
  exists wr', TypedMDRVA_destructor w wr (TypedMDRVA (UntypedMDRVA p n) object SINGLE_OBJECT_WITH_ARRAY) = Ret wr'
    /\ frame p (p + Z.of_nat (length object)) wr wr' /\ stored wr' p (object ++ table) /\ position_ wr' = position_ wr /\ size_ wr' = size_ wr.
Proof.
  intros Hwr Hs Hp Ho Ht Hend. destruct (destructor_frame wr (TypedMDRVA (UntypedMDRVA p n) object SINGLE_OBJECT_WITH_ARRAY)) as (wr' & E & F & B & P' & S'); [done..|].
  cbn [chunk u_position data_] in *. exists wr'. split; [done|]. split; [done|]. split; [|done]. apply stored_app. split; [split; [done|lia]|].
  apply (stored_frame _ _ _ _ _ _ F Ht). lia.
Qed.

End Regions.
