(* ===== verification/SystemInfo.v ===== *)
(** The system information stream of a minidump: WriteCPUInformation,
    WriteOSInformation and WriteSystemInfoStream of
    client/linux/minidump_writer/minidump_writer.cc of libbreakpad.

    A file of /proc or /sys is [None] when it does not open. *)
From S2P Require Import Prelude Utf8 ConvertUtf LibcSupport LineReader FileWriter Regions CpuInfo.

(** MDRawSystemInfo; the union [cpu] is its 24 bytes. *)
Record MDRawSystemInfo := SystemInfo {
  processor_architecture : Z;
  processor_level : Z;
  processor_revision : Z;
  number_of_processors : Z;
  platform_id : Z;
  csd_version_rva : Z;
  cpu : list Z
}.

Definition zero_info : MDRawSystemInfo := SystemInfo 0 0 0 0 0 0 (replicate 24 0).

(** The structure as bytes; what has no field here stays zero. *)
Definition system_info_bytes (si : MDRawSystemInfo) : list Z :=
  le_bytes 2 (processor_architecture si) ++ le_bytes 2 (processor_level si) ++ le_bytes 2 (processor_revision si)
  ++ le_bytes 1 (number_of_processors si) ++ replicate 13 0 ++ le_bytes 4 (platform_id si) ++ le_bytes 4 (csd_version_rva si)
  ++ replicate 4 0 ++ cpu si.

Definition MD_CPU_ARCHITECTURE_X86 : Z := 0.
Definition MD_CPU_ARCHITECTURE_ARM : Z := 5.
Definition MD_CPU_ARCHITECTURE_AMD64 : Z := 9.
Definition MD_CPU_ARCHITECTURE_ARM64_OLD : Z := 0x8003.
Definition MD_OS_ANDROID : Z := 0x8203.

Inductive architecture := X86 | X86_64 | ARM | ARM64.

Definition width (a : architecture) : Z := match a with X86 | ARM => 32 | X86_64 | ARM64 => 64 end.

(** * Processors of Intel and AMD *)

Record CpuInfoEntry := Entry { info_name : list Z; value : Z; found : bool }.

Definition cpu_info_table : list CpuInfoEntry :=
  [Entry (literal "processor") (-1) false; Entry (literal "model") 0 false;
   Entry (literal "stepping") 0 false; Entry (literal "cpu family") 0 false].

(** One entry of the table for a field; a number is read when at least one
    character is taken. *)
Definition try_entry (w : Z) (p : cpuinfo_reader) (is_first_entry : bool) (entry : CpuInfoEntry) : res CpuInfoEntry :=
  if negb is_first_entry && found entry then Ret entry
  else
    c ← my_strcmp (GetField p) (info_name entry ++ [0]);
    if negb (c =? 0) then Ret entry
    else
      let '(value, value_len) := GetValueAndLen p in
      if (value_len =? 0)%nat then Ret entry
      else
        '(val, rest) ← my_read_decimal_ptr w value;
        if (length rest =? length value)%nat then Ret entry else Ret (Entry (info_name entry) (i32 val) true).

Fixpoint try_entries (w : Z) (p : cpuinfo_reader) (is_first_entry : bool) (table : list CpuInfoEntry) : res (list CpuInfoEntry) :=
  match table with
  | [] => Ret []
  | entry :: table =>
      entry ← try_entry w p is_first_entry entry;
      table ← try_entries w p false table;
      Ret (entry :: table)
  end.

(** The table and [vendor_id], 13 characters. *)
Definition x86_field (w : Z) (s : list CpuInfoEntry * list Z) (p : cpuinfo_reader) : res (list CpuInfoEntry * list Z) :=
  let '(table, vendor_id) := s in
  table ← try_entries w p true table;
  c ← my_strcmp (GetField p) (literal "vendor_id" ++ [0]);
  if negb (c =? 0) then Ret (table, vendor_id)
  else
    let '(value, value_len) := GetValueAndLen p in
    if (0 <? value_len)%nat then '(vendor_id, _) ← my_strlcpy vendor_id value 13; Ret (table, vendor_id)
    else Ret (table, vendor_id).

Definition set_architecture (si : MDRawSystemInfo) (a : architecture) : MDRawSystemInfo :=
  SystemInfo
    match a with X86 => MD_CPU_ARCHITECTURE_X86 | X86_64 => MD_CPU_ARCHITECTURE_AMD64 | ARM => MD_CPU_ARCHITECTURE_ARM | ARM64 => MD_CPU_ARCHITECTURE_ARM64_OLD end
    (processor_level si) (processor_revision si) (number_of_processors si) (platform_id si) (csd_version_rva si) (cpu si).

(** The number of the last processor, and one more. *)
Definition fill_x86 (si : MDRawSystemInfo) (table : list CpuInfoEntry) (vendor_id : list Z) : res (bool * MDRawSystemInfo) :=
  if negb (forallb found table) then Ret (false, si)
  else
    match map value table with
    | [processor; model; stepping; family] =>
        cpu ← (match vendor_id with
               | c :: _ => if negb (c =? 0) then id ← load vendor_id 0 12; store (cpu si) 0 id else Ret (cpu si)
               | [] => Fault OutOfBounds
               end);
        Ret (true, SystemInfo (processor_architecture si) (u16 family) (u16 (Z.lor (Z.shiftl model 8) stepping)) (u8 (i32 (processor + 1)))
               (platform_id si) (csd_version_rva si) cpu)
    | _ => Ret (false, si)
    end.

(** Every field takes a line, and every line a byte of the file. *)
Definition WriteCPUInformation_x86 (a : architecture) (si : MDRawSystemInfo) (cpuinfo : option line_reader) : res (bool * MDRawSystemInfo) :=
  let si := set_architecture si a in
  match cpuinfo with
  | None => Ret (false, si)
  | Some r =>
      '(table, vendor_id) ← each_field (length (pending r) + 2) (x86_field (width a)) (cpu_info_table, replicate 13 0) (new_cpuinfo_reader r);
      fill_x86 si table vendor_id
  end.

(** * Processors of ARM *)

Record CpuIdEntry := IdEntry { id_field : list Z; id_format : Z; bit_lshift : Z; bit_length : Z }.

Definition cpu_id_entries : list CpuIdEntry :=
  [IdEntry (literal "CPU implementer") 0x78 24 8; IdEntry (literal "CPU variant") 0x78 20 4;
   IdEntry (literal "CPU part") 0x78 4 12; IdEntry (literal "CPU revision") 0x64 0 4].

Definition cpu_features_entries (a : architecture) : list (list Z * Z) :=
  match a with
  | ARM =>
      [(literal "swp", 2 ^ 0); (literal "half", 2 ^ 1); (literal "thumb", 2 ^ 2); (literal "26bit", 2 ^ 3); (literal "fastmult", 2 ^ 4);
       (literal "fpa", 2 ^ 5); (literal "vfp", 2 ^ 6); (literal "edsp", 2 ^ 7); (literal "java", 2 ^ 8); (literal "iwmmxt", 2 ^ 9);
       (literal "crunch", 2 ^ 10); (literal "thumbee", 2 ^ 11); (literal "neon", 2 ^ 12); (literal "vfpv3", 2 ^ 13); (literal "vfpv3d16", 2 ^ 14);
       (literal "tls", 2 ^ 15); (literal "vfpv4", 2 ^ 16); (literal "idiva", 2 ^ 17); (literal "idivt", 2 ^ 18);
       (literal "idiv", Z.lor (2 ^ 17) (2 ^ 18))]
  | _ => []
  end.

(** What the two loops over cpuinfo have found. *)
Record arm_info := ArmInfo { cpuid : Z; elf_hwcaps : Z; level : Z }.

(** The part of [cpuid] that one entry gives for a field. *)
Definition id_entry (w : Z) (p : cpuinfo_reader) (cpuid : Z) (entry : CpuIdEntry) : res Z :=
  c ← my_strcmp (id_field entry ++ [0]) (GetField p);
  if negb (c =? 0) then Ret cpuid
  else
    let value := GetValue p in
    v0 ← get_or_oob (value !! 0%nat);
    v1 ← (if v0 =? 0x30 then get_or_oob (value !! 1%nat) else Ret 0);
    '(result, rest) ← (if (v0 =? 0x30) && (v1 =? 0x78) then my_read_hex_ptr w (drop 2 value)
                       else if id_format entry =? 0x78 then my_read_hex_ptr w value else my_read_decimal_ptr w value);
    if (length rest =? length value)%nat then Ret cpuid
    else
      let result := Z.land result (Z.shiftl 1 (bit_length entry) - 1) in
      Ret (Z.lor cpuid (u32 (wrap w (Z.shiftl result (bit_lshift entry))))).

Fixpoint id_entries (w : Z) (p : cpuinfo_reader) (cpuid : Z) (entries : list CpuIdEntry) : res Z :=
  match entries with
  | [] => Ret cpuid
  | entry :: entries => cpuid ← id_entry w p cpuid entry; id_entries w p cpuid entries
  end.

(** Back to the opening parenthesis: one more than its index, 0 without one. *)
Fixpoint find_paren (value : list Z) (nn : nat) : res nat :=
  match nn with
  | O => Ret O
  | S n => c ← get_or_oob (value !! n); if c =? 0x28 then Ret nn else find_paren value n
  end.

(** The version of the architecture in the field "Processor". *)
Definition processor_field (w : Z) (p : cpuinfo_reader) (level : Z) : res Z :=
  let '(value, value_len) := GetValueAndLen p in
  value_len ← trim_spaces value 0 value_len;
  nn ← find_paren value value_len;
  if (0 <? nn)%nat then
    c ← get_or_oob (value !! nn);
    if c =? 0x76 then '(arch_level, _) ← my_read_decimal_ptr w (drop (nn + 1) value); Ret (u16 arch_level) else Ret level
  else Ret level.

(** The capability of a tag, the first of the table with its name. *)
Definition tag_hwcaps (entries : list (list Z * Z)) (tag : list Z) : Z :=
  match List.find (fun e => bool_decide (e.1 = tag)) entries with Some e => e.2 | None => 0 end.

(** The tags, one after the other; [value_len] goes down at every step. *)
Fixpoint features (fuel : nat) (entries : list (list Z * Z)) (value : list Z) (value_len : nat) (hwcaps : Z) : res Z :=
  match fuel with
  | O => Fault OutOfFuel
  | S fuel =>
      if (value_len =? 0)%nat then Ret hwcaps
      else
        p ← my_strchr value 0x20;
        tag_len ← match p with Some i => Ret i | None => my_strlen value end;
        tag ← load value 0 tag_len;
        let hwcaps := Z.lor hwcaps (tag_hwcaps entries tag) in
        match p with
        | Some i => features fuel entries (drop (i + 1) value) (value_len - (i + 1)) hwcaps
        | None => features fuel entries value 0 hwcaps
        end
  end.

(** One field. On 64 bits a field "CPU architecture" without a number goes on
    with the next field. *)
Definition arm_field (a : architecture) (s : arm_info) (p : cpuinfo_reader) : res arm_info :=
  let w := width a in
  cpuid ← id_entries w p (cpuid s) cpu_id_entries;
  level ← match a with
          | ARM =>
              c ← my_strcmp (GetField p) (literal "Processor" ++ [0]);
              if c =? 0 then processor_field w p (level s) else Ret (level s)
          | _ =>
              c ← my_strcmp (GetField p) (literal "CPU architecture" ++ [0]);
              if c =? 0 then
                '(arch_level, rest) ← my_read_decimal_ptr w (GetValue p);
                Ret (if (length rest =? length (GetValue p))%nat then level s else u16 arch_level)
              else Ret (level s)
          end;
  c ← my_strcmp (GetField p) (literal "Features" ++ [0]);
  elf_hwcaps ← (if c =? 0 then
                  let '(value, value_len) := GetValueAndLen p in
                  features (S value_len) (cpu_features_entries a) value value_len (elf_hwcaps s)
                else Ret (elf_hwcaps s));
  Ret (ArmInfo cpuid elf_hwcaps level).

(** The processors that are present and possible; 0 when a file does not open.
    The two arrays are what the buffers of ParseSysFile hold before. *)
Definition count_cpus (range_fuel : nat) (w : Z) (buffer : list Z) (present possible : option (option (list Z))) : res Z :=
  match present, possible with
  | Some present, Some possible =>
      '(_, cpus_present) ← ParseSysFile range_fuel w buffer present new_cpu_set;
      '(_, cpus_possible) ← ParseSysFile range_fuel w buffer possible new_cpu_set;
      let cpu_count := GetCount (IntersectWith cpus_present cpus_possible) in
      Ret (u8 (if 255 <? cpu_count then 255 else cpu_count))
  | Some present, None =>
      '(_, _) ← ParseSysFile range_fuel w buffer present new_cpu_set;
      Ret 0
  | None, _ => Ret 0
  end.

Definition arm_cpu (info : arm_info) (cpu : list Z) : list Z := le_bytes 4 (cpuid info) ++ le_bytes 4 (elf_hwcaps info) ++ drop 8 cpu.

Definition WriteCPUInformation_arm (range_fuel : nat) (a : architecture) (si : MDRawSystemInfo) (buffer : list Z)
    (present possible : option (option (list Z))) (cpuinfo : option line_reader) : res (bool * MDRawSystemInfo) :=
  let si := set_architecture si a in
  number ← count_cpus range_fuel (width a) buffer present possible;
  info ← match cpuinfo with
         | None => Ret (ArmInfo 0 0 1)
         | Some r => each_field (length (pending r) + 2) (arm_field a) (ArmInfo 0 0 1) (new_cpuinfo_reader r)
         end;
  Ret (true, SystemInfo (processor_architecture si) (level info) 42 number (platform_id si) (csd_version_rva si) (arm_cpu info (cpu si))).

(** * The operating system *)

Definition buf_len : nat := 512.

(** The loop over the strings of utsname. *)
Fixpoint os_items (items : list (list Z)) (buf : list Z) (space_left : nat) (first_item : bool) : res (list Z) :=
  match items with
  | [] => Ret buf
  | cur_info :: items =>
      info_len ← my_strlen cur_info;
      if (info_len =? 0)%nat then os_items items buf space_left first_item
      else if (space_left <? info_len + (if first_item then 0 else 1))%nat then Ret buf
      else
        '(buf, space_left) ← (if first_item then Ret (buf, space_left)
                              else '(buf, _) ← my_strlcat buf [0x20; 0] buf_len; Ret (buf, (space_left - 1)%nat));
        '(buf, _) ← my_strlcat buf cur_info buf_len;
        os_items items buf (space_left - info_len) false
  end.

Definition set_os (si : MDRawSystemInfo) (platform csd : Z) : MDRawSystemInfo :=
  SystemInfo (processor_architecture si) (processor_level si) (processor_revision si) (number_of_processors si) platform csd (cpu si).

Section Stream.

Variable page_size : Z.
Variable a : architecture.

(** [uts] is what uname gives: the name of the system, the release, the version
    and the machine; [None] when it fails. *)
Definition WriteOSInformation (wr : writer) (g : workaround) (si : MDRawSystemInfo) (uts : option (list (list Z)))
    : res (bool * MDRawSystemInfo * writer) :=
  let si := set_os si MD_OS_ANDROID (csd_version_rva si) in
  match uts with
  | None => Ret (false, si, wr)
  | Some items =>
      buf ← os_items items (replicate buf_len 0) (buf_len - 1) true;
      '(location, wr) ← WriteString (width a) page_size wr g buf 0;
      match location with
      | None => Ret (false, si, wr)
      | Some (_, rva) => Ret (true, set_os si MD_OS_ANDROID rva, wr)
      end
  end.

(** What the stream reads of the machine. *)
Record machine := Machine {
  sys_buffer : list Z;
  cpu_present : option (option (list Z));
  cpu_possible : option (option (list Z));
  proc_cpuinfo : option line_reader;
  uts : option (list (list Z))
}.

Definition WriteCPUInformation (range_fuel : nat) (m : machine) (si : MDRawSystemInfo) : res (bool * MDRawSystemInfo) :=
  match a with
  | X86 | X86_64 => WriteCPUInformation_x86 a si (proc_cpuinfo m)
  | ARM | ARM64 => WriteCPUInformation_arm range_fuel a si (sys_buffer m) (cpu_present m) (cpu_possible m) (proc_cpuinfo m)
  end.

Definition MD_SYSTEM_INFO_STREAM : Z := 7.

(** The stream's type and location; the structure itself is written when the
    object goes out of scope. *)
Definition WriteSystemInfoStream (range_fuel : nat) (wr : writer) (g : workaround) (m : machine)
    : res (option (Z * (Z * Z)) * writer) :=
  let t := TypedMDRVA (new_chunk wr) (system_info_bytes zero_info) UNALLOCATED in
  '(ok, t, wr) ← Typed_Allocate (width a) page_size wr g t;
  if negb (ok : bool) then wr ← TypedMDRVA_destructor (width a) wr t; Ret (None, wr)
  else
    '(_, si) ← WriteCPUInformation range_fuel m zero_info;
    '(_, si, wr) ← WriteOSInformation wr g si (uts m);
    wr ← TypedMDRVA_destructor (width a) wr (TypedMDRVA (chunk t) (system_info_bytes si) (allocation_state_ t));
    Ret (Some (MD_SYSTEM_INFO_STREAM, location (chunk t)), wr).

End Stream.

(** * Numbers in a value *)

Fixpoint leading (f : Z -> bool) (v : list Z) : list Z :=
  match v with
  | [] => []
  | c :: t => if f c then c :: leading f t else []
  end.

Definition decimal_value (w : Z) (ds : list Z) : Z := fold_left (fun r c => wrap w (wrap w (r * 10) + (c - 0x30))) ds 0.

(** The decimal number that a text starts with. *)
Definition number_in (w : Z) (v : list Z) : option Z :=
  match leading is_digit v with [] => None | ds => Some (decimal_value w ds) end.

Lemma leading_app f v : exists t, v = leading f v ++ t.
Proof. induction v as [|c v (t & E)]; [by exists []|]. cbn [leading]. destruct (f c); [exists t; cbn; by rewrite <- E|by eexists]. Qed.

Lemma read_decimal_leading w v rest : forall r, read_decimal_loop w r (v ++ 0 :: rest)
  = Ret (fold_left (fun r c => wrap w (wrap w (r * 10) + (c - 0x30))) (leading is_digit v) r, drop (length (leading is_digit v)) (v ++ 0 :: rest)).
Proof.
  induction v as [|c v IH]; intros r; cbn [app leading]; [done|]. cbn [read_decimal_loop]. destruct (is_digit c); [apply IH|done].
Qed.

(** Reading a number of a value: nothing is taken exactly when there is none. *)
Lemma read_number w v rest : exists n rest', my_read_decimal_ptr w (v ++ 0 :: rest) = Ret (n, rest')
  /\ n = default 0 (number_in w v)
  /\ (length rest' =? length (v ++ 0%Z :: rest))%nat = match number_in w v with Some _ => false | None => true end.
Proof.
  unfold my_read_decimal_ptr. rewrite read_decimal_leading. eexists _, _. split; [done|]. unfold number_in, decimal_value.
  destruct (leading_app is_digit v) as (t & E). apply (f_equal length) in E. rewrite length_app in E.
  rewrite length_drop, length_app. destruct (leading is_digit v) as [|c ds]; cbn [length fold_left default] in *.
  - split; [done|]. rewrite Nat.sub_0_r. apply Nat.eqb_refl.
  - split; [done|]. apply Nat.eqb_neq. lia.
Qed.

Lemma strcmp_field (x name : list Z) p f : holds p f -> nonzero x -> nonzero f.1 ->
  exists c, my_strcmp (GetField p) (x ++ [0]) = Ret c /\ (c =? 0) = bool_decide (f.1 = x)
    /\ exists c', my_strcmp (x ++ [0]) (GetField p) = Ret c' /\ (c' =? 0) = bool_decide (f.1 = x).
Proof.
  intros ((rest & ->) & _) Hx Hf. destruct (my_strncmp_spec f.1 x 0 rest [] Hf Hx) as [_ ->].
  destruct (my_strncmp_spec x f.1 0 [] rest Hx Hf) as [_ ->].
  assert (forall o, (sign_of o =? 0) = match o with Eq => true | _ => false end) as Hs by (by intros []).
  eexists. split; [done|]. rewrite Hs. split; [|eexists; split; [done|]; rewrite Hs]; symmetry.
  - destruct (string_order f.1 x) eqn:E; [rewrite string_order_eq in E by done; by rewrite bool_decide_eq_true_2|..];
      apply bool_decide_eq_false_2; intros H%string_order_eq; congruence || done.
  - destruct (string_order x f.1) eqn:E; [rewrite string_order_eq in E by done; by rewrite bool_decide_eq_true_2|..];
      apply bool_decide_eq_false_2; intros H%eq_sym%string_order_eq; congruence || done.
Qed.

(** * What is found for Intel and AMD *)

Definition step_entry_x86 (w : Z) (is_first_entry : bool) (f : list Z * list Z) (e : CpuInfoEntry) : CpuInfoEntry :=
  if negb is_first_entry && found e then e
  else if bool_decide (f.1 = info_name e)
  then match number_in w f.2 with Some n => Entry (info_name e) (i32 n) true | None => e end
  else e.

Lemma try_entry_spec w p f b e : holds p f -> nonzero f.1 -> nonzero (info_name e) ->
  try_entry w p b e = Ret (step_entry_x86 w b f e).
Proof.
  intros Hp Hf He. unfold try_entry, step_entry_x86. destruct (negb b && found e); [done|].
  destruct (strcmp_field (info_name e) [] p f Hp He Hf) as (c & -> & Hc & _). rewrite bind_Ret, Hc.
  destruct (bool_decide (f.1 = info_name e)); [|done]. cbn [negb]. unfold GetValueAndLen.
  destruct Hp as (_ & (rest & ->) & ->). destruct (Nat.eqb_spec (length f.2) 0) as [E|_].
  - by destruct f.2.
  - destruct (read_number w f.2 rest) as (n & rest' & -> & -> & E). rewrite bind_Ret, E. by destruct (number_in w f.2).
Qed.

Lemma try_entries_spec w p f : holds p f -> nonzero f.1 -> forall table b, Forall (fun e => nonzero (info_name e)) table ->
  try_entries w p b table = Ret (match table with [] => [] | e :: t => step_entry_x86 w b f e :: map (step_entry_x86 w false f) t end).
Proof.
  intros Hp Hf. induction table as [|e table IH]; intros b Ht; [done|]. inversion_clear Ht. cbn [try_entries].
  rewrite (try_entry_spec w p f), bind_Ret, IH, bind_Ret by done. by destruct table.
Qed.

Definition copy_vendor (vendor_id : list Z) (f : list Z * list Z) : list Z :=
  if bool_decide (f.1 = literal "vendor_id") && negb (bool_decide (f.2 = []))
  then take 12 f.2 ++ 0 :: drop (S (length (take 12 f.2))) vendor_id else vendor_id.

Definition step_x86 (w : Z) (s : list CpuInfoEntry * list Z) (f : list Z * list Z) : list CpuInfoEntry * list Z :=
  (match s.1 with [] => [] | e :: t => step_entry_x86 w true f e :: map (step_entry_x86 w false f) t end, copy_vendor s.2 f).

Definition x86_state_ok (s : list CpuInfoEntry * list Z) : Prop := Forall (fun e => nonzero (info_name e)) s.1 /\ length s.2 = 13%nat.

Lemma step_entry_name w b f e : info_name (step_entry_x86 w b f e) = info_name e.
Proof. unfold step_entry_x86. destruct (_ && _); [done|]. destruct (bool_decide _); [|done]. by destruct (number_in _ _). Qed.

Lemma literal_nonzero s : forallb (fun c => negb (c =? 0)) (literal s) = true -> nonzero (literal s).
Proof. intros H. apply Forall_forall. intros c Hc. rewrite forallb_forall in H. apply list_elem_of_In, H in Hc. by destruct (Z.eqb_spec c 0). Qed.

Lemma x86_field_spec w s p f : x86_state_ok s -> nonzero f.1 -> nonzero f.2 -> holds p f ->
  x86_field w s p = Ret (step_x86 w s f) /\ x86_state_ok (step_x86 w s f).
Proof.
  destruct s as [table vendor]. intros [Ht Hv] Hf Hf2 Hp. cbn [fst snd] in *. split.
  - unfold x86_field, step_x86, copy_vendor. rewrite (try_entries_spec w p f), bind_Ret by done.
    destruct (strcmp_field (literal "vendor_id") [] p f Hp ltac:(by apply literal_nonzero) Hf) as (c & -> & Hc & _).
    rewrite bind_Ret, Hc. cbn [fst snd]. destruct (bool_decide (f.1 = literal "vendor_id")); [|done]. cbn [negb andb].
    unfold GetValueAndLen. destruct Hp as (_ & (rest & ->) & ->). destruct f.2 as [|c0 v]; [done|].
    cbn [length Nat.ltb Nat.leb]. rewrite my_strlcpy_spec, bind_Ret by (done || lia). done.
  - split; cbn [step_x86 fst snd].
    + destruct table as [|e t]; [done|]. inversion_clear Ht. constructor; [by rewrite step_entry_name|].
      apply Forall_map. eapply Forall_impl; [eassumption|]. intros e' He'. by rewrite step_entry_name.
    + unfold copy_vendor. destruct (_ && _); [|done]. rewrite length_app, length_take. cbn [length]. rewrite length_drop. lia.
Qed.

(** The numbers of the fields with one name. *)
Definition numbers (w : Z) (name : list Z) (fs : list (list Z * list Z)) : list Z :=
  omap (fun f => if bool_decide (f.1 = name) then number_in w f.2 else None) fs.

Lemma numbers_cons w name f fs : numbers w name (f :: fs)
  = match (if bool_decide (f.1 = name) then number_in w f.2 else None) with Some n => n :: numbers w name fs | None => numbers w name fs end.
Proof. done. Qed.

Lemma fold_first_entry w fs : forall e, fold_left (fun e f => step_entry_x86 w true f e) fs e
  = match last (numbers w (info_name e) fs) with Some n => Entry (info_name e) (i32 n) true | None => e end.
Proof.
  induction fs as [|f fs IH]; intros e; [done|]. cbn [fold_left]. rewrite IH, step_entry_name, numbers_cons.
  unfold step_entry_x86. cbn [negb andb]. destruct (bool_decide (f.1 = info_name e)); [|done]. destruct (number_in w f.2); [|done].
  rewrite last_cons. cbn [info_name]. by destruct (last (numbers w (info_name e) fs)).
Qed.

Lemma fold_other_entry w fs : forall e, fold_left (fun e f => step_entry_x86 w false f e) fs e
  = if found e then e else match head (numbers w (info_name e) fs) with Some n => Entry (info_name e) (i32 n) true | None => e end.
Proof.
  induction fs as [|f fs IH]; intros e; cbn [fold_left]; [by destruct (found e)|]. rewrite IH, step_entry_name, numbers_cons.
  unfold step_entry_x86. cbn [negb andb]. destruct (found e) eqn:E; [by rewrite E|].
  destruct (bool_decide (f.1 = info_name e)); [|by rewrite E]. by destruct (number_in w f.2); [|rewrite E].
Qed.

Lemma fold_step_x86 w fs : forall e1 e2 e3 e4 v, fold_left (step_x86 w) fs ([e1; e2; e3; e4], v)
  = ([fold_left (fun e f => step_entry_x86 w true f e) fs e1; fold_left (fun e f => step_entry_x86 w false f e) fs e2;
      fold_left (fun e f => step_entry_x86 w false f e) fs e3; fold_left (fun e f => step_entry_x86 w false f e) fs e4],
     fold_left copy_vendor fs v).
Proof. induction fs as [|f fs IH]; intros; [done|]. cbn [fold_left]. unfold step_x86 at 2. cbn [fst snd map]. apply IH. Qed.

Definition fields_of (text : list Z) : list (list Z * list Z) := omap field_of (lines text).

Definition vendor_of (fs : list (list Z * list Z)) : list Z := fold_left copy_vendor fs (replicate 13 0).

Definition with_vendor (v cpu : list Z) : list Z := if hd 0 v =? 0 then cpu else take 12 v ++ drop 12 cpu.

Lemma length_vendor fs : length (vendor_of fs) = 13%nat.
Proof.
  unfold vendor_of. assert (forall v, length v = 13%nat -> length (fold_left copy_vendor fs v) = 13%nat) as H; [|by apply H].
  induction fs as [|f fs IH]; intros v Hv; [done|]. cbn [fold_left]. apply IH. unfold copy_vendor. destruct (_ && _); [|done].
  rewrite length_app, length_take. cbn [length]. rewrite length_drop. lia.
Qed.

Lemma each_field_text {S} (body : S -> cpuinfo_reader -> res S) step inv s text buf reads :
  (forall s p f, inv s -> nonzero f.1 -> nonzero f.2 -> holds p f -> body s p = Ret (step s f) /\ inv (step s f)) -> inv s ->
  length buf = kMaxLineLen -> Forall (fun k => k <> None) reads -> fits text ->
  let r := new_line_reader buf text reads in
  each_field (length (pending r) + 2) body s (new_cpuinfo_reader r) = Ret (fold_left step (fields_of text) s).
Proof.
  intros Hbody Hs Hbuf Hreads Hfit r.
  assert (pending r = text) as Ep by done. rewrite Ep. apply (each_field_spec body step inv Hbody); try done.
  - eexists. split; [done|]. split; [|done]. split; [done|]. split; [cbn; lens|]. done.
  - apply lines_no_eol. constructor.
  - assert (forall t line, (length (lines_from line t) <= length t + 1)%nat) as H; [|specialize (H text []); unfold lines; lia].
    induction t as [|c t IH]; intros line; cbn [lines_from length]; [destruct line; cbn; lia|].
    destruct (is_eol c); cbn [length]; [specialize (IH [])|specialize (IH (line ++ [c]))]; lia.
Qed.

(** On Intel and AMD, /proc/cpuinfo gives the number of processors, which is
    one more than the last number of a field "processor", modulo 256; the
    family and the model with the stepping, the first of each; and the vendor.
    When one of the four numbers is missing only the architecture is set. *)
Theorem x86_cpu_information a si text buf reads : length buf = kMaxLineLen -> Forall (fun k => k <> None) reads -> fits text ->
  (12 <= length (cpu si))%nat ->
  let fs := fields_of text in
  let first name := head (numbers (width a) (literal name) fs) in
  WriteCPUInformation_x86 a si (Some (new_line_reader buf text reads))
  = Ret match last (numbers (width a) (literal "processor") fs), first "model", first "stepping", first "cpu family" with
        | Some n, Some model, Some stepping, Some family =>
            (true, SystemInfo (processor_architecture (set_architecture si a)) (u16 (i32 family)) (u16 (Z.lor (Z.shiftl (i32 model) 8) (i32 stepping)))
                     (u8 (i32 (i32 n + 1))) (platform_id si) (csd_version_rva si) (with_vendor (vendor_of fs) (cpu si)))
        | _, _, _, _ => (false, set_architecture si a)
        end.
Proof.
  intros Hbuf Hreads Hfit Hcpu fs first. unfold WriteCPUInformation_x86.
  rewrite (each_field_text _ (step_x86 (width a)) x86_state_ok) by (apply x86_field_spec || done || (split; [do 4 (constructor; [by apply literal_nonzero|]); constructor|done])).
  rewrite bind_Ret. unfold cpu_info_table. rewrite fold_step_x86, fold_first_entry, !fold_other_entry. cbn [found info_name]. fold fs.
  change (fold_left copy_vendor fs (replicate 13 0)) with (vendor_of fs). unfold first.
  destruct (last _) as [n|]; [|done]. destruct (head (numbers _ (literal "model") _)) as [m|]; [|done].
  destruct (head (numbers _ (literal "stepping") _)) as [st|]; [|done]. destruct (head (numbers _ (literal "cpu family") _)) as [fa|]; [|done].
  unfold fill_x86. cbn [forallb found andb negb map value]. pose proof (length_vendor fs) as Hv. unfold with_vendor.
  destruct (vendor_of fs) as [|c v]; [done|]. cbn [hd]. destruct (c =? 0); [done|]. cbn [negb].
  rewrite load_in_bounds, bind_Ret by lia. cbn [set_architecture cpu]. rewrite drop_0, store_in_bounds by (rewrite length_take; lia). rewrite bind_Ret.
  rewrite length_take, Hv, take_0, app_nil_l. done.
Qed.

(** * What is found for ARM *)

Definition is_hex (c : Z) : bool := match hex_digit c with Some _ => true | None => false end.

Definition hex_in (w : Z) (v : list Z) : option Z :=
  match leading is_hex v with
  | [] => None
  | ds => Some (fold_left (fun r c => wrap w (wrap w (Z.shiftl r 4) + default 0 (hex_digit c))) ds 0)
  end.

Lemma read_hex_leading w v rest : forall r, read_hex_loop w r (v ++ 0 :: rest)
  = Ret (fold_left (fun r c => wrap w (wrap w (Z.shiftl r 4) + default 0 (hex_digit c))) (leading is_hex v) r,
         drop (length (leading is_hex v)) (v ++ 0 :: rest)).
Proof.
  unfold is_hex. induction v as [|c v IH]; intros r; cbn [app leading]; [done|]. cbn [read_hex_loop]. destruct (hex_digit c) as [d|] eqn:E; [|done].
  rewrite IH. cbn [fold_left length drop]. by rewrite E.
Qed.

Lemma read_hex w v rest : exists n rest', my_read_hex_ptr w (v ++ 0 :: rest) = Ret (n, rest')
  /\ n = default 0 (hex_in w v) /\ (length rest' <= length (v ++ 0%Z :: rest))%nat
  /\ (length rest' =? length (v ++ 0%Z :: rest))%nat = match hex_in w v with Some _ => false | None => true end.
Proof.
  unfold my_read_hex_ptr. rewrite read_hex_leading. eexists _, _. split; [done|]. unfold hex_in.
  destruct (leading_app is_hex v) as (t & E). apply (f_equal length) in E. rewrite length_app in E.
  rewrite length_drop, length_app. destruct (leading is_hex v) as [|c ds]; cbn [length fold_left default] in *.
  - split; [done|]. rewrite Nat.sub_0_r. split; [done|]. apply Nat.eqb_refl.
  - split; [done|]. split; [lia|]. apply Nat.eqb_neq. lia.
Qed.

(** The number of an identifier: in hexadecimal after 0x, or as the entry has it. *)
Definition id_number (w format : Z) (v : list Z) : option Z :=
  if bool_decide (take 2 v = [0x30; 0x78]) then Some (default 0 (hex_in w (drop 2 v)))
  else if format =? 0x78 then hex_in w v else number_in w v.

Definition id_step (w : Z) (f : list Z * list Z) (cpuid : Z) (e : CpuIdEntry) : Z :=
  if bool_decide (f.1 = id_field e) then
    match id_number w (id_format e) f.2 with
    | Some n => Z.lor cpuid (u32 (wrap w (Z.shiftl (Z.land n (Z.shiftl 1 (bit_length e) - 1)) (bit_lshift e))))
    | None => cpuid
    end
  else cpuid.

Lemma id_entry_spec w p f cpuid e : holds p f -> nonzero f.1 -> nonzero (id_field e) -> id_entry w p cpuid e = Ret (id_step w f cpuid e).
Proof.
  intros Hp Hf He. unfold id_entry, id_step. destruct (strcmp_field (id_field e) [] p f Hp He Hf) as (_ & _ & _ & c & -> & Hc).
  rewrite bind_Ret, Hc. destruct (bool_decide (f.1 = id_field e)); [|done]. cbn [negb]. destruct Hp as (_ & (rest & ->) & _).
  unfold id_number. set (v := f.2).
  assert (exists n rest', (if id_format e =? 0x78 then my_read_hex_ptr w (v ++ 0 :: rest) else my_read_decimal_ptr w (v ++ 0 :: rest)) = Ret (n, rest')
    /\ n = default 0 (if id_format e =? 0x78 then hex_in w v else number_in w v)
    /\ (length rest' =? length (v ++ 0%Z :: rest))%nat = match (if id_format e =? 0x78 then hex_in w v else number_in w v) with Some _ => false | None => true end)
    as (n & rest' & En & -> & El).
  { destruct (id_format e =? 0x78); [destruct (read_hex w v rest) as (n & r & ? & ? & _ & ?)|destruct (read_number w v rest) as (n & r & ? & ? & ?)]; eauto. }
  assert (forall b : bool, b = false -> bool_decide (take 2 v = [0x30; 0x78]) = b ->
    ('(result, rest0) ← (if b then my_read_hex_ptr w (drop 2 (v ++ 0 :: rest)) else if id_format e =? 0x78 then my_read_hex_ptr w (v ++ 0 :: rest) else my_read_decimal_ptr w (v ++ 0 :: rest));
     if (length rest0 =? length (v ++ 0%Z :: rest))%nat then Ret cpuid
     else Ret (Z.lor cpuid (u32 (wrap w (Z.shiftl (Z.land result (Z.shiftl 1 (bit_length e) - 1)) (bit_lshift e))))))
    = Ret (match (if bool_decide (take 2 v = [0x30; 0x78]) then Some (default 0 (hex_in w (drop 2 v))) else if id_format e =? 0x78 then hex_in w v else number_in w v) with
           | Some n => Z.lor cpuid (u32 (wrap w (Z.shiftl (Z.land n (Z.shiftl 1 (bit_length e) - 1)) (bit_lshift e)))) | None => cpuid end)) as Hplain.
  { intros b -> ->. rewrite En, bind_Ret, El. by destruct (if id_format e =? 0x78 then hex_in w v else number_in w v). }
  destruct v as [|c0 v']; [apply (Hplain false); done|]. cbn [app lookup list_lookup get_or_oob]. rewrite bind_Ret.
  destruct (Z.eqb_spec c0 0x30) as [->|N0]; [|rewrite bind_Ret; apply (Hplain false); [done|]; apply bool_decide_eq_false_2; intros E; destruct v'; by injection E].
  destruct v' as [|c1 v']; [cbn [app lookup list_lookup get_or_oob]; rewrite bind_Ret; apply (Hplain false); done|].
  cbn [app lookup list_lookup get_or_oob]. rewrite bind_Ret. cbn [andb Z.eqb Pos.eqb].
  destruct (Z.eqb_spec c1 0x78) as [->|N1]; [|apply (Hplain false); [done|]; apply bool_decide_eq_false_2; intros E; by injection E].
  clear Hplain En El. rewrite bool_decide_eq_true_2 by (cbn; by rewrite take_0). cbn [drop]. rewrite drop_0.
  destruct (read_hex w v' rest) as (n' & r' & -> & -> & Hl & _). rewrite bind_Ret.
  destruct (Nat.eqb_spec (length r') (length (0x30%Z :: 0x78%Z :: v' ++ 0%Z :: rest))) as [E|_]; [cbn in E; lia|]. by rewrite drop_0.
Qed.

Lemma id_entries_spec w p f entries : holds p f -> nonzero f.1 -> Forall (fun e => nonzero (id_field e)) entries -> forall cpuid,
  id_entries w p cpuid entries = Ret (fold_left (id_step w f) entries cpuid).
Proof.
  intros Hp Hf He. induction He as [|e entries He _ IH]; intros cpuid; [done|]. cbn [id_entries fold_left].
  by rewrite (id_entry_spec w p f), bind_Ret.
Qed.

(** One more than the index of the last parenthesis among the first [n]
    characters, 0 without one. *)
Fixpoint paren_pos (v : list Z) (n : nat) : nat :=
  match n with O => O | S n' => if nth n' v 0 =? 0x28 then n else paren_pos v n' end.

(** The version between the last parenthesis and a letter v, as in
    "ARMv7 Processor rev 2 (v7l)". *)
Definition version_of (w : Z) (v : list Z) (level : Z) : Z :=
  let nn := paren_pos v (length (drop_spaces (rev v))) in
  match nn, drop nn v with
  | S _, 0x76 :: t => u16 (default 0 (number_in w t))
  | _, _ => level
  end.

Lemma find_paren_spec v rest n : (n <= length v)%nat -> find_paren (v ++ rest) n = Ret (paren_pos v n) /\ (paren_pos v n <= n)%nat.
Proof.
  induction n as [|n IH]; intros Hn; [done|]. cbn [find_paren paren_pos].
  rewrite lookup_app_l by lia. destruct (lookup_lt_is_Some_2 v n ltac:(lia)) as [c Ec].
  rewrite Ec, (nth_lookup_Some _ _ _ _ Ec). cbn [get_or_oob]. rewrite bind_Ret. destruct (c =? 0x28); [done|].
  destruct IH as [-> ?]; [lia|]. split; [done|lia].
Qed.

Lemma processor_field_spec w p f level : holds p f -> processor_field w p level = Ret (version_of w f.2 level).
Proof.
  intros (_ & (rest & Ev) & El). unfold processor_field, GetValueAndLen, version_of. rewrite Ev, El. set (v := f.2).
  pose proof (trim_spaces_spec (rev v) [] (0 :: rest)) as Ht. rewrite rev_involutive, length_rev in Ht. cbn [app length Nat.add] in Ht.
  rewrite Ht, bind_Ret. destruct (drop_spaces_app (rev v)) as (k & E & _). apply (f_equal length) in E. rewrite length_app, length_rev in E.
  destruct (find_paren_spec v (0 :: rest) (length (drop_spaces (rev v)))) as [-> Hp]; [lia|]. rewrite bind_Ret.
  set (nn := paren_pos _ _) in *. clearbody nn. destruct nn as [|n]; [done|]. change (0 <? S n)%nat with true. cbn iota.
  destruct (decide (S n < length v)%nat) as [Hlt|Hge].
  - destruct (lookup_lt_is_Some_2 v (S n) Hlt) as [c Ec]. rewrite lookup_app_l, Ec by done. cbn [get_or_oob]. rewrite bind_Ret.
    rewrite (drop_S _ _ _ Ec). destruct (Z.eqb_spec c 0x76) as [->|Nc].
    + rewrite Nat.add_1_r, drop_app_le by lia. destruct (read_number w (drop (S (S n)) v) rest) as (x & r' & -> & -> & _). by rewrite bind_Ret.
    + destruct c as [|c|c]; try done. do 7 (destruct c as [c|c|]; try done).
  - rewrite lookup_app_r by lia. replace (S n - length v)%nat with 0%nat by lia. cbn [lookup list_lookup get_or_oob]. rewrite bind_Ret.
    by rewrite (drop_ge v) by lia.
Qed.

(** The tags of a text: what spaces separate; nothing after a last space. *)
Fixpoint tags_from (tag v : list Z) : list (list Z) :=
  match v with
  | [] => [tag]
  | c :: t => if c =? 0x20 then tag :: match t with [] => [] | _ => tags_from [] t end else tags_from (tag ++ [c]) t
  end.

Definition tags (v : list Z) : list (list Z) := match v with [] => [] | _ => tags_from [] v end.

Definition add_tag (entries : list (list Z * Z)) (hwcaps : Z) (tag : list Z) : Z := Z.lor hwcaps (tag_hwcaps entries tag).

Lemma tags_from_no_space s : forall tag t, Forall (fun c => c <> 0x20) s -> tags_from tag (s ++ t) = tags_from (tag ++ s) t.
Proof.
  induction s as [|c s IH]; intros tag t Hs; [by rewrite app_nil_r|]. inversion_clear Hs. cbn [app tags_from].
  destruct (Z.eqb_spec c 0x20); [done|]. rewrite IH, <- app_assoc by done. done.
Qed.

Lemma split_space v : Forall (fun c => c <> 0x20) v \/ exists s t, v = s ++ 0x20 :: t /\ Forall (fun c => c <> 0x20) s.
Proof.
  induction v as [|c v IH]; [by left|]. destruct (Z.eqb_spec c 0x20) as [->|Hc]; [right; by exists [], v|].
  destruct IH as [H|(s & t & -> & H)]; [left; by constructor|right]. exists (c :: s), t. split; [done|by constructor].
Qed.

Lemma strchr_found s n t : nonzero s -> n <> 0 -> Forall (fun c => c <> n) s -> my_strchr (s ++ n :: t) n = Ret (Some (length s)).
Proof.
  intros Hs Hn Hns. induction s as [|c s IH]; cbn [app my_strchr].
  - rewrite Z.eqb_refl. by rewrite orb_true_r.
  - inversion_clear Hs. inversion_clear Hns. destruct (Z.eqb_spec c 0); [done|]. destruct (Z.eqb_spec c n); [done|]. cbn [orb]. by rewrite IH.
Qed.

Lemma strchr_none s n t : nonzero s -> n <> 0 -> Forall (fun c => c <> n) s -> my_strchr (s ++ 0 :: t) n = Ret None.
Proof.
  intros Hs Hn Hns. induction s as [|c s IH]; cbn [app my_strchr].
  - destruct (Z.eqb_spec 0 n); [by subst|done].
  - inversion_clear Hs. inversion_clear Hns. destruct (Z.eqb_spec c 0); [done|]. destruct (Z.eqb_spec c n); [done|]. cbn [orb]. by rewrite IH.
Qed.

Lemma features_spec entries fuel : forall v rest hwcaps, nonzero v -> (length v < fuel)%nat ->
  features fuel entries (v ++ 0 :: rest) (length v) hwcaps = Ret (fold_left (add_tag entries) (tags v) hwcaps).
Proof.
  induction fuel as [|fuel IH]; intros v rest hwcaps Hv Hf; [lia|]. cbn [features].
  destruct (Nat.eqb_spec (length v) 0) as [E|Hne]; [by destruct v|].
  destruct (split_space v) as [Hns|(s & t & -> & Hs)].
  - rewrite strchr_none, bind_Ret, my_strlen_spec, bind_Ret by done. rewrite load_in_bounds, bind_Ret by (rewrite length_app; lia).
    rewrite drop_0, take_app_length. destruct fuel as [|fuel]; [lia|]. cbn [features].
    unfold tags. destruct v as [|c v]; [done|]. rewrite <- (app_nil_r (c :: v)) at 3. rewrite tags_from_no_space by done. done.
  - apply Forall_app in Hv as [Hsv Htv]. inversion_clear Htv as [|? ? _ Ht]. rewrite <- app_assoc. cbn [app].
    rewrite strchr_found, bind_Ret, bind_Ret by done. rewrite load_in_bounds, bind_Ret by (rewrite length_app; lia).
    rewrite drop_0, take_app_length. rewrite drop_app_add. cbn [drop]. rewrite drop_0.
    assert (length (s ++ 0x20%Z :: t) - (length s + 1) = length t)%nat as -> by (rewrite length_app; cbn; lia).
    rewrite IH by (done || (rewrite length_app in Hf; cbn in Hf; lia)).
    assert (tags (s ++ 0x20 :: t) = s :: tags t) as ->; [|done].
    unfold tags at 1. assert (exists c l, s ++ 0x20 :: t = c :: l) as (c & l & E) by (destruct s; cbn; eauto). rewrite E, <- E.
    rewrite tags_from_no_space by done. cbn. by destruct t.
Qed.

(** One field, as a function of its name and value. *)
Definition step_arm (a : architecture) (s : arm_info) (f : list Z * list Z) : arm_info :=
  let w := width a in
  ArmInfo (fold_left (id_step w f) cpu_id_entries (cpuid s))
    (if bool_decide (f.1 = literal "Features") then fold_left (add_tag (cpu_features_entries a)) (tags f.2) (elf_hwcaps s) else elf_hwcaps s)
    match a with
    | ARM => if bool_decide (f.1 = literal "Processor") then version_of w f.2 (level s) else level s
    | _ => if bool_decide (f.1 = literal "CPU architecture") then match number_in w f.2 with Some n => u16 n | None => level s end else level s
    end.

Lemma arm_field_spec a s p f : nonzero f.1 -> nonzero f.2 -> holds p f -> arm_field a s p = Ret (step_arm a s f).
Proof.
  intros Hf Hf2 Hp. unfold arm_field, step_arm.
  rewrite (id_entries_spec _ p f), bind_Ret by (done || (do 4 (constructor; [by apply literal_nonzero|]); constructor)).
  destruct (strcmp_field (literal "Processor") [] p f Hp ltac:(by apply literal_nonzero) Hf) as (c1 & E1 & H1 & _).
  destruct (strcmp_field (literal "CPU architecture") [] p f Hp ltac:(by apply literal_nonzero) Hf) as (c2 & E2 & H2 & _).
  destruct (strcmp_field (literal "Features") [] p f Hp ltac:(by apply literal_nonzero) Hf) as (c3 & E3 & H3 & _).
  rewrite E1, E2, E3, !bind_Ret, (processor_field_spec _ p f) by done.
  destruct Hp as (_ & (rest & Ev) & El). unfold GetValueAndLen. rewrite Ev, El, features_spec by (done || lia).
  destruct (read_number (width a) f.2 rest) as (n & rest' & -> & -> & E). rewrite !bind_Ret, H1, H2, E.
  assert (forall (b : bool) (x y : Z), (if b then Ret x else Ret y) = Ret (if b then x else y)) as Hif by (by intros []).
  rewrite !Hif. destruct a; rewrite !bind_Ret, H3, Hif, bind_Ret; try done; by destruct (number_in _ f.2).
Qed.

(** Whether a processor is in both lists. *)
Definition in_both (present possible : list (Z * Z)) (i : Z) : bool := in_items present i && in_items possible i.

Lemma count_cpus_spec w range_fuel buffer present possible :
  present <> [] -> possible <> [] -> Forall (item_ok w range_fuel) present -> Forall (item_ok w range_fuel) possible ->
  length buffer = 512%nat -> (length (cpu_text present) <= 511)%nat -> (length (cpu_text possible) <= 511)%nat ->
  count_cpus range_fuel w buffer (Some (Some (cpu_text present))) (Some (Some (cpu_text possible)))
  = Ret (Z.min 255 (cpu_count (in_both present possible) 0 kMaxCpus)).
Proof.
  intros Hne1 Hne2 H1 H2 Hb Hl1 Hl2. unfold count_cpus.
  destruct (ParseSysFile_spec w range_fuel buffer present new_cpu_set Hne1 H1 new_cpu_set_ok Hb Hl1) as (m1 & -> & Hm1 & B1).
  destruct (ParseSysFile_spec w range_fuel buffer possible new_cpu_set Hne2 H2 new_cpu_set_ok Hb Hl2) as (m2 & -> & Hm2 & B2).
  rewrite !bind_Ret. destruct (IntersectWith_ok m1 m2 Hm1 Hm2) as [[Hl _] Hi]. rewrite GetCount_spec by done.
  rewrite (cpu_count_ext _ (in_both present possible)).
  2:{ intros i Hr. rewrite Hi, B1, B2, !has_new_cpu_set. cbn [orb]. destruct (Z.ltb_spec i kMaxCpus); [by rewrite !andb_true_r|lia]. }
  assert (0 <= cpu_count (in_both present possible) 0 kMaxCpus) as Hpos.
  { unfold cpu_count. induction (seqZ 0 kMaxCpus) as [|i l IH]; cbn [foldr]; [lia|]. destruct (in_both present possible i); cbn [Z.b2z]; lia. }
  set (n := cpu_count _ _ _) in *. f_equal. destruct (Z.ltb_spec 255 n); [by rewrite Z.min_l by lia|].
  rewrite Z.min_r by lia. apply wrap_small. split; lia.
Qed.

(** On ARM, whatever /proc/cpuinfo holds, the processors are those present and
    possible, at most 255; the identifier, the capabilities and the version of
    the architecture are those of the fields, one after the other. *)
Theorem arm_cpu_information range_fuel a si buffer present possible text buf reads :
  present <> [] -> possible <> [] -> Forall (item_ok (width a) range_fuel) present -> Forall (item_ok (width a) range_fuel) possible ->
  length buffer = 512%nat -> (length (cpu_text present) <= 511)%nat -> (length (cpu_text possible) <= 511)%nat ->
  length buf = kMaxLineLen -> Forall (fun k => k <> None) reads -> fits text ->
  let info := fold_left (step_arm a) (fields_of text) (ArmInfo 0 0 1) in
  WriteCPUInformation_arm range_fuel a si buffer (Some (Some (cpu_text present))) (Some (Some (cpu_text possible)))
    (Some (new_line_reader buf text reads))
  = Ret (true, SystemInfo (processor_architecture (set_architecture si a)) (level info) 42
                 (Z.min 255 (cpu_count (in_both present possible) 0 kMaxCpus)) (platform_id si) (csd_version_rva si) (arm_cpu info (cpu si))).
Proof.
  intros ? ? ? ? ? ? ? ? ? ? info. unfold WriteCPUInformation_arm. rewrite count_cpus_spec, bind_Ret by done.
  rewrite (each_field_text _ (step_arm a) (fun _ => True)) by (done || (intros; split; [by apply arm_field_spec|done])).
  done.
Qed.

(** * The text of the operating system *)

(** The strings that are not empty, with spaces between them, as long as they
    fit; [text] is what there is. *)
Fixpoint os_join (items : list (list Z)) (text : list Z) : list Z :=
  match items with
  | [] => text
  | s :: items =>
      match s with
      | [] => os_join items text
      | _ =>
          let longer := match text with [] => s | _ => text ++ 0x20 :: s end in
          if (buf_len - 1 <? length longer)%nat then text else os_join items longer
      end
  end.

Definition c_string (mem s : list Z) : Prop := nonzero s /\ exists rest, mem = s ++ 0 :: rest.

(** The buffer with a text in it. *)
Definition text_buf (text : list Z) : list Z := text ++ replicate (buf_len - length text) 0.

Lemma strlcat_text text s mem : nonzero text -> c_string mem s -> (length text + length s < buf_len)%nat ->
  exists n, my_strlcat (text_buf text) mem buf_len = Ret (text_buf (text ++ s), n).
Proof.
  intros Ht (Hs & rest & ->) Hl. unfold text_buf. destruct (buf_len - length text)%nat as [|n] eqn:En; [lia|]. cbn [replicate].
  rewrite my_strlcat_spec by (done || (rewrite length_replicate; lia)). eexists. do 2 f_equal.
  rewrite take_ge by lia. rewrite <- app_assoc, length_app. f_equal. f_equal. rewrite drop_replicate.
  replace (buf_len - (length text + length s))%nat with (S (n - length s)) by lia. done.
Qed.

Lemma os_items_spec mems items : Forall2 c_string mems items -> forall text, nonzero text -> (length text < buf_len)%nat ->
  os_items mems (text_buf text) (buf_len - 1 - length text) (bool_decide (text = [])) = Ret (text_buf (os_join items text))
  /\ nonzero (os_join items text) /\ (length (os_join items text) < buf_len)%nat.
Proof.
  induction 1 as [|mem s mems items Hc _ IH]; intros text Ht Hl; [done|]. cbn [os_items os_join]. pose proof Hc as (Hs & rest & Em).
  rewrite Em at 1. rewrite my_strlen_spec, bind_Ret by done. destruct (Nat.eqb_spec (length s) 0) as [Ez|Nz]; [destruct s; [by apply IH|done]|].
  destruct s as [|c0 s0]; [done|]. set (s := c0 :: s0) in *.
  set (longer := match text with [] => s | _ => _ end).
  assert (length longer = length text + length s + (if bool_decide (text = []) then 0 else 1))%nat as El.
  { unfold longer. destruct text as [|t0 t]; [cbn; lia|]. rewrite length_app. cbn. lia. }
  assert (nonzero longer) as Hn.
  { unfold longer. destruct text as [|t0 t]; [done|]. apply Forall_app. split; [done|by constructor]. }
  assert ((buf_len - 1 - length text <? length s + (if bool_decide (text = []) then 0 else 1))%nat = (buf_len - 1 <? length longer)%nat) as ->.
  { rewrite El. destruct (Nat.ltb_spec (buf_len - 1 - length text) (length s + (if bool_decide (text = []) then 0 else 1))),
      (Nat.ltb_spec (buf_len - 1) (length text + length s + (if bool_decide (text = []) then 0 else 1))); lia || done. }
  destruct (Nat.ltb_spec (buf_len - 1) (length longer)) as [_|Hfit]; [done|].
  destruct (IH longer Hn ltac:(unfold buf_len in *; lia)) as (E & H). split; [|done].
  assert (longer <> []) as Hne by (unfold longer; destruct text; [done|by destruct text]). rewrite bool_decide_eq_false_2 in E by done.
  unfold longer in E |- *. destruct text as [|t0 t].
  - change (bool_decide ([] = [])) with true. cbn match. rewrite bind_Ret. destruct (strlcat_text [] s mem) as (n & ->); [done|done|change longer with s in Hfit; cbn [length] in *; unfold buf_len in *; lia|].
    rewrite bind_Ret. cbn [app length] in *. by rewrite Nat.sub_0_r.
  - rewrite bool_decide_eq_false_2 by done. destruct (strlcat_text (t0 :: t) [0x20] [0x20; 0]) as (n & ->);
      [done|split; [by constructor|by exists []]|rewrite bool_decide_eq_false_2 in El by done; cbn [length] in *; unfold buf_len in *; lia|]. rewrite !bind_Ret.
    destruct (strlcat_text ((t0 :: t) ++ [0x20]) s mem) as (n' & ->); [apply Forall_app; split; [done|by constructor]|done| |];
      rewrite bool_decide_eq_false_2 in El by done.
    { rewrite length_app. cbn [length] in *. unfold buf_len in *. lia. }
    rewrite bind_Ret, <- app_assoc. cbn [app] in *. rewrite <- E. f_equal.
    change (length (t0 :: t ++ 0x20 :: s)) with (length longer). rewrite El. cbn [length]. lia.
Qed.

(** * The stream *)

Lemma length_system_info si : length (cpu si) = 24%nat -> length (system_info_bytes si) = 56%nat.
Proof. intros H. unfold system_info_bytes. rewrite !length_app, !length_le_bytes, !length_replicate, H. done. Qed.

(** The union stays 24 bytes. *)
Lemma WriteCPUInformation_length a range_fuel m si b si' : length (cpu si) = 24%nat ->
  WriteCPUInformation a range_fuel m si = Ret (b, si') -> length (cpu si') = 24%nat.
Proof.
  intros Hl. assert (forall r, WriteCPUInformation_x86 a si r = Ret (b, si') -> length (cpu si') = 24%nat) as Hx86.
  { intros [r|] E; [|by injection E as _ <-]. apply bind_Ret_inv in E as ([table vendor] & _ & E). unfold fill_x86 in E.
    destruct (negb _); [by injection E as _ <-|]. destruct (map value table) as [|? [|? [|? [|? [|]]]]]; try (by injection E as _ <-).
    apply bind_Ret_inv in E as (c & Ec & [= _ <-]). cbn [cpu]. destruct vendor as [|c0 v]; [done|].
    destruct (negb (c0 =? 0)); [|by injection Ec as <-]. apply bind_Ret_inv in Ec as (id & _ & Ec). apply store_length in Ec. by rewrite Ec. }
  assert (forall r1 r2 r3 buf, WriteCPUInformation_arm range_fuel a si buf r1 r2 r3 = Ret (b, si') -> length (cpu si') = 24%nat) as Harm.
  { intros r1 r2 r3 buf E. apply bind_Ret_inv in E as (n & _ & E). apply bind_Ret_inv in E as (info & _ & [= _ <-]). cbn [cpu set_architecture].
    unfold arm_cpu. rewrite !length_app, !length_le_bytes, length_drop, Hl. done. }
  unfold WriteCPUInformation. destruct a; eauto.
Qed.

Definition ascii (s : list Z) : Prop := Forall (fun c => 0 < c < 128) s.

Lemma ascii_utf8 s : ascii s -> utf8_of s = s /\ basic s.
Proof.
  intros H. split.
  - induction H as [|c s Hc _ IH]; [done|]. rewrite utf8_of_cons, IH. unfold utf8_encode. destruct (Z.ltb_spec c 0x80); [done|lia].
  - eapply Forall_impl; [exact H|]. intros c Hc. cbn beta in Hc. split; [unfold scalar; lia|lia].
Qed.

Lemma os_join_ascii items : Forall ascii items -> forall text, ascii text -> ascii (os_join items text).
Proof.
  induction 1 as [|s items Hs _ IH]; intros text Ht; [done|]. cbn [os_join]. destruct s as [|c s]; [by apply IH|].
  destruct (_ <? _)%nat; [done|]. apply IH. destruct text; [done|]. apply Forall_app. split; [done|]. constructor; [lia|done].
Qed.

Section StreamProofs.

Context (page_size : Z) (a : architecture).
Hypothesis Hpage : 0 < page_size < 2 ^ 16.

Lemma width_32 : 32 <= width a.
Proof. destruct a; cbn; lia. Qed.

Lemma WriteOSInformation_frame wr si mems strings : writer_ok wr -> size_ wr < 2 ^ 30 ->
  Forall2 c_string mems strings -> Forall ascii strings ->
  exists wr', WriteOSInformation page_size a wr no_workaround si (Some mems) = Ret (true, set_os si MD_OS_ANDROID (position_ wr), wr')
    /\ frame 0 0 wr wr' /\ size_ wr' <= size_ wr + 66572 /\ bytes_at (contents wr') (position_ wr) (md_string (os_join strings []))
    /\ position_ wr + Z.of_nat (length (md_string (os_join strings []))) <= position_ wr'.
Proof.
  intros Hwr Hs Hm Ha. unfold WriteOSInformation.
  destruct (os_items_spec mems strings Hm [] (Forall_nil_2 _) ltac:(cbn; unfold buf_len; lia)) as (E & Hn & Hl).
  cbn [length] in E. rewrite Nat.sub_0_r in E. unfold text_buf in E. cbn [app length] in E. rewrite Nat.sub_0_r in E.
  change (bool_decide ([] = [])) with true in E. rewrite E, bind_Ret.
  destruct (ascii_utf8 (os_join strings [])) as [Eu Hb]; [apply os_join_ascii; [done|apply Forall_nil_2]|]. unfold buf_len in Hl.
  destruct (buf_len - length (os_join strings []))%nat as [|n] eqn:En; [unfold buf_len in En; lia|]. cbn [replicate].
  destruct (WriteString_frame (width a) page_size width_32 Hpage wr (os_join strings []) (replicate n 0) Hwr Hb) as (wr' & Ew & Hfr & Hp & Hsz & Hat);
    [rewrite Eu; change (2 ^ 20) with 1048576; lia|done|]. rewrite length_md_string.
  rewrite Eu in Ew, Hsz, Hp |- *. rewrite Ew, bind_Ret. exists wr'. split; [done|]. split; [done|]. split; [lia|]. split; [done|lia].
Qed.

(** The stream is written after what the file has: the structure with what the
    processors and the system are, and the text of the system at the place
    that the structure names. *)
Theorem system_info_stream range_fuel wr m b si mems strings : writer_ok wr -> size_ wr + 200000 < 2 ^ 30 ->
  WriteCPUInformation a range_fuel m zero_info = Ret (b, si) -> uts m = Some mems -> Forall2 c_string mems strings -> Forall ascii strings ->
  exists wr' rva, WriteSystemInfoStream page_size a range_fuel wr no_workaround m = Ret (Some (MD_SYSTEM_INFO_STREAM, (56, position_ wr)), wr')
    /\ grows 200000 wr wr' /\ position_ wr + 56 <= rva
    /\ stored wr' (position_ wr) (system_info_bytes (set_os si MD_OS_ANDROID rva)) /\ stored wr' rva (md_string (os_join strings [])).
Proof.
  intros Hwr Hs Hcpu Hu Hm Ha. change (2 ^ 30) with 1073741824 in Hs. pose proof width_32 as Hw.
  pose proof (WriteCPUInformation_length a range_fuel m zero_info b si eq_refl Hcpu) as Hlen.
  unfold WriteSystemInfoStream, Typed_Allocate. cbn [chunk data_]. rewrite length_system_info by done.
  destruct (Untyped_Allocate_frame (width a) page_size Hw Hpage wr (new_chunk wr) (Z.of_nat 56) Hwr eq_refl) as (wr1 & -> & F1 & P1 & S1);
    [change (2 ^ 24) with 16777216; lia|change (2 ^ 30) with 1073741824; lia|]. rewrite !bind_Ret. cbn [negb chunk data_ allocation_state_].
  rewrite Hcpu, bind_Ret, Hu.
  destruct (WriteOSInformation_frame wr1 si mems strings) as (wr2 & -> & F2 & S2 & Hat2 & E2); [by eapply frame_ok|change (2 ^ 30) with 1073741824; lia|done|done|].
  rewrite bind_Ret. cbn beta iota.
  assert (writer_ok wr1) as Hwr1 by (by eapply frame_ok). assert (writer_ok wr2) as Hwr2 by (by eapply frame_ok).
  destruct (writer_bounds (width a) Hw wr Hwr) as (B1 & _ & _); [change (2 ^ 30) with 1073741824; lia|].
  assert (position_ wr1 <= position_ wr2) as P2 by apply F2.
  destruct (destructor_frame (width a) Hw wr2 (TypedMDRVA (UntypedMDRVA (position_ wr) (Z.of_nat 56)) (system_info_bytes (set_os si MD_OS_ANDROID (position_ wr1))) SINGLE_OBJECT) Hwr2)
    as (wr3 & -> & F3 & Hat3 & P3 & S3); cbn [chunk data_ allocation_state_ u_position u_size]; rewrite ?length_system_info by done;
    [change (2 ^ 30) with 1073741824; lia|done|lia|lia|lia|].
  cbn [chunk data_ u_position] in F3, Hat3. rewrite length_system_info in F3 by done.
  rewrite bind_Ret. exists wr3, (position_ wr1). split; [done|]. split.
  { split; [|lia]. eapply frame_new; [eapply frame_trans; [apply frame_more, F1|]; eapply frame_trans; [apply frame_more, F2|exact F3]|lia]. }
  split; [lia|]. split; [split; [done|rewrite length_system_info by done; lia]|]. split; [|lia]. eapply bytes_at_frame; [exact F3|exact Hat2|lia|lia].
Qed.

End StreamProofs.
