(* ===== verification/Registers.v ===== *)
(** Registers of a crashed thread: client/linux/dump_writer_common/
    thread_info.cc and ucontext_reader.cc of libbreakpad, for the two ABIs that
    breakpad_build/build.gradle names.

    The registers of a traced thread are the words of the kernel's structure in
    their order: on ARM r0 to r15, the status and the original r0; on ARM64 x0
    to x30, sp, pc and the status. Those of the signal handler's context are the
    members of its mcontext. A context of a minidump is its bytes. *)
From S2P Require Import Prelude.

Inductive abi := armeabi_v7a | arm64_v8a.

#[export] Instance abi_eq_dec : EqDecision abi.
Proof. solve_decision. Defined.

Definition word_bits (a : abi) : Z := match a with armeabi_v7a => 32 | arm64_v8a => 64 end.
Definition word_size (a : abi) : nat := match a with armeabi_v7a => 4 | arm64_v8a => 8 end.

(** The registers for floating point and vectors, 32 of 16 bytes. *)
Record fpsimd := FpSimd { fpsr : Z; fpcr : Z; vregs : list Z }.

Record ThreadInfo := Thread {
  tgid : Z;
  ppid : Z;
  stack_pointer : Z;
  regs : list Z;
  fpregs : fpsimd
}.

(** [arm_r0] to [arm_pc], or [regs] with [sp] and [pc] behind them; and the
    status register. *)
Record mcontext := MContext { m_regs : list Z; m_status : Z }.

Record crash_context := CrashContext_ { uc_mcontext : mcontext; float_state : fpsimd }.

Definition reg (rs : list Z) (i : nat) : Z := nth i rs 0.

(** Indices of the stack pointer and of the program counter. *)
Definition sp_index (a : abi) : nat := match a with armeabi_v7a => 13 | arm64_v8a => 31 end.
Definition pc_index (a : abi) : nat := match a with armeabi_v7a => 15 | arm64_v8a => 32 end.

Section Abi.

Variable a : abi.

Definition GetInstructionPointer (info : ThreadInfo) : Z := reg (regs info) (pc_index a).

Definition UContext_GetStackPointer (uc : crash_context) : Z := reg (m_regs (uc_mcontext uc)) (sp_index a).
Definition UContext_GetInstructionPointer (uc : crash_context) : Z := reg (m_regs (uc_mcontext uc)) (pc_index a).

Definition MD_CONTEXT_ARM_FULL : Z := 0x40000006.
Definition MD_CONTEXT_ARM64_FULL_OLD : Z := 0x80000006.

(** sizeof(RawContextCPU): MDRawContextARM or MDRawContextARM64_Old. *)
Definition sizeof_context : nat := match a with armeabi_v7a => 368 | arm64_v8a => 796 end.

(** MDRawContextARM; the area for floating point stays zero. *)
Definition arm_context (iregs : list Z) (cpsr : Z) : list Z :=
  le_bytes 4 MD_CONTEXT_ARM_FULL ++ concat (map (le_bytes 4) iregs) ++ le_bytes 4 cpsr ++ replicate 296 0.

(** MDRawContextARM64_Old. *)
Definition arm64_context (iregs : list Z) (cpsr : Z) (fp : fpsimd) : list Z :=
  le_bytes 8 MD_CONTEXT_ARM64_FULL_OLD ++ concat (map (le_bytes 8) iregs) ++ le_bytes 4 (u32 cpsr)
  ++ le_bytes 4 (fpsr fp) ++ le_bytes 4 (fpcr fp) ++ vregs fp.

(** ThreadInfo::FillCPUContext, on zeros. *)
Definition ThreadInfo_FillCPUContext (info : ThreadInfo) : list Z :=
  match a with
  | armeabi_v7a => arm_context (map (reg (regs info)) (seq 0 16)) 0
  | arm64_v8a => arm64_context (map (reg (regs info)) (seq 0 33)) (reg (regs info) 33) (fpregs info)
  end.

(** UContextReader::FillCPUContext, on zeros. *)
Definition UContext_FillCPUContext (uc : crash_context) : list Z :=
  let m := uc_mcontext uc in
  match a with
  | armeabi_v7a => arm_context (map (reg (m_regs m)) (seq 0 16)) (m_status m)
  | arm64_v8a => arm64_context (map (reg (m_regs m)) (seq 0 33)) (m_status m) (float_state uc)
  end.

(** Where a context has its general registers, and how many. *)
Definition iregs_offset : nat := match a with armeabi_v7a => 4 | arm64_v8a => 8 end.
Definition iregs_count : nat := match a with armeabi_v7a => 16 | arm64_v8a => 33 end.

(** What the kernel gives. *)
Definition fp_ok (fp : fpsimd) : Prop := length (vregs fp) = 512%nat.
Definition info_ok (info : ThreadInfo) : Prop := fp_ok (fpregs info).
Definition context_ok (uc : crash_context) : Prop := fp_ok (float_state uc).

Lemma length_words k l : length (concat (map (le_bytes k) l)) = (k * length l)%nat.
Proof. induction l as [|x l IH]; cbn [map concat length]; [lia|]. rewrite length_app, length_le_bytes, IH. lia. Qed.

Lemma length_arm_context rs c : length rs = 16%nat -> length (arm_context rs c) = 368%nat.
Proof. intros H. unfold arm_context. rewrite !length_app, !length_le_bytes, length_words, length_replicate, H. done. Qed.

Lemma length_arm64_context rs c fp : length rs = 33%nat -> fp_ok fp -> length (arm64_context rs c fp) = 796%nat.
Proof. intros H Hf. unfold arm64_context. rewrite !length_app, !length_le_bytes, length_words, H, Hf. done. Qed.

Lemma length_thread_context info : info_ok info -> length (ThreadInfo_FillCPUContext info) = sizeof_context.
Proof.
  intros H. unfold ThreadInfo_FillCPUContext, sizeof_context. destruct a; [by apply length_arm_context|by apply length_arm64_context].
Qed.

Lemma length_crash_context uc : context_ok uc -> length (UContext_FillCPUContext uc) = sizeof_context.
Proof.
  intros H. unfold UContext_FillCPUContext, sizeof_context. destruct a; [by apply length_arm_context|by apply length_arm64_context].
Qed.

(** The [i]-th word of some words. *)
Lemma word_at k l i : (i < length l)%nat -> take k (drop (k * i) (concat (map (le_bytes k) l))) = le_bytes k (nth i l 0).
Proof.
  revert i. induction l as [|x l IH]; intros [|i] Hi; cbn in Hi; try lia; cbn [map concat nth].
  - rewrite Nat.mul_0_r, drop_0. apply take_app_length'. by rewrite length_le_bytes.
  - rewrite Nat.mul_succ_r, Nat.add_comm. rewrite drop_app_ge by (rewrite length_le_bytes; lia). rewrite length_le_bytes.
    replace (k + k * i - k)%nat with (k * i)%nat by lia. apply IH. lia.
Qed.

Lemma word_in k a0 l b i q : length a0 = q -> (i < length l)%nat ->
  take k (drop (q + k * i) (a0 ++ concat (map (le_bytes k) l) ++ b)) = le_bytes k (nth i l 0).
Proof.
  intros <- Hi. rewrite drop_app_add, drop_app_le by (rewrite length_words; nia).
  rewrite take_app_le by (rewrite length_drop, length_words; nia). by apply word_at.
Qed.

Lemma nth_regs f n i : (i < n)%nat -> nth i (map f (seq 0 n)) 0 = f i.
Proof. intros Hi. apply nth_lookup_Some. change (map f (seq 0 n)) with (f <$> seq 0 n). rewrite list_lookup_fmap, lookup_seq_lt by done. done. Qed.

(** C23: Whichever way a context is filled, its general registers are those of the
    thread: the ones of the kernel's structure for a traced thread, and the
    ones at the signal for the thread that crashed. *)
Theorem context_registers info uc i : (i < iregs_count)%nat ->
  take (word_size a) (drop (iregs_offset + word_size a * i) (ThreadInfo_FillCPUContext info)) = le_bytes (word_size a) (reg (regs info) i)
  /\ take (word_size a) (drop (iregs_offset + word_size a * i) (UContext_FillCPUContext uc)) = le_bytes (word_size a) (reg (m_regs (uc_mcontext uc)) i).
Proof.
  intros Hi. unfold ThreadInfo_FillCPUContext, UContext_FillCPUContext, arm_context, arm64_context, iregs_offset, iregs_count, word_size in *.
  destruct a; (split; (rewrite word_in; [by rewrite nth_regs by lia|by rewrite length_le_bytes|by rewrite length_map, length_seq])).
Qed.

(** For the same registers the two ways differ only in the status register of
    ARM, which the one for traced threads leaves at zero though ptrace gives
    it. *)
Theorem contexts_agree info uc : (forall i, (i < iregs_count)%nat -> reg (regs info) i = reg (m_regs (uc_mcontext uc)) i) ->
  float_state uc = fpregs info ->
  (a = arm64_v8a -> reg (regs info) 33 = m_status (uc_mcontext uc)) -> (a = armeabi_v7a -> m_status (uc_mcontext uc) = 0) ->
  ThreadInfo_FillCPUContext info = UContext_FillCPUContext uc.
Proof.
  intros Hr Hf H64 H32. unfold ThreadInfo_FillCPUContext, UContext_FillCPUContext, iregs_count in *. destruct a.
  - rewrite H32 by done. f_equal. apply map_ext_in. intros i Hi%in_seq. apply Hr. lia.
  - rewrite H64, Hf by done. f_equal. apply map_ext_in. intros i Hi%in_seq. apply Hr. lia.
Qed.

End Abi.

Lemma context_registers_witness :
  (32 < iregs_count arm64_v8a)%nat /\
  (let info := Thread 1 1 0x7ff0 (seqZ 100 34) (FpSimd 0 0 (replicate 512 0)) in
   let uc := CrashContext_ (MContext (seqZ 200 33) 7) (FpSimd 0 0 (replicate 512 0)) in
   take 8 (drop (8 + 8 * 32) (ThreadInfo_FillCPUContext arm64_v8a info)) = le_bytes 8 132
   /\ take 8 (drop (8 + 8 * 32) (UContext_FillCPUContext arm64_v8a uc)) = le_bytes 8 232).
Proof.
  assert (32 < iregs_count arm64_v8a)%nat as H by (cbn; lia). split; [exact H|].
  exact (context_registers arm64_v8a (Thread 1 1 0x7ff0 (seqZ 100 34) (FpSimd 0 0 (replicate 512 0)))
    (CrashContext_ (MContext (seqZ 200 33) 7) (FpSimd 0 0 (replicate 512 0))) 32 H).
Defined.
