(* ===== verification/PtraceDumper.v ===== *)
(** Reading another process with ptrace:
    client/linux/minidump_writer/linux_ptrace_dumper.cc and
    directory_reader.h of libbreakpad.

    What the kernel answers is in [kernel]; which threads are traced is a set
    that attaching and detaching change. *)
From stdpp Require Import gmap.
From S2P Require Import Prelude LibcSupport LineReader LinuxDumper Registers.

(** * Directories *)

(** [kernel_dirent] has two longs, the length of the entry, and its name; the
    kernel of ARM64 has no getdents, and [kernel_dirent64] stands for it, with
    the type of the entry before its name. *)
Definition reclen_offset (a : abi) : nat := 2 * word_size a.
Definition name_offset (a : abi) : nat := match a with armeabi_v7a => 10 | arm64_v8a => 19 end.

(** sizeof(buf_): the structure, which is aligned, NAME_MAX and 1. *)
Definition dir_buf_size (a : abi) : nat := match a with armeabi_v7a => 524 | arm64_v8a => 536 end.

(** [calls] holds what the next calls of getdents give: bytes of whole entries,
    [None] for an error; at its end is the end of the directory. *)
Record dir_reader := DirectoryReader {
  dir_hit_eof : bool;
  dir_buf_used : nat;
  dir_buf : list Z;
  calls : list (option (list Z))
}.

(** The name of the next entry is the memory from its offset on. *)
Definition GetNextEntry (a : abi) (d : dir_reader) : res (option (list Z) * dir_reader) :=
  let give d :=
    if (dir_buf_used d =? 0)%nat && dir_hit_eof d then Ret (None, d)
    else if (dir_buf_used d =? 0)%nat then Fault Aborted
    else Ret (Some (drop (name_offset a) (dir_buf d)), d) in
  if (dir_buf_used d =? 0)%nat then
    match calls d with
    | [] => give (DirectoryReader true 0 (dir_buf d) [])
    | None :: cs => Ret (None, DirectoryReader (dir_hit_eof d) 0 (dir_buf d) cs)
    | Some [] :: cs => give (DirectoryReader true 0 (dir_buf d) cs)
    | Some bytes :: cs =>
        buf ← store (dir_buf d) 0 bytes;
        give (DirectoryReader (dir_hit_eof d) (length bytes) buf cs)
    end
  else give d.

Definition PopEntry (a : abi) (d : dir_reader) : res dir_reader :=
  if (dir_buf_used d =? 0)%nat then Ret d
  else
    reclen ← load (dir_buf d) (reclen_offset a) 2;
    let n := Z.to_nat (le_val reclen) in
    let used := Z.to_nat (u32 (Z.of_nat (dir_buf_used d) - Z.of_nat n)) in
    data ← load (dir_buf d) n used;
    buf ← store (dir_buf d) 0 data;
    Ret (DirectoryReader (dir_hit_eof d) used buf (calls d)).

(** * Paths *)

Definition BuildProcPath (path : list Z) (pid : Z) (node : list Z) : res (bool * list Z) :=
  if pid <=? 0 then Ret (false, path)
  else
    node_len ← my_strlen node;
    if (node_len =? 0)%nat then Ret (false, path)
    else
      let pid_len := my_uint_len pid in
      let total_length := (6 + pid_len + 1 + node_len)%nat in
      if (NAME_MAX <=? total_length)%nat then Ret (false, path)
      else
        path ← store path 0 (literal "/proc/");
        number ← my_uitos (drop 6 path) pid pid_len;
        path ← store path 6 number;
        path ← store path (6 + pid_len) [0x2F];
        text ← load node 0 node_len;
        path ← store path (6 + pid_len + 1) text;
        path ← store path total_length [0];
        Ret (true, path).

(** * Threads *)

Inductive wait_result := WaitInterrupted | WaitFailed.

(** What the system calls answer for a thread: whether it can be attached to
    and detached from, how often waitpid fails before the thread stops, the
    lines of its status file, and the words of its memory and registers;
    [None] is a failure. *)
Record kernel := Kernel {
  attach : Z -> bool;
  detach : Z -> bool;
  waits : Z -> list wait_result;
  peek : Z -> Z -> option Z;
  status : Z -> option line_reader;
  getregset_gp : Z -> option (list Z);
  getregset_fp : Z -> option fpsimd;
  getregs : Z -> option (list Z);
  getfpregs : Z -> option fpsimd
}.

(** [while (waitpid(...) < 0) if (errno != EINTR) ...]. *)
Fixpoint wait_stopped (ws : list wait_result) : bool :=
  match ws with
  | [] => true
  | WaitInterrupted :: ws => wait_stopped ws
  | WaitFailed :: _ => false
  end.

(** A thread that is traced already cannot be attached to. *)
Definition ptrace_attach (k : kernel) (traced : gset Z) (pid : Z) : bool * gset Z :=
  if attach k pid && bool_decide (pid ∉ traced) then (true, {[pid]} ∪ traced) else (false, traced).

Definition ptrace_detach (k : kernel) (traced : gset Z) (pid : Z) : bool * gset Z :=
  if detach k pid && bool_decide (pid ∈ traced) then (true, traced ∖ {[pid]}) else (false, traced).

Definition SuspendThread (k : kernel) (traced : gset Z) (pid : Z) : bool * gset Z :=
  let '(ok, traced) := ptrace_attach k traced pid in
  if negb ok then (false, traced)
  else if negb (wait_stopped (waits k pid)) then (false, (ptrace_detach k traced pid).2)
  else (true, traced).

Definition ResumeThread (k : kernel) (traced : gset Z) (pid : Z) : bool * gset Z := ptrace_detach k traced pid.

Record dumper := LinuxPtraceDumper {
  pid_ : Z;
  threads_ : list Z;
  threads_suspended_ : bool;
  traced_ : gset Z
}.

Definition new_dumper (pid : Z) : dumper := LinuxPtraceDumper pid [] false ∅.

(** The loop of ThreadsSuspend at index [i]: a thread that fails is moved out,
    what is behind it one place down, and the index stays. *)
Fixpoint suspend_loop (fuel : nat) (k : kernel) (threads : list Z) (traced : gset Z) (i : nat) : res (list Z * gset Z) :=
  match fuel with
  | O => Fault OutOfFuel
  | S fuel =>
      if negb (i <? length threads)%nat then Ret (threads, traced)
      else
        tid ← get_or_oob (threads !! i);
        let '(ok, traced) := SuspendThread k traced tid in
        if ok : bool then suspend_loop fuel k threads traced (S i)
        else
          threads ← (if (i <? length threads - 1)%nat
                     then rest ← load threads (i + 1) (length threads - i - 1); store threads i rest
                     else Ret threads);
          suspend_loop fuel k (take (length threads - 1) threads) traced i
  end.

Definition ThreadsSuspend (k : kernel) (d : dumper) : res (bool * dumper) :=
  if threads_suspended_ d then Ret (true, d)
  else
    '(threads, traced) ← suspend_loop (S (length (threads_ d))) k (threads_ d) (traced_ d) 0;
    Ret ((0 <? length threads)%nat, LinuxPtraceDumper (pid_ d) threads true traced).

Fixpoint resume_loop (k : kernel) (threads : list Z) (traced : gset Z) (good : bool) : bool * gset Z :=
  match threads with
  | [] => (good, traced)
  | tid :: threads =>
      let '(ok, traced) := ResumeThread k traced tid in
      resume_loop k threads traced (good && ok)
  end.

Definition ThreadsResume (k : kernel) (d : dumper) : bool * dumper :=
  if negb (threads_suspended_ d) then (false, d)
  else
    let '(good, traced) := resume_loop k (threads_ d) (traced_ d) true in
    (good, LinuxPtraceDumper (pid_ d) (threads_ d) false traced).

(** The loop over the entries of /proc/<pid>/task. *)
Fixpoint each_entry (fuel : nat) (a : abi) (d : dir_reader) (last_tid : Z) (threads : list Z) : res (list Z) :=
  match fuel with
  | O => Fault OutOfFuel
  | S fuel =>
      '(name, d) ← GetNextEntry a d;
      match name with
      | None => Ret threads
      | Some name =>
          c1 ← my_strcmp name [0x2E; 0];
          c2 ← (if c1 =? 0 then Ret 0 else my_strcmp name [0x2E; 0x2E; 0]);
          tid ← (if negb (c1 =? 0) && negb (c2 =? 0) then my_strtoui name else Ret None);
          let '(last_tid, threads) :=
            match tid with
            | Some tid => if negb (last_tid =? tid) then (tid, threads ++ [tid]) else (last_tid, threads)
            | None => (last_tid, threads)
            end in
          d ← PopEntry a d;
          each_entry fuel a d last_tid threads
      end
  end.

(** [task] is the directory when it opens, [path] the array for its path. *)
Definition EnumerateThreads (fuel : nat) (a : abi) (path : list Z) (task : option dir_reader) (d : dumper) : res (bool * dumper) :=
  '(ok, _) ← BuildProcPath path (pid_ d) (literal "task" ++ [0]);
  if negb (ok : bool) then Ret (false, d)
  else
    match task with
    | None => Ret (false, d)
    | Some dir =>
        threads ← each_entry fuel a dir (-1) (threads_ d);
        Ret (true, LinuxPtraceDumper (pid_ d) threads (threads_suspended_ d) (traced_ d))
    end.

(** * Memory and registers *)

(** The loop of CopyFromProcess: a word that cannot be read is zero. *)
Fixpoint copy_loop (fuel : nat) (a : abi) (k : kernel) (child src : Z) (done : nat) (dest : list Z) (length : nat) : res (list Z) :=
  match fuel with
  | O => Fault OutOfFuel
  | S fuel =>
      if negb (done <? length)%nat then Ret dest
      else
        let l := if (word_size a <? length - done)%nat then word_size a else (length - done)%nat in
        let tmp := default 0 (peek k child (wrap (word_bits a) (src + Z.of_nat done))) in
        dest ← store dest done (take l (le_bytes (word_size a) tmp));
        copy_loop fuel a k child src (done + l) dest length
  end.

(** Every iteration copies at least a byte. *)
Definition CopyFromProcess (a : abi) (k : kernel) (dest : list Z) (child src : Z) (length : nat) : res (bool * list Z) :=
  dest ← copy_loop (S length) a k child src 0 dest length;
  Ret (true, dest).

(** The registers by GETREGSET, or else by GETREGS where the system has it; on
    32 bits Android leaves the second kind of floating point registers alone. *)
Definition ReadRegisterSet (k : kernel) (tid : Z) (gp : list Z) (fp : fpsimd) : bool * list Z * fpsimd :=
  match getregset_gp k tid with
  | None => (false, gp, fp)
  | Some gp => match getregset_fp k tid with None => (false, gp, fp) | Some fp => (true, gp, fp) end
  end.

Definition ReadRegisters (a : abi) (k : kernel) (tid : Z) (gp : list Z) (fp : fpsimd) : bool * list Z * fpsimd :=
  match getregs k tid with
  | None => (false, gp, fp)
  | Some gp =>
      match a with
      | armeabi_v7a => (true, gp, fp)
      | arm64_v8a => match getfpregs k tid with None => (false, gp, fp) | Some fp => (true, gp, fp) end
      end
  end.

(** One line of /proc/<tid>/status; the numbers so far, [None] for -1. *)
Definition status_line (s : option Z * option Z) (len : nat) (line : list Z) : res (option Z * option Z) :=
  c ← my_strncmp (literal "Tgid:" ++ [9; 0]) line 6;
  if c =? 0 then n ← my_strtoui (drop 6 line); Ret (match n with Some n => Some n | None => s.1 end, s.2)
  else
    c ← my_strncmp (literal "PPid:" ++ [9; 0]) line 6;
    if c =? 0 then n ← my_strtoui (drop 6 line); Ret (s.1, match n with Some n => Some n | None => s.2 end)
    else Ret s.

(** [info] is the structure of the caller, whose members may be anything. *)
Definition GetThreadInfoByIndex (a : abi) (k : kernel) (d : dumper) (path : list Z) (index : nat) (info : ThreadInfo) : res (bool * ThreadInfo) :=
  match threads_ d !! index with
  | None => Ret (false, info)
  | Some tid =>
      '(ok, _) ← BuildProcPath path tid (literal "status" ++ [0]);
      if negb (ok : bool) then Ret (false, info)
      else
        match status k tid with
        | None => Ret (false, info)
        | Some r =>
            '(g, p) ← each_line (length (pending r) + 2) status_line (None, None) r;
            match g, p with
            | Some g, Some p =>
                let '(ok, gp, fp) := ReadRegisterSet k tid (regs info) (fpregs info) in
                let '(ok, gp, fp) := if ok : bool then (ok, gp, fp) else ReadRegisters a k tid gp fp in
                if ok : bool then Ret (true, Thread g p (reg gp (sp_index a)) gp fp)
                else Ret (false, Thread g p (stack_pointer info) gp fp)
            | _, _ => Ret (false, Thread (default (-1) g) (default (-1) p) (stack_pointer info) (regs info) (fpregs info))
            end
        end
  end.

(** A process that is traced is not post mortem. *)
Definition IsPostMortem : bool := false.

(** * Suspending and resuming *)

(** The threads that can be suspended, one after the other. *)
Fixpoint suspended (k : kernel) (threads : list Z) (traced : gset Z) : list Z * gset Z :=
  match threads with
  | [] => ([], traced)
  | tid :: threads =>
      let '(ok, traced) := SuspendThread k traced tid in
      let '(kept, traced) := suspended k threads traced in
      (if (ok : bool) then tid :: kept else kept, traced)
  end.

Lemma suspend_loop_spec k todo : forall fuel kept traced, (length todo < fuel)%nat ->
  suspend_loop fuel k (kept ++ todo) traced (length kept) = Ret (kept ++ (suspended k todo traced).1, (suspended k todo traced).2).
Proof.
  induction todo as [|tid todo IH]; intros [|fuel] kept traced Hf; cbn [length] in Hf; try lia; cbn [suspend_loop suspended].
  - cbn [fst snd]. by rewrite !app_nil_r, Nat.ltb_irrefl.
  - rewrite length_app. cbn [length]. destruct (Nat.ltb_spec (length kept) (length kept + S (length todo))); [|lia]. cbn [negb].
    rewrite list_lookup_middle by done. cbn [get_or_oob]. rewrite bind_Ret.
    destruct (SuspendThread k traced tid) as [[|] traced'].
    + specialize (IH fuel (kept ++ [tid]) traced' ltac:(lia)). rewrite length_app in IH. cbn [length] in IH. rewrite Nat.add_1_r, <- app_assoc in IH.
      cbn [app] in IH. rewrite IH. destruct (suspended k todo traced') as [rest traced'']. cbn [fst snd]. by rewrite <- app_assoc.
    + assert ((if (length kept <? length kept + S (length todo) - 1)%nat
        then rest ← load (kept ++ tid :: todo) (length kept + 1) (length kept + S (length todo) - length kept - 1); store (kept ++ tid :: todo) (length kept) rest
        else Ret (kept ++ tid :: todo)) = Ret (kept ++ todo ++ drop (length todo) (tid :: todo))) as ->.
      { destruct (Nat.ltb_spec (length kept) (length kept + S (length todo) - 1)) as [Hlt|Hge].
        - rewrite load_in_bounds, bind_Ret by (rewrite length_app; cbn [length]; lia). rewrite drop_app_add. cbn [drop]. rewrite drop_0.
          replace (length kept + S (length todo) - length kept - 1)%nat with (length todo) by lia. rewrite take_ge by lia.
          rewrite store_in_bounds by (rewrite length_app; cbn [length]; lia). rewrite take_app_length, drop_app_add. done.
        - destruct todo as [|? ?]; [done|]. cbn [length] in Hge. lia. }
      rewrite bind_Ret. replace (length (kept ++ todo ++ drop (length todo) (tid :: todo)) - 1)%nat with (length (kept ++ todo))
        by (rewrite !length_app, length_drop; cbn [length]; lia).
      rewrite app_assoc, take_app_length. rewrite IH by lia. destruct (suspended k todo traced'). done.
Qed.

Section Tracing.

Context (k : kernel).
Hypothesis detach_works : forall pid, detach k pid = true.

(** A thread stops when it can be attached to and every waitpid that fails before
    it stops was interrupted. *)
Definition stops (tid : Z) : Prop := attach k tid = true /\ Forall (fun r => r = WaitInterrupted) (waits k tid).

Lemma wait_stopped_spec ws : wait_stopped ws = true <-> Forall (fun r => r = WaitInterrupted) ws.
Proof.
  induction ws as [|[|] ws IH]; cbn [wait_stopped]; [by split; [constructor|]|rewrite Forall_cons_iff, IH; tauto|].
  split; [done|]. by intros [? _]%Forall_cons_iff.
Qed.

(** A thread that stops and is not traced is then traced; otherwise nothing
    changes. *)
Lemma SuspendThread_spec traced pid : let '(ok, traced') := SuspendThread k traced pid in
  (ok = true <-> stops pid /\ (pid ∉ traced)) /\ traced' = (if (ok : bool) then {[pid]} ∪ traced else traced).
Proof.
  pose proof (wait_stopped_spec (waits k pid)) as Hw. unfold SuspendThread, ptrace_attach, stops.
  destruct (attach k pid); cbn [andb negb]; [|by split; [split; [|intros [[? _] _]]|]].
  destruct (bool_decide (pid ∉ traced)) eqn:E; cbn [negb]; [apply bool_decide_eq_true in E|apply bool_decide_eq_false in E; by split; [split; [|intros [_ ?]]|]].
  destruct (wait_stopped _); cbn [negb]; [by split; [tauto|]|]. unfold ptrace_detach. rewrite detach_works, bool_decide_eq_true_2 by set_solver.
  cbn [andb snd]. split; [|set_solver]. split; [done|]. intros [[_ H] _]. by apply Hw in H.
Qed.

Lemma suspended_spec threads : forall traced, let '(kept, traced') := suspended k threads traced in
  sublist kept threads /\ NoDup kept /\ (forall tid, tid ∈ kept <-> tid ∈ threads /\ stops tid /\ (tid ∉ traced))
  /\ (forall tid, tid ∈ traced' <-> tid ∈ kept \/ tid ∈ traced).
Proof.
  induction threads as [|tid threads IH]; intros traced; cbn [suspended].
  - split; [constructor|]. split; [constructor|]. split; intros t; rewrite elem_of_nil; tauto.
  - pose proof (SuspendThread_spec traced tid) as Hs. destruct (SuspendThread k traced tid) as [ok traced1]. specialize (IH traced1).
    destruct (suspended k threads traced1) as [kept traced2]. destruct IH as (Hsub & Hnd & Hout & Hin). destruct Hs as [Hok ->]. destruct ok.
    + destruct (proj1 Hok eq_refl) as [Hst Hni]. split; [by constructor|]. split; [constructor; [rewrite Hout; set_solver|done]|].
      split; intros t; rewrite ?Hin, !elem_of_cons, ?Hout; [|set_solver]. destruct (decide (t = tid)) as [->|]; set_solver.
    + split; [by constructor|]. split; [done|]. split; [|done]. intros t. rewrite Hout, elem_of_cons.
      assert (~ (stops tid /\ (tid ∉ traced))) as Hno by (rewrite <- Hok; done). split; [tauto|]. intros ([->|Ht] & Hst & Hni); tauto.
Qed.

Lemma resume_loop_spec threads : forall traced good, NoDup threads -> (forall tid, tid ∈ threads -> tid ∈ traced) ->
  exists traced', resume_loop k threads traced good = (good, traced') /\ forall tid, tid ∈ traced' <-> tid ∈ traced /\ tid ∉ threads.
Proof.
  induction threads as [|tid threads IH]; intros traced good Hnd Hin; cbn [resume_loop].
  - exists traced. split; [done|]. intros t. split; [intros H; split; [done|apply not_elem_of_nil]|by intros [? _]].
  - inversion_clear Hnd as [|? ? Hni Hnd']. unfold ResumeThread, ptrace_detach. rewrite detach_works, bool_decide_eq_true_2 by (apply Hin; by left). cbn [andb].
    rewrite andb_true_r. destruct (IH (traced ∖ {[tid]}) good Hnd') as (traced' & -> & H).
    { intros t Ht. apply elem_of_difference. split; [apply Hin; by right|]. rewrite elem_of_singleton. by intros ->. }
    exists traced'. split; [done|]. intros t. rewrite H, elem_of_difference, elem_of_singleton, not_elem_of_cons. tauto.
Qed.

(** What was traced before is traced again. *)
Lemma suspended_and_resumed d : threads_suspended_ d = false ->
  exists kept traced, ThreadsSuspend k d = Ret ((0 <? length kept)%nat, LinuxPtraceDumper (pid_ d) kept true traced)
    /\ ThreadsResume k (LinuxPtraceDumper (pid_ d) kept true traced) = (true, LinuxPtraceDumper (pid_ d) kept false (traced_ d)).
Proof.
  intros Hd. pose proof (suspended_spec (threads_ d) (traced_ d)) as H. pose proof (suspend_loop_spec k (threads_ d) (S (length (threads_ d))) [] (traced_ d) ltac:(lia)) as E.
  destruct (suspended k (threads_ d) (traced_ d)) as [kept traced]. destruct H as (_ & Hnd & Hout & Hin). cbn [app fst snd length] in E.
  exists kept, traced. split; [unfold ThreadsSuspend; by rewrite Hd, E|]. unfold ThreadsResume. cbn [threads_suspended_ negb threads_ traced_ pid_].
  destruct (resume_loop_spec kept traced true Hnd) as (traced' & -> & H'); [intros t Ht; apply Hin; by left|].
  assert (traced' = traced_ d) as ->; [|done]. apply set_eq. intros t. rewrite H', Hin. destruct (Hout t) as [Ho _]. tauto.
Qed.

(** C19: Suspending leaves exactly the threads that can be attached to, whose
    waitpid fails only by interruption and which were not traced before, in
    their order; these are the ones it traces, and a thread that fails half-way
    is let go. It answers whether there is one. Resuming, which works once, lets
    every one of them go and no other. *)
Theorem suspend_resume_restores d : threads_suspended_ d = false ->
  exists kept traced, ThreadsSuspend k d = Ret ((0 <? length kept)%nat, LinuxPtraceDumper (pid_ d) kept true traced)
    /\ sublist kept (threads_ d) /\ NoDup kept
    /\ (forall tid, tid ∈ kept <-> tid ∈ threads_ d /\ stops tid /\ (tid ∉ traced_ d))
    /\ (forall tid, tid ∈ traced <-> tid ∈ kept \/ tid ∈ traced_ d)
    /\ ThreadsSuspend k (LinuxPtraceDumper (pid_ d) kept true traced) = Ret (true, LinuxPtraceDumper (pid_ d) kept true traced)
    /\ ThreadsResume k (LinuxPtraceDumper (pid_ d) kept true traced) = (true, LinuxPtraceDumper (pid_ d) kept false (traced_ d))
    /\ ThreadsResume k (LinuxPtraceDumper (pid_ d) kept false (traced_ d)) = (false, LinuxPtraceDumper (pid_ d) kept false (traced_ d)).
Proof.
  intros Hd. destruct (suspended_and_resumed d Hd) as (kept & traced & E & Hr). pose proof E as E'.
  pose proof (suspended_spec (threads_ d) (traced_ d)) as H. unfold ThreadsSuspend in E'. rewrite Hd in E'.
  pose proof (suspend_loop_spec k (threads_ d) (S (length (threads_ d))) [] (traced_ d) ltac:(lia)) as El. cbn [app length] in El. rewrite El, bind_Ret in E'.
  destruct (suspended k (threads_ d) (traced_ d)) as [kept' traced']. cbn [fst snd] in E'. injection E' as _ -> ->. destruct H as (Hsub & Hnd & Hkept & Hin).
  exists kept, traced. do 6 (split; [done|]). done.
Qed.

End Tracing.

(** * Copying memory *)

(** The byte at offset [i] of a copy, from the word it is in. *)
Definition copied_byte (a : abi) (k : kernel) (child src : Z) (i : nat) : Z :=
  nth (i mod word_size a) (le_bytes (word_size a) (default 0 (peek k child (wrap (word_bits a) (src + Z.of_nat (word_size a * (i / word_size a))))))) 0.

Definition process_bytes (a : abi) (k : kernel) (child src : Z) (len : nat) : list Z := map (copied_byte a k child src) (seq 0 len).

Lemma length_process_bytes a k child src len : length (process_bytes a k child src len) = len.
Proof. unfold process_bytes. by rewrite length_map, length_seq. Qed.

Lemma word_size_pos a : (0 < word_size a)%nat.
Proof. destruct a; cbn; lia. Qed.

Lemma map_nth_seq (W : list Z) l : (l <= length W)%nat -> map (fun i => nth i W 0) (seq 0 l) = take l W.
Proof.
  intros Hl. apply list_eq. intros i. change (map ?f ?x) with (f <$> x). rewrite list_lookup_fmap. destruct (decide (i < l)%nat).
  - rewrite lookup_seq_lt, lookup_take_lt by done. cbn. destruct (lookup_lt_is_Some_2 W i ltac:(lia)) as [y Hy]. rewrite Hy. f_equal. by apply nth_lookup_Some.
  - rewrite lookup_seq_ge, lookup_take_ge by lia. done.
Qed.

Lemma copied_word a k child src j l : (l <= word_size a)%nat ->
  map (copied_byte a k child src) (seq (word_size a * j) l)
  = take l (le_bytes (word_size a) (default 0 (peek k child (wrap (word_bits a) (src + Z.of_nat (word_size a * j)))))).
Proof.
  intros Hl. rewrite <- (Nat.add_0_r (word_size a * j)) at 1. rewrite <- fmap_add_seq. change (Nat.add ?n <$> ?x) with (map (Nat.add n) x).
  rewrite map_map. rewrite <- map_nth_seq by (by rewrite length_le_bytes). apply map_ext_in. intros i Hi%in_seq. unfold copied_byte.
  assert ((word_size a * j + i) / word_size a = j)%nat as -> by (symmetry; apply (Nat.div_unique _ _ _ i); lia).
  assert ((word_size a * j + i) mod word_size a = i)%nat as -> by (symmetry; apply (Nat.mod_unique _ _ j); lia). done.
Qed.

(** From offset [done] on, a multiple of the word size or the end. *)
Lemma copy_loop_spec a k child src len : forall fuel done j dest, (len - done < fuel)%nat -> (done <= len)%nat -> done = (word_size a * j)%nat \/ done = len -> (len <= length dest)%nat ->
  copy_loop fuel a k child src done dest len
  = Ret (take done dest ++ map (copied_byte a k child src) (seq done (len - done)) ++ drop len dest).
Proof.
  pose proof (word_size_pos a) as Hw. induction fuel as [|fuel IH]; intros done j dest Hf Hle Hj Hd; [lia|]. cbn [copy_loop].
  destruct (Nat.ltb_spec done len) as [Hlt|Hge]; cbn [negb].
  2:{ replace (len - done)%nat with 0%nat by lia. cbn [seq map app]. assert (done = len) as -> by lia. by rewrite take_drop. }
  destruct Hj as [-> |]; [|lia]. set (l := if (_ <? _)%nat then _ else _).
  assert (l <= word_size a /\ 0 < l <= len - word_size a * j /\ (l = word_size a \/ l = len - word_size a * j))%nat as (Hl1 & Hl2 & Hl3).
  { unfold l. destruct (Nat.ltb_spec (word_size a) (len - word_size a * j)); lia. }
  clearbody l. rewrite <- copied_word by done. set (done := (word_size a * j)%nat) in *. set (W := map (copied_byte a k child src) (seq done l)).
  assert (length W = l) as HW by (unfold W; by rewrite length_map, length_seq).
  rewrite store_in_bounds, bind_Ret by lia. rewrite HW.
  rewrite (IH (done + l)%nat (S j)); [|lia|lia|unfold done; lia|rewrite !length_app, length_take, length_drop, HW; lia].
  rewrite (app_assoc (take done dest) W). rewrite take_app_length' by (rewrite length_app, length_take, HW; lia).
  rewrite (drop_app_ge _ (drop (done + l) dest)) by (rewrite length_app, length_take, HW; lia). rewrite drop_drop, length_app, length_take, HW.
  replace (done + l + (len - (done `min` length dest + l)))%nat with len by lia.
  replace (len - done)%nat with (l + (len - (done + l)))%nat by lia. rewrite seq_app, map_app. fold W. by rewrite <- !app_assoc.
Qed.

Lemma CopyFromProcess_bytes a k child src dest len : (len <= length dest)%nat ->
  CopyFromProcess a k dest child src len = Ret (true, process_bytes a k child src len ++ drop len dest).
Proof.
  intros Hd. unfold CopyFromProcess. rewrite (copy_loop_spec a k child src len _ 0 0) by lia.
  rewrite bind_Ret. by rewrite take_0, app_nil_l, Nat.sub_0_r.
Qed.

(** The words that can be read hold the bytes of [mem]. *)
Definition reads_memory (a : abi) (k : kernel) (child : Z) (readable : Z -> bool) (mem : Z -> Z) : Prop :=
  (forall addr, in_range 8 (mem addr))
  /\ forall addr, peek k child addr = if readable addr then Some (le_val (map (fun i => mem (addr + Z.of_nat i)) (seq 0 (word_size a)))) else None.

(** The byte at offset [i], zero when its word cannot be read. *)
Definition copied (a : abi) (readable : Z -> bool) (mem : Z -> Z) (src : Z) (i : nat) : Z :=
  if readable (src + Z.of_nat (word_size a * (i / word_size a))) then mem (src + Z.of_nat i) else 0.

Lemma copied_byte_memory a k child readable mem src i : reads_memory a k child readable mem -> 0 <= src ->
  src + Z.of_nat i < 2 ^ word_bits a -> copied_byte a k child src i = copied a readable mem src i.
Proof.
  intros [Hb Hp] Hs Hi. pose proof (word_size_pos a) as Hw. unfold copied_byte, copied. pose proof (Nat.div_mod i (word_size a) ltac:(lia)) as Hdm.
  pose proof (Nat.mod_upper_bound i (word_size a) ltac:(lia)) as Hr. set (q := (i / word_size a)%nat) in *. set (r := (i mod word_size a)%nat) in *.
  clearbody q r. rewrite wrap_small by (split; lia). rewrite Hp. destruct (readable _); cbn [default].
  - set (bs := map _ _). assert (length bs = word_size a) as El by (unfold bs; by rewrite length_map, length_seq).
    rewrite <- El at 1. rewrite le_bytes_val; [|unfold bs; apply Forall_map, Forall_forall; intros; apply Hb].
    unfold bs. rewrite (nth_regs (fun i => mem (src + Z.of_nat (word_size a * q) + Z.of_nat i))) by done. f_equal. lia.
  - assert (le_bytes (word_size a) 0 = replicate (word_size a) 0) as -> by (by destruct a).
    apply nth_lookup_Some. apply lookup_replicate. by split.
Qed.

(** C20: The copy has the bytes of the process, and zeros for the words that cannot
    be read; it is always made. *)
Theorem CopyFromProcess_spec a k child readable mem src dest len : reads_memory a k child readable mem -> 0 <= src ->
  src + Z.of_nat len <= 2 ^ word_bits a -> (len <= length dest)%nat ->
  CopyFromProcess a k dest child src len = Ret (true, map (copied a readable mem src) (seq 0 len) ++ drop len dest).
Proof.
  intros Hm Hs He Hd. rewrite CopyFromProcess_bytes by done. do 3 f_equal. apply map_ext_in. intros i Hi%in_seq.
  apply (copied_byte_memory a k child); (done || lia).
Qed.

(** * Paths under /proc *)

Definition proc_path (pid : Z) (node : list Z) : list Z := literal "/proc/" ++ digits (my_uint_len pid) pid ++ 0x2F :: node.

(** [store] behind what is written already. *)
Lemma store_after (pre mid post src : list Z) n : length pre = n -> length mid = length src ->
  store (pre ++ mid ++ post) n src = Ret (pre ++ src ++ post).
Proof.
  intros <- Hm. rewrite store_in_bounds by (rewrite !length_app; lia). rewrite take_app_length, drop_app_add, <- Hm. by rewrite drop_app_length.
Qed.

Lemma split_at {A} n (l : list A) : (n <= length l)%nat -> exists x y, l = x ++ y /\ length x = n.
Proof. intros H. exists (take n l), (drop n l). by rewrite take_drop, length_take, Nat.min_l. Qed.

(** The path is that of the node, when its name fits; else there is none. *)
Lemma BuildProcPath_spec path pid node rest : 0 < pid < 2 ^ 64 -> nonzero node -> node <> [] -> length path = NAME_MAX ->
  BuildProcPath path pid (node ++ 0 :: rest)
  = Ret (if (NAME_MAX <=? length (proc_path pid node))%nat then (false, path)
         else (true, proc_path pid node ++ 0 :: drop (S (length (proc_path pid node))) path)).
Proof.
  intros Hpid Hn Hne Hlen. unfold BuildProcPath. destruct (Z.leb_spec pid 0); [lia|]. rewrite my_strlen_spec, bind_Ret by done.
  destruct (Nat.eqb_spec (length node) 0) as [E|_]; [by destruct node|]. set (n := my_uint_len pid).
  assert (length (proc_path pid node) = 6 + n + 1 + length node)%nat as El.
  { unfold proc_path. rewrite !length_app, length_digits. cbn [length literal]. change (length (literal "/proc/")) with 6%nat. fold n. lia. }
  rewrite El. destruct (Nat.leb_spec NAME_MAX (6 + n + 1 + length node)) as [|Hfit]; [done|].
  destruct (split_at 6 path) as (p1 & r1 & -> & L1); [lia|]. rewrite length_app in Hlen.
  destruct (split_at n r1) as (p2 & r2 & -> & L2); [lia|]. rewrite length_app in Hlen.
  destruct (split_at 1 r2) as (p3 & r3 & -> & L3); [lia|]. rewrite length_app in Hlen.
  destruct (split_at (length node) r3) as (p4 & r4 & -> & L4); [lia|]. rewrite length_app in Hlen.
  destruct (split_at 1 r4) as (p5 & r5 & -> & L5); [lia|].
  assert (forall r, store (p1 ++ r) 0 (literal "/proc/") = Ret (literal "/proc/" ++ r)) as -> by (intros r; by apply (store_after [])).
  rewrite bind_Ret.
  rewrite drop_app_length' by done. rewrite my_uitos_spec, bind_Ret by (rewrite length_app; lia). fold n.
  rewrite <- L2 at 1 2. rewrite drop_app_length.
  rewrite <- (app_nil_r (p2 ++ _)) at 1. rewrite (store_after (literal "/proc/") _ []), bind_Ret by (done || (rewrite !length_app, length_digits; lia)).
  rewrite L2, app_nil_r. unfold proc_path. fold n. set (D := digits n pid). assert (length D = n) as LD by apply length_digits.
  rewrite (app_assoc (literal "/proc/") D), (store_after _ p3), bind_Ret by (done || (rewrite length_app, LD; done)).
  rewrite load_in_bounds, bind_Ret by (rewrite length_app; lia). rewrite drop_0, take_app_length.
  assert (length ((literal "/proc/" ++ D) ++ [0x2F%Z]) = 6 + n + 1)%nat as LP by (rewrite !length_app, LD; done).
  rewrite (app_assoc (_ ++ D) [0x2F]), (store_after _ p4), bind_Ret by (done || lia).
  rewrite (app_assoc _ node), (store_after _ p5), bind_Ret by (done || (rewrite length_app, LP; done)).
  assert (drop (S (6 + n + 1 + length node)) (p1 ++ p2 ++ p3 ++ p4 ++ p5 ++ r5) = r5) as ->.
  { rewrite !app_assoc. apply drop_app_length'. rewrite !length_app. lia. }
  by rewrite <- !app_assoc.
Qed.

(** * The threads of a process *)

(** An entry of the directory, and the bytes getdents gives for it. *)
Record dirent := Dirent { d_head : list Z; d_type : list Z; d_name : list Z; d_pad : list Z }.

Definition dirent_length (a : abi) (e : dirent) : nat := name_offset a + length (d_name e) + 1 + length (d_pad e).

Definition dirent_bytes (a : abi) (e : dirent) : list Z :=
  d_head e ++ le_bytes 2 (Z.of_nat (dirent_length a e)) ++ d_type e ++ d_name e ++ 0 :: d_pad e.

Definition dirents (a : abi) (es : list dirent) : list Z := concat (map (dirent_bytes a) es).

(** What an entry names: the directories every directory has, or a thread. *)
Inductive names : list Z -> option Z -> Prop :=
| names_here : names [0x2E] None
| names_up : names [0x2E; 0x2E] None
| names_thread tid : 0 <= tid < 2 ^ 31 -> names (digits (my_uint_len tid) tid) (Some tid).

Definition head_ok (a : abi) (e : dirent) : Prop :=
  length (d_head e) = reclen_offset a /\ length (d_type e) = (name_offset a - reclen_offset a - 2)%nat.

Definition dirent_is (a : abi) (e : dirent) (t : option Z) : Prop :=
  head_ok a e /\ Z.of_nat (dirent_length a e) < 2 ^ 16 /\ names (d_name e) t.

Lemma length_dirent_bytes a e : head_ok a e -> length (dirent_bytes a e) = dirent_length a e.
Proof.
  intros [H Ht]. unfold dirent_bytes, dirent_length. rewrite !length_app, length_le_bytes, H, Ht. cbn [length]. destruct a; cbn; lia.
Qed.

Lemma dirent_length_pos a e : (0 < dirent_length a e)%nat.
Proof. unfold dirent_length. lia. Qed.

Lemma digits_nonzero n : forall i, nonzero (digits n i).
Proof.
  induction n as [|n IH]; intros i; cbn [digits]; [constructor|]. unfold nonzero. apply Forall_app. split; [apply IH|].
  constructor; [|constructor]. pose proof (Z.mod_pos_bound i 10). lia.
Qed.

Lemma digits_no_dot n i rest : (0 < n)%nat -> digits n i <> 0x2E :: rest.
Proof.
  intros Hn E. destruct n as [|n]; [lia|]. assert (Forall (fun c => 0x30 <= c) (digits (S n) i)) as H.
  { clear. revert i. induction (S n) as [|m IH]; intros i; cbn [digits]; [constructor|]. apply Forall_app. split; [apply IH|].
    constructor; [|constructor]. pose proof (Z.mod_pos_bound i 10). lia. }
  rewrite E in H. inversion_clear H. lia.
Qed.

(** What the loop gets from a name. *)
Lemma name_parsed name t rest : names name t ->
  (c1 ← my_strcmp (name ++ 0 :: rest) [0x2E; 0];
   c2 ← (if c1 =? 0 then Ret 0 else my_strcmp (name ++ 0 :: rest) [0x2E; 0x2E; 0]);
   (if negb (c1 =? 0) && negb (c2 =? 0) then my_strtoui (name ++ 0 :: rest) else Ret None)) = Ret t.
Proof.
  intros [| |tid Ht]; [done|done|]. change (2 ^ 31) with 2147483648 in Ht. set (d := digits _ tid).
  assert (0 < my_uint_len tid)%nat as Hpos by (destruct (my_uint_len_spec tid); [change (2 ^ 64) with 18446744073709551616; lia|lia]).
  assert (nonzero d) as Hd by apply digits_nonzero.
  assert (forall s, nonzero (0x2E :: s) -> (sign_of (string_order d (0x2E :: s)) =? 0) = false) as Hne.
  { intros s Hs. destruct (string_order d _) eqn:E; [|done..]. apply string_order_eq in E; [|done|done]. by apply digits_no_dot in E. }
  assert (forall s, nonzero s -> my_strcmp (d ++ 0 :: rest) (s ++ [0]) = Ret (sign_of (string_order d s))) as Hc.
  { intros s Hs. by destruct (my_strncmp_spec d s 0 rest [] Hd Hs). }
  assert (nonzero [0x2E]) by by repeat constructor. assert (nonzero [0x2E; 0x2E]) by by repeat constructor.
  change [0x2E; 0x2E; 0] with ([0x2E; 0x2E] ++ [0]). change [0x2E; 0] with ([0x2E] ++ [0]).
  rewrite (Hc [0x2E]), bind_Ret, Hne by done. rewrite (Hc [0x2E; 0x2E]), bind_Ret, Hne by done. cbn [negb andb].
  apply my_strtoui_spec. change (2 ^ 31) with 2147483648. lia.
Qed.

(** The threads of a directory, without those that repeat the one before. *)
Fixpoint no_repeats (last_tid : Z) (ts : list (option Z)) : list Z :=
  match ts with
  | [] => []
  | None :: ts => no_repeats last_tid ts
  | Some t :: ts => if last_tid =? t then no_repeats last_tid ts else t :: no_repeats t ts
  end.

Section Directory.

Variable a : abi.

(** A reader that has the entries [es] in its buffer and [chunks] to come. *)
Definition reader_at (d : dir_reader) (es : list dirent) (chunks : list (list dirent)) : Prop :=
  dir_hit_eof d = false /\ dir_buf_used d = length (dirents a es) /\ take (dir_buf_used d) (dir_buf d) = dirents a es
  /\ length (dir_buf d) = dir_buf_size a /\ calls d = map (fun c => Some (dirents a c)) chunks
  /\ Forall (fun c => c <> [] /\ (length (dirents a c) <= dir_buf_size a)%nat) chunks.

Lemma dirents_cons e es : dirents a (e :: es) = dirent_bytes a e ++ dirents a es.
Proof. done. Qed.

Lemma dirents_nil es : Forall (head_ok a) es -> length (dirents a es) = 0%nat -> es = [].
Proof.
  intros H Hl. destruct es as [|e es]; [done|]. inversion_clear H. rewrite dirents_cons, length_app, length_dirent_bytes in Hl by done.
  pose proof (dirent_length_pos a e). lia.
Qed.

(** The first entry of the buffer: its name, and the reader behind it. *)
Lemma entry_step d e es chunks t : reader_at d (e :: es) chunks -> dirent_is a e t ->
  exists rest d', GetNextEntry a d = Ret (Some (d_name e ++ 0 :: rest), d) /\ PopEntry a d = Ret d' /\ reader_at d' es chunks.
Proof.
  intros (Heof & Hu & Hb & Hl & Hc & Hf) (Hh & Hn & _). pose proof (dirent_length_pos a e) as Hpos.
  set (buf := dir_buf d) in *. rewrite dirents_cons in Hu, Hb. rewrite length_app, length_dirent_bytes in Hu by done.
  assert (buf = dirent_bytes a e ++ dirents a es ++ drop (dir_buf_used d) buf) as E by (by rewrite app_assoc, <- Hb, take_drop).
  assert (length (drop (dir_buf_used d) buf) = dir_buf_size a - dir_buf_used d)%nat as Hj by (rewrite length_drop; lia).
  set (junk := drop (dir_buf_used d) buf) in *.
  assert (dir_buf_used d <= dir_buf_size a)%nat as Hle.
  { apply (f_equal length) in Hb. rewrite length_take, length_app, length_dirent_bytes in Hb by done. lia. }
  exists (d_pad e ++ dirents a es ++ junk). eexists. split; [|split].
  - unfold GetNextEntry. destruct (Nat.eqb_spec (dir_buf_used d) 0); [lia|]. cbn [andb]. fold buf. rewrite E. do 3 f_equal.
    unfold dirent_bytes. rewrite <- !app_assoc. rewrite (app_assoc (le_bytes _ _)), (app_assoc (d_head e)).
    rewrite drop_app_length' by (rewrite !length_app, length_le_bytes; destruct Hh as [-> ->]; by destruct a). done.
  - unfold PopEntry. destruct (Nat.eqb_spec (dir_buf_used d) 0); [lia|]. fold buf.
    assert (load buf (reclen_offset a) 2 = Ret (le_bytes 2 (Z.of_nat (dirent_length a e)))) as ->.
    { rewrite load_in_bounds; [|rewrite E, !length_app, length_dirent_bytes by done; unfold dirent_length; destruct a; cbn; lia].
      rewrite E. unfold dirent_bytes. rewrite <- !app_assoc. rewrite drop_app_length' by (symmetry; apply Hh).
      rewrite take_app_length' by (by rewrite length_le_bytes). done. }
    rewrite bind_Ret, le_val_bytes, (wrap_small (8 * _)), Nat2Z.id by (split; [lia|exact Hn]).
    rewrite wrap_small by (assert (dir_buf_size a <= 536)%nat by (destruct a; cbn; lia); change (2 ^ 32) with 4294967296; split; lia).
    replace (Z.to_nat _) with (length (dirents a es)) by lia.
    rewrite load_in_bounds, bind_Ret by (rewrite E, !length_app, length_dirent_bytes by done; lia).
    assert (take (length (dirents a es)) (drop (dirent_length a e) buf) = dirents a es) as ->.
    { rewrite E, drop_app_length', take_app_length by (by rewrite length_dirent_bytes). done. }
    rewrite store_in_bounds, bind_Ret by lia. reflexivity.
  - repeat (split; [done || (cbn [dir_buf_used dir_buf calls]; rewrite take_0, app_nil_l, ?take_app_length; done)|]).
    split; [|done]. cbn [dir_buf]. rewrite take_0, app_nil_l, length_app, length_drop. lia.
Qed.

(** An empty buffer takes what getdents gives next. *)
Lemma refill_step d c chunks : reader_at d [] (c :: chunks) -> Forall (head_ok a) c ->
  exists d', GetNextEntry a d = GetNextEntry a d' /\ reader_at d' c chunks.
Proof.
  intros (Heof & Hu & Hb & Hl & Hc & Hf) Hh. inversion_clear Hf as [|? ? [Hne Hsz] Hf']. cbn [dirents map concat length] in Hu.
  assert (length (dirents a c) <> 0%nat) as Hn by (intros H; by apply dirents_nil in H).
  exists (DirectoryReader (dir_hit_eof d) (length (dirents a c)) (dirents a c ++ drop (length (dirents a c)) (dir_buf d)) (map (fun c => Some (dirents a c)) chunks)).
  split.
  - unfold GetNextEntry. cbn [dir_buf_used dir_hit_eof dir_buf calls]. rewrite Hu, Hc. cbn [Nat.eqb map]. destruct (Nat.eqb_spec (length (dirents a c)) 0) as [|_]; [done|].
    destruct (dirents a c) as [|b bs] eqn:E; [done|]. rewrite <- E in *. rewrite store_in_bounds, bind_Ret, take_0 by lia. cbn [dir_buf_used dir_hit_eof dir_buf]. rewrite Nat.add_0_l.
    destruct (Nat.eqb_spec (length (dirents a c)) 0) as [|_]; done.
  - repeat (split; [done || (cbn [dir_buf_used dir_buf calls]; rewrite ?take_app_length; done)|]).
    split; [cbn [dir_buf]; rewrite length_app, length_drop; lia|]. split; [done|exact Hf'].
Qed.

Lemma end_step d : reader_at d [] [] -> exists d', GetNextEntry a d = Ret (None, d').
Proof.
  intros (Heof & Hu & Hb & Hl & Hc & Hf). unfold GetNextEntry. cbn [dirents map concat length] in Hu, Hc. rewrite Hu, Hc.
  eexists. reflexivity.
Qed.

Lemma dirents_heads es ts : Forall2 (dirent_is a) es ts -> Forall (head_ok a) es.
Proof. induction 1 as [|e t es ts H]; constructor; [apply H|done]. Qed.

Lemma each_entry_spec fuel : forall d es chunks ts tss last_tid threads, (length (es ++ concat chunks) < fuel)%nat -> reader_at d es chunks ->
  Forall2 (dirent_is a) es ts -> Forall2 (Forall2 (dirent_is a)) chunks tss ->
  each_entry fuel a d last_tid threads = Ret (threads ++ no_repeats last_tid (ts ++ concat tss)).
Proof.
  induction fuel as [|fuel IH]; intros d es chunks ts tss last_tid threads Hf Hr Hes Hch; [lia|].
  assert (forall d e es chunks t ts tss, (length ((e :: es) ++ concat chunks) < S fuel)%nat -> reader_at d (e :: es) chunks -> dirent_is a e t -> Forall2 (dirent_is a) es ts ->
    Forall2 (Forall2 (dirent_is a)) chunks tss ->
    each_entry (S fuel) a d last_tid threads = Ret (threads ++ no_repeats last_tid ((t :: ts) ++ concat tss))) as Hstep.
  { clear - IH. intros d e es chunks t ts tss Hf Hr He Hes Hch. destruct (entry_step d e es chunks t Hr He) as (rest & d' & E1 & E2 & Hr').
    cbn [each_entry]. rewrite E1, bind_Ret. destruct He as (_ & _ & Hn). pose proof (name_parsed _ _ rest Hn) as Hp.
    apply bind_Ret_inv in Hp as (c1 & -> & Hp). rewrite bind_Ret. apply bind_Ret_inv in Hp as (c2 & -> & Hp). rewrite bind_Ret, Hp, bind_Ret.
    cbn [app length] in Hf. cbn [app no_repeats].
    destruct t as [t|]; [destruct (last_tid =? t); cbn [negb]|]; rewrite E2, bind_Ret, (IH d' es chunks ts tss) by (done || lia); [done|by rewrite <- app_assoc|done]. }
  destruct es as [|e es].
  - inversion Hes; subst ts. destruct chunks as [|c chunks].
    + inversion Hch; subst tss. destruct (end_step d Hr) as (d' & E). cbn [each_entry]. rewrite E, bind_Ret. cbn [app concat no_repeats]. by rewrite app_nil_r.
    + inversion Hch as [|? t1 ? tss1 Hc Hcs]; subst. destruct (refill_step d c chunks Hr (dirents_heads _ _ Hc)) as (d' & E & Hr').
      assert (each_entry (S fuel) a d last_tid threads = each_entry (S fuel) a d' last_tid threads) as -> by (cbn [each_entry]; by rewrite E).
      destruct Hr as (_ & _ & _ & _ & _ & Hne). inversion_clear Hne as [|? ? [Hne' _] _]. destruct Hc as [|e t c ts1 He Hc]; [done|].
      by apply (Hstep d' e c chunks).
  - inversion Hes; subst. by apply (Hstep d e es chunks).
Qed.

End Directory.

(** C21: The number of entries is fuel enough: whatever order the directory lists
    the threads in and however getdents cuts it up, the threads are found in
    that order, each once if the directory has it once. *)
Theorem EnumerateThreads_spec a d path chunks tss : 0 < pid_ d < 2 ^ 64 -> length path = NAME_MAX ->
  (length (proc_path (pid_ d) (literal "task")) < NAME_MAX)%nat ->
  Forall2 (Forall2 (dirent_is a)) chunks tss -> Forall (fun c => c <> [] /\ (length (dirents a c) <= dir_buf_size a)%nat) chunks ->
  EnumerateThreads (S (length (concat chunks))) a path (Some (DirectoryReader false 0 (replicate (dir_buf_size a) 0) (map (fun c => Some (dirents a c)) chunks))) d
  = Ret (true, LinuxPtraceDumper (pid_ d) (threads_ d ++ no_repeats (-1) (concat tss)) (threads_suspended_ d) (traced_ d)).
Proof.
  intros Hpid Hpath Hfit Hts Hch. unfold EnumerateThreads. assert (nonzero (literal "task")) as Hn by by repeat constructor.
  rewrite (BuildProcPath_spec path (pid_ d) (literal "task") []) by done. destruct (Nat.leb_spec NAME_MAX (length (proc_path (pid_ d) (literal "task")))); [lia|].
  rewrite bind_Ret. cbn [negb]. rewrite (each_entry_spec a _ _ [] chunks [] tss); [done|cbn [app]; lia| |constructor|done].
  repeat (split; [done|]). split; [cbn [dir_buf]; by rewrite length_replicate|]. done.
Qed.

(** Without repeats in the directory none is lost. *)
Lemma no_repeats_all ts : forall last_tid, NoDup (last_tid :: ts) -> no_repeats last_tid (map Some ts) = ts.
Proof.
  induction ts as [|t ts IH]; intros last_tid H; [done|]. cbn [map no_repeats]. inversion_clear H as [|? ? Hni Hnd].
  destruct (Z.eqb_spec last_tid t) as [->|_]; [exfalso; apply Hni; by left|]. by rewrite IH.
Qed.

(** * The state of a thread *)

(** What a line of the status file says; other lines start otherwise. *)
Inductive status_is : list Z -> option Z * option Z -> Prop :=
| status_tgid n : 0 <= n < 2 ^ 31 -> status_is (literal "Tgid:" ++ 9 :: digits (my_uint_len n) n) (Some n, None)
| status_ppid n : 0 <= n < 2 ^ 31 -> status_is (literal "PPid:" ++ 9 :: digits (my_uint_len n) n) (None, Some n)
| status_other line : nonzero line -> take 6 line <> literal "Tgid:" ++ [9] -> take 6 line <> literal "PPid:" ++ [9] -> status_is line (None, None).

Definition step_status (s x : option Z * option Z) : option Z * option Z :=
  (match x.1 with Some n => Some n | None => s.1 end, match x.2 with Some n => Some n | None => s.2 end).

Lemma prefix_compare p line rest : nonzero p -> nonzero line -> length p = 6%nat ->
  exists c, my_strncmp (p ++ [0]) (line ++ 0 :: rest) 6 = Ret c /\ (c =? 0) = bool_decide (take 6 line = p).
Proof.
  intros Hp Hl Hlen. destruct (my_strncmp_spec p line 6 [] rest Hp Hl) as [-> _]. eexists. split; [done|].
  rewrite (take_ge p) by lia. assert (nonzero (take 6 line)) as Ht by (by apply Forall_take).
  pose proof (string_order_eq p (take 6 line) Hp Ht) as H. destruct (string_order p (take 6 line)); cbn [sign_of];
    symmetry; [apply bool_decide_eq_true_2; symmetry; by apply H|apply bool_decide_eq_false_2..]; intros E; symmetry in E; by apply H in E.
Qed.

Lemma status_line_spec s line x rest : status_is line x -> status_line s (length line) (line ++ 0 :: rest) = Ret (step_status s x).
Proof.
  assert (nonzero (literal "Tgid:" ++ [9])) as HT by by repeat constructor. assert (nonzero (literal "PPid:" ++ [9])) as HP by by repeat constructor.
  assert (nonzero line -> exists c1 c2, my_strncmp (literal "Tgid:" ++ [9; 0]) (line ++ 0 :: rest) 6 = Ret c1
    /\ (c1 =? 0) = bool_decide (take 6 line = literal "Tgid:" ++ [9])
    /\ my_strncmp (literal "PPid:" ++ [9; 0]) (line ++ 0 :: rest) 6 = Ret c2 /\ (c2 =? 0) = bool_decide (take 6 line = literal "PPid:" ++ [9])) as Hc.
  { intros Hl. destruct (prefix_compare _ line rest HT Hl eq_refl) as (c1 & E1 & H1). destruct (prefix_compare _ line rest HP Hl eq_refl) as (c2 & E2 & H2).
    rewrite <- app_assoc in E1, E2. by exists c1, c2. }
  unfold status_line. intros Hx.
  assert (nonzero line) as Hl by (destruct Hx; [unfold nonzero; rewrite Forall_app, Forall_cons; (split; [by repeat constructor|split; [done|apply digits_nonzero]])..|done]).
  destruct (Hc Hl) as (c1 & c2 & -> & H1 & -> & H2). rewrite !bind_Ret, H1, H2. clear Hc H1 H2. destruct Hx as [n Hn|n Hn|line Hl' N1 N2].
  - rewrite bool_decide_eq_true_2 by done. pose proof (my_strtoui_spec n rest Hn) as [E _].
    change (drop 6 _) with (digits (my_uint_len n) n ++ 0 :: rest). by rewrite E, bind_Ret.
  - rewrite bool_decide_eq_false_2 by done. rewrite bool_decide_eq_true_2 by done. pose proof (my_strtoui_spec n rest Hn) as [E _].
    change (drop 6 _) with (digits (my_uint_len n) n ++ 0 :: rest). by rewrite E, bind_Ret.
  - rewrite !bool_decide_eq_false_2 by done. by destruct s.
Qed.

(** The registers by GETREGSET, both kinds, or else by GETREGS. *)
Definition registers_of (a : abi) (k : kernel) (tid : Z) (fp : fpsimd) : option (list Z * fpsimd) :=
  match getregset_gp k tid, getregset_fp k tid with
  | Some gp, Some fp => Some (gp, fp)
  | _, _ =>
      match getregs k tid, a with
      | Some gp, armeabi_v7a => Some (gp, fp)
      | Some gp, arm64_v8a => match getfpregs k tid with Some fp => Some (gp, fp) | None => None end
      | None, _ => None
      end
  end.

(** The thread group and the parent are those of the status file, the last line
    that has each; the stack pointer is the one among the registers; and
    without registers there is no information. *)
Theorem GetThreadInfoByIndex_spec a k d path index info tid r xs g p : threads_ d !! index = Some tid -> 0 < tid < 2 ^ 64 ->
  length path = NAME_MAX -> (length (proc_path tid (literal "status")) < NAME_MAX)%nat -> status k tid = Some r -> wf r -> fits (pending r) ->
  Forall2 status_is (lines (pending r)) xs -> fold_left step_status xs (None, None) = (Some g, Some p) ->
  exists info', GetThreadInfoByIndex a k d path index info
      = Ret (match registers_of a k tid (fpregs info) with Some _ => true | None => false end, info')
    /\ tgid info' = g /\ ppid info' = p
    /\ forall gp fp, registers_of a k tid (fpregs info) = Some (gp, fp) -> info' = Thread g p (reg gp (sp_index a)) gp fp.
Proof.
  intros Hi Htid Hpath Hfit Hr Hwf Hfits Hxs Hfold. unfold GetThreadInfoByIndex. rewrite Hi.
  rewrite (BuildProcPath_spec path tid (literal "status") []) by (done || by repeat constructor).
  destruct (Nat.leb_spec NAME_MAX (length (proc_path tid (literal "status")))); [lia|]. rewrite bind_Ret. cbn [negb]. rewrite Hr.
  rewrite (each_line_spec status_line step_status status_is (fun _ => True)) with (xs := xs);
    [|intros s line x rest _ Hx _; split; [by apply status_line_spec|done]|done|done|done|done|pose proof (lines_bound (pending r)); lia].
  rewrite bind_Ret, Hfold. unfold registers_of, ReadRegisterSet, ReadRegisters.
  destruct (getregset_gp k tid) as [gp|]; [destruct (getregset_fp k tid) as [fp|]|]; cbn beta iota;
    try (destruct (getregs k tid) as [gp'|]; [destruct a; [|destruct (getfpregs k tid) as [fp'|]]|]); cbn beta iota;
    eexists; (split; [reflexivity|split; [done|split; [done|by intros ? ? [= -> ->]]]]).
Qed.

(** * Concrete inputs *)

(** A process whose thread 12 cannot be attached to and whose thread 13 never
    stops; its memory at [addr] is the low byte of [addr]; it cannot be read at
    0x1010. *)
Definition sample_kernel : kernel :=
  Kernel (fun pid => negb (pid =? 12)) (fun _ => true) (fun pid => if pid =? 13 then [WaitInterrupted; WaitFailed] else [WaitInterrupted])
    (fun _ addr => if addr =? 0x1010 then None else Some (le_val (map (fun i => u8 (addr + Z.of_nat i)) (seq 0 8))))
    (fun _ => None) (fun _ => None) (fun _ => None) (fun _ => None) (fun _ => None).

Lemma suspend_resume_restores_witness :
  threads_suspended_ (LinuxPtraceDumper 10 [10; 12; 13; 14] false ∅) = false /\
  exists kept traced, ThreadsSuspend sample_kernel (LinuxPtraceDumper 10 [10; 12; 13; 14] false ∅) = Ret ((0 <? length kept)%nat, LinuxPtraceDumper 10 kept true traced)
    /\ sublist kept [10; 12; 13; 14] /\ NoDup kept
    /\ (forall tid, tid ∈ kept <-> tid ∈ [10; 12; 13; 14] /\ stops sample_kernel tid /\ (tid ∉ (∅ : gset Z)))
    /\ (forall tid, tid ∈ traced <-> tid ∈ kept \/ tid ∈ (∅ : gset Z))
    /\ ThreadsSuspend sample_kernel (LinuxPtraceDumper 10 kept true traced) = Ret (true, LinuxPtraceDumper 10 kept true traced)
    /\ ThreadsResume sample_kernel (LinuxPtraceDumper 10 kept true traced) = (true, LinuxPtraceDumper 10 kept false ∅)
    /\ ThreadsResume sample_kernel (LinuxPtraceDumper 10 kept false ∅) = (false, LinuxPtraceDumper 10 kept false ∅).
Proof.
  split; [reflexivity|].
  exact (suspend_resume_restores sample_kernel (fun _ => eq_refl) (LinuxPtraceDumper 10 [10; 12; 13; 14] false ∅) eq_refl).
Defined.

Example sample_suspend :
  (fun r => (r.1, threads_ r.2, elements (traced_ r.2))) <$> ThreadsSuspend sample_kernel (LinuxPtraceDumper 10 [10; 12; 13; 14] false ∅)
  = Ret (true, [10; 14], [14; 10]).
Proof. vm_compute. reflexivity. Qed.

Lemma sample_memory : reads_memory arm64_v8a sample_kernel 10 (fun addr => negb (addr =? 0x1010)) u8.
Proof.
  split; [intros addr; apply wrap_range; lia|]. intros addr. cbn [sample_kernel peek]. by destruct (addr =? 0x1010).
Qed.

Lemma CopyFromProcess_spec_witness :
  reads_memory arm64_v8a sample_kernel 10 (fun addr => negb (addr =? 0x1010)) u8 /\
  CopyFromProcess arm64_v8a sample_kernel (replicate 22 9) 10 0x1008 20
  = Ret (true, [8; 9; 10; 11; 12; 13; 14; 15; 0; 0; 0; 0; 0; 0; 0; 0; 24; 25; 26; 27; 9; 9]).
Proof.
  split; [apply sample_memory|].
  exact (CopyFromProcess_spec arm64_v8a sample_kernel 10 (fun addr => negb (addr =? 0x1010)) u8 0x1008 (replicate 22 9) 20
    sample_memory ltac:(lia) ltac:(cbn; lia) ltac:(cbn; lia)).
Defined.

Definition entry_of (name : list Z) : dirent := Dirent (replicate 16 0) [4] name [0].

Lemma EnumerateThreads_spec_witness :
  let chunks := [[entry_of [0x2E]; entry_of [0x2E; 0x2E]; entry_of (literal "10")]; [entry_of (literal "12")]] in
  Forall2 (Forall2 (dirent_is arm64_v8a)) chunks [[None; None; Some 10]; [Some 12]] /\
  EnumerateThreads 5 arm64_v8a (replicate NAME_MAX 0)
    (Some (DirectoryReader false 0 (replicate (dir_buf_size arm64_v8a) 0) (map (fun c => Some (dirents arm64_v8a c)) chunks))) (new_dumper 10)
  = Ret (true, LinuxPtraceDumper 10 [10; 12] false ∅).
Proof.
  intros chunks. assert (Forall2 (Forall2 (dirent_is arm64_v8a)) chunks [[None; None; Some 10]; [Some 12]]) as H.
  { assert (forall name t, names name t -> (length name <= 2)%nat -> dirent_is arm64_v8a (entry_of name) t) as He.
    { intros name t Hn Hl. split; [split; reflexivity|]. split; [|exact Hn]. unfold dirent_length, entry_of, name_offset. cbn [word_size d_name d_pad length].
      change (2 ^ 16) with 65536. lia. }
    constructor; [|constructor; [|constructor]].
    - constructor; [apply He; [constructor|cbn; lia]|]. constructor; [apply He; [constructor|cbn; lia]|].
      constructor; [apply He; [apply (names_thread 10); lia|cbn; lia]|constructor].
    - constructor; [apply He; [apply (names_thread 12); lia|cbn; lia]|constructor]. }
  split; [exact H|].
  apply (EnumerateThreads_spec arm64_v8a (new_dumper 10) (replicate NAME_MAX 0) chunks [[None; None; Some 10]; [Some 12]]).
  - cbn [new_dumper pid_]. change (2 ^ 64) with 18446744073709551616. lia.
  - apply length_replicate.
  - vm_compute. lia.
  - exact H.
  - apply (bool_decide_unpack _). vm_compute. exact I.
Defined.
