(* ===== verification/ThreadList.v ===== *)
(** Threads and memory of a minidump: the thread list, the memory that the
    application asks for, the memory list and the exception in
    client/linux/minidump_writer/minidump_writer.cc of libbreakpad.

    What a MinidumpWriter changes while it dumps is in [dump_state]; the process
    and what the writer was made with are variables of the section. A function
    that returns false gives [None] or [false] with the state it has reached;
    the object of a chunk is written whenever it goes out of scope. *)
From stdpp Require Import gmap.
From S2P Require Import Prelude Utf8 ConvertUtf LibcSupport LineReader LinuxDumper FileWriter Regions Registers PtraceDumper.

Record dump_state := DumpState {
  minidump_writer_ : writer;
  memory_blocks_ : list (Z * (Z * Z));
  crashing_thread_context_ : Z * Z;
  crash_address_ : Z
}.

Record minidump_writer := MinidumpWriter {
  ucontext_ : option crash_context;
  minidump_size_limit_ : Z;
  mapping_list_ : list (MappingInfo * list Z);
  app_memory_list_ : list (Z * Z);
  skip_stacks_if_mapping_unreferenced_ : bool;
  principal_mapping_ : option MappingInfo;
  sanitize_stacks_ : bool
}.

Definition kLimitAverageThreadStackLength : Z := 8 * 1024.
Definition kLimitBaseThreadCount : Z := 20.
Definition kLimitMaxExtraThreadStackLen : Z := 2 * 1024.
Definition kLimitMinidumpFudgeFactor : Z := 64 * 1024.

Definition kIPMemorySize : Z := 256.

Definition MD_THREAD_LIST_STREAM : Z := 3.
Definition MD_MEMORY_LIST_STREAM : Z := 5.
Definition MD_EXCEPTION_STREAM : Z := 6.

(** MDLocationDescriptor and MDMemoryDescriptor. *)
Definition location_bytes (l : Z * Z) : list Z := le_bytes 4 l.1 ++ le_bytes 4 l.2.
Definition memory_descriptor_bytes (m : Z * (Z * Z)) : list Z := le_bytes 8 m.1 ++ location_bytes m.2.

Record MDRawThread := RawThread { thread_id : Z; stack : Z * (Z * Z); thread_context : Z * Z }.

(** The counts, the priorities and the environment block are zero. *)
Definition thread_bytes (t : MDRawThread) : list Z :=
  le_bytes 4 (thread_id t) ++ replicate 20 0 ++ memory_descriptor_bytes (stack t) ++ location_bytes (thread_context t).

Definition sizeof_thread : Z := 48.
Definition sizeof_memory_descriptor : Z := 16.

Definition with_writer (s : dump_state) (wr : writer) : dump_state :=
  DumpState wr (memory_blocks_ s) (crashing_thread_context_ s) (crash_address_ s).

Definition push_block (s : dump_state) (m : Z * (Z * Z)) : dump_state :=
  DumpState (minidump_writer_ s) (memory_blocks_ s ++ [m]) (crashing_thread_context_ s) (crash_address_ s).

(** A list of type [TypedMDRVA<uint32_t>], which the caller fills. *)
Definition new_list (s : dump_state) : typed := TypedMDRVA (new_chunk (minidump_writer_ s)) (le_bytes 4 0) UNALLOCATED.

Definition set_data (t : typed) (data : list Z) : typed := TypedMDRVA (chunk t) data (allocation_state_ t).

(** A file with room for more. *)
Definition roomy (n : Z) (s : dump_state) : Prop := writer_ok (minidump_writer_ s) /\ size_ (minidump_writer_ s) + n < 2 ^ 30 - 2 ^ 25.

Lemma roomy_grows n m s wr ms c address : roomy n s -> grows m (minidump_writer_ s) wr -> m <= n -> roomy (n - m) (DumpState wr ms c address).
Proof. intros [Hwr Hs] Hgr Hm. split; [by apply grows_ok in Hgr|]. destruct Hgr as [_ Hsz]. cbn [minidump_writer_]. lia. Qed.

Lemma roomy_weaken n m s : roomy n s -> m <= n -> roomy m s.
Proof. intros [? ?] Hm. split; [done|lia]. Qed.

Section Dump.

Variables (a : abi) (page_size : Z) (g : workaround) (k : kernel) (conf : minidump_writer) (d : dumper).
Variables (mappings : list MappingInfo) (crash_thread : Z).

Let w := word_bits a.

(** * Blocks of memory *)

(** Alloc takes an unsigned, and gives zeros. *)
Definition Alloc (bytes : Z) : list Z := replicate (Z.to_nat (u32 bytes)) 0.

Definition copy_memory (dest : list Z) (tid src len : Z) : res (list Z) :=
  '(_, memory) ← CopyFromProcess a k dest tid src (Z.to_nat len);
  Ret memory.

(** An UntypedMDRVA of its own, [None] when the file cannot grow. *)
Definition allocate_block (s : dump_state) (n : Z) : res (option untyped * dump_state) :=
  '(ok, u, wr) ← Untyped_Allocate w page_size (minidump_writer_ s) g (new_chunk (minidump_writer_ s)) n;
  Ret (if ok : bool then Some u else None, with_writer s wr).

(** The result of Copy is not looked at. *)
Definition fill_block (s : dump_state) (u : untyped) (start : Z) (memory : list Z) : res ((Z * (Z * Z)) * dump_state) :=
  '(_, wr) ← Untyped_Copy w (minidump_writer_ s) u (u_position u) memory;
  Ret ((start, location u), push_block (with_writer s wr) (start, location u)).

(** * Stacks *)

(** [while (int_stack + max_stack_len < stack_pointer) ...]. *)
Fixpoint skip_chunks (fuel : nat) (max_stack_len int_stack stack_pointer : Z) : res Z :=
  match fuel with
  | O => Fault OutOfFuel
  | S fuel =>
      if wrap w (int_stack + max_stack_len) <? stack_pointer
      then skip_chunks fuel max_stack_len (wrap w (int_stack + max_stack_len)) stack_pointer
      else Ret int_stack
  end.

(** The stack that FillThreadStack writes, if any: its address and its bytes.
    The stack pointer is on the page where the stack starts. *)
Definition captured_stack (tid stack_pointer pc max_stack_len : Z) : res (option (Z * list Z)) :=
  match GetStackInfo w page_size mappings stack_pointer with
  | None => Ret None
  | Some (stack, stack_len) =>
      let stack_len := wrap w stack_len in
      '(stack, stack_len) ← (if (0 <=? max_stack_len) && (max_stack_len <? stack_len) then
                               stack ← (if 0 <? max_stack_len then skip_chunks (S (Z.to_nat page_size)) max_stack_len stack stack_pointer else Ret stack);
                               Ret (stack, max_stack_len)
                             else Ret (stack, stack_len));
      stack_copy ← copy_memory (Alloc stack_len) tid stack stack_len;
      let stack_pointer_offset := wrap w (stack_pointer - stack) in
      if skip_stacks_if_mapping_unreferenced_ conf
         && match principal_mapping_ conf with
            | None => true
            | Some m => ((pc <? sys_start_addr m) || (sys_end_addr m <? pc)) && negb (StackHasPointerToMapping w stack_copy stack_pointer_offset m)
            end
      then Ret None
      else
        stack_copy ← (if sanitize_stacks_ conf then SanitizeStackCopy w mappings stack_copy stack_pointer stack_pointer_offset else Ret stack_copy);
        Ret (Some (stack, stack_copy))
  end.

(** The member [stack] of the thread. *)
Definition FillThreadStack (s : dump_state) (tid stack_pointer pc max_stack_len : Z) : res (option (Z * (Z * Z)) * dump_state) :=
  captured ← captured_stack tid stack_pointer pc max_stack_len;
  match captured with
  | None => Ret (Some (stack_pointer, (0, position_ (minidump_writer_ s))), s)
  | Some (stack, stack_copy) =>
      '(u, s) ← allocate_block s (Z.of_nat (length stack_copy));
      match u with
      | None => Ret (None, s)
      | Some u => '(m, s) ← fill_block s u stack stack_copy; Ret (Some m, s)
      end
  end.

(** * Threads *)

(** The memory around the instruction pointer, inside the first mapping that
    has it: where it starts, and its size. *)
Definition ip_memory (ip : Z) : option (Z * Z) :=
  match List.find (fun m => (start_addr m <=? ip) && (ip <? wrap w (start_addr m + size m))) mappings with
  | None => None
  | Some m =>
      let start := Z.max (start_addr m) (wrap w (ip - kIPMemorySize / 2)) in
      let end_of_range := Z.min (wrap w (ip + kIPMemorySize / 2)) (wrap w (start_addr m + size m)) in
      Some (start, u32 (end_of_range - start))
  end.

Definition write_ip_memory (s : dump_state) (tid ip : Z) : res (bool * dump_state) :=
  match ip_memory ip with
  | None => Ret (true, s)
  | Some (start, data_size) =>
      '(u, s) ← allocate_block s data_size;
      match u with
      | None => Ret (false, s)
      | Some u =>
          memory_copy ← copy_memory (Alloc data_size) tid start data_size;
          '(_, s) ← fill_block s u start memory_copy;
          Ret (true, s)
      end
  end.

(** A TypedMDRVA<RawContextCPU>, filled and written. *)
Definition write_context (s : dump_state) (context : list Z) : res (option (Z * Z) * dump_state) :=
  let t := TypedMDRVA (new_chunk (minidump_writer_ s)) (replicate (sizeof_context a) 0) UNALLOCATED in
  '(ok, t, wr) ← Typed_Allocate w page_size (minidump_writer_ s) g t;
  if negb (ok : bool) then wr ← TypedMDRVA_destructor w wr t; Ret (None, with_writer s wr)
  else
    wr ← TypedMDRVA_destructor w wr (set_data t context);
    Ret (Some (location (chunk t)), with_writer s wr).

Definition set_crashing_context (s : dump_state) (l : Z * Z) : dump_state :=
  DumpState (minidump_writer_ s) (memory_blocks_ s) l (crash_address_ s).

Definition set_crash_address (s : dump_state) (address : Z) : dump_state :=
  DumpState (minidump_writer_ s) (memory_blocks_ s) (crashing_thread_context_ s) address.

(** The crashing thread, as it was when the signal came. *)
Definition write_crashing_thread (s : dump_state) (tid : Z) (uc : crash_context) : res (option MDRawThread * dump_state) :=
  '(stack, s) ← FillThreadStack s tid (UContext_GetStackPointer a uc) (UContext_GetInstructionPointer a uc) (-1);
  match stack with
  | None => Ret (None, s)
  | Some stack =>
      '(ok, s) ← write_ip_memory s tid (UContext_GetInstructionPointer a uc);
      if negb (ok : bool) then Ret (None, s)
      else
        '(context, s) ← write_context s (UContext_FillCPUContext a uc);
        match context with
        | None => Ret (None, s)
        | Some context => Ret (Some (RawThread tid stack context), set_crashing_context s context)
        end
  end.

(** Any other thread; [path] and [info] are locals that are not initialised. *)
Definition write_other_thread (s : dump_state) (i : nat) (tid max_stack_len : Z) (path : list Z) (info : ThreadInfo)
    : res (option MDRawThread * dump_state) :=
  '(ok, info) ← GetThreadInfoByIndex a k d path i info;
  if negb (ok : bool) then Ret (None, s)
  else
    '(stack, s) ← FillThreadStack s tid (stack_pointer info) (GetInstructionPointer a info) max_stack_len;
    match stack with
    | None => Ret (None, s)
    | Some stack =>
        '(context, s) ← write_context s (ThreadInfo_FillCPUContext a info);
        match context with
        | None => Ret (None, s)
        | Some context =>
            let s := if tid =? crash_thread
                     then
                       let s := set_crashing_context s context in
                       if IsPostMortem then s else set_crash_address s (GetInstructionPointer a info)
                     else s in
            Ret (Some (RawThread tid stack context), s)
        end
    end.

Definition write_thread (s : dump_state) (i : nat) (tid extra_thread_stack_len : Z) (path : list Z) (info : ThreadInfo)
    : res (option MDRawThread * dump_state) :=
  let max_stack_len := if (0 <=? minidump_size_limit_ conf) && (kLimitBaseThreadCount <=? Z.of_nat i) then extra_thread_stack_len else -1 in
  match (if (tid =? crash_thread) && negb IsPostMortem then ucontext_ conf else None) with
  | Some uc => write_crashing_thread s tid uc
  | None => write_other_thread s i tid max_stack_len path info
  end.

(** The loop over the threads from index [i] on. *)
Fixpoint write_threads (s : dump_state) (t : typed) (i : nat) (tids : list Z) (extra_thread_stack_len : Z) (path : list Z) (info : ThreadInfo)
    : res (bool * dump_state) :=
  match tids with
  | [] => Ret (true, s)
  | tid :: tids =>
      '(thread, s) ← write_thread s i tid extra_thread_stack_len path info;
      match thread with
      | None => Ret (false, s)
      | Some thread =>
          '(_, wr) ← CopyIndexAfterObject w (minidump_writer_ s) t (Z.of_nat i) (thread_bytes thread);
          write_threads (with_writer s wr) t (S i) tids extra_thread_stack_len path info
      end
  end.

(** The sum of the estimate is unsigned. *)
Definition extra_stack_len (wr : writer) (num_threads : Z) : Z :=
  if 0 <=? minidump_size_limit_ conf then
    let estimated_total_stack_size := u32 (num_threads * kLimitAverageThreadStackLength) in
    let estimated_minidump_size := u32 (position_ wr + estimated_total_stack_size + kLimitMinidumpFudgeFactor) in
    if minidump_size_limit_ conf <? estimated_minidump_size then kLimitMaxExtraThreadStackLen else -1
  else -1.

(** The type and the location of the stream. *)
Definition WriteThreadListStream (s : dump_state) (path : list Z) (info : ThreadInfo) : res (option (Z * (Z * Z)) * dump_state) :=
  let num_threads := u32 (Z.of_nat (length (threads_ d))) in
  '(ok, t, wr) ← AllocateObjectAndArray w page_size (minidump_writer_ s) g (new_list s) num_threads sizeof_thread;
  if negb (ok : bool) then wr ← TypedMDRVA_destructor w wr t; Ret (None, with_writer s wr)
  else
    let t := set_data t (le_bytes 4 num_threads) in
    '(ok, s) ← write_threads (with_writer s wr) t 0 (threads_ d) (extra_stack_len wr num_threads) path info;
    wr ← TypedMDRVA_destructor w (minidump_writer_ s) t;
    Ret (if ok : bool then Some (MD_THREAD_LIST_STREAM, location (chunk t)) else None, with_writer s wr).

(** * Memory of the application *)

Fixpoint write_app_memory (s : dump_state) (l : list (Z * Z)) : res (bool * dump_state) :=
  match l with
  | [] => Ret (true, s)
  | (ptr, len) :: l =>
      data_copy ← copy_memory (replicate (Z.to_nat len) 0) crash_thread ptr len;
      '(u, s) ← allocate_block s len;
      match u with
      | None => Ret (false, s)
      | Some u => '(_, s) ← fill_block s u ptr data_copy; write_app_memory s l
      end
  end.

Definition WriteAppMemory (s : dump_state) : res (bool * dump_state) := write_app_memory s (app_memory_list_ conf).

(** * The list of the blocks *)

(** An element of a list, in its place. *)
Fixpoint copy_elements (wr : writer) (t : typed) (i : nat) (elements : list (list Z)) : res writer :=
  match elements with
  | [] => Ret wr
  | e :: elements => '(_, wr) ← CopyIndexAfterObject w wr t (Z.of_nat i) e; copy_elements wr t (S i) elements
  end.

Definition WriteMemoryListStream (s : dump_state) : res (option (Z * (Z * Z)) * dump_state) :=
  let blocks := memory_blocks_ s in
  '(ok, t, wr) ← (if (length blocks =? 0)%nat then Typed_Allocate w page_size (minidump_writer_ s) g (new_list s)
                  else AllocateObjectAndArray w page_size (minidump_writer_ s) g (new_list s) (Z.of_nat (length blocks)) sizeof_memory_descriptor);
  if negb (ok : bool) then wr ← TypedMDRVA_destructor w wr t; Ret (None, with_writer s wr)
  else
    let t := set_data t (le_bytes 4 (Z.of_nat (length blocks))) in
    wr ← copy_elements wr t 0 (map memory_descriptor_bytes blocks);
    wr ← TypedMDRVA_destructor w wr t;
    Ret (Some (MD_MEMORY_LIST_STREAM, location (chunk t)), with_writer s wr).

(** * The exception *)

(** MDRawExceptionStream; what has no value here is zero. *)
Definition exception_bytes (tid code flags address : Z) (context : Z * Z) : list Z :=
  le_bytes 4 tid ++ replicate 4 0 ++ le_bytes 4 code ++ le_bytes 4 flags ++ replicate 8 0 ++ le_bytes 8 address ++ replicate 128 0
  ++ location_bytes context.

Definition WriteExceptionStream (s : dump_state) (crash_signal crash_signal_code : Z) : res (option (Z * (Z * Z)) * dump_state) :=
  let t := TypedMDRVA (new_chunk (minidump_writer_ s)) (exception_bytes 0 0 0 0 (0, 0)) UNALLOCATED in
  '(ok, t, wr) ← Typed_Allocate w page_size (minidump_writer_ s) g t;
  if negb (ok : bool) then wr ← TypedMDRVA_destructor w wr t; Ret (None, with_writer s wr)
  else
    wr ← TypedMDRVA_destructor w wr
           (set_data t (exception_bytes crash_thread crash_signal crash_signal_code (crash_address_ s) (crashing_thread_context_ s)));
    Ret (Some (MD_EXCEPTION_STREAM, location (chunk t)), with_writer s wr).

(** * What is written *)

(** A block that a descriptor describes, and the bytes at a location; both at
    [lo] or behind. *)
Definition block_stored (lo : Z) (wr : writer) (block : Z * list Z) (m : Z * (Z * Z)) : Prop :=
  exists rva, m = (block.1, (Z.of_nat (length block.2), rva)) /\ lo <= rva /\ stored wr rva block.2.

Definition at_location (lo : Z) (wr : writer) (l : Z * Z) (bytes : list Z) : Prop :=
  exists rva, l = (Z.of_nat (length bytes), rva) /\ lo <= rva /\ stored wr rva bytes.

(** The stack of a thread in the file: nothing, or its bytes. *)
Definition stack_written (lo : Z) (wr : writer) (sp : Z) (captured : option (Z * list Z)) (m : Z * (Z * Z)) : Prop :=
  match captured with
  | None => exists rva, m = (sp, (0, rva))
  | Some block => block_stored lo wr block m
  end.

Definition blocks_of (captured : option (Z * list Z)) : list (Z * list Z) := match captured with None => [] | Some block => [block] end.

Lemma block_stored_keeps lo wr wr' block m : keeps lo wr wr' -> block_stored lo wr block m -> block_stored lo wr' block m.
Proof. intros Hk (rva & -> & Hlo & Hs). exists rva. split; [done|]. split; [done|]. by apply Hk. Qed.

Lemma block_stored_weaken lo lo' wr block m : block_stored lo wr block m -> lo' <= lo -> block_stored lo' wr block m.
Proof. intros (rva & -> & Hlo & Hs) H. exists rva. split; [done|]. split; [by eapply Z.le_trans|done]. Qed.

Lemma at_location_keeps lo wr wr' l bytes : keeps lo wr wr' -> at_location lo wr l bytes -> at_location lo wr' l bytes.
Proof. intros Hk (rva & -> & Hlo & Hs). exists rva. split; [done|]. split; [done|]. by apply Hk. Qed.

Lemma at_location_weaken lo lo' wr l bytes : at_location lo wr l bytes -> lo' <= lo -> at_location lo' wr l bytes.
Proof. intros (rva & -> & Hlo & Hs) H. exists rva. split; [done|]. split; [by eapply Z.le_trans|done]. Qed.

Lemma stack_written_keeps lo wr wr' sp captured m : keeps lo wr wr' -> stack_written lo wr sp captured m -> stack_written lo wr' sp captured m.
Proof. intros Hk. destruct captured; [by apply block_stored_keeps|done]. Qed.

Lemma stack_written_weaken lo lo' wr sp captured m : stack_written lo wr sp captured m -> lo' <= lo -> stack_written lo' wr sp captured m.
Proof. destruct captured; [by apply block_stored_weaken|done]. Qed.

Lemma blocks_stored_keeps lo wr wr' blocks ms : keeps lo wr wr' -> Forall2 (block_stored lo wr) blocks ms -> Forall2 (block_stored lo wr') blocks ms.
Proof. intros Hk H. eapply Forall2_impl; [exact H|]. intros. by apply (block_stored_keeps lo wr). Qed.

Lemma blocks_stored_weaken lo lo' wr blocks ms : Forall2 (block_stored lo wr) blocks ms -> lo' <= lo -> Forall2 (block_stored lo' wr) blocks ms.
Proof. intros H Hl. eapply Forall2_impl; [exact H|]. intros. by apply (block_stored_weaken lo). Qed.

Section Facts.

Hypothesis Hg : g = no_workaround.
Hypothesis Hpage : 0 < page_size < 2 ^ 16.

Lemma width_ok : 32 <= w.
Proof. unfold w. destruct a; cbn; lia. Qed.

Lemma copy_memory_ok dest tid src len : length dest = Z.to_nat len -> copy_memory dest tid src len = Ret (process_bytes a k tid src (Z.to_nat len)).
Proof.
  intros Hd. unfold copy_memory. rewrite CopyFromProcess_bytes, bind_Ret by lia. by rewrite drop_ge, app_nil_r by lia.
Qed.

Lemma length_Alloc len : 0 <= len < 2 ^ 32 -> length (Alloc len) = Z.to_nat len.
Proof. intros H. unfold Alloc. rewrite length_replicate, wrap_small by done. done. Qed.

(** A block is allocated and filled: the descriptor and its bytes. *)
Lemma block_written s n : roomy 0 s -> 0 < n < 2 ^ 24 ->
  exists u s1, allocate_block s n = Ret (Some u, s1) /\ forall start memory, Z.of_nat (length memory) = n ->
    exists m wr, fill_block s1 u start memory = Ret (m, push_block (with_writer s wr) m)
      /\ grows (n + 65544) (minidump_writer_ s) wr /\ block_stored (position_ (minidump_writer_ s)) wr (start, memory) m.
Proof.
  intros [Hwr Hs] Hn. change (2 ^ 30 - 2 ^ 25) with 1040187392 in Hs. change (2 ^ 24) with 16777216 in Hn.
  destruct (Untyped_Allocate_frame w page_size width_ok Hpage (minidump_writer_ s) (new_chunk (minidump_writer_ s)) n) as (wr1 & E & F1 & P1 & S1);
    [done|done|change (2 ^ 24) with 16777216; lia|change (2 ^ 30) with 1073741824; lia|].
  pose proof Hwr as (_ & _ & Hpos & _). pose proof (frame_ok _ _ _ _ F1) as Hwr1. set (p := position_ (minidump_writer_ s)) in *.
  exists (UntypedMDRVA p n), (with_writer s wr1). split; [unfold allocate_block; by rewrite Hg, E|]. intros start memory Hm.
  destruct (Untyped_Copy_frame w width_ok wr1 p n p memory) as (wr2 & E2 & F2 & B2 & P2 & S2); [done|change (2 ^ 30) with 1073741824; lia|lia|lia|lia|lia|lia|].
  exists (start, (n, p)), wr2. split.
  - unfold fill_block. cbn [minidump_writer_ with_writer u_position]. rewrite E2, bind_Ret. unfold location. cbn [u_size u_position].
    by rewrite wrap_small by (change (2 ^ 32) with 4294967296; split; lia).
  - split; [apply (frame_after _ p (p + n) _ wr1); [split; [done|lia]|by rewrite <- Hm|lia|lia]|].
    exists p. cbn [fst snd]. rewrite Hm. split; [done|]. split; [lia|]. split; [done|lia].
Qed.

(** Blocks of a size that fits. *)
Definition blocks_ok (captured : option (Z * list Z)) : Prop := Forall (fun b => 0 < Z.of_nat (length b.2) < 2 ^ 16) (blocks_of captured).

Lemma FillThreadStack_ok s tid sp pc max_stack_len captured : roomy 0 s -> captured_stack tid sp pc max_stack_len = Ret captured -> blocks_ok captured ->
  let p := position_ (minidump_writer_ s) in
  exists m wr ms, FillThreadStack s tid sp pc max_stack_len = Ret (Some m, DumpState wr (memory_blocks_ s ++ ms) (crashing_thread_context_ s) (crash_address_ s))
    /\ grows 140000 (minidump_writer_ s) wr /\ stack_written p wr sp captured m /\ Forall2 (block_stored p wr) (blocks_of captured) ms.
Proof.
  intros Hr Hc Hb. unfold FillThreadStack. rewrite Hc, bind_Ret. destruct captured as [[stack stack_copy]|].
  - inversion_clear Hb as [|? ? Hl _]. cbn [snd] in Hl. change (2 ^ 16) with 65536 in Hl.
    destruct (block_written s (Z.of_nat (length stack_copy))) as (u & s1 & -> & Hfill); [done|change (2 ^ 24) with 16777216; lia|].
    rewrite bind_Ret. destruct (Hfill stack stack_copy eq_refl) as (m & wr & -> & Hgr & Hst). rewrite bind_Ret.
    exists m, wr, [m]. split; [done|]. split; [apply (grows_weaken _ _ _ _ Hgr); lia|]. split; [done|]. constructor; [done|constructor].
  - exists (sp, (0, position_ (minidump_writer_ s))), (minidump_writer_ s), []. rewrite app_nil_r. split; [by destruct s|].
    split; [apply (grows_weaken 0); [apply grows_refl, Hr|lia]|]. split; [by eexists|constructor].
Qed.

(** The memory around an instruction pointer. *)
Definition ip_block (tid ip : Z) : option (Z * list Z) :=
  match ip_memory ip with None => None | Some (start, n) => Some (start, process_bytes a k tid start (Z.to_nat n)) end.

Lemma write_ip_memory_ok s tid ip : roomy 0 s -> blocks_ok (ip_block tid ip) ->
  exists wr ms, write_ip_memory s tid ip = Ret (true, DumpState wr (memory_blocks_ s ++ ms) (crashing_thread_context_ s) (crash_address_ s))
    /\ grows 140000 (minidump_writer_ s) wr /\ Forall2 (block_stored (position_ (minidump_writer_ s)) wr) (blocks_of (ip_block tid ip)) ms.
Proof.
  intros Hr Hn. unfold write_ip_memory, ip_block in *. destruct (ip_memory ip) as [[start n]|].
  - inversion_clear Hn as [|? ? Hl _]. cbn [snd] in Hl. rewrite length_process_bytes in Hl. change (2 ^ 16) with 65536 in Hl.
    destruct (block_written s n) as (u & s1 & -> & Hfill); [done|change (2 ^ 24) with 16777216; lia|].
    rewrite bind_Ret, copy_memory_ok, bind_Ret by (apply length_Alloc; change (2 ^ 32) with 4294967296; lia).
    destruct (Hfill start (process_bytes a k tid start (Z.to_nat n))) as (m & wr & -> & Hgr & Hst); [rewrite length_process_bytes; lia|].
    rewrite bind_Ret. exists wr, [m]. split; [done|]. split; [apply (grows_weaken _ _ _ _ Hgr); lia|]. constructor; [done|constructor].
  - exists (minidump_writer_ s), []. rewrite app_nil_r. split; [by destruct s|]. split; [apply (grows_weaken 0); [apply grows_refl, Hr|lia]|constructor].
Qed.

Lemma write_context_ok s context : roomy 0 s -> length context = sizeof_context a ->
  exists l wr, write_context s context = Ret (Some l, with_writer s wr) /\ grows 140000 (minidump_writer_ s) wr
    /\ at_location (position_ (minidump_writer_ s)) wr l context.
Proof.
  intros [Hwr Hs] Hl. assert (0 < sizeof_context a < 1000)%nat as Hsz by (destruct a; cbn; lia). rewrite Z.add_0_r in Hs.
  destruct (object_written w page_size width_ok Hpage (minidump_writer_ s) (replicate (sizeof_context a) 0) context) as (wr1 & wr2 & E1 & E2 & Hgr & Hst);
    [done|lia|by rewrite length_replicate|change (2 ^ 24) with 16777216; lia|done|].
  unfold write_context. rewrite Hg, E1, bind_Ret. unfold set_data. cbn [negb chunk allocation_state_]. rewrite E2, bind_Ret. eexists _, wr2. split; [done|].
  split; [apply (grows_weaken _ _ _ _ Hgr); lia|]. eexists. split; [|split; [|done]]; [|lia]. unfold location. cbn [u_size u_position].
  by rewrite wrap_small by (change (2 ^ 32) with 4294967296; split; lia).
Qed.

(** * The threads in the file *)

(** What is to be written for a thread: its stack, the memory around the
    instruction that crashed, its registers, and where it is. *)
Record thread_image := Image {
  img_sp : Z;
  img_stack : option (Z * list Z);
  img_ip : option (Z * list Z);
  img_context : list Z;
  img_pc : Z
}.

Definition img_blocks (img : thread_image) : list (Z * list Z) := blocks_of (img_stack img) ++ blocks_of (img_ip img).

Definition image_ok (img : thread_image) : Prop :=
  blocks_ok (img_stack img) /\ blocks_ok (img_ip img) /\ length (img_context img) = sizeof_context a.

Section Threads.

Variables (extra : Z) (path : list Z) (info : ThreadInfo).

Definition max_len (i : nat) : Z := if (0 <=? minidump_size_limit_ conf) && (kLimitBaseThreadCount <=? Z.of_nat i) then extra else -1.

(** The state of the thread at an index: that of the signal when it crashed,
    and what ptrace gives otherwise. *)
Inductive thread_is (i : nat) (tid : Z) : thread_image -> Prop :=
| is_crashing uc captured : ucontext_ conf = Some uc -> tid = crash_thread ->
    captured_stack tid (UContext_GetStackPointer a uc) (UContext_GetInstructionPointer a uc) (-1) = Ret captured ->
    thread_is i tid (Image (UContext_GetStackPointer a uc) captured (ip_block tid (UContext_GetInstructionPointer a uc))
                       (UContext_FillCPUContext a uc) (UContext_GetInstructionPointer a uc))
| is_other info' captured : ucontext_ conf = None \/ tid <> crash_thread -> GetThreadInfoByIndex a k d path i info = Ret (true, info') ->
    captured_stack tid (stack_pointer info') (GetInstructionPointer a info') (max_len i) = Ret captured ->
    thread_is i tid (Image (stack_pointer info') captured None (ThreadInfo_FillCPUContext a info') (GetInstructionPointer a info')).

(** The entry of a thread and what it points to. *)
Definition thread_written (lo : Z) (wr : writer) (tid : Z) (img : thread_image) (th : MDRawThread) : Prop :=
  thread_id th = tid /\ stack_written lo wr (img_sp img) (img_stack img) (stack th) /\ at_location lo wr (thread_context th) (img_context img).

Lemma thread_written_keeps lo wr wr' tid img th : keeps lo wr wr' -> thread_written lo wr tid img th -> thread_written lo wr' tid img th.
Proof.
  intros Hk (Ht & Hs & Hc). split; [done|]. split; [by apply (stack_written_keeps lo wr)|by apply (at_location_keeps lo wr)].
Qed.

Lemma thread_written_weaken lo lo' wr tid img th : thread_written lo wr tid img th -> lo' <= lo -> thread_written lo' wr tid img th.
Proof.
  intros (Ht & Hs & Hc) Hl. split; [done|]. split; [by apply (stack_written_weaken lo)|by apply (at_location_weaken lo)].
Qed.

Lemma length_thread_bytes th : length (thread_bytes th) = 48%nat.
Proof. done. Qed.

(** The context of the crash and where it was, after a thread. *)
Definition crash_context_after (c : Z * Z) (th : MDRawThread) : Z * Z := if thread_id th =? crash_thread then thread_context th else c.
Definition crash_address_after (address : Z) (x : Z * thread_image) : Z :=
  match ucontext_ conf with None => if x.1 =? crash_thread then img_pc x.2 else address | Some _ => address end.

Lemma write_crashing_thread_ok s tid uc captured : roomy 420000 s ->
  captured_stack tid (UContext_GetStackPointer a uc) (UContext_GetInstructionPointer a uc) (-1) = Ret captured ->
  blocks_ok captured -> blocks_ok (ip_block tid (UContext_GetInstructionPointer a uc)) -> length (UContext_FillCPUContext a uc) = sizeof_context a ->
  let p := position_ (minidump_writer_ s) in
  exists st l wr ms, write_crashing_thread s tid uc = Ret (Some (RawThread tid st l), DumpState wr (memory_blocks_ s ++ ms) l (crash_address_ s))
    /\ grows 420000 (minidump_writer_ s) wr /\ stack_written p wr (UContext_GetStackPointer a uc) captured st
    /\ at_location p wr l (UContext_FillCPUContext a uc)
    /\ Forall2 (block_stored p wr) (blocks_of captured ++ blocks_of (ip_block tid (UContext_GetInstructionPointer a uc))) ms.
Proof.
  intros Hr Hc Hb Hi Hl p. unfold write_crashing_thread.
  destruct (FillThreadStack_ok s tid _ _ _ captured (roomy_weaken _ 0 _ Hr ltac:(lia)) Hc Hb) as (st & wr1 & ms1 & -> & G1 & S1 & B1). rewrite bind_Ret.
  pose proof (roomy_grows _ _ _ _ (memory_blocks_ s ++ ms1) (crashing_thread_context_ s) (crash_address_ s) Hr G1 ltac:(lia)) as Hr1.
  destruct (write_ip_memory_ok _ tid _ (roomy_weaken _ 0 _ Hr1 ltac:(lia)) Hi) as (wr2 & ms2 & -> & G2 & B2). rewrite bind_Ret. cbn [minidump_writer_ memory_blocks_ crashing_thread_context_ crash_address_ negb] in *.
  pose proof (roomy_grows _ _ _ _ ((memory_blocks_ s ++ ms1) ++ ms2) (crashing_thread_context_ s) (crash_address_ s) Hr1 G2 ltac:(lia)) as Hr2.
  destruct (write_context_ok _ _ (roomy_weaken _ 0 _ Hr2 ltac:(lia)) Hl) as (l & wr3 & -> & G3 & L3). rewrite bind_Ret. cbn [minidump_writer_] in *.
  pose proof (grows_position _ _ _ G1) as [P1 _]. pose proof (grows_position _ _ _ G2) as [P2 _]. fold p in P1.
  exists st, l, wr3, (ms1 ++ ms2). split; [unfold set_crashing_context, with_writer; cbn [memory_blocks_ minidump_writer_ crash_address_]; by rewrite app_assoc|].
  split; [apply (grows_weaken (140000 + 140000 + 140000)); [by eapply grows_trans; [eapply grows_trans|]|lia]|].
  pose proof (keeps_grows _ p _ _ G2) as K2. pose proof (keeps_grows _ p _ _ G3) as K3.
  split; [by eapply stack_written_keeps, stack_written_keeps|]. split; [apply (at_location_weaken (position_ wr2)); [done|lia]|].
  apply Forall2_app; [by eapply blocks_stored_keeps, blocks_stored_keeps|].
  eapply blocks_stored_keeps; [exact K3|]. apply (blocks_stored_weaken (position_ wr1)); [done|lia].
Qed.

Lemma write_other_thread_ok s i tid max_stack_len info' captured : roomy 420000 s -> GetThreadInfoByIndex a k d path i info = Ret (true, info') ->
  captured_stack tid (stack_pointer info') (GetInstructionPointer a info') max_stack_len = Ret captured -> blocks_ok captured ->
  length (ThreadInfo_FillCPUContext a info') = sizeof_context a -> let p := position_ (minidump_writer_ s) in
  exists st l wr ms, write_other_thread s i tid max_stack_len path info
      = Ret (Some (RawThread tid st l), DumpState wr (memory_blocks_ s ++ ms) (if tid =? crash_thread then l else crashing_thread_context_ s)
               (if tid =? crash_thread then GetInstructionPointer a info' else crash_address_ s))
    /\ grows 420000 (minidump_writer_ s) wr /\ stack_written p wr (stack_pointer info') captured st
    /\ at_location p wr l (ThreadInfo_FillCPUContext a info') /\ Forall2 (block_stored p wr) (blocks_of captured) ms.
Proof.
  intros Hr Hi Hc Hb Hl p. unfold write_other_thread. rewrite Hi, bind_Ret. cbn [negb].
  destruct (FillThreadStack_ok s tid _ _ _ captured (roomy_weaken _ 0 _ Hr ltac:(lia)) Hc Hb) as (st & wr1 & ms1 & -> & G1 & S1 & B1). rewrite bind_Ret.
  pose proof (roomy_grows _ _ _ _ (memory_blocks_ s ++ ms1) (crashing_thread_context_ s) (crash_address_ s) Hr G1 ltac:(lia)) as Hr1.
  destruct (write_context_ok _ _ (roomy_weaken _ 0 _ Hr1 ltac:(lia)) Hl) as (l & wr2 & -> & G2 & L2). rewrite bind_Ret. cbn [minidump_writer_] in *.
  pose proof (grows_position _ _ _ G1) as [P1 _]. fold p in P1. pose proof (keeps_grows _ p _ _ G2) as K2.
  exists st, l, wr2, ms1. split; [by destruct (tid =? crash_thread)|].
  split; [apply (grows_weaken (140000 + 140000)); [by eapply grows_trans|lia]|]. split; [by eapply stack_written_keeps|].
  split; [apply (at_location_weaken (position_ wr1)); [done|lia]|by eapply blocks_stored_keeps].
Qed.

Lemma write_thread_ok s i tid img : roomy 420000 s -> thread_is i tid img -> image_ok img -> let p := position_ (minidump_writer_ s) in
  exists th wr ms, write_thread s i tid extra path info
      = Ret (Some th, DumpState wr (memory_blocks_ s ++ ms) (crash_context_after (crashing_thread_context_ s) th) (crash_address_after (crash_address_ s) (tid, img)))
    /\ grows 420000 (minidump_writer_ s) wr /\ thread_written p wr tid img th /\ Forall2 (block_stored p wr) (img_blocks img) ms.
Proof.
  intros Hr Hi (Hb1 & Hb2 & Hl) p. unfold write_thread, crash_context_after, crash_address_after. cbn [fst snd].
  destruct Hi as [uc captured Huc Ht Hc|info' captured Hno Hinfo Hc]; cbn [img_stack img_ip img_context img_sp img_pc] in *.
  - rewrite Huc, Ht, Z.eqb_refl. cbn [andb negb IsPostMortem]. rewrite Ht in *.
    destruct (write_crashing_thread_ok s crash_thread uc captured Hr Hc Hb1 Hb2 Hl) as (st & l & wr & ms & E & G1 & S1 & L1 & B1).
    exists (RawThread crash_thread st l), wr, ms. split; [rewrite E; cbn [thread_id thread_context]; by rewrite Z.eqb_refl|]. done.
  - assert ((if (tid =? crash_thread) && negb IsPostMortem then ucontext_ conf else None) = None) as ->.
    { destruct (Z.eqb_spec tid crash_thread) as [Heq|]; [|done]. by destruct Hno as [->|]. }
    destruct (write_other_thread_ok s i tid (max_len i) info' captured Hr Hinfo Hc Hb1 Hl) as (st & l & wr & ms & E & G1 & S1 & L1 & B1).
    exists (RawThread tid st l), wr, ms. cbn [thread_id thread_context]. split; [|split; [done|split; [done|unfold img_blocks; cbn [img_stack img_ip blocks_of]; by rewrite app_nil_r]]].
    unfold max_len in E. rewrite E. do 3 f_equal. destruct Hno as [->|Hne]; [done|]. destruct (Z.eqb_spec tid crash_thread); [done|]. by destruct (ucontext_ conf).
Qed.

(** The threads from an index on. *)
Inductive threads_are : nat -> list Z -> list thread_image -> Prop :=
| no_threads i : threads_are i [] []
| one_more i tid img tids imgs : thread_is i tid img -> image_ok img -> threads_are (S i) tids imgs -> threads_are i (tid :: tids) (img :: imgs).

(** What the loop leaves: the table, what it points to, and the blocks. *)
Definition threads_written (lo : Z) (wr : writer) (tids : list Z) (imgs : list thread_image) (ths : list MDRawThread) (ms : list (Z * (Z * Z))) : Prop :=
  Forall2 (fun x th => thread_written lo wr x.1 x.2 th) (combine tids imgs) ths /\ Forall2 (block_stored lo wr) (concat (map img_blocks imgs)) ms.

Lemma threads_written_keeps lo wr wr' tids imgs ths ms : keeps lo wr wr' -> threads_written lo wr tids imgs ths ms -> threads_written lo wr' tids imgs ths ms.
Proof.
  intros Hk [H1 H2]. split; [|by apply (blocks_stored_keeps lo wr)]. eapply Forall2_impl; [exact H1|]. intros. by apply (thread_written_keeps lo wr).
Qed.

Lemma write_threads_ok p n object hi tids : length object = 4%nat -> 0 <= p -> forall imgs i s filled, threads_are i tids imgs ->
  roomy (500000 * Z.of_nat (length tids)) s -> hi = p + 4 + 48 * (Z.of_nat i + Z.of_nat (length tids)) -> hi <= position_ (minidump_writer_ s) ->
  stored (minidump_writer_ s) (p + 4) filled -> length filled = (i * 48)%nat ->
  exists ths wr ms, write_threads s (TypedMDRVA (UntypedMDRVA p n) object SINGLE_OBJECT_WITH_ARRAY) i tids extra path info
      = Ret (true, DumpState wr (memory_blocks_ s ++ ms) (fold_left crash_context_after ths (crashing_thread_context_ s))
                     (fold_left crash_address_after (combine tids imgs) (crash_address_ s)))
    /\ frame (p + 4) hi (minidump_writer_ s) wr /\ size_ wr <= size_ (minidump_writer_ s) + 500000 * Z.of_nat (length tids)
    /\ stored wr (p + 4) (filled ++ concat (map thread_bytes ths)) /\ threads_written hi wr tids imgs ths ms.
Proof.
  intros Hobj Hp. induction tids as [|tid tids IH]; intros imgs i s filled Hth Hr Hhi Hpos Hf Hlen; inversion Hth as [|? ? img ? imgs' Hi Hok Hth']; subst imgs.
  - exists [], (minidump_writer_ s), []. cbn [write_threads combine fold_left map concat]. rewrite !app_nil_r. split; [by destruct s|].
    split; [apply frame_refl, Hr|]. split; [cbn [length]; lia|]. split; [done|]. split; constructor.
  - cbn [length write_threads] in *.
    destruct (write_thread_ok s i tid img (roomy_weaken _ 420000 _ Hr ltac:(lia)) Hi Hok) as (th & wr1 & ms1 & -> & G1 & T1 & B1). rewrite bind_Ret. cbn [minidump_writer_].
    destruct Hr as [Hwr Hsz]. change (2 ^ 30 - 2 ^ 25) with 1040187392 in Hsz.
    destruct (table_step w width_ok (minidump_writer_ s) wr1 420000 p n object filled i 48 hi (thread_bytes th) G1)
      as (wr2 & -> & F2 & Z2 & S2 & K2 & P2); [change (2 ^ 30) with 1073741824; lia|done|lia|done|by rewrite Hobj|done|rewrite Hobj; lia|done|].
    rewrite bind_Ret. rewrite Hobj in F2, S2. change (Z.of_nat 4) with 4 in *. unfold with_writer. cbn [minidump_writer_ memory_blocks_ crashing_thread_context_ crash_address_] in *.
    destruct (IH imgs' (S i) (DumpState wr2 (memory_blocks_ s ++ ms1) (crash_context_after (crashing_thread_context_ s) th) (crash_address_after (crash_address_ s) (tid, img))) (filled ++ thread_bytes th))
      as (ths & wr3 & ms3 & E3 & F3 & Z3 & S3 & T3); [done|split; [by apply (frame_ok _ _ _ _ F2)|change (2 ^ 30 - 2 ^ 25) with 1040187392; cbn [minidump_writer_]; lia]|lia|done|done|rewrite length_app, Hlen, length_thread_bytes; lia|].
    cbn [minidump_writer_ memory_blocks_ crashing_thread_context_ crash_address_] in *.
    exists (th :: ths), wr3, (ms1 ++ ms3). split; [rewrite E3; cbn [combine fold_left]; by rewrite app_assoc|].
    assert (keeps hi wr1 wr3) as K3 by (apply (keeps_trans _ _ wr2); [done|apply (keeps_frame _ _ hi _ _ F3); lia]).
    split; [by apply (frame_trans _ _ _ wr2)|]. split; [lia|]. split; [cbn [map concat]; by rewrite app_assoc|]. destruct T3 as [T3 B3]. split; cbn [combine map concat].
    + constructor; [|done]. apply (thread_written_keeps hi wr1); [done|]. apply (thread_written_weaken (position_ (minidump_writer_ s))); [done|lia].
    + apply Forall2_app; [|done]. apply (blocks_stored_keeps hi wr1); [done|]. apply (blocks_stored_weaken (position_ (minidump_writer_ s))); [done|lia].
Qed.

End Threads.

Lemma length_threads_bytes ths : length (concat (map thread_bytes ths)) = (length ths * 48)%nat.
Proof. induction ths as [|th ths IH]; [done|]. cbn [map concat length]. by rewrite length_app, length_thread_bytes, IH. Qed.

(** The thread list has an entry for each thread, in their order: its
    identifier, its stack and its registers, both where the entry says they
    are, also when the file is complete; and the blocks of the stacks and of
    the memory around the crash are there to be listed. *)
Theorem thread_list_stream s path info extra imgs : let tids := threads_ d in let n := Z.of_nat (length tids) in let p := position_ (minidump_writer_ s) in
  roomy (600000 * (n + 1)) s -> tids <> [] -> (forall wr1, p <= position_ wr1 -> extra_stack_len wr1 n = extra) -> threads_are extra path info 0 tids imgs ->
  exists ths wr ms, WriteThreadListStream s path info
      = Ret (Some (MD_THREAD_LIST_STREAM, (4 + 48 * n, p)),
             DumpState wr (memory_blocks_ s ++ ms) (fold_left crash_context_after ths (crashing_thread_context_ s))
               (fold_left crash_address_after (combine tids imgs) (crash_address_ s)))
    /\ grows (600000 * (n + 1)) (minidump_writer_ s) wr /\ stored wr p (le_bytes 4 n ++ concat (map thread_bytes ths))
    /\ threads_written (p + 4 + 48 * n) wr tids imgs ths ms.
Proof.
  intros tids n p Hr Hne Hex Hth. pose proof Hr as [Hwr Hs]. change (2 ^ 30 - 2 ^ 25) with 1040187392 in Hs. pose proof Hwr as (_ & _ & Hpos & _). fold p in Hpos.
  assert (0 < n) as Hn by (unfold n; destruct tids; [done|cbn [length]; lia]).
  unfold WriteThreadListStream. fold tids n. rewrite (wrap_small 32 n) by (change (2 ^ 32) with 4294967296; split; lia). rewrite Hg. unfold new_list.
  destruct (list_allocated w page_size width_ok Hpage (minidump_writer_ s) (le_bytes 4 0) n sizeof_thread) as (wr1 & -> & G1 & P1);
    [done|lia|done|rewrite length_le_bytes; unfold sizeof_thread; change (2 ^ 24) with 16777216; lia|change (2 ^ 30 - 2 ^ 25) with 1040187392; lia|].
  rewrite bind_Ret. cbn [negb]. rewrite length_le_bytes in *. change (Z.of_nat 4) with 4 in *. unfold sizeof_thread in *. fold p in P1 |- *. pose proof (grows_position _ _ _ G1) as [P1' Z1].
  rewrite (Hex wr1) by done. unfold set_data. cbn [chunk allocation_state_].
  destruct (write_threads_ok extra path info p (4 + n * 48) (le_bytes 4 n) (p + 4 + 48 * n) tids ltac:(by rewrite length_le_bytes) ltac:(lia) imgs 0 (with_writer s wr1) [] Hth)
    as (ths & wr2 & ms & -> & F2 & Z2 & S2 & T2);
    [split; [by apply (grows_ok _ _ _ G1)|cbn [with_writer minidump_writer_]; fold n; change (2 ^ 30 - 2 ^ 25) with 1040187392; lia]|fold n; lia|cbn [with_writer minidump_writer_]; lia
    |apply stored_nil; cbn [with_writer minidump_writer_]; lia|done|].
  fold n in Z2. cbn [with_writer minidump_writer_ memory_blocks_ crashing_thread_context_ crash_address_] in *. rewrite bind_Ret. cbn [app minidump_writer_] in *.
  pose proof F2 as (Hwr2 & P2 & _). destruct (table_written w width_ok wr2 p (4 + n * 48) (le_bytes 4 n) (concat (map thread_bytes ths))) as (wr3 & -> & F3 & S3 & P3 & Z3);
    [done|change (2 ^ 30) with 1073741824; lia|lia|rewrite length_le_bytes; lia|rewrite length_le_bytes; done|rewrite length_le_bytes; lia|].
  rewrite bind_Ret. rewrite length_le_bytes in F3. change (Z.of_nat 4) with 4 in F3. exists ths, wr3, ms. split; [|split; [|split; [done|]]].
  - unfold location. cbn [u_size u_position]. rewrite wrap_small by (change (2 ^ 32) with 4294967296; split; lia). do 5 f_equal. lia.
  - apply (grows_weaken (4 + n * 48 + 65544 + 500000 * n)); [|lia]. split; [|lia].
    apply (frame_new p (p + 4 + 48 * n)); [|done]. apply (frame_trans _ _ _ wr2); [|eapply frame_weaken; [exact F3|]; lia].
    apply (frame_trans _ _ _ wr1); [apply frame_more, G1|]. eapply frame_weaken; [exact F2|]. lia.
  - apply (threads_written_keeps _ wr2); [|done]. apply (keeps_frame _ _ _ _ _ F3). lia.
Qed.

(** * The memory of the application, the list of the blocks, the exception *)

(** What the blocks of the application hold, and the room they take. *)
Definition app_block (x : Z * Z) : Z * list Z := (x.1, process_bytes a k crash_thread x.1 (Z.to_nat x.2)).

Fixpoint app_room (l : list (Z * Z)) : Z := match l with [] => 0 | x :: l => x.2 + 65544 + app_room l end.

Lemma app_room_nonneg l : Forall (fun x => 0 < x.2 < 2 ^ 24) l -> 0 <= app_room l.
Proof. induction 1 as [|x l Hx _ IH]; cbn [app_room]; lia. Qed.

Lemma write_app_memory_ok l : forall s, roomy (app_room l) s -> Forall (fun x => 0 < x.2 < 2 ^ 24) l -> let p := position_ (minidump_writer_ s) in
  exists wr ms, write_app_memory s l = Ret (true, DumpState wr (memory_blocks_ s ++ ms) (crashing_thread_context_ s) (crash_address_ s))
    /\ grows (app_room l) (minidump_writer_ s) wr /\ Forall2 (block_stored p wr) (map app_block l) ms.
Proof.
  induction l as [|[ptr len] l IH]; intros s Hr Hl p; cbn [write_app_memory map app_room] in *.
  - exists (minidump_writer_ s), []. rewrite app_nil_r. split; [by destruct s|]. split; [apply grows_refl, Hr|constructor].
  - inversion_clear Hl as [|? ? Hx Hl']. cbn [snd] in *. pose proof (app_room_nonneg l Hl') as Hnn.
    rewrite copy_memory_ok, bind_Ret by apply length_replicate.
    destruct (block_written s len) as (u & s1 & -> & Hfill); [apply (roomy_weaken (len + 65544 + app_room l)); [done|lia]|done|]. rewrite bind_Ret.
    destruct (Hfill ptr (process_bytes a k crash_thread ptr (Z.to_nat len))) as (m & wr1 & -> & G1 & B1); [rewrite length_process_bytes; lia|]. rewrite bind_Ret.
    destruct (IH (push_block (with_writer s wr1) m)) as (wr2 & ms & -> & G2 & B2); [|done|].
    { apply (roomy_weaken (len + 65544 + app_room l - (len + 65544))); [|lia].
      apply (roomy_grows _ _ _ wr1 (memory_blocks_ s ++ [m]) (crashing_thread_context_ s) (crash_address_ s) Hr G1). lia. }
    cbn [push_block with_writer minidump_writer_ memory_blocks_ crashing_thread_context_ crash_address_] in *. exists wr2, (m :: ms). rewrite <- app_assoc. split; [done|].
    split; [by apply (grows_trans _ _ _ wr1)|]. pose proof (grows_position _ _ _ G1) as [P1 _]. constructor.
    + apply (block_stored_keeps p wr1); [by eapply keeps_grows|done].
    + apply (blocks_stored_weaken (position_ wr1)); [done|lia].
Qed.

(** Each block of the application is in the file, with its address. *)
Lemma app_memory_written s : roomy (app_room (app_memory_list_ conf)) s -> Forall (fun x => 0 < x.2 < 2 ^ 24) (app_memory_list_ conf) ->
  exists wr ms, WriteAppMemory s = Ret (true, DumpState wr (memory_blocks_ s ++ ms) (crashing_thread_context_ s) (crash_address_ s))
    /\ grows (app_room (app_memory_list_ conf)) (minidump_writer_ s) wr
    /\ Forall2 (block_stored (position_ (minidump_writer_ s)) wr) (map app_block (app_memory_list_ conf)) ms.
Proof. apply write_app_memory_ok. Qed.

Lemma copy_elements_ok p n object hi m elements : (0 < m)%nat -> 0 <= p -> Forall (fun e => length e = m) elements -> forall i wr filled,
  writer_ok wr -> size_ wr < 2 ^ 30 -> hi = p + Z.of_nat (length object) + Z.of_nat ((i + length elements) * m) -> hi <= position_ wr ->
  stored wr (p + Z.of_nat (length object)) filled -> length filled = (i * m)%nat ->
  exists wr', copy_elements wr (TypedMDRVA (UntypedMDRVA p n) object SINGLE_OBJECT_WITH_ARRAY) i elements = Ret wr'
    /\ frame (p + Z.of_nat (length object)) hi wr wr' /\ stored wr' (p + Z.of_nat (length object)) (filled ++ concat elements) /\ size_ wr' = size_ wr.
Proof.
  intros Hm Hp. induction 1 as [|e elements He _ IH]; intros i wr filled Hwr Hs Hhi Hpos Hf Hl; cbn [copy_elements concat length] in *.
  - exists wr. rewrite app_nil_r. split; [done|]. split; [by apply frame_refl|done].
  - destruct (element_written w width_ok wr p n object filled i e) as (wr1 & -> & F1 & S1 & P1 & Z1); [done|done|done|lia|done|by rewrite He|rewrite He; lia|].
    rewrite bind_Ret. rewrite He in F1. destruct (IH (S i) wr1 (filled ++ e)) as (wr2 & E2 & F2 & S2 & Z2);
      [by apply (frame_ok _ _ _ _ F1)|lia|lia|lia|done|rewrite length_app, Hl, He; lia|].
    exists wr2. split; [done|]. split; [|split; [by rewrite app_assoc|lia]]. apply (frame_trans _ _ _ wr1); [|done]. eapply frame_weaken; [exact F1|]. lia.
Qed.

(** The memory list has the descriptors of all blocks. *)
Lemma memory_list_written s : let n := Z.of_nat (length (memory_blocks_ s)) in let p := position_ (minidump_writer_ s) in
  roomy (16 * n + 70000) s -> n < 2 ^ 16 ->
  exists wr, WriteMemoryListStream s = Ret (Some (MD_MEMORY_LIST_STREAM, (4 + 16 * n, p)), with_writer s wr)
    /\ grows (16 * n + 70000) (minidump_writer_ s) wr /\ stored wr p (le_bytes 4 n ++ concat (map memory_descriptor_bytes (memory_blocks_ s))).
Proof.
  intros n p [Hwr Hs] Hn. change (2 ^ 30 - 2 ^ 25) with 1040187392 in Hs. change (2 ^ 16) with 65536 in Hn. pose proof Hwr as (_ & _ & Hpos & _). fold p in Hpos.
  unfold WriteMemoryListStream. rewrite Hg. unfold new_list. fold n. destruct (Nat.eqb_spec (length (memory_blocks_ s)) 0) as [E0|Hne].
  - destruct (object_written w page_size width_ok Hpage (minidump_writer_ s) (le_bytes 4 0) (le_bytes 4 n)) as (wr1 & wr2 & -> & E2 & G2 & S2);
      [done|rewrite length_le_bytes; lia|by rewrite !length_le_bytes|rewrite length_le_bytes; done|change (2 ^ 30 - 2 ^ 25) with 1040187392; lia|].
    rewrite bind_Ret. cbn [negb]. unfold set_data. cbn [chunk allocation_state_]. assert (memory_blocks_ s = []) as -> by by destruct (memory_blocks_ s).
    cbn [map copy_elements concat]. rewrite bind_Ret, E2, bind_Ret, app_nil_r. exists wr2. assert (n = 0) as -> by (unfold n; lia).
    split; [done|]. split; [|done]. rewrite length_le_bytes in G2. apply (grows_weaken _ _ _ _ G2). lia.
  - destruct (list_allocated w page_size width_ok Hpage (minidump_writer_ s) (le_bytes 4 0) n sizeof_memory_descriptor) as (wr1 & -> & G1 & P1);
      [done|lia|done|rewrite length_le_bytes; unfold sizeof_memory_descriptor; change (2 ^ 24) with 16777216; lia|change (2 ^ 30 - 2 ^ 25) with 1040187392; lia|].
    rewrite bind_Ret. cbn [negb]. unfold set_data, sizeof_memory_descriptor in *. cbn [chunk allocation_state_]. rewrite length_le_bytes in *. change (Z.of_nat 4) with 4 in *.
    fold p in P1 |- *. pose proof (grows_position _ _ _ G1) as [P1' Z1].
    destruct (copy_elements_ok p (4 + n * 16) (le_bytes 4 n) (p + 4 + 16 * n) 16 (map memory_descriptor_bytes (memory_blocks_ s)) ltac:(lia) ltac:(lia)
      ltac:(apply Forall_map, Forall_forall; done) 0 wr1 []) as (wr2 & -> & F2 & S2 & Z2);
      [by apply (grows_ok _ _ _ G1)|change (2 ^ 30) with 1073741824; lia|rewrite length_le_bytes, length_map; lia|lia|apply stored_nil; rewrite length_le_bytes; lia|done|].
    rewrite bind_Ret. rewrite length_le_bytes in F2, S2. change (Z.of_nat 4) with 4 in *. pose proof F2 as (Hwr2 & P2 & _).
    destruct (table_written w width_ok wr2 p (4 + n * 16) (le_bytes 4 n) (concat (map memory_descriptor_bytes (memory_blocks_ s)))) as (wr3 & -> & F3 & S3 & P3 & Z3);
      [done|change (2 ^ 30) with 1073741824; lia|lia|rewrite length_le_bytes; lia|rewrite length_le_bytes; done|rewrite length_le_bytes; lia|].
    rewrite bind_Ret. rewrite length_le_bytes in F3. exists wr3. split; [|split; [|done]].
    + unfold location. cbn [u_size u_position]. rewrite wrap_small by (change (2 ^ 32) with 4294967296; split; lia). do 5 f_equal. lia.
    + apply (grows_weaken (4 + n * 16 + 65544)); [|lia]. apply (frame_after _ p (p + 4 + 16 * n) _ wr1); [done| |done|lia].
      apply (frame_trans _ _ _ wr2); [eapply frame_weaken; [exact F2|]; lia|]. eapply frame_weaken; [exact F3|]. lia.
Qed.

(** The exception has the thread, the signal and where it was. *)
Lemma exception_written s crash_signal crash_signal_code : roomy 70000 s -> let p := position_ (minidump_writer_ s) in
  exists wr, WriteExceptionStream s crash_signal crash_signal_code = Ret (Some (MD_EXCEPTION_STREAM, (168, p)), with_writer s wr)
    /\ grows 70000 (minidump_writer_ s) wr
    /\ stored wr p (exception_bytes crash_thread crash_signal crash_signal_code (crash_address_ s) (crashing_thread_context_ s)).
Proof.
  intros [Hwr Hs] p. change (2 ^ 30 - 2 ^ 25) with 1040187392 in Hs.
  destruct (object_written w page_size width_ok Hpage (minidump_writer_ s) (exception_bytes 0 0 0 0 (0, 0))
    (exception_bytes crash_thread crash_signal crash_signal_code (crash_address_ s) (crashing_thread_context_ s))) as (wr1 & wr2 & E1 & E2 & G2 & S2);
    [done|cbn; lia|done|done|change (2 ^ 30 - 2 ^ 25) with 1040187392; lia|].
  unfold WriteExceptionStream. rewrite Hg, E1, bind_Ret. cbn [negb]. unfold set_data. cbn [chunk allocation_state_]. rewrite E2, bind_Ret.
  exists wr2. split; [done|]. split; [|done]. apply (grows_weaken _ _ _ _ G2). done.
Qed.

End Facts.

End Dump.
