(* ===== verification/ModuleList.v ===== *)
(** Modules of a minidump: WriteMappings and FillRawModule of
    client/linux/minidump_writer/minidump_writer.cc of libbreakpad, with the
    identifiers and names that linux_dumper.cc finds for a mapping.

    A mapping is named by its index where the code has a reference to it, since
    finding its identifier may shorten its name. *)
From stdpp Require Import gmap.
From S2P Require Import Prelude Utf8 ConvertUtf LibcSupport LineReader LinuxDumper FileId FileWriter Regions Registers PtraceDumper ThreadList.

Definition MD_MODULE_SIZE : Z := 108.
Definition MD_MODULE_LIST_STREAM : Z := 4.
Definition MDCVInfoELF_minsize : Z := 4.
Definition MD_CVINFOELF_SIGNATURE : Z := 0x4270454c.

(** What the dumper can read besides the process. [mapped] is the memory that a
    MemoryMappedFile of a path has from an offset on, [None] when it has none;
    [exe_target] is what the link to the executable is read as. *)
Record files := Files {
  root_prefix_ : list Z;
  mapped : list Z -> Z -> option (list Z);
  exe_target : option (list Z);
  same_file : list Z -> bool;
  own_memory : option (Z -> list Z)
}.

(** A local array of characters, not initialised. *)
Record locals := Locals { path_max : list Z; name_max : list Z }.

(** MDRawModule up to its 108 bytes; what has no value here is zero. *)
Definition module_bytes (base_of_image size_of_image module_name_rva : Z) (cv_record : Z * Z) : list Z :=
  le_bytes 8 base_of_image ++ le_bytes 4 size_of_image ++ replicate 8 0 ++ le_bytes 4 module_name_rva ++ replicate 52 0
  ++ location_bytes cv_record ++ replicate 24 0.

Definition set_name (m : MappingInfo) (nm : list Z) : MappingInfo :=
  Mapping (start_addr m) (size m) (sys_start_addr m) (sys_end_addr m) (offset m) (exec m) nm.

(** The text in an array. *)
Definition c_text (arr : list Z) : res (list Z) := l ← my_strlen arr; load arr 0 l.

Section Modules.

Variables (a : abi) (page_size : Z) (g : workaround) (k : kernel) (conf : minidump_writer) (pid : Z) (fs : files) (loc : locals).

Let w := word_bits a.

(** * Identifiers and names of mappings *)

(** [own_memory] is the memory of the dumper itself, when it dumps itself. *)
Definition linux_gate (m : MappingInfo) : res (list Z) :=
  match own_memory fs with
  | Some memory => Ret (memory (start_addr m))
  | None => copy_memory a k (replicate (Z.to_nat (size m)) 0) pid (start_addr m) (size m)
  end.

(** The identifier, and the mappings; only a member may be renamed. *)
Definition ElfFileIdentifierForMapping (m : MappingInfo) (member : bool) (mapping_id : nat) (mappings : list MappingInfo) (identifier : list Z)
    : res (bool * list Z * list MappingInfo) :=
  if member && (length mappings <=? mapping_id)%nat then Fault Aborted
  else
    unsafe ← IsMappedFileOpenUnsafe m;
    if unsafe : bool then Ret (false, identifier, mappings)
    else
      c ← my_strcmp (name m ++ [0]) (kLinuxGateLibraryName ++ [0]);
      if c =? 0 then
        gate ← linux_gate m;
        '(ok, identifier) ← ElfFileIdentifierFromMappedFile gate identifier;
        Ret (ok, identifier, mappings)
      else
        '(ok, filename) ← GetMappingAbsolutePath (root_prefix_ fs) m (path_max loc);
        if negb (ok : bool) then Ret (false, identifier, mappings)
        else
          '(has_link, link) ← BuildProcPath (name_max loc) pid (literal "exe" ++ [0]);
          '(filename_modified, filename) ← HandleDeletedFileInMapping (root_prefix_ fs) filename (if has_link : bool then Some link else None)
                                             (exe_target fs) (path_max loc) (same_file fs);
          path ← c_text filename;
          match mapped fs path (offset m) with
          | None => Ret (false, identifier, mappings)
          | Some data =>
              if (length data <? SELFMAG)%nat then Ret (false, identifier, mappings)
              else
                '(success, identifier) ← ElfFileIdentifierFromMappedFile data identifier;
                Ret (success, identifier,
                     if (success : bool) && member && (filename_modified : bool)
                     then alter (fun x => set_name x (take (length (name m) - length kDeletedSuffix) (name x))) mapping_id mappings
                     else mappings)
          end.

(** The SONAME, in an array of [size] characters. *)
Definition ElfFileSoName (m : MappingInfo) (soname : list Z) (soname_size : nat) : res (bool * list Z) :=
  unsafe ← IsMappedFileOpenUnsafe m;
  if unsafe : bool then Ret (false, soname)
  else
    '(ok, filename) ← GetMappingAbsolutePath (root_prefix_ fs) m (path_max loc);
    if negb (ok : bool) then Ret (false, soname)
    else
      path ← c_text filename;
      match mapped fs path (offset m) with
      | None => Ret (false, soname)
      | Some data => if (length data <? SELFMAG)%nat then Ret (false, soname) else ElfFileSoNameFromMappedFile w data soname soname_size
      end.

(** The path of a mapping in an array of NAME_MAX; the SONAME is looked for when
    the mapping is code inside an archive. *)
Definition effective_path (m : MappingInfo) : res (list Z) :=
  soname ← (if exec m && negb (offset m =? 0) then
              '(ok, file_name) ← ElfFileSoName m (name_max loc) NAME_MAX;
              if ok : bool then text ← c_text file_name; Ret (Some text) else Ret None
            else Ret None);
  '(file_path, _) ← GetMappingEffectiveNameAndPath soname m (name_max loc) NAME_MAX (name_max loc) NAME_MAX;
  Ret file_path.

(** * The module list *)

Definition ShouldIncludeMapping (m : MappingInfo) : bool :=
  negb (match name m with [] => true | c :: _ => c =? 0 end || (negb (offset m =? 0) && negb (exec m)) || (size m <? 4096)).

Definition HaveMappingInfo (m : MappingInfo) : bool :=
  existsb (fun x => (start_addr x.1 <=? start_addr m) && (wrap w (start_addr m + size m) <=? wrap w (start_addr x.1 + size x.1))) (mapping_list_ conf).

(** A record of the identifier, the location of nothing when it is empty. *)
Definition write_cv (s : dump_state) (identifier : list Z) : res (option (Z * Z) * dump_state) :=
  if (length identifier =? 0)%nat then Ret (Some (0, 0), s)
  else
    '(u, s) ← allocate_block a page_size g s (MDCVInfoELF_minsize + Z.of_nat (length identifier));
    match u with
    | None => Ret (None, s)
    | Some u =>
        '(_, wr) ← Untyped_Copy w (minidump_writer_ s) u (u_position u) (le_bytes 4 MD_CVINFOELF_SIGNATURE);
        '(_, wr) ← Untyped_Copy w wr u (u32 (u_position u + 4)) identifier;
        Ret (Some (location u), with_writer s wr)
    end.

(** The rest of FillRawModule, with the identifier found: the record, the path
    and the bytes of the module. *)
Definition write_module (s : dump_state) (m : MappingInfo) (identifier_bytes : list Z) : res (option (list Z) * dump_state) :=
  '(cv_record, s) ← write_cv s identifier_bytes;
  match cv_record with
  | None => Ret (None, s)
  | Some cv_record =>
      file_path ← effective_path m;
      l ← my_strlen file_path;
      '(ld, wr) ← WriteString w page_size (minidump_writer_ s) g file_path l;
      Ret (match ld with
           | None => None
           | Some (_, rva) => Some (module_bytes (start_addr m) (size m) rva cv_record)
           end, with_writer s wr)
  end.

(** [identifier] is what the caller of the dumper gives for a mapping of its
    own, which is no member. *)
Definition FillRawModule (s : dump_state) (mappings : list MappingInfo) (m : MappingInfo) (member : bool) (mapping_id : nat) (identifier : option (list Z))
    : res (option (list Z) * dump_state * list MappingInfo) :=
  '(identifier_bytes, mappings) ← match identifier with
                                  | Some id => id ← load id 0 kMDGUIDSize; Ret (id, mappings)
                                  | None => '(_, id, mappings) ← ElfFileIdentifierForMapping m member mapping_id mappings []; Ret (id, mappings)
                                  end;
  '(entry, s) ← write_module s (if member then default m (mappings !! mapping_id) else m) identifier_bytes;
  Ret (entry, s, mappings).

(** The loop over the mappings from index [i] on; [j] counts the modules. *)
Fixpoint write_modules (s : dump_state) (t : typed) (mappings : list MappingInfo) (n i j : nat) : res (bool * nat * dump_state * list MappingInfo) :=
  match n with
  | O => Ret (true, j, s, mappings)
  | S n =>
      m ← get_or_oob (mappings !! i);
      if negb (ShouldIncludeMapping m) || HaveMappingInfo m then write_modules s t mappings n (S i) j
      else
        '(entry, s, mappings) ← FillRawModule s mappings m true i None;
        match entry with
        | None => Ret (false, j, s, mappings)
        | Some entry =>
            '(_, wr) ← CopyIndexAfterObject w (minidump_writer_ s) t (Z.of_nat j) entry;
            write_modules (with_writer s wr) t mappings n (S i) (S j)
        end
  end.

(** The loop over the mappings of the caller. *)
Fixpoint write_given (s : dump_state) (t : typed) (mappings : list MappingInfo) (given : list (MappingInfo * list Z)) (j : nat) : res (bool * dump_state) :=
  match given with
  | [] => Ret (true, s)
  | (m, identifier) :: given =>
      '(entry, s, _) ← FillRawModule s mappings m false 0 (Some identifier);
      match entry with
      | None => Ret (false, s)
      | Some entry =>
          '(_, wr) ← CopyIndexAfterObject w (minidump_writer_ s) t (Z.of_nat j) entry;
          write_given (with_writer s wr) t mappings given (S j)
      end
  end.

Definition num_output_mappings (mappings : list MappingInfo) : nat :=
  length (mapping_list_ conf) + length (List.filter (fun m => ShouldIncludeMapping m && negb (HaveMappingInfo m)) mappings).

Definition WriteMappings (s : dump_state) (mappings : list MappingInfo) : res (option (Z * (Z * Z)) * dump_state * list MappingInfo) :=
  let num := Z.of_nat (num_output_mappings mappings) in
  '(ok, t, wr) ← (if num =? 0 then Typed_Allocate w page_size (minidump_writer_ s) g (new_list s)
                  else AllocateObjectAndArray w page_size (minidump_writer_ s) g (new_list s) num MD_MODULE_SIZE);
  if negb (ok : bool) then wr ← TypedMDRVA_destructor w wr t; Ret (None, with_writer s wr, mappings)
  else
    let t := set_data t (le_bytes 4 num) in
    '(ok, j, s, mappings) ← write_modules (with_writer s wr) t mappings (length mappings) 0 0;
    '(ok, s) ← (if ok : bool then write_given s t mappings (mapping_list_ conf) j else Ret (false, s));
    wr ← TypedMDRVA_destructor w (minidump_writer_ s) t;
    Ret (if ok : bool then Some (MD_MODULE_LIST_STREAM, location (chunk t)) else None, with_writer s wr, mappings).

(** * What is written *)

(** A module: its range, its identifier, and its path as text. *)
Record module_image := ModuleImage { mi_base : Z; mi_size : Z; mi_id : list Z; mi_path : list Z }.

Definition cv_bytes (identifier : list Z) : list Z := le_bytes 4 MD_CVINFOELF_SIGNATURE ++ identifier.

Definition cv_written (lo : Z) (wr : writer) (identifier : list Z) (l : Z * Z) : Prop :=
  match identifier with [] => l = (0, 0) | _ => at_location lo wr l (cv_bytes identifier) end.

(** The entry of a module and what it points to. *)
Definition module_written (lo : Z) (wr : writer) (img : module_image) (entry : list Z) : Prop :=
  exists rva cv, entry = module_bytes (mi_base img) (mi_size img) rva cv /\ cv_written lo wr (mi_id img) cv
    /\ lo <= rva /\ stored wr rva (md_string (mi_path img)).

Lemma cv_written_keeps lo wr wr' identifier l : keeps lo wr wr' -> cv_written lo wr identifier l -> cv_written lo wr' identifier l.
Proof. intros Hk. destruct identifier; [done|]. by apply at_location_keeps. Qed.

Lemma cv_written_weaken lo lo' wr identifier l : cv_written lo wr identifier l -> lo' <= lo -> cv_written lo' wr identifier l.
Proof. destruct identifier; [done|]. by apply at_location_weaken. Qed.

Lemma module_written_keeps lo wr wr' img entry : keeps lo wr wr' -> module_written lo wr img entry -> module_written lo wr' img entry.
Proof.
  intros Hk (rva & cv & -> & Hcv & Hlo & Hst). exists rva, cv. split; [done|]. split; [by apply (cv_written_keeps lo wr)|]. split; [done|]. by apply Hk.
Qed.

Lemma module_written_weaken lo lo' wr img entry : module_written lo wr img entry -> lo' <= lo -> module_written lo' wr img entry.
Proof.
  intros (rva & cv & -> & Hcv & Hlo & Hst) Hl. exists rva, cv. split; [done|]. split; [by apply (cv_written_weaken lo)|]. split; [by eapply Z.le_trans|done].
Qed.

Definition image_fits (img : module_image) : Prop :=
  Z.of_nat (length (mi_id img)) < 2 ^ 16 /\ basic (mi_path img) /\ Z.of_nat (length (utf8_of (mi_path img))) < 2 ^ 10.

(** The module for a mapping, once its identifier is found. *)
Definition image_of (m : MappingInfo) (identifier : list Z) (img : module_image) : Prop :=
  mi_base img = start_addr m /\ mi_size img = size m /\ mi_id img = identifier /\ image_fits img
  /\ exists rest, effective_path m = Ret (utf8_of (mi_path img) ++ 0 :: rest).

Section Facts.

Hypothesis Hg : g = no_workaround.
Hypothesis Hpage : 0 < page_size < 2 ^ 16.

Let Hw : 32 <= w := width_ok a.

Lemma write_cv_ok s identifier : roomy 0 s -> Z.of_nat (length identifier) < 2 ^ 16 ->
  exists cv wr, write_cv s identifier = Ret (Some cv, with_writer s wr) /\ grows 140000 (minidump_writer_ s) wr
    /\ cv_written (position_ (minidump_writer_ s)) wr identifier cv.
Proof.
  intros [Hwr Hs] Hl. change (2 ^ 30 - 2 ^ 25) with 1040187392 in Hs. change (2 ^ 16) with 65536 in Hl. unfold write_cv, cv_written.
  destruct identifier as [|b bs]; [|set (id := b :: bs) in *].
  - exists (0, 0), (minidump_writer_ s). split; [by destruct s|]. split; [apply (grows_weaken 0); [by apply grows_refl|lia]|done].
  - assert (0 < length id)%nat as Hid by (cbn; lia). destruct (Nat.eqb_spec (length id) 0) as [|_]; [lia|]. clearbody id. unfold MDCVInfoELF_minsize.
    set (n := 4 + Z.of_nat (length id)). set (p := position_ (minidump_writer_ s)).
    destruct (Untyped_Allocate_frame w page_size Hw Hpage (minidump_writer_ s) (new_chunk (minidump_writer_ s)) n) as (wr1 & E & F1 & P1 & S1);
      [done|done|change (2 ^ 24) with 16777216; unfold n; lia|change (2 ^ 30) with 1073741824; lia|].
    pose proof Hwr as (_ & _ & Hpos & _). fold p in Hpos, P1, E. pose proof (frame_ok _ _ _ _ F1) as Hwr1.
    unfold allocate_block. fold w. rewrite Hg, E, !bind_Ret. cbn [minidump_writer_ with_writer u_position].
    destruct (Untyped_Copy_frame w Hw wr1 p n p (le_bytes 4 MD_CVINFOELF_SIGNATURE)) as (wr2 & -> & F2 & B2 & P2 & S2);
      [done|change (2 ^ 30) with 1073741824; unfold n in *; lia|rewrite length_le_bytes; lia|lia|lia|rewrite length_le_bytes; unfold n; lia|lia|].
    rewrite bind_Ret. rewrite length_le_bytes in F2. change (Z.of_nat 4) with 4 in F2. pose proof (frame_ok _ _ _ _ F2) as Hwr2.
    rewrite wrap_small by (change (2 ^ 32) with 4294967296; split; lia).
    destruct (Untyped_Copy_frame w Hw wr2 p n (p + 4) id) as (wr3 & -> & F3 & B3 & P3 & S3);
      [done|change (2 ^ 30) with 1073741824; unfold n in *; lia|done|lia|lia|unfold n; lia|lia|].
    rewrite bind_Ret. unfold location. cbn [u_size u_position]. rewrite wrap_small by (change (2 ^ 32) with 4294967296; unfold n; split; lia).
    exists (n, p), wr3. split; [done|]. split.
    + apply (grows_weaken (n + 65544)); [|unfold n; lia]. apply (frame_after _ p (p + n) _ wr1); [split; [done|lia]| |lia|lia].
      apply (frame_trans _ _ _ wr2); [eapply frame_weaken; [exact F2|]; unfold n; lia|eapply frame_weaken; [exact F3|]; unfold n; lia].
    + exists p. unfold cv_bytes. split; [rewrite length_app, length_le_bytes; unfold n; f_equal; lia|]. split; [lia|]. apply stored_app.
      split; [apply (stored_frame _ _ _ _ _ _ F3); [split; [done|rewrite length_le_bytes; unfold n in *; lia]|rewrite length_le_bytes; lia]|].
      rewrite length_le_bytes. split; [done|unfold n in *; lia].
Qed.

(** A string of a given length, or up to its zero. *)
Lemma WriteString_length wr gw cs rest : basic cs ->
  WriteString w page_size wr gw (utf8_of cs ++ 0 :: rest) (length (utf8_of cs)) = WriteString w page_size wr gw (utf8_of cs ++ 0 :: rest) 0.
Proof.
  intros Hb. destruct (basic_scalar cs Hb) as [Hsc Hnz]. pose proof (utf8_of_nonzero cs Hsc Hnz) as Hn. unfold WriteString, WriteStringCore.
  destruct (length (utf8_of cs)) as [|n] eqn:E; [done|]. rewrite <- E. cbn [Nat.eqb].
  assert (forall s, nonzero s -> bounded_length (s ++ 0 :: rest) (length s) = Ret (length s)) as Hle.
  { clear. induction 1 as [|c s Hc _ IH]; [done|]. cbn [app length bounded_length]. destruct (Z.eqb_spec c 0); [done|]. by rewrite IH. }
  destruct (Nat.eqb_spec (length (utf8_of cs)) 0); [lia|]. rewrite Hle by done.
  by rewrite (bounded_length_spec _ rest Hn) by (rewrite length_app; cbn [length]; lia).
Qed.

(** The module of a mapping whose identifier is found. *)
Lemma module_filled s m identifier img : roomy 300000 s -> image_of m identifier img ->
  exists entry wr, write_module s m identifier = Ret (Some entry, with_writer s wr)
    /\ grows 300000 (minidump_writer_ s) wr /\ module_written (position_ (minidump_writer_ s)) wr img entry.
Proof.
  intros Hr (Hbase & Hsz & Hid & (Hlen & Hb & Hp) & rest & Hpath).
  unfold write_module. destruct (write_cv_ok s identifier (roomy_weaken _ 0 _ Hr ltac:(lia)) ltac:(by rewrite <- Hid)) as (cv & wr1 & -> & G1 & C1). rewrite bind_Ret, Hpath, bind_Ret.
  destruct (basic_scalar _ Hb) as [Hsc Hnz]. rewrite my_strlen_spec, bind_Ret by (by apply utf8_of_nonzero). rewrite WriteString_length by done.
  cbn [with_writer minidump_writer_]. rewrite Hg. pose proof Hr as [Hwr Hs]. change (2 ^ 30 - 2 ^ 25) with 1040187392 in Hs. change (2 ^ 10) with 1024 in Hp.
  pose proof (grows_position _ _ _ G1) as [P1 Z1].
  destruct (WriteString_frame w page_size Hw Hpage wr1 (mi_path img) rest) as (wr2 & -> & F2 & P2 & Z2 & B2);
    [by apply grows_ok in G1|done|change (2 ^ 20) with 1048576; lia|change (2 ^ 30) with 1073741824; lia|]. rewrite bind_Ret.
  eexists _, wr2. split; [unfold with_writer; cbn; reflexivity|].
  assert (grows 80000 wr1 wr2) as G2 by (split; [done|lia]).
  split; [apply (grows_weaken (140000 + 80000)); [by apply (grows_trans _ _ _ wr1)|lia]|].
  exists (position_ wr1), cv. rewrite Hbase, Hsz. split; [done|]. split; [rewrite Hid; apply (cv_written_keeps _ wr1); [by eapply keeps_grows|done]|].
  split; [done|]. split; [done|]. rewrite length_md_string. lia.
Qed.

(** A mapping of the process, and one that the caller gave. *)
Definition member_is (mappings : list MappingInfo) (i : nat) (img : module_image) (mappings' : list MappingInfo) : Prop :=
  exists m ok identifier, mappings !! i = Some m /\ ElfFileIdentifierForMapping m true i mappings [] = Ret (ok, identifier, mappings')
    /\ image_of (default m (mappings' !! i)) identifier img.

Definition given_is (x : MappingInfo * list Z) (img : module_image) : Prop :=
  (kMDGUIDSize <= length x.2)%nat /\ image_of x.1 (take kMDGUIDSize x.2) img.

Lemma fill_member s mappings i img mappings' m : roomy 300000 s -> member_is mappings i img mappings' -> mappings !! i = Some m ->
  exists entry wr, FillRawModule s mappings m true i None = Ret (Some entry, with_writer s wr, mappings')
    /\ grows 300000 (minidump_writer_ s) wr /\ module_written (position_ (minidump_writer_ s)) wr img entry.
Proof.
  intros Hr (m' & ok & identifier & Hm' & Hid & Himg) Hm. rewrite Hm in Hm'. injection Hm' as <-.
  destruct (module_filled s _ identifier img Hr Himg) as (entry & wr & E & H). exists entry, wr. split; [|done].
  unfold FillRawModule. by rewrite Hid, !bind_Ret, E, bind_Ret.
Qed.

Lemma fill_given s mappings x img : roomy 300000 s -> given_is x img ->
  exists entry wr, FillRawModule s mappings x.1 false 0 (Some x.2) = Ret (Some entry, with_writer s wr, mappings)
    /\ grows 300000 (minidump_writer_ s) wr /\ module_written (position_ (minidump_writer_ s)) wr img entry.
Proof.
  intros Hr (Hlen & Himg). destruct (module_filled s _ _ img Hr Himg) as (entry & wr & E & H). exists entry, wr. split; [|done].
  unfold FillRawModule. by rewrite load_in_bounds, !bind_Ret, drop_0, E, bind_Ret by lia.
Qed.

(** The members from index [i] on, [n] of them, and the mappings they leave. *)
Inductive modules_are : nat -> nat -> list MappingInfo -> list module_image -> list MappingInfo -> Prop :=
| no_modules i ms : modules_are 0 i ms [] ms
| left_out n i ms m imgs ms' : ms !! i = Some m -> negb (ShouldIncludeMapping m) || HaveMappingInfo m = true ->
    modules_are n (S i) ms imgs ms' -> modules_are (S n) i ms imgs ms'
| included n i ms m img ms1 imgs ms' : ms !! i = Some m -> negb (ShouldIncludeMapping m) || HaveMappingInfo m = false ->
    member_is ms i img ms1 -> modules_are n (S i) ms1 imgs ms' -> modules_are (S n) i ms (img :: imgs) ms'.

Lemma length_module_bytes base sz rva cv : length (module_bytes base sz rva cv) = 108%nat.
Proof. done. Qed.

Lemma length_written lo wr img entry : module_written lo wr img entry -> length entry = 108%nat.
Proof. by intros (rva & cv & -> & _). Qed.

(** A module of the table, and the rest of the table. *)
Lemma one_module s wr1 p n object hi i filled img entry : length object = 4%nat -> 0 <= p -> roomy 300000 s -> grows 300000 (minidump_writer_ s) wr1 ->
  p + 4 + 108 * (Z.of_nat i + 1) <= hi -> hi <= position_ (minidump_writer_ s) -> stored (minidump_writer_ s) (p + 4) filled -> length filled = (i * 108)%nat ->
  module_written (position_ (minidump_writer_ s)) wr1 img entry ->
  exists wr2, CopyIndexAfterObject w wr1 (TypedMDRVA (UntypedMDRVA p n) object SINGLE_OBJECT_WITH_ARRAY) (Z.of_nat i) entry = Ret (true, wr2)
    /\ frame (p + 4) hi (minidump_writer_ s) wr2 /\ size_ wr2 <= size_ (minidump_writer_ s) + 300000 /\ stored wr2 (p + 4) (filled ++ entry)
    /\ length (filled ++ entry) = (S i * 108)%nat /\ module_written hi wr2 img entry /\ hi <= position_ wr2.
Proof.
  intros Hobj Hp [Hwr Hs] G1 Hi Hhi Hf Hl Hm. pose proof (length_written _ _ _ _ Hm) as He. change (2 ^ 30 - 2 ^ 25) with 1040187392 in Hs.
  destruct (table_step w Hw (minidump_writer_ s) wr1 300000 p n object filled i 108 hi entry G1) as (wr2 & E & F2 & Z2 & S2 & K2 & P2);
    [change (2 ^ 30) with 1073741824; lia|done|lia|done|by rewrite Hobj|done|rewrite Hobj; lia|done|].
  rewrite Hobj in F2, S2. change (Z.of_nat 4) with 4 in *. exists wr2. split; [done|]. split; [done|]. split; [done|]. split; [done|].
  split; [rewrite length_app, He, Hl; lia|]. split; [|done]. apply (module_written_keeps hi wr1); [done|].
  by apply (module_written_weaken (position_ (minidump_writer_ s))).
Qed.

Lemma write_modules_ok p nn object hi n : length object = 4%nat -> 0 <= p -> forall i ms imgs ms' j s filled, modules_are n i ms imgs ms' ->
  roomy (300000 * Z.of_nat (length imgs)) s -> p + 4 + 108 * (Z.of_nat j + Z.of_nat (length imgs)) <= hi -> hi <= position_ (minidump_writer_ s) ->
  stored (minidump_writer_ s) (p + 4) filled -> length filled = (j * 108)%nat ->
  exists entries wr, write_modules s (TypedMDRVA (UntypedMDRVA p nn) object SINGLE_OBJECT_WITH_ARRAY) ms n i j
      = Ret (true, (j + length imgs)%nat, with_writer s wr, ms')
    /\ frame (p + 4) hi (minidump_writer_ s) wr /\ size_ wr <= size_ (minidump_writer_ s) + 300000 * Z.of_nat (length imgs)
    /\ stored wr (p + 4) (filled ++ concat entries) /\ length (filled ++ concat entries) = ((j + length imgs) * 108)%nat
    /\ Forall2 (module_written hi wr) imgs entries /\ hi <= position_ wr.
Proof.
  intros Hobj Hp. induction n as [|n IH]; intros i ms imgs ms' j s filled Hm Hr Hhi Hpos Hf Hl; inversion Hm; subst; cbn [write_modules].
  - exists [], (minidump_writer_ s). cbn [length concat]. rewrite app_nil_r, Nat.add_0_r. split; [by destruct s|]. split; [apply frame_refl, Hr|].
    split; [lia|]. split; [done|]. split; [done|]. split; [constructor|done].
  - rewrite H0. cbn [get_or_oob]. rewrite bind_Ret, H1. by apply IH.
  - rewrite H0. cbn [get_or_oob length] in *. rewrite bind_Ret, H1.
    destruct (fill_member s ms i img ms1 m (roomy_weaken _ 300000 _ Hr ltac:(lia)) H2 H0) as (entry & wr1 & -> & G1 & M1). rewrite bind_Ret. cbn [with_writer minidump_writer_].
    destruct (one_module s wr1 p nn object hi j filled img entry) as (wr2 & -> & F2 & Z2 & S2 & L2 & M2 & P2); [done|done|apply (roomy_weaken _ 300000 _ Hr); lia|done|lia|done|done|done|done|].
    rewrite bind_Ret. destruct Hr as [Hwr Hs]. change (2 ^ 30 - 2 ^ 25) with 1040187392 in Hs.
    destruct (IH (S i) ms1 imgs0 ms' (S j) (with_writer s wr2) (filled ++ entry)) as (entries & wr3 & E3 & F3 & Z3 & S3 & L3 & M3 & P3);
      [done|split; [by apply (frame_ok _ _ _ _ F2)|change (2 ^ 30 - 2 ^ 25) with 1040187392; cbn [with_writer minidump_writer_]; lia]|lia|done|done|done|].
    cbn [with_writer minidump_writer_ memory_blocks_ crashing_thread_context_ crash_address_] in *.
    exists (entry :: entries), wr3. split; [unfold with_writer in *; cbn [memory_blocks_ crashing_thread_context_ crash_address_] in *; rewrite E3; do 4 f_equal; lia|].
    split; [by apply (frame_trans _ _ _ wr2)|]. split; [lia|]. cbn [concat]. rewrite app_assoc. split; [done|]. split; [rewrite L3; lia|].
    split; [|done]. constructor; [|done]. apply (module_written_keeps hi wr2); [apply (keeps_frame _ _ _ _ _ F3); lia|done].
Qed.

Lemma write_given_ok p nn object hi ms given imgs : length object = 4%nat -> 0 <= p -> Forall2 given_is given imgs -> forall j s filled,
  roomy (300000 * Z.of_nat (length imgs)) s -> p + 4 + 108 * (Z.of_nat j + Z.of_nat (length imgs)) <= hi -> hi <= position_ (minidump_writer_ s) ->
  stored (minidump_writer_ s) (p + 4) filled -> length filled = (j * 108)%nat ->
  exists entries wr, write_given s (TypedMDRVA (UntypedMDRVA p nn) object SINGLE_OBJECT_WITH_ARRAY) ms given j = Ret (true, with_writer s wr)
    /\ frame (p + 4) hi (minidump_writer_ s) wr /\ size_ wr <= size_ (minidump_writer_ s) + 300000 * Z.of_nat (length imgs)
    /\ stored wr (p + 4) (filled ++ concat entries) /\ Forall2 (module_written hi wr) imgs entries /\ hi <= position_ wr.
Proof.
  intros Hobj Hp. induction 1 as [|[m id] img given imgs Hx _ IH]; intros j s filled Hr Hhi Hpos Hf Hl; cbn [write_given length] in *.
  - exists [], (minidump_writer_ s). cbn [concat]. rewrite app_nil_r. split; [by destruct s|]. split; [apply frame_refl, Hr|].
    split; [lia|]. split; [done|]. split; [constructor|done].
  - destruct (fill_given s ms (m, id) img (roomy_weaken _ 300000 _ Hr ltac:(lia)) Hx) as (entry & wr1 & E1 & G1 & M1). cbn [fst snd] in E1.
    rewrite E1, bind_Ret. cbn [with_writer minidump_writer_].
    destruct (one_module s wr1 p nn object hi j filled img entry) as (wr2 & -> & F2 & Z2 & S2 & L2 & M2 & P2); [done|done|apply (roomy_weaken _ 300000 _ Hr); lia|done|lia|done|done|done|done|].
    rewrite bind_Ret. destruct Hr as [Hwr Hs]. change (2 ^ 30 - 2 ^ 25) with 1040187392 in Hs.
    destruct (IH (S j) (with_writer s wr2) (filled ++ entry)) as (entries & wr3 & E3 & F3 & Z3 & S3 & M3 & P3);
      [split; [by apply (frame_ok _ _ _ _ F2)|change (2 ^ 30 - 2 ^ 25) with 1040187392; cbn [with_writer minidump_writer_]; lia]|lia|done|done|done|].
    cbn [with_writer minidump_writer_ memory_blocks_ crashing_thread_context_ crash_address_] in *.
    exists (entry :: entries), wr3. split; [exact E3|].
    split; [by apply (frame_trans _ _ _ wr2)|]. split; [lia|]. cbn [concat]. rewrite app_assoc. split; [done|].
    split; [|done]. constructor; [|done]. apply (module_written_keeps hi wr2); [apply (keeps_frame _ _ _ _ _ F3); lia|done].
Qed.

(** Finding the identifier of a mapping leaves the others alone. *)
Lemma identifier_mappings m i ms ok identifier ms' : ElfFileIdentifierForMapping m true i ms [] = Ret (ok, identifier, ms') ->
  drop (S i) ms' = drop (S i) ms /\ length ms' = length ms.
Proof.
  unfold ElfFileIdentifierForMapping. intros H. destruct (true && _); [done|].
  apply bind_Ret_inv in H as (unsafe & _ & H). destruct unsafe; [by injection H as <- <- <-|].
  apply bind_Ret_inv in H as (c & _ & H). destruct (c =? 0).
  { apply bind_Ret_inv in H as (gate & _ & H). apply bind_Ret_inv in H as ([ok1 id1] & _ & H). by injection H as <- <- <-. }
  apply bind_Ret_inv in H as ([ok1 filename] & _ & H). destruct ok1; cbn [negb] in H; [|by injection H as <- <- <-].
  apply bind_Ret_inv in H as ([has_link link] & _ & H). apply bind_Ret_inv in H as ([modified filename'] & _ & H).
  apply bind_Ret_inv in H as (path & _ & H). destruct (mapped fs path (offset m)) as [data|]; [|by injection H as <- <- <-].
  destruct (length data <? SELFMAG)%nat; [by injection H as <- <- <-|]. apply bind_Ret_inv in H as ([success id] & _ & H).
  injection H as <- <- <-. destruct (success && true && modified); [|done]. split; [apply drop_alter_lt; lia|apply length_alter].
Qed.

Definition counted (m : MappingInfo) : bool := ShouldIncludeMapping m && negb (HaveMappingInfo m).

(** As many modules are written as were counted. *)
Lemma modules_counted n i ms imgs ms' : modules_are n i ms imgs ms' -> length ms = (i + n)%nat ->
  length imgs = length (List.filter counted (drop i ms)).
Proof.
  induction 1 as [i ms|n i ms m imgs ms' Hm Ho _ IH|n i ms m img ms1 imgs ms' Hm Ho Hi _ IH]; intros Hl.
  - by rewrite drop_ge by lia.
  - rewrite (drop_S ms m i Hm). cbn [List.filter]. unfold counted at 1. apply orb_true_iff in Ho as [Ho|Ho].
    + apply negb_true_iff in Ho. rewrite Ho. cbn [andb]. apply IH. lia.
    + rewrite Ho, andb_false_r. apply IH. lia.
  - rewrite (drop_S ms m i Hm). cbn [List.filter length]. unfold counted at 1. apply orb_false_iff in Ho as [Ho1 Ho2]. apply negb_false_iff in Ho1.
    rewrite Ho1, Ho2. cbn [andb negb length]. destruct Hi as (m1 & ok & id & _ & Hid & _). apply identifier_mappings in Hid as [Hd Hlen].
    rewrite IH by lia. by rewrite Hd.
Qed.

Lemma no_members n i ms ms' s t j : modules_are n i ms [] ms' -> write_modules s t ms n i j = Ret (true, j, s, ms').
Proof.
  intros H. remember [] as imgs eqn:E. induction H as [|n i ms m imgs ms' Hm Ho _ IH|]; [done| |done]. cbn [write_modules].
  rewrite Hm. cbn [get_or_oob]. rewrite bind_Ret, Ho. by apply IH.
Qed.

(** The module list has an entry for each mapping with a name that is counted
    and each that the caller gave, in this order: its range, the record with
    its identifier and its path, both where the entry says they are; the
    number is that of the entries, though names may change on the way. *)
Theorem module_list_stream s mappings members given mappings' : modules_are (length mappings) 0 mappings members mappings' ->
  Forall2 given_is (mapping_list_ conf) given -> let imgs := members ++ given in let n := Z.of_nat (length imgs) in let p := position_ (minidump_writer_ s) in
  roomy (400000 * (n + 1)) s ->
  exists entries wr, WriteMappings s mappings = Ret (Some (MD_MODULE_LIST_STREAM, (4 + 108 * n, p)), with_writer s wr, mappings')
    /\ grows (400000 * (n + 1)) (minidump_writer_ s) wr /\ stored wr p (le_bytes 4 n ++ concat entries)
    /\ Forall2 (module_written (p + 4 + 108 * n) wr) imgs entries.
Proof.
  intros Hm Hgiven imgs n p [Hwr Hs]. change (2 ^ 30 - 2 ^ 25) with 1040187392 in Hs. pose proof Hwr as (_ & _ & Hpos & _). fold p in Hpos.
  assert (Z.of_nat (num_output_mappings mappings) = n) as En.
  { unfold num_output_mappings, n, imgs. rewrite length_app, (modules_counted _ _ _ _ _ Hm) by done. rewrite drop_0, (Forall2_length _ _ _ Hgiven).
    unfold counted. lia. }
  unfold WriteMappings. rewrite En, Hg. unfold new_list. assert (0 <= n) as Hn by (unfold n; lia).
  destruct (Z.eqb_spec n 0) as [E0|Hne].
  - assert (imgs = []) as Ei by (destruct imgs; [done|unfold n in E0; cbn in E0; lia]). unfold imgs in Ei. apply app_nil in Ei as [-> ->].
    destruct (object_written w page_size Hw Hpage (minidump_writer_ s) (le_bytes 4 0) (le_bytes 4 n)) as (wr1 & wr2 & -> & E2 & G2 & S2);
      [done|rewrite length_le_bytes; lia|by rewrite !length_le_bytes|rewrite length_le_bytes; done|change (2 ^ 30 - 2 ^ 25) with 1040187392; lia|].
    rewrite bind_Ret. cbn [negb].
    assert (forall s t, write_modules s t mappings (length mappings) 0 0 = Ret (true, 0%nat, s, mappings')) as Hnone by (intros s' t; by apply no_members).
    unfold set_data. cbn [chunk allocation_state_]. inversion Hgiven as [Hgl|]. rewrite Hnone, bind_Ret. cbn [write_given]. rewrite bind_Ret. cbn [with_writer minidump_writer_].
    rewrite E2, bind_Ret. exists [], wr2. rewrite E0 in *. split; [done|]. rewrite length_le_bytes in G2. split; [apply (grows_weaken _ _ _ _ G2); lia|].
    cbn [concat]. rewrite app_nil_r. split; [done|constructor].
  - destruct (list_allocated w page_size Hw Hpage (minidump_writer_ s) (le_bytes 4 0) n MD_MODULE_SIZE) as (wr1 & -> & G1 & P1);
      [done|lia|done|rewrite length_le_bytes; unfold MD_MODULE_SIZE; change (2 ^ 24) with 16777216; lia|change (2 ^ 30 - 2 ^ 25) with 1040187392; lia|].
    rewrite bind_Ret. cbn [negb]. unfold set_data, MD_MODULE_SIZE in *. cbn [chunk allocation_state_]. rewrite length_le_bytes in *. change (Z.of_nat 4) with 4 in *.
    fold p in P1 |- *. pose proof (grows_position _ _ _ G1) as [P1' Z1]. assert (n = Z.of_nat (length members) + Z.of_nat (length given)) as En' by (unfold n, imgs; rewrite length_app; lia).
    destruct (write_modules_ok p (4 + n * 108) (le_bytes 4 n) (p + 4 + 108 * n) (length mappings) ltac:(by rewrite length_le_bytes) ltac:(lia) 0 mappings members mappings' 0 (with_writer s wr1) [] Hm)
      as (entries1 & wr2 & -> & F2 & Z2 & S2 & L2 & M2 & P2);
      [split; [by apply (grows_ok _ _ _ G1)|change (2 ^ 30 - 2 ^ 25) with 1040187392; cbn [with_writer minidump_writer_]; lia]|lia|cbn [with_writer minidump_writer_]; lia
      |apply stored_nil; cbn [with_writer minidump_writer_]; lia|done|].
    rewrite bind_Ret. cbn [with_writer minidump_writer_ memory_blocks_ crashing_thread_context_ crash_address_] in *.
    destruct (write_given_ok p (4 + n * 108) (le_bytes 4 n) (p + 4 + 108 * n) mappings' (mapping_list_ conf) given ltac:(by rewrite length_le_bytes) ltac:(lia) Hgiven
      (0 + length members) (with_writer s wr2) ([] ++ concat entries1)) as (entries2 & wr3 & E3 & F3 & Z3 & S3 & M3 & P3);
      [split; [by apply (frame_ok _ _ _ _ F2)|change (2 ^ 30 - 2 ^ 25) with 1040187392; cbn [with_writer minidump_writer_]; lia]|lia|done|done|done|].
    unfold with_writer in E3 |- *. cbn [with_writer minidump_writer_ memory_blocks_ crashing_thread_context_ crash_address_ app] in *. rewrite E3, bind_Ret.
    pose proof F3 as (Hwr3 & _). cbn [minidump_writer_]. rewrite <- concat_app in S3.
    destruct (table_written w Hw wr3 p (4 + n * 108) (le_bytes 4 n) (concat (entries1 ++ entries2))) as (wr4 & -> & F4 & S4 & P4 & Z4);
      [done|change (2 ^ 30) with 1073741824; lia|lia|rewrite length_le_bytes; lia|rewrite length_le_bytes; done|rewrite length_le_bytes; lia|].
    rewrite bind_Ret. rewrite length_le_bytes in F4. change (Z.of_nat 4) with 4 in F4. exists (entries1 ++ entries2), wr4.
    assert (keeps (p + 4 + 108 * n) wr2 wr4) as K2.
    { apply (keeps_trans _ _ wr3); [apply (keeps_frame _ _ _ _ _ F3); lia|apply (keeps_frame _ _ _ _ _ F4); lia]. }
    assert (keeps (p + 4 + 108 * n) wr3 wr4) as K3 by (apply (keeps_frame _ _ _ _ _ F4); lia).
    split; [unfold location; cbn [u_size u_position]; rewrite wrap_small by (change (2 ^ 32) with 4294967296; split; lia); do 6 f_equal; lia|]. split; [|split; [done|]].
    + apply (grows_weaken (4 + n * 108 + 65544 + 300000 * n)); [|lia]. split; [|lia]. apply (frame_new p (p + 4 + 108 * n)); [|done].
      apply (frame_trans _ _ _ wr3); [|eapply frame_weaken; [exact F4|]; lia]. apply (frame_trans _ _ _ wr2); [|eapply frame_weaken; [exact F3|]; lia].
      apply (frame_trans _ _ _ wr1); [apply frame_more, G1|]. eapply frame_weaken; [exact F2|]. lia.
    + apply Forall2_app; [eapply Forall2_impl; [exact M2|]|eapply Forall2_impl; [exact M3|]]; intros img entry H;
        [by apply (module_written_keeps _ wr2)|by apply (module_written_keeps _ wr3)].
Qed.

End Facts.

End Modules.
