(* ===== verification/DsoDebug.v ===== *)
(** The libraries that the dynamic linker of the crashed process has loaded:
    WriteDSODebugStream of client/linux/minidump_writer/minidump_writer.cc of
    libbreakpad.

    The structures are read from the process, at the offsets of the ABI;
    CopyFromProcess never fails, and gives zeros for what cannot be read. *)
From stdpp Require Import gmap.
From S2P Require Import Prelude Utf8 ConvertUtf LibcSupport LineReader LinuxDumper FileWriter Regions Registers PtraceDumper ThreadList.

Definition AT_PHDR : Z := 3.
Definition AT_PHNUM : Z := 5.
Definition DT_NULL : Z := 0.
Definition DT_DEBUG : Z := 21.
Definition MD_LINUX_DSO_DEBUG : Z := 0x4767000A.

(** Sizes and offsets in ElfW(Phdr), ElfW(Dyn), r_debug and link_map. *)
Definition sizeof_phdr (a : abi) : nat := match a with armeabi_v7a => 32 | arm64_v8a => 56 end.
Definition p_offset_at (a : abi) : nat := match a with armeabi_v7a => 4 | arm64_v8a => 8 end.
Definition p_vaddr_at (a : abi) : nat := match a with armeabi_v7a => 8 | arm64_v8a => 16 end.
Definition sizeof_dyn (a : abi) : nat := 2 * word_size a.
Definition sizeof_r_debug (a : abi) : nat := 5 * word_size a.
Definition sizeof_link_map (a : abi) : nat := 5 * word_size a.

Section Dso.

Variables (a : abi) (page_size : Z) (g : workaround) (k : kernel) (crash_thread : Z).

Let w := word_bits a.
Let ws := word_size a.

Definition word_of (bytes : list Z) (off : nat) : Z := le_val (take ws (drop off bytes)).

(** MDRawLinkMap; [pad] is what the local variable has between its members. *)
Definition link_map_bytes (pad : list Z) (addr name ld : Z) : list Z :=
  match a with
  | armeabi_v7a => le_bytes 4 addr ++ le_bytes 4 name ++ le_bytes 4 ld
  | arm64_v8a => le_bytes 8 addr ++ le_bytes 4 name ++ take 4 pad ++ le_bytes 8 ld
  end.

Definition sizeof_MDRawLinkMap : nat := match a with armeabi_v7a => 12 | arm64_v8a => 24 end.

(** MDRawDebug. *)
Definition debug_bytes (version map dso_count brk ldbase dynamic : Z) : list Z :=
  le_bytes 4 version ++ le_bytes 4 map ++ le_bytes 4 dso_count
  ++ match a with armeabi_v7a => [] | arm64_v8a => replicate 4 0 end ++ le_bytes ws brk ++ le_bytes ws ldbase ++ le_bytes ws dynamic.

Lemma length_debug_bytes version map count brk ldbase dynamic : (0 < length (debug_bytes version map count brk ldbase dynamic) <= 40)%nat
  /\ length (debug_bytes version map count brk ldbase dynamic) = length (debug_bytes 0 0 0 0 0 0).
Proof. unfold debug_bytes, ws. rewrite !length_app, !length_le_bytes. clear w ws. split; [|done]. destruct a; cbn; lia. Qed.

Lemma sizeof_MDRawLinkMap_bounds : (0 < sizeof_MDRawLinkMap <= 24)%nat.
Proof. unfold sizeof_MDRawLinkMap. destruct a; lia. Qed.

Definition read_process (addr : Z) (n : nat) : res (list Z) := copy_memory a k (replicate n 0) crash_thread addr (Z.of_nat n).

(** [for (; phnum >= 0; phnum--, phdr++)]; [n] is one more than [phnum]. *)
Fixpoint phdr_loop (n : nat) (phdr base dyn_addr : Z) : res (Z * Z) :=
  match n with
  | O => Ret (base, dyn_addr)
  | S n =>
      ph ← read_process phdr (sizeof_phdr a);
      let p_type := le_val (take 4 ph) in
      let p_vaddr := word_of ph (p_vaddr_at a) in
      let base := if (p_type =? PT_LOAD) && (word_of ph (p_offset_at a) =? 0) then wrap w (base - p_vaddr) else base in
      let dyn_addr := if p_type =? PT_DYNAMIC then p_vaddr else dyn_addr in
      phdr_loop n (wrap w (phdr + Z.of_nat (sizeof_phdr a))) base dyn_addr
  end.

(** The dynamic section up to its end: the address of r_debug, and the length. *)
Fixpoint dyn_loop (fuel : nat) (dynamic : Z) (r_debug dynamic_length : Z) : res (Z * Z) :=
  match fuel with
  | O => Fault OutOfFuel
  | S fuel =>
      let dynamic_length := u32 (dynamic_length + Z.of_nat (sizeof_dyn a)) in
      dyn ← read_process dynamic (sizeof_dyn a);
      let d_tag := word_of dyn 0 in
      if d_tag =? DT_DEBUG then dyn_loop fuel (wrap w (dynamic + Z.of_nat (sizeof_dyn a))) (word_of dyn ws) dynamic_length
      else if d_tag =? DT_NULL then Ret (r_debug, dynamic_length)
      else dyn_loop fuel (wrap w (dynamic + Z.of_nat (sizeof_dyn a))) r_debug dynamic_length
  end.

(** The list of link_maps that starts at [ptr]. *)
Fixpoint count_dsos (fuel : nat) (ptr : Z) (dso_count : Z) : res Z :=
  match fuel with
  | O => Fault OutOfFuel
  | S fuel =>
      if ptr =? 0 then Ret dso_count
      else
        map ← read_process ptr (sizeof_link_map a);
        count_dsos fuel (word_of map (3 * ws)) (i32 (dso_count + 1))
  end.

Fixpoint write_dsos (fuel : nat) (pad : list Z) (wr : writer) (t : typed) (ptr : Z) (idx : nat) : res (bool * writer) :=
  match fuel with
  | O => Fault OutOfFuel
  | S fuel =>
      if ptr =? 0 then Ret (true, wr)
      else
        map ← read_process ptr (sizeof_link_map a);
        let l_name := word_of map ws in
        filename ← (if negb (l_name =? 0) then text ← read_process l_name 256; Ret (text ++ [0]) else Ret (replicate 257 0));
        '(location, wr) ← WriteString w page_size wr g filename 0;
        match location with
        | None => Ret (false, wr)
        | Some (_, rva) =>
            '(_, wr) ← CopyIndex w wr t (Z.of_nat idx) (link_map_bytes pad (word_of map 0) rva (word_of map (2 * ws)));
            write_dsos fuel pad wr t (word_of map (3 * ws)) (S idx)
        end
  end.

(** The stream; [fuel] bounds the entries of the dynamic section and the
    libraries. *)
Definition WriteDSODebugStream (fuel : nat) (pad : list Z) (auxv : list Z) (s : dump_state) : res (option (Z * (Z * Z)) * dump_state) :=
  phdr ← get_or_oob (auxv !! Z.to_nat AT_PHDR);
  phnum ← get_or_oob (auxv !! Z.to_nat AT_PHNUM);
  let phnum := i32 phnum in
  if (phnum =? 0) || (phdr =? 0) then Ret (None, s)
  else
    '(base, dyn_addr) ← phdr_loop (Z.to_nat (phnum + 1)) phdr (Z.ldiff phdr 0xfff) 0;
    if dyn_addr =? 0 then Ret (None, s)
    else
      let dynamic := wrap w (dyn_addr + base) in
      '(r_debug, dynamic_length) ← dyn_loop fuel dynamic 0 0;
      debug_entry ← read_process r_debug (sizeof_r_debug a);
      let r_map := word_of debug_entry ws in
      dso_count ← count_dsos fuel r_map 0;
      '(linkmap_rva, ok, wr) ← (if 0 <? dso_count then
                                  let t := TypedMDRVA (new_chunk (minidump_writer_ s)) (replicate sizeof_MDRawLinkMap 0) UNALLOCATED in
                                  '(ok, t, wr) ← AllocateArray w page_size (minidump_writer_ s) g t dso_count;
                                  if negb (ok : bool) then Ret (kInvalidMDRVA, false, wr)
                                  else '(ok, wr) ← write_dsos fuel pad wr t r_map 0; Ret ((location (chunk t)).2, ok, wr)
                                else Ret (kInvalidMDRVA, true, minidump_writer_ s));
      if negb (ok : bool) then Ret (None, with_writer s wr)
      else
        let t := TypedMDRVA (new_chunk wr) (debug_bytes 0 0 0 0 0 0) UNALLOCATED in
        '(ok, t, wr) ← AllocateObjectAndArray w page_size wr g t 1 dynamic_length;
        if negb (ok : bool) then wr ← TypedMDRVA_destructor w wr t; Ret (None, with_writer s wr)
        else
          let t := set_data t (debug_bytes (le_val (take 4 debug_entry)) linkmap_rva dso_count (word_of debug_entry (2 * ws)) (word_of debug_entry (4 * ws)) dynamic) in
          dso_debug_data ← read_process dynamic (Z.to_nat dynamic_length);
          '(_, wr) ← CopyIndexAfterObject w wr t 0 dso_debug_data;
          wr ← TypedMDRVA_destructor w wr t;
          Ret (Some (MD_LINUX_DSO_DEBUG, location (chunk t)), with_writer s wr).

(** * What is found *)

(** A library: where it is loaded, its name as text, and its dynamic section. *)
Record dso := Dso { dso_addr : Z; dso_name : list Z; dso_ld : Z }.

Definition name_at (l_name : Z) (cs : list Z) : Prop :=
  basic cs /\ (l_name = 0 /\ cs = [] \/ l_name <> 0 /\ exists rest, process_bytes a k crash_thread l_name 256 ++ [0] = utf8_of cs ++ 0 :: rest).

(** The list of link_maps at an address. *)
Inductive dsos_at : Z -> list dso -> Prop :=
| no_dso : dsos_at 0 []
| dso_at ptr cs ds : ptr <> 0 -> let map := process_bytes a k crash_thread ptr (sizeof_link_map a) in
    name_at (word_of map ws) cs -> dsos_at (word_of map (3 * ws)) ds ->
    dsos_at ptr (Dso (word_of map 0) cs (word_of map (2 * ws)) :: ds).

(** The entries of a dynamic section before its end. *)
Inductive dynamic_at : Z -> list (Z * Z) -> Prop :=
| dynamic_end addr : word_of (process_bytes a k crash_thread addr (sizeof_dyn a)) 0 = DT_NULL -> dynamic_at addr []
| dynamic_entry addr es : let dyn := process_bytes a k crash_thread addr (sizeof_dyn a) in word_of dyn 0 <> DT_NULL ->
    dynamic_at (wrap w (addr + Z.of_nat (sizeof_dyn a))) es -> dynamic_at addr ((word_of dyn 0, word_of dyn ws) :: es).

Definition debug_of (r_debug : Z) (e : Z * Z) : Z := if e.1 =? DT_DEBUG then e.2 else r_debug.

Section Facts.

Hypothesis Hg : g = no_workaround.
Hypothesis Hpage : 0 < page_size < 2 ^ 16.

Let Hw : 32 <= w := width_ok a.

Lemma read_process_ok addr n : read_process addr n = Ret (process_bytes a k crash_thread addr n).
Proof. unfold read_process. rewrite copy_memory_ok, Nat2Z.id; [done|]. rewrite length_replicate. lia. Qed.

Lemma dyn_loop_spec es : forall addr fuel r_debug len, dynamic_at addr es -> (length es < fuel)%nat -> 0 <= len ->
  len + Z.of_nat (sizeof_dyn a) * Z.of_nat (length es + 1) < 2 ^ 32 ->
  dyn_loop fuel addr r_debug len = Ret (fold_left debug_of es r_debug, len + Z.of_nat (sizeof_dyn a) * Z.of_nat (length es + 1)).
Proof.
  assert (0 < Z.of_nat (sizeof_dyn a)) as Hsz by (destruct a; cbn; lia). set (sz := Z.of_nat (sizeof_dyn a)) in *.
  induction es as [|e es IH]; intros addr [|fuel] r_debug len Hd Hf Hlen Hmax; cbn [length] in *; try lia; cbn [dyn_loop fold_left]; fold sz;
    rewrite read_process_ok, bind_Ret, (wrap_small 32 (len + sz)) by (split; [lia|nia]); inversion Hd as [? Hn|? ? dyn Hn Hd']; subst.
  - rewrite Hn. change (DT_NULL =? DT_DEBUG) with false. cbn [Z.eqb]. do 2 f_equal. lia.
  - unfold debug_of at 2. cbn [fst snd]. fold dyn sz in Hd' |- *. destruct (Z.eqb_spec (word_of dyn 0) DT_DEBUG) as [Heq|Hne].
    + rewrite IH by (done || nia). do 2 f_equal. nia.
    + destruct (Z.eqb_spec (word_of dyn 0) DT_NULL); [done|]. rewrite IH by (done || nia). do 2 f_equal. nia.
Qed.

Lemma count_dsos_spec ds : forall ptr fuel n, dsos_at ptr ds -> (length ds < fuel)%nat -> 0 <= n -> n + Z.of_nat (length ds) < 2 ^ 31 ->
  count_dsos fuel ptr n = Ret (n + Z.of_nat (length ds)).
Proof.
  induction ds as [|x ds IH]; intros ptr [|fuel] n Hd Hf Hn Hmax; cbn [length] in *; try lia; cbn [count_dsos]; inversion Hd as [|? cs ? Hp map Hnm Hd']; subst.
  - f_equal. lia.
  - destruct (Z.eqb_spec ptr 0); [done|]. rewrite read_process_ok, bind_Ret. fold map.
    rewrite swrap_small by (done || (change (2 ^ (32 - 1)) with 2147483648; change (2 ^ 31) with 2147483648 in Hmax; lia)).
    rewrite IH by (done || lia). f_equal. lia.
Qed.

Variable pad : list Z.
Hypothesis Hpad : (4 <= length pad)%nat.

(** The entry of a library and its name. *)
Definition dso_written (lo : Z) (wr : writer) (x : dso) (entry : list Z) : Prop :=
  exists rva, entry = link_map_bytes pad (dso_addr x) rva (dso_ld x) /\ lo <= rva /\ stored wr rva (md_string (dso_name x)).

Lemma dso_written_keeps lo wr wr' x entry : keeps lo wr wr' -> dso_written lo wr x entry -> dso_written lo wr' x entry.
Proof. intros Hk (rva & -> & Hlo & Hs). exists rva. split; [done|]. split; [done|]. by apply Hk. Qed.

Lemma length_link_map_bytes addr name ld : length (link_map_bytes pad addr name ld) = sizeof_MDRawLinkMap.
Proof.
  unfold link_map_bytes, sizeof_MDRawLinkMap. destruct a; [done|]. rewrite !length_app, !length_le_bytes, length_take. lia.
Qed.

Lemma name_text l_name cs : name_at l_name cs ->
  exists rest, (if negb (l_name =? 0) then text ← read_process l_name 256; Ret (text ++ [0]) else Ret (replicate 257 0)) = Ret (utf8_of cs ++ 0 :: rest)
    /\ Z.of_nat (length (utf8_of cs)) < 2 ^ 10.
Proof.
  change (2 ^ 10) with 1024. intros [_ [[-> ->]|(Hne & rest & E)]].
  - exists (replicate 256 0). split; [done|cbn; lia].
  - destruct (Z.eqb_spec l_name 0); [done|]. cbn [negb]. exists rest. rewrite read_process_ok, bind_Ret, E. split; [done|].
    apply (f_equal length) in E. rewrite !length_app, length_process_bytes in E. cbn [length] in E. lia.
Qed.

Lemma write_dsos_ok p n hi ds : 0 <= p -> forall ptr fuel wr idx filled, dsos_at ptr ds -> (length ds < fuel)%nat ->
  writer_ok wr -> size_ wr + 80000 * Z.of_nat (length ds) < 2 ^ 30 - 2 ^ 25 -> let m := sizeof_MDRawLinkMap in
  p + Z.of_nat ((idx + length ds) * m) <= hi -> hi <= position_ wr -> stored wr p filled -> length filled = (idx * m)%nat ->
  exists entries wr', write_dsos fuel pad wr (TypedMDRVA (UntypedMDRVA p n) (replicate m 0) ARRAY) ptr idx = Ret (true, wr')
    /\ frame p hi wr wr' /\ size_ wr' <= size_ wr + 80000 * Z.of_nat (length ds) /\ stored wr' p (filled ++ concat entries)
    /\ Forall2 (dso_written hi wr') ds entries /\ hi <= position_ wr'.
Proof.
  intros Hp. change (2 ^ 30 - 2 ^ 25) with 1040187392. pose proof sizeof_MDRawLinkMap_bounds as [Hm _].
  induction ds as [|x ds IH]; intros ptr [|fuel] wr idx filled Hd Hf Hwr Hs m Hhi Hpos Hfl Hl; cbn [length] in *; try lia; cbn [write_dsos]; inversion Hd as [|? cs ? Hptr map Hnm Hd']; subst.
  - exists [], wr. cbn [concat]. rewrite app_nil_r. split; [done|]. split; [by apply frame_refl|]. split; [lia|]. split; [done|]. split; [constructor|done].
  - destruct (Z.eqb_spec ptr 0); [done|]. rewrite read_process_ok, bind_Ret. fold map.
    destruct (name_text _ _ Hnm) as (rest & -> & Hlen). rewrite bind_Ret, Hg. change (2 ^ 10) with 1024 in Hlen.
    destruct (WriteString_frame w page_size Hw Hpage wr cs rest) as (wr1 & -> & F1 & P1 & Z1 & B1);
      [done|apply Hnm|change (2 ^ 20) with 1048576; lia|change (2 ^ 30) with 1073741824; lia|]. rewrite bind_Ret.
    assert (grows 80000 wr wr1) as G1 by (split; [done|lia]).
    set (entry := link_map_bytes pad (word_of map 0) (position_ wr) (word_of map (2 * ws))).
    destruct (array_step w Hw wr wr1 80000 p n (replicate m 0) filled idx m hi entry G1) as (wr2 & -> & F2 & Z2 & S2 & K2 & P2);
      [change (2 ^ 30) with 1073741824; lia|done|done|apply length_link_map_bytes|apply length_replicate|done|done|lia|done|]. rewrite bind_Ret.
    destruct (IH (word_of map (3 * ws)) fuel wr2 (S idx) (filled ++ entry) Hd') as (entries & wr3 & E3 & F3 & Z3 & S3 & W3 & P3);
      [lia|by apply (frame_ok _ _ _ _ F2)|lia|fold m; lia|done|done|rewrite length_app, Hl; unfold entry; rewrite length_link_map_bytes; fold m; lia|].
    exists (entry :: entries), wr3. split; [exact E3|]. split; [by apply (frame_trans _ _ _ wr2)|]. split; [lia|]. cbn [concat]. rewrite app_assoc. split; [done|].
    split; [|done]. constructor; [|done]. exists (position_ wr). split; [done|]. split; [done|].
    apply (keeps_frame _ _ hi _ _ F3); [lia|done|]. apply K2; [done|]. split; [done|]. cbn [dso_name]. rewrite length_md_string. lia.
Qed.

(** The array of the libraries, if there are any. *)
Definition dsos_written (lo : Z) (wr : writer) (ds : list dso) (rva : Z) : Prop :=
  match ds with
  | [] => rva = kInvalidMDRVA
  | _ => lo <= rva /\ exists entries, stored wr rva (concat entries) /\ Forall2 (dso_written lo wr) ds entries
  end.

Lemma dsos_written_keeps lo wr wr' ds rva : keeps lo wr wr' -> dsos_written lo wr ds rva -> dsos_written lo wr' ds rva.
Proof.
  intros Hk. destruct ds as [|x ds]; [done|]. intros (Hlo & entries & Hs & Hd). split; [done|]. exists entries. split; [by apply Hk|].
  eapply Forall2_impl; [exact Hd|]. intros y e. by apply dso_written_keeps.
Qed.

Lemma dsos_written_weaken lo lo' wr ds rva : dsos_written lo wr ds rva -> lo' <= lo -> dsos_written lo' wr ds rva.
Proof.
  destruct ds as [|x ds]; [done|]. intros (Hlo & entries & Hs & Hd) Hl. split; [by eapply Z.le_trans|]. exists entries. split; [done|].
  eapply Forall2_impl; [exact Hd|]. intros y e (rva' & -> & Hlo' & Hs'). exists rva'. split; [done|]. split; [by eapply Z.le_trans|done].
Qed.

(** The part of the stream before its record. *)
Lemma array_of_dsos s r_map ds fuel : dsos_at r_map ds -> (length ds < fuel)%nat -> let count := Z.of_nat (length ds) in
  roomy (90000 * (count + 1)) s ->
  exists rva wr, (if 0 <? count then
      let t := TypedMDRVA (new_chunk (minidump_writer_ s)) (replicate sizeof_MDRawLinkMap 0) UNALLOCATED in
      '(ok, t, wr) ← AllocateArray w page_size (minidump_writer_ s) g t count;
      if negb (ok : bool) then Ret (kInvalidMDRVA, false, wr)
      else '(ok, wr) ← write_dsos fuel pad wr t r_map 0; Ret ((location (chunk t)).2, ok, wr)
    else Ret (kInvalidMDRVA, true, minidump_writer_ s)) = Ret (rva, true, wr)
    /\ grows (90000 * (count + 1)) (minidump_writer_ s) wr /\ dsos_written (position_ (minidump_writer_ s)) wr ds rva.
Proof.
  intros Hd Hf count [Hwr Hs]. change (2 ^ 30 - 2 ^ 25) with 1040187392 in Hs. pose proof Hwr as (_ & _ & Hpos & _). set (p := position_ (minidump_writer_ s)) in *.
  pose proof sizeof_MDRawLinkMap_bounds as [Hm0 Hm].
  destruct (Z.ltb_spec 0 count) as [Hc|Hc].
  - cbn zeta. rewrite Hg. destruct (array_allocated w page_size Hw Hpage (minidump_writer_ s) (replicate sizeof_MDRawLinkMap 0) count) as (wr1 & -> & G1 & P1);
      [done|done|rewrite length_replicate; lia|rewrite length_replicate; change (2 ^ 24) with 16777216; nia|change (2 ^ 30 - 2 ^ 25) with 1040187392; lia|].
    rewrite bind_Ret. cbn [negb]. rewrite length_replicate in *. fold p in P1 |- *. pose proof (grows_position _ _ _ G1) as [P1' Z1].
    assert (Z.of_nat sizeof_MDRawLinkMap * count <= 24 * count) as Hmc by nia.
    destruct (write_dsos_ok p (Z.of_nat sizeof_MDRawLinkMap * count) (p + Z.of_nat sizeof_MDRawLinkMap * count) ds ltac:(lia) r_map fuel wr1 0 [] Hd Hf)
      as (entries & wr2 & -> & F2 & Z2 & S2 & W2 & P2); [by apply grows_ok in G1|change (2 ^ 30 - 2 ^ 25) with 1040187392; fold count; lia|lia|lia|apply stored_nil; lia|done|].
    rewrite bind_Ret. exists p, wr2. split; [done|]. split.
    + apply (grows_weaken (Z.of_nat sizeof_MDRawLinkMap * count + 65544 + 80000 * count)); [|lia]. split; [|fold count in Z2; lia].
      apply (frame_new p (p + Z.of_nat sizeof_MDRawLinkMap * count)); [|done]. apply (frame_trans _ _ _ wr1); [apply frame_more, G1|exact F2].
    + destruct ds as [|x ds]; [done|]. split; [lia|]. exists entries. split; [done|]. eapply Forall2_impl; [exact W2|].
      intros y e (rva & -> & Hlo & Hst). exists rva. split; [done|]. split; [lia|done].
  - exists kInvalidMDRVA, (minidump_writer_ s). split; [done|]. split; [apply (grows_weaken 0); [by apply grows_refl|lia]|].
    destruct ds; [done|]. unfold count in Hc. cbn [length] in Hc. lia.
Qed.

(** The record of the linker's data, the dynamic section behind it, and the
    libraries in the order of the linker with their names. *)
Theorem dso_debug_stream auxv s fuel phdr phnum base dyn_addr es ds : auxv !! Z.to_nat AT_PHDR = Some phdr -> auxv !! Z.to_nat AT_PHNUM = Some phnum ->
  phdr <> 0 -> i32 phnum <> 0 -> phdr_loop (Z.to_nat (i32 phnum + 1)) phdr (Z.ldiff phdr 0xfff) 0 = Ret (base, dyn_addr) -> dyn_addr <> 0 ->
  let dynamic := wrap w (dyn_addr + base) in dynamic_at dynamic es -> let debug_entry := process_bytes a k crash_thread (fold_left debug_of es 0) (sizeof_r_debug a) in
  dsos_at (word_of debug_entry ws) ds -> (length es < fuel)%nat -> (length ds < fuel)%nat -> let count := Z.of_nat (length ds) in
  let len := Z.of_nat (sizeof_dyn a) * Z.of_nat (length es + 1) in len < 2 ^ 20 -> roomy (90000 * (count + 2) + len) s -> let p := position_ (minidump_writer_ s) in
  exists rva wr q, let record := debug_bytes (le_val (take 4 debug_entry)) rva count (word_of debug_entry (2 * ws)) (word_of debug_entry (4 * ws)) dynamic in
    WriteDSODebugStream fuel pad auxv s = Ret (Some (MD_LINUX_DSO_DEBUG, (Z.of_nat (length record) + len, q)), with_writer s wr)
    /\ grows (90000 * (count + 2) + len) (minidump_writer_ s) wr /\ p <= q
    /\ stored wr q (record ++ process_bytes a k crash_thread dynamic (Z.to_nat len)) /\ dsos_written p wr ds rva.
Proof.
  intros Ep En Hphdr Hphnum Eloop Hdyn dynamic Hes debug_entry Hds Hf1 Hf2 count len Hlen Hr p. pose proof Hr as [Hwr Hs]. change (2 ^ 30 - 2 ^ 25) with 1040187392 in Hs. change (2 ^ 20) with 1048576 in Hlen.
  pose proof Hwr as (_ & _ & Hpos & _). fold p in Hpos.
  assert (0 < len) as Hlen0 by (unfold len, sizeof_dyn; pose proof (word_size_pos a); nia). assert (0 <= count) as Hc0 by (unfold count; lia).
  unfold WriteDSODebugStream. rewrite Ep, En. cbn [get_or_oob]. rewrite !bind_Ret. apply Z.eqb_neq in Hphdr, Hphnum, Hdyn. rewrite Hphdr, Hphnum. cbn [orb].
  rewrite Eloop, bind_Ret, Hdyn. fold dynamic. rewrite (dyn_loop_spec es) by (done || (change (2 ^ 32) with 4294967296; fold len; lia)). rewrite bind_Ret, Z.add_0_l. fold len.
  rewrite (read_process_ok (fold_left debug_of es 0)), bind_Ret. fold debug_entry.
  rewrite (count_dsos_spec ds) by (done || (change (2 ^ 31) with 2147483648; fold count; lia)). rewrite bind_Ret, Z.add_0_l. fold count.
  destruct (array_of_dsos s _ ds fuel Hds Hf2 (roomy_weaken _ (90000 * (count + 1)) _ Hr ltac:(lia))) as (rva & wr1 & E1 & G1 & D1). fold count in E1, G1.
  cbn zeta in E1. rewrite E1, bind_Ret. cbn [negb]. set (record := debug_bytes (le_val (take 4 debug_entry)) rva count _ _ dynamic).
  pose proof (length_debug_bytes (le_val (take 4 debug_entry)) rva count (word_of debug_entry (2 * ws)) (word_of debug_entry (4 * ws)) dynamic) as [Hrec Hrec0]. fold record in Hrec, Hrec0.
  pose proof (grows_ok _ _ _ G1) as Hwr1. pose proof (grows_position _ _ _ G1) as [P1 Z1]. fold p in P1. rewrite Hg.
  destruct (list_allocated w page_size Hw Hpage wr1 (debug_bytes 0 0 0 0 0 0) 1 len) as (wr2 & -> & G2 & P2);
    [done|done|done|rewrite <- Hrec0; change (2 ^ 24) with 16777216; lia|change (2 ^ 30 - 2 ^ 25) with 1040187392; lia|].
  rewrite bind_Ret. cbn [negb]. unfold set_data. cbn [chunk allocation_state_]. rewrite <- Hrec0, Z.mul_1_l in *. set (q := position_ wr1) in *. pose proof (grows_position _ _ _ G2) as [P2' Z2]. fold q in P2'.
  rewrite read_process_ok, bind_Ret. set (data := process_bytes a k crash_thread dynamic (Z.to_nat len)).
  assert (length data = Z.to_nat len) as Hdata by apply length_process_bytes.
  destruct (element_written w Hw wr2 q (Z.of_nat (length record) + len) record [] 0 data) as (wr3 & E3 & F3 & S3 & P3 & Z3);
    [by apply grows_ok in G2|change (2 ^ 30) with 1073741824; lia|lia|lia|apply stored_nil; lia|done|rewrite Hdata; lia|].
  change (Z.of_nat 0) with 0 in E3. rewrite E3, bind_Ret. cbn [app] in S3. pose proof F3 as (Hwr3 & _).
  destruct (table_written w Hw wr3 q (Z.of_nat (length record) + len) record data) as (wr4 & -> & F4 & S4 & P4 & Z4);
    [done|change (2 ^ 30) with 1073741824; lia|lia|lia|done|lia|]. rewrite bind_Ret.
  assert (frame q (q + Z.of_nat (length record) + len) wr2 wr4) as F24.
  { apply (frame_trans _ _ _ wr3); [eapply frame_weaken; [exact F3|]; lia|eapply frame_weaken; [exact F4|]; lia]. }
  assert (grows (Z.of_nat (length record) + len + 65544) wr1 wr4) as G4 by (apply (frame_after _ q (q + Z.of_nat (length record) + len) _ wr2); (done || lia)).
  exists rva, wr4, q. split; [unfold location; cbn [u_size u_position]; by rewrite wrap_small by (change (2 ^ 32) with 4294967296; split; lia)|].
  split; [apply (grows_weaken (90000 * (count + 1) + (Z.of_nat (length record) + len + 65544))); [by apply (grows_trans _ _ _ wr1)|lia]|]. split; [done|].
  split; [done|]. apply (dsos_written_keeps p wr1); [by eapply keeps_grows|done].
Qed.

(** * What goes wrong *)

(** The loop over the program headers reads one more than there are: the header
    behind them decides where the dynamic section is, if it looks like one. *)
Theorem header_behind_the_last n : forall phdr base dyn_addr,
  let ph := process_bytes a k crash_thread (wrap w (phdr + Z.of_nat (n * sizeof_phdr a))) (sizeof_phdr a) in in_range w phdr ->
  le_val (take 4 ph) = PT_DYNAMIC -> exists base', phdr_loop (n + 1) phdr base dyn_addr = Ret (base', word_of ph (p_vaddr_at a)).
Proof.
  induction n as [|n IH]; intros phdr base dyn_addr ph Hin Ht; cbn [Nat.add phdr_loop]; rewrite read_process_ok, bind_Ret.
  - assert (wrap w (phdr + Z.of_nat (0 * sizeof_phdr a)) = phdr) as E by (rewrite Nat.mul_0_l, Z.add_0_r; by apply wrap_small).
    unfold ph in *. rewrite E in *. rewrite Ht, Z.eqb_refl. eexists. reflexivity.
  - set (phdr' := wrap w (phdr + Z.of_nat (sizeof_phdr a))).
    assert (wrap w (phdr' + Z.of_nat (n * sizeof_phdr a)) = wrap w (phdr + Z.of_nat (S n * sizeof_phdr a))) as Ha.
    { unfold phdr', wrap. rewrite Zplus_mod_idemp_l. f_equal. lia. }
    pose proof (fun b d => IH phdr' b d ltac:(apply wrap_range; lia)) as IH'. cbn zeta in IH'. rewrite Ha in IH'. by apply IH'.
Qed.

(** A library whose successor is itself, as in a process whose memory is damaged,
    is counted for ever. *)
Theorem cyclic_list_endless ptr : ptr <> 0 -> word_of (process_bytes a k crash_thread ptr (sizeof_link_map a)) (3 * ws) = ptr ->
  forall fuel n, count_dsos fuel ptr n = Fault OutOfFuel.
Proof.
  intros Hp Hc. induction fuel as [|fuel IH]; intros n; [done|]. cbn [count_dsos]. destruct (Z.eqb_spec ptr 0); [done|]. by rewrite read_process_ok, bind_Ret, Hc.
Qed.

End Facts.

End Dso.
