(* ===== verification/ProcFiles.v ===== *)
(** Whole files in a minidump: WriteFile and WriteProcFile of
    client/linux/minidump_writer/minidump_writer.cc of libbreakpad.

    A file of /proc has no length that could be asked for, so it is read into a
    list of buffers first. A file is the bytes that are left of it and what the
    next reads do; when that runs out, a read gives all that fits. *)
From S2P Require Import Prelude Utf8 ConvertUtf LibcSupport LineReader LinuxDumper FileWriter Regions Registers PtraceDumper ThreadList ModuleList.

(** At most so many bytes (but one at least), EINTR, or another error. *)
Inductive read_result := Gives (n : nat) | Interrupted | ReadFailed.

Record proc_file := ProcFile { text : list Z; outcomes : list read_result }.

(** [do r = sys_read(...); while (r == -1 && errno == EINTR);]. *)
Fixpoint read_again (rs : list read_result) (text : list Z) (room : nat) : option (list Z) * proc_file :=
  match rs with
  | [] => (Some (take room text), ProcFile (drop room text) [])
  | Gives n :: rs => (Some (take (min room (max 1 n)) text), ProcFile (drop (min room (max 1 n)) text) rs)
  | Interrupted :: rs => read_again rs text room
  | ReadFailed :: rs => (None, ProcFile text rs)
  end.

(** The names of what may be opened, and the files. *)
Definition filesystem : Type := list Z -> option proc_file.

Section WriteFile.

Variables (a : abi) (page_size : Z) (g : workaround) (opened : filesystem).

Let w := word_bits a.

Definition kBufSize : nat := 1024 - 2 * word_size a.

(** The buffers that are full, and the bytes in the last one. *)
Fixpoint read_buffers (fuel : nat) (f : proc_file) (full : list (list Z)) (last : list Z) : res (list (list Z)) :=
  match fuel with
  | O => Fault OutOfFuel
  | S fuel =>
      let '(r, f) := read_again (outcomes f) (text f) (kBufSize - length last) in
      match r with
      | None | Some [] => Ret (full ++ [last])
      | Some bytes =>
          let last := last ++ bytes in
          if (length last =? kBufSize)%nat then read_buffers fuel f (full ++ [last]) [] else read_buffers fuel f full last
      end
  end.

(** The buffers, one behind the other; only the last may be empty. *)
Fixpoint write_buffers (wr : writer) (u : untyped) (pos : Z) (buffers : list (list Z)) : res writer :=
  match buffers with
  | [] => Ret wr
  | b :: buffers =>
      if (length b =? 0)%nat
      then match buffers with [] => Ret wr | _ => Fault Aborted end
      else
        '(_, wr) ← Untyped_Copy w wr u pos b;
        write_buffers wr u (u32 (pos + Z.of_nat (length b))) buffers
  end.

(** Every read takes a byte of the file, or is the last one. *)
Definition WriteFile (s : dump_state) (filename : list Z) : res (option (Z * Z) * dump_state) :=
  match opened filename with
  | None => Ret (None, s)
  | Some f =>
      buffers ← read_buffers (S (length (text f))) f [] [];
      let total := wrap w (Z.of_nat (length (concat buffers))) in
      if total =? 0 then Ret (None, s)
      else
        '(u, s) ← allocate_block a page_size g s total;
        match u with
        | None => Ret (None, s)
        | Some u =>
            wr ← write_buffers (minidump_writer_ s) u (u_position u) buffers;
            Ret (Some (location u), with_writer s wr)
        end
  end.

(** [buf] is a local of NAME_MAX characters. *)
Definition WriteProcFile (buf : list Z) (s : dump_state) (pid : Z) (filename : list Z) : res (option (Z * Z) * dump_state) :=
  '(ok, buf) ← BuildProcPath buf pid (filename ++ [0]);
  if negb (ok : bool) then Ret (None, s)
  else path ← c_text buf; WriteFile s path.

(** * What is read *)

Definition never_fails (f : proc_file) : Prop := Forall (fun r => r <> ReadFailed) (outcomes f).

Lemma kBufSize_pos : (0 < kBufSize)%nat.
Proof. unfold kBufSize. destruct a; cbn; lia. Qed.

Lemma read_again_ok rs t room : Forall (fun r => r <> ReadFailed) rs -> (0 < room)%nat ->
  exists n rs', read_again rs t room = (Some (take n t), ProcFile (drop n t) rs') /\ (0 < n <= room)%nat /\ Forall (fun r => r <> ReadFailed) rs'.
Proof.
  induction 1 as [|[n| |] rs Hr Hrs IH]; intros Hroom; cbn [read_again].
  - exists room, []. split; [done|]. split; [lia|constructor].
  - exists (min room (max 1 n)), rs. split; [done|]. split; [lia|done].
  - by apply IH.
  - done.
Qed.

(** The buffers hold the whole file: all are full but the last one. *)
Lemma read_buffers_ok fuel : forall f full last, never_fails f -> (length last < kBufSize)%nat -> (length (text f) < fuel)%nat ->
  exists more rest, read_buffers fuel f full last = Ret (full ++ more ++ [rest]) /\ concat more ++ rest = last ++ text f
    /\ Forall (fun b => length b = kBufSize) more.
Proof.
  induction fuel as [|fuel IH]; intros [t rs] full last Hf Hl Hfuel; cbn [text] in *; [lia|]. cbn [read_buffers outcomes text].
  destruct (read_again_ok rs t (kBufSize - length last) Hf ltac:(lia)) as (n & rs' & -> & Hn & Hrs').
  destruct (take n t) as [|b bs] eqn:E.
  - exists [], last. assert (t = []) as -> by (destruct t; [done|]; destruct n; [lia|done]). cbn [concat app]. rewrite app_nil_r. done.
  - assert (length (drop n t) < fuel)%nat as Hfuel'.
    { rewrite length_drop. apply (f_equal length) in E. rewrite length_take in E. cbn [length] in E. lia. }
    assert (length (last ++ b :: bs) <= kBufSize)%nat as Hlast by (rewrite <- E, length_app, length_take; lia).
    assert (last ++ t = (last ++ b :: bs) ++ drop n t) as -> by (by rewrite <- E, <- app_assoc, take_drop). destruct (Nat.eqb_spec (length (last ++ b :: bs)) kBufSize) as [Hfull|Hroom].
    + destruct (IH (ProcFile (drop n t) rs') (full ++ [last ++ b :: bs]) []) as (more & rest & -> & Hc & Hm); [done|apply kBufSize_pos|done|].
      exists ((last ++ b :: bs) :: more), rest. rewrite <- app_assoc. split; [done|]. cbn [concat text] in *. rewrite <- app_assoc, Hc. split; [done|by constructor].
    + destruct (IH (ProcFile (drop n t) rs') full (last ++ b :: bs)) as (more & rest & -> & Hc & Hm); [done|cbn [text]; lia|done|]. by exists more, rest.
Qed.

(** What a name gives: nothing when it does not open or is empty. *)
Definition content (filename : list Z) : option (list Z) :=
  match opened filename with
  | Some f => match text f with [] => None | _ => Some (text f) end
  | None => None
  end.

Definition readable (filename : list Z) : Prop :=
  match opened filename with Some f => never_fails f /\ Z.of_nat (length (text f)) < 2 ^ 24 | None => True end.

(** The content in the dump, at a location. *)
Definition content_written (lo : Z) (wr : writer) (c : option (list Z)) (l : option (Z * Z)) : Prop :=
  match c with None => l = None | Some t => exists l', l = Some l' /\ at_location lo wr l' t end.

Lemma content_written_keeps lo wr wr' c l : keeps lo wr wr' -> content_written lo wr c l -> content_written lo wr' c l.
Proof. intros Hk. destruct c; [|done]. intros (l' & -> & H). exists l'. split; [done|]. by apply (at_location_keeps lo wr). Qed.

Lemma content_written_weaken lo lo' wr c l : content_written lo wr c l -> lo' <= lo -> content_written lo' wr c l.
Proof. destruct c; [|done]. intros (l' & -> & H) Hl. exists l'. split; [done|]. by eapply at_location_weaken. Qed.

Section Facts.

Hypothesis Hg : g = no_workaround.
Hypothesis Hpage : 0 < page_size < 2 ^ 16.

Let Hw : 32 <= w := width_ok a.

Lemma write_buffers_ok p n hi rest more : 0 <= p -> Forall (fun b => length b = kBufSize) more -> forall pos wr filled, writer_ok wr -> size_ wr < 2 ^ 30 ->
  pos = p + Z.of_nat (length filled) -> stored wr p filled -> hi = p + n -> hi <= position_ wr ->
  n = Z.of_nat (length filled) + Z.of_nat (length (concat more ++ rest)) ->
  exists wr', write_buffers wr (UntypedMDRVA p n) pos (more ++ [rest]) = Ret wr' /\ frame p hi wr wr' /\ stored wr' p (filled ++ concat more ++ rest)
    /\ position_ wr' = position_ wr /\ size_ wr' = size_ wr.
Proof.
  intros Hp. induction 1 as [|b more Hb _ IH]; intros pos wr filled Hwr Hs -> Hf -> Hhi Hn; cbn [app concat write_buffers] in *;
    destruct (writer_bounds w Hw wr Hwr Hs) as (B1 & B2 & B3).
  - destruct (Nat.eqb_spec (length rest) 0) as [E|Hne].
    + exists wr. destruct rest; [|done]. rewrite app_nil_r. split; [done|]. split; [by apply frame_refl|]. split; [done|]. split; done.
    + destruct (Untyped_Copy_frame w Hw wr p n (p + Z.of_nat (length filled)) rest) as (wr' & -> & F & B & P & S1); [done|done|lia|lia|lia|lia|lia|].
      rewrite bind_Ret. exists wr'. split; [done|]. split; [eapply frame_weaken; [exact F|]; lia|]. split; [|done].
      apply stored_app. split; [apply (stored_frame _ _ _ _ _ _ F Hf); lia|]. split; [done|lia].
  - pose proof kBufSize_pos. rewrite !length_app in Hn. destruct (Nat.eqb_spec (length b) 0); [lia|].
    destruct (Untyped_Copy_frame w Hw wr p n (p + Z.of_nat (length filled)) b) as (wr1 & -> & F & B & P & S1); [done|done|lia|lia|lia|lia|lia|].
    rewrite bind_Ret, wrap_small by (change (2 ^ 32) with 4294967296; split; lia).
    destruct (IH (p + Z.of_nat (length filled) + Z.of_nat (length b)) wr1 (filled ++ b)) as (wr2 & -> & F2 & S2 & P2 & Z2);
      [by apply frame_ok in F|lia|rewrite length_app; lia| |done|lia|rewrite !length_app in *; lia|].
    { apply stored_app. split; [apply (stored_frame _ _ _ _ _ _ F Hf); lia|]. split; [done|lia]. }
    exists wr2. split; [done|]. split; [apply (frame_trans _ _ _ wr1); [eapply frame_weaken; [exact F|]; lia|done]|].
    rewrite <- !app_assoc in *. split; [done|]. lia.
Qed.

(** A file that is there and not empty is in the dump as it was read, however
    many bytes each read gave and however often it was interrupted. *)
Lemma WriteFile_ok s filename f : opened filename = Some f -> never_fails f -> let n := Z.of_nat (length (text f)) in
  0 < n < 2 ^ 24 -> roomy (n + 65544) s -> let p := position_ (minidump_writer_ s) in
  exists wr, WriteFile s filename = Ret (Some (n, p), with_writer s wr) /\ grows (n + 65544) (minidump_writer_ s) wr /\ stored wr p (text f).
Proof.
  intros Ho Hf n Hn [Hwr Hs] p. change (2 ^ 24) with 16777216 in Hn. change (2 ^ 30 - 2 ^ 25) with 1040187392 in Hs. unfold WriteFile. rewrite Ho.
  destruct (read_buffers_ok (S (length (text f))) f [] [] Hf kBufSize_pos ltac:(lia)) as (more & rest & -> & Hc & Hm). rewrite bind_Ret. cbn [app] in *.
  rewrite concat_app. cbn [concat]. rewrite app_nil_r, Hc. fold n. assert (4294967296 <= 2 ^ w) as Hpw by (by apply width_pow).
  rewrite wrap_small by (split; lia). destruct (Z.eqb_spec n 0); [lia|]. unfold allocate_block. fold w. rewrite Hg.
  destruct (Untyped_Allocate_frame w page_size Hw Hpage (minidump_writer_ s) (new_chunk (minidump_writer_ s)) n) as (wr1 & -> & F1 & P1 & S1);
    [done|done|change (2 ^ 24) with 16777216; lia|change (2 ^ 30) with 1073741824; lia|]. rewrite !bind_Ret. cbn [u_position minidump_writer_ with_writer]. fold p.
  pose proof Hwr as (_ & _ & Hpos & _). fold p in Hpos, P1.
  destruct (write_buffers_ok p n (p + n) rest more ltac:(lia) Hm p wr1 []) as (wr2 & -> & F2 & S2 & P2 & Z2);
    [by apply frame_ok in F1|change (2 ^ 30) with 1073741824; lia|cbn; lia|apply stored_nil; lia|done|lia|rewrite Hc; cbn [length]; fold n; lia|].
  rewrite bind_Ret. cbn [app] in S2. rewrite Hc in S2. exists wr2. split; [|split; [|done]].
  - unfold location. cbn [u_size u_position]. by rewrite wrap_small by (change (2 ^ 32) with 4294967296; split; lia).
  - apply (frame_after _ p (p + n) _ wr1); [split; [done|lia]|done|lia|lia].
Qed.

Definition file_room : Z := 2 ^ 24 + 2 ^ 17.

Lemma WriteFile_spec s filename : readable filename -> roomy file_room s ->
  exists l wr, WriteFile s filename = Ret (l, with_writer s wr) /\ grows file_room (minidump_writer_ s) wr
    /\ content_written (position_ (minidump_writer_ s)) wr (content filename) l.
Proof.
  intros Hr Hs. unfold readable, content, file_room in *. change (2 ^ 24 + 2 ^ 17) with 16908288 in *.
  assert (exists wr, (None : option (Z * Z), s) = (None, with_writer s wr) /\ grows 16908288 (minidump_writer_ s) wr) as (wr0 & E0 & G0).
  { exists (minidump_writer_ s). split; [by destruct s|]. apply (grows_weaken 0); [apply grows_refl, Hs|lia]. }
  destruct (opened filename) as [[t rs]|] eqn:Ho; cbn [text] in *.
  - destruct Hr as [Hf Hl]. destruct t as [|b t]; [|set (txt := b :: t) in *].
    + exists None, wr0. rewrite <- E0. split; [|done]. unfold WriteFile. rewrite Ho.
      destruct (read_buffers_ok 1 (ProcFile [] rs) [] [] Hf kBufSize_pos ltac:(cbn; lia)) as (more & rest & E & Hc & _). cbn [text length] in *.
      rewrite E, bind_Ret. cbn [app] in *. rewrite concat_app. cbn [concat]. rewrite app_nil_r, Hc. cbn [length]. by rewrite wrap_small by (split; [lia|apply Z.pow_pos_nonneg; lia]).
    + assert (0 < length txt)%nat as Ht by (cbn; lia). clearbody txt. change (2 ^ 24) with 16777216 in Hl.
      destruct (WriteFile_ok s filename (ProcFile txt rs) Ho Hf) as (wr & E & G & S1); cbn [text] in *; [change (2 ^ 24) with 16777216; lia|by apply (roomy_weaken 16908288); [|lia]|].
      exists (Some (Z.of_nat (length txt), position_ (minidump_writer_ s))), wr. split; [done|]. split; [apply (grows_weaken _ _ _ _ G); lia|].
      eexists. split; [done|]. eexists. split; [done|]. split; [lia|done].
  - exists None, wr0. rewrite <- E0. split; [|done]. unfold WriteFile. by rewrite Ho.
Qed.

Lemma WriteProcFile_spec buf s pid node : 0 < pid < 2 ^ 64 -> nonzero node -> node <> [] -> (length (proc_path pid node) < NAME_MAX)%nat -> length buf = NAME_MAX ->
  readable (proc_path pid node) -> roomy file_room s ->
  exists l wr, WriteProcFile buf s pid node = Ret (l, with_writer s wr) /\ grows file_room (minidump_writer_ s) wr
    /\ content_written (position_ (minidump_writer_ s)) wr (content (proc_path pid node)) l.
Proof.
  intros Hpid Hn Hne Hfit Hb Hr Hs. unfold WriteProcFile. rewrite BuildProcPath_spec, bind_Ret by done.
  destruct (Nat.leb_spec NAME_MAX (length (proc_path pid node))); [lia|]. cbn [negb]. unfold c_text.
  rewrite my_strlen_spec, bind_Ret.
  - rewrite load_in_bounds, bind_Ret by (rewrite length_app; lia). rewrite drop_0, take_app_length. by apply WriteFile_spec.
  - unfold proc_path, nonzero. apply Forall_app. split; [by repeat constructor|]. apply Forall_app. split; [apply digits_nonzero|by constructor].
Qed.

End Facts.

End WriteFile.
