(* ===== verification/MinidumpWriter.v ===== *)
(** A whole minidump: Dump, Init and the destructor of MinidumpWriter and
    WriteMinidumpImpl in client/linux/minidump_writer/minidump_writer.cc of
    libbreakpad, with Init and LateInit of linux_dumper.cc.

    The streams are those of the other files; here they are written one after
    the other, with their entries in the directory at the start of the file. *)
From stdpp Require Import gmap.
From S2P Require Import Prelude Utf8 ConvertUtf LibcSupport LineReader LinuxDumper FileWriter Regions Registers PtraceDumper CpuInfo SystemInfo ThreadList ModuleList DsoDebug ProcFiles.

Definition MD_HEADER_SIGNATURE : Z := 0x504d444d.
Definition MD_HEADER_VERSION : Z := 0x0000a793.
Definition kNumWriters : Z := 13.

Definition MD_LINUX_CPU_INFO : Z := 0x47670003.
Definition MD_LINUX_PROC_STATUS : Z := 0x47670004.
Definition MD_LINUX_LSB_RELEASE : Z := 0x47670005.
Definition MD_LINUX_CMD_LINE : Z := 0x47670006.
Definition MD_LINUX_ENVIRON : Z := 0x47670007.
Definition MD_LINUX_AUXV : Z := 0x47670008.
Definition MD_LINUX_MAPS : Z := 0x47670009.

(** MDRawHeader, whose checksum and flags are zero, and MDRawDirectory. *)
Definition header_bytes (signature version stream_count stream_directory_rva time_date_stamp : Z) : list Z :=
  le_bytes 4 signature ++ le_bytes 4 version ++ le_bytes 4 stream_count ++ le_bytes 4 stream_directory_rva ++ replicate 4 0
  ++ le_bytes 4 time_date_stamp ++ replicate 8 0.

(** The type of a stream and its location. *)
Notation entry := (Z * (Z * Z))%type (only parsing).

Definition directory_bytes (e : entry) : list Z := le_bytes 4 e.1 ++ location_bytes e.2.

Definition arch_of (a : abi) : architecture := match a with armeabi_v7a => ARM | arm64_v8a => ARM64 end.

(** What a dump is made of besides the process itself: the time, the locals
    that are not initialised, what the system says of itself, and the files. *)
Record environment := Environment {
  now : Z;
  local_path : list Z;
  local_info : ThreadInfo;
  local_pad : list Z;
  elf_files : files;
  local_names : locals;
  this_machine : machine;
  opened_files : filesystem
}.

Section MinidumpWriter.

Variables (a : abi) (page_size : Z) (k : kernel) (env : environment).

(** The fuel for a range of processors, and for the lists of the linker. *)
Variables (range_fuel dso_fuel : nat).

Let w := word_bits a.

(** * The streams *)

Section Streams.

Variables (g : workaround) (conf : minidump_writer) (d : dumper) (auxv : list Z) (crash_thread crash_signal crash_signal_code : Z).

(** The header is written when its block ends, the directory as it fills. *)
Definition write_header (s : dump_state) : res (option typed * dump_state) :=
  let dir := TypedMDRVA (new_chunk (minidump_writer_ s)) (directory_bytes (0, (0, 0))) UNALLOCATED in
  let header := TypedMDRVA (new_chunk (minidump_writer_ s)) (header_bytes 0 0 0 0 0) UNALLOCATED in
  '(ok, header, wr) ← Typed_Allocate w page_size (minidump_writer_ s) g header;
  if negb (ok : bool) then
    wr ← TypedMDRVA_destructor w wr header;
    wr ← TypedMDRVA_destructor w wr dir;
    Ret (None, with_writer s wr)
  else
    '(ok, dir, wr) ← AllocateArray w page_size wr g dir kNumWriters;
    if negb (ok : bool) then
      wr ← TypedMDRVA_destructor w wr header;
      wr ← TypedMDRVA_destructor w wr dir;
      Ret (None, with_writer s wr)
    else
      wr ← TypedMDRVA_destructor w wr
             (set_data header (header_bytes MD_HEADER_SIGNATURE MD_HEADER_VERSION kNumWriters (u_position (chunk dir)) (now env)));
      Ret (Some dir, with_writer s wr).

(** [dir.CopyIndex(dir_index++, &dirent)], whose result is not looked at. *)
Definition put (s : dump_state) (dir : typed) (dir_index : nat) (e : entry) : res dump_state :=
  '(_, wr) ← CopyIndex w (minidump_writer_ s) dir (Z.of_nat dir_index) (directory_bytes e);
  Ret (with_writer s wr).

(** A stream that has to be there. *)
Definition required (r : option entry * dump_state) (dir : typed) (dir_index : nat) : res (bool * dump_state) :=
  match r with
  | (None, s) => Ret (false, s)
  | (Some e, s) => s ← put s dir dir_index e; Ret (true, s)
  end.

(** A stream that may be missing; its entry is then all zero. *)
Definition optional (stream_type : Z) (r : option (Z * Z) * dump_state) (dir : typed) (dir_index : nat) : res dump_state :=
  put r.2 dir dir_index match r.1 with Some l => (stream_type, l) | None => (0, (0, 0)) end.

(** The streams that are whole files, of the system or of the thread. *)
Inductive source := SystemFile (filename : list Z) | ThreadFile (node : list Z).

Definition file_streams : list (Z * source) :=
  [(MD_LINUX_CPU_INFO, SystemFile (literal "/proc/cpuinfo")); (MD_LINUX_PROC_STATUS, ThreadFile (literal "status"));
   (MD_LINUX_LSB_RELEASE, SystemFile (literal "/etc/lsb-release")); (MD_LINUX_CMD_LINE, ThreadFile (literal "cmdline"));
   (MD_LINUX_ENVIRON, ThreadFile (literal "environ")); (MD_LINUX_AUXV, ThreadFile (literal "auxv")); (MD_LINUX_MAPS, ThreadFile (literal "maps"))].

Definition write_source (s : dump_state) (src : source) : res (option (Z * Z) * dump_state) :=
  match src with
  | SystemFile filename => WriteFile a page_size g (opened_files env) s filename
  | ThreadFile node => WriteProcFile a page_size g (opened_files env) (name_max (local_names env)) s crash_thread node
  end.

Fixpoint write_files (s : dump_state) (dir : typed) (dir_index : nat) (l : list (Z * source)) : res dump_state :=
  match l with
  | [] => Ret s
  | (stream_type, src) :: l =>
      r ← write_source s src;
      s ← optional stream_type r dir dir_index;
      write_files s dir (S dir_index) l
  end.

Definition write_system_info (s : dump_state) : res (option entry * dump_state) :=
  '(e, wr) ← WriteSystemInfoStream page_size (arch_of a) range_fuel (minidump_writer_ s) g (this_machine env);
  Ret (e, with_writer s wr).

(** The part of Dump behind the header that describes the process; finding
    identifiers may rename the mappings. *)
Definition write_process (s : dump_state) (mappings : list MappingInfo) (dir : typed) : res (bool * dump_state * list MappingInfo) :=
  threads ← WriteThreadListStream a page_size g k conf d mappings crash_thread s (local_path env) (local_info env);
  '(ok, s) ← required threads dir 0;
  if negb (ok : bool) then Ret (false, s, mappings)
  else
    '(modules, s, mappings) ← WriteMappings a page_size g k conf (pid_ d) (elf_files env) (local_names env) s mappings;
    '(ok, s) ← required (modules, s) dir 1;
    if negb (ok : bool) then Ret (false, s, mappings)
    else
      '(ok, s) ← WriteAppMemory a page_size g k conf crash_thread s;
      if negb (ok : bool) then Ret (false, s, mappings)
      else
        memory ← WriteMemoryListStream a page_size g s;
        '(ok, s) ← required memory dir 2;
        if negb (ok : bool) then Ret (false, s, mappings)
        else
          exception ← WriteExceptionStream a page_size g crash_thread s crash_signal crash_signal_code;
          '(ok, s) ← required exception dir 3;
          Ret (ok, s, mappings).

(** The rest: the system, the files, and what the linker has loaded. *)
Definition write_system (s : dump_state) (dir : typed) : res (bool * dump_state) :=
  si ← write_system_info s;
  '(ok, s) ← required si dir 4;
  if negb (ok : bool) then Ret (false, s)
  else
    s ← write_files s dir 5 file_streams;
    '(dso, s) ← WriteDSODebugStream a page_size g k crash_thread dso_fuel (local_pad env) auxv s;
    s ← put s dir 12 (default (0, (0, 0)) dso);
    Ret (true, s).

(** The threads go on when the dump is complete. *)
Definition Dump (s : dump_state) (mappings : list MappingInfo) : res (bool * dump_state * dumper) :=
  '(dir, s) ← write_header s;
  match dir with
  | None => Ret (false, s, d)
  | Some dir =>
      '(ok, s, _) ← write_process s mappings dir;
      if negb (ok : bool) then Ret (false, s, d)
      else
        '(ok, s) ← write_system s dir;
        Ret (ok, s, if ok : bool then (ThreadsResume k d).2 else d)
  end.

End Streams.

(** * Making ready *)

(** What the process shows of itself: its auxiliary vector, the directory of its
    threads, whose entries are fewer than [task_fuel], and its mappings. *)
Record process_files := ProcessFiles {
  proc_auxv : option (list (Z * Z));
  proc_task : option dir_reader;
  proc_maps : option line_reader;
  task_fuel : nat
}.

Record dumper_state := DumperState { ptrace_ : dumper; auxv_ : list Z; mappings_ : list MappingInfo }.

(** [return ReadAuxv() && EnumerateThreads() && EnumerateMappings();]. *)
Definition LinuxDumper_Init (p : process_files) (d : dumper) : res (bool * dumper_state) :=
  let '(auxv, ok) := ReadAuxv (proc_auxv p) in
  if negb (ok : bool) then Ret (false, DumperState d auxv [])
  else
    '(ok, d) ← EnumerateThreads (task_fuel p) a (name_max (local_names env)) (proc_task p) d;
    if negb (ok : bool) then Ret (false, DumperState d auxv [])
    else
      '(mappings, ok) ← EnumerateMappings w auxv (proc_maps p);
      Ret (ok, DumperState d auxv mappings).

(** The structures of ELF in the process, as CopyFromProcess gives them. *)
Definition sizeof_ehdr : nat := match a with armeabi_v7a => 52 | arm64_v8a => 64 end.
Definition e_phoff_at : nat := match a with armeabi_v7a => 28 | arm64_v8a => 32 end.
Definition e_phnum_at : nat := match a with armeabi_v7a => 44 | arm64_v8a => 56 end.
Definition p_memsz_at : nat := match a with armeabi_v7a => 20 | arm64_v8a => 40 end.

Definition elf_header (pid addr : Z) : ehdr :=
  let h := process_bytes a k pid addr sizeof_ehdr in
  Ehdr (bool_decide (take 4 h = [0x7F; 0x45; 0x4C; 0x46])) (le_val (take 2 (drop 16 h))) (word_of a h e_phoff_at)
    (Z.to_nat (le_val (take 2 (drop e_phnum_at h)))).

Definition program_header (pid addr : Z) : phdr :=
  let h := process_bytes a k pid addr (sizeof_phdr a) in
  Phdr (le_val (take 4 h)) (word_of a h (p_vaddr_at a)) (word_of a h p_memsz_at).

Definition dynamic_tag (pid addr : Z) : Z := word_of a (process_bytes a k pid addr (sizeof_dyn a)) 0.

Definition LateInit (ds : dumper_state) : dumper_state :=
  let pid := pid_ (ptrace_ ds) in
  DumperState (ptrace_ ds) (auxv_ ds)
    (LatePostprocessMappings w (elf_header pid) (program_header pid) (dynamic_tag pid) (Z.of_nat (sizeof_phdr a)) (Z.of_nat (sizeof_dyn a)) (mappings_ ds)).

Definition CrashingThreadReferencesPrincipalMapping (conf : minidump_writer) (mappings : list MappingInfo) (crash_thread : Z) : res bool :=
  match ucontext_ conf, principal_mapping_ conf with
  | Some uc, Some m =>
      let stack_pointer := UContext_GetStackPointer a uc in
      let pc := UContext_GetInstructionPointer a uc in
      if (sys_start_addr m <=? pc) && (pc <? sys_end_addr m) then Ret true
      else
        match GetStackInfo w page_size mappings stack_pointer with
        | None => Ret false
        | Some (stack, stack_len) =>
            let stack_len := wrap w stack_len in
            stack_copy ← copy_memory a k (Alloc stack_len) crash_thread stack stack_len;
            Ret (StackHasPointerToMapping w stack_copy (wrap w (stack_pointer - stack)) m)
        end
  | _, _ => Ret false
  end.

(** The file: a descriptor, or -1 and what opening the path gives; and what the
    test of ftruncate finds. *)
Record target := Target { fd_ : Z; path_fd : option Z; seek_end : Z; truncated : truncate_result }.

Definition set_principal (conf : minidump_writer) (m : option MappingInfo) : minidump_writer :=
  MinidumpWriter (ucontext_ conf) (minidump_size_limit_ conf) (mapping_list_ conf) (app_memory_list_ conf)
    (skip_stacks_if_mapping_unreferenced_ conf) m (sanitize_stacks_ conf).

Record session := Session { ses_conf : minidump_writer; ses_dumper : dumper_state; ses_writer : writer; ses_workaround : workaround }.

Definition Init (p : process_files) (tgt : target) (principal_mapping_address crash_thread : Z) (ses : session) : res (bool * session) :=
  '(ok, ds) ← LinuxDumper_Init p (ptrace_ (ses_dumper ses));
  let ses := Session (ses_conf ses) ds (ses_writer ses) (ses_workaround ses) in
  if negb (ok : bool) then Ret (false, ses)
  else
    '(ok, d) ← ThreadsSuspend k (ptrace_ ds);
    let ds := DumperState d (auxv_ ds) (mappings_ ds) in
    if negb (ok : bool) then Ret (false, Session (ses_conf ses) ds (ses_writer ses) (ses_workaround ses))
    else
      let ds := LateInit ds in
      let skip := skip_stacks_if_mapping_unreferenced_ (ses_conf ses) in
      let conf := if skip then set_principal (ses_conf ses) (FindMappingNoBias (mappings_ ds) principal_mapping_address) else ses_conf ses in
      referenced ← (if skip then CrashingThreadReferencesPrincipalMapping conf (mappings_ ds) crash_thread else Ret true);
      if negb (referenced : bool) then Ret (false, Session conf ds (ses_writer ses) (ses_workaround ses))
      else if negb (fd_ tgt =? -1) then
        '(wr, g) ← SetFile (ses_writer ses) (ses_workaround ses) (fd_ tgt) (seek_end tgt) (truncated tgt);
        Ret (true, Session conf ds wr g)
      else
        '(ok, wr) ← Open (ses_writer ses) (default (-1) (path_fd tgt));
        Ret (ok, Session conf ds wr (ses_workaround ses)).

(** The destructor, and that of the member [minidump_writer_]. *)
Definition MinidumpWriter_destructor (tgt : target) (d : dumper) (wr : writer) (g : workaround) : dumper * writer :=
  let wr := if fd_ tgt =? -1 then (Close wr g).2 else wr in
  let d := (ThreadsResume k d).2 in
  (d, MinidumpFileWriter_destructor wr g).

(** * A dump *)

(** ExceptionHandler::CrashContext, as far as it is used. *)
Record crash_blob := CrashBlob { context : crash_context; si_signo : Z; si_code : Z; si_addr : Z; tid : Z }.

(** What a crash says of itself: its thread, signal, code and address. *)
Record crash_info := CrashInfo { crash_thread_ : Z; crash_signal_ : Z; crash_signal_code_ : Z; crash_info_address : Z }.

(** The lifetime of a MinidumpWriter: its constructor, Init, Dump and its
    destructor. [garbage] is what its memory holds before. *)
Definition run_writer (p : process_files) (tgt : target) (conf : minidump_writer) (principal_mapping_address : Z) (garbage : Z * Z)
    (d : dumper) (info : crash_info) (wr : writer) (g : workaround) : res (bool * dumper * writer) :=
  if ((fd_ tgt =? -1) && negb (bool_decide (is_Some (path_fd tgt)))) || (negb (fd_ tgt =? -1) && bool_decide (is_Some (path_fd tgt)))
  then Fault Aborted
  else
    '(ok, ses) ← Init p tgt principal_mapping_address (crash_thread_ info) (Session conf (DumperState d [] []) wr g);
    let ds := ses_dumper ses in
    if negb (ok : bool) then
      let '(d, wr) := MinidumpWriter_destructor tgt (ptrace_ ds) (ses_writer ses) (ses_workaround ses) in
      Ret (false, d, wr)
    else
      '(ok, s, d) ← Dump (ses_workaround ses) (ses_conf ses) (ptrace_ ds) (auxv_ ds) (crash_thread_ info) (crash_signal_ info) (crash_signal_code_ info)
                      (DumpState (ses_writer ses) [] garbage (crash_info_address info)) (mappings_ ds);
      let '(d, wr) := MinidumpWriter_destructor tgt d (minidump_writer_ s) (ses_workaround ses) in
      Ret (ok, d, wr).

(** [blob] is none, of the wrong size, or a context. *)
Definition WriteMinidumpImpl (p : process_files) (tgt : target) (minidump_size_limit crashing_process : Z) (blob : option (option crash_blob))
    (mapping_list : list (MappingInfo * list Z)) (appmem : list (Z * Z)) (skip_stacks_if_mapping_unreferenced : bool)
    (principal_mapping_address : Z) (sanitize_stacks : bool) (garbage : Z * Z) (wr : writer) (g : workaround) : res (bool * dumper * writer) :=
  let d := new_dumper crashing_process in
  let conf uc := MinidumpWriter uc minidump_size_limit mapping_list appmem skip_stacks_if_mapping_unreferenced None sanitize_stacks in
  match blob with
  | Some None => Ret (false, d, wr)
  | Some (Some b) =>
      run_writer p tgt (conf (Some (context b))) principal_mapping_address garbage d (CrashInfo (tid b) (si_signo b) (si_code b) (si_addr b)) wr g
  | None => run_writer p tgt (conf None) principal_mapping_address garbage d (CrashInfo crashing_process 0 0 0) wr g
  end.

Definition MD_EXCEPTION_CODE_LIN_DUMP_REQUESTED : Z := 0xFFFFFFFF.

(** WriteMinidump of a process that has not crashed. *)
Definition WriteMinidump_process (p : process_files) (tgt : target) (process process_blamed_thread : Z) (garbage : Z * Z) (wr : writer) (g : workaround)
    : res (bool * dumper * writer) :=
  run_writer p tgt (MinidumpWriter None (-1) [] [] false None false) 0 garbage (new_dumper process)
    (CrashInfo process_blamed_thread (i32 MD_EXCEPTION_CODE_LIN_DUMP_REQUESTED) 0 0) wr g.

(** * The threads go on *)

Section Threads.

Hypothesis detach_works : forall pid, detach k pid = true.

(** Once the threads go on, [traced] are traced. *)
Definition leaves (traced : gset Z) (d : dumper) : Prop := traced_ (ThreadsResume k d).2 = traced /\ threads_suspended_ (ThreadsResume k d).2 = false.

Lemma leaves_resumed traced d : leaves traced d -> (ThreadsResume k (ThreadsResume k d).2).2 = (ThreadsResume k d).2.
Proof. intros [_ H]. unfold ThreadsResume at 1. by rewrite H. Qed.

Lemma leaves_idle d : threads_suspended_ d = false -> leaves (traced_ d) d.
Proof. intros H. unfold leaves, ThreadsResume. by rewrite H. Qed.

Lemma leaves_suspended d ok d' : threads_suspended_ d = false -> ThreadsSuspend k d = Ret (ok, d') -> leaves (traced_ d) d'.
Proof.
  intros Hd E. destruct (suspended_and_resumed k detach_works d Hd) as (kept & traced & E' & Hr). rewrite E' in E. injection E as <- <-.
  unfold leaves. by rewrite Hr.
Qed.

Lemma EnumerateThreads_idle fuel path task d ok d' : EnumerateThreads fuel a path task d = Ret (ok, d') ->
  traced_ d' = traced_ d /\ threads_suspended_ d' = threads_suspended_ d.
Proof.
  intros E. apply bind_Ret_inv in E as ([b q] & _ & E). destruct b; cbn [negb] in E; [|by injection E as <- <-].
  destruct task as [dir|]; [|by injection E as <- <-]. by apply bind_Ret_inv in E as (threads & _ & [= <- <-]).
Qed.

Lemma LinuxDumper_Init_idle p d ok ds : LinuxDumper_Init p d = Ret (ok, ds) ->
  traced_ (ptrace_ ds) = traced_ d /\ threads_suspended_ (ptrace_ ds) = threads_suspended_ d.
Proof.
  unfold LinuxDumper_Init. destruct (ReadAuxv (proc_auxv p)) as [auxv b]. destruct b; cbn [negb]; intros E; [|by injection E as <- <-].
  apply bind_Ret_inv in E as ([b d'] & Ee & E). apply EnumerateThreads_idle in Ee. destruct b; cbn [negb] in E; [|by injection E as <- <-].
  by apply bind_Ret_inv in E as ([ms b] & _ & [= <- <-]).
Qed.

(** However far Init comes, the threads it has stopped can be let go. *)
Lemma Init_leaves p tgt address tid ses ok ses' : threads_suspended_ (ptrace_ (ses_dumper ses)) = false ->
  Init p tgt address tid ses = Ret (ok, ses') -> leaves (traced_ (ptrace_ (ses_dumper ses))) (ptrace_ (ses_dumper ses')).
Proof.
  intros Hd E. apply bind_Ret_inv in E as ([b ds] & Ei & E). apply LinuxDumper_Init_idle in Ei as [Et Es]. rewrite Hd in Es. rewrite <- Et.
  destruct b; cbn [negb] in E; [|injection E as <- <-; by apply leaves_idle].
  apply bind_Ret_inv in E as ([b d] & Esus & E). apply leaves_suspended in Esus; [|done].
  destruct b; cbn [negb] in E; [|by injection E as <- <-]. apply bind_Ret_inv in E as (referenced & _ & E).
  destruct referenced; cbn [negb] in E; [|by injection E as <- <-]. destruct (negb _) in E.
  - by apply bind_Ret_inv in E as ([wr g] & _ & [= <- <-]).
  - by apply bind_Ret_inv in E as ([b wr] & _ & [= <- <-]).
Qed.

Lemma run_writer_leaves p tgt conf address garbage d info wr g ok d' wr' : threads_suspended_ d = false ->
  run_writer p tgt conf address garbage d info wr g = Ret (ok, d', wr') -> traced_ d' = traced_ d /\ threads_suspended_ d' = false.
Proof.
  intros Hd E. unfold run_writer in E. destruct (_ || _) in E; [done|]. apply bind_Ret_inv in E as ([b ses] & Ei & E).
  apply Init_leaves in Ei; [|done]. cbn [ses_dumper ptrace_] in Ei. destruct b; cbn [negb] in E; [|by injection E as <- <- <-].
  apply bind_Ret_inv in E as ([[b s] d1] & Ed & E). injection E as <- <- _. unfold Dump in Ed.
  apply bind_Ret_inv in Ed as ([dir s1] & _ & Ed). destruct dir as [dir|]; [|by injection Ed as _ _ <-].
  apply bind_Ret_inv in Ed as ([[b1 s2] ms] & _ & Ed). destruct b1; cbn [negb] in Ed; [|by injection Ed as _ _ <-].
  apply bind_Ret_inv in Ed as ([b2 s3] & _ & [= _ _ <-]). destruct b2; [|done]. by rewrite (leaves_resumed _ _ Ei).
Qed.

(** C18: Whatever fails on the way, no thread of the process is left stopped when
    WriteMinidump is done. *)
Theorem no_thread_left_traced p tgt limit pid blob given appmem skip address sanitize garbage wr g ok d wr' :
  WriteMinidumpImpl p tgt limit pid blob given appmem skip address sanitize garbage wr g = Ret (ok, d, wr') ->
  traced_ d = ∅ /\ threads_suspended_ d = false.
Proof.
  intros E. destruct blob as [[b|]|]; cbn [WriteMinidumpImpl] in E; [by apply run_writer_leaves in E|by injection E as _ <- _|by apply run_writer_leaves in E].
Qed.

End Threads.

End MinidumpWriter.

(** * A concrete process *)

(** Thread 10 has crashed, thread 14 waits, 12 cannot be attached to; thread 10's stack is at 0x7000, and
    its memory at [addr] is the low byte of [addr]. *)
Definition sample_fp : fpsimd := FpSimd 0 0 (replicate 512 0).

Definition sample_registers (sp pc : Z) : list Z := replicate 31 5 ++ [sp; pc; 0].

Definition crashed_kernel : kernel :=
  Kernel (fun pid => negb (pid =? 12)) (fun _ => true) (fun _ => [])
    (fun _ addr => Some (le_val (map (fun i => u8 (addr + Z.of_nat i)) (seq 0 8))))
    (fun _ => Some (new_line_reader (replicate kMaxLineLen 0) (literal "Tgid:" ++ [9; 0x31; 0x30; 10] ++ literal "PPid:" ++ [9; 0x31; 10]) []))
    (fun _ => Some (sample_registers 0x7180 0x4010)) (fun _ => Some sample_fp) (fun _ => None) (fun _ => None).

Definition sample_context : crash_context := CrashContext_ (MContext (replicate 31 6 ++ [0x7100; 0x4100]) 0) sample_fp.

Definition library : MappingInfo := Mapping 0x4000 0x1000 0x4000 0x5000 0 true (literal "/lib/a.so").
Definition stack_mapping : MappingInfo := Mapping 0x7000 0x200 0x7000 0x7200 0 false [].

Definition sample_machine : machine :=
  Machine (replicate 8 0) None None None (Some [literal "Linux" ++ [0]; literal "4.4" ++ [0]; [0]; literal "aarch64" ++ [0]]).

Definition sample_environment : environment :=
  Environment 1500000000 (replicate NAME_MAX 7) (Thread 0 0 0 [] sample_fp) [1; 2; 3; 4]
    (Files [] (fun _ _ => None) None (fun _ => false) None) (Locals (replicate PATH_MAX 7) (replicate NAME_MAX 7)) sample_machine
    (fun path => if bool_decide (path = literal "/proc/10/cmdline") then Some (ProcFile (literal "app") [Gives 2; Interrupted]) else None).

Definition sample_conf : minidump_writer := MinidumpWriter (Some sample_context) (-1) [] [(0x4200, 16)] false None false.

(** The same process before the dumper has looked at it. *)
Definition sample_files : process_files :=
  ProcessFiles (Some [(6, 4096); (0, 0)])
    (Some (DirectoryReader false 0 (replicate (dir_buf_size arm64_v8a) 0)
       [Some (dirents arm64_v8a [entry_of [0x2E]; entry_of (literal "10"); entry_of (literal "12"); entry_of (literal "14")])]))
    (Some (new_line_reader (replicate kMaxLineLen 0)
       (literal "4000-5000 r-xp 00000000 00:00 0 /lib/a.so" ++ [10] ++ literal "7000-7200 rw-p 00000000 00:00 0 " ++ [10]) []))
    10.

Definition sample_blob : crash_blob := CrashBlob sample_context 11 1 0x4100 10.

Definition sample_run (given : process_files) : res (bool * dumper * writer) :=
  WriteMinidumpImpl arm64_v8a 4096 crashed_kernel sample_environment 10 10 given (Target (-1) (Some 3) 0 truncate_ok) (-1) 10 (Some (Some sample_blob))
    [] [(0x4200, 16)] false 0 true (9, 9) (MinidumpFileWriter []) (Workaround false false).

(** A run that succeeds, and one without mappings. *)
Example sample_runs :
  (fun x => (x.1.1, threads_ x.1.2, closed x.2)) <$> sample_run sample_files = Ret (true, [10; 14], [3])
  /\ (fun x => x.1.1) <$> sample_run (ProcessFiles (proc_auxv sample_files) (proc_task sample_files) None 10) = Ret false.
Proof. split; vm_compute; reflexivity. Qed.

Lemma no_thread_left_traced_witness :
  exists ok d wr, sample_run sample_files = Ret (ok, d, wr) /\ traced_ d = ∅ /\ threads_suspended_ d = false.
Proof.
  destruct (sample_run sample_files) as [[[ok d] wr]|] eqn:E; [|vm_compute in E; discriminate]. exists ok, d, wr. split; [reflexivity|].
  exact (no_thread_left_traced arm64_v8a 4096 crashed_kernel sample_environment 10 10 (fun _ => eq_refl) sample_files (Target (-1) (Some 3) 0 truncate_ok) (-1) 10
    (Some (Some sample_blob)) [] [(0x4200, 16)] false 0 true (9, 9) (MinidumpFileWriter []) (Workaround false false) ok d wr E).
Defined.
