(* ===== verification/MinidumpFile.v ===== *)
(** What a minidump holds when it is complete: the abstract contents of a dump
    and the proof that Dump of MinidumpWriter.v writes them, so that a reader
    who follows the header and the directory finds every stream.

    [image_of_process] says what the process and the system are; [minidump]
    says that a file has all of it. *)
From stdpp Require Import gmap.
From S2P Require Import Prelude Utf8 ConvertUtf LibcSupport LineReader LinuxDumper FileWriter Regions Registers PtraceDumper CpuInfo SystemInfo ThreadList ModuleList DsoDebug ProcFiles MinidumpWriter.

(** What the dynamic linker says of itself: its r_debug, the dynamic section of
    the program, and the libraries. *)
Record linker_image := LinkerImage { li_debug : list Z; li_dynamic : Z; li_entries : list (Z * Z); li_dsos : list dso }.

(** All that goes into a dump; [im_extra] is the limit for the stacks of the
    threads that come late, [im_mappings] are the mappings afterwards. *)
Record dump_image := DumpImage {
  im_extra : Z;
  im_threads : list thread_image;
  im_members : list module_image;
  im_given : list module_image;
  im_mappings : list MappingInfo;
  im_system : MDRawSystemInfo;
  im_uname : list (list Z);
  im_linker : option linker_image
}.

Section Contents.

Variables (a : abi) (page_size : Z) (k : kernel) (env : environment) (range_fuel dso_fuel : nat).
Variables (conf : minidump_writer) (d : dumper) (mappings : list MappingInfo) (auxv : list Z) (crash_thread crash_signal crash_signal_code : Z).

Let w := word_bits a.
Let tids := threads_ d.
Let g := no_workaround.

(** * The process *)

Inductive linker_is : option linker_image -> Prop :=
| no_program phdr phnum : auxv !! Z.to_nat AT_PHDR = Some phdr -> auxv !! Z.to_nat AT_PHNUM = Some phnum -> i32 phnum = 0 \/ phdr = 0 -> linker_is None
| no_dynamic phdr phnum base : auxv !! Z.to_nat AT_PHDR = Some phdr -> auxv !! Z.to_nat AT_PHNUM = Some phnum -> i32 phnum <> 0 -> phdr <> 0 ->
    phdr_loop a k crash_thread (Z.to_nat (i32 phnum + 1)) phdr (Z.ldiff phdr 0xfff) 0 = Ret (base, 0) -> linker_is None
| with_linker phdr phnum base dyn_addr es ds : auxv !! Z.to_nat AT_PHDR = Some phdr -> auxv !! Z.to_nat AT_PHNUM = Some phnum -> i32 phnum <> 0 -> phdr <> 0 ->
    phdr_loop a k crash_thread (Z.to_nat (i32 phnum + 1)) phdr (Z.ldiff phdr 0xfff) 0 = Ret (base, dyn_addr) -> dyn_addr <> 0 ->
    let dynamic := wrap w (dyn_addr + base) in dynamic_at a k crash_thread dynamic es ->
    let debug := process_bytes a k crash_thread (fold_left debug_of es 0) (sizeof_r_debug a) in
    dsos_at a k crash_thread (word_of a debug (word_size a)) ds -> (length es < dso_fuel)%nat -> (length ds < dso_fuel)%nat ->
    Z.of_nat (sizeof_dyn a) * Z.of_nat (length es + 1) < 2 ^ 20 -> linker_is (Some (LinkerImage debug dynamic es ds)).

(** The name of a file of the system or of the crashed thread. *)
Definition source_path (src : source) : list Z :=
  match src with SystemFile filename => filename | ThreadFile node => proc_path crash_thread node end.

Definition source_ok (x : Z * source) : Prop :=
  readable (opened_files env) (source_path x.2)
  /\ match x.2 with SystemFile _ => True | ThreadFile node => nonzero node /\ node <> [] /\ (length (proc_path crash_thread node) < NAME_MAX)%nat end.

Definition app_blocks : list (Z * list Z) := map (app_block a k crash_thread) (app_memory_list_ conf).

Definition im_blocks (im : dump_image) : list (Z * list Z) := concat (map img_blocks (im_threads im)) ++ app_blocks.

(** The process and the system are as in the image. *)
Definition image_of_process (im : dump_image) : Prop :=
  tids <> []
  /\ (forall wr, extra_stack_len conf wr (Z.of_nat (length tids)) = im_extra im)
  /\ threads_are a page_size k conf d mappings crash_thread (im_extra im) (local_path env) (local_info env) 0 tids (im_threads im)
  /\ modules_are a k conf (pid_ d) (elf_files env) (local_names env) (length mappings) 0 mappings (im_members im) (im_mappings im)
  /\ Forall2 (given_is a (elf_files env) (local_names env)) (mapping_list_ conf) (im_given im)
  /\ Forall (fun x => 0 < x.2 < 2 ^ 24) (app_memory_list_ conf)
  /\ Z.of_nat (length (im_blocks im)) < 2 ^ 16
  /\ (exists b, WriteCPUInformation (arch_of a) range_fuel (this_machine env) zero_info = Ret (b, im_system im))
  /\ (exists mems, uts (this_machine env) = Some mems /\ Forall2 c_string mems (im_uname im)) /\ Forall ascii (im_uname im)
  /\ Forall source_ok file_streams /\ 0 < crash_thread < 2 ^ 64 /\ length (name_max (local_names env)) = NAME_MAX
  /\ linker_is (im_linker im) /\ (4 <= length (local_pad env))%nat.

(** * The file *)

(** A stream: its entry in the directory and its bytes. *)
Definition stream_at (lo : Z) (wr : writer) (stream_type : Z) (e : entry) (bytes : list Z) : Prop :=
  e.1 = stream_type /\ at_location lo wr e.2 bytes.

Definition thread_list_at (lo : Z) (wr : writer) (im : dump_image) (e : entry) (ths : list MDRawThread) (ms : list (Z * (Z * Z))) : Prop :=
  stream_at lo wr MD_THREAD_LIST_STREAM e (le_bytes 4 (Z.of_nat (length tids)) ++ concat (map thread_bytes ths))
  /\ threads_written lo wr tids (im_threads im) ths ms.

Definition module_list_at (lo : Z) (wr : writer) (im : dump_image) (e : entry) : Prop :=
  exists entries, stream_at lo wr MD_MODULE_LIST_STREAM e (le_bytes 4 (Z.of_nat (length (im_members im ++ im_given im))) ++ concat entries)
    /\ Forall2 (module_written lo wr) (im_members im ++ im_given im) entries.

Definition system_info_at (lo : Z) (wr : writer) (im : dump_image) (e : entry) : Prop :=
  exists rva, stream_at lo wr MD_SYSTEM_INFO_STREAM e (system_info_bytes (set_os (im_system im) MD_OS_ANDROID rva))
    /\ lo <= rva /\ stored wr rva (md_string (os_join (im_uname im) [])).

(** A file that could be read is a stream; else the entry is all zero. *)
Definition file_at (lo : Z) (wr : writer) (x : Z * source) (e : entry) : Prop :=
  match content (opened_files env) (source_path x.2) with
  | Some bytes => stream_at lo wr x.1 e bytes
  | None => e = (0, (0, 0))
  end.

Definition linker_at (lo : Z) (wr : writer) (im : dump_image) (e : entry) : Prop :=
  match im_linker im with
  | None => e = (0, (0, 0))
  | Some li =>
      let len := Z.of_nat (sizeof_dyn a) * Z.of_nat (length (li_entries li) + 1) in
      exists rva, stream_at lo wr MD_LINUX_DSO_DEBUG e
          (debug_bytes a (le_val (take 4 (li_debug li))) rva (Z.of_nat (length (li_dsos li))) (word_of a (li_debug li) (2 * word_size a))
             (word_of a (li_debug li) (4 * word_size a)) (li_dynamic li)
           ++ process_bytes a k crash_thread (li_dynamic li) (Z.to_nat len))
        /\ dsos_written a (local_pad env) lo wr (li_dsos li) rva
  end.

(** The crashing thread's context and the address after the thread list. *)
Definition context_of (c : Z * Z) (ths : list MDRawThread) : Z * Z := fold_left (crash_context_after crash_thread) ths c.
Definition address_of (address : Z) (im : dump_image) : Z := fold_left (crash_address_after conf crash_thread) (combine tids (im_threads im)) address.

(** A complete dump whose header is at [p], with the context [c] and the address
    [address] of the crash known before: the header, the directory it points
    to, and each stream that an entry of the directory points to. *)
Definition minidump (p : Z) (c : Z * Z) (address : Z) (im : dump_image) (wr : writer) : Prop :=
  exists q e_threads e_modules e_memory e_exception e_system e_files e_linker ths ms ms',
    stored wr p (header_bytes MD_HEADER_SIGNATURE MD_HEADER_VERSION kNumWriters q (now env))
    /\ stored wr q (concat (map directory_bytes ([e_threads; e_modules; e_memory; e_exception; e_system] ++ e_files ++ [e_linker])))
    /\ p + 32 <= q /\ let lo := q + 156 in
    thread_list_at lo wr im e_threads ths ms
    /\ module_list_at lo wr im e_modules
    /\ Forall2 (block_stored lo wr) app_blocks ms'
    /\ stream_at lo wr MD_MEMORY_LIST_STREAM e_memory (le_bytes 4 (Z.of_nat (length (ms ++ ms'))) ++ concat (map memory_descriptor_bytes (ms ++ ms')))
    /\ stream_at lo wr MD_EXCEPTION_STREAM e_exception (exception_bytes crash_thread crash_signal crash_signal_code (address_of address im) (context_of c ths))
    /\ system_info_at lo wr im e_system
    /\ Forall2 (file_at lo wr) file_streams e_files
    /\ linker_at lo wr im e_linker.

(** The room that a dump takes at most. *)
Definition linker_room (im : dump_image) : Z :=
  match im_linker im with
  | None => 0
  | Some li => 90000 * (Z.of_nat (length (li_dsos li)) + 2) + Z.of_nat (sizeof_dyn a) * Z.of_nat (length (li_entries li) + 1)
  end.

Definition im_room (im : dump_image) : Z :=
  140000 + 600000 * (Z.of_nat (length tids) + 1) + 400000 * (Z.of_nat (length (im_members im ++ im_given im)) + 1)
  + app_room (app_memory_list_ conf) + 16 * Z.of_nat (length (im_blocks im)) + 70000 + 70000 + 200000 + 7 * file_room + linker_room im.

(** * The directory as it fills *)

Definition directory (q : Z) : typed := TypedMDRVA (UntypedMDRVA q 156) (directory_bytes (0, (0, 0))) ARRAY.

(** The header is there, and the entries so far. *)
Definition filling (p q : Z) (es : list entry) (wr : writer) : Prop :=
  writer_ok wr /\ stored wr p (header_bytes MD_HEADER_SIGNATURE MD_HEADER_VERSION kNumWriters q (now env)) /\ 0 <= p /\ p + 32 <= q
  /\ stored wr q (concat (map directory_bytes es)) /\ q + 156 <= position_ wr.

(** Something behind the directory was written, and an entry in it. *)
Definition step (lo c : Z) (wr wr' : writer) : Prop := keeps lo wr wr' /\ size_ wr' <= size_ wr + c.

Lemma step_trans lo c c' wr1 wr2 wr3 : step lo c wr1 wr2 -> step lo c' wr2 wr3 -> step lo (c + c') wr1 wr3.
Proof. intros [K1 S1] [K2 S2]. split; [by apply (keeps_trans _ _ wr2)|lia]. Qed.

Lemma length_directory es : length (concat (map directory_bytes es)) = (length es * 12)%nat.
Proof. induction es as [|e es IH]; [done|]. cbn [map concat length]. rewrite length_app, IH. done. Qed.

(** Twelve bytes of the directory, after a stream that takes at most [c]. *)
Lemma put_stores p q es s s1 c e : filling p q es (minidump_writer_ s) -> grows c (minidump_writer_ s) (minidump_writer_ s1) ->
  size_ (minidump_writer_ s) + c < 2 ^ 30 -> (length es < 13)%nat -> let lo := q + 156 in
  exists wr2, put a s1 (directory q) (length es) e = Ret (with_writer s1 wr2) /\ filling p q (es ++ [e]) wr2
    /\ step lo c (minidump_writer_ s) wr2 /\ keeps lo (minidump_writer_ s1) wr2.
Proof.
  intros (Hwr & Hh & Hp & Hpq & Hes & Hend) Hg Hs Hn lo.
  destruct (array_step (word_bits a) (width_ok a) (minidump_writer_ s) (minidump_writer_ s1) c q 156 (directory_bytes (0, (0, 0)))
    (concat (map directory_bytes es)) (length es) 12 lo (directory_bytes e) Hg Hs) as (wr2 & E & F & Z2 & S2 & K & P2);
    [lia|lia|done|done|done|apply length_directory|unfold lo; lia|done|].
  exists wr2. split; [unfold put, directory; by rewrite E|].
  assert (step lo c (minidump_writer_ s) wr2) as Hst by (split; [apply (keeps_frame _ _ _ _ _ F); lia|done]).
  split; [|done]. split; [by apply frame_ok in F|].
  split; [apply (stored_frame _ _ _ _ _ _ F Hh); change (length (header_bytes _ _ _ _ _)) with 32%nat; lia|].
  split; [done|]. split; [done|]. split; [|done]. rewrite map_app, concat_app. cbn [map concat]. by rewrite app_nil_r.
Qed.

Section Facts.

Hypothesis Hpage : 0 < page_size < 2 ^ 16.

Let Hw : 32 <= w := width_ok a.

Lemma header_ok s : roomy 140000 s -> let p := position_ (minidump_writer_ s) in
  exists q wr, write_header a page_size env g s = Ret (Some (directory q), with_writer s wr) /\ filling p q [] wr
    /\ size_ wr <= size_ (minidump_writer_ s) + 140000.
Proof.
  intros [Hwr Hs] p. change (2 ^ 30 - 2 ^ 25) with 1040187392 in Hs. pose proof Hwr as (_ & _ & Hpos & _). fold p in Hpos.
  unfold write_header, Typed_Allocate. cbn [chunk data_]. change (length (header_bytes 0 0 0 0 0)) with 32%nat.
  destruct (Untyped_Allocate_frame w page_size Hw Hpage (minidump_writer_ s) (new_chunk (minidump_writer_ s)) (Z.of_nat 32)) as (wr1 & E1 & F1 & P1 & S1);
    [done|done|change (2 ^ 24) with 16777216; lia|change (2 ^ 30) with 1073741824; lia|]. fold w g in E1 |- *. rewrite E1, !bind_Ret. change (Z.of_nat 32) with 32 in *. cbn [negb]. fold p in P1 |- *.
  destruct (array_allocated w page_size Hw Hpage wr1 (directory_bytes (0, (0, 0))) kNumWriters) as (wr2 & E2 & G2 & P2);
    [by apply frame_ok in F1|done|cbn; lia|done|change (2 ^ 30 - 2 ^ 25) with 1040187392; lia|].
  set (q := position_ wr1) in *. change (Z.of_nat (length (directory_bytes (0, (0, 0)))) * kNumWriters) with 156 in *.
  replace (AllocateArray w page_size wr1 g (TypedMDRVA (new_chunk (minidump_writer_ s)) (directory_bytes (0, (0, 0))) UNALLOCATED) kNumWriters)
    with (AllocateArray w page_size wr1 no_workaround (TypedMDRVA (new_chunk wr1) (directory_bytes (0, (0, 0))) UNALLOCATED) kNumWriters) by reflexivity.
  rewrite E2, bind_Ret. cbn [negb chunk u_position]. pose proof (grows_position _ _ _ G2) as [P2' Z2]. fold q in P2'.
  destruct (destructor_frame w Hw wr2 (TypedMDRVA (UntypedMDRVA p 32) (header_bytes MD_HEADER_SIGNATURE MD_HEADER_VERSION kNumWriters q (now env)) SINGLE_OBJECT))
    as (wr3 & E3 & F3 & B3 & P3 & S3); [by apply grows_ok in G2|change (2 ^ 30) with 1073741824; lia|done|cbn; lia|cbn [chunk u_position]; lia| |].
  { cbn [chunk u_position data_]. change (length (header_bytes _ _ _ _ _)) with 32%nat. lia. }
  unfold set_data. cbn [chunk allocation_state_]. rewrite E3, bind_Ret. cbn [chunk u_position data_] in *.
  exists q, wr3. split; [done|]. split; [|lia]. split; [by apply frame_ok in F3|].
  split; [split; [done|change (length (header_bytes _ _ _ _ _)) with 32%nat; lia]|]. split; [lia|]. split; [lia|]. split; [|lia]. apply stored_nil. lia.
Qed.

(** A stream that was written behind the directory, and its entry. *)
Lemma required_ok p q es s s1 c e : filling p q es (minidump_writer_ s) -> grows c (minidump_writer_ s) (minidump_writer_ s1) ->
  size_ (minidump_writer_ s) + c < 2 ^ 30 -> (length es < 13)%nat -> let lo := q + 156 in
  exists wr2, required a (Some e, s1) (directory q) (length es) = Ret (true, with_writer s1 wr2) /\ filling p q (es ++ [e]) wr2
    /\ step lo c (minidump_writer_ s) wr2 /\ keeps lo (minidump_writer_ s1) wr2.
Proof.
  intros Hf Hg Hs Hn lo. destruct (put_stores p q es s s1 c e Hf Hg Hs Hn) as (wr2 & E & H). exists wr2. split; [|done]. cbn [required]. by rewrite E.
Qed.

Lemma stream_kept lo wr wr' stream_type n rva bytes : keeps lo wr wr' -> stored wr rva bytes -> lo <= rva -> n = Z.of_nat (length bytes) ->
  stream_at lo wr' stream_type (stream_type, (n, rva)) bytes.
Proof. intros Hk Hs Hlo ->. split; [done|]. exists rva. split; [done|]. split; [done|]. by apply Hk. Qed.

Lemma filling_position p q es s : filling p q es (minidump_writer_ s) -> q + 156 <= position_ (minidump_writer_ s).
Proof. by intros (_ & _ & _ & _ & _ & H). Qed.

Lemma filling_roomy p q es s n : filling p q es (minidump_writer_ s) -> size_ (minidump_writer_ s) + n < 2 ^ 30 - 2 ^ 25 -> roomy n s.
Proof. by intros (H & _). Qed.

Lemma threads_are_length extra i l imgs : threads_are a page_size k conf d mappings crash_thread extra (local_path env) (local_info env) i l imgs ->
  length imgs = length l.
Proof. induction 1 as [|? ? ? ? ? _ _ _ IH]; [done|]. cbn [length]. by rewrite IH. Qed.

Lemma threads_stage p q s im : filling p q [] (minidump_writer_ s) -> image_of_process im -> let n := Z.of_nat (length tids) in
  size_ (minidump_writer_ s) + 600000 * (n + 1) < 2 ^ 30 - 2 ^ 25 ->
  exists r e ths ms wr, WriteThreadListStream a page_size g k conf d mappings crash_thread s (local_path env) (local_info env) = Ret r
    /\ required a r (directory q) 0
       = Ret (true, DumpState wr (memory_blocks_ s ++ ms) (context_of (crashing_thread_context_ s) ths) (address_of (crash_address_ s) im))
    /\ filling p q [e] wr /\ step (q + 156) (600000 * (n + 1)) (minidump_writer_ s) wr /\ thread_list_at (q + 156) wr im e ths ms
    /\ length ms = length (concat (map img_blocks (im_threads im))).
Proof.
  intros Hf (Hne & Hex & Hth & _) n Hs. unfold tids in *. pose proof (filling_position _ _ _ _ Hf) as Hend. change (2 ^ 30 - 2 ^ 25) with 1040187392 in Hs.
  destruct (thread_list_stream a page_size g k conf d mappings crash_thread eq_refl Hpage s (local_path env) (local_info env) (im_extra im) (im_threads im)
    (filling_roomy _ _ _ _ _ Hf Hs) Hne (fun wr _ => Hex wr) Hth) as (ths & wr1 & ms & E & G & S1 & T1).
  set (p1 := position_ (minidump_writer_ s)) in *. eexists.
  match type of E with _ = Ret (Some ?e, ?s1) => destruct (required_ok p q [] s s1 (600000 * (n + 1)) e Hf G) as (wr2 & E2 & F2 & St2 & K2); [change (2 ^ 30) with 1073741824; lia|cbn; lia|] end.
  eexists _, ths, ms, wr2. split; [exact E|]. split; [exact E2|]. split; [exact F2|]. split; [exact St2|].
  cbn [minidump_writer_] in K2. destruct T1 as [T1 B1].
  assert (length ths = length (threads_ d)) as Hl.
  { rewrite <- (Forall2_length _ _ _ T1), length_combine, (threads_are_length _ _ _ _ Hth). lia. }
  split; [|by rewrite (Forall2_length _ _ _ B1)]. split.
  - apply (stream_kept _ wr1); [done|done|lia|]. rewrite length_app, length_le_bytes, length_threads_bytes, Hl. unfold tids. lia.
  - apply (threads_written_keeps _ wr1); [done|]. split.
    + eapply Forall2_impl; [exact T1|]. intros x th Hx. eapply thread_written_weaken; [exact Hx|]. lia.
    + eapply blocks_stored_weaken; [exact B1|]. lia.
Qed.

Lemma length_concat_same {A} m (l : list (list A)) : Forall (fun x => length x = m) l -> length (concat l) = (length l * m)%nat.
Proof. induction 1 as [|x l Hx _ IH]; [done|]. cbn [concat length]. by rewrite length_app, Hx, IH. Qed.

Lemma modules_stage p q e1 s im : filling p q [e1] (minidump_writer_ s) -> image_of_process im -> let n := Z.of_nat (length (im_members im ++ im_given im)) in
  size_ (minidump_writer_ s) + 400000 * (n + 1) < 2 ^ 30 - 2 ^ 25 ->
  exists r s1 e wr, WriteMappings a page_size g k conf (pid_ d) (elf_files env) (local_names env) s mappings = Ret (r, s1, im_mappings im)
    /\ required a (r, s1) (directory q) 1 = Ret (true, with_writer s wr)
    /\ filling p q [e1; e] wr /\ step (q + 156) (400000 * (n + 1)) (minidump_writer_ s) wr /\ module_list_at (q + 156) wr im e.
Proof.
  intros Hf (_ & _ & _ & Hm & Hgiven & _) n Hs. pose proof (filling_position _ _ _ _ Hf) as Hend. change (2 ^ 30 - 2 ^ 25) with 1040187392 in Hs.
  destruct (module_list_stream a page_size g k conf (pid_ d) (elf_files env) (local_names env) eq_refl Hpage s mappings (im_members im) (im_given im) (im_mappings im) Hm Hgiven
    (filling_roomy _ _ _ _ _ Hf Hs)) as (entries & wr1 & E & G & S1 & M1).
  destruct (required_ok p q [e1] s (with_writer s wr1) (400000 * (n + 1)) (MD_MODULE_LIST_STREAM, (4 + 108 * n, position_ (minidump_writer_ s))) Hf G)
    as (wr2 & E2 & F2 & St2 & K2); [unfold n in *; change (2 ^ 30) with 1073741824; lia|cbn; lia|].
  eexists _, _, _, wr2. split; [exact E|]. split; [exact E2|]. split; [exact F2|]. split; [exact St2|]. exists entries. split.
  - apply (stream_kept _ wr1); [done|done|lia|]. rewrite length_app, length_le_bytes, (length_concat_same 108), <- (Forall2_length _ _ _ M1); [unfold n; lia|].
    eapply Forall2_Forall_r; [exact M1|]. apply Forall_forall. intros img _ entry. apply length_written.
  - eapply Forall2_impl; [exact M1|]. intros img entry H. apply (module_written_keeps _ wr1); [done|]. eapply module_written_weaken; [exact H|]. lia.
Qed.

(** The memory of the application has no entry; its blocks are listed with the
    others. *)
Lemma memory_stage p q es s im ms0 : filling p q es (minidump_writer_ s) -> length es = 2%nat -> image_of_process im ->
  memory_blocks_ s = ms0 -> length ms0 = length (concat (map img_blocks (im_threads im))) ->
  let c := app_room (app_memory_list_ conf) + 16 * Z.of_nat (length (im_blocks im)) + 70000 in size_ (minidump_writer_ s) + c < 2 ^ 30 - 2 ^ 25 ->
  exists s1 r s2 ms e wr, WriteAppMemory a page_size g k conf crash_thread s = Ret (true, s1)
    /\ WriteMemoryListStream a page_size g s1 = Ret (r, s2)
    /\ required a (r, s2) (directory q) 2 = Ret (true, DumpState wr (ms0 ++ ms) (crashing_thread_context_ s) (crash_address_ s))
    /\ filling p q (es ++ [e]) wr /\ step (q + 156) c (minidump_writer_ s) wr /\ Forall2 (block_stored (q + 156) wr) app_blocks ms
    /\ stream_at (q + 156) wr MD_MEMORY_LIST_STREAM e (le_bytes 4 (Z.of_nat (length (ms0 ++ ms))) ++ concat (map memory_descriptor_bytes (ms0 ++ ms))).
Proof.
  intros Hf Hes (_ & _ & _ & _ & _ & Happ & Hb & _) Hms Hl0 c Hs. pose proof (filling_position _ _ _ _ Hf) as Hend. change (2 ^ 30 - 2 ^ 25) with 1040187392 in Hs.
  change (2 ^ 16) with 65536 in Hb. pose proof (app_room_nonneg a _ Happ) as Hnn.
  destruct (app_memory_written a page_size g k conf crash_thread eq_refl Hpage s) as (wr1 & ms & E1 & G1 & B1); [|done|].
  { apply (filling_roomy _ _ _ _ _ Hf). change (2 ^ 30 - 2 ^ 25) with 1040187392. unfold c in Hs. lia. }
  rewrite Hms in E1. assert (length (ms0 ++ ms) = length (im_blocks im)) as Hlen.
  { unfold im_blocks, app_blocks. by rewrite !length_app, Hl0, (Forall2_length _ _ _ B1). }
  pose proof (grows_position _ _ _ G1) as [P1 Z1]. set (s1 := DumpState wr1 (ms0 ++ ms) (crashing_thread_context_ s) (crash_address_ s)) in *.
  assert (forall wr, with_writer s1 wr = DumpState wr (ms0 ++ ms) (crashing_thread_context_ s) (crash_address_ s)) as Hws by reflexivity.
  assert (minidump_writer_ s1 = wr1 /\ memory_blocks_ s1 = ms0 ++ ms) as [Hs1 Hms1] by done. clearbody s1.
  destruct (memory_list_written a page_size g eq_refl Hpage s1) as (wr2 & E2 & G2 & S2).
  { rewrite Hms1, Hlen. unfold roomy. rewrite Hs1. split; [by apply grows_ok in G1|]. change (2 ^ 30 - 2 ^ 25) with 1040187392. unfold c in Hs. lia. }
  { by rewrite Hms1, Hlen. }
  rewrite Hs1, Hms1 in *. rewrite Hlen in G2. pose proof (grows_trans _ _ _ _ _ G1 G2) as G.
  destruct (required_ok p q es s (with_writer s1 wr2) c (MD_MEMORY_LIST_STREAM, (4 + 16 * Z.of_nat (length (ms0 ++ ms)), position_ wr1)) Hf)
    as (wr3 & E3 & F3 & St3 & K3); [apply (grows_weaken _ _ _ _ G); unfold c; lia|change (2 ^ 30) with 1073741824; unfold c in *; lia|lia|]. rewrite Hes in E3. rewrite Hws in E2, E3, K3.
  eexists s1, _, _, ms, _, wr3. split; [exact E1|]. split; [exact E2|]. split; [exact E3|]. split; [exact F3|]. split; [exact St3|]. split.
  - apply (blocks_stored_keeps _ wr2); [done|]. apply (blocks_stored_keeps _ wr1); [by apply (keeps_grows _ _ _ _ G2)|]. eapply blocks_stored_weaken; [exact B1|done].
  - apply (stream_kept _ wr2); [done|done|lia|]. rewrite (length_app (le_bytes 4 _)), length_le_bytes, (length_concat_same 16), length_map; [lia|].
    apply Forall_map, Forall_forall. done.
Qed.

Lemma exception_stage p q es s : filling p q es (minidump_writer_ s) -> length es = 3%nat -> size_ (minidump_writer_ s) + 70000 < 2 ^ 30 - 2 ^ 25 ->
  exists r e wr, WriteExceptionStream a page_size g crash_thread s crash_signal crash_signal_code = Ret r
    /\ required a r (directory q) 3 = Ret (true, with_writer s wr) /\ filling p q (es ++ [e]) wr /\ step (q + 156) 70000 (minidump_writer_ s) wr
    /\ stream_at (q + 156) wr MD_EXCEPTION_STREAM e (exception_bytes crash_thread crash_signal crash_signal_code (crash_address_ s) (crashing_thread_context_ s)).
Proof.
  intros Hf Hes Hs. pose proof (filling_position _ _ _ _ Hf) as Hend. change (2 ^ 30 - 2 ^ 25) with 1040187392 in Hs.
  destruct (exception_written a page_size g crash_thread eq_refl Hpage s crash_signal crash_signal_code (filling_roomy _ _ _ _ _ Hf Hs)) as (wr1 & E & G & S1).
  destruct (required_ok p q es s (with_writer s wr1) 70000 (MD_EXCEPTION_STREAM, (168, position_ (minidump_writer_ s))) Hf G) as (wr2 & E2 & F2 & St2 & K2);
    [change (2 ^ 30) with 1073741824; lia|lia|]. rewrite Hes in E2.
  eexists _, _, wr2. split; [exact E|]. split; [exact E2|]. split; [exact F2|]. split; [exact St2|]. by apply (stream_kept _ wr1).
Qed.

Lemma system_stage p q es s im : filling p q es (minidump_writer_ s) -> length es = 4%nat -> image_of_process im -> size_ (minidump_writer_ s) + 200000 < 2 ^ 30 - 2 ^ 25 ->
  exists r e wr, write_system_info a page_size env range_fuel g s = Ret r
    /\ required a r (directory q) 4 = Ret (true, with_writer s wr) /\ filling p q (es ++ [e]) wr /\ step (q + 156) 200000 (minidump_writer_ s) wr
    /\ system_info_at (q + 156) wr im e.
Proof.
  intros Hf Hes (_ & _ & _ & _ & _ & _ & _ & (b & Hcpu) & (mems & Hu & Hm) & Ha & _) Hs. pose proof (filling_position _ _ _ _ Hf) as Hend. change (2 ^ 30 - 2 ^ 25) with 1040187392 in Hs.
  destruct (system_info_stream page_size (arch_of a) Hpage range_fuel (minidump_writer_ s) (this_machine env) b (im_system im) mems (im_uname im))
    as (wr1 & rva & E & G & Hrva & S1 & S2); [apply Hf|change (2 ^ 30) with 1073741824; lia|done|done|done|done|].
  destruct (required_ok p q es s (with_writer s wr1) 200000 (MD_SYSTEM_INFO_STREAM, (56, position_ (minidump_writer_ s))) Hf G) as (wr2 & E2 & F2 & St2 & K2);
    [change (2 ^ 30) with 1073741824; lia|lia|]. rewrite Hes in E2.
  assert (Z.of_nat (length (system_info_bytes (set_os (im_system im) MD_OS_ANDROID rva))) = 56) as Hlen.
  { rewrite length_system_info; [done|]. exact (WriteCPUInformation_length (arch_of a) range_fuel (this_machine env) zero_info b (im_system im) eq_refl Hcpu). }
  eexists _, _, wr2. split; [unfold write_system_info, g; rewrite E, bind_Ret; reflexivity|]. split; [exact E2|]. split; [exact F2|]. split; [exact St2|]. exists rva. split.
  - by apply (stream_kept _ wr1).
  - split; [lia|]. apply K2; [lia|done].
Qed.

(** The files, each with an entry whether it is there or not. *)
Lemma write_source_ok s x : source_ok x -> 0 < crash_thread < 2 ^ 64 -> length (name_max (local_names env)) = NAME_MAX -> roomy file_room s ->
  exists l wr, write_source a page_size env g crash_thread s x.2 = Ret (l, with_writer s wr) /\ grows file_room (minidump_writer_ s) wr
    /\ content_written (position_ (minidump_writer_ s)) wr (content (opened_files env) (source_path x.2)) l.
Proof.
  destruct x as [t [filename|node]]; intros (Hr & Hn) Ht Hb Hs; cbn [snd source_path write_source] in *.
  - by apply (WriteFile_spec a page_size g (opened_files env) eq_refl Hpage).
  - destruct Hn as (Hn & Hne & Hfit). by apply (WriteProcFile_spec a page_size g (opened_files env) eq_refl Hpage).
Qed.

Lemma file_at_keeps lo wr wr' x e : keeps lo wr wr' -> file_at lo wr x e -> file_at lo wr' x e.
Proof.
  intros Hk. unfold file_at. destruct (content _ _); [|done]. intros [Ht Ha]. split; [done|]. by apply (at_location_keeps lo wr).
Qed.

Lemma files_stage p q l : 0 < crash_thread < 2 ^ 64 -> length (name_max (local_names env)) = NAME_MAX -> Forall source_ok l -> forall es s, filling p q es (minidump_writer_ s) ->
  (length es + length l <= 13)%nat -> size_ (minidump_writer_ s) + Z.of_nat (length l) * file_room < 2 ^ 30 - 2 ^ 25 ->
  exists es' wr, write_files a page_size env g crash_thread s (directory q) (length es) l = Ret (with_writer s wr) /\ filling p q (es ++ es') wr
    /\ step (q + 156) (Z.of_nat (length l) * file_room) (minidump_writer_ s) wr /\ Forall2 (file_at (q + 156) wr) l es'.
Proof.
  intros Ht Hb. assert (0 <= file_room) as Hroom by done. induction 1 as [|[t src] l Hx _ IH]; intros es s Hf Hes Hs; cbn [write_files length] in *.
  - exists [], (minidump_writer_ s). rewrite app_nil_r. split; [by destruct s|]. split; [done|]. split; [split; [by intros ? ? ? ?|lia]|constructor].
  - pose proof (filling_position _ _ _ _ Hf) as Hend. change (2 ^ 30 - 2 ^ 25) with 1040187392 in *.
    destruct (write_source_ok s (t, src) Hx Ht Hb) as (r & wr1 & E & G & C); [apply (filling_roomy _ _ _ _ _ Hf); change (2 ^ 30 - 2 ^ 25) with 1040187392; lia|].
    cbn [snd] in E, C. rewrite E, bind_Ret. unfold optional. cbn [fst snd].
    set (e := match r return entry with Some l => (t, l) | None => (0, (0, 0)) end).
    destruct (put_stores p q es s (with_writer s wr1) file_room e Hf G) as (wr2 & E2 & F2 & St2 & K2); [change (2 ^ 30) with 1073741824; lia|lia|].
    rewrite E2, bind_Ret. replace (with_writer (with_writer s wr1) wr2) with (with_writer s wr2) by done.
    destruct (IH (es ++ [e]) (with_writer s wr2)) as (es' & wr3 & E3 & F3 & St3 & R3);
      [done|rewrite length_app; cbn [length]; lia|destruct St2 as [_ Z2]; cbn [with_writer minidump_writer_]; lia|].
    rewrite length_app in E3. cbn [length] in E3. rewrite Nat.add_1_r in E3. exists (e :: es'), wr3. split; [exact E3|]. rewrite <- app_assoc in F3. split; [exact F3|].
    split; [replace (Z.of_nat (S (length l)) * file_room) with (file_room + Z.of_nat (length l) * file_room) by lia; by apply (step_trans _ _ _ _ wr2)|].
    constructor; [|done]. apply (file_at_keeps _ wr2); [apply St3|]. cbn [minidump_writer_ with_writer] in K2. unfold file_at, content_written in *.
    destruct (content _ _) as [bytes|]; [|unfold e; by rewrite C]. destruct C as (l' & Hl' & Hat). unfold e. rewrite Hl'. split; [done|].
    apply (at_location_keeps _ wr1); [done|]. eapply at_location_weaken; [exact Hat|lia].
Qed.

(** The stream of the linker before its entry is put. *)
Lemma linker_written s im : image_of_process im -> roomy (linker_room im) s -> let lo := position_ (minidump_writer_ s) in
  exists dso wr, WriteDSODebugStream a page_size g k crash_thread dso_fuel (local_pad env) auxv s = Ret (dso, with_writer s wr)
    /\ grows (linker_room im) (minidump_writer_ s) wr /\ linker_at lo wr im (default (0, (0, 0)) dso).
Proof.
  intros (_ & _ & _ & _ & _ & _ & _ & _ & _ & _ & _ & _ & _ & Hli & Hpad) Hr lo. unfold linker_at, linker_room in *.
  destruct Hli as [phdr phnum Ep En Hz|phdr phnum base Ep En Hn Hp Eloop|phdr phnum base dyn_addr es ds Ep En Hn Hp Eloop Hdyn dynamic Hes debug Hds Hf1 Hf2 Hlen].
  - exists None, (minidump_writer_ s). split; [|split; [apply grows_refl, Hr|done]]. unfold WriteDSODebugStream. rewrite Ep, En. cbn [get_or_oob]. rewrite !bind_Ret.
    destruct Hz as [-> | ->]; [by destruct s|]. rewrite orb_true_r. by destruct s.
  - exists None, (minidump_writer_ s). split; [|split; [apply grows_refl, Hr|done]]. unfold WriteDSODebugStream. rewrite Ep, En. cbn [get_or_oob]. rewrite !bind_Ret.
    apply Z.eqb_neq in Hn, Hp. rewrite Hn, Hp. cbn [orb]. rewrite Eloop, bind_Ret, Z.eqb_refl. by destruct s.
  - cbn [li_dsos li_entries li_debug li_dynamic] in *.
    destruct (dso_debug_stream a page_size g k crash_thread eq_refl Hpage (local_pad env) Hpad auxv s dso_fuel phdr phnum base dyn_addr es ds Ep En Hp Hn Eloop Hdyn Hes Hds Hf1 Hf2 Hlen Hr)
      as (rva & wr & q & E & G & Hq & S1 & D1). fold debug dynamic in E, S1.
    eexists _, wr. split; [exact E|]. split; [exact G|]. cbn [default]. exists rva. split; [|done]. split; [done|]. exists q. split; [|by split].
    assert (forall x y, 0 <= y -> Z.of_nat x + y = Z.of_nat (x + Z.to_nat y)) as Hadd by lia.
    rewrite length_app, length_process_bytes, Hadd by (apply Z.mul_nonneg_nonneg; lia). done.
Qed.

Lemma linker_at_keeps lo wr wr' im e : keeps lo wr wr' -> linker_at lo wr im e -> linker_at lo wr' im e.
Proof.
  intros Hk. unfold linker_at. destruct (im_linker im); [|done]. intros (rva & [Ht Ha] & Hd). exists rva.
  split; [split; [done|by apply (at_location_keeps lo wr)]|by eapply dsos_written_keeps].
Qed.

Lemma module_list_keeps lo wr wr' im e : keeps lo wr wr' -> module_list_at lo wr im e -> module_list_at lo wr' im e.
Proof.
  intros Hk (entries & [Ht Ha] & Hm). exists entries. split; [split; [done|by apply (at_location_keeps lo wr)]|].
  eapply Forall2_impl; [exact Hm|]. intros img entry. by apply module_written_keeps.
Qed.

Lemma stream_keeps lo wr wr' t e bytes : keeps lo wr wr' -> stream_at lo wr t e bytes -> stream_at lo wr' t e bytes.
Proof. intros Hk [Ht Ha]. split; [done|by apply (at_location_keeps lo wr)]. Qed.

(** The streams of the process: four entries, and what they lead to. *)
Lemma process_written p q s im : filling p q [] (minidump_writer_ s) -> image_of_process im -> memory_blocks_ s = [] ->
  let nt := Z.of_nat (length tids) in let nm := Z.of_nat (length (im_members im ++ im_given im)) in
  let room := 600000 * (nt + 1) + 400000 * (nm + 1) + (app_room (app_memory_list_ conf) + 16 * Z.of_nat (length (im_blocks im)) + 70000) + 70000 in
  size_ (minidump_writer_ s) + room < 2 ^ 30 - 2 ^ 25 -> let lo := q + 156 in
  exists e1 e2 e3 e4 ths ms ms' wr, write_process a page_size k env g conf d crash_thread crash_signal crash_signal_code s mappings (directory q)
      = Ret (true, DumpState wr (ms ++ ms') (context_of (crashing_thread_context_ s) ths) (address_of (crash_address_ s) im), im_mappings im)
    /\ filling p q [e1; e2; e3; e4] wr /\ size_ wr <= size_ (minidump_writer_ s) + room
    /\ thread_list_at lo wr im e1 ths ms /\ module_list_at lo wr im e2 /\ Forall2 (block_stored lo wr) app_blocks ms'
    /\ stream_at lo wr MD_MEMORY_LIST_STREAM e3 (le_bytes 4 (Z.of_nat (length (ms ++ ms'))) ++ concat (map memory_descriptor_bytes (ms ++ ms')))
    /\ stream_at lo wr MD_EXCEPTION_STREAM e4
         (exception_bytes crash_thread crash_signal crash_signal_code (address_of (crash_address_ s) im) (context_of (crashing_thread_context_ s) ths)).
Proof.
  intros F0 Him Hms0 nt nm room Hs lo. change (2 ^ 30 - 2 ^ 25) with 1040187392 in Hs. pose proof Him as (_ & _ & _ & _ & _ & Happ & _). pose proof (app_room_nonneg a _ Happ) as Hnn.
  assert (0 <= nt /\ 0 <= nm) as [Hnt Hnm] by (unfold nt, nm; lia). set (wr0 := minidump_writer_ s) in *.
  destruct (threads_stage p q s im F0 Him) as (r1 & e1 & ths & ms & wr1 & E1 & R1 & F1 & [K1 Z1] & T1 & L1);
    [fold wr0 nt; change (2 ^ 30 - 2 ^ 25) with 1040187392; unfold room in *; lia|]. fold wr0 nt in Z1. rewrite Hms0 in R1. cbn [app] in R1.
  set (c := context_of (crashing_thread_context_ s) ths) in *. set (address := address_of (crash_address_ s) im) in *.
  destruct (modules_stage p q e1 (DumpState wr1 ms c address) im F1 Him) as (r2 & s2 & e2 & wr2 & E2 & R2 & F2 & [K2 Z2] & M2);
    [cbn [minidump_writer_]; fold nm; change (2 ^ 30 - 2 ^ 25) with 1040187392; unfold room in *; lia|]. fold nm in Z2. cbn [minidump_writer_ with_writer memory_blocks_ crashing_thread_context_ crash_address_] in *.
  destruct (memory_stage p q [e1; e2] (DumpState wr2 ms c address) im ms F2 eq_refl Him eq_refl L1) as (s3 & r3 & s3' & ms' & e3 & wr3 & E3 & E3' & R3 & F3 & [K3 Z3] & B3 & M3);
    [cbn [minidump_writer_]; change (2 ^ 30 - 2 ^ 25) with 1040187392; unfold room in *; lia|]. cbn [minidump_writer_ crashing_thread_context_ crash_address_ app] in *.
  destruct (exception_stage p q [e1; e2; e3] (DumpState wr3 (ms ++ ms') c address) F3 eq_refl) as (r4 & e4 & wr4 & E4 & R4 & F4 & [K4 Z4] & X4);
    [cbn [minidump_writer_]; change (2 ^ 30 - 2 ^ 25) with 1040187392; unfold room in *; lia|]. cbn [minidump_writer_ with_writer memory_blocks_ crashing_thread_context_ crash_address_ app] in *.
  exists e1, e2, e3, e4, ths, ms, ms', wr4. split.
  { unfold write_process. rewrite E1, bind_Ret, R1, bind_Ret. cbn [negb]. rewrite E2, bind_Ret. cbn beta iota. rewrite R2, bind_Ret. cbn [negb]. unfold with_writer. cbn [memory_blocks_ crashing_thread_context_ crash_address_].
    rewrite E3, bind_Ret. cbn [negb]. rewrite E3', bind_Ret, R3, bind_Ret. cbn [negb]. by rewrite E4, bind_Ret, R4. }
  pose proof (keeps_trans _ _ _ _ K3 K4) as K34. pose proof (keeps_trans _ _ _ _ K2 K34) as K24. split; [done|]. split; [unfold room; lia|].
  destruct T1 as [T1 B1]. split; [split; [by apply (stream_keeps _ wr1)|by apply (threads_written_keeps _ wr1)]|].
  split; [by apply (module_list_keeps _ wr2)|]. split; [by apply (blocks_stored_keeps _ wr3)|]. split; [by apply (stream_keeps _ wr3)|done].
Qed.

(** The streams of the system: nine more. *)
Lemma system_written p q e1 e2 e3 e4 s im : filling p q [e1; e2; e3; e4] (minidump_writer_ s) -> image_of_process im ->
  let room := 200000 + 7 * file_room + linker_room im in size_ (minidump_writer_ s) + room < 2 ^ 30 - 2 ^ 25 -> 0 <= linker_room im -> let lo := q + 156 in
  exists e5 es e13 wr, write_system a page_size k env range_fuel dso_fuel g auxv crash_thread s (directory q) = Ret (true, with_writer s wr)
    /\ filling p q ([e1; e2; e3; e4; e5] ++ es ++ [e13]) wr /\ keeps lo (minidump_writer_ s) wr
    /\ system_info_at lo wr im e5 /\ Forall2 (file_at lo wr) file_streams es /\ linker_at lo wr im e13.
Proof.
  intros F4 Him room Hs Hli lo. pose proof Him as (_ & _ & _ & _ & _ & _ & _ & _ & _ & _ & Hfiles & Htid & Hbuf & _).
  unfold room in *. change (2 ^ 30 - 2 ^ 25) with 1040187392 in Hs. change (7 * file_room) with 118358016 in *.
  destruct (system_stage p q [e1; e2; e3; e4] s im F4 eq_refl Him) as (r5 & e5 & wr5 & E5 & R5 & F5 & [K5 Z5] & rva & Y5 & Hrva & U5);
    [change (2 ^ 30 - 2 ^ 25) with 1040187392; lia|]. cbn [app] in F5.
  destruct (files_stage p q file_streams Htid Hbuf Hfiles [e1; e2; e3; e4; e5] (with_writer s wr5) F5) as (es & wr6 & E6 & F6 & [K6 Z6] & Y6);
    [cbn; lia|change (Z.of_nat (length file_streams) * file_room) with 118358016; cbn [with_writer minidump_writer_]; change (2 ^ 30 - 2 ^ 25) with 1040187392; lia|].
  change (Z.of_nat (length file_streams) * file_room) with 118358016 in Z6. change (with_writer (with_writer s wr5) wr6) with (with_writer s wr6) in E6. cbn [minidump_writer_ with_writer length] in *.
  pose proof (filling_position _ _ _ (with_writer s wr6) F6) as P6. cbn [minidump_writer_ with_writer] in P6.
  destruct (linker_written (with_writer s wr6) im Him) as (dso & wr7 & E7 & G7 & Y7);
    [split; [apply F6|cbn [minidump_writer_ with_writer]; change (2 ^ 30 - 2 ^ 25) with 1040187392; lia]|]. cbn [minidump_writer_ with_writer] in G7, Y7.
  assert (length ([e1; e2; e3; e4; e5] ++ es) = 12%nat) as Hlen by (rewrite length_app, <- (Forall2_length _ _ _ Y6); done).
  destruct (put_stores p q _ (with_writer s wr6) (with_writer s wr7) (linker_room im) (default (0, (0, 0)) dso) F6 G7) as (wr8 & E8 & F8 & [K8 _] & K8');
    [cbn [minidump_writer_ with_writer]; change (2 ^ 30) with 1073741824; lia|lia|]. rewrite Hlen in E8. cbn [minidump_writer_ with_writer] in K8, K8'.
  exists e5, es, (default (0, (0, 0)) dso), wr8. split.
  { unfold write_system. rewrite E5, bind_Ret, R5, bind_Ret. cbn [negb]. rewrite E6, bind_Ret, E7, bind_Ret.
    change (with_writer (with_writer s wr6) wr7) with (with_writer s wr7). by rewrite E8. }
  pose proof (keeps_trans _ _ _ _ K6 K8) as K68. split; [by rewrite <- app_assoc in F8|]. split; [by apply (keeps_trans _ _ wr5)|]. split.
  - exists rva. split; [by apply (stream_keeps _ wr5)|]. split; [done|]. by apply K68.
  - split; [eapply Forall2_impl; [exact Y6|]; intros x e H; by apply (file_at_keeps _ wr6)|].
    apply (linker_at_keeps _ wr7); [done|]. unfold linker_at in *. destruct (im_linker im); [|done]. destruct Y7 as (rva' & [Ht Ha] & Hd). exists rva'.
    split; [split; [done|by eapply at_location_weaken]|by eapply dsos_written_weaken].
Qed.

(** C17: A dump whose image fits is written, and all of it is in the file at the
    end: the directory leads to every stream, and what the streams refer to is
    where they say. The threads go on. *)
Theorem complete_dump s im : image_of_process im -> memory_blocks_ s = [] -> roomy (im_room im) s ->
  exists s', Dump a page_size k env range_fuel dso_fuel g conf d auxv crash_thread crash_signal crash_signal_code s mappings = Ret (true, s', (ThreadsResume k d).2)
    /\ writer_ok (minidump_writer_ s') /\ minidump (position_ (minidump_writer_ s)) (crashing_thread_context_ s) (crash_address_ s) im (minidump_writer_ s').
Proof.
  intros Him Hms0 [Hwr Hs]. unfold im_room in Hs. change (2 ^ 30 - 2 ^ 25) with 1040187392 in Hs.
  pose proof Him as (_ & _ & _ & _ & _ & Happ & _). pose proof (app_room_nonneg a _ Happ) as Hnn.
  assert (0 <= linker_room im) as Hli.
  { unfold linker_room. destruct (im_linker im) as [li|]; [|done]. apply Z.add_nonneg_nonneg; apply Z.mul_nonneg_nonneg; lia. }
  change (7 * file_room) with 118358016 in Hs.
  destruct (header_ok s) as (q & wr0 & E0 & F0 & Z0); [split; [done|change (2 ^ 30 - 2 ^ 25) with 1040187392; lia]|].
  destruct (process_written (position_ (minidump_writer_ s)) q (with_writer s wr0) im F0 Him Hms0) as (e1 & e2 & e3 & e4 & ths & ms & ms' & wr4 & E4 & F4 & Z4 & T1 & M2 & B3 & M3 & X4);
    [cbn [with_writer minidump_writer_]; change (2 ^ 30 - 2 ^ 25) with 1040187392; lia|]. cbn [with_writer minidump_writer_ crashing_thread_context_ crash_address_] in *.
  destruct (system_written (position_ (minidump_writer_ s)) q e1 e2 e3 e4 (DumpState wr4 (ms ++ ms') (context_of (crashing_thread_context_ s) ths) (address_of (crash_address_ s) im)) im F4 Him)
    as (e5 & es & e13 & wr & E13 & F13 & K & Y5 & Y6 & Y7); [cbn [minidump_writer_]; change (7 * file_room) with 118358016; change (2 ^ 30 - 2 ^ 25) with 1040187392; lia|done|].
  cbn [minidump_writer_] in K. eexists. split; [|split; [|exists q, e1, e2, e3, e4, e5, es, e13, ths, ms, ms']].
  - unfold Dump. rewrite E0, bind_Ret. cbn beta iota. rewrite E4, bind_Ret. cbn [negb]. by rewrite E13.
  - apply F13.
  - destruct F13 as (_ & Hh & _ & Hpq & Hdir & _). split; [done|]. split; [done|]. split; [done|].
    destruct T1 as [T1 B1]. split; [split; [by apply (stream_keeps _ wr4)|by apply (threads_written_keeps _ wr4)]|].
    split; [by apply (module_list_keeps _ wr4)|]. split; [by apply (blocks_stored_keeps _ wr4)|]. split; [by apply (stream_keeps _ wr4)|].
    split; [by apply (stream_keeps _ wr4)|]. by split.
Qed.

End Facts.

End Contents.

(** * The concrete process *)

Definition sample_dumper : dumper := LinuxPtraceDumper 10 [10; 14] true {[10; 14]}.

Definition sample_memory (tid start : Z) (n : nat) : Z * list Z := (start, process_bytes arm64_v8a crashed_kernel tid start n).

Definition sample_thread : ThreadInfo := Thread 10 1 0x7180 (sample_registers 0x7180 0x4010) sample_fp.

Definition sample_image : dump_image :=
  let a := arm64_v8a in
  DumpImage (-1)
    [Image (UContext_GetStackPointer a sample_context) (Some (sample_memory 10 0x7000 0x200))
       (ip_block a crashed_kernel [library; stack_mapping] 10 (UContext_GetInstructionPointer a sample_context))
       (UContext_FillCPUContext a sample_context) (UContext_GetInstructionPointer a sample_context);
     Image (stack_pointer sample_thread) (Some (sample_memory 14 0x7000 0x200)) None (ThreadInfo_FillCPUContext a sample_thread)
       (GetInstructionPointer a sample_thread)]
    [ModuleImage 0x4000 0x1000 [] (literal "/lib/a.so")] [] [library; stack_mapping]
    (SystemInfo MD_CPU_ARCHITECTURE_ARM64_OLD 1 42 0 0 0 (replicate 24 0)) [literal "Linux"; literal "4.4"; []; literal "aarch64"] None.

Definition sample_writer : writer := Writer 3 false 0 0 [] [] [].

Definition sample_state : dump_state := DumpState sample_writer [] (9, 9) 0x4100.

Lemma sample_threads :
  threads_are arm64_v8a 4096 crashed_kernel sample_conf sample_dumper [library; stack_mapping] 10 (-1) (replicate NAME_MAX 7) (Thread 0 0 0 [] sample_fp) 0
    [10; 14] (im_threads sample_image).
Proof.
  assert (forall tid start n, length (sample_memory tid start n).2 = n) as Hlen by (intros; apply length_process_bytes).
  assert (forall tid start n, 0 < Z.of_nat n < 2 ^ 16 -> blocks_ok (Some (sample_memory tid start n))) as Hb.
  { intros tid start n Hn. constructor; [by rewrite Hlen|constructor]. }
  constructor; [| |constructor; [| |constructor]].
  - apply is_crashing; [done|done|]. vm_compute. reflexivity.
  - split; [apply Hb; lia|]. split; [constructor; [vm_compute; by split|constructor]|]. vm_compute. reflexivity.
  - apply is_other; [by right| |]; vm_compute; reflexivity.
  - split; [apply Hb; lia|]. split; [constructor|]. vm_compute. reflexivity.
Qed.

Lemma sample_is_image :
  image_of_process arm64_v8a 4096 crashed_kernel sample_environment 10 10 sample_conf sample_dumper [library; stack_mapping] (replicate 34 0) 10 sample_image.
Proof.
  split; [done|]. split; [done|]. split; [exact sample_threads|]. split.
  { apply (included _ _ _ _ _ _ 1 0 [library; stack_mapping] library (ModuleImage 0x4000 0x1000 [] (literal "/lib/a.so")) [library; stack_mapping] [] _ eq_refl).
    - by vm_compute.
    - exists library, false, []. split; [done|]. split; [by vm_compute|]. split; [done|]. split; [done|]. split; [done|]. split.
      + split; [done|]. split; [|by vm_compute]. apply (bool_decide_unpack _). by vm_compute.
      + exists (replicate 245 7). by vm_compute.
    - apply (left_out _ _ _ _ _ _ 0 1 _ stack_mapping); [done|by vm_compute|constructor]. }
  split; [constructor|]. split; [constructor; [by vm_compute|constructor]|]. split; [by vm_compute|].
  split; [exists true; by vm_compute|]. split.
  { eexists. split; [reflexivity|]. assert (forall s, bool_decide (nonzero s) = true -> c_string (s ++ [0]) s) as Hc.
    { intros s Hs. split; [by apply bool_decide_eq_true in Hs|by exists []]. }
    constructor; [by apply Hc; vm_compute|]. constructor; [by apply Hc; vm_compute|]. constructor; [by apply (Hc [])|]. constructor; [by apply Hc; vm_compute|constructor]. }
  split; [apply (bool_decide_unpack _); by vm_compute|]. split.
  { assert (forall node, bool_decide (nonzero node /\ node <> [] /\ (length (proc_path 10 node) < NAME_MAX)%nat) = true ->
      readable (opened_files sample_environment) (proc_path 10 node) -> forall t, source_ok sample_environment 10 (t, ThreadFile node)) as Hn.
    { intros node Hb Hr t. apply bool_decide_eq_true in Hb. by split. }
    constructor; [by vm_compute|]. constructor; [by apply Hn; vm_compute|]. constructor; [by vm_compute|]. constructor.
    { apply Hn; [by vm_compute|]. split; [by repeat constructor|by vm_compute]. }
    constructor; [by apply Hn; vm_compute|]. constructor; [by apply Hn; vm_compute|]. constructor; [by apply Hn; vm_compute|constructor]. }
  split; [done|]. split; [by vm_compute|]. split; [|cbn; lia]. apply (no_program _ _ _ _ _ 0 0); [done|done|by left].
Qed.

Lemma complete_dump_witness :
  let dumped := Dump arm64_v8a 4096 crashed_kernel sample_environment 10 10 no_workaround sample_conf sample_dumper (replicate 34 0) 10 11 1 sample_state
                  [library; stack_mapping] in
  image_of_process arm64_v8a 4096 crashed_kernel sample_environment 10 10 sample_conf sample_dumper [library; stack_mapping] (replicate 34 0) 10 sample_image /\
  exists s', dumped = Ret (true, s', (ThreadsResume crashed_kernel sample_dumper).2) /\ writer_ok (minidump_writer_ s')
    /\ minidump arm64_v8a crashed_kernel sample_environment sample_conf sample_dumper 10 11 1 0 (9, 9) 0x4100 sample_image (minidump_writer_ s').
Proof.
  split; [exact sample_is_image|].
  apply (complete_dump arm64_v8a 4096 crashed_kernel sample_environment 10 10 sample_conf sample_dumper [library; stack_mapping] (replicate 34 0) 10 11 1 ltac:(lia)
    sample_state sample_image).
  - exact sample_is_image.
  - reflexivity.
  - split; [|vm_compute; reflexivity]. repeat split; (done || (vm_compute; discriminate)).
Defined.
